(* ===== verification/_CoqProject ===== *)
-Q . S2P
Prelude.v
PyStr.v
PyText.v
PyRegex.v
PyColl.v
PyFloat.v
PyFile.v
RangeLib.v
RangeFacts.v
RangeProps.v
Transfer.v
BlockSeq.v
BlockGraph.v
VertexSeq.v
EdgeReversal.v
TopoSort.v
SequenceCheck.v
Updater.v
BlockProps.v
DiffPlan.v
DiffPlanFacts.v
DiffProps.v
StashSize.v
StashProps.v
TransferList.v
TransferProps.v
ComputeDiff.v
ComputeFacts.v
UpdaterText.v
UpdaterFacts.v
ComputeProps.v
UpdateProps.v
SparseImg.v
SparseFacts.v
SparseProps.v
Images.v
ImagesProps.v
DynPart.v
DynPartFacts.v
DynPartProps.v
PartitionProps.v
BuildInfo.v
RuntimeFacts.v
BuildInfoProps.v
PartitionSizes.v
PartitionSizesProps.v
PropertyFiles.v
PropertyFilesProps.v
OtaMetadata.v
OtaMetadataProps.v
FloatFacts.v
HostTools.v
Verity.v
VerityProps.v
ImageProp.v
ImagePropProps.v
BuildImage.v
BuildImageProps.v
VBMeta.v
VBMetaProps.v
SignKeys.v
SignKeysProps.v
SignText.v
SignTextProps.v
SignAvb.v
SignFiles.v
SignFilesProps.v
EventLogTags.v
EventLogTagsProps.v
Fat16.v
Fat16Facts.v
Fat16Props.v
BuildProp.v
BuildPropProps.v
FsConfig.v
FsConfigFacts.v
FsConfigProps.v
Merge.v
MergeProps.v
