(* ===== verification/Prelude.v ===== *)
(** * Verification of the Android build tools

    The build system of this repository is driven by Make and Soong; the logic
    of its own that decides something is in the Python tools under src/tools.
    This library models the tools below and proves what makes them correct.

    ** Components and files

    - tools/releasetools/rangelib.py, sets of blocks: RangeLib.v (the class
      [RangeSet] as a tuple of boundaries, [parse], [to_string], [union],
      [intersect], [subtract], [overlaps], [map_within], [extend], [first],
      [next_item]); RangeFacts.v (a range set denotes a set of integers, and
      every operation is the operation on sets); RangeProps.v.
    - tools/releasetools/blockimgdiff.py, incremental updates of an image:
      - Transfer.v: the classes [Transfer], [HeapItem] and [Image]; transfers
        are shared objects, so they live in a store and the program keeps
        their identifiers;
      - BlockSeq.v: [FindSequenceForTransfers] (its phases [GenerateDigraph],
        [FindVertexSequence], [ReverseBackwardEdges], [ImproveVertexSequence])
        and [AssertSequenceGood]; BlockGraph.v, VertexSeq.v, EdgeReversal.v and
        TopoSort.v follow the phases; SequenceCheck.v is about the check, and has
        that the order found is good; Updater.v is the abstract updater that runs a
        sequence in place; BlockProps.v has the theorems;
      - DiffPlan.v: [FindTransfers], [AddTransfer] with its splitting of large
        files, [CanUseImgdiff], [ParseAndValidateSplitInfo];
        DiffPlanFacts.v; DiffProps.v composes it with the sequencing;
      - StashSize.v: [ReviseStashSize]; StashProps.v;
      - TransferList.v: [WriteTransfers], the text of the transfer list;
        TransferProps.v;
      - ComputeDiff.v: [ComputePatches] with its worker threads,
        [SelectAndConvertDiffTransfersToNew], [AssertSha1Good] and [Compute];
        ComputeFacts.v (the threads, as steps over the shared queue in any
        order, and the patches), ComputeProps.v (conversions, the states the
        passes of [Compute] hand to each other, the data and the patches that
        the commands find), UpdateProps.v;
      - UpdaterText.v: the updater of a device as a machine that executes the
        text of a transfer list, word by word, on the blocks of a partition and
        its stashes ([run_text]); UpdaterFacts.v: what the lines that
        [WriteTransfers] writes do when they are executed.
    - tools/releasetools/sparse_img.py: SparseImg.v (the class [SparseImage] on
      the bytes of a file, [LoadFileBlockMap], [GetImagePartitionSize]);
      SparseFacts.v (the file map), SparseProps.v (with a decoder that expands the
      file, and reading through the chunk index);
      tools/releasetools/images.py: Images.v ([EmptyImage], [DataImage],
      [FileImage]), ImagesProps.v.
    - tools/releasetools/common.py:
      - DynPart.v: the class DynamicPartitionsDifference, the operations that turn the
        partitions of the source build into those of the target build;
        DynPartFacts.v (an abstract super partition that runs them),
        DynPartProps.v;
      - PartitionProps.v: the build properties of a partition
        ([PartitionBuildProps]) and recovery.fstab; BuildInfo.v: the properties
        and fingerprints of a build ([BuildInfo]), [LoadInfoDict], and from
        ota_utils.py [ComputeRuntimeBuildInfos]; RuntimeFacts.v (a property
        file as a sequence of events, and what builds at run time have in
        common), BuildInfoProps.v;
      - VBMeta.v: the arguments of avbtool for the partitions of a vbmeta image
        ([GetAvbPartitionsArg], [BuildVBMeta]) and build_image.py's
        [BuildVBMeta], which lists those partitions; VBMetaProps.v;
      - HostTools.v: [RunAndCheckOutput] and the other wrappers of programs;
        computations that change the state of the host, over a class [Host] of
        what the programs and the file system do.
    - tools/releasetools/verity_utils.py: Verity.v (the builders for Verified
      Boot and the search for the smallest partition that holds an image),
      VerityProps.v (what each loop of the search does, and the search).
    - tools/releasetools/build_image.py: ImageProp.v (the properties of an image
      from the dictionary of a build and back), ImagePropProps.v; BuildImage.v
      (the commands of the file systems' tools, the sizes of an image and its
      partition, [BuildImage]), BuildImageProps.v.  The builder for Verified
      Boot is an interface: BuildImageProps.v proves its theorem against the
      class [VerityLaws], and Verity.v's builder is an instance.
    - tools/releasetools/sign_target_files_apks.py, with the lists of certificates
      and the passwords of common.py:
      - SignKeys.v: the keys of packages ([ReadApkCerts], [GetApkCerts],
        [ReadApexKeysInfo], [GetApexKeys], [CheckApkAndApexKeysAvailable],
        [BuildKeyMap]); SignKeysProps.v;
      - SignText.v: the texts that are rewritten ([RewriteProps], [EditTags], the
        keys of Verified Boot in the info dict, misc_info.txt, the keys for OTA
        packages, API levels); SignTextProps.v;
      - SignAvb.v: the output of avbtool as a tree ([ParseAvbInfo]) and the
        footer with another key;
      - SignFiles.v: what becomes of every entry ([ProcessTargetFiles]) and the
        run of [main]; SignFilesProps.v.
    - tools/releasetools/merge/ (merge_utils.py, merge_meta.py, the lists of
      merge_target_files.py): Merge.v (what is taken from a framework build and a
      vendor build, and the files under META of the merged one), MergeProps.v.
    - tools/releasetools/check_partition_sizes.py: PartitionSizes.v,
      PartitionSizesProps.v.
    - tools/releasetools/ota_utils.py: PropertyFiles.v (the texts that say where
      the entries of a package are, and the passes of [FinalizeMetadata]),
      PropertyFilesProps.v; OtaMetadata.v (the metadata of
      a package, with the detection of downgrades, and its legacy text),
      OtaMetadataProps.v.
    - tools/event_log_tags.py and tools/merge-event-log-tags.py: EventLogTags.v,
      EventLogTagsProps.v.
    - tools/fat16copy.py: Fat16.v (the class [fat] on the bytes of an image, and
      the directories of [fat_dir] with their long names); Fat16Facts.v (the
      allocation table), Fat16Props.v (reading and writing along a chain).
    - tools/post_process_props.py: BuildProp.v, BuildPropProps.v.
    - tools/fs_config/fs_config_generator.py: FsConfig.v (the parsers of the
      two C headers and of config.fs files, and the generators),
      FsConfigFacts.v, FsConfigProps.v (with a reader for the binary form of the
      entries).
    - This file has the error monad ([result]: a value or a Python exception),
      loops over lists that may raise, Python's list indexing, stable sorting
      and the shared tactics; PyStr.v has strings, PyText.v
      paths, lines and the words of a shell command, PyRegex.v regular
      expressions as backtracking parsers, PyColl.v the ordered
      dictionary and [heapq], PyFloat.v the floats used for limits and
      estimates, FloatFacts.v bounds on their results, PyFile.v binary files:
      bytes, file objects, [struct] and [bisect].

    ** What is shown

    - A block diff never fails and is right: [UpdateProps.compute_correct] is
      the whole of it ([Compute] succeeds, and executing the text of the transfer
      list it writes, with the new data and the patches it writes, on a device that
      holds the source image ends with the target image in the blocks of the care
      map, zeroes in the extended blocks and the other blocks of the image
      discarded), [UpdateProps.patches_any_schedule] says
      that the order of the threads does not matter; its parts are
      [DiffProps.diff_plan_accepted] (for
      images whose files partition the care map, transfers are found, ordered
      and accepted), [BlockProps.in_place_update_correct] (an updater that
      applies them in place, with the stashes they name, writes the target),
      [BlockProps.sequence_accepted] and [StashProps.revised_sequence_ok] (the
      order found, and its revision for a small cache, pass the check and the
      revision keeps within the limit), [TransferProps.transfer_list_written]
      (the transfer list is written without failing an assertion), with
      [BlockProps.assert_sequence_good_decides] saying what the check decides.
    - Range sets are sets, and their texts round-trip (RangeProps.v).
    - Sparse images: the file map is a partition of the care map, as a block
      diff asserts; what is read is what a sequential decoder of the file gives;
      a chunk can be appended (SparseProps.v).  The same for the images around
      data and raw files (ImagesProps.v).
    - Dynamic partitions: the operation list leads from the source to the target
      build with no group over its limit at any time
      ([DynPartProps.dynamic_partitions_reach_target]); the size check decides
      whether all slots fit ([PartitionSizesProps.partition_sizes_decided]).
    - Builds: what a property file gives, and that the builds a device may be at
      run time differ in nothing but the product part of their fingerprints
      (BuildInfoProps.v).
    - OTA packages: property files locate the entries of the finished package
      ([PropertyFilesProps.finalized_package_verified]); a downgrade is never
      packed unless asked for ([OtaMetadataProps.package_metadata_correct]).
    - Images of partitions: the properties of an image are what a table of
      sources says ([ImagePropProps.image_props_from_table]); the search for a
      partition size returns, and what it finds holds the image and is the least
      that does where avbtool's answers grow with the size
      ([VerityProps.dynamic_partition_size_found]); the sizes planned leave room
      for the files ([BuildImageProps.image_sizes_planned]); the arguments for a
      vbmeta image describe each partition as configured, with no rollback index
      location used twice ([VBMetaProps.avb_partitions_described]).
    - Signing: what every entry of the input adds to the output and what is added
      besides, with nothing else written ([SignFilesProps.target_files_signed]); the keys it works with are those the
      options and lists give, and it is refused exactly when one is missing
      ([SignKeysProps.signing_keys_decided]); a property file has its tags edited
      and nothing else ([SignTextProps.rewrite_props_edits_tags]); two defects are
      stated as theorems ([SignKeysProps.apex_keys_ignore_mappings],
      [SignAvb.root_digest_unchecked]).
    - Merging: the lists inferred for two builds take no partition twice
      ([MergeProps.inferred_lists_valid]); the lists of package keys are merged
      by partition ([MergeProps.package_keys_merged]).
    - Event log tags: merged tags are unique by name and number and read back
      (EventLogTagsProps.v).
    - FAT images: allocation takes free clusters only and leaves the rest of the
      image alone, what is written is read back; two defects are stated as
      theorems ([Fat16Props.make_short_name_correct],
      [Fat16Props.full_root_diverges]).
    - Property files: conflicts between assignments are resolved by name,
      independently of the order of a set; the written file is legal and reads
      back (BuildPropProps.v).
    - Filesystem configuration: accepted files have consistent identifiers in
      the ranges reserved for them, the first match of a path is the best one,
      the binary file reads back (FsConfigProps.v).

    ** Conventions

    A method is a function of the same name. Code that may raise returns
    [result]; [assert!] is Python's assert. Exceptions are told apart by class,
    their messages are not modelled, nor is logging. Code that runs programs is
    a computation on the state of the host, which keeps that state when it
    raises. A loop without a structural argument has fuel, and running out of
    it is the exception [OutOfFuel]: the sequencing loops get one unit per
    transfer (each round removes one), the splitting loops one per block, the
    loops over clusters one per table entry, links between entries of target
    files one per entry, the search for a partition size
    1040 + k, where a partition of 2^k bytes holds the image (a step doubles or
    halves a distance, and no float holds a number of 1024 bits), and the
    theorems show that their calls return; where the code does loop for ever a
    theorem says so for every fuel. Dictionaries are association lists in
    insertion order; where the code iterates over a set or a Python 2
    dictionary, the order is a parameter. Integers are unbounded as in Python;
    where the code cuts them to bytes the cut is written out.

    ** Parameters

    imgdiff and bsdiff, zlib, the hash of a set of blocks, the schedule of the
    worker threads, the order in which a set or an old dictionary is listed,
    the unpacking of a boot image, sha256 of a text, the existence of a path,
    and the tools that rewrite and sign a zip file are parameters. For images,
    the programs run (mkfs, avbtool, du, fsck and so on) and the files they
    change are the operations of the class [Host]; for signing, the class
    [SigningHost] adds the tools that sign, compress and read certificates, XML
    and payloads. What a theorem assumes of them is a named hypothesis
    ([imgdiff_ok], [tools_ok], [fair], a permutation, [tools_keep_layout]); of
    avbtool, that the room it leaves in a partition depends on its size only; of the
    hash of blocks, that it is injective and its values are words a transfer list can
    hold.

    ** Not modelled

    The tools that mainly run other programs on files are not modelled:
    ota_from_target_files.py and the payloads of OTA packages,
    check_target_files_vintf.py, add_img_to_target_files.py, validation, warning
    and SBOM reports, CI.  Of the merging of builds the copying of files, the checks
    and the compilation by other programs are left out; of build_image.py the copying of
    the input directory and the command line are left out; of
    sign_target_files_apks.py the options of the command line and the images
    that the vendor's tools rebuild; of common.py, certificates, the images and
    the zip files; of ota_utils.py, the payload generator and the APEX
    information.  Reading and writing of files is represented by the contents. *)

From Stdlib Require Export ZArith Lia Sorted.
From stdpp Require Export base tactics numbers strings option gmap list.
#[export] Set Default Goal Selector "!".
#[export] Set Warnings "-clear-no-such-hyp".
#[global] Open Scope Z_scope.

(** * Python exceptions and the error monad *)

(** The exception classes the modelled code can raise.  Messages are not
    modelled.  [OutOfFuel] is not a Python exception: it is the value of a loop
    whose fuel ran out, and the termination theorems show it does not occur. *)
Inductive exn : Type :=
| AssertionError | ValueError | IndexError | KeyError | TypeError
| AttributeError | RuntimeError | StructError | UnboundLocalError
| ZeroDivisionError | OverflowError | FileNotFoundError
| ExternalError | BuildImageError | BuildVerityImageError | InsufficientSpaceException | SystemExit (code : Z) | OutOfFuel.

Inductive result (A : Type) : Type :=
| Ok (a : A)
| Raise (e : exn).
Arguments Ok {A} a.
Arguments Raise {A} e.

#[export] Instance result_ret : MRet result := fun A x => Ok x.
#[export] Instance result_bind : MBind result := fun A B f m =>
  match m with Ok a => f a | Raise e => Raise e end.
#[export] Instance result_fmap : FMap result := fun A B f m =>
  match m with Ok a => Ok (f a) | Raise e => Raise e end.
#[export] Instance exn_eq_dec : EqDecision exn.
Proof. solve_decision. Defined.

Declare Scope py_scope.
Delimit Scope py_scope with py.
#[global] Open Scope py_scope.

(** [let! p := m in k] runs [m] and passes its value to [k]. *)
Notation "'let!' p ':=' m 'in' k" :=
  (match m with Ok p => k | Raise e__ => Raise e__ end)
  (at level 10, p pattern, m at level 100, k at level 200,
   format "'[v' 'let!'  p  ':='  m  'in' '/' k ']'") : py_scope.
(** Python's [assert b] followed by [k]. *)
Notation "'assert!' b 'in' k" := (if b then k else Raise AssertionError)
  (at level 10, b at level 100, k at level 200,
   format "'[v' 'assert!'  b  'in' '/' k ']'") : py_scope.

(** A [for] loop over [l] that carries a state and may raise. *)
Fixpoint foldM {A S : Type} (f : S -> A -> result S) (s : S) (l : list A) : result S :=
  match l with
  | [] => Ok s
  | x :: l' => let! s' := f s x in foldM f s' l'
  end.

Fixpoint mapM {A B : Type} (f : A -> result B) (l : list A) : result (list B) :=
  match l with
  | [] => Ok []
  | x :: l' => let! y := f x in let! ys := mapM f l' in Ok (y :: ys)
  end.

Definition is_ok {A} (r : result A) : bool := match r with Ok _ => true | Raise _ => false end.
Definition of_option {A} (e : exn) (o : option A) : result A :=
  match o with Some a => Ok a | None => Raise e end.

(** Decomposes a successful run, and case-splits on the tests it passed. *)
Ltac inv_ok :=
  repeat match goal with
  | H : Ok _ = Ok _ |- _ => injection H as H; try subst
  | H : Raise _ = Raise _ |- _ => injection H as H; try subst
  | H : Ok _ = Raise _ |- _ => discriminate H
  | H : Raise _ = Ok _ |- _ => discriminate H
  | H : match ?m with Ok _ => _ | Raise _ => _ end = Ok _ |- _ =>
      let E := fresh "E" in destruct m eqn:E; [|discriminate H]
  | H : (if ?b then _ else Raise _) = Ok _ |- _ =>
      let E := fresh "E" in destruct b eqn:E; [|discriminate H]
  | H : (if ?b then Raise _ else _) = Ok _ |- _ =>
      let E := fresh "E" in destruct b eqn:E; [discriminate H|]
  end.

(** Turns boolean tests into propositions. *)
Ltac bool_prop :=
  repeat match goal with
  | H : _ && _ = true |- _ => apply andb_true_iff in H as [? ?]
  | H : _ || _ = false |- _ => apply orb_false_iff in H as [? ?]
  | H : negb _ = true |- _ => apply negb_true_iff in H
  | H : negb _ = false |- _ => apply negb_false_iff in H
  | H : (_ <=? _) = true |- _ => apply Z.leb_le in H
  | H : (_ <=? _) = false |- _ => apply Z.leb_gt in H
  | H : (_ <? _) = true |- _ => apply Z.ltb_lt in H
  | H : (_ <? _) = false |- _ => apply Z.ltb_ge in H
  | H : (_ =? _) = true |- _ => apply Z.eqb_eq in H
  | H : (_ =? _) = false |- _ => apply Z.eqb_neq in H
  | H : bool_decide _ = true |- _ => apply bool_decide_eq_true in H
  | H : bool_decide _ = false |- _ => apply bool_decide_eq_false in H
  end.

(** Case-splits on every comparison of integers in sight and calls [lia]. *)
Ltac zcases :=
  repeat match goal with
  | |- context [Z.leb ?a ?b] => destruct (Z.leb_spec a b)
  | |- context [Z.ltb ?a ?b] => destruct (Z.ltb_spec a b)
  | |- context [Z.eqb ?a ?b] => destruct (Z.eqb_spec a b)
  | H : context [Z.leb ?a ?b] |- _ => destruct (Z.leb_spec a b)
  | H : context [Z.ltb ?a ?b] |- _ => destruct (Z.ltb_spec a b)
  | H : context [Z.eqb ?a ?b] |- _ => destruct (Z.eqb_spec a b)
  end; simpl in *; try lia; try congruence; try reflexivity.

Create HintDb py.
Create Rewrite HintDb py_rewrite.

Section folds.
Context {A S : Type}.
Implicit Types (f : S -> A -> result S) (l : list A).

Lemma foldM_app f s l1 l2 :
  foldM f s (l1 ++ l2) = let! s' := foldM f s l1 in foldM f s' l2.
Proof. revert s; induction l1 as [|x l1 IH]; intros s; simpl; [done|]. by destruct (f s x). Qed.

(** An invariant indexed by the part of the list already visited. *)
Lemma foldM_ind (P : list A -> S -> Prop) f s l s' :
  foldM f s l = Ok s' ->
  P [] s ->
  (forall pre x post t t', l = pre ++ x :: post -> P pre t -> f t x = Ok t' -> P (pre ++ [x]) t') ->
  P l s'.
Proof.
  intros Hf H0 Hstep.
  assert (forall pre t, P pre t -> forall post, l = pre ++ post ->
            foldM f t post = Ok s' -> P l s') as Hgen.
  { intros pre t Hp post; revert pre t Hp.
    induction post as [|x post IH]; intros pre t Hp Hl Hfold; simpl in *.
    - rewrite app_nil_r in Hl; subst. by inv_ok.
    - inv_ok. eapply (IH (pre ++ [x])); [by eapply Hstep| |done].
      by rewrite <- app_assoc. }
  by eapply (Hgen [] s H0 l).
Qed.

(** A loop whose body succeeds under its invariant succeeds. *)
Lemma foldM_ok (P : list A -> S -> Prop) f s l :
  P [] s ->
  (forall pre x post t, l = pre ++ x :: post -> P pre t ->
     exists t', f t x = Ok t' /\ P (pre ++ [x]) t') ->
  exists s', foldM f s l = Ok s' /\ P l s'.
Proof.
  intros H0 Hstep.
  assert (forall post pre t, l = pre ++ post -> P pre t ->
            exists s', foldM f t post = Ok s' /\ P l s') as Hgen.
  { induction post as [|x post IH]; intros pre t Hl Hp; simpl.
    - rewrite app_nil_r in Hl; subst; eauto.
    - destruct (Hstep pre x post t Hl Hp) as (t' & -> & Hp').
      apply (IH (pre ++ [x])); [by rewrite <- app_assoc|done]. }
  by apply (Hgen l []).
Qed.

Lemma foldM_pure (g : S -> A -> S) s l :
  foldM (fun s x => Ok (g s x)) s l = Ok (fold_left g l s).
Proof. revert s; induction l as [|x l IH]; intros s; simpl; [done|]. apply IH. Qed.
End folds.

Lemma mapM_ok {A B} (f : A -> result B) (g : A -> B) l :
  (forall x, x ∈ l -> f x = Ok (g x)) -> mapM f l = Ok (map g l).
Proof.
  induction l as [|x l IH]; intros H; simpl; [done|].
  rewrite H by left. rewrite IH by (intros; apply H; by right). done.
Qed.

(** * Sums *)

Definition sumZ (l : list Z) : Z := foldr Z.add 0 l.

Lemma sumZ_app l1 l2 : sumZ (l1 ++ l2) = sumZ l1 + sumZ l2.
Proof. induction l1; simpl in *; lia. Qed.

Lemma sumZ_perm l1 l2 : l1 ≡ₚ l2 -> sumZ l1 = sumZ l2.
Proof. induction 1; simpl; lia. Qed.

Lemma sumZ_nonneg l : Forall (fun x => 0 <= x) l -> 0 <= sumZ l.
Proof. induction 1; simpl; lia. Qed.

(** * Integer ranges: Python's [range(s, e)] *)

Definition zrange (s e : Z) : list Z := seqZ s (e - s).

Lemma elem_of_zrange s e x : x ∈ zrange s e <-> s <= x < e.
Proof. unfold zrange. rewrite elem_of_seqZ. lia. Qed.

Lemma length_zrange s e : Z.of_nat (length (zrange s e)) = Z.max 0 (e - s).
Proof. unfold zrange. rewrite length_seqZ. lia. Qed.

Lemma zrange_nil s e : e <= s -> zrange s e = [].
Proof. intros. unfold zrange. by rewrite seqZ_nil by lia. Qed.

Lemma zrange_cons s e : s < e -> zrange s e = s :: zrange (s + 1) e.
Proof.
  intros. unfold zrange. rewrite seqZ_cons by lia.
  f_equal; f_equal; lia.
Qed.

Lemma zrange_split s m e : s <= m <= e -> zrange s e = zrange s m ++ zrange m e.
Proof.
  intros. unfold zrange. replace (e - s) with ((m - s) + (e - m)) by lia.
  rewrite seqZ_app by lia. do 2 f_equal; lia.
Qed.

Lemma zrange_shift a off n : zrange (a + off) (a + off + n) = map (fun i => a + i) (zrange off (off + n)).
Proof.
  destruct (decide (n <= 0)); [by rewrite !zrange_nil by lia|].
  assert (0 <= n) as Hn by lia. revert off. pattern n. apply natlike_ind; [| |done]; clear.
  - intros off. by rewrite !zrange_nil by lia.
  - intros n Hn IH off. rewrite (zrange_cons (a + off)), (zrange_cons off) by lia. cbn [map]. f_equal.
    replace (off + Z.succ n) with (off + 1 + n) by lia. replace (a + off + Z.succ n) with (a + (off + 1) + n) by lia.
    rewrite <- IH. f_equal. lia.
Qed.

Lemma NoDup_zrange s e : NoDup (zrange s e).
Proof. apply NoDup_seqZ. Qed.

(** * Python list indexing *)

(** [l[i]] with an integer index: negative indices count from the end, and an
    index out of range raises [IndexError]. *)
Definition py_idx (len i : Z) : option nat :=
  if (0 <=? i) && (i <? len) then Some (Z.to_nat i)
  else if (- len <=? i) && (i <? 0) then Some (Z.to_nat (i + len))
  else None.

Definition py_get {A} (l : list A) (i : Z) : result A :=
  match py_idx (Z.of_nat (length l)) i with
  | Some n => of_option IndexError (l !! n)
  | None => Raise IndexError
  end.

Definition py_set {A} (l : list A) (i : Z) (x : A) : result (list A) :=
  match py_idx (Z.of_nat (length l)) i with
  | Some n => Ok (<[n := x]> l)
  | None => Raise IndexError
  end.

Lemma py_get_nonneg {A} (l : list A) i x :
  0 <= i -> l !! Z.to_nat i = Some x -> py_get l i = Ok x.
Proof.
  intros Hi Hx. pose proof (lookup_lt_Some _ _ _ Hx).
  unfold py_get, py_idx. zcases. by rewrite Hx.
Qed.

Lemma py_set_nonneg {A} (l : list A) i x :
  0 <= i < Z.of_nat (length l) -> py_set l i x = Ok (<[Z.to_nat i := x]> l).
Proof. intros Hi. unfold py_set, py_idx. zcases. Qed.

(** A slice [l[i:j]] with bounds that are not negative. *)
Definition py_slice {A} (l : list A) (i j : Z) : list A :=
  take (Z.to_nat (j - i)) (drop (Z.to_nat i) l).

(** * Stable sorting: Python's [list.sort] and [sorted] *)

Section sorting.
Context {A : Type} (leb : A -> A -> bool).

Fixpoint insert_by (x : A) (l : list A) : list A :=
  match l with
  | [] => [x]
  | y :: l' => if leb x y then x :: l else y :: insert_by x l'
  end.

Definition sort_by (l : list A) : list A := foldr insert_by [] l.

Lemma insert_by_perm x l : insert_by x l ≡ₚ x :: l.
Proof.
  induction l as [|y l IH]; simpl; [done|]. destruct (leb x y); [done|].
  rewrite IH. apply Permutation_swap.
Qed.

Lemma sort_by_perm l : sort_by l ≡ₚ l.
Proof.
  induction l as [|x l IH]; simpl; [done|]. unfold sort_by in *; simpl.
  by rewrite insert_by_perm, IH.
Qed.

Lemma elem_of_sort_by x l : x ∈ sort_by l <-> x ∈ l.
Proof. by rewrite sort_by_perm. Qed.

Section total.
Context (leb_total : forall x y, leb x y = false -> leb y x = true).
Context (leb_trans : forall x y z, leb x y = true -> leb y z = true -> leb x z = true).

Lemma insert_by_sorted x l :
  StronglySorted (fun a b => leb a b = true) l ->
  StronglySorted (fun a b => leb a b = true) (insert_by x l).
Proof.
  induction 1 as [|y l Hs IH Hall]; simpl; [repeat constructor|].
  destruct (leb x y) eqn:E.
  - constructor; [by constructor|]. constructor; [done|].
    eapply (Forall_impl _ _ _ Hall). intros z Hz; simpl in *. by apply (leb_trans x y z).
  - constructor; [done|]. rewrite insert_by_perm. constructor; [by apply leb_total|done].
Qed.

Lemma sort_by_sorted l : StronglySorted (fun a b => leb a b = true) (sort_by l).
Proof. induction l; simpl; [constructor|by apply insert_by_sorted]. Qed.
End total.

Lemma sort_by_id l : StronglySorted (fun a b => leb a b = true) l -> sort_by l = l.
Proof.
  induction 1 as [|x l Hs IH Hall]; simpl; [done|]. unfold sort_by in *; simpl. rewrite IH.
  destruct l as [|y l]; simpl; [done|]. inversion Hall as [|?? Hxy]; subst. by rewrite Hxy.
Qed.
End sorting.

(** * Loops and lists *)

Lemma foldM_unit_iff {A} (f : A -> result unit) l :
  foldM (fun _ x => f x) tt l = Ok tt <-> forall x, x ∈ l -> f x = Ok tt.
Proof.
  induction l as [|x l IH]; simpl; [split; [by intros _ x ?%elem_of_nil|done]|].
  setoid_rewrite elem_of_cons. destruct (f x) as [[]|e] eqn:E.
  - rewrite IH. split; [intros H y [->|Hy]; auto|auto].
  - split; [done|]. intros H. rewrite <- E. apply H. by left.
Qed.

Lemma foldM_flat_map {A B S} (f : S -> B -> result S) (g : A -> list B) s l :
  foldM (fun s x => foldM f s (g x)) s l = foldM f s (flat_map g l).
Proof.
  revert s. induction l as [|x l IH]; intros s; simpl; [done|]. rewrite foldM_app.
  destruct (foldM f s (g x)); [apply IH|done].
Qed.

Lemma foldM_ext {A S} (f g : S -> A -> result S) s l : (forall s x, f s x = g s x) -> foldM f s l = foldM g s l.
Proof.
  intros H. revert s. induction l as [|x l IH]; intros s; simpl; [done|]. rewrite H. by destruct (g s x).
Qed.

Lemma mapM_Forall2 {A B} (f : A -> result B) l l' : mapM f l = Ok l' -> Forall2 (fun x y => f x = Ok y) l l'.
Proof.
  revert l'. induction l as [|x l IH]; intros l' H; cbn [mapM] in H; [injection H as <-; constructor|].
  destruct (f x) as [y|] eqn:Ey; [|done]. destruct (mapM f l) as [ys|]; [|done]. injection H as <-. constructor; [done | by apply IH].
Qed.

Lemma Forall2_in_l {A B} (R : A -> B -> Prop) l l' x : Forall2 R l l' -> x ∈ l -> exists y, y ∈ l' /\ R x y.
Proof. intros H (i & Hi)%list_elem_of_lookup. destruct (Forall2_lookup_l _ _ _ _ _ H Hi) as (y & Hy & Hr). eauto using list_elem_of_lookup_2. Qed.

Lemma Forall2_in_r {A B} (R : A -> B -> Prop) l l' y : Forall2 R l l' -> y ∈ l' -> exists x, x ∈ l /\ R x y.
Proof. intros H (i & Hi)%list_elem_of_lookup. destruct (Forall2_lookup_r _ _ _ _ _ H Hi) as (x & Hx & Hr). eauto using list_elem_of_lookup_2. Qed.

Lemma flat_map_ext_in {A B} (f g : A -> list B) l : (forall x, x ∈ l -> f x = g x) -> flat_map f l = flat_map g l.
Proof.
  induction l as [|x l IH]; intros H; simpl; [done|]. rewrite H by left. rewrite IH; [done|].
  intros y Hy. apply H. by right.
Qed.

Lemma flat_map_perm {A B} (f : A -> list B) l1 l2 : l1 ≡ₚ l2 -> flat_map f l1 ≡ₚ flat_map f l2.
Proof.
  induction 1; simpl; [done|by apply Permutation_app_head| |by etrans].
  rewrite !app_assoc. by apply Permutation_app_tail, Permutation_app_comm.
Qed.

Lemma flat_map_disjoint {A B} (f : A -> list B) l x y b : NoDup (flat_map f l) ->
  x ∈ l -> y ∈ l -> b ∈ f x -> b ∈ f y -> x = y.
Proof.
  induction l as [|z l IH]; simpl; [by intros _ ?%elem_of_nil|].
  intros (Hz & Hd & Hl)%NoDup_app Hx Hy Hbx Hby.
  assert (forall w, w ∈ l -> b ∈ f w -> b ∈ flat_map f l) as Hin.
  { intros w Hw Hb. apply list_elem_of_In, in_flat_map. exists w. split; by apply list_elem_of_In. }
  apply elem_of_cons in Hx as [->|Hx]; apply elem_of_cons in Hy as [->|Hy].
  - done.
  - exfalso. eapply Hd; [exact Hbx|by eapply Hin].
  - exfalso. eapply Hd; [exact Hby|by eapply Hin].
  - by apply IH.
Qed.

Lemma NoDup_flat_map {A B} (f : A -> list B) l :
  (forall x, x ∈ l -> NoDup (f x)) ->
  (forall b n m x y, l !! n = Some x -> l !! m = Some y -> b ∈ f x -> b ∈ f y -> n = m) ->
  NoDup (flat_map f l).
Proof.
  induction l as [|z l IH]; intros H1 H2; simpl; [constructor|]. apply NoDup_app. split_and!.
  - apply H1. by left.
  - intros b Hb Hb'. apply list_elem_of_In, in_flat_map in Hb' as (w & Hw & Hbw).
    apply list_elem_of_In in Hw, Hbw. apply list_elem_of_lookup in Hw as [k Hk].
    by specialize (H2 b 0%nat (S k) z w eq_refl Hk Hb Hbw).
  - apply IH; [intros x Hx; apply H1; by right|]. intros b n m x y Hn Hm Hbx Hby.
    specialize (H2 b (S n) (S m) x y Hn Hm Hbx Hby). lia.
Qed.

Lemma lookup_map {A B} (f : A -> B) l n : map f l !! n = f <$> (l !! n).
Proof. revert n. induction l as [|x l IH]; intros [|n]; simpl; done. Qed.

#[export] Hint Rewrite @sumZ_app @foldM_app : py_rewrite.
