(* ===== verification/PyStr.v ===== *)
(** Python strings: splitting, stripping, searching, and the text form of
    integers ([str(n)] and [int(text, base)]), with the round-trip between the
    two.  Strings are sequences of 8-bit characters; the code's inputs
    (property files, block maps, C headers) are ASCII. *)

From Stdlib Require Export Ascii.
From stdpp Require Export pretty list.
From S2P Require Export Prelude.

#[local] Open Scope string_scope.
#[local] Open Scope list_scope.
#[local] Open Scope Z_scope.
#[global] Arguments String.append : simpl nomatch.

(** * Characters *)

Definition code (c : ascii) : Z := Z.of_N (N_of_ascii c).

(** [str.isspace] on ASCII: tab to carriage return, the four separators, space. *)
Definition is_space (c : ascii) : bool :=
  ((9 <=? code c) && (code c <=? 13)) || ((28 <=? code c) && (code c <=? 32)).

Definition to_lower (c : ascii) : ascii :=
  if (65 <=? code c) && (code c <=? 90) then ascii_of_N (Z.to_N (code c + 32)) else c.
Definition to_upper (c : ascii) : ascii :=
  if (97 <=? code c) && (code c <=? 122) then ascii_of_N (Z.to_N (code c - 32)) else c.

Fixpoint str_map (f : ascii -> ascii) (s : string) : string :=
  match s with "" => "" | String c s' => String (f c) (str_map f s') end.

Definition str_lower := str_map to_lower.
Definition str_upper := str_map to_upper.

Fixpoint str_forallb (f : ascii -> bool) (s : string) : bool :=
  match s with "" => true | String c s' => f c && str_forallb f s' end.

Definition str_len (s : string) : Z := Z.of_nat (String.length s).

(** Truth value of a string. *)
Definition str_true (s : string) : bool := match s with "" => false | _ => true end.

(** * Searching and cutting *)

Definition starts_with (p s : string) : bool := String.prefix p s.

Fixpoint ends_with (p s : string) : bool :=
  String.eqb p s || match s with "" => false | String _ s' => ends_with p s' end.

(** [p in s] for strings. *)
Fixpoint contains (p s : string) : bool :=
  starts_with p s || match s with "" => false | String _ s' => contains p s' end.

Fixpoint has_char (c : ascii) (s : string) : bool :=
  match s with "" => false | String d s' => Ascii.eqb d c || has_char c s' end.

Fixpoint str_drop (n : nat) (s : string) : string :=
  match n, s with
  | O, _ => s
  | S n', String _ s' => str_drop n' s'
  | S _, "" => ""
  end.

(** [s.split(sep, 1)]: the two sides of the first occurrence of [sep]. *)
Fixpoint split_once (sep s : string) : option (string * string) :=
  if starts_with sep s then Some ("", str_drop (String.length sep) s)
  else match s with
       | "" => None
       | String c s' =>
           match split_once sep s' with
           | Some (a, b) => Some (String c a, b)
           | None => None
           end
       end.

Fixpoint lstrip (s : string) : string :=
  match s with
  | String c s' => if is_space c then lstrip s' else s
  | "" => ""
  end.

Fixpoint rstrip (s : string) : string :=
  match s with
  | "" => ""
  | String c s' =>
      let t := rstrip s' in
      if is_space c && String.eqb t "" then "" else String c t
  end.

Definition strip (s : string) : string := rstrip (lstrip s).

(** [text.split()]: maximal runs of characters that are not white space.  The
    auxiliary function also returns the run that starts the text. *)
Fixpoint split_ws_aux (s : string) : string * list string :=
  match s with
  | "" => ("", [])
  | String c s' =>
      let '(t, ts) := split_ws_aux s' in
      if is_space c then ("", if str_true t then t :: ts else ts)
      else (String c t, ts)
  end.

Definition split_ws (s : string) : list string :=
  let '(t, ts) := split_ws_aux s in if str_true t then t :: ts else ts.

(** The characters up to the first white space, and the rest. *)
Fixpoint word_rest (s : string) : string * string :=
  match s with
  | "" => ("", "")
  | String c s' => if is_space c then ("", s) else let '(w, r) := word_rest s' in (String c w, r)
  end.

(** [s.split(None, 1)]: the first word and the rest. *)
Definition split_ws_once (s : string) : list string :=
  match lstrip s with
  | "" => []
  | s' =>
      let '(w, rest) := word_rest s' in
      match lstrip rest with "" => [w] | r => [w; r] end
  end.

(** [text.split(c)] for a one-character separator. *)
Fixpoint split_char (c : ascii) (s : string) : list string :=
  match s with
  | "" => [""]
  | String d s' =>
      if Ascii.eqb d c then "" :: split_char c s'
      else match split_char c s' with
           | t :: ts => String d t :: ts
           | [] => [String d ""]
           end
  end.

(** [sep.join(l)]. *)
Fixpoint str_join (sep : string) (l : list string) : string :=
  match l with
  | [] => ""
  | [x] => x
  | x :: l' => x +:+ sep +:+ str_join sep l'
  end.

(** * Lines *)

Definition newline : ascii := "010".

(** [f.readlines()]: the lines of a content with the newlines that end them. *)
Fixpoint keep_ends (l : list string) : list string :=
  match l with
  | [] => []
  | [s] => if str_true s then [s] else []
  | s :: l' => (s +:+ String newline "") :: keep_ends l'
  end.
Definition readlines (content : string) : list string := keep_ends (split_char newline content).

(** * Integers in text *)

(** [str(n)]. *)
Definition py_str (n : Z) : string := pretty n.

(** The value of a digit or letter. *)
Definition digit_val (c : ascii) : option Z :=
  if (48 <=? code c) && (code c <=? 57) then Some (code c - 48)
  else if (97 <=? code c) && (code c <=? 122) then Some (code c - 87)
  else if (65 <=? code c) && (code c <=? 90) then Some (code c - 55)
  else None.

(** Digits of base [base] with single underscores between them.  [us] tells
    that an underscore may come next, [dig] that the last character was a
    digit. *)
Fixpoint parse_digits (base acc : Z) (us dig : bool) (s : string) : option Z :=
  match s with
  | "" => if dig then Some acc else None
  | String c s' =>
      if Ascii.eqb c "_" then (if us then parse_digits base acc false false s' else None)
      else match digit_val c with
           | Some d => if d <? base then parse_digits base (acc * base + d) true true s' else None
           | None => None
           end
  end.

(** A base prefix such as [0x]. *)
Definition base_prefix (s : string) : option (Z * string) :=
  match s with
  | String "0" (String c s') =>
      if Ascii.eqb (to_lower c) "x" then Some (16, s')
      else if Ascii.eqb (to_lower c) "o" then Some (8, s')
      else if Ascii.eqb (to_lower c) "b" then Some (2, s')
      else None
  | _ => None
  end.

(** [int(text, base)] on an unsigned literal: base 0 reads the base from the
    prefix and refuses a decimal literal that starts with [0] unless it is
    zero; a base 2, 8 or 16 accepts its own prefix. *)
Definition parse_unsigned (base : Z) (s : string) : option Z :=
  match base_prefix s with
  | Some (b, s') =>
      if (base =? 0) || (base =? b) then parse_digits b 0 true false s'
      else parse_digits base 0 false false s
  | None =>
      if base =? 0 then
        match parse_digits 10 0 false false s with
        | Some v => if starts_with "0" s && negb (v =? 0) then None else Some v
        | None => None
        end
      else parse_digits base 0 false false s
  end.

Definition py_int_base (base : Z) (s : string) : result Z :=
  let s := strip s in
  of_option ValueError
    match s with
    | String c s' =>
        if Ascii.eqb c "-" then Z.opp <$> parse_unsigned base s'
        else if Ascii.eqb c "+" then parse_unsigned base s'
        else parse_unsigned base s
    | "" => None
    end.

(** [int(text)]. *)
Definition py_int : string -> result Z := py_int_base 10.

(** * Lemmas *)

Section digits.
Lemma pretty_N_char_digit d : (d < 10)%N ->
  digit_val (pretty_N_char d) = Some (Z.of_N d) /\
  Ascii.eqb (pretty_N_char d) "_" = false /\
  is_space (pretty_N_char d) = false /\
  Ascii.eqb (pretty_N_char d) "-" = false /\
  Ascii.eqb (pretty_N_char d) "+" = false.
Proof.
  intros Hd.
  assert (d = 0 \/ d = 1 \/ d = 2 \/ d = 3 \/ d = 4 \/ d = 5 \/ d = 6 \/ d = 7 \/ d = 8 \/ d = 9)%N
    as H by lia.
  repeat (destruct H as [->|H]; [by vm_compute|]). by subst.
Qed.

Definition is_digit (c : ascii) : bool := (48 <=? code c) && (code c <=? 57).

Lemma pretty_N_char_is_digit d : (d < 10)%N -> is_digit (pretty_N_char d) = true.
Proof.
  intros Hd.
  assert (d = 0 \/ d = 1 \/ d = 2 \/ d = 3 \/ d = 4 \/ d = 5 \/ d = 6 \/ d = 7 \/ d = 8 \/ d = 9)%N
    as H by lia.
  repeat (destruct H as [->|H]; [by vm_compute|]). by subst.
Qed.

(** Reading a printed number is reading its value. *)
Lemma parse_pretty_go x s us dig :
  (0 < x)%N ->
  parse_digits 10 0 us dig (pretty_N_go x s) = parse_digits 10 (Z.of_N x) true true s.
Proof.
  revert s. induction x as [x IH] using (well_founded_induction N.lt_wf_0).
  intros s Hx. rewrite pretty_N_go_step by done.
  destruct (pretty_N_char_digit (x `mod` 10)) as (Hv & Hu & _); [by apply N.mod_lt|].
  destruct (decide (x `div` 10 = 0)%N) as [H0|H0].
  - rewrite H0, pretty_N_go_0. simpl. rewrite Hu, Hv.
    apply N.div_small_iff in H0; [|done]. rewrite N.mod_small by done.
    by destruct (Z.ltb_spec (Z.of_N x) 10); [|lia].
  - rewrite IH; [|by apply N.div_lt|by apply N.neq_0_lt_0]. simpl. rewrite Hu, Hv.
    pose proof (N.mod_lt x 10 ltac:(done)).
    destruct (Z.ltb_spec (Z.of_N (x `mod` 10)) 10); [|lia].
    f_equal. rewrite (N.div_mod x 10) at 3 by done. lia.
Qed.

Lemma pretty_N_go_forallb f x s :
  (forall d, (d < 10)%N -> f (pretty_N_char d) = true) ->
  str_forallb f s = true -> str_forallb f (pretty_N_go x s) = true.
Proof.
  intros Hf. revert s. induction x as [x IH] using (well_founded_induction N.lt_wf_0).
  intros s Hs. destruct (decide (x = 0)%N) as [->|Hx]; [by rewrite pretty_N_go_0|].
  rewrite pretty_N_go_step by lia. apply IH; [apply N.div_lt; lia|].
  simpl. by rewrite Hf by (by apply N.mod_lt).
Qed.

Lemma pretty_N_go_ne x s : (0 < x)%N -> exists c t, pretty_N_go x s = String c t.
Proof.
  revert s. induction x as [x IH] using (well_founded_induction N.lt_wf_0).
  intros s Hx. rewrite pretty_N_go_step by done.
  destruct (decide (x `div` 10 = 0)%N) as [->|H0].
  - rewrite pretty_N_go_0. eauto.
  - apply IH; [by apply N.div_lt|by apply N.neq_0_lt_0].
Qed.
End digits.

Lemma str_forallb_impl f g s :
  (forall c, f c = true -> g c = true) -> str_forallb f s = true -> str_forallb g s = true.
Proof.
  intros H. induction s as [|c s IH]; simpl; [done|].
  intros [? ?]%andb_true_iff. by rewrite H, IH.
Qed.

Lemma str_forallb_app f s t : str_forallb f (s +:+ t) = str_forallb f s && str_forallb f t.
Proof. induction s as [|c s IH]; simpl; [done|]. by rewrite IH, andb_assoc. Qed.

(** Text without white space is left alone by [strip]. *)
Lemma lstrip_nospace s : str_forallb (fun c => negb (is_space c)) s = true -> lstrip s = s.
Proof. destruct s as [|c s]; simpl; [done|]. intros [Hc _]%andb_true_iff. by destruct (is_space c). Qed.

Lemma rstrip_nospace s : str_forallb (fun c => negb (is_space c)) s = true -> rstrip s = s.
Proof.
  induction s as [|c s IH]; simpl; [done|]. intros [Hc Hs]%andb_true_iff.
  rewrite IH by done. by destruct (is_space c).
Qed.

Lemma strip_nospace s : str_forallb (fun c => negb (is_space c)) s = true -> strip s = s.
Proof. intros H. unfold strip. by rewrite lstrip_nospace, rstrip_nospace. Qed.

Lemma py_str_digits n : 0 <= n -> str_forallb is_digit (py_str n) = true.
Proof.
  intros Hn. unfold py_str. destruct n as [|p|p]; [done| |lia].
  change (str_forallb is_digit (pretty_N_go (Npos p) "") = true).
  apply pretty_N_go_forallb; [|done]. intros. by apply pretty_N_char_is_digit.
Qed.

Lemma py_str_ne n : 0 <= n -> exists c t, py_str n = String c t.
Proof.
  intros Hn. unfold py_str. destruct n as [|p|p]; [by eexists _, _| |lia].
  change (exists c t, pretty_N_go (Npos p) "" = String c t). by apply pretty_N_go_ne.
Qed.

(** Properties of a digit that the parsers test. *)
Lemma is_digit_facts c : is_digit c = true ->
  is_space c = false /\ Ascii.eqb c "-" = false /\ Ascii.eqb c "+" = false /\
  Ascii.eqb c "," = false /\ Ascii.eqb (to_lower c) "x" = false /\
  Ascii.eqb (to_lower c) "o" = false /\ Ascii.eqb (to_lower c) "b" = false.
Proof. destruct c as [[] [] [] [] [] [] [] []]; vm_compute; intuition congruence. Qed.

(** [int(str(n)) == n] for a number that is not negative. *)
Lemma py_int_str n : 0 <= n -> py_int (py_str n) = Ok n.
Proof.
  intros Hn. unfold py_int, py_int_base.
  pose proof (py_str_digits n Hn) as Hd.
  rewrite strip_nospace.
  2: { eapply str_forallb_impl; [|exact Hd]. intros c Hc. by destruct (is_digit_facts c Hc) as (-> & _). }
  destruct (py_str_ne n Hn) as (c & t & Heq). rewrite Heq in Hd |- *.
  simpl in Hd. apply andb_true_iff in Hd as [Hc Ht].
  destruct (is_digit_facts c Hc) as (_ & -> & -> & _).
  assert (parse_unsigned 10 (String c t) = Some n) as ->; [|done].
  unfold parse_unsigned.
  assert (base_prefix (String c t) = None) as ->.
  { destruct t as [|d t]; [by destruct c as [[] [] [] [] [] [] [] []]|].
    simpl in Ht. apply andb_true_iff in Ht as [Hd _].
    destruct (is_digit_facts d Hd) as (_ & _ & _ & _ & H1 & H2 & H3).
    unfold base_prefix. rewrite H1, H2, H3. by destruct c as [[] [] [] [] [] [] [] []]. }
  simpl (10 =? 0). cbv iota. rewrite <- Heq. unfold py_str.
  destruct n as [|p|p]; [done| |lia].
  change (parse_digits 10 0 false false (pretty_N_go (Npos p) "") = Some (Zpos p)).
  by rewrite parse_pretty_go.
Qed.

(** * The order of texts *)

Lemma ascii_compare_lt_trans a b c : Ascii.compare a b = Lt -> Ascii.compare b c = Lt -> Ascii.compare a c = Lt.
Proof. unfold Ascii.compare. rewrite !N.compare_lt_iff. apply N.lt_trans. Qed.

Lemma ascii_compare_eq a b : Ascii.compare a b = Eq -> a = b.
Proof. apply Ascii.compare_eq_iff. Qed.

Lemma string_leb_trans a b c : String.leb a b = true -> String.leb b c = true -> String.leb a c = true.
Proof.
  unfold String.leb. revert b c. induction a as [|x a IH]; intros [|y b] [|z c]; simpl; try done.
  destruct (Ascii.compare x y) eqn:E1; [|intros _|done].
  - apply ascii_compare_eq in E1 as ->. destruct (Ascii.compare y z); [apply IH|done|done].
  - destruct (Ascii.compare y z) eqn:E2; [apply ascii_compare_eq in E2 as <-; by rewrite E1| |done].
    by rewrite (ascii_compare_lt_trans x y z).
Qed.

Lemma string_ltb_leb a b : String.ltb a b = negb (String.leb b a).
Proof. unfold String.ltb, String.leb. rewrite (String.compare_antisym b a). by destruct (String.compare a b). Qed.

Lemma string_leb_total a b : String.leb a b = false -> String.leb b a = true.
Proof. intros H. destruct (String.leb_total a b); congruence. Qed.

Lemma string_leb_antisym a b : String.leb a b = true -> String.leb b a = true -> a = b.
Proof. apply String.leb_antisym. Qed.

(** * Splitting undoes joining *)

Lemma has_char_forallb c s :
  has_char c s = negb (str_forallb (fun d => negb (Ascii.eqb d c)) s).
Proof. induction s as [|d s IH]; simpl; [done|]. rewrite IH. by destruct (Ascii.eqb d c). Qed.

Lemma split_char_none c s : has_char c s = false -> split_char c s = [s].
Proof.
  induction s as [|d s IH]; simpl; [done|]. intros [H1 H2]%orb_false_iff.
  by rewrite H1, IH.
Qed.

Lemma split_char_app c s t :
  has_char c s = false -> split_char c (s +:+ String c t) = s :: split_char c t.
Proof.
  induction s as [|d s IH]; simpl.
  - by rewrite Ascii.eqb_refl.
  - intros [H1 H2]%orb_false_iff. by rewrite H1, IH.
Qed.

Lemma split_char_join c (l : list string) :
  l <> [] -> Forall (fun s => has_char c s = false) l ->
  split_char c (str_join (String c "") l) = l.
Proof.
  intros Hne. induction 1 as [|x l Hx Hl IH]; [done|]. destruct l as [|y l].
  - simpl. by apply split_char_none.
  - change (str_join (String c "") (x :: y :: l))
      with (x +:+ String c (str_join (String c "") (y :: l))).
    rewrite split_char_app by done. f_equal. by apply IH.
Qed.

Lemma str_app_nil_r s : s +:+ "" = s.
Proof. induction s as [|c s IH]; [done|]. exact (f_equal (String c) IH). Qed.

Lemma split_ws_aux_word s t :
  str_forallb (fun c => negb (is_space c)) s = true ->
  split_ws_aux (s +:+ t) = (s +:+ (split_ws_aux t).1, (split_ws_aux t).2).
Proof.
  induction s as [|c s IH]; simpl; [by destruct (split_ws_aux t)|].
  intros [Hc Hs]%andb_true_iff. rewrite IH by done. by destruct (is_space c).
Qed.

(** Splitting on white space undoes joining words with single spaces. *)
Lemma split_ws_join (l : list string) :
  Forall (fun s => str_true s = true /\ str_forallb (fun c => negb (is_space c)) s = true) l ->
  split_ws (str_join " " l) = l.
Proof.
  unfold split_ws. induction 1 as [|x l [Hx1 Hx2] Hl IH]; [done|]. destruct l as [|y l].
  - pose proof (split_ws_aux_word x "" Hx2) as Hw. simpl in *.
    rewrite !str_app_nil_r in Hw. by rewrite Hw, Hx1.
  - change (str_join " " (x :: y :: l)) with (x +:+ String " " (str_join " " (y :: l))).
    rewrite split_ws_aux_word by done.
    destruct (split_ws_aux (str_join " " (y :: l))) as [t ts] eqn:E.
    cbn [split_ws_aux]. rewrite E. simpl. rewrite str_app_nil_r. by rewrite IH, Hx1.
Qed.

(** * Lines written are lines read *)

Lemma str_app_assoc a b c : (a +:+ b) +:+ c = a +:+ (b +:+ c).
Proof. induction a as [|x a IH]; [done|]. exact (f_equal (String x) IH). Qed.

Lemma has_char_app c s t : has_char c (s +:+ t) = has_char c s || has_char c t.
Proof. induction s as [|d s IH]; [done|]. simpl. by rewrite IH, orb_assoc. Qed.

Lemma str_app_len a b : String.length (a +:+ b) = (String.length a + String.length b)%nat.
Proof. induction a as [|c a IH]; [done|]. change (String c a +:+ b) with (String c (a +:+ b)). cbn. by rewrite IH. Qed.

Lemma str_len_app a b : str_len (a +:+ b) = str_len a + str_len b.
Proof. unfold str_len. induction a as [|c a IH]; simpl; lia. Qed.

Lemma str_len_nonneg s : 0 <= str_len s.
Proof. unfold str_len. lia. Qed.

Lemma substring_app p c q : String.substring (String.length p) (String.length c) (p +:+ c +:+ q) = c.
Proof.
  induction p as [|a p IH]; simpl; [|exact IH].
  induction c as [|a c IH]; simpl; [by destruct q|]. f_equal. exact IH.
Qed.

Lemma str_concat_cons x l : str_join "" (x :: l) = x +:+ str_join "" l.
Proof. destruct l; simpl; [by rewrite str_app_nil_r|done]. Qed.

Lemma str_concat_app l1 l2 : str_join "" (l1 ++ l2) = str_join "" l1 +:+ str_join "" l2.
Proof. induction l1 as [|x l1 IH]; [done|]. rewrite <- app_comm_cons, !str_concat_cons, IH. by rewrite str_app_assoc. Qed.

Definition end_line (l : string) : string := l +:+ String newline "".

Lemma split_lines (ls : list string) : Forall (fun s => has_char newline s = false) ls ->
  split_char newline (str_join "" (map end_line ls)) = ls ++ [""].
Proof.
  induction 1 as [|x l Hx Hl IH]; [done|]. cbn [map app]. rewrite str_concat_cons. unfold end_line at 1.
  rewrite str_app_assoc. change (String newline "" +:+ ?t) with (String newline t). rewrite split_char_app by done. by rewrite IH.
Qed.

Lemma readlines_lines (ls : list string) : Forall (fun s => has_char newline s = false) ls ->
  readlines (str_join "" (map end_line ls)) = map end_line ls.
Proof.
  intros H. unfold readlines. rewrite split_lines by done. clear H.
  induction ls as [|x l IH]; [done|]. cbn [app map]. rewrite <- IH. by destruct l.
Qed.

Lemma str_join_lines (l : list string) : l <> [] ->
  end_line (str_join (String newline "") l) = str_join "" (map end_line l).
Proof.
  induction l as [|x l IH]; [done|]. intros _. destruct l as [|y l]; [done|].
  change (str_join (String newline "") (x :: y :: l)) with (x +:+ String newline "" +:+ str_join (String newline "") (y :: l)).
  cbn [map]. rewrite str_concat_cons. change (end_line y :: map end_line l) with (map end_line (y :: l)).
  rewrite <- IH by done. unfold end_line. by rewrite !str_app_assoc.
Qed.
