(* ===== verification/PyText.v ===== *)
(** Texts as several tools take them apart: words of a command line
    ([shlex.split]), paths and lines. *)

From S2P Require Export PyStr.

#[local] Open Scope string_scope.
#[local] Open Scope list_scope.
#[local] Open Scope Z_scope.

(** * [shlex.split] *)

(** Inside a word, inside quotes, after a backslash (which keeps its place in
    double quotes before other characters). *)
Inductive shlex_state := SWord | SQuote (q : ascii) | SEscape (q : option ascii).

Definition backslash : ascii := "092".
Definition is_shlex_space (c : ascii) : bool := (code c =? 32) || (code c =? 9) || (code c =? 13) || (code c =? 10).
Definition is_quote (c : ascii) : bool := (code c =? 34) || (code c =? 39).
Definition push_char (c : ascii) (tok : option string) : option string := Some (default "" tok +:+ String c "").
Definition push_token (tok : option string) (out : list string) : list string := match tok with Some t => out ++ [t] | None => out end.

Fixpoint shlex_go (st : shlex_state) (tok : option string) (out : list string) (s : string) : result (list string) :=
  match s with
  | "" => match st with SWord => Ok (push_token tok out) | _ => Raise ValueError end
  | String c s' =>
      match st with
      | SWord =>
          if is_shlex_space c then shlex_go SWord None (push_token tok out) s'
          else if Ascii.eqb c backslash then shlex_go (SEscape None) tok out s'
          else if is_quote c then shlex_go (SQuote c) (Some (default "" tok)) out s'
          else shlex_go SWord (push_char c tok) out s'
      | SQuote q =>
          if Ascii.eqb c q then shlex_go SWord tok out s'
          else if Ascii.eqb c backslash && (code q =? 34) then shlex_go (SEscape (Some q)) tok out s'
          else shlex_go (SQuote q) (push_char c tok) out s'
      | SEscape None => shlex_go SWord (push_char c tok) out s'
      | SEscape (Some q) =>
          let tok := if Ascii.eqb c backslash || Ascii.eqb c q then tok else push_char backslash tok in
          shlex_go (SQuote q) (push_char c tok) out s'
      end
  end.

Definition shlex_split (s : string) : result (list string) := shlex_go SWord None [] s.

(** * Paths and lines *)

(** [os.path.basename] and [os.path.join]. *)
Definition path_basename (path : string) : string := List.last (split_char "/" path) "".
Definition path_join (a b : string) : string :=
  if starts_with "/" b then b
  else if String.eqb a "" || ends_with "/" a then a +:+ b else a +:+ "/" +:+ b.

(** [os.path.dirname]: what precedes the last slash, without the slashes that end it
    (unless it is slashes only). *)
Fixpoint drop_slashes (s : string) : string :=
  match s with
  | "" => ""
  | String c s' => let t := drop_slashes s' in if Ascii.eqb c "/" && String.eqb t "" then "" else String c t
  end.
Definition path_dirname (path : string) : string :=
  let head := String.substring 0 (String.length path - String.length (path_basename path)) path in
  if String.eqb (drop_slashes head) "" then head else drop_slashes head.

(** [text.splitlines()], of a text read with universal newlines. *)
Definition is_line_end (c : ascii) : bool :=
  existsb (fun n => code c =? n) [10; 11; 12; 28; 29; 30].
Fixpoint splitlines_go (cur : string) (s : string) : list string :=
  match s with
  | "" => if str_true cur then [cur] else []
  | String c s' => if is_line_end c then cur :: splitlines_go "" s' else splitlines_go (cur +:+ String c "") s'
  end.
Definition splitlines (s : string) : list string := splitlines_go "" s.
