(* ===== verification/PyRegex.v ===== *)
(** Patterns of Python's [re], as backtracking parsers: the ways a pattern matches
    the start of a text, in the order the engine tries them. *)

From S2P Require Export PyStr.

#[local] Open Scope string_scope.
#[local] Open Scope list_scope.
#[local] Open Scope Z_scope.

(** What the groups captured and the rest of the text, for every way to match. *)
Definition pat (A : Type) : Type := string -> list (A * string).

Definition re_lit (l : string) : pat unit := fun s =>
  if starts_with l s then [(tt, str_drop (String.length l) s)] else [].

Definition re_one (f : ascii -> bool) : pat ascii := fun s =>
  match s with String c s' => if f c then [(c, s')] else [] | "" => [] end.

(** [f*], greedy and lazy, for a class [f] of characters. *)
Fixpoint re_many (f : ascii -> bool) (s : string) : list (string * string) :=
  match s with
  | "" => [("", "")]
  | String c s' => if f c then map (fun '(t, r) => (String c t, r)) (re_many f s') ++ [("", s)] else [("", s)]
  end.
Fixpoint re_few (f : ascii -> bool) (s : string) : list (string * string) :=
  ("", s) :: match s with
             | "" => []
             | String c s' => if f c then map (fun '(t, r) => (String c t, r)) (re_few f s') else []
             end.
(** [f+]. *)
Definition re_some (f : ascii -> bool) : pat string := fun s => filter (fun tr => str_true tr.1 = true) (re_many f s).

Definition re_seq {A B} (p : pat A) (q : A -> pat B) : pat B := fun s => flat_map (fun '(a, r) => q a r) (p s).
Definition re_ret {A} (a : A) : pat A := fun s => [(a, s)].
(** [p?]. *)
Definition re_opt {A} (p : pat A) : pat (option A) := fun s => map (fun '(a, r) => (Some a, r)) (p s) ++ [(None, s)].
(** [$]: at the end, or before the newline that ends the text. *)
Definition re_end : pat unit := fun s => if String.eqb s "" || String.eqb s (String newline "") then [(tt, s)] else [].

Notation "'let%' p ':=' m 'in' k" := (re_seq m (fun x__ => match x__ with p => k end))
  (at level 10, p pattern, m at level 100, k at level 200, format "'[v' 'let%'  p  ':='  m  'in' '/' k ']'") : py_scope.

(** The class [.], and the others by their characters. *)
Definition re_dot (c : ascii) : bool := negb (Ascii.eqb c newline).
Definition re_not (d c : ascii) : bool := negb (Ascii.eqb c d).
(** A letter, a digit or an underscore. *)
Definition is_word_char (c : ascii) : bool :=
  let n := code c in ((48 <=? n) && (n <=? 57)) || ((65 <=? n) && (n <=? 90)) || ((97 <=? n) && (n <=? 122)) || (n =? 95).

(** [re.match]. *)
Definition re_match {A} (p : pat A) (s : string) : option A :=
  match p s with [] => None | (a, _) :: _ => Some a end.

(** [re.search]: the first place that matches. *)
Fixpoint re_search {A} (p : pat A) (s : string) : option A :=
  match re_match p s with
  | Some a => Some a
  | None => match s with String _ s' => re_search p s' | "" => None end
  end.

(** * Laws *)

(** A pattern matches prefixes: what it captured is [f a], and the rest follows. *)
Definition re_prefix {A} (p : pat A) (f : A -> string -> Prop) : Prop :=
  forall s a r, (a, r) ∈ p s -> exists t, s = t +:+ r /\ f a t.

Lemma starts_with_app l s : starts_with l s = true -> s = l +:+ str_drop (String.length l) s.
Proof.
  revert s. induction l as [|c l IH]; intros s H; [done|]. destruct s as [|d s]; [done|]. cbn in H. destruct (ascii_dec c d); [|done].
  subst d. cbn. f_equal. apply IH, H.
Qed.

Lemma re_lit_prefix l : re_prefix (re_lit l) (fun _ t => t = l).
Proof.
  intros s [] r. unfold re_lit. destruct (starts_with l s) eqn:E; [|by intros ?%elem_of_nil].
  intros [= ->]%list_elem_of_singleton. exists l. split; [by apply starts_with_app|done].
Qed.

Lemma re_one_prefix f : re_prefix (re_one f) (fun c t => t = String c "" /\ f c = true).
Proof.
  intros [|c s] d r; cbn; [by intros ?%elem_of_nil|]. destruct (f c) eqn:Hc; [|by intros ?%elem_of_nil].
  intros [= -> ->]%list_elem_of_singleton. by exists (String c "").
Qed.

Lemma re_many_prefix f : re_prefix (re_many f) (fun a t => t = a /\ str_forallb f a = true).
Proof.
  intros s. induction s as [|c s IH]; intros a r; cbn.
  - intros [= -> ->]%list_elem_of_singleton. by exists "".
  - destruct (f c) eqn:Hc; [|intros [= -> ->]%list_elem_of_singleton; by exists ""].
    intros [H|[= -> ->]%list_elem_of_singleton]%elem_of_app; [|by exists ""].
    apply list_elem_of_fmap in H as ([a' r'] & [= -> ->] & (t & -> & -> & Ht)%IH).
    exists (String c a'). cbn. by rewrite Hc, Ht.
Qed.

Lemma re_few_prefix f : re_prefix (re_few f) (fun a t => t = a /\ str_forallb f a = true).
Proof.
  intros s. induction s as [|c s IH]; intros a r; cbn.
  - intros [= -> ->]%list_elem_of_singleton. by exists "".
  - intros [[= -> ->]|H]%elem_of_cons; [by exists ""|]. destruct (f c) eqn:Hc; [|by apply elem_of_nil in H].
    apply list_elem_of_fmap in H as ([a' r'] & [= -> ->] & (t & -> & -> & Ht)%IH).
    exists (String c a'). cbn. by rewrite Hc, Ht.
Qed.

Lemma re_some_prefix f : re_prefix (re_some f) (fun a t => t = a /\ str_forallb f a = true /\ str_true a = true).
Proof. intros s a r [Ha (t & -> & -> & Ht)%re_many_prefix]%list_elem_of_filter. by exists a. Qed.

Lemma re_ret_prefix {A} (a : A) : re_prefix (re_ret a) (fun b t => b = a /\ t = "").
Proof. intros s b r [= -> ->]%list_elem_of_singleton. by exists "". Qed.

Lemma re_seq_prefix {A B} (p : pat A) (q : A -> pat B) f g :
  re_prefix p f -> (forall a, re_prefix (q a) (g a)) ->
  re_prefix (re_seq p q) (fun b t => exists a t1 t2, t = t1 +:+ t2 /\ f a t1 /\ g a b t2).
Proof.
  intros Hp Hq s b r H. unfold re_seq in H. apply list_elem_of_In, in_flat_map in H as ([a r'] & H1 & H2).
  apply list_elem_of_In in H1, H2. destruct (Hp _ _ _ H1) as (t1 & -> & Hf). destruct (Hq a _ _ _ H2) as (t2 & -> & Hg).
  exists (t1 +:+ t2). rewrite str_app_assoc. split; [done|]. by exists a, t1, t2.
Qed.

Lemma re_opt_prefix {A} (p : pat A) f :
  re_prefix p f -> re_prefix (re_opt p) (fun o t => match o with Some a => f a t | None => t = "" end).
Proof.
  intros Hp s o r [H|[= -> ->]%list_elem_of_singleton]%elem_of_app; [|by exists ""].
  apply list_elem_of_fmap in H as ([a r'] & [= -> ->] & H). by apply Hp.
Qed.

Lemma re_end_prefix : re_prefix re_end (fun _ t => t = "").
Proof.
  intros s [] r. unfold re_end. destruct (_ || _); [|by intros ?%elem_of_nil].
  intros [= ->]%list_elem_of_singleton. by exists "".
Qed.

Lemma re_match_prefix {A} (p : pat A) f s a : re_prefix p f -> re_match p s = Some a -> exists t r, s = t +:+ r /\ f a t.
Proof.
  intros Hp. unfold re_match. destruct (p s) as [|[b r] l] eqn:E; [done|]. intros [= ->].
  destruct (Hp s a r) as (t & Ht & Hf); [rewrite E; by left|]. eauto.
Qed.
