(* ===== verification/PyColl.v ===== *)
(** Python collections the tools rely on: [collections.OrderedDict] as an
    association list in insertion order, and [heapq] as the array algorithm of
    the standard library (the order in which equal scores leave the heap
    depends on it). *)

From S2P Require Export Prelude.

#[local] Open Scope Z_scope.

(** * OrderedDict *)

Section odict.
Context {K V : Type} `{EqDecision K}.
Implicit Types (d : list (K * V)) (k : K) (v : V).

Definition od_keys d : list K := map fst d.

Fixpoint od_get (k : K) (d : list (K * V)) : option V :=
  match d with
  | [] => None
  | (k', v) :: d' => if decide (k = k') then Some v else od_get k d'
  end.

(** [d[k] = v]: a key that is present keeps its place. *)
Fixpoint od_set (k : K) (v : V) (d : list (K * V)) : list (K * V) :=
  match d with
  | [] => [(k, v)]
  | (k', v') :: d' => if decide (k = k') then (k', v) :: d' else (k', v') :: od_set k v d'
  end.

Fixpoint od_remove (k : K) (d : list (K * V)) : list (K * V) :=
  match d with
  | [] => []
  | (k', v') :: d' => if decide (k = k') then d' else (k', v') :: od_remove k d'
  end.

(** [d.pop(k)]. *)
Definition od_pop (k : K) (d : list (K * V)) : result (V * list (K * V)) :=
  match od_get k d with
  | Some v => Ok (v, od_remove k d)
  | None => Raise KeyError
  end.

(** [del d[k]]. *)
Definition od_del (k : K) (d : list (K * V)) : result (list (K * V)) :=
  let! (_, d') := od_pop k d in Ok d'.

(** [d[k]] changed in place by [f]; nothing when [k] is absent. *)
Definition od_update (k : K) (f : V -> V) (d : list (K * V)) : list (K * V) :=
  match od_get k d with Some v => od_set k (f v) d | None => d end.

Definition od_mem (k : K) (d : list (K * V)) : bool := bool_decide (k ∈ od_keys d).

Lemma od_get_None k d : od_get k d = None <-> k ∉ od_keys d.
Proof.
  induction d as [|[k' v] d IH]; simpl; [by split; [intros _ ?%elem_of_nil|]|].
  rewrite not_elem_of_cons, <- IH. case_decide; naive_solver.
Qed.

Lemma od_get_Some_key k d v : od_get k d = Some v -> k ∈ od_keys d.
Proof.
  intros H. destruct (decide (k ∈ od_keys d)) as [?|Hn]; [done|].
  apply od_get_None in Hn. congruence.
Qed.

Lemma od_get_is_Some k d : is_Some (od_get k d) <-> k ∈ od_keys d.
Proof.
  split; [intros [v Hv]; by eapply od_get_Some_key|]. intros Hk.
  destruct (od_get k d) eqn:E; [by eexists|]. by apply od_get_None in E.
Qed.

Lemma od_keys_set k v d : forall j, j ∈ od_keys (od_set k v d) <-> j = k \/ j ∈ od_keys d.
Proof.
  intros j. induction d as [|[k' v'] d IH]; simpl.
  - rewrite elem_of_cons, elem_of_nil. naive_solver.
  - case_decide as Hk; simpl; rewrite !elem_of_cons; [naive_solver|]. rewrite IH. naive_solver.
Qed.

Lemma od_keys_set_NoDup k v d : NoDup (od_keys d) -> NoDup (od_keys (od_set k v d)).
Proof.
  induction d as [|[k' v'] d IH]; simpl; intros Hn; [repeat constructor; by intros ?%elem_of_nil|].
  apply NoDup_cons in Hn as [Hk Hn]. case_decide as Hkk; simpl; [by constructor|].
  constructor; [|by apply IH]. rewrite od_keys_set. naive_solver.
Qed.

Lemma od_get_set k j v d : od_get j (od_set k v d) = if decide (j = k) then Some v else od_get j d.
Proof.
  induction d as [|[k' v'] d IH]; simpl; [by repeat case_decide|].
  repeat case_decide; simplify_eq; simpl; repeat case_decide; simplify_eq; try done.
Qed.

Lemma od_set_fresh k v d : k ∉ od_keys d -> od_set k v d = d ++ [(k, v)].
Proof.
  induction d as [|[k' v'] d IH]; simpl; [done|]. rewrite not_elem_of_cons. intros [H1 H2].
  case_decide; [done|]. by rewrite IH.
Qed.

Lemma od_keys_remove k d : NoDup (od_keys d) ->
  NoDup (od_keys (od_remove k d)) /\
  forall j, j ∈ od_keys (od_remove k d) <-> j ≠ k /\ j ∈ od_keys d.
Proof.
  induction d as [|[k' v'] d IH]; simpl; intros Hn.
  - split; [done|]. intros j. rewrite elem_of_nil. naive_solver.
  - apply NoDup_cons in Hn as [Hk Hn]. destruct (IH Hn) as [IH1 IH2].
    case_decide as Hkk; simpl; subst.
    + split; [done|]. intros j. rewrite elem_of_cons. naive_solver.
    + split.
      * constructor; [|done]. rewrite IH2. naive_solver.
      * intros j. rewrite !elem_of_cons, IH2. naive_solver.
Qed.

Lemma od_get_remove k j d : NoDup (od_keys d) ->
  od_get j (od_remove k d) = if decide (j = k) then None else od_get j d.
Proof.
  induction d as [|[k' v'] d IH]; simpl; intros Hn; [by case_decide|].
  apply NoDup_cons in Hn as [Hk Hn]. specialize (IH Hn).
  repeat (case_decide; simplify_eq; simpl; try done). by apply od_get_None.
Qed.

Lemma od_get_elem k v d : NoDup (od_keys d) -> (k, v) ∈ d -> od_get k d = Some v.
Proof.
  induction d as [|[k' v'] d IH]; simpl; [by intros _ ?%elem_of_nil|].
  intros [Hk Hn]%NoDup_cons [[= -> ->]|Hd]%elem_of_cons; [by case_decide|].
  case_decide; subst; [|by apply IH]. exfalso. apply Hk. by apply (list_elem_of_fmap_2 fst _ (k', v)).
Qed.

Lemma od_get_In k d v : od_get k d = Some v -> (k, v) ∈ d.
Proof.
  induction d as [|[k' v'] d IH]; simpl; [done|]. case_decide; [intros [= <-]; subst; by left|].
  intros Hg. right. auto.
Qed.

Lemma od_get_in k v d : NoDup (od_keys d) -> (k, v) ∈ d <-> od_get k d = Some v.
Proof. intros Hn. split; [by apply od_get_elem|apply od_get_In]. Qed.

Lemma od_get_update k j (f : V -> V) d : od_get j (od_update k f d) = if decide (j = k) then f <$> od_get j d else od_get j d.
Proof.
  unfold od_update. destruct (od_get k d) as [v|] eqn:E.
  - rewrite od_get_set. case_decide; [subst; by rewrite E|done].
  - case_decide; [subst; by rewrite E|done].
Qed.

Lemma od_keys_update k (f : V -> V) d : od_keys (od_update k f d) = od_keys d.
Proof.
  unfold od_update. destruct (od_get k d) as [v|] eqn:E; [|done]. apply od_get_Some_key in E. revert E. generalize (f v) as w. intros w.
  induction d as [|[k' v'] d IH]; simpl; [by intros ?%elem_of_nil|]. intros Hk. case_decide; [done|]. simpl. f_equal. apply IH.
  by apply elem_of_cons in Hk as [?|?].
Qed.

Lemma od_pop_ok k d : k ∈ od_keys d -> exists v, od_get k d = Some v /\ od_pop k d = Ok (v, od_remove k d).
Proof. intros [v Hv]%od_get_is_Some. exists v. unfold od_pop. by rewrite Hv. Qed.
End odict.

(** An ordered set: the keys of an OrderedDict whose values do not matter. *)
Definition os_add {K} `{EqDecision K} (k : K) (s : list K) : list K :=
  if decide (k ∈ s) then s else s ++ [k].

Lemma elem_of_os_add {K} `{EqDecision K} (k j : K) s : j ∈ os_add k s <-> j = k \/ j ∈ s.
Proof.
  unfold os_add. case_decide; [naive_solver|]. rewrite elem_of_app, list_elem_of_singleton. naive_solver.
Qed.

Lemma NoDup_os_add {K} `{EqDecision K} (k : K) s : NoDup s -> NoDup (os_add k s).
Proof.
  intros Hs. unfold os_add. case_decide; [done|]. apply NoDup_app.
  split; [done|]. split; [|apply NoDup_singleton]. intros x Hx ->%list_elem_of_singleton. done.
Qed.

(** * heapq *)

Section heapq.
Context {A : Type} (ltb : A -> A -> bool).
Implicit Types (h : list A) (i j : nat).

(** Moving the hole of [_siftdown] and [_siftup] is exchanging neighbours. *)
Definition swap (i j : nat) (h : list A) : list A :=
  match h !! i, h !! j with
  | Some x, Some y => <[i := y]> (<[j := x]> h)
  | _, _ => h
  end.

Definition lt_at (h : list A) (i j : nat) : bool :=
  match h !! i, h !! j with Some x, Some y => ltb x y | _, _ => false end.

(** [_siftdown]: the item at [pos] rises above larger parents, down to
    [startpos].  Positions at least halve, so [pos] steps are enough. *)
Fixpoint siftdown (fuel : nat) (startpos pos : nat) (h : list A) : list A :=
  match fuel with
  | O => h
  | S fuel' =>
      if (startpos <? pos)%nat then
        let parent := ((pos - 1) / 2)%nat in
        if lt_at h pos parent then siftdown fuel' startpos parent (swap pos parent h) else h
      else h
  end.

(** The descent of [_siftup]: the item at [pos] sinks to a leaf, each time
    exchanged with its smaller child; returns its final position. *)
Fixpoint siftup_go (fuel : nat) (pos : nat) (h : list A) : nat * list A :=
  match fuel with
  | O => (pos, h)
  | S fuel' =>
      let child := (2 * pos + 1)%nat in
      if (child <? length h)%nat then
        let right := (child + 1)%nat in
        let c := if ((right <? length h)%nat && negb (lt_at h child right))%bool then right else child in
        siftup_go fuel' c (swap pos c h)
      else (pos, h)
  end.

Definition siftup (pos : nat) (h : list A) : list A :=
  let '(p, h') := siftup_go (length h) pos h in siftdown (length h') pos p h'.

Definition heappush (h : list A) (x : A) : list A :=
  siftdown (S (length h)) 0 (length h) (h ++ [x]).

Definition heappop (h : list A) : result (A * list A) :=
  match last h with
  | None => Raise IndexError
  | Some x =>
      match removelast h with
      | [] => Ok (x, [])
      | y :: h' => Ok (y, siftup 0 (x :: h'))
      end
  end.

Definition heapify (h : list A) : list A :=
  fold_left (fun h i => siftup i h) (rev (seq 0 (length h / 2))) h.

(** ** The heap operations only rearrange *)

Lemma insert_perm h i x y : h !! i = Some x -> x :: <[i := y]> h ≡ₚ y :: h.
Proof.
  revert i. induction h as [|z h IH]; intros [|i] Hx; simpl in *; simplify_eq.
  - apply Permutation_swap.
  - rewrite Permutation_swap, IH by done. apply Permutation_swap.
Qed.

Lemma swap_perm i j h : swap i j h ≡ₚ h.
Proof.
  unfold swap. destruct (h !! i) as [x|] eqn:Hi; [|done]. destruct (h !! j) as [y|] eqn:Hj; [|done].
  pose proof (insert_perm h j y x Hj) as H1.
  assert (<[j := x]> h !! i = Some x) as Hi'.
  { destruct (decide (i = j)) as [->|?].
    - apply list_lookup_insert_eq. by eapply lookup_lt_Some.
    - by rewrite list_lookup_insert_ne. }
  pose proof (insert_perm _ i x y Hi') as H2. rewrite H1 in H2.
  by apply Permutation.Permutation_cons_inv in H2.
Qed.

Lemma siftdown_perm n s p h : siftdown n s p h ≡ₚ h.
Proof.
  revert p h. induction n as [|n IH]; intros p h; simpl; [done|].
  destruct (s <? p)%nat; [|done]. destruct (lt_at _ _ _); [|done]. by rewrite IH, swap_perm.
Qed.

Lemma siftup_go_perm n p h : (siftup_go n p h).2 ≡ₚ h.
Proof.
  revert p h. induction n as [|n IH]; intros p h; simpl; [done|].
  destruct (_ <? _)%nat; [|done]. by rewrite IH, swap_perm.
Qed.

Lemma siftup_perm p h : siftup p h ≡ₚ h.
Proof.
  unfold siftup. destruct (siftup_go _ _ _) as [q h'] eqn:E.
  rewrite siftdown_perm. pose proof (siftup_go_perm (length h) p h) as H. by rewrite E in H.
Qed.

Lemma heappush_perm h x : heappush h x ≡ₚ x :: h.
Proof. unfold heappush. rewrite siftdown_perm. by rewrite Permutation_app_comm. Qed.

Lemma removelast_last h x : last h = Some x -> h = removelast h ++ [x].
Proof.
  intros H. apply last_Some in H as [l ->]. by rewrite removelast_last.
Qed.

Lemma heappop_perm h x h' : heappop h = Ok (x, h') -> h ≡ₚ x :: h'.
Proof.
  unfold heappop. destruct (last h) as [z|] eqn:E; [|done]. apply removelast_last in E.
  destruct (removelast h) as [|y l]; intros [= <- <-]; rewrite E; simpl; [done|].
  rewrite siftup_perm. by rewrite Permutation_app_comm.
Qed.

Lemma heappop_ok h : h <> [] -> exists x h', heappop h = Ok (x, h').
Proof.
  unfold heappop. intros Hh. destruct (last h) as [z|] eqn:E.
  - destruct (removelast h); eauto.
  - by apply last_None in E.
Qed.

Lemma heapify_perm h : heapify h ≡ₚ h.
Proof.
  unfold heapify. generalize (rev (seq 0 (length h / 2))) as l. intros l. revert h.
  induction l as [|i l IH]; intros h; simpl; [done|]. by rewrite IH, siftup_perm.
Qed.
End heapq.
