(* ===== verification/PyFloat.v ===== *)
(** Python floats where the tools compute limits with them: binary64 numbers of
    the standard library, the conversions of Python's mixed arithmetic (an int
    operand is rounded to the nearest float), exact comparison of an int with a
    float, and truncation by [int(x)]. *)

From Stdlib Require Import SpecFloat.
From S2P Require Export Prelude.

#[local] Open Scope Z_scope.

Definition py_float : Type := spec_float.

Definition prec : Z := 53.
Definition emax : Z := 1024.

(** [float(z)]; an int beyond the range raises. *)
Definition float_of_Z (z : Z) : result py_float :=
  match binary_normalize prec emax z 0 false with
  | S754_infinity _ => Raise OverflowError
  | f => Ok f
  end.

Definition float_mul (a b : py_float) : py_float := SFmul prec emax a b.

(** [a / b]. *)
Definition float_div (a b : py_float) : result py_float :=
  match b with
  | S754_zero _ => Raise ZeroDivisionError
  | _ => Ok (SFdiv prec emax a b)
  end.

Definition float_add (a b : py_float) : py_float := SFadd prec emax a b.
Definition float_sub (a b : py_float) : py_float := SFsub prec emax a b.

(** The float of a count of bytes in memory or of blocks of an image, which is far
    below the range of floats. *)
Definition float_of_count (n : Z) : py_float := binary_normalize prec emax n 0 false.

(** [a / n] for such a count; the float of a nonzero int is not zero. *)
Definition float_div_count (a : py_float) (n : Z) : result py_float :=
  if n =? 0 then Raise ZeroDivisionError else Ok (SFdiv prec emax a (float_of_count n)).

(** The float [m * 2^e]. *)
Definition float_lit (m e : Z) : py_float := binary_normalize prec emax m e false.

(** [bool(x)]. *)
Definition float_true (f : py_float) : bool :=
  match f with S754_zero _ => false | _ => true end.

(** The sign and magnitude as an integer numerator over a power of two. *)
Definition float_num (s : bool) (m : positive) : Z := if s then Zneg m else Zpos m.

(** [z > f], exact as in Python; every comparison with a nan is false. *)
Definition Z_gtb_float (z : Z) (f : py_float) : bool :=
  match f with
  | S754_zero _ => 0 <? z
  | S754_infinity s => s
  | S754_nan => false
  | S754_finite s m e =>
      if 0 <=? e then float_num s m * 2 ^ e <? z else float_num s m <? z * 2 ^ (- e)
  end.

Definition Z_leb_float (z : Z) (f : py_float) : bool :=
  match f with S754_nan => false | _ => negb (Z_gtb_float z f) end.

(** [z >= f]. *)
Definition Z_geb_float (z : Z) (f : py_float) : bool :=
  match f with
  | S754_zero _ => 0 <=? z
  | S754_infinity s => s
  | S754_nan => false
  | S754_finite s m e =>
      if 0 <=? e then float_num s m * 2 ^ e <=? z else float_num s m <=? z * 2 ^ (- e)
  end.

(** [a < b]. *)
Definition float_ltb (a b : py_float) : bool := SFltb a b.

(** [int(f)]. *)
Definition float_trunc (f : py_float) : result Z :=
  match f with
  | S754_zero _ => Ok 0
  | S754_infinity _ => Raise OverflowError
  | S754_nan => Raise ValueError
  | S754_finite s m e =>
      Ok (if 0 <=? e then float_num s m * 2 ^ e else Z.quot (float_num s m) (2 ^ (- e)))
  end.

(** Comparison with a fixed float is monotone. *)
Lemma Z_gtb_float_mono a b f : a <= b -> Z_gtb_float a f = true -> Z_gtb_float b f = true.
Proof.
  intros Hab. unfold Z_gtb_float. destruct f as [s|s| |s m e]; try done.
  - intros H. bool_prop. apply Z.ltb_lt. lia.
  - destruct (0 <=? e) eqn:He; intros H; bool_prop; apply Z.ltb_lt; [lia|].
    assert (0 < 2 ^ (- e)) by (apply Z.pow_pos_nonneg; lia). nia.
Qed.
