(* ===== verification/PyFile.v ===== *)
(** Binary files: bytes as integers, a file object as its contents with a
    position, [struct.pack] and [struct.unpack] of the formats the tools use,
    slices, and bisection of a sorted list. *)

From S2P Require Export Prelude.

#[local] Open Scope list_scope.
#[local] Open Scope Z_scope.

Abbreviation bytes := (list Z).
Definition blen (b : bytes) : Z := Z.of_nat (length b).

(** * File objects *)

Record file := mkFile { f_data : bytes; f_pos : Z }.

Definition f_seek (p : Z) (f : file) : file := mkFile (f_data f) p.
Definition f_seek_set (p : Z) (f : file) : result file := if p <? 0 then Raise ExternalError else Ok (f_seek p f).

(** [skip_bytes] on the image: a negative position is an IOError. *)
Definition f_skip (n : Z) (f : file) : result file :=
  if f_pos f + n <? 0 then Raise ExternalError else Ok (f_seek (f_pos f + n) f).

Definition f_read (n : Z) (f : file) : bytes * file :=
  let got := py_slice (f_data f) (f_pos f) (f_pos f + n) in
  (got, f_seek (f_pos f + blen got) f).

(** Writing at or past the end extends the file; a gap is filled with zeros. *)
Definition splice (d : bytes) (p : nat) (b : bytes) : bytes :=
  take p d ++ replicate (p - length d) 0 ++ b ++ drop (p + length b) d.
Definition f_write (b : bytes) (f : file) : file :=
  match b with
  | [] => f
  | _ => mkFile (splice (f_data f) (Z.to_nat (f_pos f)) b) (f_pos f + blen b)
  end.

(** [struct.unpack] of "B", "<H" and "<L", and [struct.pack]. *)
Definition unpack_B (b : bytes) : result Z := match b with [x] => Ok x | _ => Raise StructError end.
Definition unpack_H (b : bytes) : result Z := match b with [x; y] => Ok (x + 256 * y) | _ => Raise StructError end.
Definition unpack_L (b : bytes) : result Z :=
  match b with [x; y; z; w] => Ok (x + 256 * y + 65536 * z + 16777216 * w) | _ => Raise StructError end.
Definition pack_B (n : Z) : result bytes := if (0 <=? n) && (n <? 256) then Ok [n] else Raise StructError.
Definition pack_H (n : Z) : result bytes :=
  if (0 <=? n) && (n <? 65536) then Ok [n mod 256; n / 256] else Raise StructError.
Definition pack_L (n : Z) : result bytes :=
  if (0 <=? n) && (n <? 4294967296) then Ok [n mod 256; (n / 256) mod 256; (n / 65536) mod 256; n / 16777216]
  else Raise StructError.

Definition read_le_short (f : file) : result (Z * file) :=
  let '(b, f) := f_read 2 f in let! n := unpack_H b in Ok (n, f).

Definition read_byte (f : file) : result (Z * file) :=
  let '(b, f) := f_read 1 f in let! n := unpack_B b in Ok (n, f).

(** An unsigned little-endian integer, and the field of [n] bytes at [p] of a
    record. *)
Definition le (b : bytes) : Z := foldr (fun x acc => x + 256 * acc) 0 b.
Definition field (b : bytes) (p n : Z) : Z := le (py_slice b p (p + n)).

(** * Bytes of a file *)

Definition bytes_ok (d : bytes) : Prop := Forall (fun x => 0 <= x < 256) d.

Lemma slice_bytes_ok d i j : bytes_ok d -> bytes_ok (py_slice d i j).
Proof. intros H. unfold py_slice. by apply Forall_take, Forall_drop. Qed.

Lemma le_nonneg b : bytes_ok b -> 0 <= le b.
Proof. induction 1 as [|x b Hx _ IH]; simpl; lia. Qed.

Lemma field_nonneg b p n : bytes_ok b -> 0 <= field b p n.
Proof. intros H. by apply le_nonneg, slice_bytes_ok. Qed.

(** Reading [n] bytes inside the list. *)
Lemma slice_length (d : bytes) p n : 0 <= p -> 0 <= n -> p + n <= blen d -> blen (py_slice d p (p + n)) = n.
Proof. intros. unfold py_slice, blen in *. rewrite length_take, length_drop. lia. Qed.

(** Neighbouring slices join, whatever the length of the list. *)
Lemma py_slice_app {A} (l : list A) i j k : 0 <= i <= j -> j <= k -> py_slice l i j ++ py_slice l j k = py_slice l i k.
Proof.
  intros Hi Hj. unfold py_slice. replace (Z.to_nat (k - i)) with (Z.to_nat (j - i) + Z.to_nat (k - j))%nat by lia.
  rewrite <- take_take_drop, drop_drop. do 3 f_equal. lia.
Qed.

Lemma py_slice_app_l {A} (p q : list A) i j : 0 <= i -> j <= Z.of_nat (length p) -> py_slice (p ++ q) i j = py_slice p i j.
Proof.
  intros Hi Hj. unfold py_slice. destruct (decide (j <= i)); [by replace (Z.to_nat (j - i)) with 0%nat by lia|].
  rewrite drop_app_le by lia. apply take_app_le. rewrite length_drop. lia.
Qed.

Lemma py_slice_app_r {A} (p q : list A) i j : Z.of_nat (length p) <= i ->
  py_slice (p ++ q) i j = py_slice q (i - Z.of_nat (length p)) (j - Z.of_nat (length p)).
Proof. intros Hi. unfold py_slice. rewrite drop_app_ge by lia. f_equal; [lia|]. f_equal. lia. Qed.

Lemma slice_of_slice {A} (l : list A) k i j : 0 <= i -> j <= k -> py_slice (py_slice l 0 k) i j = py_slice l i j.
Proof.
  intros Hi Hj. unfold py_slice. rewrite drop_0, skipn_firstn_comm, take_take. f_equal. lia.
Qed.

Lemma pack_L_inv n b : pack_L n = Ok b -> 0 <= n /\ length b = 4%nat /\ le b = n.
Proof.
  unfold pack_L. destruct (_ && _) eqn:E; [|done]. bool_prop. intros [= <-]. split_and!; [done..|]. cbn [le foldr].
  Z.to_euclidean_division_equations. lia.
Qed.

(** Overwriting inside the list. *)
Lemma splice_in d p b : (p + length b <= length d)%nat -> splice d p b = take p d ++ b ++ drop (p + length b) d.
Proof. intros. unfold splice. by replace (p - length d)%nat with 0%nat by lia. Qed.

Lemma splice_length d p b : (p + length b <= length d)%nat -> length (splice d p b) = length d.
Proof. intros. rewrite splice_in by done. rewrite !length_app, length_take, length_drop. lia. Qed.

(** * [bisect.bisect_right] *)

Fixpoint bisect_go (fuel : nat) (l : list Z) (x : Z) (lo hi : nat) : nat :=
  match fuel with
  | O => lo
  | S fuel' =>
      if (lo <? hi)%nat then
        let mid := ((lo + hi) / 2)%nat in
        if x <? nth mid l 0 then bisect_go fuel' l x lo mid else bisect_go fuel' l x (S mid) hi
      else lo
  end.

Definition bisect_right (l : list Z) (x : Z) : Z := Z.of_nat (bisect_go (length l) l x 0 (length l)).

Lemma sorted_le_lookup (l : list Z) i j y z : StronglySorted Z.le l -> l !! i = Some y -> l !! j = Some z -> (i <= j)%nat -> y <= z.
Proof.
  intros Hs. revert i j. induction Hs as [|x l Hs IH Hx]; intros [|i] [|j] Hi Hj Hij; simpl in *; try done; try lia.
  - simplify_eq. lia.
  - simplify_eq. rewrite list.Forall_forall in Hx. apply Hx. by eapply list_elem_of_lookup_2.
  - apply (IH i j); try done. lia.
Qed.

Lemma sorted_of_lookup (l : list Z) :
  (forall i j x y, l !! i = Some x -> l !! j = Some y -> (i < j)%nat -> x <= y) -> StronglySorted Z.le l.
Proof.
  induction l as [|x l IH]; intros H; constructor.
  - apply IH. intros i j y z Hi Hj Hij. apply (H (S i) (S j)); [done|done|lia].
  - apply Forall_forall. intros y [j Hj]%list_elem_of_lookup. apply (H 0%nat (S j)); [done|done|lia].
Qed.

Lemma bisect_go_ok fuel l x : StronglySorted Z.le l -> forall lo hi,
  (hi - lo <= fuel)%nat -> (lo <= hi <= length l)%nat ->
  (forall i y, l !! i = Some y -> (i < lo)%nat -> y <= x) -> (forall i y, l !! i = Some y -> (hi <= i)%nat -> x < y) ->
  let k := bisect_go fuel l x lo hi in (k <= length l)%nat /\
    (forall i y, l !! i = Some y -> (i < k)%nat -> y <= x) /\ (forall i y, l !! i = Some y -> (k <= i)%nat -> x < y).
Proof.
  intros Hs. pose proof (fun i j y z => sorted_le_lookup l i j y z Hs) as Hle.
  induction fuel as [|fuel IH]; intros lo hi Hf Hlh Hlo Hhi; cbn [bisect_go].
  - assert (hi = lo) as -> by lia. split_and!; [lia|done|done].
  - destruct (Nat.ltb_spec lo hi) as [Hlt|]; [|assert (hi = lo) as -> by lia; split_and!; [lia|done|done]].
    pose proof (Nat.div_mod_eq (lo + hi) 2) as Hd. pose proof (Nat.mod_upper_bound (lo + hi) 2 ltac:(lia)) as Hm.
    set (mid := ((lo + hi) / 2)%nat) in *.
    assert (is_Some (l !! mid)) as [m Hmid] by (apply lookup_lt_is_Some; lia).
    rewrite (nth_lookup_Some _ _ 0 _ Hmid). destruct (Z.ltb_spec x m).
    + apply IH; [lia|lia|done|]. intros i y Hi Hge. pose proof (Hle _ _ _ _ Hmid Hi Hge). lia.
    + apply IH; [lia|lia| |done]. intros i y Hi Hlt'. pose proof (Hle i mid y m Hi Hmid ltac:(lia)). lia.
Qed.

(** The entries up to the result are at most [x], the others larger. *)
Lemma bisect_right_ok l x : StronglySorted Z.le l ->
  exists k, bisect_right l x = Z.of_nat k /\ (k <= length l)%nat /\
    (forall i y, l !! i = Some y -> (i < k)%nat -> y <= x) /\ (forall i y, l !! i = Some y -> (k <= i)%nat -> x < y).
Proof.
  intros Hs. eexists. split; [done|]. apply bisect_go_ok; [done|lia|lia|lia|].
  intros i y Hi Hge. apply lookup_lt_Some in Hi. lia.
Qed.
