(* ===== verification/RangeLib.v ===== *)
(** releasetools/rangelib.py: sets of integers as sorted tuples of range
    boundaries.  [RangeSet] carries the boundaries, the [monotonic] flag and the
    caller's [extra] dictionary; the operations are those of the class, each
    sweeping the merged boundary events of its operands as the code does.

    The abstraction of a range set is the set of integers it contains
    ([covers], a parity count of boundaries), so every operation has a
    set-theoretic specification. *)

From S2P Require Export PyStr.

#[local] Open Scope string_scope.
#[local] Open Scope list_scope.
#[local] Open Scope Z_scope.

(** * Data *)

(** The values callers keep in [extra] are texts, range sets and booleans. *)
Inductive RangeSet : Type :=
| mkRangeSet (data : list Z) (monotonic : bool) (extra : list (string * Extra))
with Extra : Type :=
| ExText (s : string)
| ExRanges (r : RangeSet)
| ExBool (b : bool).

Definition rs_data (r : RangeSet) : list Z := let '(mkRangeSet d _ _) := r in d.
Definition rs_monotonic (r : RangeSet) : bool := let '(mkRangeSet _ m _) := r in m.
Definition rs_extra (r : RangeSet) : list (string * Extra) := let '(mkRangeSet _ _ x) := r in x.

(** [self.data == other.data]. *)
Definition rs_eqb (a b : RangeSet) : bool := bool_decide (rs_data a = rs_data b).

(** [__bool__]. *)
Definition rs_bool (r : RangeSet) : bool :=
  match rs_data r with [] => false | _ => true end.

(** [extra.get(key)] tested for truth, and [extra[key] = v]. *)
Definition extra_get (k : string) (r : RangeSet) : option Extra :=
  snd <$> head (filter (fun kv => kv.1 = k) (rs_extra r)).

Definition extra_true (k : string) (r : RangeSet) : bool :=
  match extra_get k r with
  | None => false
  | Some (ExText s) => str_true s
  | Some (ExRanges q) => rs_bool q
  | Some (ExBool b) => b
  end.

Definition set_extra (k : string) (v : Extra) (r : RangeSet) : RangeSet :=
  mkRangeSet (rs_data r) (rs_monotonic r)
    ((k, v) :: filter (fun kv => kv.1 <> k) (rs_extra r)).

Definition set_monotonic (m : bool) (r : RangeSet) : RangeSet :=
  mkRangeSet (rs_data r) m (rs_extra r).

(** * Construction *)

(** [_remove_pairs], a generator with the pending boundary [last]. *)
Fixpoint remove_pairs (last : option Z) (source : list Z) : list Z :=
  match source with
  | [] => match last with Some x => [x] | None => [] end
  | i :: source' =>
      match last with
      | Some x => if i =? x then remove_pairs None source'
                  else x :: remove_pairs (Some i) source'
      | None => remove_pairs (Some i) source'
      end
  end.

(** [all(x < y for x, y in zip(data, data[1:]))]. *)
Fixpoint increasing (l : list Z) : bool :=
  match l with
  | x :: (y :: _) as l' => (x <? y) && increasing l'
  | _ => true
  end.

Definition empty : RangeSet := mkRangeSet [] false [].

(** [RangeSet(data=...)] for a sequence of integers. *)
Definition of_data (data : list Z) : result RangeSet :=
  match data with
  | [] => Ok empty
  | _ => assert! Nat.even (length data) in
         let d := remove_pairs None data in
         Ok (mkRangeSet d (increasing d) [])
  end.

(** One token of the text form: a block or a range of blocks. *)
Definition parse_token (st : list Z * Z * bool) (p : string) : result (list Z * Z * bool) :=
  let '(data, last, mono) := st in
  if has_char "-" p then
    match split_char "-" p with
    | [a; b] =>
        let! s := py_int a in
        let! e := py_int b in
        Ok (if (last <=? s) && (s <=? e) then (data ++ [s; e + 1], e, mono)
            else (data ++ [s; e + 1], last, false))
    | _ => Raise ValueError
    end
  else
    let! s := py_int p in
    Ok (if last <=? s then (data ++ [s; s + 1], s + 1, mono)
        else (data ++ [s; s + 1], last, false)).

(** [_parse_internal], reached by [RangeSet(text)] and [RangeSet.parse]. *)
Definition parse_internal (text : string) : result RangeSet :=
  let! (data, _, mono) := foldM parse_token ([], -1, true) (split_ws text) in
  Ok (mkRangeSet (remove_pairs None (sort_by Z.leb data)) mono []).

Definition parse : string -> result RangeSet := parse_internal.

(** [parse_raw]. *)
Definition parse_raw (text : string) : result RangeSet :=
  let! raw := mapM py_int (split_char "," text) in
  match raw with
  | n :: rest => assert! n =? Z.of_nat (length rest) in of_data rest
  | [] => Raise IndexError
  end.

(** * Iteration and text form *)

(** [__iter__]: the boundaries two by two.  No constructor leaves an odd
    number of them. *)
Fixpoint pairs (data : list Z) : list (Z * Z) :=
  match data with
  | s :: e :: l => (s, e) :: pairs l
  | _ => []
  end.

Definition rs_iter (r : RangeSet) : list (Z * Z) := pairs (rs_data r).

Definition range_string (p : Z * Z) : string :=
  let '(s, e) := p in
  if e =? s + 1 then py_str s else py_str s +:+ "-" +:+ py_str (e - 1).

Definition to_string (r : RangeSet) : string := str_join " " (map range_string (rs_iter r)).

(** [__str__]. *)
Definition rs_str (r : RangeSet) : string :=
  match rs_data r with [] => "empty" | _ => to_string r end.

Definition to_string_raw (r : RangeSet) : result string :=
  assert! rs_bool r in
  Ok (py_str (Z.of_nat (length (rs_data r))) +:+ "," +:+ str_join "," (map py_str (rs_data r))).

(** [next_item]. *)
Definition items (data : list Z) : list Z := flat_map (fun '(s, e) => zrange s e) (pairs data).
Definition next_item (r : RangeSet) : list Z := items (rs_data r).

(** * Sweeping *)

Definition event : Type := Z * Z.

(** The order of the tuples [(p, d)]. *)
Definition event_ltb (a b : event) : bool :=
  (a.1 <? b.1) || ((a.1 =? b.1) && (a.2 <? b.2)).

(** [zip(data, itertools.cycle((a, b)))]. *)
Fixpoint zip_cycle (a b : Z) (data : list Z) : list event :=
  match data with
  | [] => []
  | p :: data' => (p, a) :: zip_cycle b a data'
  end.

(** [heapq.merge] of two inputs: the smaller head first, the first input on
    a tie. *)
Fixpoint heap_merge (l1 l2 : list event) : list event :=
  match l1 with
  | [] => l2
  | x :: l1' =>
      (fix go (l2 : list event) : list event :=
         match l2 with
         | [] => l1
         | y :: l2' => if event_ltb y x then y :: go l2' else x :: heap_merge l1' l2
         end) l2
  end.

(** The boundaries where the running sum [z] moves between [k - 1] and [k]. *)
Fixpoint sweep (k z : Z) (evs : list event) : list Z :=
  match evs with
  | [] => []
  | (p, d) :: evs' =>
      if ((z =? k - 1) && (d =? 1)) || ((z =? k) && (d =? -1))
      then p :: sweep k (z + d) evs'
      else sweep k (z + d) evs'
  end.

Definition union (a b : RangeSet) : result RangeSet :=
  of_data (sweep 1 0 (heap_merge (zip_cycle 1 (-1) (rs_data a)) (zip_cycle 1 (-1) (rs_data b)))).

Definition intersect (a b : RangeSet) : result RangeSet :=
  of_data (sweep 2 0 (heap_merge (zip_cycle 1 (-1) (rs_data a)) (zip_cycle 1 (-1) (rs_data b)))).

Definition subtract (a b : RangeSet) : result RangeSet :=
  of_data (sweep 1 0 (heap_merge (zip_cycle 1 (-1) (rs_data a)) (zip_cycle (-1) 1 (rs_data b)))).

(** [overlaps]: the sweep of [intersect], left at its first output. *)
Fixpoint overlaps_go (z : Z) (evs : list event) : bool :=
  match evs with
  | [] => false
  | (_, d) :: evs' =>
      if ((z =? 1) && (d =? 1)) || ((z =? 2) && (d =? -1)) then true
      else overlaps_go (z + d) evs'
  end.

Definition overlaps (a b : RangeSet) : bool :=
  overlaps_go 0 (heap_merge (zip_cycle 1 (-1) (rs_data a)) (zip_cycle 1 (-1) (rs_data b))).

(** [size]: boundaries at odd positions added, the others subtracted. *)
Fixpoint size_go (odd : bool) (total : Z) (data : list Z) : Z :=
  match data with
  | [] => total
  | p :: data' => size_go (negb odd) (if odd then total + p else total - p) data'
  end.

Definition size (r : RangeSet) : Z := size_go false 0 (rs_data r).

(** One event of [map_within]; [start] is [None] outside [self]. *)
Definition map_within_step (st : list Z * Z * option Z) (ev : event)
  : result (list Z * Z * option Z) :=
  let '(out, offset, start) := st in
  let '(p, d) := ev in
  if d =? -5 then Ok (out, offset, Some p)
  else match start with
       | None => Raise TypeError
       | Some s => if d =? 5 then Ok (out, offset + (p - s), None)
                   else Ok (out ++ [offset + p - s], offset, Some s)
       end.

Definition map_within (self other : RangeSet) : result RangeSet :=
  let! (out, _, _) :=
    foldM map_within_step ([], 0, None)
      (heap_merge (zip_cycle (-5) 5 (rs_data self)) (zip_cycle (-1) 1 (rs_data other))) in
  of_data out.

Definition extend (self : RangeSet) (n : Z) : result RangeSet :=
  foldM (fun out '(s, e) =>
           let s1 := Z.max 0 (s - n) in
           let e1 := e + n in
           let! r := parse_internal (py_str s1 +:+ "-" +:+ py_str (e1 - 1)) in
           union out r)
    self (rs_iter self).

Fixpoint first_go (n : Z) (l : list (Z * Z)) : list Z :=
  match l with
  | [] => []
  | (s, e) :: l' =>
      if n <=? e - s then [s; s + n] else s :: e :: first_go (n - (e - s)) l'
  end.

Definition first (self : RangeSet) (n : Z) : result RangeSet :=
  if size self <=? n then Ok self else of_data (first_go n (rs_iter self)).
