(* ===== verification/RangeFacts.v ===== *)
(** The specification of range sets: the set of integers a boundary tuple
    stands for, well-formed tuples, and the set-theoretic meaning of every
    operation of [RangeLib]. *)

From S2P Require Export RangeLib.

#[local] Open Scope Z_scope.

(** * Membership and well-formed data *)

(** Integer [x] lies in the set when an odd number of boundaries is at most [x]. *)
Fixpoint covers (x : Z) (data : list Z) : bool :=
  match data with
  | [] => false
  | p :: data' => xorb (p <=? x) (covers x data')
  end.

#[export] Instance rangeset_elem_of : ElemOf Z RangeSet := fun x r => covers x (rs_data r) = true.
#[export] Instance rangeset_elem_of_dec : RelDecision (∈@{RangeSet}).
Proof. intros x r. unfold elem_of, rangeset_elem_of. apply _. Defined.

(** Boundaries strictly increase and come in pairs. *)
Definition wf_data (data : list Z) : Prop :=
  StronglySorted Z.lt data /\ Nat.even (length data) = true.

Definition wf (r : RangeSet) : Prop := wf_data (rs_data r).

(** No range starts below zero. *)
Definition nonneg (r : RangeSet) : Prop := forall x, x ∈ r -> 0 <= x.

(** Range sets agree when they contain the same integers. *)
#[export] Instance rangeset_equiv : Equiv RangeSet := fun a b => forall x : Z, x ∈ a <-> x ∈ b.
#[export] Instance rangeset_equivalence : Equivalence (≡@{RangeSet}).
Proof.
  split.
  - by intros a x.
  - intros a b H x. by rewrite (H x).
  - intros a b c H1 H2 x. by rewrite (H1 x), (H2 x).
Qed.
#[export] Instance elem_of_rangeset_proper x : Proper ((≡@{RangeSet}) ==> iff) (elem_of x).
Proof. intros a b H. apply H. Qed.

Lemma wf_data_ind (P : list Z -> Prop) :
  P [] ->
  (forall s e l, s < e -> Forall (Z.lt e) l -> wf_data l -> P l -> P (s :: e :: l)) ->
  forall l, wf_data l -> P l.
Proof.
  intros H0 H2 l. remember (length l) as n eqn:Hn. revert l Hn.
  induction n as [n IH] using lt_wf_ind. intros l Hn [Hs He].
  destruct l as [|s [|e l]]; simpl in *; [done|done|].
  inversion Hs as [|?? Hs1 Hl1]; subst. inversion Hs1 as [|?? Hs2 Hl2]; subst.
  inversion Hl1; subst. apply H2; [done..| |].
  - by split.
  - eapply IH; [|done|by split]. lia.
Qed.

Ltac wf_induction l H :=
  pattern l; revert l H; apply wf_data_ind; [|intros s e l Hse Hl Hwf IH].

Lemma covers_app x l1 l2 : covers x (l1 ++ l2) = xorb (covers x l1) (covers x l2).
Proof. induction l1 as [|p l1 IH]; simpl; [by destruct (covers x l2)|]. by rewrite IH, xorb_assoc. Qed.

Lemma covers_perm x l1 l2 : l1 ≡ₚ l2 -> covers x l1 = covers x l2.
Proof.
  induction 1 as [|p l1 l2 _ IH|p q l|l1 l2 l3 _ IH1 _ IH2]; simpl; [done| | |by rewrite IH1].
  - by rewrite IH.
  - by rewrite <- !xorb_assoc, (xorb_comm (q <=? x)).
Qed.

Lemma covers_none x l : Forall (Z.lt x) l -> covers x l = false.
Proof. induction 1 as [|p l Hp _ IH]; simpl; [done|]. rewrite IH. by zcases. Qed.

Lemma covers_all x l : Forall (fun p => p <= x) l -> covers x l = Nat.odd (length l).
Proof.
  induction 1 as [|p l Hp _ IH]; simpl; [done|]. rewrite IH, Nat.odd_succ, <- Nat.negb_odd.
  zcases; by destruct (Nat.odd _).
Qed.

(** A well-formed pair at the front is one more range. *)
Lemma covers_cons2 x s e l : s < e -> Forall (Z.lt e) l ->
  covers x (s :: e :: l) = ((s <=? x) && (x <? e)) || covers x l.
Proof.
  intros Hse Hl. simpl. destruct (Z.leb_spec e x).
  - zcases. by destruct (covers x l).
  - rewrite (covers_none x l); [zcases|]. eapply (Forall_impl _ _ _ Hl). simpl. lia.
Qed.

Lemma wf_data_nil : wf_data [].
Proof. split; [constructor|done]. Qed.

Lemma wf_data_cons2 s e l : s < e -> Forall (Z.lt e) l -> wf_data l -> wf_data (s :: e :: l).
Proof.
  intros Hse Hl [Hs He]. split; [|done].
  assert (Forall (Z.lt s) l) by (eapply (Forall_impl _ _ _ Hl); simpl; lia).
  repeat constructor; auto.
Qed.

Lemma wf_empty : wf empty.
Proof. apply wf_data_nil. Qed.

(** Two sorted tuples with the same elements are equal: [==] on range sets is
    equality of sets. *)
Lemma covers_ext l1 l2 :
  StronglySorted Z.lt l1 -> StronglySorted Z.lt l2 ->
  (forall x, covers x l1 = covers x l2) -> l1 = l2.
Proof.
  intros H1. revert l2. induction H1 as [|p l1 Hs1 IH Hp].
  - intros [|q l2] Hs2 Hx; [done|]. inversion Hs2; subst.
    specialize (Hx q). simpl in Hx. rewrite (covers_none q l2) in Hx by done. zcases.
  - intros l2 Hs2 Hx. destruct Hs2 as [|q l2 Hs2 Hq].
    + specialize (Hx p). simpl in Hx. rewrite (covers_none p l1) in Hx by done. zcases.
    + assert (p = q) as ->.
      { pose proof (Hx p) as Hxp. pose proof (Hx q) as Hxq. simpl in Hxp, Hxq.
        destruct (Z.lt_trichotomy p q) as [Hpq|[?|Hpq]]; [|done|].
        - rewrite (covers_none p l1), (covers_none p l2) in Hxp; [zcases| |done].
          eapply (Forall_impl _ _ _ Hq). simpl; lia.
        - rewrite (covers_none q l1), (covers_none q l2) in Hxq; [zcases|done|].
          eapply (Forall_impl _ _ _ Hp). simpl; lia. }
      f_equal. apply IH; [done|]. intros x. specialize (Hx x). simpl in Hx.
      by destruct (q <=? x), (covers x l1), (covers x l2).
Qed.

Lemma rs_eqb_spec a b : wf a -> wf b -> rs_eqb a b = true <-> a ≡ b.
Proof.
  intros [Ha _] [Hb _]. unfold rs_eqb. rewrite bool_decide_eq_true. split.
  - intros H x. unfold elem_of, rangeset_elem_of. by rewrite H.
  - intros H. apply covers_ext; [done..|]. intros x. apply eq_bool_prop_intro.
    rewrite !Is_true_true. apply H.
Qed.

(** * [_remove_pairs] and construction *)

Definition olist (o : option Z) : list Z := match o with Some x => [x] | None => [] end.

Lemma covers_remove_pairs x last l :
  covers x (remove_pairs last l) = covers x (olist last ++ l).
Proof.
  revert last. induction l as [|i l IH]; intros [y|]; try done; [|apply (IH (Some i))].
  simpl. destruct (Z.eqb_spec i y) as [->|?]; simpl; rewrite IH; simpl; [|done].
  by destruct (y <=? x), (covers x l).
Qed.

Lemma even_remove_pairs last l :
  Nat.even (length (remove_pairs last l)) = Nat.even (length (olist last ++ l)).
Proof.
  revert last. induction l as [|i l IH]; intros [y|]; try done; [|apply (IH (Some i))].
  cbn [remove_pairs]. destruct (Z.eqb_spec i y) as [->|?]; [by rewrite IH|].
  cbn [length]. by rewrite Nat.even_succ, <- Nat.negb_even, IH, Nat.negb_even, <- Nat.even_succ.
Qed.

Lemma remove_pairs_sorted last l :
  StronglySorted Z.le (olist last ++ l) -> StronglySorted Z.lt (remove_pairs last l) /\
  (forall b, Forall (Z.le b) (olist last ++ l) -> Forall (Z.le b) (remove_pairs last l)).
Proof.
  revert last. induction l as [|i l IH]; intros [y|] Hs; simpl in *.
  - repeat split; [by repeat constructor|done].
  - by repeat split; [constructor|].
  - inversion Hs as [|?? Hs1 Hy]; subst. inversion Hs1 as [|?? Hs2 Hi]; subst.
    destruct (Z.eqb_spec i y) as [->|Hne].
    + destruct (IH None Hs2) as [H1 H2]. split; [done|].
      intros b Hb. apply H2. by apply Forall_cons_1 in Hb as [_ [_ Hb]%Forall_cons_1].
    + destruct (IH (Some i) Hs1) as [H1 H2]. inversion Hy; subst. split.
      * constructor; [done|].
        assert (Forall (Z.le i) (remove_pairs (Some i) l)) as Hge.
        { apply H2. simpl. constructor; [lia|done]. }
        eapply (Forall_impl _ _ _ Hge). simpl; lia.
      * intros b Hb. inversion Hb; subst. constructor; [done|]. by apply H2.
  - apply (IH (Some i) Hs).
Qed.

(** Data with an even number of nondecreasing boundaries gives a well-formed
    range set with the same elements. *)
Lemma of_data_spec data :
  StronglySorted Z.le data -> Nat.even (length data) = true ->
  exists r, of_data data = Ok r /\ wf r /\ (forall x, x ∈ r <-> covers x data = true).
Proof.
  intros Hs He. destruct data as [|p data]; [exists empty; by split; [|split; [apply wf_empty|]]|].
  unfold of_data. rewrite He. eexists. split; [done|].
  destruct (remove_pairs_sorted None (p :: data) Hs) as [Hs' _].
  split; [split; [done|]|].
  - change (rs_data _) with (remove_pairs None (p :: data)). by rewrite even_remove_pairs.
  - intros x. unfold elem_of, rangeset_elem_of.
    change (rs_data _) with (remove_pairs None (p :: data)). by rewrite covers_remove_pairs.
Qed.

(** * Sweeping merged events *)

(** The sum of the steps at boundaries up to [x]. *)
Fixpoint level (x : Z) (evs : list event) : Z :=
  match evs with
  | [] => 0
  | (p, d) :: evs' => (if p <=? x then d else 0) + level x evs'
  end.

Definition unit_step (e : event) : Prop := e.2 = 1 \/ e.2 = -1.

Lemma level_perm x l1 l2 : l1 ≡ₚ l2 -> level x l1 = level x l2.
Proof. induction 1 as [|[p d] ?? _ IH|[p d] [q e] ?|]; simpl; try lia. Qed.

Lemma level_app x l1 l2 : level x (l1 ++ l2) = level x l1 + level x l2.
Proof. induction l1 as [|[p d] l1 IH]; simpl; lia. Qed.

Lemma level_none x l : Forall (fun e => x < e.1) l -> level x l = 0.
Proof. induction 1 as [|[p d] l Hp _ IH]; simpl in *; [done|]. zcases. Qed.

Lemma heap_merge_nil_r l : heap_merge l [] = l.
Proof. by destruct l. Qed.

Lemma heap_merge_cons x l1 y l2 :
  heap_merge (x :: l1) (y :: l2) =
    if event_ltb y x then y :: heap_merge (x :: l1) l2 else x :: heap_merge l1 (y :: l2).
Proof. done. Qed.

Lemma heap_merge_perm l1 l2 : heap_merge l1 l2 ≡ₚ l1 ++ l2.
Proof.
  revert l2. induction l1 as [|x l1 IH1]; intros l2; [done|].
  induction l2 as [|y l2 IH2]; [by rewrite app_nil_r|].
  rewrite heap_merge_cons. destruct (event_ltb y x).
  - rewrite IH2. by rewrite (Permutation_middle (x :: l1)).
  - by rewrite IH1.
Qed.

(** Merging keeps any transitive order that refines the comparison of heads. *)
Section merge_sorted.
Context (R : event -> event -> Prop) `{!Transitive R}.
Context (R_lt : forall x y, event_ltb y x = true -> R y x).
Context (R_ge : forall x y, event_ltb y x = false -> R x y).
Context (R_pos : forall x y, x.1 < y.1 -> R x y).

Lemma Forall_R_trans a b l : R a b -> Forall (R b) l -> Forall (R a) l.
Proof. intros H Hl. eapply (Forall_impl _ _ _ Hl). intros c Hc. by transitivity b. Qed.

Lemma heap_merge_sorted l1 l2 :
  StronglySorted R l1 -> StronglySorted R l2 -> StronglySorted R (heap_merge l1 l2).
Proof.
  intros H1. revert l2. induction H1 as [|x l1 Hs1 IH1 Hx]; intros l2 H2; [done|].
  induction H2 as [|y l2 Hs2 IH2 Hy]; [by constructor|].
  rewrite heap_merge_cons. destruct (event_ltb y x) eqn:E; constructor; try done.
  - rewrite heap_merge_perm. apply R_lt in E.
    apply Forall_app; split; [|done]. constructor; [done|]. by eapply Forall_R_trans.
  - apply IH1. by constructor.
  - rewrite heap_merge_perm. apply R_ge in E.
    apply Forall_app; split; [done|]. constructor; [done|]. by eapply Forall_R_trans.
Qed.

Lemma zip_cycle_sorted a b l : StronglySorted Z.lt l -> StronglySorted R (zip_cycle a b l).
Proof.
  intros H. revert a b. induction H as [|p l Hs IH Hp]; intros a b; simpl; [constructor|].
  constructor; [done|]. clear -Hp R_pos. generalize a at 1. revert a b.
  induction Hp as [|q l Hq _ IH]; intros a b d; simpl; [constructor|].
  constructor; [by apply R_pos|apply IH].
Qed.
End merge_sorted.

(** Order of positions, and the full order of the tuples. *)
Definition by_pos (a b : event) : Prop := a.1 <= b.1.
Definition by_event (a b : event) : Prop := a.1 < b.1 \/ (a.1 = b.1 /\ a.2 <= b.2).

Lemma heap_merge_by_pos a b c d l1 l2 :
  StronglySorted Z.lt l1 -> StronglySorted Z.lt l2 ->
  StronglySorted by_pos (heap_merge (zip_cycle a b l1) (zip_cycle c d l2)).
Proof.
  assert (Transitive by_pos) by (intros ???; unfold by_pos; lia).
  assert (forall x y : event, x.1 < y.1 -> by_pos x y) by (unfold by_pos; lia).
  intros. apply heap_merge_sorted; auto using zip_cycle_sorted;
    intros x y; unfold event_ltb, by_pos; intros; zcases.
Qed.

Lemma heap_merge_by_event a b c d l1 l2 :
  StronglySorted Z.lt l1 -> StronglySorted Z.lt l2 ->
  StronglySorted by_event (heap_merge (zip_cycle a b l1) (zip_cycle c d l2)).
Proof.
  assert (Transitive by_event) by (intros ???; unfold by_event; lia).
  assert (forall x y : event, x.1 < y.1 -> by_event x y) by (unfold by_event; lia).
  intros. apply heap_merge_sorted; auto using zip_cycle_sorted;
    intros x y; unfold event_ltb, by_event; intros; zcases.
Qed.

Lemma zip_cycle_unit a b l :
  (a = 1 \/ a = -1) -> (b = 1 \/ b = -1) -> Forall unit_step (zip_cycle a b l).
Proof. revert a b. induction l; intros; simpl; constructor; auto. Qed.

Lemma level_zip_cycle x a l :
  StronglySorted Z.lt l -> level x (zip_cycle a (- a) l) = a * Z.b2z (covers x l).
Proof.
  intros H. revert a. induction H as [|p l Hs IH Hp]; intros a; simpl; [lia|].
  replace (zip_cycle (- a) a l) with (zip_cycle (- a) (- - a) l) by (f_equal; lia).
  rewrite IH. destruct (Z.leb_spec p x).
  - destruct (covers x l); simpl; lia.
  - rewrite covers_none; [simpl; lia|]. eapply (Forall_impl _ _ _ Hp). simpl; lia.
Qed.

(** The boundaries a sweep emits are where the running sum crosses [k]. *)
Lemma sweep_covers x k z evs :
  StronglySorted by_pos evs -> Forall unit_step evs ->
  covers x (sweep k z evs) = xorb (k <=? z) (k <=? z + level x evs).
Proof.
  intros Hs. revert z. induction Hs as [|[p d] evs Hs IH Hp]; intros z Hu; simpl.
  - rewrite Z.add_0_r. by destruct (k <=? z).
  - inversion Hu as [|?? Hd Hu']; subst. destruct (Z.leb_spec p x).
    + rewrite Z.add_assoc. set (lv := level x evs) in *. specialize (IH (z + d) Hu').
      destruct Hd as [Hd|Hd]; simpl in Hd; subst d;
        destruct (_ || _) eqn:E; simpl; rewrite IH;
        destruct (k <=? z + _ + lv); zcases.
    + assert (Forall (fun e => x < e.1) evs) as Hgt.
      { eapply (Forall_impl _ _ _ Hp). unfold by_pos; simpl. lia. }
      rewrite (level_none x evs Hgt), Z.add_0_r, xorb_nilpotent.
      assert (covers x (sweep k (z + d) evs) = false) as Hc.
      { rewrite IH by done. by rewrite (level_none x evs Hgt), Z.add_0_r, xorb_nilpotent. }
      destruct (_ || _); simpl; rewrite Hc; zcases.
Qed.

Lemma sweep_sorted k z evs :
  StronglySorted by_pos evs ->
  StronglySorted Z.le (sweep k z evs) /\
  (forall b, Forall (fun e => b <= e.1) evs -> Forall (Z.le b) (sweep k z evs)).
Proof.
  intros Hs. revert z. induction Hs as [|[p d] evs Hs IH Hp]; intros z; simpl; [by split; [constructor|]|].
  destruct (IH (z + d)) as [H1 H2]. destruct (_ || _); split; try done.
  - constructor; [done|]. by apply H2.
  - intros b Hb. inversion Hb; subst. constructor; [done|]. by apply H2.
  - intros b Hb. inversion Hb; subst. by apply H2.
Qed.

Lemma wf_data_bound l : exists b, Forall (fun p : Z => p <= b) l.
Proof.
  induction l as [|p l [b IH]]; [by exists 0|]. exists (Z.max p b).
  constructor; [lia|]. eapply (Forall_impl _ _ _ IH). simpl; lia.
Qed.

Lemma wf_data_beyond l b : Forall (fun p => p <= b) l -> Nat.even (length l) = true -> covers b l = false.
Proof. intros. by rewrite covers_all, <- Nat.negb_even, H0 by done. Qed.

(** The merged boundaries of two range sets, the second with sign [c]. *)
Definition events (c : Z) (a b : RangeSet) : list event :=
  heap_merge (zip_cycle 1 (-1) (rs_data a)) (zip_cycle c (- c) (rs_data b)).

Section events.
Context (a b : RangeSet) (Ha : wf a) (Hb : wf b).
Context (c : Z) (Hc : c = 1 \/ c = -1).

Lemma events_sorted : StronglySorted by_pos (events c a b).
Proof. apply heap_merge_by_pos; [apply Ha|apply Hb]. Qed.

Lemma events_unit : Forall unit_step (events c a b).
Proof.
  unfold events. rewrite heap_merge_perm.
  apply Forall_app; split; apply zip_cycle_unit; lia.
Qed.

Lemma events_level x :
  level x (events c a b) = Z.b2z (covers x (rs_data a)) + c * Z.b2z (covers x (rs_data b)).
Proof.
  unfold events. rewrite (level_perm _ _ _ (heap_merge_perm _ _)), level_app.
  rewrite (level_zip_cycle x 1), (level_zip_cycle x c) by (apply Ha || apply Hb). lia.
Qed.

(** The sweep at threshold [k >= 1] builds a well-formed range set. *)
Lemma sweep_of_data k : 1 <= k ->
  exists r, of_data (sweep k 0 (events c a b)) = Ok r /\ wf r /\
    forall x, x ∈ r <-> k <= Z.b2z (covers x (rs_data a)) + c * Z.b2z (covers x (rs_data b)).
Proof.
  intros Hk. destruct (sweep_sorted k 0 _ events_sorted) as [Hso _].
  assert (forall x, covers x (sweep k 0 (events c a b)) =
            (k <=? Z.b2z (covers x (rs_data a)) + c * Z.b2z (covers x (rs_data b)))) as Hcov.
  { intros x. rewrite sweep_covers by (apply events_sorted || apply events_unit).
    rewrite events_level. by destruct (Z.leb_spec k 0); [lia|]. }
  destruct (of_data_spec _ Hso) as (r & Hr & Hw & Hm).
  - destruct (wf_data_bound (rs_data a ++ rs_data b ++ sweep k 0 (events c a b))) as [u Hu].
    apply Forall_app in Hu as [Hua [Hub Hus]%Forall_app].
    rewrite <- Nat.negb_odd, <- (covers_all u), Hcov by done.
    rewrite !wf_data_beyond by (done || apply Ha || apply Hb). simpl. zcases.
  - exists r. split; [done|]. split; [done|]. intros x. by rewrite Hm, Hcov, Z.leb_le.
Qed.
End events.

(** * Set operations *)

Section setops.
Context (a b : RangeSet) (Ha : wf a) (Hb : wf b).

Lemma union_ok : exists r, union a b = Ok r /\ wf r /\ forall x, x ∈ r <-> x ∈ a \/ x ∈ b.
Proof.
  destruct (sweep_of_data a b Ha Hb 1 (or_introl eq_refl) 1) as (r & Hr & Hw & Hm); [lia|].
  exists r. split; [done|]. split; [done|]. intros x. rewrite Hm.
  unfold elem_of, rangeset_elem_of. destruct (covers x _), (covers x _); simpl; intuition lia.
Qed.

Lemma intersect_ok :
  exists r, intersect a b = Ok r /\ wf r /\ forall x, x ∈ r <-> x ∈ a /\ x ∈ b.
Proof.
  destruct (sweep_of_data a b Ha Hb 1 (or_introl eq_refl) 2) as (r & Hr & Hw & Hm); [lia|].
  exists r. split; [done|]. split; [done|]. intros x. rewrite Hm.
  unfold elem_of, rangeset_elem_of. destruct (covers x _), (covers x _); simpl; intuition lia.
Qed.

Lemma subtract_ok :
  exists r, subtract a b = Ok r /\ wf r /\ forall x, x ∈ r <-> x ∈ a /\ x ∉ b.
Proof.
  destruct (sweep_of_data a b Ha Hb (-1) (or_intror eq_refl) 1) as (r & Hr & Hw & Hm); [lia|].
  exists r. split; [done|]. split; [done|]. intros x. rewrite Hm.
  unfold elem_of, rangeset_elem_of. destruct (covers x _), (covers x _); simpl; intuition lia.
Qed.
End setops.

(** * [overlaps] *)

Lemma level_nonneg_after x p evs :
  Forall (by_event (p, 1)) evs -> Forall unit_step evs -> x = p -> 0 <= level x evs.
Proof.
  intros Hp. induction Hp as [|[q d] evs Hq _ IH]; intros Hu Hx; simpl; [lia|].
  inversion Hu as [|?? Hd Hu']; subst. specialize (IH Hu' eq_refl).
  unfold by_event, unit_step in *. simpl in *. zcases.
Qed.

Lemma overlaps_go_spec z evs :
  StronglySorted by_event evs -> Forall unit_step evs -> z <= 1 ->
  overlaps_go z evs = true <-> exists x, 2 <= z + level x evs.
Proof.
  intros Hs. revert z. induction Hs as [|[p d] evs Hs IH Hp]; intros z Hu Hz; simpl.
  { split; [done|]. intros [x Hx]. lia. }
  inversion Hu as [|?? Hd Hu']; subst.
  assert (forall x, x < p -> level x evs = 0) as Hlow.
  { intros x Hx. apply level_none. eapply (Forall_impl _ _ _ Hp).
    unfold by_event; simpl. lia. }
  destruct (_ || _) eqn:E.
  - split; [|done]. intros _. exists p.
    assert (d = 1) as -> by zcases.
    pose proof (level_nonneg_after p p evs Hp Hu' eq_refl). zcases.
  - assert (z + d <= 1) by (unfold unit_step in Hd; simpl in Hd; zcases).
    rewrite IH by done. split; intros [x Hx]; exists x.
    + destruct (Z.leb_spec p x); [lia|]. rewrite Hlow in Hx by done. lia.
    + destruct (Z.leb_spec p x); [lia|]. rewrite Hlow in Hx by done. lia.
Qed.

Lemma overlaps_iff a b : wf a -> wf b -> overlaps a b = true <-> exists x, x ∈ a /\ x ∈ b.
Proof.
  intros Ha Hb. unfold overlaps.
  rewrite overlaps_go_spec; [|by apply heap_merge_by_event; [apply Ha|apply Hb]| |done].
  2: { apply (events_unit a b 1). by left. }
  assert (forall x, level x (heap_merge (zip_cycle 1 (-1) (rs_data a)) (zip_cycle 1 (-1) (rs_data b)))
    = Z.b2z (covers x (rs_data a)) + Z.b2z (covers x (rs_data b))) as Hl.
  { intros x. rewrite (events_level a b Ha Hb 1). lia. }
  unfold elem_of, rangeset_elem_of. split; intros [x Hx]; exists x.
  - rewrite Hl in Hx. destruct (covers x _), (covers x _); simpl in Hx; intuition lia.
  - rewrite Hl. destruct Hx as [-> ->]. simpl. lia.
Qed.

(** * Items and sizes *)

Lemma elem_of_items x l : wf_data l -> x ∈ items l <-> covers x l = true.
Proof.
  intros H. wf_induction l H; [by simpl; rewrite elem_of_nil|].
  rewrite covers_cons2, orb_true_iff, <- IH by done.
  change (items (s :: e :: l)) with (zrange s e ++ items l).
  rewrite elem_of_app, elem_of_zrange. zcases; intuition lia.
Qed.

Lemma elem_of_next_item x r : wf r -> x ∈ next_item r <-> x ∈ r.
Proof. apply elem_of_items. Qed.

Lemma zrange_sorted s e : StronglySorted Z.lt (zrange s e).
Proof.
  destruct (Z.le_gt_cases e s) as [?|Hlt]; [rewrite zrange_nil by done; constructor|].
  remember (Z.to_nat (e - s)) as n eqn:Hn. revert s Hlt Hn.
  induction n as [|n IH]; intros s Hlt Hn; [lia|]. rewrite zrange_cons by done. constructor.
  - destruct (Z.le_gt_cases e (s + 1)); [rewrite zrange_nil by done; constructor|].
    apply IH; lia.
  - apply list.Forall_forall. intros x. rewrite elem_of_zrange. lia.
Qed.

Lemma StronglySorted_app_lt (l1 l2 : list Z) :
  StronglySorted Z.lt l1 -> StronglySorted Z.lt l2 ->
  (forall x y, x ∈ l1 -> y ∈ l2 -> x < y) -> StronglySorted Z.lt (l1 ++ l2).
Proof.
  intros H1 H2 H. induction H1 as [|x l1 Hs IH Hx]; simpl; [done|]. constructor.
  - apply IH. intros; apply H; [by right|done].
  - apply Forall_app; split; [done|]. apply list.Forall_forall. intros y Hy. apply H; [by left|done].
Qed.

Lemma items_above l b x : Forall (Z.lt b) l -> x ∈ items l -> b < x.
Proof.
  intros Hl Hx. unfold items in Hx. apply list_elem_of_In, in_flat_map in Hx.
  destruct Hx as ([s e] & Hp & Hx). apply list_elem_of_In, elem_of_zrange in Hx.
  assert (s ∈ l); [|by rewrite list.Forall_forall in Hl; specialize (Hl s H); lia].
  clear -Hp. apply list_elem_of_In in Hp. revert Hp.
  remember (length l) as n eqn:Hn. revert l Hn.
  induction n as [n IH] using lt_wf_ind. intros [|a [|b l]] Hn Hp; simpl in Hp;
    rewrite ?elem_of_nil in Hp; [done..|].
  apply elem_of_cons in Hp as [[= -> ->]|Hp]; [by left|].
  do 2 right. eapply (IH (length l)); [simpl in Hn; lia|done|done].
Qed.

(** [next_item] enumerates the set in increasing order. *)
Lemma items_sorted l : wf_data l -> StronglySorted Z.lt (items l).
Proof.
  intros H. wf_induction l H; [constructor|].
  apply StronglySorted_app_lt; [apply zrange_sorted|done|].
  intros x y Hx Hy. apply elem_of_zrange in Hx. pose proof (items_above _ _ _ Hl Hy). lia.
Qed.

Lemma sorted_NoDup (l : list Z) : StronglySorted Z.lt l -> NoDup l.
Proof.
  induction 1 as [|x l' Hs IH Hall]; constructor; [|done].
  intros Hx. rewrite list.Forall_forall in Hall. specialize (Hall x Hx). lia.
Qed.

Lemma NoDup_items l : wf_data l -> NoDup (items l).
Proof. intros Hl. by apply sorted_NoDup, items_sorted. Qed.

Lemma NoDup_next_item r : wf r -> NoDup (next_item r).
Proof. apply NoDup_items. Qed.

Lemma size_go_acc l o t : size_go o t l = t + size_go o 0 l.
Proof.
  revert o t. induction l as [|p l IH]; intros o t; simpl; [lia|].
  rewrite IH, (IH _ (if o then _ else _)). destruct o; lia.
Qed.

Lemma size_go_items l : wf_data l -> size_go false 0 l = Z.of_nat (length (items l)).
Proof.
  intros H. wf_induction l H; [done|].
  change (items (s :: e :: l)) with (zrange s e ++ items l).
  rewrite length_app, Nat2Z.inj_add, length_zrange, <- IH. cbn [size_go negb].
  rewrite size_go_acc. lia.
Qed.

Lemma size_items r : wf r -> size r = Z.of_nat (length (next_item r)).
Proof. apply size_go_items. Qed.

(** A subset of the same size is the whole set. *)
Lemma size_eq_subset a b : wf a -> wf b -> (forall x, x ∈ b -> x ∈ a) -> size a = size b -> forall x, x ∈ a -> x ∈ b.
Proof.
  intros Ha Hb Hsub Hs x Hx. rewrite !size_items in Hs by done.
  rewrite <- elem_of_next_item in Hx |- * by done.
  assert (next_item b ≡ₚ next_item a) as ->; [|done]. apply submseteq_length_Permutation; [|lia].
  apply NoDup_submseteq; [by apply NoDup_next_item|]. intros y. rewrite !elem_of_next_item by done. apply Hsub.
Qed.

Lemma StronglySorted_lt_unique (l1 l2 : list Z) :
  StronglySorted Z.lt l1 -> StronglySorted Z.lt l2 -> (forall x, x ∈ l1 <-> x ∈ l2) -> l1 = l2.
Proof.
  intros H1. revert l2. induction H1 as [|x l1 Hs1 IH Hx]; intros l2 H2 Heq.
  - destruct l2 as [|y l2]; [done|]. exfalso. eapply not_elem_of_nil, Heq. by left.
  - destruct H2 as [|y l2 Hs2 Hy]; [exfalso; eapply not_elem_of_nil, Heq; by left|].
    rewrite list.Forall_forall in Hx, Hy.
    assert (x = y) as ->.
    { assert (x ∈ y :: l2) as [->|Hxl]%elem_of_cons by (apply Heq; by left); [done|].
      assert (y ∈ x :: l1) as [->|Hyl]%elem_of_cons by (apply Heq; by left); [done|].
      specialize (Hx _ Hyl). specialize (Hy _ Hxl). lia. }
    f_equal. apply IH; [done|]. intros z. split; intros Hz.
    + assert (z ∈ y :: l2) as [->|?]%elem_of_cons by (apply Heq; by right); [|done].
      specialize (Hx _ Hz). lia.
    + assert (z ∈ y :: l1) as [->|?]%elem_of_cons by (apply Heq; by right); [|done].
      specialize (Hy _ Hz). lia.
Qed.

(** * [first] *)

Lemma first_go_sorted n l b :
  0 <= n -> wf_data l -> Forall (Z.le b) l ->
  StronglySorted Z.le (first_go n (pairs l)) /\ Forall (Z.le b) (first_go n (pairs l)) /\
  Nat.even (length (first_go n (pairs l))) = true.
Proof.
  intros Hn H. revert b n Hn. wf_induction l H; intros b n Hn Hb; simpl; [repeat constructor|].
  apply Forall_cons_1 in Hb as [Hs [He Hb]%Forall_cons_1].
  destruct (Z.leb_spec n (e - s)).
  - split; [|split; [|done]]; repeat constructor; lia.
  - assert (Forall (Z.le e) l) as Hel by (eapply (Forall_impl _ _ _ Hl); simpl; lia).
    destruct (IH e (n - (e - s)) ltac:(lia) Hel) as (H1 & H2 & H3).
    split; [|split; [|done]].
    + constructor; [by constructor|]. constructor; [lia|].
      eapply (Forall_impl _ _ _ H2). simpl; lia.
    + constructor; [done|]. constructor; [done|].
      eapply (Forall_impl _ _ _ H2). simpl; lia.
Qed.

Lemma take_zrange n s e : 0 <= n <= e - s -> take (Z.to_nat n) (zrange s e) = zrange s (s + n).
Proof.
  intros Hn. rewrite (zrange_split s (s + n) e) by lia.
  apply take_app_length'. pose proof (length_zrange s (s + n)). lia.
Qed.

Lemma covers_pair x a b l : a <= b -> Forall (Z.le b) l ->
  covers x (a :: b :: l) = ((a <=? x) && (x <? b)) || covers x l.
Proof.
  intros Hab Hl. simpl. destruct (Z.ltb_spec x b).
  - rewrite (covers_none x l); [zcases|]. eapply (Forall_impl _ _ _ Hl). simpl; lia.
  - zcases; by destruct (covers x l).
Qed.

Lemma first_go_covers x n l :
  0 <= n -> wf_data l ->
  covers x (first_go n (pairs l)) = true <-> x ∈ take (Z.to_nat n) (items l).
Proof.
  intros Hn H. revert n Hn. wf_induction l H; intros n Hn.
  { change (items []) with (@nil Z). by rewrite take_nil, elem_of_nil. }
  change (items (s :: e :: l)) with (zrange s e ++ items l).
  change (pairs (s :: e :: l)) with ((s, e) :: pairs l). cbn [first_go].
  pose proof (length_zrange s e) as Hlen. rewrite take_app. destruct (Z.leb_spec n (e - s)).
  - rewrite covers_pair, orb_false_r by (lia || constructor). rewrite take_zrange by lia.
    replace (Z.to_nat n - length (zrange s e))%nat with 0%nat by lia.
    rewrite take_0, app_nil_r, elem_of_zrange. zcases; intuition lia.
  - assert (Forall (Z.le e) l) as Hel by (eapply (Forall_impl _ _ _ Hl); simpl; lia).
    destruct (first_go_sorted (n - (e - s)) l e ltac:(lia) Hwf Hel) as (_ & Hge & _).
    rewrite covers_pair, orb_true_iff, IH by (lia || done).
    rewrite (take_ge (zrange s e)) by lia. rewrite elem_of_app, elem_of_zrange.
    replace (Z.to_nat n - length (zrange s e))%nat with (Z.to_nat (n - (e - s))) by lia.
    zcases; intuition lia.
Qed.

Lemma StronglySorted_take (l : list Z) n : StronglySorted Z.lt l -> StronglySorted Z.lt (take n l).
Proof.
  intros H. revert n. induction H as [|x l Hs IH Hx]; intros [|n]; simpl; try constructor; [done|].
  by apply Forall_take.
Qed.

Lemma first_ok r n : wf r -> 0 <= n ->
  exists q, first r n = Ok q /\ wf q /\ next_item q = take (Z.to_nat n) (next_item r).
Proof.
  intros Hr Hn. unfold first. pose proof (size_items r Hr) as Hsz.
  destruct (Z.leb_spec (size r) n).
  { exists r. split; [done|]. split; [done|]. rewrite take_ge; [done|]. lia. }
  destruct (wf_data_bound (map Z.opp (rs_data r))) as [b Hb].
  assert (Forall (Z.le (- b)) (rs_data r)) as Hb'.
  { apply list.Forall_forall. intros x Hx. rewrite list.Forall_forall in Hb.
    assert (- x <= b); [|lia].
    apply Hb. apply list_elem_of_In, in_map, list_elem_of_In. done. }
  destruct (first_go_sorted n (rs_data r) (- b) Hn Hr Hb') as (H1 & _ & H3).
  destruct (of_data_spec _ H1 H3) as (q & Hq & Hw & Hm). exists q. split; [done|]. split; [done|].
  apply StronglySorted_lt_unique.
  - by apply items_sorted.
  - by apply StronglySorted_take, items_sorted.
  - intros x. by rewrite elem_of_next_item, Hm, first_go_covers.
Qed.

(** * [map_within] *)

(** The number of elements below [x]. *)
Fixpoint rank (data : list Z) (x : Z) : Z :=
  match data with
  | s :: e :: l => Z.max 0 (Z.min x e - s) + rank l x
  | _ => 0
  end.

Lemma rank_below l x : wf_data l -> Forall (Z.le x) l -> rank l x = 0.
Proof.
  intros H. wf_induction l H; intros Hx; [done|]. simpl.
  apply Forall_cons_1 in Hx as [? [? ?]%Forall_cons_1]. rewrite IH by done. lia.
Qed.

Lemma rank_mono l x y : wf_data l -> x <= y -> rank l x <= rank l y.
Proof. intros H. wf_induction l H; intros Hxy; simpl; [lia|]. specialize (IH Hxy). lia. Qed.

Lemma rank_step l x : wf_data l -> covers x l = true -> rank l (x + 1) = rank l x + 1.
Proof.
  intros H. wf_induction l H; [done|]. rewrite covers_cons2 by done.
  change (rank (s :: e :: l)) with (fun x => Z.max 0 (Z.min x e - s) + rank l x). simpl.
  destruct (Z.ltb_spec x e).
  - assert (Forall (Z.le (x + 1)) l) by (eapply (Forall_impl _ _ _ Hl); simpl; lia).
    assert (Forall (Z.le x) l) by (eapply (Forall_impl _ _ _ Hl); simpl; lia).
    assert (covers x l = false) as ->.
    { apply covers_none. eapply (Forall_impl _ _ _ Hl). simpl; lia. }
    intros Hc. rewrite !rank_below by done. zcases.
  - rewrite andb_false_r. simpl. intros Hc. rewrite IH by done. lia.
Qed.

(** [rank] counts: it is the length of the enumeration cut at [x]. *)
Lemma rank_count l x : wf_data l ->
  rank l x = Z.of_nat (length (List.filter (fun y => y <? x) (items l))).
Proof.
  intros H. wf_induction l H; [done|].
  change (items (s :: e :: l)) with (zrange s e ++ items l).
  rewrite List.filter_app, length_app, Nat2Z.inj_add, <- IH.
  change (rank (s :: e :: l) x) with (Z.max 0 (Z.min x e - s) + rank l x). f_equal.
  clear. remember (Z.to_nat (e - s)) as n eqn:Hn. revert s Hn.
  induction n as [|n IH]; intros s Hn; [rewrite zrange_nil by lia; simpl; lia|].
  rewrite zrange_cons by lia. simpl. specialize (IH (s + 1) ltac:(lia)). zcases.
Qed.

Lemma rank_run l a b : wf_data l -> a <= b -> (forall x, a <= x < b -> covers x l = true) ->
  rank l b = rank l a + (b - a).
Proof.
  intros Hl Hab. remember (Z.to_nat (b - a)) as n eqn:Hn. revert b Hab Hn.
  induction n as [|n IH]; intros b Hab Hn Hc; [replace b with a by lia; lia|].
  replace b with ((b - 1) + 1) by lia. rewrite rank_step by (done || apply Hc; lia).
  rewrite IH; [lia|lia|lia|]. intros. apply Hc. lia.
Qed.

(** The events of [map_within]: inside a range of [self] that starts at [s],
    every boundary of [other] is emitted at its distance from [s]. *)
Definition mw_inside (s e : Z) (l : list Z) (a : Z) (other : list Z) : list event :=
  heap_merge ((e, 5) :: zip_cycle (-5) 5 l) (zip_cycle a (- a) other).
Definition mw_outside (l other : list Z) : list event :=
  heap_merge (zip_cycle (-5) 5 l) (zip_cycle (-1) 1 other).

Definition subset_data (l1 l2 : list Z) : Prop := forall x, covers x l1 = true -> covers x l2 = true.

Lemma mw_inside_emit s e l a q other : q <= e -> a < 5 ->
  mw_inside s e l a (q :: other) = (q, a) :: mw_inside s e l (- a) other.
Proof.
  intros Hq Ha. unfold mw_inside. simpl zip_cycle. rewrite heap_merge_cons, Z.opp_involutive.
  unfold event_ltb; simpl. zcases.
Qed.

Lemma mw_inside_emit_pair s e l a b other : a <= e -> b <= e ->
  mw_inside s e l (-1) (a :: b :: other) = (a, -1) :: (b, 1) :: mw_inside s e l (-1) other.
Proof. intros. by rewrite mw_inside_emit, (mw_inside_emit _ _ _ (- -1)) by (done || lia). Qed.

Lemma mw_inside_close s e l a other : (forall q o, other = q :: o -> e < q) ->
  a = -1 -> mw_inside s e l a other = (e, 5) :: mw_outside l other.
Proof.
  intros Hq ->. unfold mw_inside, mw_outside. destruct other as [|q other].
  - simpl. by rewrite heap_merge_nil_r.
  - simpl zip_cycle. rewrite heap_merge_cons. specialize (Hq q other eq_refl).
    unfold event_ltb; simpl. zcases.
Qed.

Lemma Forall_lt_weaken b c (l : list Z) : c <= b -> Forall (Z.lt b) l -> Forall (Z.lt c) l.
Proof. intros. eapply Forall_impl; [done|]. simpl; lia. Qed.

Lemma Forall_lt_le b c (l : list Z) : c <= b -> Forall (Z.lt b) l -> Forall (Z.le c) l.
Proof. intros. eapply Forall_impl; [done|]. simpl; lia. Qed.

Lemma wf_data_inv a b l : wf_data (a :: b :: l) -> a < b /\ Forall (Z.lt b) l /\ wf_data l.
Proof.
  intros [Hs He]. inversion Hs as [|?? Hs1 Ha]; subst. inversion Hs1 as [|?? Hs2 Hb]; subst.
  apply Forall_cons_1 in Ha as [? _]. by split; [|split; [|split]].
Qed.

Section subset_facts.
Context (s e : Z) (l : list Z) (Hse : s < e) (Hl : Forall (Z.lt e) l).

(** A range of the subset that starts inside [s, e] ends inside it. *)
Lemma subset_range_inside a b other :
  a < b -> Forall (Z.lt b) other -> subset_data (a :: b :: other) (s :: e :: l) ->
  s <= a <= e -> b <= e.
Proof.
  intros Hab Hb Hsub Hae. destruct (Z.le_gt_cases b e); [done|exfalso].
  specialize (Hsub e). rewrite !covers_cons2, (covers_none e l) in Hsub by done. zcases.
Qed.

Lemma subset_tail a b other :
  a < b -> Forall (Z.lt b) other -> subset_data (a :: b :: other) (s :: e :: l) ->
  subset_data other (s :: e :: l).
Proof.
  intros Hab Hb Hsub x Hx. apply Hsub. rewrite covers_cons2, Hx by done. by rewrite orb_true_r.
Qed.

(** What lies beyond [e] is in the other ranges. *)
Lemma subset_beyond a b other :
  a < b -> Forall (Z.lt b) other -> e < a -> subset_data (a :: b :: other) (s :: e :: l) ->
  subset_data (a :: b :: other) l.
Proof.
  intros Hab Hb Hea Hsub x Hx. specialize (Hsub x Hx). rewrite covers_cons2 in Hsub by done.
  destruct (Z.le_gt_cases a x).
  - destruct (covers x l); [done|]. zcases.
  - rewrite covers_none in Hx; [done|]. repeat constructor; [lia..|].
    eapply Forall_lt_weaken; [|done]. lia.
Qed.

Lemma subset_starts_after other :
  wf_data other -> subset_data other (s :: e :: l) -> Forall (Z.le s) other.
Proof.
  intros Ho Hsub. destruct other as [|a [|b other]]; [constructor|by destruct Ho|].
  destruct (wf_data_inv _ _ _ Ho) as (Hab & Hb & _).
  assert (s <= a); [|repeat constructor; [lia..|by eapply Forall_lt_le; [|exact Hb]; lia]].
  specialize (Hsub a). rewrite !covers_cons2 in Hsub by done.
  destruct (Z.le_gt_cases s a); [done|exfalso].
  rewrite (covers_none a l) in Hsub by (eapply Forall_lt_weaken; [|done]; lia). zcases.
Qed.

Lemma rank_inside p : wf_data l -> s <= p <= e -> rank (s :: e :: l) p = p - s.
Proof.
  intros Hw Hp. change (rank (s :: e :: l) p) with (Z.max 0 (Z.min p e - s) + rank l p).
  rewrite rank_below; [lia|done|]. eapply Forall_lt_le; [|done]. lia.
Qed.
End subset_facts.

Lemma subset_nil other : wf_data other -> subset_data other [] -> other = [].
Proof.
  intros Ho Hsub. destruct other as [|a [|b other]]; [done|by destruct Ho|].
  destruct (wf_data_inv _ _ _ Ho) as (Hab & Hb & _). specialize (Hsub a).
  rewrite covers_cons2 in Hsub by done. zcases.
Qed.

(** The fold from a state outside any range emits the ranks of the boundaries. *)
Definition mw_emits (l : list Z) (st : option Z) (evs : list event) (other : list Z) (off : Z) : Prop :=
  forall out, exists off' st',
    foldM map_within_step (out, off, st) evs
      = Ok (out ++ map (fun p => off + rank l p) other, off', st').

Lemma mw_inside_emits s e l off : s < e -> Forall (Z.lt e) l -> wf_data l ->
  (forall other off, wf_data other -> subset_data other l ->
     mw_emits l None (mw_outside l other) other off) ->
  forall other, wf_data other -> subset_data other (s :: e :: l) -> Forall (Z.le s) other ->
    mw_emits (s :: e :: l) (Some s) (mw_inside s e l (-1) other) other off.
Proof.
  intros Hse Hl Hwf IH other Ho. pattern other; revert other Ho.
  apply wf_data_ind; [|intros a b other Hab Hb Hwo IHo]; intros Hsub Hge out.
  - rewrite mw_inside_close by done. simpl.
    destruct (IH [] (off + (e - s)) wf_data_nil ltac:(done) out) as (o' & st' & ->). eauto.
  - apply Forall_cons_1 in Hge as [Hsa [Hsb Hge]%Forall_cons_1].
    destruct (Z.le_gt_cases a e) as [Hae|Hae].
    + assert (b <= e) as Hbe by by eapply subset_range_inside.
      rewrite mw_inside_emit_pair by lia. cbn [foldM map_within_step Z.eqb Pos.eqb].
      destruct (IHo (subset_tail s e l a b other Hab Hb Hsub) Hge
                  ((out ++ [off + a - s]) ++ [off + b - s])) as (o' & st' & Heq).
      rewrite Heq. exists o', st'. cbn [map]. rewrite !rank_inside by (done || lia).
      by rewrite <- !app_assoc, !Z.add_sub_assoc.
    + rewrite mw_inside_close; [|by intros q o [= <- <-]|done].
      cbn [foldM map_within_step Z.eqb Pos.eqb].
      destruct (IH (a :: b :: other) (off + (e - s))
                  (wf_data_cons2 _ _ _ Hab Hb Hwo)
                  (subset_beyond s e l Hse Hl a b other Hab Hb Hae Hsub) out) as (o' & st' & Heq).
      rewrite Heq. exists o', st'. do 4 f_equal.
      apply map_ext_in. intros p Hp%list_elem_of_In.
      assert (e < p) by (rewrite !elem_of_cons in Hp; destruct Hp as [->|[->|Hp]]; [lia..|];
        rewrite list.Forall_forall in Hb; specialize (Hb _ Hp); lia).
      simpl. lia.
Qed.

Lemma map_within_fold l other off : wf_data l -> wf_data other -> subset_data other l ->
  mw_emits l None (mw_outside l other) other off.
Proof.
  intros H. revert other off. wf_induction l H; intros other off Ho Hsub out.
  - rewrite (subset_nil other) by done. exists off, None. simpl. by rewrite app_nil_r.
  - pose proof (subset_starts_after s e l Hse Hl other Ho Hsub) as Hge.
    destruct (mw_inside_emits s e l off Hse Hl Hwf (fun o off => IH o off) other Ho Hsub Hge out)
      as (o' & st' & Heq).
    exists o', st'. rewrite <- Heq. clear -Hge.
    assert (mw_outside (s :: e :: l) other = (s, -5) :: mw_inside s e l (-1) other) as ->; [|done].
    unfold mw_outside, mw_inside. simpl zip_cycle. destruct other as [|q other].
    + by rewrite !heap_merge_nil_r.
    + simpl zip_cycle. rewrite heap_merge_cons. apply Forall_cons_1 in Hge as [? _].
      unfold event_ltb; simpl. zcases.
Qed.

(** Ranks of the boundaries of a subset delimit the ranks of its elements. *)
Lemma map_rank_covers l other y : wf_data l -> wf_data other -> subset_data other l ->
  (StronglySorted Z.le (map (rank l) other)) /\
  (covers y (map (rank l) other) = true <-> exists x, covers x other = true /\ rank l x = y).
Proof.
  intros Hl Ho. pattern other; revert other Ho.
  apply wf_data_ind; [|intros a b other Hab Hb Hwo IHo]; intros Hsub.
  { split; [constructor|]. split; [done|]. by intros (x & Hx & _). }
  assert (forall x, a <= x < b -> covers x l = true) as Hrun.
  { intros x Hx. apply Hsub. rewrite covers_cons2 by done. zcases. }
  assert (subset_data other l) as Hsub'.
  { intros x Hx. apply Hsub. rewrite covers_cons2, Hx by done. by rewrite orb_true_r. }
  destruct (IHo Hsub') as [Hs Hc].
  assert (Forall (Z.le (rank l b)) (map (rank l) other)) as Hge.
  { apply Forall_map. eapply (Forall_impl _ _ _ Hb). simpl. intros. apply rank_mono; [done|lia]. }
  pose proof (rank_run l a b Hl ltac:(lia) Hrun) as Hab'. simpl. split.
  - constructor; [by constructor|]. constructor; [lia|].
    eapply (Forall_impl _ _ _ Hge). simpl; lia.
  - change (xorb (rank l a <=? y) (xorb (rank l b <=? y) (covers y (map (rank l) other))))
      with (covers y (rank l a :: rank l b :: map (rank l) other)).
    rewrite covers_pair, orb_true_iff, Hc by (lia || done). split.
    + intros [H|(x & Hx & <-)].
      * exists (a + (y - rank l a)). change (xorb _ _) with (covers (a + (y - rank l a)) (a :: b :: other)).
        rewrite covers_cons2 by done. split; [zcases|].
        rewrite (rank_run l a (a + (y - rank l a)) Hl); [lia|zcases|].
        intros x Hx. apply Hrun. zcases.
      * exists x. split; [|done]. change (xorb _ _) with (covers x (a :: b :: other)).
        rewrite covers_cons2, Hx by done. by rewrite orb_true_r.
    + intros (x & Hx & <-). change (xorb _ _) with (covers x (a :: b :: other)) in Hx.
      rewrite covers_cons2, orb_true_iff in Hx by done. destruct Hx as [Hx|Hx]; [|by right; eauto].
      left. rewrite (rank_run l a x Hl); [zcases|zcases|]. intros z Hz. apply Hrun. zcases.
Qed.

Lemma map_within_ok a b : wf a -> wf b -> (forall x, x ∈ b -> x ∈ a) ->
  exists r, map_within a b = Ok r /\ wf r /\
    forall y, y ∈ r <-> exists x, x ∈ b /\ rank (rs_data a) x = y.
Proof.
  intros Ha Hb Hsub. unfold map_within.
  destruct (map_within_fold (rs_data a) (rs_data b) 0 Ha Hb Hsub []) as (o' & st' & Heq).
  unfold mw_outside in Heq. rewrite Heq. simpl app. cbv iota beta.
  destruct (map_rank_covers (rs_data a) (rs_data b) 0 Ha Hb Hsub) as [Hs _].
  destruct (of_data_spec (map (rank (rs_data a)) (rs_data b))) as (r & Hr & Hw & Hm); [done| |].
  { rewrite length_map. apply Hb. }
  exists r. split; [done|]. split; [done|]. intros y. rewrite Hm.
  by apply map_rank_covers.
Qed.

(** * Text form *)

Lemma is_digit_nospace s : str_forallb is_digit s = true ->
  str_forallb (fun c => negb (is_space c)) s = true /\ has_char "-" s = false /\ has_char "," s = false.
Proof.
  intros H. rewrite !has_char_forallb. repeat split;
    [|apply negb_false_iff|apply negb_false_iff]; (eapply str_forallb_impl; [|exact H]);
    intros c Hc; destruct (is_digit_facts c Hc) as (H1 & H2 & _ & H3 & _); by rewrite ?H1, ?H2, ?H3.
Qed.

Lemma py_str_token n : 0 <= n ->
  str_forallb (fun c => negb (is_space c)) (py_str n) = true /\
  has_char "-" (py_str n) = false /\ has_char "," (py_str n) = false /\ str_true (py_str n) = true.
Proof.
  intros Hn. destruct (is_digit_nospace _ (py_str_digits n Hn)) as (? & ? & ?).
  split_and!; [done..|]. by destruct (py_str_ne n Hn) as (c & t & ->).
Qed.

Lemma range_string_token s e : 0 <= s < e ->
  str_true (range_string (s, e)) = true /\
  str_forallb (fun c => negb (is_space c)) (range_string (s, e)) = true.
Proof.
  intros Hs. destruct (py_str_token s ltac:(lia)) as (H1 & _ & _ & H2).
  destruct (py_str_token (e - 1) ltac:(lia)) as (H3 & _ & _ & H4).
  unfold range_string. destruct (e =? s + 1); [done|]. split.
  - by destruct (py_str s).
  - rewrite !str_forallb_app, H1, H3. done.
Qed.

(** A token that spells a range is read as that range. *)
Lemma parse_token_dash data last mono s e : 0 <= s -> 0 <= e ->
  parse_token (data, last, mono) (py_str s +:+ "-" +:+ py_str e) =
    Ok (if (last <=? s) && (s <=? e) then (data ++ [s; e + 1], e, mono)
        else (data ++ [s; e + 1], last, false)).
Proof.
  intros Hs He. destruct (py_str_token s Hs) as (_ & Hd & _). destruct (py_str_token e He) as (_ & Hd' & _).
  unfold parse_token.
  change (py_str s +:+ "-" +:+ py_str e) with (py_str s +:+ String "-" (py_str e)).
  rewrite split_char_app, split_char_none by done. rewrite !py_int_str by done.
  assert (has_char "-" (py_str s +:+ String "-" (py_str e)) = true) as ->; [|done].
  clear. induction (py_str s) as [|c t IH]; [done|]. simpl. rewrite IH. by rewrite orb_true_r.
Qed.

Lemma parse_token_range data last mono s e : 0 <= s < e -> last <= s ->
  exists last', last' <= e /\
    parse_token (data, last, mono) (range_string (s, e)) = Ok (data ++ [s; e], last', mono).
Proof.
  intros Hs Hlast. unfold range_string. destruct (Z.eqb_spec e (s + 1)) as [->|Hne].
  - exists (s + 1). split; [lia|]. destruct (py_str_token s ltac:(lia)) as (_ & Hd & _).
    unfold parse_token. rewrite Hd, py_int_str by lia. zcases.
  - exists (e - 1). split; [lia|]. rewrite parse_token_dash by lia.
    replace (e - 1 + 1) with e by lia. zcases.
Qed.

Lemma parse_tokens_pairs l : wf_data l -> Forall (Z.le 0) l ->
  forall data last, (forall x, x ∈ l -> last <= x) ->
  exists last', foldM parse_token (data, last, true) (map range_string (pairs l)) = Ok (data ++ l, last', true).
Proof.
  intros H. wf_induction l H; intros Hnn data last Hlast; cbn [pairs map foldM].
  - exists last. by rewrite app_nil_r.
  - apply Forall_cons_1 in Hnn as [Hs [He Hnn]%Forall_cons_1].
    destruct (parse_token_range data last true s e) as (last1 & Hl1 & ->); [lia|apply Hlast; by left|].
    rewrite list.Forall_forall in Hl.
    destruct (IH Hnn (data ++ [s; e]) last1) as (last' & ->).
    + intros x Hx. specialize (Hl x Hx). lia.
    + exists last'. by rewrite <- app_assoc.
Qed.

Lemma sort_by_leb_id l : StronglySorted Z.lt l -> sort_by Z.leb l = l.
Proof.
  intros H. apply sort_by_id. induction H as [|x l Hs IH Hx]; constructor; [done|].
  eapply (Forall_impl _ _ _ Hx). simpl. intros. zcases.
Qed.

Lemma remove_pairs_id l last : StronglySorted Z.lt (olist last ++ l) ->
  remove_pairs last l = olist last ++ l.
Proof.
  revert last. induction l as [|i l IH]; intros [x|] Hs; try done; [|apply (IH (Some i) Hs)].
  simpl in *. inversion Hs as [|?? Hs' Hx]; subst. apply Forall_cons_1 in Hx as [Hx _].
  destruct (Z.eqb_spec i x); [lia|]. f_equal. apply (IH (Some i) Hs').
Qed.

Lemma nonneg_data r : wf r -> nonneg r -> Forall (Z.le 0) (rs_data r).
Proof.
  unfold nonneg, wf, elem_of, rangeset_elem_of. intros H.
  pattern (rs_data r). revert H. generalize (rs_data r) as l. intros l H.
  wf_induction l H; intros Hx; [constructor|].
  pose proof (Hx s) as Hs. rewrite covers_cons2 in Hs by done.
  assert (0 <= s) by (apply Hs; zcases).
  repeat constructor; [lia..|]. eapply Forall_lt_le; [|exact Hl]. lia.
Qed.

Lemma pairs_nonempty l : wf_data l -> Forall (Z.le 0) l ->
  Forall (fun p => 0 <= p.1 < p.2) (pairs l).
Proof.
  intros H. wf_induction l H; intros Hnn; simpl; [constructor|].
  apply Forall_cons_1 in Hnn as [? [? ?]%Forall_cons_1]. constructor; [simpl; lia|by apply IH].
Qed.

(** Reading the text of a range set gives the range set back. *)
Lemma parse_to_string r : wf r -> nonneg r ->
  parse (to_string r) = Ok (mkRangeSet (rs_data r) true []).
Proof.
  intros Hw Hn. pose proof (nonneg_data r Hw Hn) as Hd. unfold parse, parse_internal, to_string, rs_iter.
  rewrite split_ws_join.
  - destruct (parse_tokens_pairs (rs_data r) Hw Hd [] (-1)) as (last' & ->).
    + intros x Hx. rewrite list.Forall_forall in Hd. specialize (Hd x Hx). lia.
    + simpl. rewrite sort_by_leb_id by apply Hw. rewrite remove_pairs_id by apply Hw. done.
  - apply Forall_map. eapply Forall_impl; [by apply pairs_nonempty|].
    intros [s e] Hse. simpl in *. by apply range_string_token.
Qed.

Lemma parse_raw_to_string_raw r t : wf r -> nonneg r -> to_string_raw r = Ok t ->
  exists q, parse_raw t = Ok q /\ rs_data q = rs_data r.
Proof.
  intros Hw Hn Ht. pose proof (nonneg_data r Hw Hn) as Hd. destruct Hw as [Hs He].
  unfold to_string_raw, rs_bool in Ht. destruct (rs_data r) as [|p l] eqn:Ed; [done|].
  set (n := Z.of_nat (length (p :: l))) in *.
  assert (t = str_join (String "," "") (map py_str (n :: p :: l))) as -> by by injection Ht as <-.
  assert (Forall (Z.le 0) (n :: p :: l)) as Hd' by (constructor; [lia|done]).
  unfold parse_raw. rewrite split_char_join; [|done|].
  2: { apply Forall_map. eapply (Forall_impl _ _ _ Hd'). simpl. intros k Hk.
       by destruct (py_str_token k Hk) as (_ & _ & ? & _). }
  assert (mapM py_int (map py_str (n :: p :: l)) = Ok (n :: p :: l)) as ->.
  { clear -Hd'. induction Hd' as [|k l' Hk _ IH]; [done|].
    cbn [map mapM]. by rewrite py_int_str, IH by done. }
  cbv iota beta. rewrite Z.eqb_refl. unfold of_data. rewrite He.
  eexists. split; [done|]. by apply (remove_pairs_id (p :: l) None).
Qed.

Lemma parse_token_even data last mono p data' last' mono' :
  parse_token (data, last, mono) p = Ok (data', last', mono') ->
  Nat.even (length data) = true -> Nat.even (length data') = true.
Proof.
  unfold parse_token. intros H He.
  assert (forall a b : Z, Nat.even (length (data ++ [a; b])) = true) as Happ.
  { intros. rewrite length_app, Nat.even_add, He. done. }
  destruct (has_char _ _).
  - destruct (split_char _ _) as [|a [|b [|]]]; try done. inv_ok.
    destruct (_ && _); injection H as <- <- <-; apply Happ.
  - inv_ok. destruct (_ <=? _); injection H as <- <- <-; apply Happ.
Qed.

Lemma sort_by_leb_sorted l : StronglySorted Z.le (sort_by Z.leb l).
Proof.
  pose proof (sort_by_sorted Z.leb) as Hs.
  assert (forall l, StronglySorted (fun a b => (a <=? b) = true) l -> StronglySorted Z.le l) as Hconv.
  { induction 1 as [|x l' _ IH Hx]; constructor; [done|].
    eapply (Forall_impl _ _ _ Hx). simpl. intros. bool_prop. lia. }
  apply Hconv, Hs; intros; bool_prop; apply Z.leb_le; lia.
Qed.

(** Every text that parses gives a well-formed range set. *)
Lemma parse_wf text r : parse text = Ok r -> wf r.
Proof.
  unfold parse, parse_internal. intros H.
  destruct (foldM parse_token _ _) as [[[data last] mono]|] eqn:E; [|done]. injection H as <-.
  assert (Nat.even (length data) = true) as He.
  { apply (foldM_ind (fun _ st => Nat.even (length st.1.1) = true) _ _ _ _ E); [done|].
    intros _ p _ [[d l] m] [[d' l'] m'] _ Hd Hp. by eapply parse_token_even. }
  split; simpl.
  - apply remove_pairs_sorted. apply sort_by_leb_sorted.
  - rewrite even_remove_pairs. simpl. by rewrite sort_by_perm.
Qed.

Lemma parse_range_ok s e : 0 <= s <= e ->
  parse_internal (py_str s +:+ "-" +:+ py_str e) = Ok (mkRangeSet [s; e + 1] true []).
Proof.
  intros Hs. unfold parse_internal.
  destruct (py_str_token s ltac:(lia)) as (H1 & _ & _ & H2).
  destruct (py_str_token e ltac:(lia)) as (H3 & _ & _ & H4).
  change (split_ws (py_str s +:+ "-" +:+ py_str e))
    with (split_ws (str_join " " [py_str s +:+ "-" +:+ py_str e])).
  rewrite split_ws_join.
  2: { constructor; [|done]. rewrite !str_forallb_app, H1, H3. split; [|done].
       by destruct (py_str s). }
  cbn [foldM]. rewrite parse_token_dash by lia.
  destruct (Z.leb_spec (-1) s); [|lia]. destruct (Z.leb_spec s e); [|lia]. simpl.
  destruct (Z.leb_spec s (e + 1)); [|lia]. simpl. by destruct (Z.eqb_spec (e + 1) s); [lia|].
Qed.

Lemma elem_of_range_set x s e m ex : s < e -> x ∈ mkRangeSet [s; e] m ex <-> s <= x < e.
Proof.
  intros Hse. unfold elem_of, rangeset_elem_of. simpl rs_data.
  rewrite covers_cons2 by (done || constructor). simpl. rewrite orb_false_r. zcases; intuition lia.
Qed.

Lemma wf_range_set s e m ex : s < e -> wf (mkRangeSet [s; e] m ex).
Proof. intros. apply wf_data_cons2; [done|constructor|apply wf_data_nil]. Qed.

Lemma elem_of_pairs x l : wf_data l -> covers x l = true <-> exists s e, (s, e) ∈ pairs l /\ s <= x < e.
Proof.
  intros H. rewrite <- elem_of_items by done. unfold items.
  rewrite list_elem_of_In, in_flat_map. split.
  - intros ([s e] & Hp & Hx). exists s, e. rewrite list_elem_of_In. split; [done|].
    by apply elem_of_zrange, list_elem_of_In.
  - intros (s & e & Hp & Hx). exists (s, e). rewrite <- list_elem_of_In. split; [done|].
    by apply list_elem_of_In, elem_of_zrange.
Qed.

(** [extend n] adds the integers from 0 up that lie within [n] of the set. *)
Lemma extend_ok r n : wf r -> nonneg r -> 0 <= n ->
  exists q, extend r n = Ok q /\ wf q /\
    forall x, x ∈ q <-> 0 <= x /\ exists y, y ∈ r /\ y - n <= x <= y + n.
Proof.
  intros Hw Hnn Hn. pose proof (pairs_nonempty (rs_data r) Hw (nonneg_data r Hw Hnn)) as Hp.
  rewrite list.Forall_forall in Hp.
  destruct (foldM_ok (fun pre out => wf out /\ forall x, x ∈ out <->
      x ∈ r \/ exists s e, (s, e) ∈ pre /\ Z.max 0 (s - n) <= x < e + n)
    (fun out '(s, e) =>
       let s1 := Z.max 0 (s - n) in let e1 := e + n in
       let! r := parse_internal (py_str s1 +:+ "-" +:+ py_str (e1 - 1)) in union out r)
    r (rs_iter r)) as (q & Hq & Hwq & Hxq).
  - split; [done|]. intros x. split; [by left|]. intros [?|(s & e & Hs & _)]; [done|].
    by apply elem_of_nil in Hs.
  - intros pre [s e] post t Hl [Hwt Hxt].
    assert ((s, e) ∈ rs_iter r) as Hin by (rewrite Hl, elem_of_app; right; by left).
    specialize (Hp _ Hin). simpl in Hp. cbv zeta.
    rewrite parse_range_ok by lia. replace (e + n - 1 + 1) with (e + n) by lia.
    assert (Z.max 0 (s - n) < e + n) as Hlt by lia.
    destruct (union_ok t (mkRangeSet [Z.max 0 (s - n); e + n] true []) Hwt) as (u & Hu & Hwu & Hxu);
      [by apply wf_range_set|].
    exists u. split; [done|]. split; [done|]. intros x. rewrite Hxu, Hxt, elem_of_range_set by done.
    setoid_rewrite elem_of_app. setoid_rewrite list_elem_of_singleton. split.
    + intros [[?|(s' & e' & ? & ?)]|?]; [by left| |]; right; [|exists s, e; eauto].
      exists s', e'; eauto.
    + intros [?|(s' & e' & [?|[= -> ->]] & ?)]; [by do 2 left| |by right]. left; right; eauto.
  - exists q. split; [done|]. split; [done|]. intros x. rewrite Hxq. split.
    + intros [Hx|(s & e & Hse & Hx)].
      * split; [by apply Hnn|]. exists x. split; [done|lia].
      * split; [lia|]. specialize (Hp _ Hse). simpl in Hp.
        assert (forall y, s <= y < e -> y ∈ r) as Hy.
        { intros y Hy. apply elem_of_pairs; [done|]. eauto. }
        destruct (Z.le_gt_cases x s); [exists s; split; [apply Hy|]; lia|].
        destruct (Z.le_gt_cases e x); [exists (e - 1); split; [apply Hy|]; lia|].
        exists x. split; [apply Hy|]; lia.
    + intros (Hx & y & Hy & Hxy). right. apply elem_of_pairs in Hy as (s & e & Hse & Hy); [|done].
      exists s, e. split; [done|lia].
Qed.

#[export] Hint Resolve wf_empty wf_data_nil wf_range_set parse_wf : py.

(** Runs the next range-set operation of the goal through its specification. *)
Ltac rs_step :=
  match goal with
  | |- context [union ?a ?b] =>
      let r := fresh "u" in let H := fresh "H" in
      destruct (union_ok a b) as (r & H & ? & ?); [solve [eauto with py]..|rewrite H]
  | |- context [intersect ?a ?b] =>
      let r := fresh "i" in let H := fresh "H" in
      destruct (intersect_ok a b) as (r & H & ? & ?); [solve [eauto with py]..|rewrite H]
  | |- context [subtract ?a ?b] =>
      let r := fresh "d" in let H := fresh "H" in
      destruct (subtract_ok a b) as (r & H & ? & ?); [solve [eauto with py]..|rewrite H]
  end.

(** The same facts read from a successful run. *)
Lemma union_inv a b r : wf a -> wf b -> union a b = Ok r -> wf r /\ forall x, x ∈ r <-> x ∈ a \/ x ∈ b.
Proof. intros Ha Hb H. destruct (union_ok a b Ha Hb) as (q & Hq & ? & ?). rewrite H in Hq. by injection Hq as <-. Qed.

Lemma intersect_inv a b r : wf a -> wf b -> intersect a b = Ok r ->
  wf r /\ forall x, x ∈ r <-> x ∈ a /\ x ∈ b.
Proof. intros Ha Hb H. destruct (intersect_ok a b Ha Hb) as (q & Hq & ? & ?). rewrite H in Hq. by injection Hq as <-. Qed.

Lemma subtract_inv a b r : wf a -> wf b -> subtract a b = Ok r ->
  wf r /\ forall x, x ∈ r <-> x ∈ a /\ x ∉ b.
Proof. intros Ha Hb H. destruct (subtract_ok a b Ha Hb) as (q & Hq & ? & ?). rewrite H in Hq. by injection Hq as <-. Qed.

Lemma rs_bool_spec r : wf r -> rs_bool r = true <-> exists x, x ∈ r.
Proof.
  unfold wf, rs_bool, elem_of, rangeset_elem_of. intros Hw. destruct (rs_data r) as [|s [|e l]] eqn:E.
  - split; [done|]. by intros [x Hx].
  - by destruct Hw.
  - split; [|done]. intros _. exists s. destruct (wf_data_inv _ _ _ Hw) as (? & ? & ?).
    rewrite covers_cons2 by done. zcases.
Qed.
