(* ===== verification/RangeProps.v ===== *)
(** The promises of [RangeSet] to its users: set-theoretic meaning of every
    operation, canonical form, and the text round trips. *)

From S2P Require Export RangeFacts.

#[local] Open Scope string_scope.
#[local] Open Scope list_scope.
#[local] Open Scope Z_scope.

(** C10: the three set operations never fail on well-formed range sets, return
    well-formed range sets, and compute union, intersection and difference of
    the sets of integers; [overlaps] decides whether the intersection is
    inhabited. *)
Theorem range_set_algebra a b : wf a -> wf b ->
  exists u i d, union a b = Ok u /\ intersect a b = Ok i /\ subtract a b = Ok d /\
    wf u /\ wf i /\ wf d /\
    (forall x, x ∈ u <-> x ∈ a \/ x ∈ b) /\
    (forall x, x ∈ i <-> x ∈ a /\ x ∈ b) /\
    (forall x, x ∈ d <-> x ∈ a /\ x ∉ b) /\
    (overlaps a b = true <-> exists x, x ∈ i).
Proof.
  intros Ha Hb.
  destruct (union_ok a b Ha Hb) as (u & -> & Hwu & Hu).
  destruct (intersect_ok a b Ha Hb) as (i & -> & Hwi & Hi).
  destruct (subtract_ok a b Ha Hb) as (d & -> & Hwd & Hd).
  exists u, i, d. split_and!; try done.
  rewrite overlaps_iff by done. by setoid_rewrite Hi.
Qed.

Definition ex_a : RangeSet := mkRangeSet [10; 20; 30; 35] true [].
Definition ex_b : RangeSet := mkRangeSet [18; 33] true [].

Lemma ex_a_wf : wf ex_a.
Proof. split; [repeat constructor; lia|done]. Qed.
Lemma ex_b_wf : wf ex_b.
Proof. split; [repeat constructor; lia|done]. Qed.

Lemma range_set_algebra_witness :
  exists u i d, union ex_a ex_b = Ok u /\ intersect ex_a ex_b = Ok i /\ subtract ex_a ex_b = Ok d /\
    wf u /\ wf i /\ wf d /\
    (forall x, x ∈ u <-> x ∈ ex_a \/ x ∈ ex_b) /\
    (forall x, x ∈ i <-> x ∈ ex_a /\ x ∈ ex_b) /\
    (forall x, x ∈ d <-> x ∈ ex_a /\ x ∉ ex_b) /\
    (overlaps ex_a ex_b = true <-> exists x, x ∈ i).
Proof. exact (range_set_algebra ex_a ex_b ex_a_wf ex_b_wf). Defined.

(** C11: a range set has one representation per set of integers, so [__eq__],
    which compares the boundaries, is equality of sets; parsing yields
    that representation, and printing in the spaced form and parsing back is
    the identity, as it is in the raw form of the transfer list. *)
Theorem range_set_text_roundtrip r q : wf r -> nonneg r -> wf q ->
  (rs_eqb r q = true <-> r ≡ q) /\
  (exists p, parse (to_string r) = Ok p /\ rs_eqb p r = true /\ rs_monotonic p = true) /\
  (forall text p, parse text = Ok p -> wf p) /\
  (forall t, to_string_raw r = Ok t -> exists p, parse_raw t = Ok p /\ rs_eqb p r = true).
Proof.
  intros Hr Hn Hq. split_and!.
  - by apply rs_eqb_spec.
  - rewrite parse_to_string by done. eexists. split; [done|]. split; [|done]. by apply bool_decide_eq_true.
  - apply parse_wf.
  - intros t Ht. destruct (parse_raw_to_string_raw r t Hr Hn Ht) as (p & -> & Hp). exists p.
    split; [done|]. by apply bool_decide_eq_true.
Qed.

Lemma ex_a_nonneg : nonneg ex_a.
Proof.
  intros x Hx. apply elem_of_pairs in Hx as (s & e & Hse & Hx); [|apply ex_a_wf]. simpl in Hse.
  rewrite !elem_of_cons, elem_of_nil in Hse. destruct Hse as [[= -> ->]|[[= -> ->]|[]]]; lia.
Qed.

Lemma range_set_text_roundtrip_witness :
  to_string ex_a = "10-19 30-34" /\ to_string_raw ex_a = Ok "4,10,20,30,35" /\
  (rs_eqb ex_a ex_b = true <-> ex_a ≡ ex_b) /\
  (exists p, parse (to_string ex_a) = Ok p /\ rs_eqb p ex_a = true /\ rs_monotonic p = true) /\
  (forall text p, parse text = Ok p -> wf p) /\
  (forall t, to_string_raw ex_a = Ok t -> exists p, parse_raw t = Ok p /\ rs_eqb p ex_a = true).
Proof.
  split; [reflexivity|]. split; [reflexivity|].
  exact (range_set_text_roundtrip ex_a ex_b ex_a_wf ex_a_nonneg ex_b_wf).
Defined.

(** [next_item] enumerates the set in increasing order, [size] is the
    number of its elements, [first] takes the first [n] of them, and the
    pairs of [__iter__] are its maximal runs. *)
Theorem range_set_enumeration r n : wf r -> 0 <= n ->
  StronglySorted Z.lt (next_item r) /\ (forall x, x ∈ next_item r <-> x ∈ r) /\
  size r = Z.of_nat (length (next_item r)) /\
  (exists q, first r n = Ok q /\ wf q /\ next_item q = take (Z.to_nat n) (next_item r)) /\
  (forall x, x ∈ r <-> exists s e, (s, e) ∈ rs_iter r /\ s <= x < e).
Proof.
  intros Hr Hn. split_and!.
  - by apply items_sorted.
  - intros x. by apply elem_of_next_item.
  - by apply size_items.
  - by apply first_ok.
  - intros x. by apply elem_of_pairs.
Qed.

Lemma range_set_enumeration_witness :
  StronglySorted Z.lt (next_item ex_a) /\ (forall x, x ∈ next_item ex_a <-> x ∈ ex_a) /\
  size ex_a = Z.of_nat (length (next_item ex_a)) /\
  (exists q, first ex_a 12 = Ok q /\ wf q /\ next_item q = take 12 (next_item ex_a)) /\
  (forall x, x ∈ ex_a <-> exists s e, (s, e) ∈ rs_iter ex_a /\ s <= x < e).
Proof. apply (range_set_enumeration ex_a 12 ex_a_wf). lia. Defined.

(** [map_within] maps every element of the subset [b] to its index in the
    enumeration of [a] ([rank] counts the elements of [a] below it), and
    [extend] adds the blocks at distance at most [n], clamped at zero. *)
Theorem range_set_map_extend a b n : wf a -> nonneg a -> wf b -> (forall x, x ∈ b -> x ∈ a) -> 0 <= n ->
  (exists r, map_within a b = Ok r /\ wf r /\
     forall y, y ∈ r <-> exists x, x ∈ b /\
       Z.of_nat (length (List.filter (fun z => z <? x) (next_item a))) = y) /\
  (exists q, extend a n = Ok q /\ wf q /\
     forall x, x ∈ q <-> 0 <= x /\ exists y, y ∈ a /\ y - n <= x <= y + n).
Proof.
  intros Ha Hna Hb Hsub Hn. split; [|by apply extend_ok].
  destruct (map_within_ok a b Ha Hb Hsub) as (r & Hr & Hw & Hy). exists r. split_and!; try done.
  intros y. rewrite Hy. by setoid_rewrite (rank_count (rs_data a) _ Ha).
Qed.

Lemma range_set_map_extend_witness :
  map_within ex_a (mkRangeSet [15; 20; 30; 32] true []) = Ok (mkRangeSet [5; 12] true []) /\
  (exists r, map_within ex_a (mkRangeSet [15; 20; 30; 32] true []) = Ok r /\ wf r /\
     forall y, y ∈ r <-> exists x, x ∈ mkRangeSet [15; 20; 30; 32] true [] /\
       Z.of_nat (length (List.filter (fun z => z <? x) (next_item ex_a))) = y) /\
  (exists q, extend ex_a 3 = Ok q /\ wf q /\
     forall x, x ∈ q <-> 0 <= x /\ exists y, y ∈ ex_a /\ y - 3 <= x <= y + 3).
Proof.
  split; [reflexivity|]. apply (range_set_map_extend ex_a (mkRangeSet [15; 20; 30; 32] true []) 3 ex_a_wf ex_a_nonneg).
  - split; [repeat constructor; lia|done].
  - intros x Hx. apply elem_of_pairs in Hx as (s & e & Hse & Hx); [|split; [repeat constructor; lia|done]].
    apply elem_of_pairs; [apply ex_a_wf|]. simpl in Hse. rewrite !elem_of_cons, elem_of_nil in Hse.
    destruct Hse as [[= -> ->]|[[= -> ->]|[]]]; [exists 10, 20|exists 30, 35]; (split; [simpl; rewrite !elem_of_cons; tauto|lia]).
  - lia.
Defined.
