(* ===== verification/Transfer.v ===== *)
(** releasetools/blockimgdiff.py, the data: transfers as mutable objects in a
    store, the images they move blocks between, and the statistics of imgdiff.

    A transfer object is a reference ([tid], its [id] attribute, here [xf_id]); the store maps
    references to the current attribute values, so a change made through one
    alias is seen through all of them.  [transfers] lists are lists of
    references. *)

From S2P Require Export PyColl RangeFacts.

#[local] Open Scope string_scope.
#[local] Open Scope list_scope.
#[local] Open Scope Z_scope.

Definition tid : Type := nat.

(** An OrderedDict of transfers, keyed by identity; the value is the weight of
    an edge, or [None] once the edge has been reversed. *)
Abbreviation edges := (list (tid * option Z)).

(** [PatchInfo = namedtuple("PatchInfo", ["imgdiff", "content"])]. *)
Record PatchInfo := mkPatchInfo { imgdiff : bool; content : string }.

Record Transfer := mkTransfer {
  tgt_name : string;
  src_name : option string;
  tgt_ranges : RangeSet;
  src_ranges : RangeSet;
  tgt_sha1 : string;
  src_sha1 : string;
  style : string;
  goes_before : edges;
  goes_after : edges;
  stash_before : list (Z * RangeSet);
  use_stash : list (Z * RangeSet);
  xf_id : tid;
  patch_info : option PatchInfo;
  (* attributes the sequencing and patching passes add *)
  order : Z;
  incoming : edges;
  outgoing : edges;
  score : Z;
  heap_item : nat;
  patch_start : Z;
  patch_len : Z
}.

#[export] Instance transfer_inhabited : Inhabited Transfer :=
  populate (mkTransfer "" None empty empty "" "" "" [] [] [] [] 0%nat None 0 [] [] 0 0%nat 0 0).

Abbreviation store := (gmap tid Transfer).

(** Assigning to attributes of the object [i]. *)
Definition upd (i : tid) (f : Transfer -> Transfer) (st : store) : store :=
  <[i := f (st !!! i)]> st.

Definition set_goes_before (v : edges) (x : Transfer) : Transfer :=
  let '(mkTransfer a b c d e f g _ i j k l m n o p q r s t) := x in
  mkTransfer a b c d e f g v i j k l m n o p q r s t.
Definition set_goes_after (v : edges) (x : Transfer) : Transfer :=
  let '(mkTransfer a b c d e f g h _ j k l m n o p q r s t) := x in
  mkTransfer a b c d e f g h v j k l m n o p q r s t.
Definition set_stash_before (v : list (Z * RangeSet)) (x : Transfer) : Transfer :=
  let '(mkTransfer a b c d e f g h i _ k l m n o p q r s t) := x in
  mkTransfer a b c d e f g h i v k l m n o p q r s t.
Definition set_use_stash (v : list (Z * RangeSet)) (x : Transfer) : Transfer :=
  let '(mkTransfer a b c d e f g h i j _ l m n o p q r s t) := x in
  mkTransfer a b c d e f g h i j v l m n o p q r s t.
Definition set_style (v : string) (x : Transfer) : Transfer :=
  let '(mkTransfer a b c d e f _ h i j k l m n o p q r s t) := x in
  mkTransfer a b c d e f v h i j k l m n o p q r s t.
Definition set_src_ranges (v : RangeSet) (x : Transfer) : Transfer :=
  let '(mkTransfer a b c _ e f g h i j k l m n o p q r s t) := x in
  mkTransfer a b c v e f g h i j k l m n o p q r s t.
Definition put_patch_info (v : option PatchInfo) (x : Transfer) : Transfer :=
  let '(mkTransfer a b c d e f g h i j k l _ n o p q r s t) := x in
  mkTransfer a b c d e f g h i j k l v n o p q r s t.
Definition set_order (v : Z) (x : Transfer) : Transfer :=
  let '(mkTransfer a b c d e f g h i j k l m _ o p q r s t) := x in
  mkTransfer a b c d e f g h i j k l m v o p q r s t.
Definition set_incoming (v : edges) (x : Transfer) : Transfer :=
  let '(mkTransfer a b c d e f g h i j k l m n _ p q r s t) := x in
  mkTransfer a b c d e f g h i j k l m n v p q r s t.
Definition set_outgoing (v : edges) (x : Transfer) : Transfer :=
  let '(mkTransfer a b c d e f g h i j k l m n o _ q r s t) := x in
  mkTransfer a b c d e f g h i j k l m n o v q r s t.
Definition set_score (v : Z) (x : Transfer) : Transfer :=
  let '(mkTransfer a b c d e f g h i j k l m n o p _ r s t) := x in
  mkTransfer a b c d e f g h i j k l m n o p v r s t.
Definition set_heap_item (v : nat) (x : Transfer) : Transfer :=
  let '(mkTransfer a b c d e f g h i j k l m n o p q _ s t) := x in
  mkTransfer a b c d e f g h i j k l m n o p q v s t.
Definition set_patch_pos (start len : Z) (x : Transfer) : Transfer :=
  let '(mkTransfer a b c d e f g h i j k l m n o p q r _ _) := x in
  mkTransfer a b c d e f g h i j k l m n o p q r start len.

(** [Transfer.__init__]: the new object is appended to [by_id]; its [id] is
    the length the list had. *)
Definition new_transfer (st : store) (by_id : list tid)
    (tgt_name : string) (src_name : option string) (tgt_ranges src_ranges : RangeSet)
    (tgt_sha1 src_sha1 style : string) : store * list tid :=
  let i := length by_id in
  (<[i := mkTransfer tgt_name src_name tgt_ranges src_ranges tgt_sha1 src_sha1 style
            [] [] [] [] i None 0 [] [] 0 0%nat 0 0]> st,
   by_id ++ [i]).

(** The [patch_info] setter. *)
Definition set_patch_info (i : tid) (info : option PatchInfo) (st : store) : result store :=
  match info with
  | Some _ => assert! String.eqb (style (st !!! i)) "diff" in Ok (upd i (put_patch_info info) st)
  | None => Ok (upd i (put_patch_info None) st)
  end.

(** The total size of a list of stashed ranges. *)
Definition stash_size (l : list (Z * RangeSet)) : Z := sumZ (map (fun p => size p.2) l).

Definition NetStashChange (x : Transfer) : Z := stash_size (stash_before x) - stash_size (use_stash x).

(** [ConvertToNew]. *)
Definition ConvertToNew (i : tid) (st : store) : result store :=
  assert! negb (String.eqb (style (st !!! i)) "new") in
  set_patch_info i None
    (upd i (fun x => set_src_ranges empty (set_style "new" (set_use_stash [] x))) st).

(** * HeapItem *)

(** An item of the score heap: a reference to the object whose [item] field
    [clear] sets to [None], and its score, which never changes. *)
Record HeapItem := mkHeapItem { hi_ref : nat; hi_score : Z }.

(** [__lt__], which [total_ordering] derives from [__le__] and [__eq__]. *)
Definition hi_ltb (a b : HeapItem) : bool :=
  (hi_score a <=? hi_score b) && negb (hi_score a =? hi_score b).

(** * Images *)

(** What the diff needs of an image object. *)
Record Image := mkImage {
  blocksize : Z;
  total_blocks : Z;
  care_map : RangeSet;
  clobbered_blocks : RangeSet;
  extended : RangeSet;
  file_map : list (string * RangeSet);
  RangeSha1 : RangeSet -> string;
  ReadRangeSet : RangeSet -> string
}.

(** [AssertPartition]: the sets of [seq] do not meet and their union is
    [total]. *)
Definition AssertPartition (total : RangeSet) (seq : list RangeSet) : result unit :=
  let! so_far := foldM (fun so_far i => assert! negb (overlaps so_far i) in union so_far i) empty seq in
  assert! rs_eqb so_far total in Ok tt.

(** * Facts about the store *)

Lemma lookup_total_upd st i j f :
  upd i f st !!! j = if decide (i = j) then f (st !!! i) else st !!! j.
Proof.
  unfold upd. case_decide as H; [subst; by rewrite lookup_total_insert_eq|by rewrite lookup_total_insert_ne].
Qed.

Lemma lookup_total_upd_eq st i f : upd i f st !!! i = f (st !!! i).
Proof. rewrite lookup_total_upd. by case_decide. Qed.

Lemma lookup_total_upd_ne st i j f : i <> j -> upd i f st !!! j = st !!! j.
Proof. intros. rewrite lookup_total_upd. by case_decide. Qed.

(** A field that a setter leaves alone reads the same after an update. *)
Lemma upd_field {A} (g : Transfer -> A) st i j f :
  (forall x, g (f x) = g x) -> g (upd i f st !!! j) = g (st !!! j).
Proof. intros Hg. rewrite lookup_total_upd. case_decide; [subst; apply Hg|done]. Qed.

Lemma new_transfer_lookup st by_id a b c d e f g st' by_id' :
  new_transfer st by_id a b c d e f g = (st', by_id') ->
  by_id' = by_id ++ [length by_id] /\
  tgt_ranges (st' !!! (length by_id : tid)) = c /\ src_ranges (st' !!! (length by_id : tid)) = d /\
  style (st' !!! (length by_id : tid)) = g /\
  tgt_sha1 (st' !!! (length by_id : tid)) = e /\ src_sha1 (st' !!! (length by_id : tid)) = f /\
  patch_info (st' !!! (length by_id : tid)) = None /\
  (forall j, j <> length by_id -> st' !!! j = st !!! j).
Proof.
  unfold new_transfer. intros [= <- <-]. rewrite !lookup_total_insert_eq. split_and!; try done.
  intros j Hj. by rewrite lookup_total_insert_ne.
Qed.

(** ** Partitions *)

Lemma AssertPartition_go so_far seq :
  wf so_far -> Forall wf seq ->
  match foldM (fun so_far i => assert! negb (overlaps so_far i) in union so_far i) so_far seq with
  | Ok r => wf r /\ (forall x, x ∈ r <-> x ∈ so_far \/ exists i, i ∈ seq /\ x ∈ i) /\
            (forall x i, i ∈ seq -> x ∈ i -> x ∉ so_far) /\
            (forall x n m i j, seq !! n = Some i -> seq !! m = Some j -> x ∈ i -> x ∈ j -> n = m)
  | Raise _ => (exists x i, i ∈ seq /\ x ∈ i /\ x ∈ so_far) \/
               (exists x n m i j, seq !! n = Some i /\ seq !! m = Some j /\ x ∈ i /\ x ∈ j /\ n <> m)
  end.
Proof.
  intros Hw Hseq. revert so_far Hw. induction Hseq as [|i seq Hi Hseq IH]; intros so_far Hw; simpl.
  - split_and!; [done| | |by intros ? [] ?].
    + intros x. split; [by left|]. intros [?|(i & Hi & _)]; [done|by apply elem_of_nil in Hi].
    + by intros x i Hi%elem_of_nil.
  - destruct (overlaps so_far i) eqn:E; simpl.
    + apply overlaps_iff in E as [x [Hx1 Hx2]]; [|done..]. left. exists x, i. split; [by left|done].
    + assert (forall x, x ∈ so_far -> x ∉ i) as Hdisj.
      { intros x H1 H2. assert (overlaps so_far i = true) as Ho by (apply overlaps_iff; eauto). congruence. }
      destruct (union_ok so_far i Hw Hi) as (u & Hu & Hwu & Hxu). rewrite Hu.
      specialize (IH u Hwu). destruct (foldM _ u seq) as [r|].
      * destruct IH as (H1 & H2 & H3 & H4). split_and!; [done| | |].
        -- intros x. rewrite H2, Hxu. setoid_rewrite elem_of_cons. naive_solver.
        -- intros x j [->|Hj]%elem_of_cons Hxj Hxs; [by eapply Hdisj|].
           eapply H3; [exact Hj|exact Hxj|]. apply Hxu. by left.
        -- intros x [|n] [|m] a b Ha Hb Hxa Hxb; simpl in *; simplify_eq; [done| | |].
           ++ exfalso. eapply (H3 x b); [by eapply list_elem_of_lookup_2|done|]. apply Hxu. by right.
           ++ exfalso. eapply (H3 x a); [by eapply list_elem_of_lookup_2|done|]. apply Hxu. by right.
           ++ f_equal. by eapply H4.
      * destruct IH as [(x & j & Hj & Hxj & Hxu')|(x & n & m & a & b & ? & ? & ? & ? & ?)].
        -- destruct (proj1 (Hxu x) Hxu') as [Hxs|Hxi]; [left; exists x, j; by split; [right|]|].
           right. apply list_elem_of_lookup in Hj as [n Hn]. by exists x, 0%nat, (S n), i, j.
        -- right. exists x, (S n), (S m), a, b. split_and!; [done..|congruence].
Qed.

(** [AssertPartition] succeeds exactly on partitions. *)
Lemma AssertPartition_iff total seq : wf total -> Forall wf seq ->
  AssertPartition total seq = Ok tt <->
  (forall x, x ∈ total <-> exists i, i ∈ seq /\ x ∈ i) /\
  (forall x n m i j, seq !! n = Some i -> seq !! m = Some j -> x ∈ i -> x ∈ j -> n = m).
Proof.
  intros Ht Hseq. pose proof (AssertPartition_go empty seq wf_empty Hseq) as H. unfold AssertPartition.
  destruct (foldM _ empty seq) as [r|e].
  - destruct H as (Hw & H1 & _ & H3). destruct (rs_eqb r total) eqn:E.
    + apply rs_eqb_spec in E; [|done..]. split; [intros _|done]. split; [|done].
      intros x. rewrite <- (E x), H1. split; [|by right]. by intros [?|].
    + split; [done|]. intros [Hx _]. assert (rs_eqb r total = true); [|congruence].
      apply rs_eqb_spec; [done..|]. intros x. rewrite Hx, H1. split; [|by right]. by intros [?|].
  - split; [done|]. intros [_ Hn]. exfalso.
    destruct H as [(x & i & _ & _ & ?)|(x & n & m & i & j & ? & ? & ? & ? & Hne)]; [done|].
    apply Hne. by eapply Hn.
Qed.
