(* ===== verification/BlockSeq.v ===== *)
(** releasetools/blockimgdiff.py, the order of transfers: the dependency graph
    ([GenerateDigraph]), the heuristic vertex sequence ([FindVertexSequence]),
    the reversal of the edges the sequence violates, which introduces stashes
    ([ReverseBackwardEdges]), the final topological order
    ([ImproveVertexSequence]), and the check of the result
    ([AssertSequenceGood]). *)

From S2P Require Export Transfer.

#[local] Open Scope Z_scope.

(** A state of the sequencing passes: the transfer objects and the current
    [self.transfers]. *)
Record SeqState := mkSeq { sq_store : store; sq_transfers : list tid }.

(** * GenerateDigraph *)

(** [source_ranges]: for every block an ordered set of readers, or [None]. *)
Abbreviation readers := (list (option (list tid))).

Definition add_reader (b : tid) (src : readers) (i : Z) : result readers :=
  let! cur := py_get src i in
  match cur with
  | None => py_set src i (Some [b])
  | Some l => py_set src i (Some (os_add b l))
  end.

Definition extend_readers (e : Z) (src : readers) : readers :=
  let n := Z.of_nat (length src) in
  if n <? e then src ++ replicate (Z.to_nat (e - n)) None else src.

Definition add_range (b : tid) (src : readers) (p : Z * Z) : result readers :=
  let '(s, e) := p in foldM (add_reader b) (extend_readers e src) (zrange s e).

Definition source_readers (st : store) (transfers : list tid) : result readers :=
  foldM (fun src b => foldM (add_range b) src (rs_iter (src_ranges (st !!! b)))) [] transfers.

(** The inner loop over one target range, left at the end of the table. *)
Fixpoint collect_range (src : readers) (acc : list tid) (l : list Z) : result (list tid) :=
  match l with
  | [] => Ok acc
  | i :: l' =>
      if Z.of_nat (length src) <=? i then Ok acc
      else let! cur := py_get src i in
           collect_range src
             (match cur with None => acc | Some js => fold_left (fun acc j => os_add j acc) js acc end) l'
  end.

Definition intersections (src : readers) (r : RangeSet) : result (list tid) :=
  foldM (fun acc '(s, e) => collect_range src acc (zrange s e)) [] (rs_iter r).

(** One candidate edge: [b] reads what [a] writes, so [b] goes before [a]. *)
Definition add_edge (a : tid) (st : store) (b : tid) : result store :=
  if decide (a = b) then Ok st
  else
    let! i := intersect (tgt_ranges (st !!! a)) (src_ranges (st !!! b)) in
    if rs_bool i then
      let sz := if decide (src_name (st !!! b) = Some "__ZERO"%string) then 0 else size i in
      Ok (upd a (fun x => set_goes_after (od_set b (Some sz) (goes_after x)) x)
           (upd b (fun x => set_goes_before (od_set a (Some sz) (goes_before x)) x) st))
    else Ok st.

Definition GenerateDigraph (s : SeqState) : result SeqState :=
  let! src := source_readers (sq_store s) (sq_transfers s) in
  let! st := foldM (fun st a => let! inter := intersections src (tgt_ranges (st !!! a)) in
                                foldM (add_edge a) st inter)
               (sq_store s) (sq_transfers s) in
  Ok (mkSeq st (sq_transfers s)).

(** * FindVertexSequence *)

(** [sum(d.values())]; adding a reversed edge's [None] is a [TypeError]. *)
Definition sum_values (d : edges) : result Z :=
  foldM (fun acc '(_, w) => match w with Some z => Ok (acc + z) | None => Raise TypeError end) 0 d.

(** The working state: [G], the two ends of the sequence, the heap of scored
    items and the [item] field of every item created so far. *)
Record VState := mkV {
  v_store : store;
  v_G : list tid;
  v_s1 : list tid;
  v_s2 : list tid;
  v_heap : list HeapItem;
  v_items : list (option tid)
}.

(** A fresh [HeapItem] for [i]. *)
Definition new_heap_item (i : tid) (v : VState) : HeapItem * VState :=
  let r := length (v_items v) in
  (mkHeapItem r (- score (v_store v !!! i)),
   mkV (upd i (set_heap_item r) (v_store v)) (v_G v) (v_s1 v) (v_s2 v) (v_heap v)
     (v_items v ++ [Some i])).

Definition adjust_score (iu : tid) (delta : Z) (v : VState) : VState :=
  let st := upd iu (fun x => set_score (score x + delta) x) (v_store v) in
  let items := <[heap_item (st !!! iu) := None]> (v_items v) in
  let '(h, v') := new_heap_item iu (mkV st (v_G v) (v_s1 v) (v_s2 v) (v_heap v) items) in
  mkV (v_store v') (v_G v') (v_s1 v') (v_s2 v') (heappush hi_ltb (v_heap v') h) (v_items v').

Definition del_G (u : tid) (v : VState) : VState :=
  mkV (v_store v) (filter (fun x => x <> u) (v_G v)) (v_s1 v) (v_s2 v) (v_heap v) (v_items v).
Definition push_s1 (u : tid) (v : VState) : VState :=
  mkV (v_store v) (v_G v) (v_s1 v ++ [u]) (v_s2 v) (v_heap v) (v_items v).
Definition push_s2 (u : tid) (v : VState) : VState :=
  mkV (v_store v) (v_G v) (v_s1 v) (u :: v_s2 v) (v_heap v) (v_items v).

(** The body of [for iu in u.incoming: adjust_score(iu, -iu.outgoing.pop(u))]
    and of its mirror image: [get] and [put] are the dictionary the vertex [u]
    is popped from, [sign] the sign of the change of score, and the second
    component collects the vertices whose dictionary became empty. *)
Definition pop_edge (get : Transfer -> edges) (put : edges -> Transfer -> Transfer) (sign : Z)
    (u : tid) (st : VState * list tid) (iu : tid) : result (VState * list tid) :=
  let '(v, acc) := st in
  let! (w, rest) := od_pop u (get (v_store v !!! iu)) in
  match w with
  | None => Raise TypeError
  | Some z =>
      let v := mkV (upd iu (put rest) (v_store v)) (v_G v) (v_s1 v) (v_s2 v) (v_heap v) (v_items v) in
      let v := adjust_score iu (sign * z) v in
      Ok (v, match get (v_store v !!! iu) with [] => os_add iu acc | _ => acc end)
  end.

Definition pop_outgoing := pop_edge outgoing set_outgoing (-1).
Definition pop_incoming := pop_edge incoming set_incoming 1.

Definition take_sink (st : VState * list tid) (u : tid) : result (VState * list tid) :=
  let '(v, acc) := st in
  if decide (u ∈ v_G v) then
    let v := del_G u (push_s2 u v) in
    foldM (pop_outgoing u) (v, acc) (od_keys (incoming (v_store v !!! u)))
  else Ok (v, acc).

Definition take_source (st : VState * list tid) (u : tid) : result (VState * list tid) :=
  let '(v, acc) := st in
  if decide (u ∈ v_G v) then
    let v := del_G u (push_s1 u v) in
    foldM (pop_incoming u) (v, acc) (od_keys (outgoing (v_store v !!! u)))
  else Ok (v, acc).

(** [while sinks: ...] and [while sources: ...]. *)
Fixpoint drain (take : VState * list tid -> tid -> result (VState * list tid))
    (fuel : nat) (v : VState) (front : list tid) : result VState :=
  match front with
  | [] => Ok v
  | _ => match fuel with
         | O => Raise OutOfFuel
         | S fuel' => let! (v', front') := foldM take (v, []) front in drain take fuel' v' front'
         end
  end.

(** [while True: u = heapq.heappop(heap); if u and u.item in G: ...]. *)
Fixpoint pop_best (fuel : nat) (v : VState) : result (tid * VState) :=
  match fuel with
  | O => Raise OutOfFuel
  | S fuel' =>
      let! (h, heap) := heappop hi_ltb (v_heap v) in
      let v := mkV (v_store v) (v_G v) (v_s1 v) (v_s2 v) heap (v_items v) in
      match default None (v_items v !! hi_ref h) with
      | Some u => if decide (u ∈ v_G v) then Ok (u, v) else pop_best fuel' v
      | None => pop_best fuel' v
      end
  end.

(** [while G: ...]; the inner loops are given the outer fuel. *)
Fixpoint vertex_loop (fuel : nat) (v : VState) (sinks sources : list tid) : result VState :=
  match v_G v with
  | [] => Ok v
  | _ =>
      match fuel with
      | O => Raise OutOfFuel
      | S fuel' =>
          let! v := drain take_sink (S (length (v_G v))) v sinks in
          let! v := drain take_source (S (length (v_G v))) v sources in
          match v_G v with
          | [] => Ok v
          | _ =>
              let! (u, v) := pop_best (S (length (v_heap v))) v in
              let v := del_G u (push_s1 u v) in
              let! (v, sources) := foldM (pop_incoming u) (v, []) (od_keys (outgoing (v_store v !!! u))) in
              let! (v, sinks) := foldM (pop_outgoing u) (v, []) (od_keys (incoming (v_store v !!! u))) in
              vertex_loop fuel' v sinks sources
          end
      end
  end.

(** The initial working state. *)
Definition init_scores (st : store) (transfers : list tid) : result store :=
  foldM (fun st i =>
           let x := st !!! i in
           let! o := sum_values (goes_before x) in
           let! n := sum_values (goes_after x) in
           Ok (upd i (fun x => set_score (o - n)
                        (set_outgoing (goes_before x) (set_incoming (goes_after x) x))) st))
    st transfers.

Definition init_heap (transfers : list tid) (v : VState) : VState :=
  fold_left (fun v i => let '(h, v') := new_heap_item i v in
               mkV (v_store v') (v_G v') (v_s1 v') (v_s2 v') (v_heap v' ++ [h]) (v_items v'))
    transfers v.

(** [x.order = len(new_transfers); new_transfers.append(x)]. *)
Definition set_orders (st : store) (l : list tid) : store :=
  fold_left (fun st '(k, i) => upd i (set_order (Z.of_nat k)) st) (zip (seq 0 (length l)) l) st.

Definition FindVertexSequence (s : SeqState) : result SeqState :=
  let ts := sq_transfers s in
  let! st := init_scores (sq_store s) ts in
  let v := init_heap ts (mkV st ts [] [] [] []) in
  let v := mkV (v_store v) (v_G v) [] [] (heapify hi_ltb (v_heap v)) (v_items v) in
  let no_out := filter (fun u => outgoing (v_store v !!! u) = []) (v_G v) in
  let no_in := filter (fun u => incoming (v_store v !!! u) = []) (v_G v) in
  let! v := vertex_loop (S (length ts)) v no_out no_in in
  let new := v_s1 v ++ v_s2 v in
  Ok (mkSeq (set_orders (v_store v) new) new).

(** * ReverseBackwardEdges *)

(** One edge [xf -> u]; the state also carries the next [stash_raw_id]. *)
Definition reverse_edge (xf : tid) (acc : store * Z) (u : tid) : result (store * Z) :=
  let '(st, raw_id) := acc in
  if order (st !!! xf) <? order (st !!! u) then Ok (st, raw_id)
  else
    let! overlap := intersect (src_ranges (st !!! xf)) (tgt_ranges (st !!! u)) in
    assert! rs_bool overlap in
    let st := upd u (fun x => set_stash_before (stash_before x ++ [(raw_id, overlap)]) x) st in
    let st := upd xf (fun x => set_use_stash (use_stash x ++ [(raw_id, overlap)]) x) st in
    let! gb := od_del u (goes_before (st !!! xf)) in
    let st := upd xf (set_goes_before gb) st in
    let! ga := od_del xf (goes_after (st !!! u)) in
    let st := upd u (set_goes_after ga) st in
    let st := upd xf (fun x => set_goes_after (od_set u None (goes_after x)) x) st in
    let st := upd u (fun x => set_goes_before (od_set xf None (goes_before x)) x) st in
    Ok (st, raw_id + 1).

Definition ReverseBackwardEdges (s : SeqState) : result SeqState :=
  let! (st, _) :=
    foldM (fun acc xf => foldM (reverse_edge xf) acc (od_keys (goes_before (acc.1 !!! xf))))
      (sq_store s, 0) (sq_transfers s) in
  Ok (mkSeq st (sq_transfers s)).

(** * ImproveVertexSequence *)

(** The tuples [(u.NetStashChange(), u.order, u)]; orders are distinct, so the
    comparison never reaches the transfer. *)
Abbreviation ready := (Z * Z * tid)%type.
Definition ready_ltb (a b : ready) : bool :=
  (a.1.1 <? b.1.1) || ((a.1.1 =? b.1.1) && (a.1.2 <? b.1.2)).
Definition ready_of (st : store) (u : tid) : ready :=
  (NetStashChange (st !!! u), order (st !!! u), u).

(** [for u in xf.outgoing: del u.incoming[xf]; if not u.incoming: push]. *)
Definition release (xf : tid) (acc : store * list ready) (u : tid) : result (store * list ready) :=
  let '(st, heap) := acc in
  let! inc := od_del xf (incoming (st !!! u)) in
  let st := upd u (set_incoming inc) st in
  Ok (st, match inc with [] => heappush ready_ltb heap (ready_of st u) | _ => heap end).

Fixpoint topo_loop (fuel : nat) (st : store) (heap : list ready) (L : list tid) : result (store * list tid) :=
  match heap with
  | [] => Ok (st, L)
  | _ =>
      match fuel with
      | O => Raise OutOfFuel
      | S fuel' =>
          let! (x, heap) := heappop ready_ltb heap in
          let xf := x.2 in
          let! (st, heap) := foldM (release xf) (st, heap) (od_keys (outgoing (st !!! xf))) in
          topo_loop fuel' st heap (L ++ [xf])
      end
  end.

Definition copy_edges (st : store) (ts : list tid) : store :=
  fold_left (fun st i => upd i (fun x => set_outgoing (goes_before x) (set_incoming (goes_after x) x)) st) ts st.

Definition ImproveVertexSequence (s : SeqState) : result SeqState :=
  let ts := sq_transfers s in
  let st := copy_edges (sq_store s) ts in
  let S0 := heapify ready_ltb (map (ready_of st) (filter (fun u => incoming (st !!! u) = []) ts)) in
  let! (st, L) := topo_loop (S (length ts)) st S0 [] in
  assert! (length L =? length ts)%nat in
  Ok (mkSeq (set_orders st L) L).

(** * FindSequenceForTransfers *)

Definition clear_dependencies (s : SeqState) : SeqState :=
  mkSeq (fold_left (fun st i => upd i (fun x => set_use_stash [] (set_stash_before []
                        (set_goes_after [] (set_goes_before [] x)))) st) (sq_transfers s) (sq_store s))
    (sq_transfers s).

Definition FindSequenceForTransfers (s : SeqState) : result SeqState :=
  let s := clear_dependencies s in
  let! s := GenerateDigraph s in
  let! s := FindVertexSequence s in
  let! s := ReverseBackwardEdges s in
  ImproveVertexSequence s.

(** * AssertSequenceGood *)

(** The [touched] array, one flag per target block. *)
Definition check_untouched (touched : list bool) (i : Z) : result unit :=
  let! t := py_get touched i in assert! negb t in Ok tt.

Definition check_reads (total : Z) (touched : list bool) (r : RangeSet) : result unit :=
  foldM (fun _ '(s, e) => foldM (fun _ i => check_untouched touched i) tt (zrange s (Z.min e total)))
    tt (rs_iter r).

Definition touch_block (touched : list bool) (i : Z) : result (list bool) :=
  let! _ := check_untouched touched i in py_set touched i true.

Definition check_writes (touched : list bool) (r : RangeSet) : result (list bool) :=
  foldM (fun touched '(s, e) => foldM touch_block touched (zrange s e)) touched (rs_iter r).

Definition unstashed (x : Transfer) : result RangeSet :=
  foldM (fun r '(_, sr) => subtract r sr) (src_ranges x) (use_stash x).

Definition check_transfer (total : Z) (touched : list bool) (x : Transfer) : result (list bool) :=
  let! reads := unstashed x in
  let! _ := check_reads total touched reads in
  check_writes touched (tgt_ranges x).

Definition AssertSequenceGood (tgt : Image) (s : SeqState) : result unit :=
  let! touched := foldM (fun touched i => check_transfer (total_blocks tgt) touched (sq_store s !!! i))
                    (replicate (Z.to_nat (total_blocks tgt)) false) (sq_transfers s) in
  foldM (fun _ '(s, e) =>
           foldM (fun _ i => let! t := py_get touched i in assert! t in Ok tt) tt (zrange s e))
    tt (rs_iter (care_map tgt)).
