(* ===== verification/BlockGraph.v ===== *)
(** The dependency graph of transfers: [GenerateDigraph] puts an edge from [b]
    to [a] exactly when [a] overwrites a block that [b] reads. *)

From S2P Require Export BlockSeq.

#[local] Open Scope Z_scope.

(** * What the passes leave alone *)

(** The attributes that no sequencing pass assigns. *)
Definition statics (x : Transfer) :=
  (tgt_name x, src_name x, (tgt_ranges x, src_ranges x), (tgt_sha1 x, src_sha1 x),
   (style x, xf_id x, patch_info x)).

(** The attributes the passes after the reversal of edges leave alone. *)
Definition fixed (x : Transfer) :=
  (statics x, goes_before x, goes_after x, stash_before x, use_stash x).

Definition same_on {A} (g : Transfer -> A) (st st' : store) : Prop :=
  forall i, g (st' !!! i) = g (st !!! i).

#[export] Instance same_on_preorder {A} (g : Transfer -> A) : PreOrder (same_on g).
Proof. split; [by intros ??|]. intros a b c H1 H2 i. by rewrite H2, H1. Qed.

Lemma same_on_upd {A} (g : Transfer -> A) st i f :
  (forall x, g (f x) = g x) -> same_on g st (upd i f st).
Proof. intros Hg j. by apply upd_field. Qed.

Lemma same_on_trans_upd {A} (g : Transfer -> A) st st' i f :
  (forall x, g (f x) = g x) -> same_on g st st' -> same_on g st (upd i f st').
Proof. intros Hg H. transitivity st'; [done|by apply same_on_upd]. Qed.

Lemma same_statics_ranges st st' i : same_on statics st st' ->
  tgt_ranges (st' !!! i) = tgt_ranges (st !!! i) /\ src_ranges (st' !!! i) = src_ranges (st !!! i).
Proof. intros H. specialize (H i). unfold statics in H. by injection H. Qed.

Lemma same_fixed st st' i : same_on fixed st st' ->
  statics (st' !!! i) = statics (st !!! i) /\
  goes_before (st' !!! i) = goes_before (st !!! i) /\ goes_after (st' !!! i) = goes_after (st !!! i) /\
  stash_before (st' !!! i) = stash_before (st !!! i) /\ use_stash (st' !!! i) = use_stash (st !!! i).
Proof.
  intros H. specialize (H i). unfold fixed in H. split_and!.
  - exact (f_equal (fun p => p.1.1.1.1) H).
  - exact (f_equal (fun p => p.1.1.1.2) H).
  - exact (f_equal (fun p => p.1.1.2) H).
  - exact (f_equal (fun p => p.1.2) H).
  - exact (f_equal (fun p => p.2) H).
Qed.

Lemma same_fixed_statics st st' : same_on fixed st st' -> same_on statics st st'.
Proof. intros H i. by apply same_fixed. Qed.

(** Setters reduce on any transfer. *)
Ltac setter := by intros [].

Lemma foldl_same_on {A B} (g : Transfer -> A) (f : store -> B -> store) l st :
  (forall st b, same_on g st (f st b)) -> same_on g st (fold_left f l st).
Proof.
  intros Hf. revert st. induction l as [|b l IH]; intros st; simpl; [done|].
  transitivity (f st b); [apply Hf|apply IH].
Qed.

(** * The transfers of a diff *)

(** The ranges of all transfers are well-formed sets of block numbers. *)
Definition ranges_ok (st : store) (ts : list tid) : Prop :=
  forall i, i ∈ ts -> wf (tgt_ranges (st !!! i)) /\ nonneg (tgt_ranges (st !!! i)) /\
                      wf (src_ranges (st !!! i)) /\ nonneg (src_ranges (st !!! i)).

Lemma ranges_ok_same st st' ts : same_on statics st st' -> ranges_ok st ts -> ranges_ok st' ts.
Proof. intros H Hr i Hi. destruct (same_statics_ranges st st' i H) as [-> ->]. by apply Hr. Qed.

(** [a] writes a block that [b] reads. *)
Definition conflict (st : store) (a b : tid) : Prop :=
  exists x, x ∈ tgt_ranges (st !!! a) /\ x ∈ src_ranges (st !!! b).

Lemma conflict_same st st' a b : same_on statics st st' -> conflict st' a b <-> conflict st a b.
Proof.
  intros H. unfold conflict. destruct (same_statics_ranges st st' a H) as [-> _].
  by destruct (same_statics_ranges st st' b H) as [_ ->].
Qed.

(** Both ends of every edge agree on it, edges stay among [ts], and no vertex
    is a key twice. *)
Record graph_ok (ts : list tid) (st : store) : Prop := {
  go_before : forall x, x ∈ ts -> NoDup (od_keys (goes_before (st !!! x)));
  go_after : forall x, x ∈ ts -> NoDup (od_keys (goes_after (st !!! x)));
  go_before_in : forall x y, x ∈ ts -> y ∈ od_keys (goes_before (st !!! x)) -> y ∈ ts;
  go_after_in : forall x y, x ∈ ts -> y ∈ od_keys (goes_after (st !!! x)) -> y ∈ ts;
  go_sym : forall x y, x ∈ ts -> y ∈ ts ->
    od_get y (goes_before (st !!! x)) = od_get x (goes_after (st !!! y))
}.

(** The edge from [x] to [y]: [x] goes before [y]. *)
Definition edge (st : store) (x y : tid) : Prop := y ∈ od_keys (goes_before (st !!! x)).

Lemma graph_ok_keys ts st x y : graph_ok ts st -> x ∈ ts -> y ∈ ts ->
  edge st x y <-> x ∈ od_keys (goes_after (st !!! y)).
Proof. intros H Hx Hy. unfold edge. by rewrite <- !od_get_is_Some, (go_sym ts st H). Qed.

Lemma graph_ok_same ts st st' : same_on fixed st st' -> graph_ok ts st -> graph_ok ts st'.
Proof.
  intros H [H1 H2 H3 H4 H5]. assert (forall i, goes_before (st' !!! i) = goes_before (st !!! i) /\
    goes_after (st' !!! i) = goes_after (st !!! i)) as Hi.
  { intros i. by destruct (same_fixed st st' i H) as (_ & ? & ? & _). }
  split; intros x; try intros y; rewrite ?(proj1 (Hi x)), ?(proj2 (Hi x)), ?(proj2 (Hi y)); eauto.
Qed.

Lemma graph_ok_perm ts ts' st : ts ≡ₚ ts' -> graph_ok ts st -> graph_ok ts' st.
Proof. intros Hp [H1 H2 H3 H4 H5]. split; setoid_rewrite <- Hp; done. Qed.

(** No edge has been reversed yet: every weight is a number. *)
Definition weights_ok (ts : list tid) (st : store) : Prop :=
  forall x y, x ∈ ts -> od_get y (goes_before (st !!! x)) <> Some None.

(** * The table of readers *)

Definition reads (src : readers) (i : Z) (b : tid) : Prop :=
  exists l, src !! Z.to_nat i = Some (Some l) /\ b ∈ l.

Lemma reads_out src i b : Z.of_nat (length src) <= i -> ~ reads src i b.
Proof. intros Hi (l & Hl & _). apply lookup_lt_Some in Hl. lia. Qed.

Lemma py_get_Z {A} (l : list A) i : 0 <= i < Z.of_nat (length l) ->
  exists x, l !! Z.to_nat i = Some x /\ py_get l i = Ok x.
Proof.
  intros Hi. destruct (lookup_lt_is_Some_2 l (Z.to_nat i)) as [x Hx]; [lia|].
  exists x. split; [done|]. by apply py_get_nonneg; [lia|].
Qed.

Lemma add_reader_ok b src i : 0 <= i < Z.of_nat (length src) ->
  exists src', add_reader b src i = Ok src' /\ length src' = length src /\
    forall j c, 0 <= j -> reads src' j c <-> reads src j c \/ (j = i /\ c = b).
Proof.
  intros Hi. destruct (py_get_Z src i Hi) as (cur & Hcur & Hget). unfold add_reader. rewrite Hget.
  assert (forall l, (forall c, c ∈ l <-> (exists l0, cur = Some l0 /\ c ∈ l0) \/ c = b) ->
    length (<[Z.to_nat i := Some l]> src) = length src /\
    forall j c, 0 <= j -> reads (<[Z.to_nat i := Some l]> src) j c <-> reads src j c \/ (j = i /\ c = b)) as Hset.
  { intros l Hl. split; [apply length_insert|]. intros j c Hj. unfold reads.
    destruct (decide (j = i)) as [->|Hne].
    - rewrite list_lookup_insert_eq by lia. rewrite Hcur. naive_solver.
    - rewrite list_lookup_insert_ne by lia. naive_solver. }
  destruct cur as [l|]; rewrite py_set_nonneg by done; eexists; (split; [done|]); apply Hset.
  - intros c. rewrite elem_of_os_add. naive_solver.
  - intros c. rewrite list_elem_of_singleton. naive_solver.
Qed.

Lemma extend_readers_ok e src :
  Z.of_nat (length (extend_readers e src)) = Z.max (Z.of_nat (length src)) e /\
  forall i c, reads (extend_readers e src) i c <-> reads src i c.
Proof.
  unfold extend_readers. destruct (Z.ltb_spec (Z.of_nat (length src)) e); [|split; [lia|done]].
  split; [rewrite length_app, length_replicate; lia|]. intros i c. unfold reads.
  split; intros (l & Hl & Hc); exists l; split; try done.
  - apply lookup_app_Some in Hl as [?|[_ Hl]]; [done|]. by apply lookup_replicate in Hl as [??].
  - by apply lookup_app_l_Some.
Qed.

Lemma add_range_ok b src s e : 0 <= s -> exists src', add_range b src (s, e) = Ok src' /\
  forall j c, 0 <= j -> reads src' j c <-> reads src j c \/ (s <= j < e /\ c = b).
Proof.
  intros Hs. destruct (extend_readers_ok e src) as [Hlen Hext]. unfold add_range.
  destruct (foldM_ok (fun pre src' => length src' = length (extend_readers e src) /\
      forall j c, 0 <= j -> reads src' j c <-> reads src j c \/ (j ∈ pre /\ c = b))
    (add_reader b) (extend_readers e src) (zrange s e)) as (src' & Hf & _ & Hr).
  - split; [done|]. intros j c _. rewrite Hext, elem_of_nil. naive_solver.
  - intros pre i post t Hz [Hl Ht].
    assert (i ∈ zrange s e) as Hi%elem_of_zrange by (rewrite Hz, elem_of_app; right; by left).
    destruct (add_reader_ok b t i) as (t' & Ht' & Hl' & Hr'); [lia|].
    exists t'. split; [done|]. split; [congruence|]. intros j c Hj.
    rewrite Hr', Ht, elem_of_app, list_elem_of_singleton by done. naive_solver.
  - exists src'. split; [done|]. intros j c Hj. by rewrite Hr, elem_of_zrange.
Qed.

Lemma wf_pairs_nonneg r : wf r -> nonneg r -> forall s e, (s, e) ∈ rs_iter r -> 0 <= s < e.
Proof.
  intros Hw Hn s e Hse. pose proof (pairs_nonempty (rs_data r) Hw (nonneg_data r Hw Hn)) as H.
  rewrite list.Forall_forall in H. apply (H (s, e) Hse).
Qed.

Lemma add_transfer_ranges_ok b src r : wf r -> nonneg r -> exists src',
  foldM (add_range b) src (rs_iter r) = Ok src' /\
  forall j c, 0 <= j -> reads src' j c <-> reads src j c \/ (j ∈ r /\ c = b).
Proof.
  intros Hw Hn. destruct (foldM_ok (fun pre src' => forall j c, 0 <= j ->
      reads src' j c <-> reads src j c \/ ((exists s e, (s, e) ∈ pre /\ s <= j < e) /\ c = b))
    (add_range b) src (rs_iter r)) as (src' & Hf & Hr).
  - intros j c _. setoid_rewrite elem_of_nil. naive_solver.
  - intros pre [s e] post t Hz Ht.
    assert (0 <= s < e).
    { apply (wf_pairs_nonneg r Hw Hn). rewrite Hz, elem_of_app. right; by left. }
    destruct (add_range_ok b t s e) as (t' & Ht' & Hr'); [lia|]. exists t'. split; [done|].
    intros j c Hj. rewrite Hr', Ht by done. setoid_rewrite elem_of_app.
    setoid_rewrite list_elem_of_singleton. naive_solver.
  - exists src'. split; [done|]. intros j c Hj. rewrite Hr by done.
    by rewrite <- (elem_of_pairs j _ Hw).
Qed.

Lemma source_readers_ok st ts : ranges_ok st ts -> exists src, source_readers st ts = Ok src /\
  forall i b, 0 <= i -> reads src i b <-> b ∈ ts /\ i ∈ src_ranges (st !!! b).
Proof.
  intros Hok. destruct (foldM_ok (fun pre src => forall i b, 0 <= i ->
      reads src i b <-> b ∈ pre /\ i ∈ src_ranges (st !!! b))
    (fun src b => foldM (add_range b) src (rs_iter (src_ranges (st !!! b)))) [] ts) as (src & Hf & Hr).
  - intros i b _. rewrite elem_of_nil. split; [|naive_solver]. intros (l & Hl & _). done.
  - intros pre b post t Hz Ht.
    destruct (Hok b) as (_ & _ & Hw & Hn); [rewrite Hz, elem_of_app; right; by left|].
    destruct (add_transfer_ranges_ok b t _ Hw Hn) as (t' & Ht' & Hr'). exists t'. split; [done|].
    intros i c Hi. rewrite Hr', Ht, elem_of_app, list_elem_of_singleton by done. naive_solver.
  - by exists src.
Qed.

Lemma fold_os_add_elem (js acc : list tid) b :
  b ∈ fold_left (fun acc j => os_add j acc) js acc <-> b ∈ acc \/ b ∈ js.
Proof.
  revert acc. induction js as [|j js IH]; intros acc; simpl; [rewrite elem_of_nil; naive_solver|].
  rewrite IH, elem_of_os_add, elem_of_cons. naive_solver.
Qed.

Lemma collect_range_ok src acc s e : 0 <= s -> exists acc',
  collect_range src acc (zrange s e) = Ok acc' /\
  forall b, b ∈ acc' <-> b ∈ acc \/ exists i, s <= i < e /\ reads src i b.
Proof.
  remember (Z.to_nat (e - s)) as n eqn:Hn. revert s acc Hn. induction n as [|n IH]; intros s acc Hn Hs.
  - rewrite zrange_nil by lia. exists acc. split; [done|]. intros b. split; [by left|].
    intros [?|(i & ? & _)]; [done|lia].
  - rewrite zrange_cons by lia. simpl. destruct (Z.leb_spec (Z.of_nat (length src)) s).
    + exists acc. split; [done|]. intros b. split; [by left|].
      intros [?|(i & ? & Hr)]; [done|]. exfalso. eapply reads_out; [|exact Hr]. lia.
    + destruct (py_get_Z src s) as (cur & Hcur & ->); [lia|].
      edestruct (IH (s + 1)) as (acc' & -> & Hacc); [lia|lia|].
      exists acc'. split; [done|]. intros b. rewrite Hacc.
      assert ((b ∈ match cur with None => acc
               | Some js => fold_left (fun acc j => os_add j acc) js acc end)
              <-> b ∈ acc \/ reads src s b) as ->.
      { unfold reads. rewrite Hcur. destruct cur as [js|]; [rewrite fold_os_add_elem|]; naive_solver. }
      split.
      * intros [[?|?]|(i & ? & ?)]; [by left|right; exists s; split; [lia|done]|].
        right; exists i; split; [lia|done].
      * intros [?|(i & ? & ?)]; [by do 2 left|]. destruct (decide (i = s)) as [->|]; [by left; right|].
        right; exists i; split; [lia|done].
Qed.

Lemma intersections_ok src r : wf r -> nonneg r -> exists inter, intersections src r = Ok inter /\
  forall b, b ∈ inter <-> exists i, i ∈ r /\ reads src i b.
Proof.
  intros Hw Hn. destruct (foldM_ok (fun pre acc => forall b, b ∈ acc <->
      exists s e i, (s, e) ∈ pre /\ s <= i < e /\ reads src i b)
    (fun acc '(s, e) => collect_range src acc (zrange s e)) [] (rs_iter r)) as (acc & Hf & Hr).
  - intros b. setoid_rewrite elem_of_nil. naive_solver.
  - intros pre [s e] post t Hz Ht.
    assert (0 <= s < e).
    { apply (wf_pairs_nonneg r Hw Hn). rewrite Hz, elem_of_app. right; by left. }
    destruct (collect_range_ok src t s e) as (t' & Ht' & Hr'); [lia|]. exists t'. split; [done|].
    intros b. rewrite Hr', Ht. setoid_rewrite elem_of_app. setoid_rewrite list_elem_of_singleton. split.
    + intros [(s' & e' & i & Hse & Hi)|(i & Hi)]; [exists s', e', i|exists s, e, i]; tauto.
    + intros (s' & e' & i & [Hse|[= -> ->]] & Hi); [left; by exists s', e', i|right; by exists i].
  - exists acc. split; [done|]. intros b. rewrite Hr. split.
    + intros (s & e & i & Hse & Hi & Hb). exists i. split; [|done].
      apply elem_of_pairs; [done|]. eauto.
    + intros (i & Hi & Hb). apply elem_of_pairs in Hi as (s & e & ? & ?); [|done]. by exists s, e, i.
Qed.

(** * Edges *)

(** What [GenerateDigraph] leaves alone. *)
Definition seqfields (x : Transfer) := (statics x, stash_before x, use_stash x).

Lemma same_seqfields_statics st st' : same_on seqfields st st' -> same_on statics st st'.
Proof. intros H i. exact (f_equal (fun p => p.1.1) (H i)). Qed.

Lemma add_edge_ok ts st a b :
  ranges_ok st ts -> graph_ok ts st -> weights_ok ts st -> a ∈ ts -> b ∈ ts ->
  exists st', add_edge a st b = Ok st' /\ same_on seqfields st st' /\
    graph_ok ts st' /\ weights_ok ts st' /\
    forall x y, x ∈ ts -> edge st' x y <-> edge st x y \/ (x = b /\ y = a /\ a <> b /\ conflict st a b).
Proof.
  intros Hr Hg Hw Ha Hb. unfold add_edge. case_decide as Hab.
  { exists st. split_and!; try done. intros x y _. naive_solver. }
  destruct (Hr a Ha) as (Hta & _ & _ & _). destruct (Hr b Hb) as (_ & _ & Hsb & _).
  destruct (intersect_ok _ _ Hta Hsb) as (i & -> & Hwi & Hi).
  assert (rs_bool i = true <-> conflict st a b) as Hc.
  { rewrite rs_bool_spec by done. unfold conflict. by setoid_rewrite Hi. }
  destruct (rs_bool i).
  2: { exists st. split_and!; try done. intros x y _. split; [by left|]. intros [?|(_ & _ & _ & H)]; [done|].
       by apply Hc in H. }
  set (w := Some (if decide _ then 0 else size i)).
  set (st1 := upd b (fun x => set_goes_before (od_set a w (goes_before x)) x) st).
  exists (upd a (fun x => set_goes_after (od_set b w (goes_after x)) x) st1). split; [done|].
  assert (forall x, goes_before (upd a (fun x => set_goes_after (od_set b w (goes_after x)) x) st1 !!! x)
    = if decide (b = x) then od_set a w (goes_before (st !!! x)) else goes_before (st !!! x)) as Hgb.
  { intros x. rewrite (upd_field goes_before) by setter. unfold st1.
    rewrite lookup_total_upd. case_decide; [subst|done]. by destruct (st !!! x). }
  assert (forall x, goes_after (upd a (fun x => set_goes_after (od_set b w (goes_after x)) x) st1 !!! x)
    = if decide (a = x) then od_set b w (goes_after (st !!! x)) else goes_after (st !!! x)) as Hga.
  { intros x. rewrite lookup_total_upd. unfold st1.
    assert (forall z, goes_after (upd b (fun x => set_goes_before (od_set a w (goes_before x)) x) st !!! z)
      = goes_after (st !!! z)) as Hz by (intros z; by rewrite (upd_field goes_after) by setter).
    case_decide; [subst|by rewrite Hz]. rewrite <- Hz.
    by destruct (upd b _ st !!! x). }
  split_and!.
  - apply same_on_trans_upd; [setter|]. by apply same_on_upd; setter.
  - destruct Hg as [G1 G2 G3 G4 G5]. split; intros x.
    + rewrite Hgb. intros Hx. case_decide; [apply od_keys_set_NoDup|]; auto.
    + rewrite Hga. intros Hx. case_decide; [apply od_keys_set_NoDup|]; auto.
    + intros y Hx. rewrite Hgb. case_decide; [rewrite od_keys_set; intros [->|?]|intros ?]; eauto.
    + intros y Hx. rewrite Hga. case_decide; [rewrite od_keys_set; intros [->|?]|intros ?]; eauto.
    + intros y Hx Hy. rewrite Hgb, Hga. specialize (G5 x y Hx Hy).
      repeat case_decide; subst; rewrite ?od_get_set; repeat case_decide; subst; done.
  - intros x y Hx. rewrite Hgb. case_decide; [|by apply Hw]. rewrite od_get_set.
    case_decide; [by unfold w|by apply Hw].
  - intros x y Hx. unfold edge. rewrite Hgb. case_decide as Hbx.
    + rewrite od_keys_set. subst. naive_solver.
    + naive_solver.
Qed.

(** The edges put so far while the targets in [done] are processed. *)
Definition edges_from (ts : list tid) (st : store) (done : tid -> tid -> Prop) : Prop :=
  forall x y, x ∈ ts -> edge st x y <-> y ∈ ts /\ done x y /\ x <> y /\ conflict st y x.

Lemma add_edges_ok ts st a inter P :
  ranges_ok st ts -> graph_ok ts st -> weights_ok ts st -> a ∈ ts ->
  (forall b, b ∈ inter <-> b ∈ ts /\ conflict st a b) ->
  edges_from ts st P ->
  exists st', foldM (add_edge a) st inter = Ok st' /\ same_on seqfields st st' /\
    graph_ok ts st' /\ weights_ok ts st' /\ edges_from ts st' (fun x y => P x y \/ y = a).
Proof.
  intros Hr Hg Hw Ha Hinter HP.
  destruct (foldM_ok (fun pre t => same_on seqfields st t /\ graph_ok ts t /\ weights_ok ts t /\
      edges_from ts t (fun x y => P x y \/ (y = a /\ x ∈ pre)))
    (add_edge a) st inter) as (st' & Hf & Hs & Hg' & Hw' & He).
  - split_and!; try done. intros x y Hx. rewrite (HP x y Hx). setoid_rewrite elem_of_nil. naive_solver.
  - intros pre b post t Hl (Hs & Hg' & Hw' & He).
    assert (b ∈ inter) as Hb by (rewrite Hl, elem_of_app; right; by left).
    apply Hinter in Hb as [Hb Hc].
    pose proof (same_seqfields_statics _ _ Hs) as Hst.
    destruct (add_edge_ok ts t a b) as (t' & Ht' & Hs' & Hg'' & Hw'' & He'); try done.
    { by eapply ranges_ok_same. }
    pose proof (same_seqfields_statics _ _ Hs') as Hst'.
    exists t'. split_and!; [done|by etrans|done|done|]. intros x y Hx.
    rewrite He', (He x y Hx) by done. rewrite (conflict_same t t') by done.
    setoid_rewrite elem_of_app. setoid_rewrite list_elem_of_singleton. naive_solver.
  - exists st'. split_and!; try done. intros x y Hx. rewrite (He x y Hx).
    rewrite (conflict_same st st') by by apply same_seqfields_statics.
    specialize (Hinter x). naive_solver.
Qed.

(** After [GenerateDigraph] there is an edge from [x] to [y] exactly when [y]
    writes a block that [x] reads. *)
Lemma GenerateDigraph_ok s :
  let st := sq_store s in let ts := sq_transfers s in
  ranges_ok st ts ->
  (forall i, i ∈ ts -> goes_before (st !!! i) = [] /\ goes_after (st !!! i) = []) ->
  exists s', GenerateDigraph s = Ok s' /\ sq_transfers s' = ts /\
    same_on seqfields st (sq_store s') /\ graph_ok ts (sq_store s') /\ weights_ok ts (sq_store s') /\
    forall x y, x ∈ ts -> edge (sq_store s') x y <-> y ∈ ts /\ x <> y /\ conflict (sq_store s') y x.
Proof.
  intros st ts Hr Hempty. unfold GenerateDigraph. fold st ts.
  destruct (source_readers_ok st ts Hr) as (src & -> & Hsrc).
  destruct (foldM_ok (fun pre t => same_on seqfields st t /\ graph_ok ts t /\ weights_ok ts t /\
      edges_from ts t (fun x y => y ∈ pre))
    (fun st a => let! inter := intersections src (tgt_ranges (st !!! a)) in foldM (add_edge a) st inter)
    st ts) as (st' & Hf & Hs & Hg & Hw & He).
  - split_and!; try done.
    + split.
      * intros x Hx. rewrite (proj1 (Hempty x Hx)). constructor.
      * intros x Hx. rewrite (proj2 (Hempty x Hx)). constructor.
      * intros x y Hx. rewrite (proj1 (Hempty x Hx)). by intros ?%elem_of_nil.
      * intros x y Hx. rewrite (proj2 (Hempty x Hx)). by intros ?%elem_of_nil.
      * intros x y Hx Hy. by rewrite (proj1 (Hempty x Hx)), (proj2 (Hempty y Hy)).
    + intros x y Hx. by rewrite (proj1 (Hempty x Hx)).
    + intros x y Hx. unfold edge. rewrite (proj1 (Hempty x Hx)). setoid_rewrite elem_of_nil. naive_solver.
  - intros pre a post t Hl (Hs & Hg & Hw & He).
    assert (a ∈ ts) as Ha by (rewrite Hl, elem_of_app; right; by left).
    pose proof (same_seqfields_statics _ _ Hs) as Hst.
    assert (ranges_ok t ts) as Hrt by by eapply ranges_ok_same.
    destruct (Hrt a Ha) as (Hta & Hna & _ & _).
    destruct (intersections_ok src _ Hta Hna) as (inter & -> & Hinter).
    destruct (add_edges_ok ts t a inter (fun x y => y ∈ pre)) as (t' & Ht' & Hs' & Hg' & Hw' & He'); try done.
    { intros b. rewrite Hinter. unfold conflict.
      assert (src_ranges (t !!! b) = src_ranges (st !!! b)) as -> by by apply same_statics_ranges. split.
      - intros (i & Hi & Hib). rewrite Hsrc in Hib by by apply Hna. naive_solver.
      - intros (Hb & i & Hi & Hib). exists i. split; [done|]. rewrite Hsrc by by apply Hna. done. }
    exists t'. split_and!; [done|by etrans|done|done|]. intros x y Hx. rewrite (He' x y Hx).
    rewrite elem_of_app, list_elem_of_singleton. naive_solver.
  - rewrite Hf. eexists. split; [done|]. split_and!; try done. intros x y Hx. simpl. rewrite (He x y Hx). naive_solver.
Qed.
