(* ===== verification/VertexSeq.v ===== *)
(** [FindVertexSequence] orders all the transfers: whatever the scores, every
    vertex leaves the graph exactly once, and the loops end. *)

From S2P Require Export BlockGraph.

#[local] Open Scope Z_scope.

(** * Orders *)

(** [order] is the position in the list. *)
Definition ordered (s : SeqState) : Prop :=
  forall k i, sq_transfers s !! k = Some i -> order (sq_store s !!! i) = Z.of_nat k.

Lemma set_orders_go l : forall n st, NoDup l ->
  let st' := fold_left (fun st '(k, i) => upd i (set_order (Z.of_nat k)) st) (zip (seq n (length l)) l) st in
  (forall k i, l !! k = Some i -> order (st' !!! i) = Z.of_nat (n + k)) /\
  (forall i, i ∉ l -> st' !!! i = st !!! i).
Proof.
  induction l as [|j l IH]; intros n st; simpl; [by split|]. intros [Hj Hl]%NoDup_cons.
  destruct (IH (S n) (upd j (set_order (Z.of_nat n)) st) Hl) as [IH1 IH2]. split.
  - intros [|k] i Hi; simpl in Hi.
    + injection Hi as <-. rewrite IH2 by done. rewrite lookup_total_upd_eq, Nat.add_0_r. by destruct (st !!! j).
    + rewrite (IH1 k i Hi). f_equal. lia.
  - intros i [Hij Hil]%not_elem_of_cons. rewrite IH2 by done. by apply lookup_total_upd_ne.
Qed.

Lemma set_orders_ok st l : NoDup l -> ordered (mkSeq (set_orders st l) l).
Proof. intros Hl k i Hi. by apply (set_orders_go l 0%nat st Hl). Qed.

Lemma set_orders_same {A} (g : Transfer -> A) st l :
  (forall o x, g (set_order o x) = g x) -> same_on g st (set_orders st l).
Proof. intros Hg. apply foldl_same_on. intros ? [k i]. apply same_on_upd. intros x. apply Hg. Qed.

(** * Scores and the heap *)

(** Every vertex of [G] has a live item in the heap. *)
Definition heap_ok (G : list tid) (v : VState) : Prop :=
  forall u, u ∈ G -> let r := heap_item (v_store v !!! u) in
    v_items v !! r = Some (Some u) /\ exists h, h ∈ v_heap v /\ hi_ref h = r.

Lemma heap_ok_subset G G' v : (forall u, u ∈ G' -> u ∈ G) -> heap_ok G v -> heap_ok G' v.
Proof. intros Hs H u Hu. by apply H, Hs. Qed.

(** The dictionary attributes the sequence works on. *)
Record vlens (get : Transfer -> edges) (put : edges -> Transfer -> Transfer) : Prop := {
  vl_get : forall e x, get (put e x) = e;
  vl_fixed : forall e x, fixed (put e x) = fixed x;
  vl_item : forall e x, heap_item (put e x) = heap_item x;
  vl_score : forall z x, get (set_score z x) = get x;
  vl_heap_item : forall r x, get (set_heap_item r x) = get x
}.

Lemma outgoing_lens : vlens outgoing set_outgoing.
Proof. by split; intros ? []. Qed.
Lemma incoming_lens : vlens incoming set_incoming.
Proof. by split; intros ? []. Qed.

Lemma adjust_score_same {A} (g : Transfer -> A) iu d v :
  (forall z x, g (set_score z x) = g x) -> (forall r x, g (set_heap_item r x) = g x) ->
  same_on g (v_store v) (v_store (adjust_score iu d v)).
Proof. intros H1 H2. apply same_on_trans_upd; [apply H2|]. apply same_on_upd. intros x. apply H1. Qed.

Lemma adjust_score_heap G iu d v : iu ∈ G -> heap_ok G v -> heap_ok G (adjust_score iu d v).
Proof.
  intros Hiu H u Hu. destruct (H iu Hiu) as [Hi _]. destruct (H u Hu) as [Hui (h & Hh & Hr)].
  unfold adjust_score. simpl. set (st1 := upd iu (fun x => set_score (score x + d) x) (v_store v)).
  assert (forall j, heap_item (st1 !!! j) = heap_item (v_store v !!! j)) as Hst1.
  { intros j. apply upd_field. setter. }
  rewrite !Hst1, length_insert. rewrite lookup_total_upd. case_decide as Hd.
  - subst. assert (forall r x, heap_item (set_heap_item r x) = r) as -> by (by intros r []).
    split; [rewrite lookup_app_r; rewrite length_insert; [by rewrite Nat.sub_diag|done]|].
    eexists. split; [rewrite heappush_perm; by left|done].
  - rewrite Hst1. split.
    + rewrite lookup_app_l by (rewrite length_insert; by eapply lookup_lt_Some).
      rewrite list_lookup_insert_ne; [done|]. intros E. rewrite E in Hi. congruence.
    + exists h. split; [rewrite heappush_perm; by right|done].
Qed.

(** * Popping the edges of one vertex *)

Section pops.
Context (get : Transfer -> edges) (put : edges -> Transfer -> Transfer) (Hl : vlens get put).
Context (sign : Z) (u : tid).

(** What one pop, or a loop of pops over [l], does to the working state. *)
Record popped (l : list tid) (v v' : VState) : Prop := {
  po_G : v_G v' = v_G v;
  po_s1 : v_s1 v' = v_s1 v;
  po_s2 : v_s2 v' = v_s2 v;
  po_fixed : same_on fixed (v_store v) (v_store v');
  po_get : forall j, get (v_store v' !!! j) =
             if decide (j ∈ l) then od_remove u (get (v_store v !!! j)) else get (v_store v !!! j);
  po_other : forall get', (forall e x, get' (put e x) = get' x) ->
    (forall z x, get' (set_score z x) = get' x) -> (forall r x, get' (set_heap_item r x) = get' x) ->
    same_on (A := edges) get' (v_store v) (v_store v');
  po_heap : heap_ok (v_G v) v'
}.

Lemma pop_edge_ok v acc iu z :
  iu ∈ v_G v -> od_get u (get (v_store v !!! iu)) = Some (Some z) -> heap_ok (v_G v) v ->
  exists v' acc', pop_edge get put sign u (v, acc) iu = Ok (v', acc') /\ popped [iu] v v' /\
    forall j, j ∈ acc' -> j ∈ acc \/ get (v_store v' !!! j) = [].
Proof.
  intros HG Hz Hh. unfold pop_edge, od_pop. rewrite Hz.
  set (st1 := upd iu (put (od_remove u (get (v_store v !!! iu)))) (v_store v)).
  set (v1 := mkV st1 (v_G v) (v_s1 v) (v_s2 v) (v_heap v) (v_items v)).
  assert (heap_ok (v_G v) v1) as Hh1.
  { intros w Hw. simpl. unfold st1. rewrite (upd_field heap_item) by (intros; apply Hl). by apply Hh. }
  set (v2 := adjust_score iu (sign * z) v1). eexists v2, _. split; [done|]. split.
  - split; try done.
    + transitivity st1; [apply same_on_upd; intros; apply Hl|]. by apply adjust_score_same; intros ? [].
    + intros j. unfold v2. rewrite (adjust_score_same get) by apply Hl. simpl. unfold st1.
      rewrite lookup_total_upd. destruct (decide (j ∈ [iu])), (decide (iu = j)) as [->|]; try set_solver.
      by rewrite (vl_get _ _ Hl).
    + intros get' H1 H2 H3. transitivity st1; [apply same_on_upd; intros; apply H1|].
      by apply adjust_score_same.
    + by apply adjust_score_heap.
  - intros j. destruct (get (v_store v2 !!! iu)) eqn:E; [|by left].
    intros [->|?]%elem_of_os_add; [by right|by left].
Qed.

Lemma popped_nil v : heap_ok (v_G v) v -> popped [] v v.
Proof. intros H. split; try done. Qed.

Lemma popped_snoc pre iu v v' v'' : iu ∉ pre -> popped pre v v' -> popped [iu] v' v'' -> popped (pre ++ [iu]) v v''.
Proof.
  intros Hn [A1 A2 A3 A4 A5 A6 A7] [B1 B2 B3 B4 B5 B6 B7]. split; try congruence.
  - intros j. rewrite B5, A5. repeat case_decide; set_solver.
  - intros get' H1 H2 H3. transitivity (v_store v'); [by apply A6|by apply B6].
  - by rewrite <- A1.
Qed.

Lemma pops_ok v acc l :
  NoDup l -> (forall i, i ∈ l -> i ∈ v_G v /\ exists z, od_get u (get (v_store v !!! i)) = Some (Some z)) ->
  heap_ok (v_G v) v ->
  exists v' acc', foldM (pop_edge get put sign u) (v, acc) l = Ok (v', acc') /\ popped l v v' /\
    forall j, j ∈ acc' -> j ∈ acc \/ get (v_store v' !!! j) = [].
Proof.
  intros Hnd Hin Hh.
  destruct (foldM_ok (fun pre '(v', acc') => popped pre v v' /\
      forall j, j ∈ acc' -> j ∈ acc \/ get (v_store v' !!! j) = [])
    (pop_edge get put sign u) (v, acc) l) as ([v' acc'] & Hf & Hp & Ha).
  - split; [by apply popped_nil|]. auto.
  - intros pre i post [t acc'] Hlst [Hp Ha].
    assert (i ∈ l) as Hi by set_solver.
    assert (i ∉ pre) as Hpre.
    { rewrite Hlst in Hnd. apply NoDup_app in Hnd as (_ & Hd & _). intros Hi'. apply (Hd i Hi'). by left. }
    destruct (Hin i Hi) as [HG [z Hz]].
    destruct (pop_edge_ok t acc' i z) as (t' & acc'' & Hpop & Hp' & Ha').
    + by rewrite (po_G _ _ _ Hp).
    + rewrite (po_get _ _ _ Hp). by case_decide.
    + rewrite (po_G _ _ _ Hp). apply Hp.
    + exists (t', acc''). split; [done|]. split; [by apply (popped_snoc pre i v t)|].
      intros j [Hj|?]%Ha'; [|by right]. apply Ha in Hj as [?|Hj]; [by left|]. right.
      rewrite (po_get _ _ _ Hp'), Hj. by case_decide.
  - by exists v', acc'.
Qed.
End pops.

(** * The live part of the graph *)

(** Within [G] the dictionary [get] holds exactly the edges [E] to vertices
    still in [G]. *)
Definition live (get : Transfer -> edges) (E : tid -> tid -> Prop) (G : list tid) (st : store) : Prop :=
  forall x, x ∈ G -> NoDup (od_keys (get (st !!! x))) /\
    (forall y, y ∈ od_keys (get (st !!! x)) <-> E x y /\ y ∈ G) /\
    (forall y, od_get y (get (st !!! x)) <> Some None).

Lemma live_same get E G st st' : same_on get st st' -> live get E G st -> live get E G st'.
Proof. intros H Hl x Hx. rewrite (H x). by apply Hl. Qed.

Lemma live_weight get E G st x y : live get E G st -> x ∈ G -> E x y -> y ∈ G ->
  exists z, od_get y (get (st !!! x)) = Some (Some z).
Proof.
  intros Hl Hx HE Hy. destruct (Hl x Hx) as (_ & Hk & Hw). specialize (Hw y).
  destruct (proj2 (od_get_is_Some y (get (st !!! x)))) as [[z|] Hz]; [apply Hk; done|by exists z|done].
Qed.

(** Members of the front that are still in the graph have an empty dictionary. *)
Definition front_ok (get : Transfer -> edges) (v : VState) (l : list tid) : Prop :=
  forall x, x ∈ l -> x ∈ v_G v -> get (v_store v !!! x) = [].

Section sequence.
Context (st0 : store) (ts : list tid) (Hts : NoDup ts).
Context (irrefl : forall x, x ∈ ts -> ~ edge st0 x x).

Definition before (x y : tid) : Prop := edge st0 x y.
Definition after (x y : tid) : Prop := edge st0 y x.

Record vinv (v : VState) : Prop := {
  vi_perm : v_s1 v ++ v_s2 v ++ v_G v ≡ₚ ts;
  vi_fixed : same_on fixed st0 (v_store v);
  vi_out : live outgoing before (v_G v) (v_store v);
  vi_in : live incoming after (v_G v) (v_store v);
  vi_heap : heap_ok (v_G v) v
}.

Lemma vinv_NoDup v : vinv v -> NoDup (v_G v).
Proof.
  intros Hv. assert (NoDup (v_s1 v ++ v_s2 v ++ v_G v)) as H by (by rewrite (vi_perm v Hv)).
  by apply NoDup_app in H as (_ & _ & (_ & _ & H)%NoDup_app).
Qed.

Lemma vinv_G v x : vinv v -> x ∈ v_G v -> x ∈ ts.
Proof. intros Hv Hx. rewrite <- (vi_perm v Hv), !elem_of_app. auto. Qed.

(** [G] without [u]. *)
Definition less (u : tid) (G : list tid) : list tid := filter (fun x => x <> u) G.

Lemma elem_of_less u G x : x ∈ less u G <-> x ∈ G /\ x <> u.
Proof. unfold less. rewrite list_elem_of_filter. tauto. Qed.

Lemma less_length u G : u ∈ G -> (length (less u G) < length G)%nat.
Proof.
  intros Hu. apply list_elem_of_split in Hu as (l1 & l2 & ->). unfold less.
  rewrite filter_app, filter_cons, !length_app. destruct (decide (u <> u)); [done|].
  pose proof (length_filter (fun x => x <> u) l1). pose proof (length_filter (fun x => x <> u) l2).
  simpl. lia.
Qed.

Lemma less_perm u G : NoDup G -> u ∈ G -> G ≡ₚ u :: less u G.
Proof.
  intros Hn Hu. apply NoDup_Permutation; [done| |].
  - constructor; [rewrite elem_of_less; naive_solver|by apply NoDup_filter].
  - intros x. rewrite elem_of_cons, elem_of_less. destruct (decide (x = u)) as [->|]; naive_solver.
Qed.

(** Popping [u] from the dictionaries of its neighbours takes it out of the
    live edges. *)
Lemma live_popped get put u l G w v' E :
  (forall x, x ∈ G -> ~ E x x) ->
  live get E G (v_store w) -> (forall x, x ∈ l <-> E x u /\ x ∈ G) -> popped get put u l w v' ->
  live get E (less u G) (v_store v').
Proof.
  intros Hirr Hlive Hl Hp x Hx. apply elem_of_less in Hx as [Hx Hxu].
  destruct (Hlive x Hx) as (Hn & Hk & Hw). rewrite (po_get _ _ _ _ _ _ Hp).
  case_decide as Hxl.
  - destruct (od_keys_remove u _ Hn) as [Hn' Hk']. split_and!; [done| |].
    + intros y. rewrite Hk', Hk, elem_of_less. naive_solver.
    + intros y. rewrite od_get_remove by done. case_decide; [done|apply Hw].
  - split_and!; [done| |done]. intros y. rewrite Hk, elem_of_less. split; [|naive_solver].
    intros [HE Hy]. split; [done|]. split; [done|]. intros ->. apply Hxl, Hl. done.
Qed.

(** The other dictionaries lose nothing when [u] had no edge towards them. *)
Lemma live_less get get' E u G st : u ∈ G ->
  live get E G st -> get (st !!! u) = [] ->
  live get' (fun x y => E y x) G st -> live get' (fun x y => E y x) (less u G) st.
Proof.
  intros Hu Hlive Hnil Hlive' x Hx. apply elem_of_less in Hx as [Hx Hxu].
  destruct (Hlive' x Hx) as (Hn & Hk & Hw). split_and!; [done| |done]. intros y.
  rewrite Hk, elem_of_less. split; [|naive_solver]. intros [HE Hy]. split; [done|]. split; [done|].
  intros ->. destruct (Hlive u Hu) as (_ & Hku & _).
  assert (x ∈ od_keys (get (st !!! u))) as Hc by (by apply Hku).
  rewrite Hnil in Hc. by apply elem_of_nil in Hc.
Qed.

(** Popping the vertex [u], already out of [v_G w], from one side. *)
Lemma pop_side get put (get' : Transfer -> edges) sign u G w acc E :
  vlens get put -> (forall x, x ∈ G -> ~ E x x) -> u ∈ G -> v_G w = less u G ->
  live get E G (v_store w) -> heap_ok (v_G w) w ->
  NoDup (od_keys (get' (v_store w !!! u))) ->
  (forall x, x ∈ od_keys (get' (v_store w !!! u)) <-> E x u /\ x ∈ G) ->
  exists v' acc', foldM (pop_edge get put sign u) (w, acc) (od_keys (get' (v_store w !!! u))) = Ok (v', acc') /\
    popped get put u (od_keys (get' (v_store w !!! u))) w v' /\
    live get E (less u G) (v_store v') /\
    (forall j, j ∈ acc' -> j ∈ acc \/ get (v_store v' !!! j) = []).
Proof.
  intros Hlens Hirr Hu HG Hlive Hh Hn Hl.
  destruct (pops_ok get put Hlens sign u w acc (od_keys (get' (v_store w !!! u))) Hn) as (v' & acc' & Hf & Hp & Ha).
  - intros x Hx. apply Hl in Hx as [HE HxG]. rewrite HG, elem_of_less. split.
    + split; [done|]. intros ->. by apply (Hirr u).
    + by eapply live_weight.
  - done.
  - exists v', acc'. split_and!; try done. by eapply live_popped.
Qed.

(** One loop body, or a whole phase, that pops [get] and leaves [get'] alone. *)
Record shrunk (get get' : Transfer -> edges) (v v' : VState) : Prop := {
  sh_G : forall x, x ∈ v_G v' -> x ∈ v_G v;
  sh_length : (length (v_G v') <= length (v_G v))%nat;
  sh_other : same_on get' (v_store v) (v_store v');
  sh_mono : forall x, get (v_store v !!! x) = [] -> get (v_store v' !!! x) = []
}.

Lemma shrunk_refl get get' v : shrunk get get' v v.
Proof. by split. Qed.

Lemma shrunk_trans get get' v1 v2 v3 : shrunk get get' v1 v2 -> shrunk get get' v2 v3 -> shrunk get get' v1 v3.
Proof.
  intros [A1 A2 A3 A4] [B1 B2 B3 B4]. split; [auto|lia| |auto].
  transitivity (v_store v2); done.
Qed.

Lemma popped_mono get put u l v v' x : popped get put u l v v' ->
  get (v_store v !!! x) = [] -> get (v_store v' !!! x) = [].
Proof. intros Hp Hx. rewrite (po_get _ _ _ _ _ _ Hp), Hx. by case_decide. Qed.

(** A front stays a front. *)
Lemma front_other get get' v v' l : shrunk get get' v v' -> front_ok get' v l -> front_ok get' v' l.
Proof. intros Hs Hf x Hx HG. rewrite (sh_other _ _ _ _ Hs). apply Hf; [done|by apply Hs]. Qed.

Lemma front_mono get get' v v' l : shrunk get get' v v' -> front_ok get v l -> front_ok get v' l.
Proof. intros Hs Hf x Hx HG. apply Hs, Hf; [done|by apply Hs]. Qed.

(** The contract of [take_sink] and [take_source]. *)
Definition takes (get get' : Transfer -> edges)
    (take : VState * list tid -> tid -> result (VState * list tid)) : Prop :=
  forall v acc u, vinv v -> (u ∈ v_G v -> get (v_store v !!! u) = []) ->
  exists v' acc', take (v, acc) u = Ok (v', acc') /\ vinv v' /\ shrunk get get' v v' /\
    (forall j, j ∈ acc' -> j ∈ acc \/ get (v_store v' !!! j) = []) /\
    (acc' = acc \/ (length (v_G v') < length (v_G v))%nat).

(** Both are the same code up to the names of the two sides: [get] is popped,
    [get'] names the neighbours, and [push] puts the vertex in its place. *)
Lemma take_ok get put (get' : Transfer -> edges) sign push (E : tid -> tid -> Prop) :
  vlens get put -> (forall e x, get' (put e x) = get' x) ->
  (forall z x, get' (set_score z x) = get' x) -> (forall r x, get' (set_heap_item r x) = get' x) ->
  (forall x, x ∈ ts -> ~ E x x) ->
  (forall u v, v_G (push u v) = v_G v /\ v_store (push u v) = v_store v /\
     v_heap (push u v) = v_heap v /\ v_items (push u v) = v_items v /\
     v_s1 (push u v) ++ v_s2 (push u v) ≡ₚ u :: v_s1 v ++ v_s2 v) ->
  (forall v, vinv v <-> v_s1 v ++ v_s2 v ++ v_G v ≡ₚ ts /\ same_on fixed st0 (v_store v) /\
     live get E (v_G v) (v_store v) /\ live get' (fun x y => E y x) (v_G v) (v_store v) /\
     heap_ok (v_G v) v) ->
  takes get get' (fun '(v, acc) u =>
    if decide (u ∈ v_G v) then
      let v := del_G u (push u v) in
      foldM (pop_edge get put sign u) (v, acc) (od_keys (get' (v_store v !!! u)))
    else Ok (v, acc)).
Proof.
  intros Hlens H1 H2 H3 Hirr Hpush Hvinv v acc u Hv Hu. case_decide as HuG.
  2: { exists v, acc. split_and!; auto using shrunk_refl. }
  specialize (Hu HuG). destruct (Hpush u v) as (P1 & P2 & P3 & P4 & P5).
  destruct (proj1 (Hvinv v) Hv) as (Vp & Vf & Vl & Vl' & Vh).
  pose proof (vinv_NoDup v Hv) as Hnd. simpl.
  assert (v_store (del_G u (push u v)) = v_store v) as Hw by done.
  assert (v_G (del_G u (push u v)) = less u (v_G v)) as HwG by (simpl; by rewrite P1).
  destruct (pop_side get put get' sign u (v_G v) (del_G u (push u v)) acc E Hlens)
    as (v' & acc' & Hf & Hp & Hl & Ha); try done.
  { intros x Hx. apply Hirr. by apply (vinv_G v). }
  { by rewrite Hw. }
  { intros x Hx. rewrite HwG in Hx. apply elem_of_less in Hx as [Hx _]. simpl. rewrite P2, P3, P4. by apply Vh. }
  { rewrite Hw. by apply Vl'. }
  { intros x. rewrite Hw. by apply Vl'. }
  assert (v_G v' = less u (v_G v)) as HG' by (rewrite (po_G _ _ _ _ _ _ Hp); exact HwG).
  assert (same_on get' (v_store v) (v_store v')) as Hsame by (rewrite <- Hw; by apply (po_other _ _ _ _ _ _ Hp)).
  exists v', acc'. split; [exact Hf|]. rewrite HG'. split_and!; [|split| |]; rewrite ?HG'; try done.
  - apply Hvinv. rewrite HG'. split_and!; try done.
    + rewrite (po_s1 _ _ _ _ _ _ Hp), (po_s2 _ _ _ _ _ _ Hp). simpl.
      rewrite app_assoc, P5. rewrite (less_perm u (v_G v) Hnd HuG) in Vp. rewrite <- Vp. solve_Permutation.
    + transitivity (v_store v); [done|]. rewrite <- Hw. apply (po_fixed _ _ _ _ _ _ Hp).
    + eapply live_same; [exact Hsame|]. by eapply (live_less get get' E).
    + rewrite <- HwG. apply (po_heap _ _ _ _ _ _ Hp).
  - intros x Hx. by apply elem_of_less in Hx as [? _].
  - by apply Nat.lt_le_incl, less_length.
  - intros x Hx. apply (popped_mono _ _ _ _ _ _ _ Hp). by rewrite Hw.
  - right. by apply less_length.
Qed.

Lemma vinv_iff v : vinv v <-> v_s1 v ++ v_s2 v ++ v_G v ≡ₚ ts /\ same_on fixed st0 (v_store v) /\
  live outgoing before (v_G v) (v_store v) /\ live incoming after (v_G v) (v_store v) /\ heap_ok (v_G v) v.
Proof. split; [by intros []|by intros (? & ? & ? & ? & ?)]. Qed.

Lemma take_sink_ok : takes outgoing incoming take_sink.
Proof.
  apply (take_ok outgoing set_outgoing incoming (-1) push_s2 before outgoing_lens); try (by intros ? []); try done.
  - intros u v. simpl. split_and!; try done. by rewrite Permutation_middle.
  - apply vinv_iff.
Qed.

Lemma take_source_ok : takes incoming outgoing take_source.
Proof.
  apply (take_ok incoming set_incoming outgoing 1 push_s1 after incoming_lens); try (by intros ? []); try done.
  - intros u v. simpl. split_and!; try done. solve_Permutation.
  - intros v. rewrite vinv_iff. tauto.
Qed.

(** * The phases *)

Lemma takes_ok get get' take v front : takes get get' take -> vinv v -> front_ok get v front ->
  exists v' acc, foldM take (v, []) front = Ok (v', acc) /\ vinv v' /\ shrunk get get' v v' /\
    front_ok get v' acc /\ (acc = [] \/ (length (v_G v') < length (v_G v))%nat).
Proof.
  intros Htake Hv Hfront.
  destruct (foldM_ok (fun _ '(v', acc) => vinv v' /\ shrunk get get' v v' /\
      (forall j, j ∈ acc -> get (v_store v' !!! j) = []) /\
      (acc = [] \/ (length (v_G v') < length (v_G v))%nat))
    take (v, []) front) as ([v' acc] & Hf & Hv' & Hs & Ha & Hlen).
  - split_and!; [done|apply shrunk_refl|by intros j ?%elem_of_nil|by left].
  - intros pre u post [t acc] Hl (Ht & Hs & Ha & Hlen).
    destruct (Htake t acc u Ht) as (t' & acc' & -> & Ht' & Hs' & Ha' & Hlen').
    { intros HuG. apply (front_mono get get' v t front Hs Hfront); [|done]. set_solver. }
    exists (t', acc'). split; [done|]. split_and!; [done|by eapply shrunk_trans| |].
    + intros j [Hj|?]%Ha'; [|done]. by apply Hs', Ha.
    + pose proof (sh_length _ _ _ _ Hs). pose proof (sh_length _ _ _ _ Hs').
      destruct Hlen' as [->|]; [|right; lia]. destruct Hlen; [by left|right; lia].
  - exists v', acc. split_and!; try done. intros j Hj _. by apply Ha.
Qed.

(** [while sinks] ends: a round that finds no new member of the front is the
    last one, and every other round removes a vertex. *)
Lemma drain_ok get get' take fuel v front : takes get get' take -> vinv v -> front_ok get v front ->
  (length (v_G v) < fuel)%nat ->
  exists v', drain take fuel v front = Ok v' /\ vinv v' /\ shrunk get get' v v'.
Proof.
  intros Htake. revert v front. induction fuel as [|fuel IH]; intros v front Hv Hfront Hfuel; [lia|].
  destruct front as [|u front]; [by exists v; split_and!; auto using shrunk_refl|].
  destruct (takes_ok get get' take v (u :: front) Htake Hv Hfront) as (v' & acc & Hf & Hv' & Hs & Ha & Hlen).
  cbn [drain]. rewrite Hf. destruct acc as [|a acc]; [exists v'; by destruct fuel|].
  destruct Hlen as [?|Hlen]; [done|].
  destruct (IH v' (a :: acc)) as (v'' & -> & Hv'' & Hs'); [done..|lia|].
  exists v''. split_and!; [done..|by eapply shrunk_trans].
Qed.

Lemma pop_best_ok fuel v : v_G v <> [] -> heap_ok (v_G v) v -> (length (v_heap v) < fuel)%nat ->
  exists u heap, u ∈ v_G v /\
    let v' := mkV (v_store v) (v_G v) (v_s1 v) (v_s2 v) heap (v_items v) in
    pop_best fuel v = Ok (u, v') /\ heap_ok (less u (v_G v)) v'.
Proof.
  revert v. induction fuel as [|fuel IH]; intros v HG Hh Hfuel; [lia|]. cbn [pop_best].
  destruct (heappop_ok hi_ltb (v_heap v)) as (h & heap & Hpop).
  { intros Hnil. destruct (v_G v) as [|w G] eqn:E; [done|]. destruct (Hh w) as (_ & h & Hin & _); [left|].
    rewrite Hnil in Hin. by apply elem_of_nil in Hin. }
  pose proof (heappop_perm _ _ _ _ Hpop) as Hperm. rewrite Hpop.
  set (v' := mkV (v_store v) (v_G v) (v_s1 v) (v_s2 v) heap (v_items v)).
  (* an item of another vertex stays in the heap *)
  assert (forall x, x ∈ v_G v -> v_items v !! hi_ref h <> Some (Some x) ->
    v_items v !! heap_item (v_store v !!! x) = Some (Some x) /\
    exists h', h' ∈ heap /\ hi_ref h' = heap_item (v_store v !!! x)) as Hstay.
  { intros x Hx Hne. destruct (Hh x Hx) as (Hi & h' & Hin & Hr). split; [done|]. exists h'. split; [|done].
    rewrite Hperm in Hin. apply elem_of_cons in Hin as [->|?]; [|done]. rewrite Hr in Hne. done. }
  assert (forall G, (forall x, x ∈ G -> x ∈ v_G v) -> (forall x, x ∈ G -> v_items v !! hi_ref h <> Some (Some x)) ->
    heap_ok G v') as Hnext.
  { intros G H1 H2 x Hx. apply Hstay; auto. }
  assert (length (v_heap v') < fuel)%nat as Hlen by (apply Permutation_length in Hperm; simpl in *; lia).
  assert (forall G', G' = v_G v -> (forall x, x ∈ v_G v -> v_items v !! hi_ref h <> Some (Some x)) ->
    exists u heap', u ∈ v_G v /\ pop_best fuel v' = Ok (u, mkV (v_store v) G' (v_s1 v) (v_s2 v) heap' (v_items v)) /\
      heap_ok (less u (v_G v)) (mkV (v_store v) G' (v_s1 v) (v_s2 v) heap' (v_items v))) as Hrec.
  { intros G' -> Hne. destruct (IH v' HG) as (u & heap' & Hu & Hb & Hh'); [by apply Hnext|done|]. by exists u, heap'. }
  simpl. destruct (v_items v !! hi_ref h) as [[u|]|] eqn:Ei; simpl.
  - case_decide as HuG.
    + exists u, heap. split; [done|]. split; [done|]. apply Hnext.
      * intros x Hx. by apply elem_of_less in Hx as [? _].
      * intros x [_ Hx]%elem_of_less. congruence.
    + destruct (Hrec _ eq_refl) as (u' & heap' & ? & ? & ?); [|by exists u', heap'].
      intros x Hx Heq. congruence.
  - destruct (Hrec _ eq_refl) as (u' & heap' & ? & ? & ?); [|by exists u', heap']. done.
  - destruct (Hrec _ eq_refl) as (u' & heap' & ? & ? & ?); [|by exists u', heap']. done.
Qed.

(** Taking the best vertex out of the graph. *)
Lemma pick_ok v heap u :
  vinv v -> u ∈ v_G v ->
  let w := mkV (v_store v) (v_G v) (v_s1 v) (v_s2 v) heap (v_items v) in
  heap_ok (less u (v_G v)) w ->
  exists v1 sources v2 sinks, let w := del_G u (push_s1 u w) in
    foldM (pop_incoming u) (w, []) (od_keys (outgoing (v_store w !!! u))) = Ok (v1, sources) /\
    foldM (pop_outgoing u) (v1, []) (od_keys (incoming (v_store v1 !!! u))) = Ok (v2, sinks) /\
    vinv v2 /\ front_ok outgoing v2 sinks /\ front_ok incoming v2 sources /\ v_G v2 = less u (v_G v).
Proof.
  intros Hv Hu w Hh. set (w' := del_G u (push_s1 u w)).
  assert (forall x, x ∈ v_G v -> ~ edge st0 x x) as Hirr by (intros x Hx; by eapply irrefl, vinv_G).
  destruct (pop_side incoming set_incoming outgoing 1 u (v_G v) w' [] after incoming_lens)
    as (v1 & sources & Hf1 & Hp1 & Hl1 & Ha1); try done; try by apply (vi_out v Hv).
  { apply (vi_in v Hv). }
  assert (same_on outgoing (v_store v) (v_store v1)) as Hs1.
  { apply (po_other _ _ _ _ _ _ Hp1); by intros ? []. }
  assert (u ∉ od_keys (outgoing (v_store w' !!! u))) as Hnot.
  { intros Hin. apply (vi_out v Hv) in Hin as [HE _]; [|done]. by apply (Hirr u). }
  assert (incoming (v_store v1 !!! u) = incoming (v_store v !!! u)) as Hin1.
  { rewrite (po_get _ _ _ _ _ _ Hp1). by case_decide. }
  destruct (pop_side outgoing set_outgoing incoming (-1) u (v_G v) v1 [] before outgoing_lens)
    as (v2 & sinks & Hf2 & Hp2 & Hl2 & Ha2); try done.
  { rewrite (po_G _ _ _ _ _ _ Hp1). done. }
  { eapply live_same; [exact Hs1|apply (vi_out v Hv)]. }
  { rewrite (po_G _ _ _ _ _ _ Hp1). apply (po_heap _ _ _ _ _ _ Hp1). }
  { rewrite Hin1. by apply (vi_in v Hv). }
  { rewrite Hin1. by apply (vi_in v Hv). }
  assert (same_on incoming (v_store v1) (v_store v2)) as Hs2.
  { apply (po_other _ _ _ _ _ _ Hp2); by intros ? []. }
  assert (v_G v2 = less u (v_G v)) as HG.
  { rewrite (po_G _ _ _ _ _ _ Hp2), (po_G _ _ _ _ _ _ Hp1). done. }
  exists v1, sources, v2, sinks. cbv zeta. split_and!; [exact Hf1|exact Hf2| | | |done].
  - split; rewrite ?HG; try done.
    + rewrite (po_s1 _ _ _ _ _ _ Hp2), (po_s2 _ _ _ _ _ _ Hp2), (po_s1 _ _ _ _ _ _ Hp1), (po_s2 _ _ _ _ _ _ Hp1).
      simpl. rewrite <- (vi_perm v Hv). rewrite (less_perm u (v_G v) (vinv_NoDup v Hv) Hu) at 2. solve_Permutation.
    + transitivity (v_store v); [apply Hv|]. transitivity (v_store v1); [apply (po_fixed _ _ _ _ _ _ Hp1)|apply (po_fixed _ _ _ _ _ _ Hp2)].
    + eapply live_same; [exact Hs2|done].
    + assert (v_G v1 = less u (v_G v)) as <- by apply (po_G _ _ _ _ _ _ Hp1). apply (po_heap _ _ _ _ _ _ Hp2).
  - intros j Hj _. destruct (Ha2 j Hj) as [?%elem_of_nil|]; done.
  - intros j Hj _. rewrite Hs2. destruct (Ha1 j Hj) as [?%elem_of_nil|]; done.
Qed.

Lemma vertex_loop_ok fuel v sinks sources :
  vinv v -> front_ok outgoing v sinks -> front_ok incoming v sources -> (length (v_G v) < fuel)%nat ->
  exists v', vertex_loop fuel v sinks sources = Ok v' /\ vinv v' /\ v_G v' = [].
Proof.
  revert v sinks sources. induction fuel as [|fuel IH]; intros v sinks sources Hv Hsi Hso Hfuel; [lia|].
  cbn [vertex_loop]. destruct (v_G v) as [|g G] eqn:HG; [by exists v|].
  destruct (drain_ok outgoing incoming take_sink (S (length (g :: G))) v sinks take_sink_ok Hv Hsi)
    as (v1 & -> & Hv1 & Hs1); [rewrite HG; lia|].
  destruct (drain_ok incoming outgoing take_source (S (length (v_G v1))) v1 sources take_source_ok Hv1)
    as (v2 & -> & Hv2 & Hs2); [by eapply front_other|lia|].
  pose proof (sh_length _ _ _ _ Hs1) as HL1. pose proof (sh_length _ _ _ _ Hs2). rewrite HG in HL1.
  destruct (v_G v2) as [|g2 G2] eqn:HG2; [by exists v2|]. rewrite <- HG2 in *.
  destruct (pop_best_ok (S (length (v_heap v2))) v2) as (u & heap & Hu & -> & Hh); [by rewrite HG2|apply Hv2|lia|].
  destruct (pick_ok v2 heap u Hv2 Hu Hh) as (v3 & so & v4 & si & Hf1 & Hf2 & Hv4 & Hsi4 & Hso4 & HG4).
  cbv zeta in Hf1, Hf2. rewrite Hf1, Hf2. apply IH; try done. rewrite HG4.
  pose proof (less_length u (v_G v2) Hu). lia.
Qed.
End sequence.

(** * The whole pass *)

Lemma sum_values_ok (d : edges) : NoDup (od_keys d) -> (forall y, od_get y d <> Some None) ->
  exists z, sum_values d = Ok z.
Proof.
  intros Hn Hw. destruct (foldM_ok (fun _ _ => True)
    (fun acc '(_, w) => match w with Some z => Ok (acc + z) | None => Raise TypeError end) 0 d)
    as (z & Hz & _); [done| |by exists z].
  intros pre [y [w|]] post t Hd _; [by eexists|]. exfalso. apply (Hw y). apply od_get_elem; [done|].
  rewrite Hd, elem_of_app. right. by left.
Qed.

Lemma weights_after ts st x y : graph_ok ts st -> weights_ok ts st -> x ∈ ts ->
  od_get y (goes_after (st !!! x)) <> Some None.
Proof.
  intros Hg Hw Hx Hn. assert (y ∈ ts) as Hy.
  { eapply (go_after_in ts st Hg x); [done|]. by eapply od_get_Some_key. }
  rewrite <- (go_sym ts st Hg y x) in Hn by done. by apply (Hw y x).
Qed.

Lemma init_scores_ok ts st : graph_ok ts st -> weights_ok ts st ->
  exists st', init_scores st ts = Ok st' /\ same_on fixed st st' /\
    forall x, x ∈ ts -> outgoing (st' !!! x) = goes_before (st !!! x) /\ incoming (st' !!! x) = goes_after (st !!! x).
Proof.
  intros Hg Hw.
  destruct (foldM_ok (fun pre st' => same_on fixed st st' /\ forall x, x ∈ pre ->
      outgoing (st' !!! x) = goes_before (st !!! x) /\ incoming (st' !!! x) = goes_after (st !!! x))
    (fun st i =>
       let x := st !!! i in
       let! o := sum_values (goes_before x) in
       let! n := sum_values (goes_after x) in
       Ok (upd i (fun x => set_score (o - n)
                    (set_outgoing (goes_before x) (set_incoming (goes_after x) x))) st))
    st ts) as (st' & Hf & Hs & He).
  - split; [done|]. by intros x ?%elem_of_nil.
  - intros pre i post t Hl [Hs He]. assert (i ∈ ts) as Hi by set_solver.
    destruct (same_fixed st t i Hs) as (_ & Hb & Ha & _). cbv beta zeta.
    destruct (sum_values_ok (goes_before (t !!! i))) as [o ->].
    { rewrite Hb. by apply (go_before ts st Hg). }
    { rewrite Hb. intros y. by apply Hw. }
    destruct (sum_values_ok (goes_after (t !!! i))) as [n ->].
    { rewrite Ha. by apply (go_after ts st Hg). }
    { rewrite Ha. intros y. by apply (weights_after ts st). }
    eexists. split; [done|]. split.
    + apply same_on_trans_upd; [setter|done].
    + intros x Hx. rewrite lookup_total_upd. case_decide as Hd.
      * subst. rewrite <- Hb, <- Ha. by destruct (t !!! x).
      * apply He. set_solver.
  - by exists st'.
Qed.

Lemma init_heap_ok ts v0 : v_heap v0 = [] ->
  let v := init_heap ts v0 in
  v_G v = v_G v0 /\ same_on fixed (v_store v0) (v_store v) /\
  same_on outgoing (v_store v0) (v_store v) /\ same_on incoming (v_store v0) (v_store v) /\ heap_ok ts v.
Proof.
  intros Hnil. cbv zeta. unfold init_heap.
  assert (forall l pre v, pre ++ l = ts ->
    v_G v = v_G v0 -> same_on fixed (v_store v0) (v_store v) ->
    same_on outgoing (v_store v0) (v_store v) -> same_on incoming (v_store v0) (v_store v) -> heap_ok pre v ->
    let v' := fold_left (fun v i => let '(h, v') := new_heap_item i v in
      mkV (v_store v') (v_G v') (v_s1 v') (v_s2 v') (v_heap v' ++ [h]) (v_items v')) l v in
    v_G v' = v_G v0 /\ same_on fixed (v_store v0) (v_store v') /\
    same_on outgoing (v_store v0) (v_store v') /\ same_on incoming (v_store v0) (v_store v') /\ heap_ok ts v') as Hgen.
  { induction l as [|i l IH]; intros pre v Hl H1 H2 H3 H4 H5; simpl.
    - rewrite app_nil_r in Hl. subst. by split_and!.
    - apply (IH (pre ++ [i])); [by rewrite <- app_assoc|done|..]; simpl.
      + apply same_on_trans_upd; [setter|done].
      + apply same_on_trans_upd; [setter|done].
      + apply same_on_trans_upd; [setter|done].
      + intros x Hx. simpl. rewrite lookup_total_upd. case_decide as Hd.
        * subst. assert (heap_item (set_heap_item (length (v_items v)) (v_store v !!! x)) = length (v_items v)) as ->
            by by destruct (v_store v !!! x).
          split; [by rewrite lookup_app_r, Nat.sub_diag|]. eexists. split; [apply elem_of_app; right; left|done].
        * destruct (H5 x) as (Hi & h & Hh & Hr); [set_solver|]. split; [by apply lookup_app_l_Some|].
          exists h. split; [|done]. apply elem_of_app. by left. }
  apply (Hgen ts [] v0); try done. by intros x ?%elem_of_nil.
Qed.

(** [FindVertexSequence] succeeds, and its result is a permutation of the
    transfers with [order] set to the new position. *)
Lemma FindVertexSequence_ok s :
  let st := sq_store s in let ts := sq_transfers s in
  NoDup ts -> graph_ok ts st -> weights_ok ts st -> (forall x, x ∈ ts -> ~ edge st x x) ->
  exists s', FindVertexSequence s = Ok s' /\ sq_transfers s' ≡ₚ ts /\
    same_on fixed st (sq_store s') /\ ordered s'.
Proof.
  intros st ts Hts Hg Hw Hirr. unfold FindVertexSequence. fold st ts.
  destruct (init_scores_ok ts st Hg Hw) as (st1 & -> & Hs1 & He).
  set (v0 := mkV st1 ts [] [] [] []). cbv zeta.
  destruct (init_heap_ok ts v0 eq_refl) as (HG & Hs2 & Ho & Hi & Hh).
  set (v := init_heap ts v0) in *.
  set (v1 := mkV (v_store v) (v_G v) [] [] (heapify hi_ltb (v_heap v)) (v_items v)).
  assert (forall x, x ∈ ts -> outgoing (v_store v !!! x) = goes_before (st !!! x) /\
    incoming (v_store v !!! x) = goes_after (st !!! x)) as Hdict.
  { intros x Hx. rewrite (Ho x), (Hi x). by apply He. }
  assert (vinv st ts v1) as Hv1.
  { split; simpl; rewrite ?HG; simpl; try done.
    - by transitivity st1.
    - intros x Hx. destruct (Hdict x Hx) as [-> _]. split_and!.
      + by apply (go_before ts st Hg).
      + intros y. unfold before, edge. split; [|by intros []]. intros Hy. split; [done|].
        by apply (go_before_in ts st Hg x).
      + intros y. by apply Hw.
    - intros x Hx. destruct (Hdict x Hx) as [_ ->]. split_and!.
      + by apply (go_after ts st Hg).
      + intros y. unfold after. split.
        * intros Hy. assert (y ∈ ts) by by apply (go_after_in ts st Hg x). split; [|done].
          by apply (graph_ok_keys ts).
        * intros [HE Hy]. by apply (graph_ok_keys ts) in HE.
      + intros y. by apply (weights_after ts).
    - intros x Hx. destruct (Hh x Hx) as (Hix & h & Hin & Hr). split; [done|]. exists h. split; [|done].
      simpl. by rewrite heapify_perm. }
  destruct (vertex_loop_ok st ts Hts Hirr (S (length ts)) v1
    (filter (fun u => outgoing (v_store v1 !!! u) = []) (v_G v1))
    (filter (fun u => incoming (v_store v1 !!! u) = []) (v_G v1)) Hv1) as (v2 & Hf & Hv2 & Hnil).
  { by intros x [? _]%list_elem_of_filter. }
  { by intros x [? _]%list_elem_of_filter. }
  { simpl. rewrite HG. simpl. lia. }
  match goal with |- context [vertex_loop ?n ?w ?a ?b] =>
    assert (vertex_loop n w a b = Ok v2) as -> by exact Hf end.
  eexists. split; [done|]. simpl.
  assert (v_s1 v2 ++ v_s2 v2 ≡ₚ ts) as Hperm.
  { rewrite <- (vi_perm st ts v2 Hv2), Hnil. by rewrite app_nil_r. }
  split_and!; [done| |].
  - transitivity (v_store v2); [apply Hv2|]. apply set_orders_same. by intros ? [].
  - apply set_orders_ok. by rewrite Hperm.
Qed.
