(* ===== verification/EdgeReversal.v ===== *)
(** [ReverseBackwardEdges]: afterwards every edge goes forward in [order], and
    a transfer that reads a block another one has already overwritten has
    that block in a stash saved by the writer. *)

From S2P Require Export VertexSeq.

#[local] Open Scope Z_scope.

(** The attributes [ReverseBackwardEdges] leaves alone. *)
Definition revfields (x : Transfer) := (statics x, order x).

Lemma same_revfields st st' : same_on revfields st st' ->
  same_on statics st st' /\ forall i, order (st' !!! i) = order (st !!! i).
Proof. intros H. split; intros i; [exact (f_equal fst (H i))|exact (f_equal snd (H i))]. Qed.

(** [r] is the well-formed, non-empty range set of the blocks [x] reads and [y]
    writes. *)
Definition shared_blocks (st : store) (x y : tid) (r : RangeSet) : Prop :=
  (wf r /\ exists b, b ∈ r) /\ forall b, b ∈ r <-> b ∈ src_ranges (st !!! x) /\ b ∈ tgt_ranges (st !!! y).

Lemma shared_blocks_same st st' x y r : same_on statics st st' ->
  shared_blocks st x y r -> shared_blocks st' x y r.
Proof.
  intros H [Hw Hb]. split; [done|]. intros b. rewrite Hb.
  by rewrite (proj1 (same_statics_ranges st st' y H)), (proj2 (same_statics_ranges st st' x H)).
Qed.

(** * One reversal *)

(** The effect of reversing the edge from [xf] to [u]. *)
Record reversed (xf u : tid) (id : Z) (r : RangeSet) (st st' : store) : Prop := {
  rv_rest : same_on revfields st st';
  rv_before : forall x, goes_before (st' !!! x) =
    if decide (x = xf) then od_remove u (goes_before (st !!! x))
    else if decide (x = u) then od_set xf None (goes_before (st !!! x)) else goes_before (st !!! x);
  rv_after : forall x, goes_after (st' !!! x) =
    if decide (x = u) then od_remove xf (goes_after (st !!! x))
    else if decide (x = xf) then od_set u None (goes_after (st !!! x)) else goes_after (st !!! x);
  rv_save : forall x, stash_before (st' !!! x) =
    if decide (x = u) then stash_before (st !!! x) ++ [(id, r)] else stash_before (st !!! x);
  rv_use : forall x, use_stash (st' !!! x) =
    if decide (x = xf) then use_stash (st !!! x) ++ [(id, r)] else use_stash (st !!! x)
}.

Lemma reverse_edge_ok st id xf u :
  xf <> u -> order (st !!! u) <= order (st !!! xf) ->
  wf (src_ranges (st !!! xf)) -> wf (tgt_ranges (st !!! u)) -> conflict st u xf ->
  u ∈ od_keys (goes_before (st !!! xf)) -> xf ∈ od_keys (goes_after (st !!! u)) ->
  exists st' r, reverse_edge xf (st, id) u = Ok (st', id + 1) /\ shared_blocks st xf u r /\
    reversed xf u id r st st'.
Proof.
  intros Hne Hord Hwx Hwu (b & Hb1 & Hb2) Hgb Hga. unfold reverse_edge.
  destruct (Z.ltb_spec (order (st !!! xf)) (order (st !!! u))); [lia|].
  destruct (intersect_ok _ _ Hwx Hwu) as (r & -> & Hwr & Hr).
  assert (rs_bool r = true) as -> by (apply rs_bool_spec; [done|]; exists b; by apply Hr).
  set (st1 := upd u (fun x => set_stash_before (stash_before x ++ [(id, r)]) x) st).
  set (st2 := upd xf (fun x => set_use_stash (use_stash x ++ [(id, r)]) x) st1).
  assert (goes_before (st2 !!! xf) = goes_before (st !!! xf)) as Hb.
  { unfold st2, st1. by rewrite !(upd_field goes_before) by setter. }
  destruct (od_pop_ok u (goes_before (st !!! xf)) Hgb) as (w & _ & Hpop).
  unfold od_del at 1. rewrite Hb, Hpop.
  set (st3 := upd xf (set_goes_before (od_remove u (goes_before (st !!! xf)))) st2).
  assert (goes_after (st3 !!! u) = goes_after (st !!! u)) as Ha.
  { unfold st3, st2, st1. by rewrite !(upd_field goes_after) by setter. }
  destruct (od_pop_ok xf (goes_after (st !!! u)) Hga) as (w' & _ & Hpop').
  unfold od_del. rewrite Ha, Hpop'.
  eexists _, r. split; [done|]. split; [split; [split; [done|exists b; by apply Hr]|done]|].
  unfold st3, st2, st1. split.
  - repeat (apply same_on_trans_upd; [setter|]). done.
  - intros x. rewrite !lookup_total_upd. repeat case_decide; subst; try done; by destruct (st !!! _).
  - intros x. rewrite !lookup_total_upd. repeat case_decide; subst; try done; by destruct (st !!! _).
  - intros x. rewrite !lookup_total_upd. repeat case_decide; subst; try done; by destruct (st !!! _).
  - intros x. rewrite !lookup_total_upd. repeat case_decide; subst; try done; by destruct (st !!! _).
Qed.

(** * The stash table *)

(** Every stash has one saver and one user, and a saver and a user share at
    most one. *)
Record stash_table (ts : list tid) (st : store) : Prop := {
  tb_user : forall y k r, y ∈ ts -> (k, r) ∈ stash_before (st !!! y) ->
    exists x, x ∈ ts /\ (k, r) ∈ use_stash (st !!! x);
  tb_saver : forall x k r, x ∈ ts -> (k, r) ∈ use_stash (st !!! x) ->
    exists y, y ∈ ts /\ (k, r) ∈ stash_before (st !!! y);
  tb_save : forall x y k r r', x ∈ ts -> y ∈ ts ->
    (k, r) ∈ stash_before (st !!! x) -> (k, r') ∈ stash_before (st !!! y) -> x = y /\ r = r';
  tb_use : forall x y k r r', x ∈ ts -> y ∈ ts ->
    (k, r) ∈ use_stash (st !!! x) -> (k, r') ∈ use_stash (st !!! y) -> x = y /\ r = r';
  tb_save_nd : forall x, x ∈ ts -> NoDup (map fst (stash_before (st !!! x)));
  tb_use_nd : forall x, x ∈ ts -> NoDup (map fst (use_stash (st !!! x)));
  tb_pair : forall x y k k' r r', x ∈ ts -> y ∈ ts ->
    (k, r) ∈ use_stash (st !!! x) -> (k, r) ∈ stash_before (st !!! y) ->
    (k', r') ∈ use_stash (st !!! x) -> (k', r') ∈ stash_before (st !!! y) -> k = k'
}.

Lemma stash_table_empty ts st :
  (forall x, x ∈ ts -> stash_before (st !!! x) = [] /\ use_stash (st !!! x) = []) -> stash_table ts st.
Proof.
  intros H. assert (forall x p, x ∈ ts -> p ∉ stash_before (st !!! x)) as H1.
  { intros x p Hx. rewrite (proj1 (H x Hx)). apply not_elem_of_nil. }
  assert (forall x p, x ∈ ts -> p ∉ use_stash (st !!! x)) as H2.
  { intros x p Hx. rewrite (proj2 (H x Hx)). apply not_elem_of_nil. }
  split.
  - intros y k r Hy Hk. by destruct (H1 y (k, r) Hy).
  - intros x k r Hx Hk. by destruct (H2 x (k, r) Hx).
  - intros x y k r r' Hx Hy Hk. by destruct (H1 x (k, r) Hx).
  - intros x y k r r' Hx Hy Hk. by destruct (H2 x (k, r) Hx).
  - intros x Hx. rewrite (proj1 (H x Hx)). constructor.
  - intros x Hx. rewrite (proj2 (H x Hx)). constructor.
  - intros x y k k' r r' Hx Hy Hk. by destruct (H2 x (k, r) Hx).
Qed.

Lemma stash_table_perm ts ts' st : ts ≡ₚ ts' -> stash_table ts st -> stash_table ts' st.
Proof. intros Hp [T1 T2 T3 T4 T5 T6 T7]. split; setoid_rewrite <- Hp; done. Qed.

Lemma stash_table_same ts st st' :
  (forall i, stash_before (st' !!! i) = stash_before (st !!! i) /\ use_stash (st' !!! i) = use_stash (st !!! i)) ->
  stash_table ts st -> stash_table ts st'.
Proof.
  intros H [T1 T2 T3 T4 T5 T6 T7]. assert (forall i, stash_before (st' !!! i) = stash_before (st !!! i)) as Hb by apply H.
  assert (forall i, use_stash (st' !!! i) = use_stash (st !!! i)) as Hu by apply H.
  split; setoid_rewrite Hb || setoid_rewrite Hu; try setoid_rewrite Hu; done.
Qed.

(** A reversal adds one stash, with a fresh number. *)
Lemma stash_table_add ts st st' xf u id r :
  stash_table ts st -> xf ∈ ts -> u ∈ ts ->
  (forall x k s, x ∈ ts -> (k, s) ∈ stash_before (st !!! x) -> k < id) ->
  (forall k s, (k, s) ∈ use_stash (st !!! xf) -> (k, s) ∉ stash_before (st !!! u)) ->
  reversed xf u id r st st' -> stash_table ts st'.
Proof.
  intros [T1 T2 T3 T4 T5 T6 T7] Hxf Hu Hfresh Hnew [_ _ _ V4 V5].
  assert (forall x k s, x ∈ ts -> (k, s) ∈ use_stash (st !!! x) -> k < id) as Hfresh'.
  { intros x k s Hx Hk. destruct (T2 x k s Hx Hk) as (y & Hy & Hk'). by eapply Hfresh. }
  assert (forall x k s, (k, s) ∈ stash_before (st' !!! x) <->
    (k, s) ∈ stash_before (st !!! x) \/ (x = u /\ k = id /\ s = r)) as Hsave.
  { intros x k s. rewrite V4. case_decide; [rewrite elem_of_app, list_elem_of_singleton|]; naive_solver. }
  assert (forall x k s, (k, s) ∈ use_stash (st' !!! x) <->
    (k, s) ∈ use_stash (st !!! x) \/ (x = xf /\ k = id /\ s = r)) as Huse.
  { intros x k s. rewrite V5. case_decide; [rewrite elem_of_app, list_elem_of_singleton|]; naive_solver. }
  assert (forall (l : list (Z * RangeSet)), NoDup (map fst l) -> (forall k s, (k, s) ∈ l -> k < id) ->
    NoDup (map fst (l ++ [(id, r)]))) as Hnd.
  { intros l Hl Hf. rewrite map_app. apply NoDup_app. split_and!; [done| |apply NoDup_singleton].
    intros k Hk ->%list_elem_of_singleton. apply list_elem_of_In, in_map_iff in Hk as ([k s] & Ek & Hk).
    apply list_elem_of_In in Hk. specialize (Hf k s Hk). simpl in *. lia. }
  split.
  - intros y k s Hy. rewrite Hsave. setoid_rewrite Huse. intros [Hk|(-> & -> & ->)].
    + destruct (T1 y k s Hy Hk) as (x & ? & ?). exists x. split; [done|by left].
    + exists xf. split; [done|by right].
  - intros x k s Hx. rewrite Huse. setoid_rewrite Hsave. intros [Hk|(-> & -> & ->)].
    + destruct (T2 x k s Hx Hk) as (y & ? & ?). exists y. split; [done|by left].
    + exists u. split; [done|by right].
  - intros x y k s s' Hx Hy. rewrite !Hsave.
    intros [Hk|(-> & -> & ->)] [Hk'|(-> & E & ->)]; [by eapply T3| | |done].
    + subst. pose proof (Hfresh x _ s Hx Hk). lia.
    + pose proof (Hfresh y _ s' Hy Hk'). lia.
  - intros x y k s s' Hx Hy. rewrite !Huse.
    intros [Hk|(-> & -> & ->)] [Hk'|(-> & E & ->)]; [by eapply T4| | |done].
    + subst. pose proof (Hfresh' x _ s Hx Hk). lia.
    + pose proof (Hfresh' y _ s' Hy Hk'). lia.
  - intros x Hx. rewrite V4. case_decide; [subst; apply Hnd; eauto|auto].
  - intros x Hx. rewrite V5. case_decide; [subst; apply Hnd; eauto|auto].
  - intros x y k k' s s' Hx Hy. rewrite !Huse, !Hsave.
    intros [H1|(-> & -> & ->)] [H2|(-> & E2 & E3)] [H3|(E4 & -> & ->)] [H4|(E5 & E6 & E7)]; subst; try done;
      try (eapply (T7 x y k k' s s'); eassumption); try (exfalso; eapply Hnew; eassumption);
      repeat match goal with
      | H : (_, _) ∈ stash_before (st !!! _) |- _ => apply Hfresh in H; [|done]
      | H : (_, _) ∈ use_stash (st !!! _) |- _ => apply Hfresh' in H; [|done]
      end; lia.
Qed.

(** * The whole pass *)

Section reversal.
Context (st0 : store) (ts : list tid).
Context (Hranges : ranges_ok st0 ts) (Hgraph : graph_ok ts st0).
Context (Hedges : forall x y, x ∈ ts -> edge st0 x y <-> y ∈ ts /\ x <> y /\ conflict st0 y x).
Context (Horder : forall x y, x ∈ ts -> y ∈ ts -> order (st0 !!! x) = order (st0 !!! y) -> x = y).
Context (Hstash : forall x, x ∈ ts -> stash_before (st0 !!! x) = [] /\ use_stash (st0 !!! x) = []).

(** The edge from [x] to [y] goes backwards. *)
Definition backward (x y : tid) : Prop := order (st0 !!! y) <= order (st0 !!! x).

Lemma backward_once x y : x ∈ ts -> edge st0 x y -> backward x y -> backward y x -> False.
Proof.
  intros Hx HE H1 H2. apply Hedges in HE as (Hy & Hne & _); [|done].
  apply Hne, Horder; [done..|]. unfold backward in *. lia.
Qed.

(** The invariant: the edges in [done] have been looked at. *)
Record rinv (done : tid -> tid -> Prop) (t : store) (id : Z) : Prop := {
  ri_rest : same_on revfields st0 t;
  ri_before_nd : forall x, x ∈ ts -> NoDup (od_keys (goes_before (t !!! x)));
  ri_after_nd : forall x, x ∈ ts -> NoDup (od_keys (goes_after (t !!! x)));
  ri_edge : forall x y, x ∈ ts -> edge t x y <-> y ∈ ts /\
    ((edge st0 x y /\ ~ (backward x y /\ done x y)) \/ (edge st0 y x /\ backward y x /\ done y x));
  ri_sym : forall x y, x ∈ ts -> y ∈ ts -> x ∈ od_keys (goes_after (t !!! y)) <-> edge t x y;
  ri_after_in : forall x y, y ∈ ts -> x ∈ od_keys (goes_after (t !!! y)) -> x ∈ ts;
  ri_stashed : forall x y, x ∈ ts -> edge st0 x y -> backward x y -> done x y ->
    exists k r, (k, r) ∈ use_stash (t !!! x) /\ (k, r) ∈ stash_before (t !!! y) /\ shared_blocks st0 x y r;
  ri_use : forall x k r, x ∈ ts -> (k, r) ∈ use_stash (t !!! x) ->
    exists y, y ∈ ts /\ edge st0 x y /\ backward x y /\ done x y /\ (k, r) ∈ stash_before (t !!! y) /\
      shared_blocks st0 x y r;
  ri_fresh : forall x k r, x ∈ ts -> (k, r) ∈ stash_before (t !!! x) -> k < id;
  ri_table : stash_table ts t
}.

Lemma rinv_iff done done' t id :
  (forall x y, x ∈ ts -> edge st0 x y -> backward x y -> (done x y <-> done' x y)) ->
  rinv done t id -> rinv done' t id.
Proof.
  intros Hd [R1 R2 R3 R4 R5 R6 R7 R8 R9 R10]. split; try done.
  - intros x y Hx. rewrite R4 by done. split.
    + intros (Hy & [[HE Hn]|(HE & Hb & Hdn)]); (split; [done|]).
      * left. split; [done|]. intros [Hb Hdn]. apply Hn. split; [done|]. by apply Hd.
      * right. split; [done|]. split; [done|]. by apply Hd.
    + intros (Hy & [[HE Hn]|(HE & Hb & Hdn)]); (split; [done|]).
      * left. split; [done|]. intros [Hb Hdn]. apply Hn. split; [done|]. by apply Hd.
      * right. split; [done|]. split; [done|]. by apply Hd.
  - intros x y Hx HE Hb Hdn. apply R7; try done. by apply Hd.
  - intros x k r Hx Hk. destruct (R8 x k r Hx Hk) as (y & ? & ? & ? & ? & ? & ?). exists y.
    split_and!; try done. by apply Hd.
Qed.

Lemma rinv_start : rinv (fun _ _ => False) st0 0.
Proof.
  split; try done.
  - apply Hgraph.
  - apply Hgraph.
  - intros x y Hx. split; [|tauto]. intros HE. split; [|tauto]. by apply Hedges in HE as (? & _).
  - intros x y Hx Hy. symmetry. by apply (graph_ok_keys ts).
  - intros x y. by apply Hgraph.
  - intros x k r Hx. rewrite (proj2 (Hstash x Hx)). by intros ?%elem_of_nil.
  - intros x k r Hx. rewrite (proj1 (Hstash x Hx)). by intros ?%elem_of_nil.
  - by apply stash_table_empty.
Qed.

(** Reversing one edge keeps the invariant. *)
Lemma rinv_reverse done t id xf u r t' :
  rinv done t id -> xf ∈ ts -> u ∈ ts -> ~ done xf u -> edge st0 xf u -> backward xf u ->
  shared_blocks st0 xf u r -> reversed xf u id r t t' ->
  rinv (fun x y => done x y \/ (x = xf /\ y = u)) t' (id + 1).
Proof.
  intros HR Hxf Hu Hnd HE0 Hb Hsh [V1 V2 V3 V4 V5].
  destruct (proj1 (Hedges xf u Hxf) HE0) as (_ & Hne & _).
  assert (~ backward u xf) as Hnb by (intros ?; by apply (backward_once xf u)).
  destruct HR as [R1 R2 R3 R4 R5 R6 R7 R8 R9 R10].
  assert (stash_table ts t') as Htable.
  { apply (stash_table_add ts t t' xf u id r); try done. intros k s Hk Hk'.
    destruct (R8 xf k s Hxf Hk) as (y & Hy & _ & _ & Hd & Hky & _).
    destruct (tb_save _ _ R10 y u k s s Hy Hu Hky Hk') as [-> _]. done. }
  assert (forall x y, x ∈ ts -> edge t' x y <-> (edge t x y /\ ~ (x = xf /\ y = u)) \/ (x = u /\ y = xf)) as Hedge.
  { intros x y Hx. unfold edge. rewrite V2. repeat case_decide; subst.
    - rewrite (proj2 (od_keys_remove u _ (R2 _ Hx))). naive_solver.
    - rewrite od_keys_set. naive_solver.
    - naive_solver. }
  assert (forall x y, y ∈ ts -> x ∈ od_keys (goes_after (t' !!! y)) <->
    (x ∈ od_keys (goes_after (t !!! y)) /\ ~ (x = xf /\ y = u)) \/ (x = u /\ y = xf)) as Hafter.
  { intros x y Hy. rewrite V3. repeat case_decide; subst.
    - rewrite (proj2 (od_keys_remove xf _ (R3 _ Hy))). naive_solver.
    - rewrite od_keys_set. naive_solver.
    - naive_solver. }
  assert (forall x k s, (k, s) ∈ stash_before (t' !!! x) <->
    (k, s) ∈ stash_before (t !!! x) \/ (x = u /\ k = id /\ s = r)) as Hsave.
  { intros x k s. rewrite V4. case_decide; [rewrite elem_of_app, list_elem_of_singleton|]; naive_solver. }
  assert (forall x k s, (k, s) ∈ use_stash (t' !!! x) <->
    (k, s) ∈ use_stash (t !!! x) \/ (x = xf /\ k = id /\ s = r)) as Huse.
  { intros x k s. rewrite V5. case_decide; [rewrite elem_of_app, list_elem_of_singleton|]; naive_solver. }
  split.
  - by transitivity t.
  - intros x Hx. rewrite V2. repeat case_decide; [by apply od_keys_remove, R2|by apply od_keys_set_NoDup, R2|by apply R2].
  - intros x Hx. rewrite V3. repeat case_decide; [by apply od_keys_remove, R3|by apply od_keys_set_NoDup, R3|by apply R3].
  - intros x y Hx. rewrite Hedge, R4 by done. destruct (decide (x = xf /\ y = u)) as [[-> ->]|H1].
    { split; [intros [[_ []]|[-> _]]; by try split|].
      intros (_ & [[_ []]|(_ & ? & _)]); [|done]. split; [done|]. by right. }
    destruct (decide (x = u /\ y = xf)) as [[-> ->]|H2].
    { split; [intros _|by right]. split; [done|]. right. split_and!; try done. by right. }
    tauto.
  - intros x y Hx Hy. rewrite Hafter, Hedge, R5 by done. done.
  - intros x y Hy. rewrite Hafter by done. intros [[Hin _]|[-> _]]; [by eapply R6|done].
  - intros x y Hx HE Hbk Hd. setoid_rewrite Huse. setoid_rewrite Hsave.
    destruct (decide (x = xf /\ y = u)) as [[-> ->]|Hxy].
    + exists id, r. split_and!; [by right..|done].
    + destruct Hd as [Hd|?]; [|done]. destruct (R7 x y Hx HE Hbk Hd) as (k & s & ? & ? & ?).
      exists k, s. split_and!; [by left..|done].
  - intros x k s Hx. rewrite Huse. setoid_rewrite Hsave. intros [Hk|(-> & -> & ->)].
    + destruct (R8 x k s Hx Hk) as (y & ? & ? & ? & ? & ? & ?). exists y. split_and!; try done; by left.
    + exists u. split_and!; try done; by right.
  - intros x k s Hx. rewrite Hsave. intros [Hk|(_ & -> & _)]; [|lia]. pose proof (R9 x k s Hx Hk). lia.
  - done.
Qed.

(** One edge of the copy of [goes_before]. *)
Lemma rinv_step done t id xf u :
  rinv done t id -> xf ∈ ts -> u ∈ ts -> ~ done xf u ->
  (edge st0 xf u \/ (edge st0 u xf /\ backward u xf)) ->
  exists t' id', reverse_edge xf (t, id) u = Ok (t', id') /\
    rinv (fun x y => done x y \/ (x = xf /\ y = u)) t' id'.
Proof.
  intros HR Hxf Hu Hnd HE. destruct (same_revfields _ _ (ri_rest _ _ _ HR)) as [Hst Hor].
  destruct (Z.ltb_spec (order (t !!! xf)) (order (t !!! u))) as [Hlt|Hle].
  { exists t, id. unfold reverse_edge. apply Z.ltb_lt in Hlt as Hlt'. rewrite Hlt'. split; [done|].
    eapply rinv_iff; [|exact HR]. intros x y Hx Hxy Hb. split; [by left|]. intros [?|[-> ->]]; [done|].
    unfold backward in Hb. rewrite !Hor in Hlt. lia. }
  assert (backward xf u) as Hb by (unfold backward; rewrite !Hor in Hle; lia).
  assert (edge st0 xf u) as HE0.
  { destruct HE as [?|[HE' Hb']]; [done|]. exfalso. by apply (backward_once u xf). }
  clear HE. destruct (proj1 (Hedges xf u Hxf) HE0) as (_ & Hne & Hconf).
  assert (edge t xf u) as HEt.
  { apply (ri_edge _ _ _ HR); [done|]. split; [done|]. left. split; [done|]. by intros [_ ?]. }
  pose proof (ranges_ok_same _ _ _ Hst Hranges) as Hrt.
  destruct (reverse_edge_ok t id xf u) as (t' & r & Hrev & Hsh & Heff).
  - done.
  - lia.
  - by apply (Hrt xf).
  - by apply (Hrt u).
  - by apply (conflict_same _ _ _ _ Hst).
  - done.
  - by apply (ri_sym _ _ _ HR).
  - exists t', (id + 1). split; [done|]. apply (rinv_reverse done t id xf u r); try done.
    apply (shared_blocks_same t); [|done]. intros i. symmetry. apply Hst.
Qed.

Lemma rinv_vertex pre t id xf :
  rinv (fun x _ => x ∈ pre) t id -> xf ∈ ts -> xf ∉ pre ->
  exists t' id', foldM (reverse_edge xf) (t, id) (od_keys (goes_before (t !!! xf))) = Ok (t', id') /\
    rinv (fun x _ => x ∈ pre ++ [xf]) t' id'.
Proof.
  intros HR Hxf Hpre.
  destruct (foldM_ok (fun p '(t', id') => rinv (fun x y => x ∈ pre \/ (x = xf /\ y ∈ p)) t' id')
    (reverse_edge xf) (t, id) (od_keys (goes_before (t !!! xf)))) as ([t' id'] & Hf & HR').
  - eapply rinv_iff; [|exact HR]. intros x y _ _ _. split; [by left|]. by intros [?|[_ ?%elem_of_nil]].
  - intros p u post [t1 id1] Hl HR1.
    assert (edge t xf u) as Hu by (unfold edge; rewrite Hl, elem_of_app; right; by left).
    assert (u ∉ p) as Hup.
    { pose proof (ri_before_nd _ _ _ HR xf Hxf) as Hnd. rewrite Hl in Hnd.
      apply NoDup_app in Hnd as (_ & Hd & _). intros Hp. apply (Hd u Hp). by left. }
    apply (ri_edge _ _ _ HR) in Hu as [Huts Hu]; [|done].
    destruct (rinv_step (fun x y => x ∈ pre \/ (x = xf /\ y ∈ p)) t1 id1 xf u HR1 Hxf Huts) as (t2 & id2 & -> & HR2).
    + tauto.
    + tauto.
    + exists (t2, id2). split; [done|]. eapply rinv_iff; [|exact HR2]. intros x y _ _ _.
      rewrite elem_of_app, list_elem_of_singleton. tauto.
  - exists t', id'. split; [done|]. eapply rinv_iff; [|exact HR']. intros x y Hx HE Hb.
    rewrite elem_of_app, list_elem_of_singleton. split; [tauto|]. intros [?| ->]; [by left|]. right.
    split; [done|]. apply (ri_edge _ _ _ HR); [done|]. split; [by apply Hedges in HE as (? & _)|]. left. tauto.
Qed.

End reversal.

(** What [ReverseBackwardEdges] leaves: a graph whose edges all go forward,
    with an edge for every conflict, and a stash for every edge that had to be
    turned round. *)
Record rev_ok (ts : list tid) (st : store) : Prop := {
  ro_before_nd : forall x, x ∈ ts -> NoDup (od_keys (goes_before (st !!! x)));
  ro_after_nd : forall x, x ∈ ts -> NoDup (od_keys (goes_after (st !!! x)));
  ro_before_in : forall x y, x ∈ ts -> edge st x y -> y ∈ ts;
  ro_after : forall x y, y ∈ ts -> x ∈ od_keys (goes_after (st !!! y)) <-> x ∈ ts /\ edge st x y;
  ro_forward : forall x y, x ∈ ts -> edge st x y -> order (st !!! x) < order (st !!! y);
  ro_conflict : forall x y, x ∈ ts -> y ∈ ts -> x <> y -> conflict st y x ->
    edge st x y \/ (edge st y x /\ exists k r,
      (k, r) ∈ use_stash (st !!! x) /\ (k, r) ∈ stash_before (st !!! y) /\ shared_blocks st x y r);
  ro_use : forall x k r, x ∈ ts -> (k, r) ∈ use_stash (st !!! x) ->
    exists y, y ∈ ts /\ edge st y x /\ (k, r) ∈ stash_before (st !!! y) /\ shared_blocks st x y r;
  ro_table : stash_table ts st
}.

Lemma ReverseBackwardEdges_ok s :
  let st := sq_store s in let ts := sq_transfers s in
  NoDup ts -> ordered s -> ranges_ok st ts -> graph_ok ts st ->
  (forall x y, x ∈ ts -> edge st x y <-> y ∈ ts /\ x <> y /\ conflict st y x) ->
  (forall x, x ∈ ts -> stash_before (st !!! x) = [] /\ use_stash (st !!! x) = []) ->
  exists s', ReverseBackwardEdges s = Ok s' /\ sq_transfers s' = ts /\
    same_on revfields st (sq_store s') /\ rev_ok ts (sq_store s').
Proof.
  intros st ts Hnd Hord Hr Hg He Hs. unfold ReverseBackwardEdges. fold st ts.
  assert (forall x y, x ∈ ts -> y ∈ ts -> order (st !!! x) = order (st !!! y) -> x = y) as Hinj.
  { intros x y [i Hi]%list_elem_of_lookup [j Hj]%list_elem_of_lookup Heq.
    pose proof (Hord i x Hi) as Hi'. pose proof (Hord j y Hj) as Hj'. fold st in Hi', Hj'.
    assert (i = j) by lia. congruence. }
  destruct (foldM_ok (fun pre '(t, id) => rinv st ts (fun x _ => x ∈ pre) t id)
    (fun acc xf => foldM (reverse_edge xf) acc (od_keys (goes_before (acc.1 !!! xf)))) (st, 0) ts)
    as ([t id] & -> & HR).
  - eapply rinv_iff; [|by apply rinv_start]. intros x y _ _ _. by rewrite elem_of_nil.
  - intros pre xf post [t id] Hl HR. simpl.
    destruct (rinv_vertex st ts Hr He Hinj Hs pre t id xf) as (t' & id' & Hf & HR'); try done.
    + rewrite Hl, elem_of_app. right. by left.
    + rewrite Hl in Hnd. apply NoDup_app in Hnd as (_ & Hd & _). intros Hp. apply (Hd xf Hp). by left.
    + by exists (t', id').
  - eexists. split; [done|]. split; [done|]. simpl.
    destruct (same_revfields _ _ (ri_rest _ _ _ _ _ HR)) as [Hst Hor].
    assert (forall x y, x ∈ ts -> edge t x y <-> y ∈ ts /\
      ((edge st x y /\ ~ backward st x y) \/ (edge st y x /\ backward st y x))) as HE.
    { intros x y Hx. rewrite (ri_edge _ _ _ _ _ HR) by done. split; [|tauto]. intros [Hy ?]. tauto. }
    destruct HR as [R1 R2 R3 R4 R5 R6 R7 R8 R9 R10]. split; [exact R1|]. split; try done.
    + intros x y Hx Hxy. by apply HE in Hxy as [? _].
    + intros x y Hy. split.
      * intros Hin. assert (x ∈ ts) as Hx by by eapply R6. split; [done|]. by apply R5.
      * intros [Hx Hxy]. by apply R5.
    + intros x y Hx Hxy. apply HE in Hxy as (Hy & [(HE0 & Hb)|(HE0 & Hb)]); [| |done]; unfold backward in Hb; rewrite !Hor; [lia|].
      apply He in HE0 as (_ & Hne & _); [|done]. enough (order (st !!! y) <> order (st !!! x)) by lia.
      intros Heq. apply Hne. by apply Hinj.
    + intros x y Hx Hy Hne Hc. apply (conflict_same _ _ _ _ Hst) in Hc.
      assert (edge st x y) as HE0 by by apply He.
      destruct (Z.ltb_spec (order (st !!! x)) (order (st !!! y))) as [Hlt|Hle].
      * left. apply HE; [done|]. split; [done|]. left. split; [done|]. unfold backward. lia.
      * right. split; [apply HE; [done|]; split; [done|]; by right|].
        destruct (R7 x y Hx HE0 Hle Hx) as (k & r & ? & ? & ?). exists k, r. split_and!; try done.
        by apply (shared_blocks_same st).
    + intros x k r Hx Hk. destruct (R8 x k r Hx Hk) as (y & Hy & HE0 & Hb & _ & ? & ?). exists y.
      split_and!; try done; [|by apply (shared_blocks_same st)]. apply HE; [done|]. split; [done|]. by right.
Qed.
