(* ===== verification/TopoSort.v ===== *)
(** [ImproveVertexSequence]: Kahn's algorithm with a heap.  On the acyclic graph
    [ReverseBackwardEdges] leaves, it emits every vertex once, after all its
    predecessors, and its final assertion holds. *)

From S2P Require Export EdgeReversal.

#[local] Open Scope Z_scope.

(** Every predecessor of a vertex comes before it. *)
Definition topological (E : tid -> tid -> Prop) (l : list tid) : Prop :=
  forall pre x post, l = pre ++ x :: post -> forall y, E y x -> y ∈ pre.

Lemma topological_snoc E l x : topological E l -> (forall y, E y x -> y ∈ l) -> topological E (l ++ [x]).
Proof.
  intros Hl Hx pre z post Heq y HE. destruct post as [|w post _] using rev_ind.
  - apply app_inj_tail in Heq as [<- <-]. by apply Hx.
  - rewrite app_comm_cons, app_assoc in Heq. apply app_inj_tail in Heq as [-> _].
    by apply (Hl pre z post).
Qed.

Section topo.
Context (st0 : store) (ts : list tid) (Hts : NoDup ts) (Hrev : rev_ok ts st0).

Definition pred (y x : tid) : Prop := y ∈ ts /\ edge st0 y x.

Definition ids (heap : list ready) : list tid := map snd heap.

Lemma elem_of_ids_push st heap u x : x ∈ ids (heappush ready_ltb heap (ready_of st u)) <-> x = u \/ x ∈ ids heap.
Proof. unfold ids. rewrite heappush_perm. simpl. by rewrite elem_of_cons. Qed.

Lemma NoDup_ids_push st heap u L :
  NoDup (ids heap ++ L) -> u ∉ ids heap ++ L -> NoDup (ids (heappush ready_ltb heap (ready_of st u)) ++ L).
Proof. intros Hn Hu. unfold ids. rewrite heappush_perm. simpl. by constructor. Qed.

(** The invariant between two vertices, and, with [p] the successors of the
    last element of [L] already handled, within one.  [gone y x]: the edge from
    [y] to [x] has been removed. *)
Record tinv (gone : tid -> tid -> Prop) (t : store) (heap : list ready) (L : list tid) : Prop := {
  ti_fixed : same_on fixed st0 t;
  ti_out : forall x, x ∈ ts -> outgoing (t !!! x) = goes_before (st0 !!! x);
  ti_NoDup : NoDup (ids heap ++ L);
  ti_in_nd : forall x, x ∈ ts -> NoDup (od_keys (incoming (t !!! x)));
  ti_in : forall x y, x ∈ ts -> y ∈ od_keys (incoming (t !!! x)) <-> pred y x /\ ~ gone y x;
  ti_ready : forall x, x ∈ ids heap ++ L <-> x ∈ ts /\ incoming (t !!! x) = [];
  ti_topo : topological pred L
}.

Lemma no_keys (d : edges) : d = [] <-> forall y, y ∉ od_keys d.
Proof.
  split; [by intros -> y ?%elem_of_nil|]. destruct d as [|[k v] d]; [done|].
  intros H. exfalso. apply (H k). by left.
Qed.

Lemma release_ok gone t heap L xf u :
  tinv gone t heap L -> pred xf u -> u ∈ ts -> ~ gone xf u ->
  exists t' heap', release xf (t, heap) u = Ok (t', heap') /\
    tinv (fun y x => gone y x \/ (y = xf /\ x = u)) t' heap' L.
Proof.
  intros [T1 T2 T3 T4 T5 T6 T7] Hp Hu Hg. unfold release.
  assert (xf ∈ od_keys (incoming (t !!! u))) as Hin by by apply T5.
  destruct (od_pop_ok xf _ Hin) as (w & _ & Hpop). unfold od_del. rewrite Hpop.
  destruct (od_keys_remove xf _ (T4 u Hu)) as [Hnd Hkeys].
  set (inc := od_remove xf (incoming (t !!! u))) in *.
  assert (forall x, incoming (upd u (set_incoming inc) t !!! x) = if decide (u = x) then inc else incoming (t !!! x)) as Hinc.
  { intros x. rewrite lookup_total_upd. case_decide; [|done]. by destruct (t !!! u). }
  assert (u ∉ ids heap ++ L) as Hnew.
  { intros [_ Hnil]%T6. rewrite Hnil in Hin. by apply elem_of_nil in Hin. }
  eexists _, _. split; [done|]. split; try done.
  - by apply same_on_trans_upd; [setter|].
  - intros x Hx. rewrite <- T2 by done. apply upd_field. setter.
  - destruct inc; [by apply NoDup_ids_push|done].
  - intros x Hx. rewrite Hinc. case_decide; [done|by apply T4].
  - intros x y Hx. rewrite Hinc. case_decide as Hd; [subst; rewrite Hkeys|]; rewrite T5 by done; naive_solver.
  - intros x. rewrite Hinc. case_decide as Hd.
    + subst. destruct inc; [|split; [done|by intros [_ ?]]].
      rewrite elem_of_app, elem_of_ids_push. split; [done|]. intros _. by do 2 left.
    + rewrite <- T6. destruct inc; [|done]. rewrite !elem_of_app, elem_of_ids_push.
      split; [intros [[?|?]|?]; [congruence|by left|by right]|intros [?|?]; [by left; right|by right]].
Qed.

Lemma release_all_ok t heap L xf :
  tinv (fun y x => y ∈ L) t heap (L ++ [xf]) -> xf ∈ ts -> xf ∉ L ->
  exists t' heap', foldM (release xf) (t, heap) (od_keys (outgoing (t !!! xf))) = Ok (t', heap') /\
    tinv (fun y x => y ∈ L ++ [xf]) t' heap' (L ++ [xf]).
Proof.
  intros HT Hxf HxL. rewrite (ti_out _ _ _ _ HT) by done.
  destruct (foldM_ok (fun p '(t', heap') => tinv (fun y x => y ∈ L \/ (y = xf /\ x ∈ p)) t' heap' (L ++ [xf]))
    (release xf) (t, heap) (od_keys (goes_before (st0 !!! xf)))) as ([t' heap'] & Hf & HT').
  - destruct HT as [T1 T2 T3 T4 T5 T6 T7]. split; try done. intros x y Hx. rewrite T5 by done.
    rewrite elem_of_nil. tauto.
  - intros p u post [t1 h1] Hl HT1. destruct (release_ok _ t1 h1 (L ++ [xf]) xf u HT1) as (t2 & h2 & -> & HT2).
    + split; [done|]. unfold edge. rewrite Hl, elem_of_app. right. by left.
    + apply (ro_before_in ts st0 Hrev xf); [done|]. unfold edge. rewrite Hl, elem_of_app. right. by left.
    + intros [?|[_ Hup]]; [done|]. pose proof (ro_before_nd ts st0 Hrev xf Hxf) as Hnd. rewrite Hl in Hnd.
      apply NoDup_app in Hnd as (_ & Hd & _). apply (Hd u Hup). by left.
    + exists (t2, h2). split; [done|]. destruct HT2 as [T1 T2 T3 T4 T5 T6 T7]. split; try done.
      intros x y Hx. rewrite T5 by done. rewrite elem_of_app, list_elem_of_singleton. tauto.
  - exists t', heap'. split; [done|]. destruct HT' as [T1 T2 T3 T4 T5 T6 T7]. split; try done.
    intros x y Hx. rewrite T5 by done. rewrite elem_of_app, list_elem_of_singleton. split; [|tauto].
    intros [[Hy HE] Hn]. split; [done|]. intros [?| ->]; [tauto|]. apply Hn. by right.
Qed.

Lemma topo_loop_ok fuel t heap L :
  tinv (fun y x => y ∈ L) t heap L -> (length ts < length L + fuel)%nat ->
  exists t' L', topo_loop fuel t heap L = Ok (t', L') /\ tinv (fun y x => y ∈ L') t' [] L'.
Proof.
  revert t heap L. induction fuel as [|fuel IH]; intros t heap L HT Hfuel.
  - exfalso. enough (length L <= length ts)%nat by lia.
    apply NoDup_incl_length.
    { pose proof (ti_NoDup _ _ _ _ HT) as (_ & _ & Hn)%NoDup_app. by apply NoDup_ListNoDup. }
    intros x Hx. apply list_elem_of_In. apply (ti_ready _ _ _ _ HT). rewrite elem_of_app. right. by apply list_elem_of_In.
  - destruct heap as [|h0 heap0]; [by exists t, L|]. cbn [topo_loop].
    destruct (heappop_ok ready_ltb (h0 :: heap0)) as (x & heap & Hpop); [done|]. rewrite Hpop.
    apply heappop_perm in Hpop. set (xf := x.2) in *.
    assert (ids (h0 :: heap0) ≡ₚ xf :: ids heap) as Hids by (unfold ids; by rewrite Hpop).
    destruct HT as [T1 T2 T3 T4 T5 T6 T7].
    assert (xf ∈ ts /\ incoming (t !!! xf) = []) as [Hxf Hnil].
    { apply T6. rewrite Hids. by left. }
    assert (NoDup (ids heap ++ L ++ [xf])) as Hnd.
    { assert (ids heap ++ L ++ [xf] ≡ₚ ids (h0 :: heap0) ++ L) as -> by (rewrite Hids; solve_Permutation). done. }
    assert (xf ∉ L) as HxL.
    { apply NoDup_app in Hnd as (_ & _ & (_ & Hd & _)%NoDup_app). intros Hx. apply (Hd xf Hx). by left. }
    destruct (release_all_ok t heap L xf) as (t' & heap' & -> & HT'); [split; try done|done..|].
    + intros y. rewrite <- T6, Hids. rewrite !elem_of_app, !elem_of_cons, elem_of_nil. tauto.
    + apply topological_snoc; [done|]. intros y Hy. destruct (decide (y ∈ L)) as [?|Hn]; [done|]. exfalso.
      apply (proj1 (no_keys _) Hnil y). by apply T5.
    + apply IH; [done|]. rewrite length_app. simpl. lia.
Qed.
End topo.

Lemma copy_edges_ok st ts :
  same_on fixed st (copy_edges st ts) /\
  forall x, x ∈ ts -> outgoing (copy_edges st ts !!! x) = goes_before (st !!! x) /\
                      incoming (copy_edges st ts !!! x) = goes_after (st !!! x).
Proof.
  unfold copy_edges.
  assert (forall l pre t, same_on fixed st t ->
    (forall x, x ∈ pre -> outgoing (t !!! x) = goes_before (st !!! x) /\ incoming (t !!! x) = goes_after (st !!! x)) ->
    let t' := fold_left (fun st i => upd i (fun x => set_outgoing (goes_before x) (set_incoming (goes_after x) x)) st) l t in
    same_on fixed st t' /\ forall x, x ∈ pre ++ l ->
      outgoing (t' !!! x) = goes_before (st !!! x) /\ incoming (t' !!! x) = goes_after (st !!! x)) as Hgen.
  { induction l as [|i l IH]; intros pre t Hs He; simpl; [by rewrite app_nil_r|].
    replace (pre ++ i :: l) with ((pre ++ [i]) ++ l) by by rewrite <- app_assoc.
    apply (IH (pre ++ [i])); [apply same_on_trans_upd; [setter|done]|].
    intros x Hx. rewrite lookup_total_upd. case_decide as Hd.
    - subst. destruct (same_fixed st t x Hs) as (_ & <- & <- & _). by destruct (t !!! x).
    - apply He. set_solver. }
  apply (Hgen ts [] st); [done|]. by intros x ?%elem_of_nil.
Qed.

(** [ImproveVertexSequence] emits every transfer once, in an order compatible
    with all the edges. *)
Lemma ImproveVertexSequence_ok s :
  let st := sq_store s in let ts := sq_transfers s in
  NoDup ts -> ordered s -> rev_ok ts st ->
  exists s', ImproveVertexSequence s = Ok s' /\ sq_transfers s' ≡ₚ ts /\
    same_on fixed st (sq_store s') /\ ordered s' /\
    topological (pred st ts) (sq_transfers s').
Proof.
  intros st ts Hnd Hord Hrev. unfold ImproveVertexSequence. fold st ts.
  destruct (copy_edges_ok st ts) as [Hs He]. set (st1 := copy_edges st ts) in *.
  set (S0 := heapify _ _).
  assert (forall x, x ∈ ids S0 <-> x ∈ ts /\ incoming (st1 !!! x) = []) as HS0.
  { intros x. unfold ids, S0. rewrite heapify_perm, map_map, map_id, list_elem_of_filter. tauto. }
  destruct (topo_loop_ok st ts Hrev (S (length ts)) st1 S0 []) as (t' & L & -> & HT).
  - split; try done.
    + intros x Hx. by apply He.
    + rewrite app_nil_r. unfold ids, S0. rewrite heapify_perm, map_map, map_id. by apply NoDup_filter.
    + intros x Hx. rewrite (proj2 (He x Hx)). by apply (ro_after_nd ts st Hrev).
    + intros x y Hx. rewrite (proj2 (He x Hx)), (ro_after ts st Hrev) by done. unfold pred.
      rewrite elem_of_nil. tauto.
    + intros x. rewrite app_nil_r. apply HS0.
    + by intros [] x post.
  - simpl. lia.
  - destruct HT as [T1 T2 T3 T4 T5 T6 T7]. simpl in T3, T6.
    assert (forall k x, ts !! k = Some x -> x ∈ L) as Hall.
    { intros k. induction (lt_wf k) as [k _ IH]. intros x Hk. apply T6.
      assert (x ∈ ts) as Hx by by eapply list_elem_of_lookup_2. split; [done|].
      apply no_keys. intros y [[Hy HE] Hn]%T5; [|done]. apply Hn.
      apply list_elem_of_lookup in Hy as Hj. destruct Hj as [j Hj]. apply (IH j); [|done].
      pose proof (ro_forward ts st Hrev y x Hy HE) as Hlt.
      pose proof (Hord j y Hj) as H1. pose proof (Hord k x Hk) as H2. fold st in H1, H2. lia. }
    assert (L ≡ₚ ts) as Hperm.
    { apply NoDup_Permutation; [done..|]. intros x. split; [intros Hx; by apply T6|].
      intros [k Hk]%list_elem_of_lookup. by eapply Hall. }
    rewrite (Permutation_length Hperm), Nat.eqb_refl. eexists. split; [done|]. simpl. split_and!; try done.
    + transitivity t'; [done|]. apply set_orders_same. by intros ? [].
    + apply set_orders_ok. by rewrite Hperm.
Qed.
