(* ===== verification/SequenceCheck.v ===== *)
(** [FindSequenceForTransfers] as a whole: the sequence found always passes the check
    [AssertSequenceGood], which decides a declarative property of a sequence: nothing
    is written twice, nothing is read after it was written unless it was stashed, and
    every block of the care map is written. *)

From S2P Require Export TopoSort.

#[local] Open Scope Z_scope.

(** * The sequence found *)

(** A transfer that comes after the writer of a block it reads has that block
    in a stash the writer has saved; a stash is saved once. *)
Record sequenced (st : store) (ts : list tid) : Prop := {
  sq_conflict : forall pre x post y, ts = pre ++ x :: post -> y ∈ pre -> conflict st y x ->
    exists k r, (k, r) ∈ use_stash (st !!! x) /\ (k, r) ∈ stash_before (st !!! y) /\ shared_blocks st x y r;
  sq_use : forall pre x post k r, ts = pre ++ x :: post -> (k, r) ∈ use_stash (st !!! x) ->
    exists y, y ∈ pre /\ (k, r) ∈ stash_before (st !!! y) /\ shared_blocks st x y r;
  sq_table : stash_table ts st
}.

Lemma NoDup_split_order (ts pre post pre' post' : list tid) x y :
  NoDup ts -> ts = pre ++ x :: post -> ts = pre' ++ y :: post' -> y ∈ pre -> x ∉ pre'.
Proof.
  intros Hnd -> H2 Hy Hx. apply list_elem_of_split in Hy as (a & b & ->).
  rewrite <- app_assoc in H2. simpl in H2.
  assert (length a = length pre') as Hlen.
  { assert ((pre' ++ y :: post') !! length a = Some y) as H.
    { rewrite <- H2. by apply list_lookup_middle. }
    rewrite <- app_assoc in Hnd. simpl in Hnd. rewrite H2 in Hnd.
    eapply NoDup_lookup; [exact Hnd|exact H|]. by apply list_lookup_middle. }
  apply app_inj_1 in H2 as [-> _]; [|done].
  rewrite <- app_assoc in Hnd. apply NoDup_app in Hnd as (_ & Hd & _).
  apply (Hd x Hx). right. apply elem_of_app. right. by left.
Qed.

Lemma rev_topo_sequenced st0 ts st l :
  NoDup ts -> rev_ok ts st0 -> same_on fixed st0 st -> l ≡ₚ ts -> topological (pred st0 ts) l -> sequenced st l.
Proof.
  intros Hnd Hrev Hs Hperm Htopo.
  assert (forall i, use_stash (st !!! i) = use_stash (st0 !!! i)) as Hu by (intros i; by apply same_fixed).
  assert (forall i, stash_before (st !!! i) = stash_before (st0 !!! i)) as Hb by (intros i; by apply same_fixed).
  pose proof (same_fixed_statics _ _ Hs) as Hst.
  assert (NoDup l) as Hnl by by rewrite Hperm.
  split.
  - intros pre x post y Hl Hy Hc.
    assert (x ∈ ts) as Hx by (rewrite <- Hperm, Hl, elem_of_app; right; by left).
    assert (y ∈ ts) as Hyt by (rewrite <- Hperm, Hl, elem_of_app; by left).
    assert (x <> y) as Hne.
    { intros <-. rewrite Hl in Hnl. apply NoDup_app in Hnl as (_ & Hd & _). apply (Hd x Hy). by left. }
    apply (conflict_same _ _ _ _ Hst) in Hc.
    destruct (ro_conflict ts st0 Hrev x y Hx Hyt Hne Hc) as [HE|(_ & k & r & H1 & H2 & H3)].
    + exfalso. apply list_elem_of_split in Hy as Hys. destruct Hys as (a & b & Hpre).
      assert (l = a ++ y :: (b ++ x :: post)) as Hl' by (rewrite Hl, Hpre, <- app_assoc; done).
      assert (x ∈ a) as Hxa by (by apply (Htopo a y _ Hl')).
      by apply (NoDup_split_order l pre post a (b ++ x :: post) x y Hnl Hl Hl' Hy).
    + exists k, r. rewrite Hu, Hb. split_and!; try done. by apply (shared_blocks_same st0).
  - intros pre x post k r Hl Hk. rewrite Hu in Hk.
    assert (x ∈ ts) as Hx by (rewrite <- Hperm, Hl, elem_of_app; right; by left).
    destruct (ro_use ts st0 Hrev x k r Hx Hk) as (y & Hy & HE & Hkb & Hsh). exists y. rewrite Hb.
    split_and!; [|done|by apply (shared_blocks_same st0)]. by apply (Htopo pre x post Hl).
  - apply (stash_table_perm ts); [done|]. by apply (stash_table_same ts st0); [|apply Hrev].
Qed.

Lemma clear_dependencies_ok s :
  let st' := sq_store (clear_dependencies s) in
  same_on statics (sq_store s) st' /\
  forall i, i ∈ sq_transfers s -> goes_before (st' !!! i) = [] /\ goes_after (st' !!! i) = [] /\
    stash_before (st' !!! i) = [] /\ use_stash (st' !!! i) = [].
Proof.
  unfold clear_dependencies. simpl. split.
  - apply foldl_same_on. intros st i. apply same_on_upd. setter.
  - assert (forall l pre st, (forall i, i ∈ pre -> goes_before (st !!! i) = [] /\ goes_after (st !!! i) = [] /\
      stash_before (st !!! i) = [] /\ use_stash (st !!! i) = []) ->
      let st' := fold_left (fun st i => upd i (fun x => set_use_stash [] (set_stash_before []
                   (set_goes_after [] (set_goes_before [] x)))) st) l st in
      forall i, i ∈ pre ++ l -> goes_before (st' !!! i) = [] /\ goes_after (st' !!! i) = [] /\
        stash_before (st' !!! i) = [] /\ use_stash (st' !!! i) = []) as Hgen.
    { induction l as [|j l IH]; intros pre st Hpre; simpl; [by rewrite app_nil_r|].
      replace (pre ++ j :: l) with ((pre ++ [j]) ++ l) by by rewrite <- app_assoc.
      apply IH. intros i Hi. rewrite lookup_total_upd. case_decide; [subst; by destruct (st !!! i)|].
      apply Hpre. set_solver. }
    apply (Hgen _ []). by intros i ?%elem_of_nil.
Qed.

Lemma FindSequenceForTransfers_ok s :
  let ts := sq_transfers s in
  NoDup ts -> ranges_ok (sq_store s) ts ->
  exists s', FindSequenceForTransfers s = Ok s' /\ sq_transfers s' ≡ₚ ts /\
    same_on statics (sq_store s) (sq_store s') /\ ordered s' /\ sequenced (sq_store s') (sq_transfers s').
Proof.
  intros ts Hnd Hr. unfold FindSequenceForTransfers.
  destruct (clear_dependencies_ok s) as [Hs0 H0]. set (s0 := clear_dependencies s) in *.
  assert (sq_transfers s0 = ts) as Ht0 by done.
  destruct (GenerateDigraph_ok s0) as (s1 & -> & Ht1 & Hs1 & Hg1 & Hw1 & He1).
  { rewrite Ht0. by eapply ranges_ok_same. }
  { intros i Hi. by destruct (H0 i Hi) as (? & ? & _). }
  rewrite Ht0 in *. pose proof (same_seqfields_statics _ _ Hs1) as Hst1.
  destruct (FindVertexSequence_ok s1) as (s2 & -> & Ht2 & Hs2 & Hord2); rewrite ?Ht1; try done.
  { intros x Hx HE. apply He1 in HE as (_ & ? & _); done. }
  rewrite Ht1 in Ht2. pose proof (same_fixed_statics _ _ Hs2) as Hst2.
  assert (NoDup (sq_transfers s2)) as Hnd2 by by rewrite Ht2.
  assert (forall x y, edge (sq_store s2) x y <-> edge (sq_store s1) x y) as HE2.
  { intros x y. unfold edge. by destruct (same_fixed _ _ x Hs2) as (_ & -> & _). }
  destruct (ReverseBackwardEdges_ok s2) as (s3 & -> & Ht3 & Hs3 & Hrev); try done.
  { apply (ranges_ok_same (sq_store s1)); [done|]. apply (ranges_ok_same (sq_store s0)); [done|].
    apply (ranges_ok_same (sq_store s)); [done|]. intros i Hi. apply Hr. by rewrite <- Ht2. }
  { apply (graph_ok_same _ (sq_store s1)); [done|]. by apply (graph_ok_perm ts). }
  { intros x y Hx. assert (x ∈ ts) as Hx' by by rewrite <- Ht2. rewrite HE2, He1 by done. rewrite Ht2.
    by rewrite (conflict_same (sq_store s1) (sq_store s2)). }
  { intros x Hx. destruct (same_fixed _ _ x Hs2) as (_ & _ & _ & -> & ->).
    destruct (H0 x) as (_ & _ & Hsb & Hus); [change (x ∈ ts); by rewrite <- Ht2|].
    split; [etrans; [exact (f_equal (fun p => p.1.2) (Hs1 x))|exact Hsb]
           |etrans; [exact (f_equal (fun p => p.2) (Hs1 x))|exact Hus]]. }
  destruct (same_revfields _ _ Hs3) as [Hst3 Hor3].
  destruct (ImproveVertexSequence_ok s3) as (s4 & -> & Ht4 & Hs4 & Hord4 & Htopo); rewrite ?Ht3; try done.
  { intros k i. rewrite Ht3, Hor3. apply Hord2. }
  rewrite Ht3 in *. exists s4. split; [done|]. split_and!; try done.
  - by rewrite Ht4.
  - transitivity (sq_store s3); [|by apply same_fixed_statics]. transitivity (sq_store s2); [|done].
    transitivity (sq_store s1); [|done]. by transitivity (sq_store s0).
  - by apply (rev_topo_sequenced (sq_store s3) (sq_transfers s2)).
Qed.

(** * The touched array *)

Section touched.
Context (total : Z).

(** The array represents the set [P] of blocks below [total]. *)
Definition touched_by (touched : list bool) (P : Z -> Prop) : Prop :=
  Z.of_nat (length touched) = total /\
  forall i, 0 <= i < total -> touched !! Z.to_nat i = Some true <-> P i.

Lemma touched_by_iff t P Q : (forall i, P i <-> Q i) -> touched_by t P -> touched_by t Q.
Proof. intros H [H1 H2]. split; [done|]. intros i Hi. rewrite H2; done. Qed.

Lemma touched_get t P i : touched_by t P -> 0 <= i ->
  (i < total /\ exists b, py_get t i = Ok b /\ (b = true <-> P i)) \/ (total <= i /\ py_get t i = Raise IndexError).
Proof.
  intros [Hl HP] Hi. destruct (Z.ltb_spec i total) as [Hlt|Hge].
  - left. split; [done|]. destruct (py_get_Z t i) as (b & Hb & Hg); [lia|]. exists b. split; [done|].
    rewrite <- HP by lia. rewrite Hb. naive_solver.
  - right. split; [done|]. unfold py_get, py_idx. zcases.
Qed.

Lemma check_untouched_iff t P i : touched_by t P -> 0 <= i ->
  check_untouched t i = Ok tt <-> i < total /\ ~ P i.
Proof.
  intros Ht Hi. unfold check_untouched.
  destruct (touched_get t P i Ht Hi) as [(Hlt & b & -> & Hb)|[Hge ->]]; [|split; [done|lia]].
  destruct b; simpl; naive_solver.
Qed.

Lemma touch_block_iff t P i : touched_by t P -> 0 <= i ->
  (forall t', touch_block t i = Ok t' -> (i < total /\ ~ P i) /\ touched_by t' (fun j => P j \/ j = i)) /\
  (i < total /\ ~ P i -> is_ok (touch_block t i) = true).
Proof.
  intros Ht Hi. unfold touch_block. pose proof (check_untouched_iff t P i Ht Hi) as Hc.
  destruct (check_untouched t i) as [[]|]; [|split; [done|]; intros H; by apply Hc in H].
  destruct (proj1 Hc eq_refl) as [Hlt Hn]. destruct Ht as [Hl HP]. rewrite py_set_nonneg by lia. split; [|done].
  intros t' [= <-]. split; [done|]. split; [by rewrite length_insert|]. intros j Hj.
  destruct (decide (j = i)) as [->|Hne].
  - rewrite list_lookup_insert_eq by lia. naive_solver.
  - rewrite list_lookup_insert_ne by lia. rewrite HP by done. naive_solver.
Qed.

Lemma touch_blocks_iff l : forall t P, touched_by t P -> NoDup l -> Forall (Z.le 0) l ->
  (forall t', foldM touch_block t l = Ok t' ->
     (forall b, b ∈ l -> b < total /\ ~ P b) /\ touched_by t' (fun j => P j \/ j ∈ l)) /\
  ((forall b, b ∈ l -> b < total /\ ~ P b) -> is_ok (foldM touch_block t l) = true).
Proof.
  induction l as [|i l IH]; intros t P Ht Hnd Hpos; simpl.
  - split; [|done]. intros t' [= <-]. split; [by intros b ?%elem_of_nil|].
    eapply touched_by_iff; [|exact Ht]. intros j. rewrite elem_of_nil. tauto.
  - apply NoDup_cons in Hnd as [Hil Hnd]. apply Forall_cons in Hpos as [Hi Hpos].
    destruct (touch_block_iff t P i Ht Hi) as [H1 H2]. destruct (touch_block t i) as [t1|].
    + destruct (H1 t1 eq_refl) as [Hok Ht1]. destruct (IH t1 _ Ht1 Hnd Hpos) as [IH1 IH2]. split.
      * intros t' Hf. destruct (IH1 t' Hf) as [Hall Ht']. split.
        -- intros b [->|Hb]%elem_of_cons; [done|]. destruct (Hall b Hb). tauto.
        -- eapply touched_by_iff; [|exact Ht']. intros j. rewrite elem_of_cons. tauto.
      * intros Hall. apply IH2. intros b Hb. destruct (Hall b) as [? Hn]; [by right|]. split; [done|].
        intros [?| ->]; done.
    + split; [done|]. intros Hall. apply H2, Hall. by left.
Qed.

Lemma check_reads_iff t P r : touched_by t P -> wf r -> nonneg r ->
  check_reads total t r = Ok tt <-> forall b, b ∈ r -> b < total -> ~ P b.
Proof.
  intros Ht Hw Hn. unfold check_reads.
  rewrite (foldM_ext _ (fun _ p => foldM (fun _ i => check_untouched t i) tt (zrange p.1 (Z.min p.2 total))))
    by by intros s [].
  rewrite foldM_unit_iff. setoid_rewrite foldM_unit_iff. split.
  - intros H b Hb Hlt. apply (elem_of_pairs b _ Hw) in Hb as (s & e & Hse & Hb).
    pose proof (wf_pairs_nonneg r Hw Hn s e Hse).
    apply (check_untouched_iff t P b Ht); [lia|]. apply (H (s, e) Hse). apply elem_of_zrange. simpl. lia.
  - intros H [s e] Hse b Hb%elem_of_zrange. simpl in Hb. pose proof (wf_pairs_nonneg r Hw Hn s e Hse).
    apply (check_untouched_iff t P b Ht); [lia|]. split; [lia|]. apply H; [|lia].
    apply (elem_of_pairs b _ Hw). exists s, e. split; [done|lia].
Qed.

Lemma check_writes_iff t P r : touched_by t P -> wf r -> nonneg r ->
  (forall t', check_writes t r = Ok t' ->
     (forall b, b ∈ r -> b < total /\ ~ P b) /\ touched_by t' (fun j => P j \/ j ∈ r)) /\
  ((forall b, b ∈ r -> b < total /\ ~ P b) -> is_ok (check_writes t r) = true).
Proof.
  intros Ht Hw Hn.
  assert (check_writes t r = foldM touch_block t (next_item r)) as ->.
  { unfold check_writes, next_item, items, rs_iter. rewrite <- foldM_flat_map. apply foldM_ext. by intros s []. }
  destruct (touch_blocks_iff (next_item r) t P Ht) as [H1 H2].
  - by apply NoDup_items.
  - apply list.Forall_forall. intros b Hb. apply Hn. by apply elem_of_next_item.
  - split.
    + intros t' Hf. destruct (H1 t' Hf) as [Ha Ht']. split.
      * intros b Hb. apply Ha. by apply elem_of_next_item.
      * eapply touched_by_iff; [|exact Ht']. intros j. simpl. by rewrite elem_of_next_item.
    + intros Ha. apply H2. intros b Hb. apply Ha. by apply elem_of_next_item.
Qed.
End touched.

(** * Transfers *)

Definition stashes_ok (st : store) (ts : list tid) : Prop :=
  forall x k r, x ∈ ts -> (k, r) ∈ use_stash (st !!! x) -> wf r.

(** [b] is read by [x] from the device, not from a stash. *)
Definition reads_device (x : Transfer) (b : Z) : Prop :=
  b ∈ src_ranges x /\ forall k r, (k, r) ∈ use_stash x -> b ∉ r.

Lemma unstashed_ok x : wf (src_ranges x) -> (forall k r, (k, r) ∈ use_stash x -> wf r) ->
  exists r, unstashed x = Ok r /\ wf r /\ forall b, b ∈ r <-> reads_device x b.
Proof.
  intros Hw Hs. unfold unstashed, reads_device.
  destruct (foldM_ok (fun pre r => wf r /\ forall b, b ∈ r <-> b ∈ src_ranges x /\ forall k q, (k, q) ∈ pre -> b ∉ q)
    (fun r '(_, sr) => subtract r sr) (src_ranges x) (use_stash x)) as (r & Hf & Hwr & Hr).
  - split; [done|]. intros b. split; [|tauto]. intros Hb. split; [done|]. by intros k q ?%elem_of_nil.
  - intros pre [k q] post t Hl [Hwt Ht].
    assert (wf q) as Hq by (apply (Hs k); rewrite Hl, elem_of_app; right; by left).
    destruct (subtract_ok t q Hwt Hq) as (t' & Ht' & Hwt' & Hb'). exists t'. split_and!; try done.
    intros b. rewrite Hb', Ht. setoid_rewrite elem_of_app. setoid_rewrite list_elem_of_singleton. naive_solver.
  - by exists r.
Qed.

(** What the check demands of the transfer [x] when the blocks [P] have been
    written. *)
Definition transfer_good (total : Z) (x : Transfer) (P : Z -> Prop) : Prop :=
  (forall b, reads_device x b -> b < total -> ~ P b) /\
  (forall b, b ∈ tgt_ranges x -> b < total /\ ~ P b).

Lemma check_transfer_iff total t P x :
  touched_by total t P ->
  wf (src_ranges x) -> nonneg (src_ranges x) -> wf (tgt_ranges x) -> nonneg (tgt_ranges x) ->
  (forall k r, (k, r) ∈ use_stash x -> wf r) ->
  (forall t', check_transfer total t x = Ok t' ->
     transfer_good total x P /\ touched_by total t' (fun j => P j \/ j ∈ tgt_ranges x)) /\
  (transfer_good total x P -> is_ok (check_transfer total t x) = true).
Proof.
  intros Ht Hws Hns Hwt Hnt Hst. unfold check_transfer, transfer_good.
  destruct (unstashed_ok x Hws Hst) as (r & -> & Hwr & Hr).
  assert (nonneg r) as Hnr by (intros b Hb; apply Hns; by apply Hr in Hb as [? _]).
  pose proof (check_reads_iff total t P r Ht Hwr Hnr) as Hreads.
  destruct (check_writes_iff total t P _ Ht Hwt Hnt) as [H1 H2].
  destruct (check_reads total t r) as [[]|].
  - assert (forall b, reads_device x b -> b < total -> ~ P b) as Hrd.
    { intros b Hb. apply Hreads; [done|]. by apply Hr. }
    split; [intros t' Hf; by destruct (H1 t' Hf)|]. intros [_ Hw]. by apply H2.
  - split; [done|]. intros [Hrd _]. exfalso. enough (@Raise unit e = Ok tt) by done.
    apply Hreads. intros b Hb. apply Hrd. by apply Hr.
Qed.

(** * The sequence *)

Section good.
Context (tgt : Image) (st : store) (ts : list tid).
Context (Hr : ranges_ok st ts) (Hs : stashes_ok st ts).
Context (Hcare : wf (care_map tgt)) (Hncare : nonneg (care_map tgt)).
Context (Htotal : 0 <= total_blocks tgt).

Definition written (l : list tid) (b : Z) : Prop := exists y, y ∈ l /\ b ∈ tgt_ranges (st !!! y).

(** The property the check decides. *)
Definition sequence_good : Prop :=
  (forall pre x post, ts = pre ++ x :: post -> transfer_good (total_blocks tgt) (st !!! x) (written pre)) /\
  (forall b, b ∈ care_map tgt -> b < total_blocks tgt /\ written ts b).

Lemma check_transfers_iff post : forall pre t,
  ts = pre ++ post -> touched_by (total_blocks tgt) t (written pre) ->
  (forall t', foldM (fun t i => check_transfer (total_blocks tgt) t (st !!! i)) t post = Ok t' ->
     touched_by (total_blocks tgt) t' (written ts) /\
     forall p x q, post = p ++ x :: q -> transfer_good (total_blocks tgt) (st !!! x) (written (pre ++ p))) /\
  ((forall p x q, post = p ++ x :: q -> transfer_good (total_blocks tgt) (st !!! x) (written (pre ++ p))) ->
   is_ok (foldM (fun t i => check_transfer (total_blocks tgt) t (st !!! i)) t post) = true).
Proof.
  induction post as [|x post IH]; intros pre t Hts Ht; simpl.
  - rewrite app_nil_r in Hts. split; [|done]. intros t' [= <-]. rewrite Hts. split; [done|]. by intros [] y q.
  - assert (x ∈ ts) as Hx by (rewrite Hts, elem_of_app; right; by left).
    destruct (Hr x Hx) as (Hq1 & Hq2 & Hq3 & Hq4).
    destruct (check_transfer_iff (total_blocks tgt) t (written pre) (st !!! x) Ht) as [H1 H2]; try done.
    { intros k r. by apply Hs. }
    destruct (check_transfer (total_blocks tgt) t (st !!! x)) as [t1|].
    + destruct (H1 t1 eq_refl) as [Hgood Ht1].
      assert (touched_by (total_blocks tgt) t1 (written (pre ++ [x]))) as Ht1'.
      { eapply touched_by_iff; [|exact Ht1]. intros b. unfold written. setoid_rewrite elem_of_app.
        setoid_rewrite list_elem_of_singleton. naive_solver. }
      destruct (IH (pre ++ [x]) t1) as [IH1 IH2]; [by rewrite <- app_assoc|done|]. split.
      * intros t' Hf. destruct (IH1 t' Hf) as [Hfin Hall]. split; [done|].
        intros [|z p] y q [= -> Hq]; [by rewrite app_nil_r|].
        specialize (Hall p y q Hq). by rewrite <- app_assoc in Hall.
      * intros Hall. apply IH2. intros p y q Hq. rewrite <- app_assoc. apply (Hall (x :: p) y q). by rewrite Hq.
    + split; [done|]. intros Hall. apply H2. specialize (Hall [] x post eq_refl). by rewrite app_nil_r in Hall.
Qed.

Lemma AssertSequenceGood_iff : AssertSequenceGood tgt (mkSeq st ts) = Ok tt <-> sequence_good.
Proof.
  unfold AssertSequenceGood, sequence_good. simpl.
  set (t0 := replicate _ false).
  assert (touched_by (total_blocks tgt) t0 (written [])) as Ht0.
  { split; [unfold t0; rewrite length_replicate; lia|]. intros i _. split.
    - intros [? _]%lookup_replicate. done.
    - by intros (y & ?%elem_of_nil & _). }
  destruct (check_transfers_iff ts [] t0 eq_refl Ht0) as [H1 H2].
  destruct (foldM _ t0 ts) as [t|].
  - destruct (H1 t eq_refl) as [Ht Hall].
    rewrite (foldM_ext _ (fun _ p => foldM (fun _ i => let! t := py_get t i in assert! t in Ok tt) tt (zrange p.1 p.2)))
      by by intros s [].
    rewrite foldM_unit_iff. setoid_rewrite foldM_unit_iff.
    assert (forall b, 0 <= b -> (let! t := py_get t b in assert! t in Ok tt) = Ok tt <->
      b < total_blocks tgt /\ written ts b) as Hb.
    { intros b Hb. destruct (touched_get _ t _ b Ht Hb) as [(Hlt & v & -> & Hv)|[Hge ->]]; [|split; [done|lia]].
      destruct v; naive_solver. }
    split.
    + intros Hc. split; [exact Hall|]. intros b Hin. apply (elem_of_pairs b _ Hcare) in Hin as (s & e & Hse & Hin).
      pose proof (wf_pairs_nonneg _ Hcare Hncare s e Hse). apply Hb; [lia|]. apply (Hc (s, e) Hse).
      by apply elem_of_zrange.
    + intros [_ Hc] [s e] Hse b Hin%elem_of_zrange. simpl in Hin.
      pose proof (wf_pairs_nonneg _ Hcare Hncare s e Hse). apply Hb; [lia|]. apply Hc.
      apply (elem_of_pairs b _ Hcare). by exists s, e.
  - split; [done|]. intros [Hall _]. exfalso. assert (is_ok (@Raise (list bool) e) = true) by by apply H2. done.
Qed.
End good.

(** A sequence found for disjoint targets that cover the care map is good. *)
Lemma sequenced_good tgt st ts :
  NoDup ts -> ranges_ok st ts -> sequenced st ts ->
  (forall x b, x ∈ ts -> b ∈ tgt_ranges (st !!! x) -> b < total_blocks tgt) ->
  (forall x y b, x ∈ ts -> y ∈ ts -> b ∈ tgt_ranges (st !!! x) -> b ∈ tgt_ranges (st !!! y) -> x = y) ->
  (forall b, b ∈ care_map tgt -> written st ts b) ->
  stashes_ok st ts /\ sequence_good tgt st ts.
Proof.
  intros Hnd Hr [S1 S2 S3] Hbound Hdisj Hcov. split; [|split].
  - intros x k r Hx Hk. apply list_elem_of_split in Hx as (pre & post & Hl).
    by destruct (S2 pre x post k r Hl Hk) as (y & _ & _ & [? _] & _).
  - intros pre x post Hl. assert (x ∈ ts) as Hx by (rewrite Hl, elem_of_app; right; by left). split.
    + intros b [Hb Hst] _ (y & Hy & Hby). destruct (S1 pre x post y Hl Hy) as (k & r & Hk & _ & _ & Hrb).
      { by exists b. }
      apply (Hst k r Hk). apply Hrb. done.
    + intros b Hb. split; [by apply (Hbound x)|]. intros (y & Hy & Hby).
      assert (y ∈ ts) as Hyt by (rewrite Hl, elem_of_app; by left).
      assert (x = y) as <- by by eapply Hdisj. rewrite Hl in Hnd.
      apply NoDup_app in Hnd as (_ & Hd & _). apply (Hd x Hy). by left.
  - intros b Hb. destruct (Hcov b Hb) as (y & Hy & Hby). split; [by apply (Hbound y)|]. by exists y.
Qed.
