(* ===== verification/Updater.v ===== *)
(** The contract a transfer sequence has to meet: an updater that runs it in
    place, saving and using stashes as the transfers say, ends with the target
    image.

    The updater is the abstract machine the transfer list is written for.  A
    device maps blocks to contents; a transfer first saves the ranges of its
    [stash_before], then reads its source (stashed blocks from the stash named
    in [use_stash], the others from the device), then writes its target. *)

From S2P Require Export SequenceCheck.

#[local] Open Scope Z_scope.

Section updater.
Context {V : Type}.

Definition device : Type := Z -> V.

Record machine := mkMachine {
  dev : device;
  stashes : gmap Z (RangeSet * device)
}.

(** The "stash" commands of a transfer. *)
Definition save_stashes (d : device) (l : list (Z * RangeSet)) (s : gmap Z (RangeSet * device)) :=
  fold_left (fun s '(k, r) => <[k := (r, d)]> s) l s.

(** The source of a transfer: a block covered by a used stash comes from it,
    and is missing when the stash does not have it. *)
Definition read_block (m : machine) (x : Transfer) (b : Z) : option V :=
  match List.find (fun kr => bool_decide (b ∈ kr.2)) (use_stash x) with
  | Some (k, _) =>
      match stashes m !! k with
      | Some (r, d) => if decide (b ∈ r) then Some (d b) else None
      | None => None
      end
  | None => Some (dev m b)
  end.

(** [apply x src b]: the content the transfer computes for the target block
    [b] from its source. *)
Context (apply : tid -> (Z -> option V) -> Z -> V).

Definition run_transfer (st : store) (m : machine) (i : tid) : machine :=
  let x := st !!! i in
  let s := save_stashes (dev m) (stash_before x) (stashes m) in
  let src := read_block (mkMachine (dev m) s) x in
  mkMachine (fun b => if decide (b ∈ tgt_ranges x) then apply i src b else dev m b) s.

Definition run_transfers (st : store) (ts : list tid) (d : device) : device :=
  dev (fold_left (run_transfer st) ts (mkMachine d ∅)).

(** ** Correctness *)

Context (st : store) (ts : list tid) (orig want : device).
Context (Hnd : NoDup ts) (Hseq : sequenced st ts).
Context (Hdisj : forall x y b, x ∈ ts -> y ∈ ts ->
  b ∈ tgt_ranges (st !!! x) -> b ∈ tgt_ranges (st !!! y) -> x = y).
Context (Happly : forall x src, x ∈ ts -> (forall b, b ∈ src_ranges (st !!! x) -> src b = Some (orig b)) ->
  forall b, b ∈ tgt_ranges (st !!! x) -> apply x src b = want b).

(** A stash of blocks that its owner is about to overwrite. *)
Definition saved (y : tid) (k : Z) (r : RangeSet) : Prop :=
  (k, r) ∈ stash_before (st !!! y) /\ forall b, b ∈ r -> b ∈ tgt_ranges (st !!! y).

Record minv (pre : list tid) (m : machine) : Prop := {
  mi_written : forall b, written st pre b -> dev m b = want b;
  mi_rest : forall b, ~ written st pre b -> dev m b = orig b;
  mi_stash : forall y k r, y ∈ pre -> saved y k r ->
    exists d, stashes m !! k = Some (r, d) /\ forall b, b ∈ r -> d b = orig b
}.

Lemma save_stashes_lookup d l s k :
  (forall r, (k, r) ∈ l -> (forall r', (k, r') ∈ l -> r' = r) -> save_stashes d l s !! k = Some (r, d)) /\
  ((forall r, (k, r) ∉ l) -> save_stashes d l s !! k = s !! k).
Proof.
  unfold save_stashes. revert s. induction l as [|[k' r'] l IH]; intros s; simpl.
  - split; [by intros r ?%elem_of_nil|done].
  - destruct (IH (<[k' := (r', d)]> s)) as [IH1 IH2]. split.
    + intros r Hin Huniq. destruct (decide (k ∈ map fst l)) as [Hl|Hl].
      * apply list_elem_of_In, in_map_iff in Hl as ([k2 r2] & <- & H2%list_elem_of_In). simpl in *.
        apply IH1; [|intros r3 H3; apply Huniq; by right].
        rewrite <- (Huniq r2); [done|by right].
      * assert (forall r2, (k, r2) ∉ l) as Hn.
        { intros r2 H2. apply Hl. apply list_elem_of_In, in_map_iff. exists (k, r2). split; [done|].
          by apply list_elem_of_In. }
        apply elem_of_cons in Hin as [[= <- <-]|Hin]; [|by apply Hn in Hin].
        rewrite IH2 by done. by rewrite lookup_insert_eq.
    + intros Hn. rewrite IH2 by (intros r Hr; apply (Hn r); by right).
      rewrite lookup_insert_ne; [done|]. intros ->. apply (Hn r'). by left.
Qed.

Lemma not_written_yet pre x post b : ts = pre ++ x :: post -> b ∈ tgt_ranges (st !!! x) -> ~ written st pre b.
Proof.
  intros Hl Hb (y & Hy & Hby).
  assert (x = y) as <-.
  { apply (Hdisj x y b); try done; rewrite Hl, elem_of_app; [right; by left|by left]. }
  rewrite Hl in Hnd. apply NoDup_app in Hnd as (_ & Hd & _). apply (Hd x Hy). by left.
Qed.

Lemma run_transfer_inv pre x post m :
  ts = pre ++ x :: post -> minv pre m -> minv (pre ++ [x]) (run_transfer st m x).
Proof.
  intros Hl [M1 M2 M3]. assert (x ∈ ts) as Hx by (rewrite Hl, elem_of_app; right; by left).
  pose proof (not_written_yet pre x post) as Hnew.
  set (s := save_stashes (dev m) (stash_before (st !!! x)) (stashes m)).
  assert (forall y k r, y ∈ pre ++ [x] -> saved y k r ->
    exists d, s !! k = Some (r, d) /\ forall b, b ∈ r -> d b = orig b) as Hs.
  { intros y k r Hy [Hk Hr].
    assert (y ∈ ts) as Hyts by (rewrite Hl; apply elem_of_app in Hy as [?|?%list_elem_of_singleton]; set_solver).
    destruct (save_stashes_lookup (dev m) (stash_before (st !!! x)) (stashes m) k) as [L1 L2].
    apply elem_of_app in Hy as [Hy|Hy%list_elem_of_singleton].
    - destruct (M3 y k r Hy) as (d & Hd & Hdb); [done|]. exists d. split; [|done]. etransitivity; [apply L2|exact Hd].
      intros r' Hr'. destruct (tb_save _ _ (sq_table _ _ Hseq) x y k r' r) as [Hxy _]; try done. subst y.
      rewrite Hl in Hnd. apply NoDup_app in Hnd as (_ & Hdis & _). apply (Hdis x Hy). by left.
    - subst y. exists (dev m). split; [|intros b Hb; apply M2, Hnew; auto]. apply L1; [done|].
      intros r' Hr'. by destruct (tb_save _ _ (sq_table _ _ Hseq) x x k r' r) as [_ ?]. }
  assert (forall b, b ∈ src_ranges (st !!! x) -> read_block (mkMachine (dev m) s) (st !!! x) b = Some (orig b)) as Hread.
  { intros b Hb. unfold read_block. simpl. destruct (List.find _ _) as [[k r]|] eqn:Ef.
    - apply find_some in Ef as [Hin Hbr]. apply list_elem_of_In in Hin. simpl in Hbr. bool_prop.
      destruct (sq_use _ _ Hseq pre x post k r Hl Hin) as (y & Hy & Hk & _ & Hr).
      destruct (Hs y k r) as (d & Hd & Hdb); [apply elem_of_app; by left|split; [done|intros c Hc; by apply Hr]|].
      rewrite Hd, decide_True by done. by rewrite Hdb.
    - f_equal. apply M2. intros (y & Hy & Hby).
      destruct (sq_conflict _ _ Hseq pre x post y Hl Hy) as (k & r & Hk & _ & _ & Hr); [by exists b|].
      apply list_elem_of_In in Hk. pose proof (find_none _ _ Ef _ Hk) as Hn. simpl in Hn. bool_prop.
      apply Hn, Hr. done. }
  assert (forall b, written st (pre ++ [x]) b <-> written st pre b \/ b ∈ tgt_ranges (st !!! x)) as Hw.
  { intros b. unfold written. setoid_rewrite elem_of_app. setoid_rewrite list_elem_of_singleton. naive_solver. }
  split; [| |exact Hs]; intros b; rewrite Hw; simpl; case_decide as Hbx.
  - intros _. by apply (Happly x).
  - intros [?|?]; [by apply M1|done].
  - tauto.
  - intros Hn. apply M2. tauto.
Qed.

(** The updater ends with the wanted content in every target block and leaves
    the other blocks alone. *)
Lemma run_transfers_ok b :
  (written st ts b -> run_transfers st ts orig b = want b) /\
  (~ written st ts b -> run_transfers st ts orig b = orig b).
Proof.
  assert (forall post pre m, ts = pre ++ post -> minv pre m -> minv ts (fold_left (run_transfer st) post m)) as Hgen.
  { induction post as [|x post IH]; intros pre m Hl Hm; simpl.
    - rewrite app_nil_r in Hl. by rewrite Hl.
    - apply (IH (pre ++ [x])); [by rewrite <- app_assoc|]. by apply (run_transfer_inv pre x post). }
  destruct (Hgen ts [] (mkMachine orig ∅)) as [M1 M2 _]; [done| |by split; [apply M1|apply M2]].
  split; [by intros c (y & ?%elem_of_nil & _)|done|by intros y k r ?%elem_of_nil].
Qed.
End updater.
