(* ===== verification/BlockProps.v ===== *)
(** What the ordering of transfers guarantees. *)

From S2P Require Export Updater.

#[local] Open Scope string_scope.
#[local] Open Scope list_scope.
#[local] Open Scope Z_scope.

(** Targets that partition the blocks to be written: pairwise disjoint, on the
    device, and covering the care map. *)
Record targets_ok (tgt : Image) (st : store) (ts : list tid) : Prop := {
  to_bound : forall x b, x ∈ ts -> b ∈ tgt_ranges (st !!! x) -> b < total_blocks tgt;
  to_disjoint : forall x y b, x ∈ ts -> y ∈ ts ->
    b ∈ tgt_ranges (st !!! x) -> b ∈ tgt_ranges (st !!! y) -> x = y;
  to_covered : forall b, b ∈ care_map tgt -> written st ts b
}.

Lemma targets_ok_same tgt st st' ts ts' :
  same_on statics st st' -> ts' ≡ₚ ts -> targets_ok tgt st ts -> targets_ok tgt st' ts'.
Proof.
  intros Hs Hp [T1 T2 T3].
  assert (forall i, tgt_ranges (st' !!! i) = tgt_ranges (st !!! i)) as Ht by (intros i; by apply same_statics_ranges).
  split.
  - intros x b. rewrite Hp, Ht. apply T1.
  - intros x y b. rewrite !Hp, !Ht. apply T2.
  - intros b Hb. destruct (T3 b Hb) as (y & Hy & Hby). exists y. by rewrite Hp, Ht.
Qed.

(** C4: for transfers with disjoint targets that cover the care map,
    [FindSequenceForTransfers] succeeds, its sequence is a permutation of the
    transfers that changes none of their ranges, hashes or styles, with [order]
    set to the position, and [AssertSequenceGood] accepts it: no block is
    overwritten before every unstashed read of it. *)
Theorem sequence_accepted tgt s :
  NoDup (sq_transfers s) -> ranges_ok (sq_store s) (sq_transfers s) ->
  targets_ok tgt (sq_store s) (sq_transfers s) ->
  wf (care_map tgt) -> nonneg (care_map tgt) -> 0 <= total_blocks tgt ->
  exists s', FindSequenceForTransfers s = Ok s' /\ sq_transfers s' ≡ₚ sq_transfers s /\
    same_on statics (sq_store s) (sq_store s') /\ ordered s' /\ AssertSequenceGood tgt s' = Ok tt.
Proof.
  intros Hnd Hr Ht Hc Hnc Htot.
  destruct (FindSequenceForTransfers_ok s Hnd Hr) as ([st' ts'] & Hf & Hp & Hs & Ho & Hseq). simpl in *.
  destruct (targets_ok_same _ _ st' _ ts' Hs Hp Ht) as [T1 T2 T3].
  assert (ranges_ok st' ts') as Hr'.
  { apply (ranges_ok_same _ _ _ Hs). intros i Hi. apply Hr. by rewrite <- Hp. }
  destruct (sequenced_good tgt st' ts') as [Hst Hg]; try done; [by rewrite Hp|].
  exists (mkSeq st' ts'). split_and!; try done. by apply AssertSequenceGood_iff.
Qed.

(** Two transfers that exchange two ranges of blocks, and a third that reads
    what the first writes. *)
Definition ex_range (s e : Z) : RangeSet := mkRangeSet [s; e] true [].
Definition ex_store : store :=
  let '(st, ids) := new_transfer ∅ [] "a" (Some "b") (ex_range 0 10) (ex_range 10 20) "h0" "h1" "diff" in
  let '(st, ids) := new_transfer st ids "b" (Some "a") (ex_range 10 20) (ex_range 0 10) "h1" "h0" "diff" in
  let '(st, ids) := new_transfer st ids "c" (Some "a") (ex_range 20 25) (ex_range 5 10) "h2" "h3" "diff" in st.
Definition ex_seq : SeqState := mkSeq ex_store [0%nat; 1%nat; 2%nat].
Definition ex_image : Image :=
  mkImage 4096 30 (ex_range 0 25) empty empty [] (fun _ => "") (fun _ => "").

Lemma ex_range_ok s e : s < e -> 0 <= s -> wf (ex_range s e) /\ nonneg (ex_range s e).
Proof.
  intros. split; [by apply wf_range_set|]. intros x Hx. apply elem_of_range_set in Hx; lia.
Qed.

Lemma ex_members i : i ∈ sq_transfers ex_seq -> i = 0%nat \/ i = 1%nat \/ i = 2%nat.
Proof. simpl. rewrite !elem_of_cons, elem_of_nil. tauto. Qed.

Lemma ex_ranges_ok : ranges_ok ex_store (sq_transfers ex_seq).
Proof.
  intros i [->|[->| ->]]%ex_members; split_and!; apply ex_range_ok; lia.
Qed.

Lemma ex_NoDup : NoDup (sq_transfers ex_seq).
Proof. by apply (bool_decide_unpack _). Qed.

Lemma ex_targets_ok : targets_ok ex_image ex_store (sq_transfers ex_seq).
Proof.
  split.
  - intros x b [->|[->| ->]]%ex_members Hb; apply elem_of_range_set in Hb; simpl; lia.
  - intros x y b Hx Hy Hbx Hby.
    apply ex_members in Hx as [->|[->| ->]]; apply ex_members in Hy as [->|[->| ->]]; try done;
      apply elem_of_range_set in Hbx; try lia; apply elem_of_range_set in Hby; lia.
  - intros b Hb. apply elem_of_range_set in Hb; [|lia].
    destruct (Z.lt_ge_cases b 10); [exists 0%nat|destruct (Z.lt_ge_cases b 20); [exists 1%nat|exists 2%nat]];
      (split; [simpl; rewrite !elem_of_cons; tauto|]); apply elem_of_range_set; lia.
Qed.

Lemma sequence_accepted_witness : exists s',
  FindSequenceForTransfers ex_seq = Ok s' /\ sq_transfers s' ≡ₚ sq_transfers ex_seq /\
  same_on statics (sq_store ex_seq) (sq_store s') /\ ordered s' /\ AssertSequenceGood ex_image s' = Ok tt.
Proof.
  destruct (ex_range_ok 0 25) as [Hw Hn]; [lia..|].
  apply (sequence_accepted ex_image ex_seq ex_NoDup ex_ranges_ok ex_targets_ok Hw Hn). simpl. lia.
Defined.

(** C3: an updater that runs the sequence found in place, saving and using the
    stashes it names, ends with the wanted content in every target block and
    the original content elsewhere, for any patching function that is right
    on the original source. *)
Theorem in_place_update_correct {V} (apply : tid -> (Z -> option V) -> Z -> V) tgt s (orig want : Z -> V) :
  NoDup (sq_transfers s) -> ranges_ok (sq_store s) (sq_transfers s) ->
  targets_ok tgt (sq_store s) (sq_transfers s) ->
  (forall x src, x ∈ sq_transfers s ->
     (forall b, b ∈ src_ranges (sq_store s !!! x) -> src b = Some (orig b)) ->
     forall b, b ∈ tgt_ranges (sq_store s !!! x) -> apply x src b = want b) ->
  exists s', FindSequenceForTransfers s = Ok s' /\
    forall b,
      (written (sq_store s) (sq_transfers s) b ->
       run_transfers apply (sq_store s') (sq_transfers s') orig b = want b) /\
      (~ written (sq_store s) (sq_transfers s) b ->
       run_transfers apply (sq_store s') (sq_transfers s') orig b = orig b).
Proof.
  intros Hnd Hr Ht Happly.
  destruct (FindSequenceForTransfers_ok s Hnd Hr) as ([st' ts'] & Hf & Hp & Hs & _ & Hseq). simpl in *.
  destruct (targets_ok_same _ _ st' _ ts' Hs Hp Ht) as [_ T2 _].
  exists (mkSeq st' ts'). split; [done|]. intros b.
  assert (written (sq_store s) (sq_transfers s) b <-> written st' ts' b) as ->.
  { unfold written. split; intros (y & Hy & Hb); exists y; revert Hy Hb;
      rewrite Hp, (proj1 (same_statics_ranges _ _ y Hs)); done. }
  simpl. apply run_transfers_ok; try done; [by rewrite Hp|].
  intros x src Hx Hsrc c Hc. destruct (same_statics_ranges _ _ x Hs) as [E1 E2].
  rewrite E1 in Hc. rewrite E2 in Hsrc. apply Happly; [by rewrite <- Hp|done..].
Qed.

(** The content moved by the example: a block number per block. *)
Definition ex_orig (b : Z) : Z := b.
Definition ex_want (b : Z) : Z := if b <? 10 then b + 10 else if b <? 20 then b - 10 else b - 15.
Definition ex_apply (x : tid) (src : Z -> option Z) (b : Z) : Z := default (-1) (src (ex_want b)).

Lemma in_place_update_correct_witness : exists s', FindSequenceForTransfers ex_seq = Ok s' /\
  forall b,
    (written (sq_store ex_seq) (sq_transfers ex_seq) b ->
     run_transfers ex_apply (sq_store s') (sq_transfers s') ex_orig b = ex_want b) /\
    (~ written (sq_store ex_seq) (sq_transfers ex_seq) b ->
     run_transfers ex_apply (sq_store s') (sq_transfers s') ex_orig b = ex_orig b).
Proof.
  apply (in_place_update_correct ex_apply ex_image ex_seq ex_orig ex_want ex_NoDup ex_ranges_ok ex_targets_ok).
  intros x src Hx Hsrc b Hb. unfold ex_apply. rewrite (Hsrc (ex_want b)); [done|]. clear Hsrc.
  apply ex_members in Hx as [->|[->| ->]]; apply elem_of_range_set in Hb; try lia;
    apply elem_of_range_set; try lia; unfold ex_want; zcases.
Defined.

(** C8: [AssertSequenceGood] is a decision procedure: it accepts exactly the
    sequences in which no transfer reads, unstashed, or writes a block that an
    earlier one has written, no write leaves the device, and every block of
    the care map is written. *)
Theorem assert_sequence_good_decides tgt st ts :
  ranges_ok st ts -> stashes_ok st ts -> wf (care_map tgt) -> nonneg (care_map tgt) ->
  0 <= total_blocks tgt ->
  AssertSequenceGood tgt (mkSeq st ts) = Ok tt <->
  (forall pre x post, ts = pre ++ x :: post ->
     (forall b, reads_device (st !!! x) b -> b < total_blocks tgt -> ~ written st pre b) /\
     (forall b, b ∈ tgt_ranges (st !!! x) -> b < total_blocks tgt /\ ~ written st pre b)) /\
  (forall b, b ∈ care_map tgt -> b < total_blocks tgt /\ written st ts b).
Proof. apply AssertSequenceGood_iff. Qed.

Lemma assert_sequence_good_decides_witness :
  ~ (AssertSequenceGood ex_image (mkSeq ex_store [0%nat; 1%nat; 2%nat]) = Ok tt) /\
  exists b, reads_device (ex_store !!! 1%nat) b /\ b < total_blocks ex_image /\ written ex_store [0%nat] b.
Proof.
  assert (stashes_ok ex_store (sq_transfers ex_seq)) as Hs.
  { intros x k r [->|[->| ->]]%ex_members Hk; by apply elem_of_nil in Hk. }
  destruct (ex_range_ok 0 25) as [Hw Hn]; [lia..|].
  assert (reads_device (ex_store !!! 1%nat) 3 /\ 3 < total_blocks ex_image /\ written ex_store [0%nat] 3) as Hb.
  { split; [split; [by apply elem_of_range_set|by intros k r Hk%elem_of_nil]|]. split; [done|].
    exists 0%nat. split; [by left|by apply elem_of_range_set]. }
  split; [|by exists 3].
  intros H. apply (assert_sequence_good_decides ex_image ex_store (sq_transfers ex_seq)) in H as [H _]; try done.
  destruct (H [0%nat] 1%nat [2%nat] eq_refl) as [H1 _]. by apply (H1 3); apply Hb.
Defined.
