(* ===== verification/DiffPlan.v ===== *)
(** releasetools/blockimgdiff.py, finding the transfers: which source file a
    target file is diffed against ([AbbreviateSourceNames], [FindTransfers]),
    when imgdiff may be used ([CanUseImgdiff], with its [ImgdiffStats]), and
    how large files are split ([AddTransfer] and the functions nested in
    [FindTransfers]).

    The worker threads of [SplitLargeApks] take the large files one at a time, in
    order, and their results are sorted, so it does not matter how the threads
    interleave.  An exception ends the thread it is raised in and nothing else: its
    file is dropped, and files that are left when all threads have ended are dropped too.
    imgdiff itself is a parameter: it returns the patch and the lines of the
    split information. *)

From S2P Require Export PyFloat Transfer.

#[local] Open Scope string_scope.
#[local] Open Scope list_scope.
#[local] Open Scope Z_scope.

(** * ImgdiffStats *)

Definition USED_IMGDIFF := "APK files diff'd with imgdiff".
Definition USED_IMGDIFF_LARGE_APK := "Large APK files split and diff'd with imgdiff".
Definition SKIPPED_NONMONOTONIC := "Not used imgdiff due to having non-monotonic ranges".
Definition SKIPPED_SHARED_BLOCKS := "Not used imgdiff due to using shared blocks".
Definition SKIPPED_INCOMPLETE := "Not used imgdiff due to incomplete RangeSet".

Definition REASONS : list string :=
  [USED_IMGDIFF; USED_IMGDIFF_LARGE_APK; SKIPPED_NONMONOTONIC; SKIPPED_SHARED_BLOCKS; SKIPPED_INCOMPLETE].

(** [stats]: for every reason logged, the set of file names. *)
Abbreviation stats := (list (string * list string)).

(** [filename.lower().endswith(('.apk', '.jar', '.zip'))]. *)
Definition FileTypeSupportedByImgdiff (filename : string) : bool :=
  let f := str_lower filename in
  ends_with ".apk" f || ends_with ".jar" f || ends_with ".zip" f.

(** [ImgdiffStats.Log]. *)
Definition Log (filename reason : string) (st : stats) : result stats :=
  assert! FileTypeSupportedByImgdiff filename in
  assert! bool_decide (reason ∈ REASONS) in
  Ok (od_set reason (os_add filename (default [] (od_get reason st))) st).

(** The sections of [ImgdiffStats.Report], in the order of [REASONS]: the
    reason, the count of its header, and the names. *)
Definition Report (st : stats) : list (string * Z * list string) :=
  omap (fun key => (fun values => (key, Z.of_nat (length values), values)) <$> od_get key st) REASONS.

(** [CanUseImgdiff].  Without imgdiff there are no statistics, and they are not
    touched. *)
Definition CanUseImgdiff (disable_imgdiff : bool) (name : string) (tgt_ranges src_ranges : RangeSet)
    (large_apk : bool) (st : stats) : result (bool * stats) :=
  if disable_imgdiff || negb (FileTypeSupportedByImgdiff name) then Ok (false, st)
  else if negb (rs_monotonic tgt_ranges) || negb (rs_monotonic src_ranges) then
    let! st := Log name SKIPPED_NONMONOTONIC st in Ok (false, st)
  else if extra_true "uses_shared_blocks" tgt_ranges || extra_true "uses_shared_blocks" src_ranges then
    let! st := Log name SKIPPED_SHARED_BLOCKS st in Ok (false, st)
  else if extra_true "incomplete" tgt_ranges || extra_true "incomplete" src_ranges then
    let! st := Log name SKIPPED_INCOMPLETE st in Ok (false, st)
  else
    let! st := Log name (if large_apk then USED_IMGDIFF_LARGE_APK else USED_IMGDIFF) st in Ok (true, st).

(** * Source names *)

(** [os.path.basename]: what follows the last slash. *)
Fixpoint basename (s : string) : string :=
  match s with
  | "" => ""
  | String c s' => if has_char "/" s then basename s' else s
  end.

Definition is_digit_char (c : ascii) : bool := (48 <=? code c) && (code c <=? 57).

(** [re.sub("[0-9]+", "#", s)]; [run] tells that the previous character was a
    digit. *)
Fixpoint hash_digits (run : bool) (s : string) : string :=
  match s with
  | "" => ""
  | String c s' =>
      if is_digit_char c then (if run then hash_digits true s' else String "#" (hash_digits true s'))
      else String c (hash_digits false s')
  end.

Definition number_pattern (s : string) : string := hash_digits false s.

(** [AbbreviateSourceNames]: the last file of a basename or pattern wins. *)
Definition AbbreviateSourceNames (src : Image) : list (string * string) * list (string * string) :=
  fold_left (fun '(bases, pats) '(k, _) =>
      let b := basename k in (od_set b k bases, od_set (number_pattern b) k pats))
    (file_map src) ([], []).

(** * Adding transfers *)

(** The state [FindTransfers] builds: the transfers, the statistics, and
    [large_apks]. *)
Record Plan := mkPlan {
  p_store : store;
  p_transfers : list tid;
  p_stats : stats;
  p_large : list (string * string * RangeSet * RangeSet)
}.

(** A piece of a large APK with the patch computed for it. *)
Abbreviation split_apk := (string * string * RangeSet * RangeSet * string)%type.

Section find_transfers.
Context (tgt src : Image) (disable_imgdiff : bool) (max_blocks_per_transfer : Z).

(** The call [Transfer(..., self.tgt.RangeSha1(t), self.src.RangeSha1(s), style, by_id)]. *)
Definition add_one (tgt_name : string) (src_name : option string) (t s : RangeSet) (style : string)
    (p : Plan) : Plan :=
  let '(st, ids) := new_transfer (p_store p) (p_transfers p) tgt_name src_name t s
                      (RangeSha1 tgt t) (RangeSha1 src s) style in
  mkPlan st ids (p_stats p) (p_large p).

Definition split_name (name : string) (pieces : Z) : string := name +:+ "-" +:+ py_str pieces.

(** The [while] loop of [AddSplitTransfersWithFixedSizeChunks]. *)
Fixpoint chunk_loop (fuel : nat) (tgt_name src_name style : string) (pieces : Z) (t s : RangeSet) (p : Plan)
  : result (Z * RangeSet * RangeSet * Plan) :=
  if (max_blocks_per_transfer <? size t) && (max_blocks_per_transfer <? size s) then
    match fuel with
    | O => Raise OutOfFuel
    | S fuel' =>
        let! t1 := first t max_blocks_per_transfer in
        let! s1 := first s max_blocks_per_transfer in
        let p := add_one (split_name tgt_name pieces) (Some (split_name src_name pieces)) t1 s1 style p in
        let! t := subtract t t1 in
        let! s := subtract s s1 in
        chunk_loop fuel' tgt_name src_name style (pieces + 1) t s p
    end
  else Ok (pieces, t, s, p).

Definition AddSplitTransfersWithFixedSizeChunks (tgt_name src_name : string) (t s : RangeSet)
    (style : string) (p : Plan) : result Plan :=
  let! (pieces, t, s, p) := chunk_loop (S (Z.to_nat (size t))) tgt_name src_name style 0 t s p in
  if negb (size t =? 0) || negb (size s =? 0) then
    assert! negb (size t =? 0) && negb (size s =? 0) in
    Ok (add_one (split_name tgt_name pieces) (Some (split_name src_name pieces)) t s style p)
  else Ok p.

Definition AddSplitTransfers (tgt_name src_name : string) (t s : RangeSet) (style : string) (p : Plan)
  : result Plan :=
  assert! String.eqb style "diff" in
  if (size t <=? max_blocks_per_transfer) && (size s <=? max_blocks_per_transfer) then
    Ok (add_one tgt_name (Some src_name) t s style p)
  else if FileTypeSupportedByImgdiff tgt_name && negb (String.eqb (RangeSha1 tgt t) (RangeSha1 src s)) then
    let! (use, stats) := CanUseImgdiff disable_imgdiff tgt_name t s true (p_stats p) in
    let p := mkPlan (p_store p) (p_transfers p) stats (p_large p) in
    if use then Ok (mkPlan (p_store p) (p_transfers p) (p_stats p) (p_large p ++ [(tgt_name, src_name, t, s)]))
    else AddSplitTransfersWithFixedSizeChunks tgt_name src_name t s style p
  else AddSplitTransfersWithFixedSizeChunks tgt_name src_name t s style p.

(** [RangeSet(str(block))]. *)
Definition block_range (b : Z) : result RangeSet := parse_internal (py_str b).

(** The loop that compares an .odex file block by block, left early when more
    than half of the blocks have changed.  [tgt_size * 0.5] is exact for
    the sizes of images. *)
Fixpoint crop_loop (tgt_size : Z) (l : list (Z * Z)) (tgt_skipped src_skipped : RangeSet) (tgt_changed : Z)
  : result (RangeSet * RangeSet * Z) :=
  match l with
  | [] => Ok (tgt_skipped, src_skipped, tgt_changed)
  | (src_block, tgt_block) :: l' =>
      let! src_rs := block_range src_block in
      let! tgt_rs := block_range tgt_block in
      let! (tsk, ssk, ch) :=
        if String.eqb (ReadRangeSet src src_rs) (ReadRangeSet tgt tgt_rs) then
          let! a := union tgt_skipped tgt_rs in
          let! b := union src_skipped src_rs in Ok (a, b, tgt_changed)
        else Ok (tgt_skipped, src_skipped, tgt_changed + size tgt_rs) in
      if tgt_size <? 2 * ch then Ok (tsk, ssk, ch) else crop_loop tgt_size l' tsk ssk ch
  end.

Definition is_odex (name : string) : bool :=
  match last (split_char "." name) with Some e => String.eqb (str_lower e) "odex" | None => false end.

Definition AddTransfer (tgt_name : string) (src_name : string) (t s : RangeSet) (style : string)
    (split : bool) (p : Plan) : result Plan :=
  if negb (String.eqb style "diff") || negb split then Ok (add_one tgt_name (Some src_name) t s style p)
  else if is_odex tgt_name && (size t =? size s) then
    let tgt_size := size t in
    let! (tgt_skipped, src_skipped, tgt_changed) :=
      crop_loop tgt_size (zip (next_item s) (next_item t)) empty empty 0 in
    if 2 * tgt_changed <? tgt_size then
      assert! tgt_changed + size tgt_skipped =? tgt_size in
      let! p := AddSplitTransfers (tgt_name +:+ "-skipped") (src_name +:+ "-skipped")
                  tgt_skipped src_skipped style p in
      let! t := subtract t tgt_skipped in
      let! s := subtract s src_skipped in
      if rs_bool t then AddSplitTransfers (tgt_name +:+ "-cropped") (src_name +:+ "-cropped") t s style p
      else Ok p
    else AddSplitTransfers tgt_name src_name t s style p
  else AddSplitTransfers tgt_name src_name t s style p.

(** * Large APKs *)

(** One line of the split information; the state is the start of the patch,
    the target blocks that remain, and the pieces found. *)
Definition split_line (src_ranges : RangeSet)
    (st : Z * RangeSet * list (Z * Z * RangeSet * RangeSet)) (line : string)
  : result (Z * RangeSet * list (Z * Z * RangeSet * RangeSet)) :=
  let '(patch_start, tgt_remain, out) := st in
  match split_ws line with
  | [i0; i1; i2] =>
      let! patch_length := py_int i0 in
      let! split_tgt_size := py_int i1 in
      assert! split_tgt_size mod 4096 =? 0 in
      assert! split_tgt_size / 4096 <=? size tgt_remain in
      let! split_tgt := first tgt_remain (split_tgt_size / 4096) in
      let! tgt_remain := subtract tgt_remain split_tgt in
      let! indices := parse_raw i2 in
      let! split_src :=
        foldM (fun acc '(a, b) =>
                 let! hi := first src_ranges b in
                 let! lo := first src_ranges a in
                 let! curr := subtract hi lo in
                 assert! negb (overlaps acc curr) in
                 union acc curr) empty (rs_iter indices) in
      Ok (patch_start + patch_length, tgt_remain,
          out ++ [(patch_start, patch_length, split_tgt, split_src)])
  | _ => Raise AssertionError
  end.

Definition ParseAndValidateSplitInfo (patch_size : Z) (tgt_ranges src_ranges : RangeSet)
    (split_info : list string) : result (list (Z * Z * RangeSet * RangeSet)) :=
  let! v := py_get split_info 0 in
  let! version := py_int v in
  assert! version =? 2 in
  let! c := py_get split_info 1 in
  let! count := py_int c in
  assert! Z.of_nat (length split_info) - 2 =? count in
  let! (patch_start, tgt_remain, out) := foldM (split_line src_ranges) (0, tgt_ranges, []) (drop 2 split_info) in
  assert! size tgt_remain =? 0 in
  assert! patch_start =? patch_size in
  Ok out.

(** imgdiff on the blocks of the source and target ranges, and the number of threads. *)
Context (run_imgdiff : RangeSet -> RangeSet -> result (string * list string)) (threads : nat).

Definition SplitLargeApk (apk : string * string * RangeSet * RangeSet) : result (list split_apk) :=
  let '(tgt_name, src_name, tgt_ranges, src_ranges) := apk in
  let! (patch, lines) := run_imgdiff src_ranges tgt_ranges in
  let! info := ParseAndValidateSplitInfo (str_len patch) tgt_ranges src_ranges lines in
  Ok (imap (fun index '(patch_start, patch_length, t, s) =>
        (split_name tgt_name (Z.of_nat index), split_name src_name (Z.of_nat index), t, s,
         String.substring (Z.to_nat patch_start) (Z.to_nat patch_length) patch)) info).

(** [alive] threads are left to take files. *)
Fixpoint SplitLargeApks (alive : nat) (large : list (string * string * RangeSet * RangeSet)) : list split_apk :=
  match alive, large with
  | Datatypes.S fewer, apk :: large =>
      match SplitLargeApk apk with
      | Ok l => l ++ SplitLargeApks alive large
      | Raise _ => SplitLargeApks fewer large
      end
  | _, _ => []
  end.

(** The order of the tuples; target names are distinct, so the comparison does
    not go past the names. *)
Definition split_apk_leb (a b : split_apk) : bool :=
  let '(an, am, _, _, _) := a in
  let '(bn, bm, _, _, _) := b in
  String.ltb an bn || (String.eqb an bn && String.leb am bm).

Definition add_split_apk (p : Plan) (x : split_apk) : result Plan :=
  let '(tgt_name, src_name, t, s, patch) := x in
  let i := length (p_transfers p) in
  let p := add_one tgt_name (Some src_name) t s "diff" p in
  let! st := set_patch_info i (Some (mkPatchInfo true patch)) (p_store p) in
  Ok (mkPlan st (p_transfers p) (p_stats p) (p_large p)).

(** The body of the loop over the target files.  The calls of [AddTransfer] with
    style "new" have no source name; they add the transfer as is. *)
Definition find_for_file (bases pats : list (string * string)) (p : Plan) (f : string * RangeSet) : result Plan :=
  let '(tgt_fn, tgt_ranges) := f in
  let diff_with src_fn :=
    let! src_ranges := of_option KeyError (od_get src_fn (file_map src)) in
    AddTransfer tgt_fn src_fn tgt_ranges src_ranges "diff" true p in
  if String.eqb tgt_fn "__ZERO" then
    AddTransfer tgt_fn "__ZERO" tgt_ranges (default empty (od_get "__ZERO" (file_map src))) "zero" false p
  else if String.eqb tgt_fn "__COPY" then Ok (add_one tgt_fn None tgt_ranges empty "new" p)
  else if String.eqb tgt_fn "__HASHTREE" then Ok p
  else if od_mem tgt_fn (file_map src) then diff_with tgt_fn
  else
    let b := basename tgt_fn in
    match od_get b bases with
    | Some src_fn => diff_with src_fn
    | None =>
        match od_get (number_pattern b) pats with
        | Some src_fn => diff_with src_fn
        | None => Ok (add_one tgt_fn None tgt_ranges empty "new" p)
        end
    end.

Definition sorted_files : list (string * RangeSet) :=
  sort_by (fun a b => String.leb a.1 b.1) (file_map tgt).

(** [FindTransfers], given [max_blocks_per_transfer]. *)
Definition FindTransfers_with (bases pats : list (string * string)) (p : Plan) : result Plan :=
  let! p := foldM (find_for_file bases pats) p sorted_files in
  let split := SplitLargeApks threads (p_large p) in
  foldM add_split_apk (mkPlan (p_store p) (p_transfers p) (p_stats p) []) (sort_by split_apk_leb split).
End find_transfers.

(** [int(cache_size * split_threshold / blocksize)] with the threshold 0.125. *)
Definition max_blocks_of (cache_size blocksize : Z) : result Z :=
  let! c := float_of_Z cache_size in
  let! b := float_of_Z blocksize in
  let! q := float_div (float_mul c (float_lit 1 (-3))) b in
  float_trunc q.

Definition FindTransfers (cache_size : option Z) (tgt src : Image) (disable_imgdiff : bool)
    (run_imgdiff : RangeSet -> RangeSet -> result (string * list string)) (threads : nat)
    (bases pats : list (string * string)) (p : Plan) : result Plan :=
  match cache_size with
  | None => Raise AssertionError
  | Some c =>
      let! max_blocks := max_blocks_of c (blocksize tgt) in
      FindTransfers_with tgt src disable_imgdiff max_blocks run_imgdiff threads bases pats p
  end.
