(* ===== verification/DiffPlanFacts.v ===== *)
(** [FindTransfers] covers every block of the target files exactly once, however
    the files are split. *)

From S2P Require Export DiffPlan BlockProps.

#[local] Open Scope string_scope.
#[local] Open Scope list_scope.
#[local] Open Scope Z_scope.

(** * Cutting range sets *)

Lemma next_item_unique r l : wf r -> StronglySorted Z.lt l -> (forall x, x ∈ r <-> x ∈ l) -> next_item r = l.
Proof.
  intros Hr Hl H. apply StronglySorted_lt_unique; [by apply items_sorted|done|].
  intros x. by rewrite <- H, elem_of_next_item.
Qed.

Lemma StronglySorted_drop (l : list Z) n : StronglySorted Z.lt l -> StronglySorted Z.lt (drop n l).
Proof.
  revert n. induction l as [|x l IH]; intros [|n] H; simpl; try done; try constructor.
  inversion H; subst. by apply IH.
Qed.

(** The first [n] blocks and the rest. *)
Lemma first_rest r n : wf r -> 0 <= n ->
  exists q d, first r n = Ok q /\ subtract r q = Ok d /\ wf q /\ wf d /\
    next_item q = take (Z.to_nat n) (next_item r) /\ next_item d = drop (Z.to_nat n) (next_item r).
Proof.
  intros Hr Hn. destruct (first_ok r n Hr Hn) as (q & Hq & Hwq & Hi).
  destruct (subtract_ok r q Hr Hwq) as (d & Hd & Hwd & Hxd). exists q, d. split_and!; try done.
  apply next_item_unique; [done|by apply StronglySorted_drop, items_sorted|].
  intros x. rewrite Hxd, <- !elem_of_next_item, Hi by done.
  pose proof (NoDup_next_item r Hr) as Hnd. rewrite <- (take_drop (Z.to_nat n) (next_item r)) in Hnd.
  apply NoDup_app in Hnd as (_ & Hdis & _).
  rewrite <- (take_drop (Z.to_nat n) (next_item r)) at 1. rewrite elem_of_app. split; [tauto|].
  intros Hx. split; [by right|]. intros Ht. by apply (Hdis x).
Qed.

Lemma size_take r q n : wf r -> wf q -> next_item q = take n (next_item r) ->
  size q = Z.min (Z.of_nat n) (size r).
Proof. intros Hr Hq H. rewrite !size_items by done. rewrite H, length_take. lia. Qed.

Lemma size_drop r d n : wf r -> wf d -> next_item d = drop n (next_item r) ->
  size d = Z.max 0 (size r - Z.of_nat n).
Proof. intros Hr Hd H. rewrite !size_items by done. rewrite H, length_drop. lia. Qed.

Lemma size_nonneg r : wf r -> 0 <= size r.
Proof. intros Hr. rewrite size_items by done. lia. Qed.

Lemma size_pos r : wf r -> 0 < size r <-> exists x, x ∈ r.
Proof.
  intros Hr. rewrite size_items by done. split.
  - intros H. destruct (next_item r) as [|x l] eqn:E; [simpl in H; lia|]. exists x.
    apply elem_of_next_item; [done|]. rewrite E. by left.
  - intros [x Hx]. apply elem_of_next_item in Hx; [|done]. destruct (next_item r); [by apply elem_of_nil in Hx|simpl; lia].
Qed.

Lemma size_bool r : wf r -> rs_bool r = (0 <? size r).
Proof.
  intros Hr. apply eq_true_iff_eq. rewrite rs_bool_spec, Z.ltb_lt by done. by rewrite size_pos.
Qed.

Lemma subset_nonneg (a b : RangeSet) : (forall x, x ∈ b -> x ∈ a) -> nonneg a -> nonneg b.
Proof. intros H Ha x Hx. by apply Ha, H. Qed.

Lemma sub_items a b : wf a -> wf b -> (forall x, x ∈ next_item b -> x ∈ next_item a) -> nonneg a -> nonneg b.
Proof.
  intros Ha Hb H. apply subset_nonneg. intros x Hx. apply elem_of_next_item; [done|]. apply H.
  by apply elem_of_next_item.
Qed.

Lemma block_range_ok b : 0 <= b -> block_range b = Ok (mkRangeSet [b; b + 1] true []).
Proof.
  intros Hb. assert (wf (mkRangeSet [b; b + 1] true [])) as Hw by (apply wf_range_set; lia).
  pose proof (parse_to_string (mkRangeSet [b; b + 1] true []) Hw) as H.
  unfold to_string, rs_iter in H. simpl in H. rewrite Z.eqb_refl in H. apply H.
  intros x Hx. apply elem_of_range_set in Hx; lia.
Qed.

Lemma union_size a b u : wf a -> wf b -> union a b = Ok u -> (forall x, x ∈ a -> x ∉ b) ->
  size u = size a + size b.
Proof.
  intros Ha Hb Hu Hd. destruct (union_inv a b u Ha Hb Hu) as [Hw Hx].
  assert (next_item u ≡ₚ next_item a ++ next_item b) as Hp.
  { apply NoDup_Permutation; [by apply NoDup_next_item| |].
    - apply NoDup_app. split_and!; [by apply NoDup_next_item| |by apply NoDup_next_item].
      intros x. rewrite !elem_of_next_item by done. apply Hd.
    - intros x. by rewrite elem_of_app, !elem_of_next_item. }
  rewrite !size_items by done. rewrite Hp, length_app. lia.
Qed.

(** * Plans *)

(** All target blocks of a plan: of the transfers made and of the large files
    still to be split. *)
Definition plan_blocks (p : Plan) : list Z :=
  flat_map (fun i => next_item (tgt_ranges (p_store p !!! i))) (p_transfers p) ++
  flat_map (fun '(_, _, t, _) => next_item t) (p_large p).

Definition good_pair (t s : RangeSet) : Prop := wf t /\ nonneg t /\ wf s /\ nonneg s.

(** The domain of blocks that are known to be zero. *)
Definition zero_blocks (img : Image) (r : RangeSet) : Prop :=
  forall b, b ∈ r -> exists z, ("__ZERO", z) ∈ file_map img /\ b ∈ z.

Section facts.
Context (tgt src : Image) (piece_ok : RangeSet -> RangeSet -> string -> Prop).

(** The three kinds of transfers: zeroes, new data, and a patch of some source. *)
Definition styled (sty : string) (t s : RangeSet) : Prop :=
  (exists b, b ∈ t) /\
  (sty = "zero" /\ zero_blocks tgt t /\ zero_blocks src s \/ sty = "new" /\ s = empty \/
   sty = "diff" /\ exists b, b ∈ s).

Lemma diff_styled t s : wf t -> wf s -> 0 < size t -> 0 < size s -> styled "diff" t s.
Proof. intros Ht Hs ?%size_pos ?%size_pos; [|done..]. split; [done|]. by right; right. Qed.

(** A transfer as the plan makes it: its hashes are those of its ranges, and a
    patch it has is a good one ([piece_ok]) made by imgdiff. *)
Record made (x : Transfer) : Prop := {
  md_styled : styled (style x) (tgt_ranges x) (src_ranges x);
  md_tgt_sha1 : tgt_sha1 x = RangeSha1 tgt (tgt_ranges x);
  md_src_sha1 : src_sha1 x = RangeSha1 src (src_ranges x);
  md_patch : forall p, patch_info x = Some p ->
    imgdiff p = true /\ piece_ok (tgt_ranges x) (src_ranges x) (content p)
}.

Record plan_ok (p : Plan) : Prop := {
  po_ids : p_transfers p = seq 0 (length (p_transfers p));
  po_ranges : ranges_ok (p_store p) (p_transfers p);
  po_made : forall i, i ∈ p_transfers p -> made (p_store p !!! i);
  po_large : forall tn sn t s, (tn, sn, t, s) ∈ p_large p -> good_pair t s /\ 0 < size t /\ 0 < size s
}.

(** [p'] extends [p] by transfers whose targets are the blocks [T]. *)
Definition extends (p p' : Plan) (T : list Z) : Prop :=
  plan_ok p' /\ plan_blocks p' ≡ₚ plan_blocks p ++ T.

Lemma extends_refl p : plan_ok p -> extends p p [].
Proof. intros H. split; [done|]. by rewrite app_nil_r. Qed.

Lemma extends_trans p1 p2 p3 T1 T2 T : extends p1 p2 T1 -> extends p2 p3 T2 -> T1 ++ T2 ≡ₚ T -> extends p1 p3 T.
Proof. intros [_ H1] [H2 H3] HT. split; [done|]. by rewrite H3, H1, <- app_assoc, HT. Qed.

Lemma extends_perm p p' T T' : T ≡ₚ T' -> extends p p' T -> extends p p' T'.
Proof. intros H [H1 H2]. split; [done|]. by rewrite H2, H. Qed.

Context (disable_imgdiff : bool) (mx : Z) (Hmx : 0 < mx).

Lemma add_one_ok tn sn t s sty p : plan_ok p -> good_pair t s -> styled sty t s ->
  extends p (add_one tgt src tn sn t s sty p) (next_item t).
Proof.
  intros [P1 P2 PM P3] (Ht & Hnt & Hs & Hns) Hsty. unfold add_one.
  destruct (new_transfer _ _ _ _ _ _ _ _ _) as [st ids] eqn:E.
  destruct (new_transfer_lookup _ _ _ _ _ _ _ _ _ _ _ E) as (-> & Ei & Es & Est & Eh1 & Eh2 & Epi & Eo).
  assert (forall i, i ∈ p_transfers p -> st !!! i = p_store p !!! i) as Hold.
  { intros i Hi. apply Eo. rewrite P1, elem_of_seq in Hi. lia. }
  split; [split|]; simpl.
  - rewrite length_app, seq_app. simpl. by rewrite <- P1.
  - intros i [Hi|Hi%list_elem_of_singleton]%elem_of_app; [rewrite Hold by done; by apply P2|].
    by rewrite Hi, Ei, Es.
  - intros i [Hi|Hi%list_elem_of_singleton]%elem_of_app; [rewrite Hold by done; by apply PM|].
    split; rewrite Hi, ?Ei, ?Es, ?Est, ?Eh1, ?Eh2; try done. by rewrite Epi.
  - done.
  - unfold plan_blocks. simpl. rewrite flat_map_app. simpl. rewrite app_nil_r, Ei.
    rewrite (flat_map_ext_in _ (fun i => next_item (tgt_ranges (p_store p !!! i))) (p_transfers p))
      by (intros i Hi; by rewrite Hold).
    rewrite <- !app_assoc. apply Permutation_app_head, Permutation_app_comm.
Qed.

Lemma set_stats_ok p T p' stats : extends p p' T ->
  extends p (mkPlan (p_store p') (p_transfers p') stats (p_large p')) T.
Proof. intros [[P1 P2 PM P3] H]. split; [by split|exact H]. Qed.

Lemma chunk_loop_ok fuel tn sn : forall pieces t s p,
  plan_ok p -> good_pair t s -> 0 < size t -> 0 < size s -> (Z.to_nat (size t) < fuel)%nat ->
  exists pieces' t' s' p' T, chunk_loop tgt src mx fuel tn sn "diff" pieces t s p = Ok (pieces', t', s', p') /\
    extends p p' T /\ T ++ next_item t' ≡ₚ next_item t /\ good_pair t' s' /\ 0 < size t' /\ 0 < size s'.
Proof.
  induction fuel as [|fuel IH]; intros pieces t s p Hp (Ht & Hnt & Hs & Hns) Hst Hss Hfuel; [lia|]. simpl.
  destruct (Z.ltb_spec mx (size t)), (Z.ltb_spec mx (size s)); simpl;
    try (exists pieces, t, s, p, []; split_and!; done || by apply extends_refl).
  destruct (first_rest t mx Ht) as (t1 & t2 & -> & Hsub & Hw1 & Hw2 & Hi1 & Hi2); [lia|].
  destruct (first_rest s mx Hs) as (s1 & s2 & -> & Hsub' & Hw1' & Hw2' & Hi1' & Hi2'); [lia|].
  rewrite Hsub, Hsub'.
  pose proof (size_drop _ _ _ Ht Hw2 Hi2) as Hd. pose proof (size_drop _ _ _ Hs Hw2' Hi2') as Hd'.
  assert (forall a b n, wf a -> nonneg a -> wf b -> next_item b = take n (next_item a) -> nonneg b) as Htake.
  { intros a b n Ha Hna Hb Hi. apply (sub_items a b); try done. intros x. rewrite Hi. apply subseteq_take. }
  assert (forall a b n, wf a -> nonneg a -> wf b -> next_item b = drop n (next_item a) -> nonneg b) as Hdrop.
  { intros a b n Ha Hna Hb Hi. apply (sub_items a b); try done. intros x. rewrite Hi. apply subseteq_drop. }
  pose proof (add_one_ok (split_name tn pieces) (Some (split_name sn pieces)) t1 s1 "diff" p Hp) as Hone.
  pose proof (size_take _ _ _ Ht Hw1 Hi1) as Hz. pose proof (size_take _ _ _ Hs Hw1' Hi1') as Hz'.
  destruct Hone as [Hp1 Hb1]; [by split_and!; eauto|apply diff_styled; done || lia|].
  destruct (IH (pieces + 1) t2 s2 _ Hp1) as (pieces' & t' & s' & p' & T & -> & Hext & HT & Hg & H1 & H2);
    [by split_and!; eauto|lia|lia|lia|].
  exists pieces', t', s', p', (next_item t1 ++ T). split_and!; try done.
  - eapply extends_trans; [by split|done|done].
  - rewrite <- app_assoc, HT, Hi1, Hi2. by rewrite take_drop.
Qed.

Lemma fixed_chunks_ok tn sn t s p :
  plan_ok p -> good_pair t s -> 0 < size t -> 0 < size s ->
  exists p', AddSplitTransfersWithFixedSizeChunks tgt src mx tn sn t s "diff" p = Ok p' /\ extends p p' (next_item t).
Proof.
  intros Hp Hg Ht Hs. unfold AddSplitTransfersWithFixedSizeChunks.
  destruct (chunk_loop_ok (S (Z.to_nat (size t))) tn sn 0 t s p Hp Hg Ht Hs)
    as (pieces & t' & s' & p1 & T & -> & He & HT & Hg' & Ht' & Hs'); [lia|].
  assert ((size t' =? 0) = false) as -> by (apply Z.eqb_neq; lia).
  assert ((size s' =? 0) = false) as -> by (apply Z.eqb_neq; lia). simpl.
  eexists. split; [done|]. eapply extends_trans; [exact He|apply add_one_ok; [apply He|done|]|done].
  apply diff_styled; [apply Hg'..|done|done].
Qed.

Lemma Log_ok name reason st : FileTypeSupportedByImgdiff name = true -> reason ∈ REASONS ->
  Log name reason st = Ok (od_set reason (os_add name (default [] (od_get reason st))) st).
Proof. intros H1 H2. unfold Log. by rewrite H1, bool_decide_eq_true_2. Qed.

(** The decision of [CanUseImgdiff]. *)
Definition imgdiff_usable (name : string) (t s : RangeSet) : bool :=
  negb disable_imgdiff && FileTypeSupportedByImgdiff name && rs_monotonic t && rs_monotonic s &&
  negb (extra_true "uses_shared_blocks" t) && negb (extra_true "uses_shared_blocks" s) &&
  negb (extra_true "incomplete" t) && negb (extra_true "incomplete" s).

(** The reason it logs, if any. *)
Definition imgdiff_reason (name : string) (t s : RangeSet) (large : bool) : option string :=
  if disable_imgdiff || negb (FileTypeSupportedByImgdiff name) then None
  else Some (if negb (rs_monotonic t) || negb (rs_monotonic s) then SKIPPED_NONMONOTONIC
             else if extra_true "uses_shared_blocks" t || extra_true "uses_shared_blocks" s then SKIPPED_SHARED_BLOCKS
             else if extra_true "incomplete" t || extra_true "incomplete" s then SKIPPED_INCOMPLETE
             else if large then USED_IMGDIFF_LARGE_APK else USED_IMGDIFF).

Lemma CanUseImgdiff_ok name t s large st :
  CanUseImgdiff disable_imgdiff name t s large st =
  Ok (imgdiff_usable name t s,
      match imgdiff_reason name t s large with
      | None => st
      | Some r => od_set r (os_add name (default [] (od_get r st))) st
      end).
Proof.
  unfold CanUseImgdiff, imgdiff_usable, imgdiff_reason.
  destruct disable_imgdiff; [done|]. destruct (FileTypeSupportedByImgdiff name) eqn:Ef; [|done]. simpl.
  assert (forall r, r ∈ REASONS -> Log name r st = Ok (od_set r (os_add name (default [] (od_get r st))) st)) as HL
    by (intros r; by apply Log_ok).
  destruct (rs_monotonic t), (rs_monotonic s); simpl; try (rewrite HL by (by apply (bool_decide_unpack _)); done).
  destruct (extra_true "uses_shared_blocks" t), (extra_true "uses_shared_blocks" s); simpl;
    try (rewrite HL by (by apply (bool_decide_unpack _)); done).
  destruct (extra_true "incomplete" t), (extra_true "incomplete" s); simpl;
    try (rewrite HL by (by apply (bool_decide_unpack _)); done).
  destruct large; (rewrite HL by (by apply (bool_decide_unpack _)); done).
Qed.

Lemma split_transfers_ok tn sn t s p :
  plan_ok p -> good_pair t s -> 0 < size t -> 0 < size s ->
  exists p', AddSplitTransfers tgt src disable_imgdiff mx tn sn t s "diff" p = Ok p' /\ extends p p' (next_item t).
Proof.
  intros Hp Hg Ht Hs. unfold AddSplitTransfers. simpl.
  destruct (_ && _); [eexists; split; [done|apply add_one_ok; [done..|by apply diff_styled; [apply Hg|apply Hg| |]]]|].
  destruct (_ && _); [|by apply fixed_chunks_ok]. rewrite CanUseImgdiff_ok.
  set (st' := match _ with Some _ => _ | None => _ end).
  set (p1 := mkPlan (p_store p) (p_transfers p) st' (p_large p)).
  assert (plan_ok p1) as Hp1 by by destruct Hp.
  destruct (imgdiff_usable tn t s); [|by apply (fixed_chunks_ok tn sn t s p1)].
  eexists. split; [done|]. destruct Hp as [P1 P2 PM P3]. split; [split|]; simpl; try done.
  - intros tn' sn' t' s' [Hin|Hin%list_elem_of_singleton]%elem_of_app; [by eapply P3|]. by simplify_eq.
  - unfold plan_blocks. simpl. rewrite flat_map_app. simpl. by rewrite app_nil_r, app_assoc.
Qed.

(** ** Files of the same size, block by block *)

Lemma crop_loop_ok sz l : forall tsk ssk ch done,
  wf tsk -> wf ssk ->
  (forall x, x ∈ tsk -> x ∈ map snd done) -> (forall x, x ∈ ssk -> x ∈ map fst done) ->
  size tsk = size ssk -> ch + size tsk = Z.of_nat (length done) -> 0 <= ch ->
  NoDup (map fst (done ++ l)) -> NoDup (map snd (done ++ l)) ->
  Forall (fun p => 0 <= p.1 /\ 0 <= p.2) l ->
  exists tsk' ssk' ch', crop_loop tgt src sz l tsk ssk ch = Ok (tsk', ssk', ch') /\ wf tsk' /\ wf ssk' /\
    (forall x, x ∈ tsk' -> x ∈ map snd (done ++ l)) /\ (forall x, x ∈ ssk' -> x ∈ map fst (done ++ l)) /\
    size tsk' = size ssk' /\ 0 <= ch' /\
    (sz < 2 * ch' \/ ch' + size tsk' = Z.of_nat (length (done ++ l))).
Proof.
  induction l as [|[bs bt] l IH]; intros tsk ssk ch done Hwt Hws Hit His Hsz Hch Hpos Hn1 Hn2 Hall; simpl.
  { exists tsk, ssk, ch. rewrite app_nil_r. split_and!; try done. by right. }
  apply Forall_cons in Hall as [[Hbs Hbt] Hall]. simpl in Hbs, Hbt.
  rewrite !block_range_ok by done.
  set (rs := mkRangeSet [bs; bs + 1] true []). set (rt := mkRangeSet [bt; bt + 1] true []).
  assert (wf rs /\ wf rt) as [Hwrs Hwrt] by (split; apply wf_range_set; lia).
  assert (forall x, x ∈ rs <-> x = bs) as Hrs by (intros x; unfold rs; rewrite elem_of_range_set; lia).
  assert (forall x, x ∈ rt <-> x = bt) as Hrt by (intros x; unfold rt; rewrite elem_of_range_set; lia).
  assert (size rs = 1 /\ size rt = 1) as [Hs1 Ht1] by (unfold size; simpl; lia).
  replace (done ++ (bs, bt) :: l) with ((done ++ [(bs, bt)]) ++ l) in * by by rewrite <- app_assoc.
  assert (bt ∉ map snd done) as Hbt'.
  { rewrite !map_app in Hn2. simpl in Hn2. apply NoDup_app in Hn2 as ((_ & Hd & _)%NoDup_app & _).
    intros Hin. apply (Hd bt Hin). by left. }
  assert (bs ∉ map fst done) as Hbs'.
  { rewrite !map_app in Hn1. simpl in Hn1. apply NoDup_app in Hn1 as ((_ & Hd & _)%NoDup_app & _).
    intros Hin. apply (Hd bs Hin). by left. }
  assert (forall tsk1 ssk1 ch1, wf tsk1 -> wf ssk1 ->
    (forall x, x ∈ tsk1 -> x ∈ tsk \/ x = bt) -> (forall x, x ∈ ssk1 -> x ∈ ssk \/ x = bs) ->
    size tsk1 = size ssk1 -> ch1 + size tsk1 = ch + size tsk + 1 -> 0 <= ch1 ->
    exists tsk' ssk' ch', (if sz <? 2 * ch1 then Ok (tsk1, ssk1, ch1) else crop_loop tgt src sz l tsk1 ssk1 ch1)
        = Ok (tsk', ssk', ch') /\ wf tsk' /\ wf ssk' /\
      (forall x, x ∈ tsk' -> x ∈ map snd ((done ++ [(bs, bt)]) ++ l)) /\
      (forall x, x ∈ ssk' -> x ∈ map fst ((done ++ [(bs, bt)]) ++ l)) /\
      size tsk' = size ssk' /\ 0 <= ch' /\
      (sz < 2 * ch' \/ ch' + size tsk' = Z.of_nat (length ((done ++ [(bs, bt)]) ++ l)))) as Hstep.
  { intros tsk1 ssk1 ch1 Hw1 Hw2 Hi1 Hi2 Hs Hc Hp.
    assert (forall x, x ∈ tsk1 -> x ∈ map snd (done ++ [(bs, bt)])) as Hj1.
    { intros x Hx. rewrite map_app, elem_of_app. destruct (Hi1 x Hx) as [?| ->]; [left; auto|right; by left]. }
    assert (forall x, x ∈ ssk1 -> x ∈ map fst (done ++ [(bs, bt)])) as Hj2.
    { intros x Hx. rewrite map_app, elem_of_app. destruct (Hi2 x Hx) as [?| ->]; [left; auto|right; by left]. }
    destruct (Z.ltb_spec sz (2 * ch1)).
    - exists tsk1, ssk1, ch1. split_and!; try done; [| |by left]; intros x Hx; rewrite map_app, elem_of_app; left; auto.
    - apply IH; try done. rewrite length_app. simpl. lia. }
  destruct (String.eqb _ _).
  - destruct (union_ok tsk rt Hwt Hwrt) as (u & Hu & Hwu & Hxu). rewrite Hu.
    destruct (union_ok ssk rs Hws Hwrs) as (v & Hv & Hwv & Hxv). rewrite Hv.
    assert (size u = size tsk + 1) as Hsu.
    { rewrite (union_size tsk rt u) by (try done; intros x Hx ->%Hrt; auto). lia. }
    assert (size v = size ssk + 1) as Hsv.
    { rewrite (union_size ssk rs v) by (try done; intros x Hx ->%Hrs; auto). lia. }
    apply Hstep; try done; [intros x; rewrite Hxu, Hrt; done|intros x; rewrite Hxv, Hrs; done|lia|lia].
  - apply Hstep; try done; [by left|by left|lia|lia].
Qed.

Lemma map_fst_zip {A B} (l1 : list A) (l2 : list B) : length l1 = length l2 -> map fst (zip l1 l2) = l1.
Proof. revert l2. induction l1 as [|x l1 IH]; intros [|y l2] H; simpl in *; try done. f_equal. apply IH. lia. Qed.
Lemma map_snd_zip {A B} (l1 : list A) (l2 : list B) : length l1 = length l2 -> map snd (zip l1 l2) = l2.
Proof. revert l2. induction l1 as [|x l1 IH]; intros [|y l2] H; simpl in *; try done. f_equal. apply IH. lia. Qed.

(** Removing a subset from a range set. *)
Lemma subtract_subset a b : wf a -> nonneg a -> wf b -> (forall x, x ∈ b -> x ∈ a) ->
  exists d, subtract a b = Ok d /\ wf d /\ nonneg d /\ size d = size a - size b /\
    next_item b ++ next_item d ≡ₚ next_item a.
Proof.
  intros Ha Hna Hb Hsub. destruct (subtract_ok a b Ha Hb) as (d & Hd & Hwd & Hxd). exists d.
  assert (next_item b ++ next_item d ≡ₚ next_item a) as Hp.
  { apply NoDup_Permutation; [|by apply NoDup_next_item|].
    - apply NoDup_app. split_and!; [by apply NoDup_next_item| |by apply NoDup_next_item].
      intros x. rewrite !elem_of_next_item by done. rewrite Hxd. tauto.
    - intros x. rewrite elem_of_app, !elem_of_next_item, Hxd by done.
      destruct (decide (x ∈ b)); naive_solver. }
  split_and!; try done.
  - intros x Hx. apply Hna. by apply Hxd in Hx as [? _].
  - rewrite !size_items by done. rewrite <- Hp, length_app. lia.
Qed.

Lemma next_item_zip_nonneg t s : wf t -> nonneg t -> wf s -> nonneg s ->
  Forall (fun p => 0 <= p.1 /\ 0 <= p.2) (zip (next_item s) (next_item t)).
Proof.
  intros Ht Hnt Hs Hns. apply list.Forall_forall. intros [a b] Hab. pose proof (elem_of_zip_l _ _ _ _ Hab) as Ha. pose proof (elem_of_zip_r _ _ _ _ Hab) as Hb. simpl.
  apply elem_of_next_item in Ha, Hb; [|done..]. split; auto.
Qed.

Lemma AddTransfer_ok tn sn t s sty split p :
  plan_ok p -> good_pair t s -> styled sty t s ->
  exists p', AddTransfer tgt src disable_imgdiff mx tn sn t s sty split p = Ok p' /\ extends p p' (next_item t).
Proof.
  intros Hp (Ht & Hnt & Hs & Hns) Hsty. unfold AddTransfer.
  destruct (String.eqb_spec sty "diff") as [->|]; simpl; [|eexists; split; [done|by apply add_one_ok]].
  destruct split; simpl; [|eexists; split; [done|by apply add_one_ok]].
  destruct Hsty as [Hpt%size_pos Hps]; [|done]. destruct Hps as [[? _]|[[? _]|[_ Hps%size_pos]]]; [done..| |done].
  destruct (is_odex tn && (size t =? size s)) eqn:Eo; [|by apply split_transfers_ok]. bool_prop.
  assert (length (next_item s) = length (next_item t)) as Hlen.
  { rewrite !size_items in * by done. lia. }
  destruct (crop_loop_ok (size t) (zip (next_item s) (next_item t)) empty empty 0 [])
    as (tsk & ssk & ch & -> & Hwt & Hws & Hit & His & Hsz & Hch & Hend); try done.
  { apply wf_empty. }
  { apply wf_empty. }
  { simpl. rewrite map_fst_zip by done. by apply NoDup_next_item. }
  { simpl. rewrite map_snd_zip by done. by apply NoDup_next_item. }
  { by apply next_item_zip_nonneg. }
  simpl app in *. rewrite map_snd_zip in Hit by done. rewrite map_fst_zip in His by done.
  assert (forall x, x ∈ tsk -> x ∈ t) as Hit' by (intros x Hx; apply elem_of_next_item; auto).
  assert (forall x, x ∈ ssk -> x ∈ s) as His' by (intros x Hx; apply elem_of_next_item; auto).
  destruct (Z.ltb_spec (2 * ch) (size t)) as [Hlt|]; [|by apply split_transfers_ok].
  assert (ch + size tsk = size t) as Hsum.
  { destruct Hend as [?|Hend]; [lia|]. rewrite Hend, length_zip_with_l_eq by done.
    rewrite Hlen. by rewrite size_items. }
  rewrite Hsum, Z.eqb_refl.
  destruct (split_transfers_ok (tn +:+ "-skipped") (sn +:+ "-skipped") tsk ssk p Hp) as (p1 & -> & He1).
  { split_and!; [done|by eapply subset_nonneg|done|by eapply subset_nonneg]. }
  { lia. }
  { lia. }
  destruct (subtract_subset t tsk) as (t2 & -> & Hwt2 & Hnt2 & Hst2 & Hperm); try done.
  destruct (subtract_subset s ssk) as (s2 & -> & Hws2 & Hns2 & Hss2 & _); try done.
  rewrite size_bool by done. destruct (Z.ltb_spec 0 (size t2)).
  - destruct (split_transfers_ok (tn +:+ "-cropped") (sn +:+ "-cropped") t2 s2 p1) as (p2 & -> & He2).
    { apply He1. }
    { by split_and!. }
    { done. }
    { lia. }
    exists p2. split; [done|]. by eapply extends_trans.
  - exists p1. split; [done|]. eapply extends_perm; [|exact He1]. rewrite <- Hperm.
    pose proof (size_items t2 Hwt2) as Hi2. pose proof (size_nonneg t2 Hwt2).
    destruct (next_item t2); [by rewrite app_nil_r|simpl in Hi2; lia].
Qed.
End facts.

(** * Large APKs *)

(** The numbers on the lines of the split information are not negative. *)
Definition split_line_nonneg (line : string) : Prop :=
  forall i0 i1 i2, split_ws line = [i0; i1; i2] ->
    (forall v, py_int i1 = Ok v -> 0 <= v) /\
    (forall q a b, parse_raw i2 = Ok q -> (a, b) ∈ rs_iter q -> 0 <= a /\ 0 <= b).

(** The pieces found so far are good, and with the rest they make up [t]. *)
Definition pieces_ok (t : RangeSet) (st : Z * RangeSet * list (Z * Z * RangeSet * RangeSet)) : Prop :=
  let '(start, remain, out) := st in
  wf remain /\ nonneg remain /\
  flat_map (fun '(_, _, q, _) => next_item q) out ++ next_item remain = next_item t /\
  (forall a b q s, (a, b, q, s) ∈ out -> good_pair q s) /\
  start = sumZ (map (fun '(_, len, _, _) => len) out) /\
  (forall k a b q s, out !! k = Some (a, b, q, s) -> a = sumZ (map (fun '(_, len, _, _) => len) (take k out))).

Lemma split_src_ok s l r : wf s -> nonneg s -> Forall (fun p => 0 <= p.1 /\ 0 <= p.2) l ->
  foldM (fun acc '(a, b) =>
           let! hi := first s b in let! lo := first s a in let! curr := subtract hi lo in
           assert! negb (overlaps acc curr) in union acc curr) empty l = Ok r ->
  wf r /\ forall x, x ∈ r -> x ∈ s.
Proof.
  intros Hs Hns Hl Hf.
  apply (foldM_ind (fun _ r => wf r /\ forall x, x ∈ r -> x ∈ s) _ _ _ _ Hf).
  - split; [apply wf_empty|done].
  - intros pre [a b] post t t' Hz [Hwt Hin] Hstep. rewrite Hz in Hl.
    apply Forall_app in Hl as [_ [[Ha Hb] _]%Forall_cons]. simpl in Ha, Hb.
    destruct (first_ok s b Hs Hb) as (hi & Hhi & Hwhi & Hihi). rewrite Hhi in Hstep.
    destruct (first_ok s a Hs Ha) as (lo & Hlo & Hwlo & _). rewrite Hlo in Hstep.
    destruct (subtract_ok hi lo Hwhi Hwlo) as (c & Hc & Hwc & Hxc). rewrite Hc in Hstep. inv_ok.
    destruct (union_inv t c t' Hwt Hwc Hstep) as [Hw Hx]. split; [done|].
    intros x [?|[Hh _]%Hxc]%Hx; [auto|]. apply elem_of_next_item in Hh; [|done].
    rewrite Hihi in Hh. apply elem_of_next_item; [done|]. by eapply subseteq_take.
Qed.

Lemma split_line_inv t s st line st' : good_pair t s -> split_line_nonneg line ->
  pieces_ok t st -> split_line s st line = Ok st' -> pieces_ok t st'.
Proof.
  intros (Ht & Hnt & Hs & Hns) Hnn. destruct st as [[start remain] out].
  intros (Hwr & Hnr & Hcat & Hgood & Hstart & Hstarts). unfold split_line.
  destruct (split_ws line) as [|i0 [|i1 [|i2 [|]]]] eqn:El; try done.
  destruct (Hnn i0 i1 i2 El) as [Hn1 Hn2]. intros H.
  destruct (py_int i0) as [len|]; [|done]. destruct (py_int i1) as [sz|] eqn:E1; [|done].
  destruct (sz mod 4096 =? 0) eqn:E2; [|done]. destruct (sz / 4096 <=? size remain) eqn:E3; [|done].
  assert (0 <= sz / 4096) as Hn by (apply Z.div_pos; [by apply Hn1|lia]).
  destruct (first_rest remain (sz / 4096) Hwr Hn) as (q & d & Hq & Hd & Hwq & Hwd & Hiq & Hid).
  rewrite Hq, Hd in H. destruct (parse_raw i2) as [ind|] eqn:E4; [|done].
  destruct (foldM _ empty (rs_iter ind)) as [ss|] eqn:E5; [|done].
  apply split_src_ok in E5 as [Hwss Hss]; [|done..|].
  2: { apply list.Forall_forall. intros [a b] Hab. by apply (Hn2 ind a b). }
  injection H as <-. unfold pieces_ok.
  assert (nonneg q /\ nonneg d) as [Hnq Hnd].
  { split; eapply (sub_items remain); try done; intros x; [rewrite Hiq; apply subseteq_take|rewrite Hid; apply subseteq_drop]. }
  split_and!; try done.
  - rewrite flat_map_app. simpl. rewrite app_nil_r, <- app_assoc, Hiq, Hid, take_drop. done.
  - intros a b q' s' [Hin|Hin%list_elem_of_singleton]%elem_of_app; [by eapply Hgood|]. simplify_eq.
    split_and!; try done. by eapply subset_nonneg.
  - rewrite map_app, sumZ_app. simpl. lia.
  - intros k a b q' s' Hk. destruct (decide (k < length out)%nat) as [Hlt|Hge].
    + rewrite lookup_app_l in Hk by done. rewrite take_app_le by lia. by eapply Hstarts.
    + rewrite lookup_app_r in Hk by lia. destruct (k - length out)%nat as [|n] eqn:En; [|done].
      simpl in Hk. simplify_eq. assert (k = length out) as -> by lia. by rewrite take_app_length.
Qed.

(** The pieces of accepted split information cut the target in order and the
    patch file into consecutive parts. *)
Lemma ParseAndValidateSplitInfo_inv n t s lines out : good_pair t s -> Forall split_line_nonneg lines ->
  ParseAndValidateSplitInfo n t s lines = Ok out ->
  flat_map (fun '(_, _, q, _) => next_item q) out = next_item t /\
  (forall a b q s', (a, b, q, s') ∈ out -> good_pair q s') /\
  sumZ (map (fun '(_, len, _, _) => len) out) = n /\
  (forall k a b q s', out !! k = Some (a, b, q, s') -> a = sumZ (map (fun '(_, len, _, _) => len) (take k out))) /\
  length lines = S (S (length out)).
Proof.
  intros Hg Hnn. unfold ParseAndValidateSplitInfo. intros H.
  destruct (py_get lines 0) as [v|]; [|done]. destruct (py_int v) as [ver|]; [|done].
  destruct (ver =? 2); [|done]. destruct (py_get lines 1) as [c|] eqn:E1; [|done].
  destruct (py_int c) as [cnt|]; [|done]. destruct (_ - 2 =? cnt); [|done].
  destruct (foldM (split_line s) _ _) as [[[start remain] out']|] eqn:Ef; [|done]. inv_ok. bool_prop.
  assert (2 <= length lines)%nat as Hlen.
  { unfold py_get, py_idx in E1. destruct lines as [|a [|b l]]; simpl in *; try done. lia. }
  assert (pieces_ok t (start, remain, out) /\ length out = length (drop 2 lines)) as [Hp Hlo].
  { apply (foldM_ind (fun pre st => pieces_ok t st /\ length st.2 = length pre) _ _ _ _ Ef).
    - split; [|done]. destruct Hg as (Ht & Hnt & _). unfold pieces_ok. split_and!; try done.
      intros a b q s' Hk. by apply elem_of_nil in Hk.
    - intros pre line post [[a1 b1] c1] [[a2 b2] c2] Hl [Hp Hlen'] Hs. split.
      + eapply split_line_inv; [done| |exact Hp|exact Hs].
        assert (line ∈ lines) as Hin.
        { eapply subseteq_drop with (n := 2%nat). rewrite Hl, elem_of_app. right; by left. }
        rewrite list.Forall_forall in Hnn. by apply Hnn.
      + simpl in *. rewrite length_app. simpl. unfold split_line in Hs.
        destruct (split_ws line) as [|? [|? [|? [|]]]]; try done. inv_ok.
        rewrite length_app. simpl. lia. }
  destruct Hp as (Hwr & _ & Hcat & Hgood & Hst & Hsts). split_and!; try done.
  - pose proof (size_items remain Hwr) as Hsz.
    destruct (next_item remain); [by rewrite app_nil_r in Hcat|simpl in Hsz; lia].
  - lia.
  - rewrite length_drop in Hlo. lia.
Qed.

(** * FindTransfers *)

(** The file map of an image: named, non-empty, well-formed range sets. *)
Definition files_ok (img : Image) : Prop :=
  forall k r, (k, r) ∈ file_map img -> wf r /\ nonneg r /\ 0 < size r.

(** The blocks of the target files that get a transfer. *)
Definition diffed (f : string * RangeSet) : list Z := if String.eqb f.1 "__HASHTREE" then [] else next_item f.2.
Definition file_blocks (img : Image) : list Z := flat_map diffed (file_map img).

Lemma AbbreviateSourceNames_ok src : let '(bases, pats) := AbbreviateSourceNames src in
  (forall b k, od_get b bases = Some k -> k ∈ od_keys (file_map src)) /\
  (forall b k, od_get b pats = Some k -> k ∈ od_keys (file_map src)).
Proof.
  unfold AbbreviateSourceNames.
  assert (forall (l : list (string * RangeSet)) acc, (forall f, f ∈ l -> f.1 ∈ od_keys (file_map src)) ->
    (forall b k, od_get b acc.1 = Some k -> k ∈ od_keys (file_map src)) ->
    (forall b k, od_get b acc.2 = Some k -> k ∈ od_keys (file_map src)) ->
    let '(bases, pats) := fold_left (fun '(bases, pats) '(k, _) =>
      let b := basename k in (od_set b k bases, od_set (number_pattern b) k pats)) l acc in
    (forall b k, od_get b bases = Some k -> k ∈ od_keys (file_map src)) /\
    (forall b k, od_get b pats = Some k -> k ∈ od_keys (file_map src))) as Hgen.
  { induction l as [|[k r] l IH]; intros [ba pa] Hl H1 H2; simpl; [by split|].
    apply IH; simpl; [intros f Hf; apply Hl; by right| |]; intros b k'; rewrite od_get_set; case_decide.
    - intros [= <-]. by apply (Hl (k, r)); left.
    - apply H1.
    - intros [= <-]. by apply (Hl (k, r)); left.
    - apply H2. }
  apply Hgen; try done. intros f Hf. by apply list_elem_of_fmap_2.
Qed.

Section find_facts.
Context (tgt src : Image) (piece_ok : RangeSet -> RangeSet -> string -> Prop) (disable_imgdiff : bool) (mx : Z) (Hmx : 0 < mx).
Context (run_imgdiff : RangeSet -> RangeSet -> result (string * list string)) (threads : nat) (Hthreads : (0 < threads)%nat).
Context (Himgdiff : forall t s, good_pair t s -> 0 < size t -> 0 < size s ->
  exists patch lines info, run_imgdiff s t = Ok (patch, lines) /\ Forall split_line_nonneg lines /\
    ParseAndValidateSplitInfo (str_len patch) t s lines = Ok info /\
    forall a b q r, (a, b, q, r) ∈ info -> 0 < size q /\ 0 < size r /\
      piece_ok q r (String.substring (Z.to_nat a) (Z.to_nat b) patch)).

Definition apk_blocks (x : split_apk) : list Z := let '(_, _, t, _, _) := x in next_item t.
Definition apk_good (x : split_apk) : Prop := let '(_, _, t, s, p) := x in good_pair t s /\ 0 < size t /\ 0 < size s /\ piece_ok t s p.

Lemma SplitLargeApk_ok tn sn t s : good_pair t s -> 0 < size t -> 0 < size s ->
  exists l, SplitLargeApk run_imgdiff (tn, sn, t, s) = Ok l /\ Forall apk_good l /\
    flat_map apk_blocks l = next_item t.
Proof.
  intros Hg Ht Hs. destruct (Himgdiff t s Hg Ht Hs) as (patch & lines & info & Hrun & Hnn & Hparse & Hpos).
  unfold SplitLargeApk. rewrite Hrun, Hparse.
  destruct (ParseAndValidateSplitInfo_inv _ t s lines info Hg Hnn Hparse) as (Hcat & Hgood & _).
  eexists. split; [done|]. split.
  - apply list.Forall_forall. intros x Hx. apply list_elem_of_lookup in Hx as [k Hk].
    rewrite list_lookup_imap in Hk. destruct (info !! k) as [[[[a b] q] r]|] eqn:E; [|done].
    simpl in Hk. injection Hk as <-. apply list_elem_of_lookup_2 in E. split; [by apply (Hgood a b q r)|by apply (Hpos a b q r)].
  - rewrite <- Hcat. clear. generalize 0%nat as n.
    assert (forall (f : nat -> Z * Z * RangeSet * RangeSet -> split_apk) l,
      (forall n a b q r, apk_blocks (f n (a, b, q, r)) = next_item q) ->
      flat_map apk_blocks (imap f l) = flat_map (fun '(_, _, q, _) => next_item q) l) as H.
    { intros f l. revert f. induction l as [|[[[a b] q] r] l IH]; intros f Hf; simpl; [done|].
      rewrite Hf. f_equal. apply IH. intros n. apply Hf. }
    intros _. by apply H.
Qed.

Lemma SplitLargeApks_ok large :
  (forall tn sn t s, (tn, sn, t, s) ∈ large -> good_pair t s /\ 0 < size t /\ 0 < size s) ->
  Forall apk_good (SplitLargeApks run_imgdiff threads large) /\
  flat_map apk_blocks (SplitLargeApks run_imgdiff threads large) = flat_map (fun '(_, _, t, _) => next_item t) large.
Proof.
  intros Hlarge. destruct threads as [|n]; [lia|]. induction large as [|[[[tn sn] t] s] large IH]; [done|]. cbn [SplitLargeApks].
  destruct (Hlarge tn sn t s) as (Hg & Ht & Hs); [by left|]. destruct (SplitLargeApk_ok tn sn t s Hg Ht Hs) as (l & -> & Hgl & Hbl).
  destruct IH as [H1 H2]; [intros; apply (Hlarge tn0 sn0); by right|]. rewrite flat_map_app, Hbl. cbn [flat_map]. rewrite <- H2.
  split; [by apply Forall_app|done].
Qed.

Lemma add_split_apk_ok p x : plan_ok tgt src piece_ok p -> apk_good x ->
  exists p', add_split_apk tgt src p x = Ok p' /\ extends tgt src piece_ok p p' (apk_blocks x) /\ p_large p' = p_large p.
Proof.
  intros Hp Hx. destruct x as [[[[tn sn] t] s] patch]. destruct Hx as (Hx & Htp & Hsp & Hpc). unfold add_split_apk.
  pose proof (add_one_ok tgt src piece_ok tn (Some sn) t s "diff" p Hp Hx) as [Hp1 Hb1]; [apply diff_styled; [apply Hx..|done|done]|].
  set (p1 := add_one tgt src tn (Some sn) t s "diff" p) in *.
  assert (style (p_store p1 !!! (length (p_transfers p) : tid)) = "diff" /\ p_large p1 = p_large p) as [Hsty Hlg].
  { unfold p1, add_one. destruct (new_transfer _ _ _ _ _ _ _ _ _) as [st ids] eqn:E. simpl.
    split; [|done]. by eapply new_transfer_lookup. }
  unfold set_patch_info. rewrite Hsty. simpl. eexists. split; [done|]. simpl. split; [|done].
  set (st := upd _ _ _).
  assert (forall i, tgt_ranges (st !!! i) = tgt_ranges (p_store p1 !!! i) /\
                    src_ranges (st !!! i) = src_ranges (p_store p1 !!! i)) as Hi.
  { intros i. split; apply upd_field; setter. }
  destruct Hp1 as [Q1 Q2 QM Q3]. split; [split|]; simpl; try done.
  - intros i Hin. destruct (Hi i) as [-> ->]. by apply Q2.
  - intros i Hin. destruct (QM i Hin) as [M1 M2 M3 M4]. unfold st. destruct (Hi i) as [Ht Hs]. unfold st in Ht, Hs.
    split; rewrite ?Ht, ?Hs, ?(upd_field style), ?(upd_field tgt_sha1), ?(upd_field src_sha1) by setter; try done.
    intros q. rewrite lookup_total_upd. case_decide; [subst i|apply M4].
    assert (tgt_ranges (p_store p1 !!! (length (p_transfers p) : tid)) = t /\ src_ranges (p_store p1 !!! (length (p_transfers p) : tid)) = s) as [-> ->].
    { unfold p1, add_one. destruct (new_transfer _ _ _ _ _ _ _ _ _) as [st1 ids] eqn:E. simpl.
      by destruct (new_transfer_lookup _ _ _ _ _ _ _ _ _ _ _ E) as (_ & ? & ? & _). }
    intros Hq. assert (q = mkPatchInfo true patch) as ->; [|done]. revert Hq. destruct (p_store p1 !!! _). simpl. congruence.
  - rewrite <- Hb1. unfold plan_blocks. simpl.
    rewrite (flat_map_ext_in _ (fun i => next_item (tgt_ranges (p_store p1 !!! i)))); [done|].
    intros i _. by rewrite (proj1 (Hi i)).
Qed.

Lemma add_split_apks_ok l : forall p, plan_ok tgt src piece_ok p -> Forall apk_good l ->
  exists p', foldM (add_split_apk tgt src) p l = Ok p' /\ extends tgt src piece_ok p p' (flat_map apk_blocks l) /\ p_large p' = p_large p.
Proof.
  induction l as [|x l IH]; intros p Hp Hl; simpl; [exists p; split_and!; try done; by apply extends_refl|].
  apply Forall_cons in Hl as [Hx Hl]. destruct (add_split_apk_ok p x Hp Hx) as (p1 & -> & He & Hlg).
  destruct (IH p1) as (p2 & -> & He2 & Hlg2); [apply He|done|]. exists p2. split; [done|].
  split; [by eapply extends_trans|by rewrite Hlg2].
Qed.

Context (bases pats : list (string * string)).
Context (Htgt : files_ok tgt) (Hsrc : files_ok src).
Context (Hbases : forall b k, od_get b bases = Some k -> k ∈ od_keys (file_map src)).
Context (Hpats : forall b k, od_get b pats = Some k -> k ∈ od_keys (file_map src)).

Lemma find_for_file_ok p f : plan_ok tgt src piece_ok p -> f ∈ file_map tgt ->
  exists p', find_for_file tgt src disable_imgdiff mx bases pats p f = Ok p' /\ extends tgt src piece_ok p p' (diffed f).
Proof.
  intros Hp Hf. destruct f as [fn t]. destruct (Htgt fn t Hf) as (Hw & Hn & Hsz). unfold find_for_file, diffed. simpl.
  assert (forall s, wf s -> nonneg s -> good_pair t s) as Hgood by (intros s ? ?; by split_and!).
  assert (forall b, ~ b ∈ empty) as Hge_empty.
  { intros b Hb. by apply elem_of_next_item in Hb; [apply elem_of_nil in Hb|apply wf_empty]. }
  assert (good_pair t empty) as Hge.
  { apply Hgood; [apply wf_empty|]. intros x Hx. by apply elem_of_next_item in Hx; [apply elem_of_nil in Hx|apply wf_empty]. }
  assert (forall k, k ∈ od_keys (file_map src) -> exists p',
    (let! s := of_option KeyError (od_get k (file_map src)) in
     AddTransfer tgt src disable_imgdiff mx fn k t s "diff" true p) = Ok p' /\ extends tgt src piece_ok p p' (next_item t)) as Hdiff.
  { intros k [s Hs]%od_get_is_Some. rewrite Hs. simpl. apply od_get_In in Hs.
    destruct (Hsrc k s Hs) as (Hws & Hns & Hss). apply AddTransfer_ok; auto. by apply diff_styled. }
  assert (exists b, b ∈ t) as Hne by by apply size_pos.
  assert (styled tgt src "new" t empty) as Hnew by (split; [done|by right; left]).
  destruct (String.eqb_spec fn "__ZERO") as [->|].
  { simpl. assert (zero_blocks tgt t) as Hz by (intros b Hb; by exists t).
    destruct (od_get "__ZERO" (file_map src)) as [s|] eqn:E; apply AddTransfer_ok; try done.
    - apply od_get_In in E. destruct (Hsrc _ s E) as (? & ? & _). by apply Hgood.
    - apply od_get_In in E. split; [done|]. left. split_and!; [done..|]. intros b Hb. by exists s.
    - split; [done|]. left. split_and!; [done..|]. intros b Hb. exfalso. by apply (Hge_empty b). }
  destruct (String.eqb_spec fn "__COPY") as [->|]; [simpl; eexists; split; [done|by apply add_one_ok]|].
  destruct (String.eqb fn "__HASHTREE"); [exists p; split; [done|by apply extends_refl]|].
  destruct (od_mem fn (file_map src)) eqn:Em; [apply bool_decide_eq_true in Em; by apply Hdiff|].
  destruct (od_get (basename fn) bases) as [k|] eqn:Eb; [by apply Hdiff, (Hbases (basename fn))|].
  destruct (od_get (number_pattern (basename fn)) pats) as [k|] eqn:Ep;
    [by apply Hdiff, (Hpats (number_pattern (basename fn)))|].
  eexists. split; [done|by apply add_one_ok].
Qed.

Lemma FindTransfers_with_ok p : plan_ok tgt src piece_ok p ->
  exists p', FindTransfers_with tgt src disable_imgdiff mx run_imgdiff threads bases pats p = Ok p' /\
    extends tgt src piece_ok p p' (file_blocks tgt) /\ p_large p' = [].
Proof.
  intros Hp. unfold FindTransfers_with.
  assert (forall l q, plan_ok tgt src piece_ok q -> (forall f, f ∈ l -> f ∈ file_map tgt) ->
    exists q', foldM (find_for_file tgt src disable_imgdiff mx bases pats) q l = Ok q' /\
      extends tgt src piece_ok q q' (flat_map diffed l)) as Hloop.
  { induction l as [|f l IH]; intros q Hq Hl; simpl; [exists q; split; [done|by apply extends_refl]|].
    destruct (find_for_file_ok q f Hq) as (q1 & -> & He1); [apply Hl; by left|].
    destruct (IH q1) as (q2 & -> & He2); [apply He1|intros g Hg; apply Hl; by right|].
    exists q2. split; [done|]. by eapply extends_trans. }
  destruct (Hloop (sorted_files tgt) p Hp) as (p1 & -> & [Hp1 Hb1]).
  { intros f Hf. by apply elem_of_sort_by in Hf. }
  destruct (SplitLargeApks_ok (p_large p1)) as [Hgl Hbl]; [apply Hp1|]. cbv zeta. set (l := SplitLargeApks run_imgdiff threads (p_large p1)) in *.
  set (p2 := mkPlan (p_store p1) (p_transfers p1) (p_stats p1) []).
  assert (plan_ok tgt src piece_ok p2) as Hp2 by (destruct Hp1 as [Q1 Q2 QM Q3]; split; [exact Q1|exact Q2|exact QM|intros tn sn t s Hin; by apply elem_of_nil in Hin]).
  destruct (add_split_apks_ok (sort_by split_apk_leb l) p2 Hp2) as (p3 & -> & [Hp3 Hb3] & Hlg).
  { apply list.Forall_forall. intros x Hx. apply elem_of_sort_by in Hx. rewrite list.Forall_forall in Hgl. auto. }
  exists p3. split; [done|]. split; [split; [done|]|done].
  rewrite Hb3. unfold file_blocks. rewrite <- (flat_map_perm diffed _ _ (sort_by_perm (fun a b => String.leb a.1 b.1) (file_map tgt))).
  change (sort_by _ (file_map tgt)) with (sorted_files tgt). rewrite <- Hb1.
  rewrite (flat_map_perm apk_blocks _ _ (sort_by_perm split_apk_leb l)), Hbl. unfold plan_blocks, p2. simpl.
  by rewrite app_nil_r.
Qed.
End find_facts.
