(* ===== verification/DiffProps.v ===== *)
(** From file maps to a checked sequence of transfers. *)

From S2P Require Export DiffPlanFacts.

#[local] Open Scope string_scope.
#[local] Open Scope list_scope.
#[local] Open Scope Z_scope.

(** What a plan whose targets are the blocks [B] promises to the sequencing. *)
Lemma plan_targets_ok tgt src piece_ok p B : plan_ok tgt src piece_ok p -> p_large p = [] -> plan_blocks p ≡ₚ B -> NoDup B ->
  (forall b, b ∈ B -> b < total_blocks tgt) -> (forall b, b ∈ care_map tgt -> b ∈ B) ->
  NoDup (p_transfers p) /\ ranges_ok (p_store p) (p_transfers p) /\ targets_ok tgt (p_store p) (p_transfers p).
Proof.
  intros [P1 P2 _ P3] Hlg Hperm Hnd Hbound Hcare. unfold plan_blocks in Hperm. rewrite Hlg, app_nil_r in Hperm.
  set (f := fun i => next_item (tgt_ranges (p_store p !!! i))) in Hperm.
  assert (forall i b, i ∈ p_transfers p -> b ∈ tgt_ranges (p_store p !!! i) <-> b ∈ f i) as Hf.
  { intros i b Hi. unfold f. rewrite elem_of_next_item; [done|]. by apply P2. }
  assert (forall i b, i ∈ p_transfers p -> b ∈ f i -> b ∈ B) as Hin.
  { intros i b Hi Hb. rewrite <- Hperm. apply list_elem_of_In, in_flat_map. exists i. split; by apply list_elem_of_In. }
  split_and!; [rewrite P1; apply NoDup_seq|done|split].
  - intros x b Hx Hb. apply Hbound. apply (Hin x); [done|]. by apply Hf.
  - intros x y b Hx Hy Hbx Hby. apply (flat_map_disjoint f (p_transfers p) x y b); try done; [by rewrite Hperm| |]; by apply Hf.
  - intros b Hb. apply Hcare in Hb. rewrite <- Hperm in Hb. apply list_elem_of_In, in_flat_map in Hb as (i & Hi & Hb).
    apply list_elem_of_In in Hi, Hb. exists i. split; [done|]. by apply Hf.
Qed.

(** The partition that [BlockImageDiff.__init__] asserts for an image. *)
Lemma partition_blocks img : wf (care_map img) -> files_ok img ->
  AssertPartition (care_map img) (map snd (file_map img)) = Ok tt ->
  (forall k r, (k, r) ∈ file_map img -> k <> "__HASHTREE") ->
  NoDup (file_blocks img) /\ forall b, b ∈ file_blocks img <-> b ∈ care_map img.
Proof.
  intros Hc Hf Hp Hht.
  assert (forall f, f ∈ file_map img -> diffed f = next_item f.2 /\ wf f.2) as Hd.
  { intros [k r] Hin. split; [|by apply (Hf k r)]. unfold diffed. simpl.
    destruct (String.eqb_spec k "__HASHTREE") as [->|]; [|done]. by destruct (Hht _ _ Hin). }
  assert (Forall wf (map snd (file_map img))) as Hw.
  { apply list.Forall_forall. intros r Hr. apply list_elem_of_In, in_map_iff in Hr as ([k r'] & <- & Hin).
    apply list_elem_of_In in Hin. by apply (Hf k r'). }
  apply (AssertPartition_iff _ _ Hc Hw) in Hp as [Hcov Hdis]. split.
  - apply NoDup_flat_map.
    + intros f Hin. destruct (Hd f Hin) as [-> ?]. by apply NoDup_next_item.
    + intros b n m x y Hn Hm Hbx Hby.
      destruct (Hd x) as [Ex Hwx]; [by eapply list_elem_of_lookup_2|]. rewrite Ex, elem_of_next_item in Hbx by done.
      destruct (Hd y) as [Ey Hwy]; [by eapply list_elem_of_lookup_2|]. rewrite Ey, elem_of_next_item in Hby by done.
      apply (Hdis b n m x.2 y.2); [by rewrite lookup_map, Hn|by rewrite lookup_map, Hm|done|done].
  - intros b. unfold file_blocks. rewrite Hcov. split.
    + intros Hb. apply list_elem_of_In, in_flat_map in Hb as (f & Hin & Hb). apply list_elem_of_In in Hin, Hb.
      destruct (Hd f Hin) as [E Hwf]. rewrite E, elem_of_next_item in Hb by done. exists f.2. split; [|done].
      by apply list_elem_of_In, in_map, list_elem_of_In.
    + intros (r & Hr & Hb). apply list_elem_of_In, in_map_iff in Hr as (f & <- & Hin). apply list_elem_of_In in Hin.
      apply list_elem_of_In, in_flat_map. exists f. split; [by apply list_elem_of_In|]. apply list_elem_of_In.
      destruct (Hd f Hin) as [-> ?]. by apply elem_of_next_item.
Qed.

(** What imgdiff promises when it splits a large file: it succeeds, its split
    information is accepted and has no negative numbers, no piece is
    empty, and the part of the patch for a piece is good ([piece_ok]). *)
Definition imgdiff_ok (piece_ok : RangeSet -> RangeSet -> string -> Prop) (run_imgdiff : RangeSet -> RangeSet -> result (string * list string)) : Prop :=
  forall t s, good_pair t s -> 0 < size t -> 0 < size s ->
    exists patch lines info, run_imgdiff s t = Ok (patch, lines) /\ Forall split_line_nonneg lines /\
      ParseAndValidateSplitInfo (str_len patch) t s lines = Ok info /\
      forall a b q r, (a, b, q, r) ∈ info -> 0 < size q /\ 0 < size r /\
        piece_ok q r (String.substring (Z.to_nat a) (Z.to_nat b) patch).

(** Nothing about the patches. *)
Definition any_piece (t s : RangeSet) (patch : string) : Prop := True.

Definition empty_plan : Plan := mkPlan ∅ [] [] [].

Lemma empty_plan_ok tgt src piece_ok : plan_ok tgt src piece_ok empty_plan.
Proof. split; [done|by intros i ?%elem_of_nil|by intros i ?%elem_of_nil|by intros ???? ?%elem_of_nil]. Qed.

(** C9: [FindTransfers] succeeds for every positive split limit and number of threads, and however
    files are matched, cropped and split, the targets of its transfers are, as
    a multiset of blocks, exactly the blocks of the target files: none is
    written twice and none is left out. *)
Theorem find_transfers_partition tgt src disable mx run_imgdiff threads :
  0 < mx -> (0 < threads)%nat -> imgdiff_ok any_piece run_imgdiff -> files_ok tgt -> files_ok src ->
  exists p, (let '(bases, pats) := AbbreviateSourceNames src in
             FindTransfers_with tgt src disable mx run_imgdiff threads bases pats empty_plan) = Ok p /\
    p_transfers p = seq 0 (length (p_transfers p)) /\ ranges_ok (p_store p) (p_transfers p) /\
    p_large p = [] /\
    flat_map (fun i => next_item (tgt_ranges (p_store p !!! i))) (p_transfers p) ≡ₚ file_blocks tgt.
Proof.
  intros Hmx Hthr Himg Ht Hs. pose proof (AbbreviateSourceNames_ok src) as Hn.
  destruct (AbbreviateSourceNames src) as [bases pats]. destruct Hn as [Hb Hp].
  destruct (FindTransfers_with_ok tgt src _ disable mx Hmx run_imgdiff threads Hthr Himg bases pats Ht Hs Hb Hp empty_plan (empty_plan_ok tgt src _))
    as (p & -> & [[P1 P2 _ P3] Hperm] & Hlg).
  exists p. split_and!; try done. unfold plan_blocks in Hperm. rewrite Hlg, app_nil_r in Hperm. exact Hperm.
Qed.

(** The core of [Compute]: the transfers are found, ordered, and checked. *)
Definition plan_and_check tgt src disable mx run_imgdiff threads : result SeqState :=
  let '(bases, pats) := AbbreviateSourceNames src in
  let! p := FindTransfers_with tgt src disable mx run_imgdiff threads bases pats empty_plan in
  let! s := FindSequenceForTransfers (mkSeq (p_store p) (p_transfers p)) in
  let! _ := AssertSequenceGood tgt s in Ok s.

(** C2: for an image whose file map is a partition of its care map (the
    assertion of [__init__]), finding the transfers, ordering them and checking
    the sequence succeeds; nothing in the diff can make the check fail. *)
Theorem diff_plan_accepted tgt src disable mx run_imgdiff threads :
  0 < mx -> (0 < threads)%nat -> imgdiff_ok any_piece run_imgdiff -> files_ok tgt -> files_ok src ->
  AssertPartition (care_map tgt) (map snd (file_map tgt)) = Ok tt ->
  (forall k r, (k, r) ∈ file_map tgt -> k <> "__HASHTREE") ->
  wf (care_map tgt) -> nonneg (care_map tgt) ->
  (forall b, b ∈ care_map tgt -> b < total_blocks tgt) -> 0 <= total_blocks tgt ->
  exists s, plan_and_check tgt src disable mx run_imgdiff threads = Ok s /\ ordered s /\
    forall b, b ∈ care_map tgt <-> written (sq_store s) (sq_transfers s) b.
Proof.
  intros Hmx Hthr Himg Ht Hs Hpart Hht Hcare Hnc Hbound Htot. unfold plan_and_check.
  pose proof (AbbreviateSourceNames_ok src) as Hn.
  destruct (AbbreviateSourceNames src) as [bases pats]. destruct Hn as [Hb Hp].
  destruct (FindTransfers_with_ok tgt src _ disable mx Hmx run_imgdiff threads Hthr Himg bases pats Ht Hs Hb Hp empty_plan (empty_plan_ok tgt src _))
    as (p & -> & [Hok Hperm] & Hlg). simpl in Hperm.
  destruct (partition_blocks tgt Hcare Ht Hpart Hht) as [Hnd Hin].
  destruct (plan_targets_ok tgt src _ p (file_blocks tgt) Hok Hlg Hperm Hnd) as (Hnt & Hr & Htg).
  { intros b Hbb. by apply Hbound, Hin. }
  { intros b. by apply Hin. }
  destruct (FindSequenceForTransfers_ok (mkSeq (p_store p) (p_transfers p)) Hnt Hr)
    as ([st' ts'] & -> & Hp' & Hs' & Ho & Hseq). simpl in *.
  destruct (targets_ok_same _ _ st' _ ts' Hs' Hp' Htg) as [T1 T2 T3].
  assert (ranges_ok st' ts') as Hr'.
  { apply (ranges_ok_same _ _ _ Hs'). intros i Hi. apply Hr. by rewrite <- Hp'. }
  destruct (sequenced_good tgt st' ts') as [Hst Hg]; try done; [by rewrite Hp'|].
  assert (AssertSequenceGood tgt (mkSeq st' ts') = Ok tt) as -> by by apply AssertSequenceGood_iff.
  eexists. split_and!; [done|done|]. intros b. simpl. split; [apply T3|].
  intros (y & Hy & Hby). apply Hin. rewrite <- Hperm. unfold plan_blocks. rewrite Hlg, app_nil_r.
  rewrite Hp' in Hy. apply list_elem_of_In, in_flat_map. exists y. split; [by apply list_elem_of_In|].
  apply list_elem_of_In. rewrite (proj1 (same_statics_ranges _ _ y Hs')) in Hby.
  apply elem_of_next_item; [by apply Hr|done].
Qed.

(** ** An example with a large file, a moved file and a zero domain *)

(** An imgdiff that does not split; [data] is its patch. *)
Definition one_piece (data : RangeSet -> string) (s t : RangeSet) : result (string * list string) :=
  Ok (data t, ["2"; "1"; str_join " " [py_str (str_len (data t)); py_str (4096 * size t); str_join "," (map py_str [2; 0; size s])]]).

Lemma one_piece_ok (piece_ok : RangeSet -> RangeSet -> string -> Prop) data :
  (forall t q r, wf t -> wf q -> next_item q = next_item t -> piece_ok q r (data t)) -> imgdiff_ok piece_ok (one_piece data).
Proof.
  intros Hpiece t s (Ht & Hnt & Hs & Hns) Hst Hss.
  set (line := str_join " " [py_str (str_len (data t)); py_str (4096 * size t); str_join "," (map py_str [2; 0; size s])]).
  pose proof (str_len_nonneg (data t)) as Hlen.
  assert (split_ws line = [py_str (str_len (data t)); py_str (4096 * size t); str_join "," (map py_str [2; 0; size s])]) as El.
  { apply split_ws_join. repeat constructor; try (apply py_str_token; lia); simpl; apply py_str_token; lia. }
  assert (parse_raw (str_join "," (map py_str [2; 0; size s])) = Ok (mkRangeSet [0; size s] true [])) as Er.
  { unfold parse_raw. rewrite (split_char_join "," (map py_str [2; 0; size s])); [|done|].
    - simpl. rewrite !py_int_str by lia. simpl. unfold of_data. simpl.
      change (0 * 10 + (code "0" - 48)) with 0. destruct (Z.eqb_spec (size s) 0); [lia|]. destruct (Z.ltb_spec 0 (size s)); [|lia].
      simpl. by destruct (Z.ltb_spec 0 (size s)); [|lia].
    - repeat constructor; apply py_str_token; lia. }
  assert (one_piece data s t = Ok (data t, ["2"; "1"; line])) as Hone by done. clearbody line.
  remember (str_join "," (map py_str [2; 0; size s])) as raw eqn:Hraw. clear Hraw.
  destruct (first_rest t (size t) Ht) as (q & d & Hq & Hd & Hwq & Hwd & Hiq & Hid); [lia|].
  destruct (first_rest s (size s) Hs) as (hi & dh & Hhi & _ & Hwhi & _ & Hihi & _); [lia|].
  destruct (first_ok s 0 Hs) as (lo & Hlo & Hwlo & Hilo); [lia|].
  destruct (subtract_ok hi lo Hwhi Hwlo) as (c & Hc & Hwc & Hxc).
  destruct (union_ok empty c wf_empty Hwc) as (u & Hu & Hwu & Hxu).
  assert (0 < size q /\ 0 < size u) as Hpos.
  { split; [rewrite (size_take t q (Z.to_nat (size t))) by done; lia|].
    apply size_pos in Hss as [x Hx]; [|done]. apply size_pos; [done|]. exists x. rewrite Hxu, Hxc. right. split.
    - apply elem_of_next_item; [done|]. rewrite Hihi, take_ge by (pose proof (size_items s Hs); lia).
      by apply elem_of_next_item.
    - intros Hl. apply elem_of_next_item in Hl; [|done]. rewrite Hilo in Hl. by apply elem_of_nil in Hl. }
  assert (overlaps empty c = false) as Ho.
  { apply not_true_iff_false. rewrite overlaps_iff by (try done; apply wf_empty). intros (x & Hx & _). done. }
  assert (next_item d = []) as Hnil.
  { rewrite Hid. apply drop_ge. pose proof (size_items t Ht). lia. }
  exists (data t), ["2"; "1"; line], [(0, str_len (data t), q, u)]. split; [done|]. split; [|split].
  - apply Forall_cons; split; [by intros i0 i1 i2|]. apply Forall_cons; split; [by intros i0 i1 i2|].
    apply Forall_singleton.
    + intros i0 i1 i2. rewrite El. intros [= <- <- <-]. rewrite Er. split.
      * intros v. rewrite py_int_str by lia. intros [= <-]. lia.
      * intros r a b [= <-] Hab. apply list_elem_of_singleton in Hab. injection Hab as -> ->. lia.
  - unfold ParseAndValidateSplitInfo. simpl foldM.
    change (py_get ["2"; "1"; line] 0) with (@Ok string "2"). change (py_get ["2"; "1"; line] 1) with (@Ok string "1").
    change (py_int "2") with (@Ok Z 2). change (py_int "1") with (@Ok Z 1). cbv beta iota.
    change (2 =? 2) with true. change (Z.of_nat (length ["2"; "1"; line]) - 2 =? 1) with true. cbv iota.
    rewrite El. rewrite !py_int_str by lia. cbv beta iota.
    replace (4096 * size t) with (size t * 4096) by lia. rewrite Z.mod_mul, Z.div_mul by lia.
    rewrite Z.leb_refl, Hq, Hd, Er. change (0 =? 0) with true. cbv beta iota.
    change (rs_iter (mkRangeSet [0; size s] true [])) with [(0, size s)]. cbn [foldM].
    rewrite Hhi, Hlo, Hc, Ho. cbv beta iota. simpl negb. cbv iota. rewrite Hu.
    assert (size d = 0) as -> by (rewrite size_items, Hnil by done; done). cbn [Z.eqb].
    rewrite Z.add_0_l, Z.eqb_refl. done.
  - intros a b q' r' Hin%list_elem_of_singleton. simplify_eq. destruct Hpos. split_and!; [done..|].
    unfold str_len. rewrite Nat2Z.id. change (Z.to_nat 0) with 0%nat. pose proof (substring_app "" (data t) "") as Hsub. simpl in Hsub.
    rewrite str_app_nil_r in Hsub. rewrite Hsub. apply Hpiece; [done..|].
    rewrite Hiq, take_ge; [done|]. pose proof (size_items t Ht). lia.
Qed.

Definition ex_tgt : Image := mkImage 4096 40 (ex_range 0 32) empty empty
  [("/system/a.apk", ex_range 0 12); ("/system/lib/libx.2.so", ex_range 12 20); ("__ZERO", ex_range 20 24);
   ("/system/new", ex_range 24 32)] (fun r => rs_str r) (fun _ => "").
Definition ex_src : Image := mkImage 4096 40 (ex_range 0 30) empty empty
  [("/system/a.apk", ex_range 4 14); ("/system/lib/libx.1.so", ex_range 0 4); ("__ZERO", ex_range 14 30)]
  (fun r => rs_str r +:+ "s") (fun _ => "").

Lemma ex_tgt_files : files_ok ex_tgt.
Proof.
  intros k r Hr. simpl in Hr. rewrite !elem_of_cons, elem_of_nil in Hr.
  destruct Hr as [[= -> ->]|[[= -> ->]|[[= -> ->]|[[= -> ->]|[]]]]];
    (split_and!; [by apply ex_range_ok|by apply ex_range_ok|done]).
Qed.
Lemma ex_src_files : files_ok ex_src.
Proof.
  intros k r Hr. simpl in Hr. rewrite !elem_of_cons, elem_of_nil in Hr.
  destruct Hr as [[= -> ->]|[[= -> ->]|[[= -> ->]|[]]]];
    (split_and!; [by apply ex_range_ok|by apply ex_range_ok|done]).
Qed.

Lemma find_transfers_partition_witness :
  exists p, (let '(bases, pats) := AbbreviateSourceNames ex_src in
             FindTransfers_with ex_tgt ex_src false 5 (one_piece (fun _ => "P")) 2 bases pats empty_plan) = Ok p /\
    p_transfers p = seq 0 (length (p_transfers p)) /\ ranges_ok (p_store p) (p_transfers p) /\
    p_large p = [] /\
    flat_map (fun i => next_item (tgt_ranges (p_store p !!! i))) (p_transfers p) ≡ₚ file_blocks ex_tgt.
Proof. apply (find_transfers_partition ex_tgt ex_src false 5 (one_piece (fun _ => "P")) 2); [lia|lia|by apply one_piece_ok|apply ex_tgt_files|apply ex_src_files]. Defined.

Lemma diff_plan_accepted_witness :
  exists s, plan_and_check ex_tgt ex_src false 5 (one_piece (fun _ => "P")) 2 = Ok s /\ ordered s /\
    forall b, b ∈ care_map ex_tgt <-> written (sq_store s) (sq_transfers s) b.
Proof.
  destruct (ex_range_ok 0 32) as [Hw Hn]; [lia..|].
  apply (diff_plan_accepted ex_tgt ex_src false 5 (one_piece (fun _ => "P")) 2); try done.
  - lia.
  - by apply one_piece_ok.
  - apply ex_tgt_files.
  - apply ex_src_files.
  - intros k r Hr. simpl in Hr. rewrite !elem_of_cons, elem_of_nil in Hr. naive_solver.
  - intros b Hb. apply elem_of_range_set in Hb; simpl; lia.
Defined.

(** [CanUseImgdiff] never fails; imgdiff is used exactly when it is enabled,
    the file type is supported, both range sets are monotonic, and neither
    shares blocks nor is incomplete; and for every file of a supported type
    exactly one reason is logged, the first that applies. *)
Theorem can_use_imgdiff_correct disable name t s large st :
  exists b st', CanUseImgdiff disable name t s large st = Ok (b, st') /\
    (b = true <-> disable = false /\ FileTypeSupportedByImgdiff name = true /\
       rs_monotonic t = true /\ rs_monotonic s = true /\
       extra_true "uses_shared_blocks" t = false /\ extra_true "uses_shared_blocks" s = false /\
       extra_true "incomplete" t = false /\ extra_true "incomplete" s = false) /\
    match imgdiff_reason disable name t s large with
    | None => st' = st /\ (disable = true \/ FileTypeSupportedByImgdiff name = false)
    | Some r => r ∈ REASONS /\ (b = true <-> r = USED_IMGDIFF \/ r = USED_IMGDIFF_LARGE_APK) /\
        (exists l, od_get r st' = Some l /\ name ∈ l) /\
        forall q, q <> r -> od_get q st' = od_get q st
    end.
Proof.
  rewrite CanUseImgdiff_ok. eexists _, _. split; [done|].
  unfold imgdiff_usable, imgdiff_reason. split.
  { destruct disable, (FileTypeSupportedByImgdiff name), (rs_monotonic t), (rs_monotonic s),
      (extra_true "uses_shared_blocks" t), (extra_true "uses_shared_blocks" s), (extra_true "incomplete" t),
      (extra_true "incomplete" s); simpl; tauto || naive_solver. }
  destruct disable; [simpl; auto|]. destruct (FileTypeSupportedByImgdiff name); [|simpl; auto]. simpl.
  match goal with |- ?r ∈ REASONS /\ _ => set (reason := r) end.
  split; [|split; [|split]].
  - unfold reason. repeat case_match; by apply (bool_decide_unpack _).
  - unfold reason. destruct (rs_monotonic t), (rs_monotonic s), (extra_true "uses_shared_blocks" t),
      (extra_true "uses_shared_blocks" s), (extra_true "incomplete" t), (extra_true "incomplete" s), large;
      simpl; (split; [intros ?|intros [?|?]]); try done; by (left + right).
  - eexists. rewrite od_get_set. rewrite decide_True by done. split; [done|]. apply elem_of_os_add. by left.
  - intros q Hq. rewrite od_get_set. by rewrite decide_False.
Qed.

(** Split information that [ParseAndValidateSplitInfo] accepts cuts the
    target file, in order, into the pieces it returns, and the patch file into
    consecutive parts that end where it ends; every piece is well-formed. *)
Theorem split_info_partition patch_size t s lines out :
  good_pair t s -> Forall split_line_nonneg lines ->
  ParseAndValidateSplitInfo patch_size t s lines = Ok out ->
  flat_map (fun '(_, _, q, _) => next_item q) out = next_item t /\
  (forall a len q r, (a, len, q, r) ∈ out -> good_pair q r) /\
  sumZ (map (fun '(_, len, _, _) => len) out) = patch_size /\
  (forall k a len q r, out !! k = Some (a, len, q, r) ->
     a = sumZ (map (fun '(_, len, _, _) => len) (take k out))) /\
  length lines = S (S (length out)).
Proof. apply ParseAndValidateSplitInfo_inv. Qed.

Definition ex_lines : list string :=
  ["2" +:+ String "010" ""; "2"; "10 20480 2,0,3"; "7 8192 4,3,4,6,7"].

Lemma split_info_partition_witness : exists out,
  ParseAndValidateSplitInfo 17 (ex_range 0 7) (ex_range 10 20) ex_lines = Ok out /\
  flat_map (fun '(_, _, q, _) => next_item q) out = next_item (ex_range 0 7) /\
  (forall a len q r, (a, len, q, r) ∈ out -> good_pair q r) /\
  sumZ (map (fun '(_, len, _, _) => len) out) = 17 /\
  (forall k a len q r, out !! k = Some (a, len, q, r) ->
     a = sumZ (map (fun '(_, len, _, _) => len) (take k out))) /\
  length ex_lines = S (S (length out)).
Proof.
  eexists. split; [vm_compute; reflexivity|].
  apply (split_info_partition 17 (ex_range 0 7) (ex_range 10 20)); [| |vm_compute; reflexivity].
  - destruct (ex_range_ok 0 7), (ex_range_ok 10 20); try lia. by split_and!.
  - apply Forall_cons; split; [by intros i0 i1 i2|]. apply Forall_cons; split; [by intros i0 i1 i2|].
    apply Forall_cons; split; [|apply Forall_singleton]; intros i0 i1 i2 [= <- <- <-];
      (split; [intros v Hv; vm_compute in Hv; injection Hv as <-; lia|]);
      intros q a b Hq Hab; vm_compute in Hq; injection Hq as <-; unfold rs_iter in Hab; simpl in Hab;
      rewrite !elem_of_cons, elem_of_nil in Hab; naive_solver lia.
Defined.

(** With a split limit of zero blocks (a cache of less than 32768 bytes) the
    [while] loop that splits a large file never ends: it keeps adding empty
    pieces. *)
Theorem zero_limit_diverges tgt src fuel tn sn sty pieces t s p :
  wf t -> wf s -> 0 < size t -> 0 < size s ->
  max_blocks_of 32767 4096 = Ok 0 /\
  chunk_loop tgt src 0 fuel tn sn sty pieces t s p = Raise OutOfFuel.
Proof.
  intros Ht Hs Hpt Hps. split; [by vm_compute|]. revert pieces t s p Ht Hs Hpt Hps.
  induction fuel as [|fuel IH]; intros pieces t s p Ht Hs Hpt Hps; simpl;
    (destruct (Z.ltb_spec 0 (size t)); [|lia]); (destruct (Z.ltb_spec 0 (size s)); [|lia]); simpl; [done|].
  destruct (first_rest t 0 Ht) as (q & d & -> & -> & _ & Hwd & _ & Hd); [lia|].
  destruct (first_rest s 0 Hs) as (q' & d' & -> & -> & _ & Hwd' & _ & Hd'); [lia|].
  apply IH; try done.
  - rewrite size_items, Hd, drop_0, <- size_items by done. done.
  - rewrite size_items, Hd', drop_0, <- size_items by done. done.
Qed.

Lemma zero_limit_diverges_witness : max_blocks_of 32767 4096 = Ok 0 /\
  chunk_loop ex_tgt ex_src 0 1000 "a" "b" "diff" 0 (ex_range 0 10) (ex_range 0 10) empty_plan = Raise OutOfFuel.
Proof. by apply (zero_limit_diverges ex_tgt ex_src 1000); try apply wf_range_set. Defined.
