(* ===== verification/StashSize.v ===== *)
(** releasetools/blockimgdiff.py, [ReviseStashSize]: the stash space a sequence
    needs, and the conversion to "new" of the transfers whose stashes do not
    fit. *)

From S2P Require Export PyFloat BlockProps.

#[local] Open Scope string_scope.
#[local] Open Scope list_scope.
#[local] Open Scope Z_scope.

(** [stash_map]: for every stash its ranges, the transfer that defines it and
    the transfers that use it. *)
Abbreviation stash_map_t := (list (Z * (RangeSet * tid * list tid))).

Definition define_stashes (st : store) (xf : tid) (m : stash_map_t) : stash_map_t :=
  fold_left (fun m '(raw_id, sr) => od_set raw_id (sr, xf, []) m) (stash_before (st !!! xf)) m.

(** [stash_map[stash_raw_id] += (xf,)]. *)
Definition use_one (xf : tid) (m : stash_map_t) (u : Z * RangeSet) : result stash_map_t :=
  match od_get u.1 m with
  | Some (sr, def_cmd, users) => Ok (od_set u.1 (sr, def_cmd, users ++ [xf]) m)
  | None => Raise KeyError
  end.

Definition build_stash_map (st : store) (ts : list tid) : result stash_map_t :=
  foldM (fun m xf => foldM (use_one xf) (define_stashes st xf m) (use_stash (st !!! xf))) [] ts.

(** [cache_size * stash_threshold / blocksize]. *)
Definition stash_limit (cache_size : Z) (stash_threshold : py_float) (blocksize : Z) : result py_float :=
  let! c := float_of_Z cache_size in
  let! b := float_of_Z blocksize in
  float_div (float_mul c stash_threshold) b.

(** [max_allowed_blocks and n > max_allowed_blocks]. *)
Definition exceeds (limit : option py_float) (n : Z) : bool :=
  match limit with Some f => float_true f && Z_gtb_float n f | None => false end.

(** The counters of the second pass: [stashes] counts the uses to come of every
    stash slot, which is named by the hash of its blocks. *)
Record SizeState := mkSize {
  z_store : store;
  z_stashes : list (string * Z);
  z_stashed : Z;
  z_new : Z;
  z_max : Z
}.

Section revise.
Context (src : Image) (limit : option py_float) (stash_map : stash_map_t).

(** One explicit stash command of [xf]; the list collects [replaced_cmds]. *)
Definition explicit_stash (acc : SizeState * list tid) (s : Z * RangeSet) : result (SizeState * list tid) :=
  let '(z, replaced) := acc in
  let '(raw_id, sr) := s in
  let sh := RangeSha1 src sr in
  let after := if od_mem sh (z_stashes z) then z_stashed z else z_stashed z + size sr in
  if exceeds limit after then
    let! e := of_option KeyError (od_get raw_id stash_map) in
    match e.2 with
    | use_cmd :: _ => Ok (z, replaced ++ [use_cmd])
    | [] => Raise IndexError
    end
  else
    let count := default 0 (od_get sh (z_stashes z)) in
    Ok (mkSize (z_store z) (od_set sh (count + 1) (z_stashes z)) after (z_new z) (Z.max (z_max z) after), replaced).

(** The implicit stash of a transfer whose source and target overlap. *)
Definition implicit_stash (xf : tid) (acc : SizeState * list tid) : result (SizeState * list tid) :=
  let '(z, replaced) := acc in
  let x := z_store z !!! xf in
  if String.eqb (style x) "diff" then
    assert! rs_bool (tgt_ranges x) && rs_bool (src_ranges x) in
    if overlaps (src_ranges x) (tgt_ranges x) then
      let n := z_stashed z + size (src_ranges x) in
      if exceeds limit n then Ok (z, replaced ++ [xf])
      else Ok (mkSize (z_store z) (z_stashes z) (z_stashed z) (z_new z) (Z.max (z_max z) n), replaced)
    else Ok (z, replaced)
  else Ok (z, replaced).

(** [list.remove] on pairs; range sets are compared by their data. *)
Definition same_stash (a b : Z * RangeSet) : bool := (a.1 =? b.1) && rs_eqb a.2 b.2.

Fixpoint remove_stash (s : Z * RangeSet) (l : list (Z * RangeSet)) : option (list (Z * RangeSet)) :=
  match l with
  | [] => None
  | x :: l' => if same_stash x s then Some l' else (fun r => x :: r) <$> remove_stash s l'
  end.

(** Removing the definition of one stash. *)
Definition undefine (st : store) (s : Z * RangeSet) : result store :=
  let! e := of_option KeyError (od_get s.1 stash_map) in
  let def_cmd := e.1.2 in
  let! l := of_option AssertionError (remove_stash s (stash_before (st !!! def_cmd))) in
  Ok (upd def_cmd (set_stash_before l) st).

Definition replace_cmd (z : SizeState) (cmd : tid) : result SizeState :=
  let! st := foldM undefine (z_store z) (use_stash (z_store z !!! cmd)) in
  let n := size (tgt_ranges (st !!! cmd)) in
  let! st := ConvertToNew cmd st in
  Ok (mkSize st (z_stashes z) (z_stashed z) (z_new z + n) (z_max z)).

(** One use of a stash, which may free its slot. *)
Definition release_stash (z : SizeState) (s : Z * RangeSet) : result SizeState :=
  let sh := RangeSha1 src s.2 in
  let! count := of_option AssertionError (od_get sh (z_stashes z)) in
  let count := count - 1 in
  if count =? 0 then
    Ok (mkSize (z_store z) (od_remove sh (z_stashes z)) (z_stashed z - size s.2) (z_new z) (z_max z))
  else Ok (mkSize (z_store z) (od_set sh count (z_stashes z)) (z_stashed z) (z_new z) (z_max z)).

Definition revise_one (z : SizeState) (xf : tid) : result SizeState :=
  let! acc := foldM explicit_stash (z, []) (stash_before (z_store z !!! xf)) in
  let! (z, replaced) := implicit_stash xf acc in
  let! z := foldM replace_cmd z replaced in
  foldM release_stash z (use_stash (z_store z !!! xf)).
End revise.

(** [ReviseStashSize]: the new state, the blocks converted to new, and the
    maximum of simultaneously stashed blocks. *)
Definition ReviseStashSize (src : Image) (limit : option py_float) (s : SeqState)
  : result (SeqState * Z * Z) :=
  let! m := build_stash_map (sq_store s) (sq_transfers s) in
  let! z := foldM (revise_one src limit m) (mkSize (sq_store s) [] 0 0 0) (sq_transfers s) in
  Ok (mkSeq (z_store z) (sq_transfers s), z_new z, z_max z).

(** With the limit of the options, or ignoring it. *)
Definition ReviseStashSize_opts (ignore_stash_limit : bool) (cache_size : Z) (stash_threshold : py_float)
    (tgt src : Image) (s : SeqState) : result (SeqState * Z * Z) :=
  if ignore_stash_limit then ReviseStashSize src None s
  else
    let! limit := stash_limit cache_size stash_threshold (blocksize tgt) in
    ReviseStashSize src (Some limit) s.
