(* ===== verification/StashProps.v ===== *)
(** What [ReviseStashSize] promises: it never fails on a sequence that was found, and
    the sequence it leaves needs no more stash space than the limit, still passes the
    checks, and still updates the image in place. *)

From S2P Require Export StashSize.

#[local] Open Scope string_scope.
#[local] Open Scope list_scope.
#[local] Open Scope Z_scope.

(** * The map of definitions and uses *)

Section stash_map.
Context (st : store) (ts : list tid) (Hnd : NoDup ts) (Hseq : sequenced st ts).

Lemma user_after pre x post y k r : ts = pre ++ x :: post -> y ∈ pre ++ [x] -> (k, r) ∈ use_stash (st !!! y) ->
  (k, r) ∉ stash_before (st !!! x).
Proof.
  intros Hl Hy Hk Hk'.
  assert (x ∈ ts) as Hx by (rewrite Hl, elem_of_app; right; by left).
  assert (y ∈ ts) as Hyt.
  { rewrite Hl. apply elem_of_app in Hy as [?|?%list_elem_of_singleton]; [|subst]; rewrite elem_of_app; [by left|right; by left]. }
  assert (exists p q, ts = p ++ y :: q /\ x ∉ p) as (p & q & Hl' & Hxp).
  { apply elem_of_app in Hy as [Hy|Hy%list_elem_of_singleton].
    - apply list_elem_of_split in Hyt as (p & q & Hl'). exists p, q. split; [done|].
      by apply (NoDup_split_order ts pre post p q x y).
    - subst y. exists pre, post. split; [done|]. rewrite Hl in Hnd. apply NoDup_app in Hnd as (_ & Hd & _).
      intros Hp. apply (Hd x Hp). by left. }
  destruct (sq_use _ _ Hseq p y q k r Hl' Hk) as (z & Hz & Hkz & _).
  assert (z ∈ ts) as Hzt by (rewrite Hl', elem_of_app; by left).
  by destruct (tb_save _ _ (sq_table _ _ Hseq) x z k r r Hx Hzt Hk' Hkz) as [-> _].
Qed.

(** The map while the transfers [pre] have been entered. *)
Definition map_ok (pre : list tid) (m : stash_map_t) : Prop :=
  forall x y k r, y ∈ pre -> x ∈ ts -> (k, r) ∈ stash_before (st !!! y) -> (k, r) ∈ use_stash (st !!! x) ->
    od_get k m = Some (r, y, if decide (x ∈ pre) then [x] else []).

Lemma define_stashes_get xf m k :
  (forall r, (k, r) ∈ stash_before (st !!! xf) -> NoDup (map fst (stash_before (st !!! xf))) ->
     od_get k (define_stashes st xf m) = Some (r, xf, [])) /\
  (k ∉ map fst (stash_before (st !!! xf)) -> od_get k (define_stashes st xf m) = od_get k m).
Proof.
  unfold define_stashes. generalize (stash_before (st !!! xf)) as l. intros l. revert m.
  induction l as [|[k' r'] l IH]; intros m; simpl; [by split; [intros r ?%elem_of_nil|]|].
  destruct (IH (od_set k' (r', xf, []) m)) as [IH1 IH2]. split.
  - intros r Hin [Hk' Hnd']%NoDup_cons. apply elem_of_cons in Hin as [[= <- <-]|Hin]; [|by apply IH1].
    rewrite IH2 by done. rewrite od_get_set. by rewrite decide_True.
  - intros [Hne Hk]%not_elem_of_cons. rewrite IH2 by done. rewrite od_get_set. by rewrite decide_False.
Qed.

Lemma in_keys (l : list (Z * RangeSet)) k : k ∈ map fst l <-> exists r, (k, r) ∈ l.
Proof.
  rewrite list_elem_of_In, in_map_iff. split.
  - intros ([k' r] & <- & Hin). exists r. by apply list_elem_of_In.
  - intros (r & Hr). exists (k, r). split; [done|]. by apply list_elem_of_In.
Qed.

Lemma NoDup_keys_inj (l : list (Z * RangeSet)) k r r' : NoDup (map fst l) -> (k, r) ∈ l -> (k, r') ∈ l -> r = r'.
Proof.
  induction l as [|[k' s] l IH]; simpl; [by intros _ ?%elem_of_nil|].
  intros [Hk Hl]%NoDup_cons H1 H2.
  apply elem_of_cons in H1 as [[= -> ->]|H1]; apply elem_of_cons in H2 as [E|H2]; try (by simplify_eq); auto.
  - exfalso. apply Hk, in_keys. eauto.
  - injection E as <- <-. exfalso. apply Hk, in_keys. eauto.
Qed.

Lemma use_all_ok xf l m :
  NoDup (map fst l) -> (forall k r, (k, r) ∈ l -> exists y, od_get k m = Some (r, y, [])) ->
  exists m', foldM (use_one xf) m l = Ok m' /\
    forall k, od_get k m' = match od_get k m with
      | Some (r, y, us) => Some (r, y, if decide (k ∈ map fst l) then us ++ [xf] else us)
      | None => None end.
Proof.
  revert m. induction l as [|[k r] l IH]; intros m; simpl; intros Hn Hl.
  - exists m. split; [done|]. intros k. by destruct (od_get k m) as [[[? ?] ?]|].
  - apply NoDup_cons in Hn as [Hk Hn]. destruct (Hl k r) as [y Hy]; [by left|]. unfold use_one at 1. simpl. rewrite Hy.
    destruct (IH (od_set k (r, y, [] ++ [xf]) m)) as (m' & -> & Hm'); [done| |].
    + intros k' r' Hin. rewrite od_get_set. destruct (decide (k' = k)) as [->|]; [|apply Hl; by right].
      exfalso. apply Hk, in_keys. eauto.
    + exists m'. split; [done|]. intros k'. rewrite Hm', od_get_set. destruct (decide (k' = k)) as [->|Hne].
      * rewrite Hy. rewrite (decide_False (P := k ∈ map fst l)) by done. by rewrite decide_True by by left.
      * destruct (od_get k' m) as [[[? ?] ?]|]; [|done]. do 2 f_equal. repeat case_decide; try done; set_solver.
Qed.

Lemma build_stash_map_ok : exists m, build_stash_map st ts = Ok m /\ map_ok ts m.
Proof.
  destruct Hseq as [S1 S2 S3].
  destruct (foldM_ok (fun pre m => map_ok pre m)
    (fun m xf => foldM (use_one xf) (define_stashes st xf m) (use_stash (st !!! xf))) [] ts) as (m & Hm & Hok).
  - by intros x y k r ?%elem_of_nil.
  - intros pre xf post m Hl Hm.
    assert (xf ∈ ts) as Hxf by (rewrite Hl, elem_of_app; right; by left).
    assert (forall y, y ∈ pre -> y ∈ ts) as Hpre by (intros y Hy; rewrite Hl, elem_of_app; by left).
    assert (xf ∉ pre) as Hnew.
    { rewrite Hl in Hnd. apply NoDup_app in Hnd as (_ & Hd & _). intros Hp. apply (Hd xf Hp). by left. }
    assert (forall y k r, y ∈ pre -> (k, r) ∈ stash_before (st !!! y) -> k ∉ map fst (stash_before (st !!! xf))) as Hdiff.
    { intros y k r Hy Hk (r' & Hk')%in_keys. destruct (tb_save _ _ S3 y xf k r r' (Hpre y Hy) Hxf Hk Hk') as [-> _]. done. }
    destruct (use_all_ok xf (use_stash (st !!! xf)) (define_stashes st xf m)) as (m' & -> & Hm').
    + by apply S3.
    + intros k r Hk. destruct (S2 pre xf post k r Hl Hk) as (y & Hy & Hky & _). exists y.
      rewrite (proj2 (define_stashes_get xf m k)) by (by eapply Hdiff). rewrite (Hm xf y k r) by done.
      by rewrite decide_False.
    + exists m'. split; [done|]. intros x y k r Hy Hx Hky Hkx. rewrite Hm'.
      apply elem_of_app in Hy as [Hy|Hy%list_elem_of_singleton].
      * rewrite (proj2 (define_stashes_get xf m k)) by (by eapply Hdiff). rewrite (Hm x y k r) by done.
        do 2 f_equal. assert (k ∈ map fst (use_stash (st !!! xf)) <-> x = xf) as Hiff.
        { rewrite in_keys. split; [|intros ->; eauto]. intros (r' & Hr').
          by destruct (tb_use _ _ S3 x xf k r r' Hx Hxf Hkx Hr') as [-> _]. }
        repeat case_decide; try done; subst; set_solver.
      * subst y. rewrite (proj1 (define_stashes_get xf m k) r Hky) by by apply S3. do 2 f_equal.
        assert (x ∉ pre ++ [xf]) as Hn.
        { intros Hin. by apply (user_after pre xf post x k r Hl Hin Hkx). }
        rewrite (decide_False (P := x ∈ pre ++ [xf])) by done. case_decide as Hd; [|done].
        apply in_keys in Hd as (r' & Hr'). destruct (tb_use _ _ S3 x xf k r r' Hx Hxf Hkx Hr') as [-> _].
        exfalso. apply Hn. apply elem_of_app. right. by left.
  - by exists m.
Qed.
End stash_map.

(** * Conversion to "new" *)

(** The effect of replacing [cmd] on the store. *)
Record converted (ts : list tid) (cmd : tid) (st st' : store) : Prop := {
  cv_save : forall y k r, y ∈ ts ->
    (k, r) ∈ stash_before (st' !!! y) <-> (k, r) ∈ stash_before (st !!! y) /\ k ∉ map fst (use_stash (st !!! cmd));
  cv_save_nd : forall y, y ∈ ts -> NoDup (map fst (stash_before (st' !!! y)));
  cv_use : forall x, use_stash (st' !!! x) = if decide (x = cmd) then [] else use_stash (st !!! x);
  cv_src : forall x, src_ranges (st' !!! x) = if decide (x = cmd) then empty else src_ranges (st !!! x);
  cv_tgt : forall x, tgt_ranges (st' !!! x) = tgt_ranges (st !!! x);
  cv_style : forall x, style (st' !!! x) = if decide (x = cmd) then "new" else style (st !!! x)
}.

Lemma remove_stash_ok (s : Z * RangeSet) l : NoDup (map fst l) -> s ∈ l ->
  exists l', remove_stash s l = Some l' /\ NoDup (map fst l') /\
    forall k r, (k, r) ∈ l' <-> (k, r) ∈ l /\ k <> s.1.
Proof.
  induction l as [|[k0 r0] l IH]; simpl; [by intros _ ?%elem_of_nil|]. destruct s as [ks rs]. simpl in *.
  intros [Hk Hn]%NoDup_cons Hs. unfold same_stash at 1. simpl.
  assert (forall r, (ks, r) ∈ l -> ks <> k0) as Hne.
  { intros r Hr ->. apply Hk, in_keys. eauto. }
  apply elem_of_cons in Hs as [[= -> ->]|Hs].
  - rewrite Z.eqb_refl. unfold rs_eqb. rewrite bool_decide_eq_true_2 by done. exists l. split; [done|].
    split; [done|]. intros k r. rewrite elem_of_cons. split.
    + intros Hin. split; [by right|]. intros ->. apply Hk, in_keys. eauto.
    + intros [[[= -> ->]|?] ?]; done.
  - destruct (Z.eqb_spec k0 ks) as [->|]; [by destruct (Hne rs Hs)|]. simpl.
    destruct (IH Hn Hs) as (l' & -> & Hn' & Hl'). exists ((k0, r0) :: l'). split; [done|]. split.
    + simpl. constructor; [|done]. rewrite in_keys. intros (r & [Hr _]%Hl'). apply Hk, in_keys. eauto.
    + intros k r. rewrite !elem_of_cons, Hl'. naive_solver.
Qed.

Section convert.
Context (st0 : store) (ts : list tid) (m : stash_map_t) (Hm : map_ok st0 ts ts m).

(** The part of the initial stash table that is left. *)
Record left_over (st : store) : Prop := {
  lo_save : forall y k r, y ∈ ts -> (k, r) ∈ stash_before (st !!! y) -> (k, r) ∈ stash_before (st0 !!! y);
  lo_use : forall x k r, x ∈ ts -> (k, r) ∈ use_stash (st !!! x) -> (k, r) ∈ use_stash (st0 !!! x)
}.

Lemma stash_map_get st y x k r : left_over st -> y ∈ ts -> x ∈ ts ->
  (k, r) ∈ stash_before (st !!! y) -> (k, r) ∈ use_stash (st !!! x) -> od_get k m = Some (r, y, [x]).
Proof.
  intros [L1 L2] Hy Hx Hk Hk'. rewrite (Hm x y k r Hy Hx); [|by apply L1|by apply L2]. by rewrite decide_True.
Qed.

Lemma undefine_ok st y k r x : left_over st -> stash_table ts st -> y ∈ ts -> x ∈ ts ->
  (k, r) ∈ stash_before (st !!! y) -> (k, r) ∈ use_stash (st !!! x) ->
  exists l, undefine m st (k, r) = Ok (upd y (set_stash_before l) st) /\ NoDup (map fst l) /\
    forall k' r', (k', r') ∈ l <-> (k', r') ∈ stash_before (st !!! y) /\ k' <> k.
Proof.
  intros Hlo Htb Hy Hx Hk Hk'. unfold undefine. simpl.
  rewrite (stash_map_get st y x k r Hlo Hy Hx Hk Hk'). simpl.
  destruct (remove_stash_ok (k, r) (stash_before (st !!! y))) as (l & -> & Hn & Hl); [by apply Htb|done|].
  exists l. by split_and!.
Qed.

Lemma undefine_all_ok st cmd : left_over st -> stash_table ts st -> cmd ∈ ts ->
  exists st', foldM (undefine m) st (use_stash (st !!! cmd)) = Ok st' /\
    (forall y k r, y ∈ ts -> (k, r) ∈ stash_before (st' !!! y) <->
       (k, r) ∈ stash_before (st !!! y) /\ k ∉ map fst (use_stash (st !!! cmd))) /\
    (forall y, y ∈ ts -> NoDup (map fst (stash_before (st' !!! y)))) /\
    (forall A (g : Transfer -> A), (forall l x, g (set_stash_before l x) = g x) -> same_on g st st').
Proof.
  intros Hlo Htb Hcmd.
  destruct (foldM_ok (fun pre st' =>
      (forall y k r, y ∈ ts -> (k, r) ∈ stash_before (st' !!! y) <->
         (k, r) ∈ stash_before (st !!! y) /\ k ∉ map fst pre) /\
      (forall y, y ∈ ts -> NoDup (map fst (stash_before (st' !!! y)))) /\
      (forall A (g : Transfer -> A), (forall l x, g (set_stash_before l x) = g x) -> same_on g st st'))
    (undefine m) st (use_stash (st !!! cmd))) as (st' & Hf & H1 & H2 & H3).
  - split_and!; [|by apply Htb|done]. intros y k r _. simpl. split; [|tauto]. intros ?. split; [done|apply not_elem_of_nil].
  - intros pre [k r] post t Hl (H1 & H2 & H3).
    assert ((k, r) ∈ use_stash (st !!! cmd)) as Hk by (rewrite Hl, elem_of_app; right; by left).
    assert (k ∉ map fst pre) as Hkpre.
    { pose proof (tb_use_nd _ _ Htb cmd Hcmd) as Hn. rewrite Hl, map_app in Hn. simpl in Hn.
      apply NoDup_app in Hn as (_ & Hd & _). intros Hp. apply (Hd k Hp). by left. }
    destruct (tb_saver _ _ Htb cmd k r Hcmd Hk) as (y & Hy & Hky).
    assert (same_on use_stash st t) as Hu by (apply H3; by intros ? []).
    assert (forall y k' r', y ∈ ts -> (k', r') ∈ stash_before (t !!! y) -> (k', r') ∈ stash_before (st !!! y)) as Hsub
      by (intros z k' r' Hz Hin; by apply (H1 z k' r' Hz) in Hin as [? _]).
    unfold undefine. simpl.
    rewrite (stash_map_get st y cmd k r Hlo Hy Hcmd Hky Hk). simpl.
    destruct (remove_stash_ok (k, r) (stash_before (t !!! y))) as (l & -> & Hn & Hlin); [by apply H2|by apply H1|].
    simpl. eexists. split; [done|].
    assert (forall z, stash_before (upd y (set_stash_before l) t !!! z) = if decide (y = z) then l else stash_before (t !!! z)) as Hsb.
    { intros z. rewrite lookup_total_upd. case_decide; [|done]. by destruct (t !!! y). }
    split_and!.
    + intros z k' r' Hz. rewrite Hsb, map_app, not_elem_of_app. simpl. case_decide as Hd.
      * subst z. rewrite Hlin, H1 by done. simpl. rewrite list_elem_of_singleton. tauto.
      * rewrite H1 by done. split; [|tauto]. intros [Hin Hp]. split; [done|]. split; [done|].
        intros ->%list_elem_of_singleton. apply Hd.
        by destruct (tb_save _ _ Htb y z k r r' Hy Hz Hky Hin).
    + intros z Hz. rewrite Hsb. case_decide; [done|by apply H2].
    + intros A g Hg. apply same_on_trans_upd; [apply Hg|by apply H3].
  - exists st'. by split_and!.
Qed.

Lemma replace_cmd_ok z cmd : left_over (z_store z) -> stash_table ts (z_store z) -> cmd ∈ ts ->
  style (z_store z !!! cmd) <> "new" ->
  exists st', replace_cmd m z cmd =
      Ok (mkSize st' (z_stashes z) (z_stashed z) (z_new z + size (tgt_ranges (z_store z !!! cmd))) (z_max z)) /\
    converted ts cmd (z_store z) st'.
Proof.
  intros Hlo Htb Hcmd Hsty. unfold replace_cmd.
  destruct (undefine_all_ok (z_store z) cmd Hlo Htb Hcmd) as (st1 & -> & H1 & H2 & H3).
  assert (same_on tgt_ranges (z_store z) st1) as Ht by (apply H3; by intros ? []).
  assert (same_on src_ranges (z_store z) st1) as Hs by (apply H3; by intros ? []).
  assert (same_on style (z_store z) st1) as Hy by (apply H3; by intros ? []).
  assert (same_on use_stash (z_store z) st1) as Hu by (apply H3; by intros ? []).
  unfold ConvertToNew. rewrite Hy. destruct (String.eqb_spec (style (z_store z !!! cmd)) "new") as [|_]; [done|].
  simpl. rewrite Ht. eexists. split; [done|].
  set (f := fun x => set_src_ranges empty (set_style "new" (set_use_stash [] x))).
  assert (forall A (g : Transfer -> A) i, (forall v x, g (put_patch_info v x) = g x) ->
    g (upd cmd (put_patch_info None) (upd cmd f st1) !!! i) = if decide (i = cmd) then g (f (st1 !!! i)) else g (st1 !!! i)) as Hg.
  { intros A g i Hp. rewrite (upd_field g) by auto. rewrite lookup_total_upd. repeat case_decide; subst; done. }
  split.
  - intros y k r Hyt. rewrite (Hg _ stash_before) by (by intros ? []). rewrite <- H1 by done. case_decide; [|done]. unfold f; by destruct (st1 !!! y).
  - intros y Hyt. rewrite (Hg _ stash_before) by (by intros ? []). case_decide; [|by apply H2]. specialize (H2 y Hyt). unfold f; by destruct (st1 !!! y).
  - intros x. rewrite (Hg _ use_stash) by (by intros ? []). rewrite Hu. case_decide; [|done]. unfold f; by destruct (st1 !!! x).
  - intros x. rewrite (Hg _ src_ranges) by (by intros ? []). rewrite Hs. case_decide; [|done]. unfold f; by destruct (st1 !!! x).
  - intros x. rewrite (Hg _ tgt_ranges) by (by intros ? []). rewrite <- Ht. case_decide; [|done]. unfold f; by destruct (st1 !!! x).
  - intros x. rewrite (Hg _ style) by (by intros ? []). rewrite Hy. case_decide; [|done]. unfold f; by destruct (st1 !!! x).
Qed.

Lemma converted_left_over cmd st st' : left_over st -> converted ts cmd st st' -> left_over st'.
Proof.
  intros [L1 L2] Hc. split.
  - intros y k r Hy Hk. apply (cv_save _ _ _ _ Hc) in Hk as [Hk _]; [|done]. by apply L1.
  - intros x k r Hx. rewrite (cv_use _ _ _ _ Hc). case_decide; [by intros ?%elem_of_nil|by apply L2].
Qed.
End convert.

(** A conversion leaves a valid sequence. *)
Lemma converted_sequenced ts cmd st st' : cmd ∈ ts -> sequenced st ts -> converted ts cmd st st' -> sequenced st' ts.
Proof.
  intros Hcmd [S1 S2 [T1 T2 T3 T4 T5 T6 T7]] [C1 C2 C3 C4 C5 C6].
  assert (forall x k r, x ∈ ts -> (k, r) ∈ use_stash (st' !!! x) -> x <> cmd /\ (k, r) ∈ use_stash (st !!! x)) as Huse.
  { intros x k r Hx. rewrite C3. case_decide; [by intros ?%elem_of_nil|done]. }
  assert (forall x k r, x ∈ ts -> x <> cmd -> (k, r) ∈ use_stash (st !!! x) -> k ∉ map fst (use_stash (st !!! cmd))) as Hother.
  { intros x k r Hx Hne Hk (r' & Hk')%in_keys. by destruct (T4 x cmd k r r' Hx Hcmd Hk Hk') as [-> _]. }
  assert (forall x y r, x <> cmd -> shared_blocks st x y r -> shared_blocks st' x y r) as Hsh.
  { intros x y r Hne [Hw Hb]. split; [done|]. intros b. rewrite Hb, C4, C5. by rewrite decide_False. }
  split; [| |split].
  - intros pre x post y Hl Hy (b & Hb1 & Hb2). rewrite C5 in Hb1. rewrite C4 in Hb2.
    case_decide as Hne; [done|]. destruct (S1 pre x post y Hl Hy) as (k & r & Hk & Hky & Hs); [by exists b|].
    assert (x ∈ ts) as Hx by (rewrite Hl, elem_of_app; right; by left).
    assert (y ∈ ts) as Hyt by (rewrite Hl, elem_of_app; by left).
    exists k, r. split_and!; [|apply C1; [done|]; split; [done|by apply (Hother x k r)]|by apply Hsh].
    rewrite C3. by rewrite decide_False.
  - intros pre x post k r Hl Hk. assert (x ∈ ts) as Hx by (rewrite Hl, elem_of_app; right; by left).
    apply Huse in Hk as [Hne Hk]; [|done]. destruct (S2 pre x post k r Hl Hk) as (y & Hy & Hky & Hs).
    assert (y ∈ ts) as Hyt by (rewrite Hl, elem_of_app; by left).
    exists y. split_and!; [done|apply C1; [done|]; split; [done|by apply (Hother x k r)]|by apply Hsh].
  - intros y k r Hy Hk. apply C1 in Hk as [Hk Hn]; [|done]. destruct (T1 y k r Hy Hk) as (x & Hx & Hkx).
    exists x. split; [done|]. rewrite C3. case_decide; [subst; exfalso; apply Hn, in_keys; eauto|done].
  - intros x k r Hx Hk. apply Huse in Hk as [Hne Hk]; [|done]. destruct (T2 x k r Hx Hk) as (y & Hy & Hky).
    exists y. split; [done|]. apply C1; [done|]. split; [done|by apply (Hother x k r)].
  - intros x y k r r' Hx Hy Hk Hk'. apply C1 in Hk as [Hk _]; [|done]. apply C1 in Hk' as [Hk' _]; [|done]. by eapply T3.
  - intros x y k r r' Hx Hy [_ Hk]%Huse [_ Hk']%Huse; [|done..]. by eapply T4.
  - done.
  - intros x Hx. rewrite C3. case_decide; [constructor|by apply T6].
  - intros x y k k' r r' Hx Hy [_ Hk]%Huse Hs [_ Hk']%Huse Hs'; [|done..].
    apply C1 in Hs as [Hs _]; [|done]. apply C1 in Hs' as [Hs' _]; [|done]. by eapply (T7 x y k k' r r').
Qed.

(** * Counting the uses to come *)

Lemma snoc_split {A} (pre : list A) x p y q : pre ++ [x] = p ++ y :: q ->
  (exists q', q = q' ++ [x] /\ pre = p ++ y :: q') \/ (q = [] /\ y = x /\ p = pre).
Proof.
  intros H. destruct q as [|z q _] using rev_ind.
  - right. apply app_inj_tail in H as [-> ->]. done.
  - left. exists q. rewrite app_comm_cons, app_assoc in H. apply app_inj_tail in H as [-> ->]. done.
Qed.

Section count.
Context (src : Image).

(** The stashes of [l] that are defined ([D]) and live in the slot [sh]. *)
Definition pend (D : list Z) (sh : string) (l : list (Z * RangeSet)) : Z :=
  Z.of_nat (length (filter (fun s => s.1 ∈ D /\ RangeSha1 src s.2 = sh) l)).

Definition uses (st : store) (l : list tid) : list (Z * RangeSet) := flat_map (fun x => use_stash (st !!! x)) l.

Lemma pend_app D sh l1 l2 : pend D sh (l1 ++ l2) = pend D sh l1 + pend D sh l2.
Proof. unfold pend. rewrite filter_app, length_app. lia. Qed.

Lemma pend_cons D sh s l : pend D sh (s :: l) =
  (if decide (s.1 ∈ D /\ RangeSha1 src s.2 = sh) then 1 else 0) + pend D sh l.
Proof. unfold pend. rewrite filter_cons. case_decide; simpl; lia. Qed.

Lemma pend_nothing sh l : pend [] sh l = 0.
Proof.
  induction l as [|s l IH]; [done|]. rewrite pend_cons, IH. case_decide as H; [|done].
  destruct H as [H _]. by apply elem_of_nil in H.
Qed.

Lemma pend_nonneg D sh l : 0 <= pend D sh l.
Proof. unfold pend. lia. Qed.

Lemma pend_weaken D D' sh l : (forall k r, (k, r) ∈ l -> k ∈ D' -> k ∈ D) -> pend D' sh l <= pend D sh l.
Proof.
  induction l as [|[k r] l IH]; intros H; [done|]. rewrite !pend_cons.
  assert (pend D' sh l <= pend D sh l) by (apply IH; intros k' r' Hk; apply (H k' r'); by right).
  pose proof (H k r ltac:(by left)) as Hk. repeat case_decide; simpl in *; try lia. naive_solver.
Qed.

(** Defining one more stash adds at most one use, in its own slot. *)
Lemma pend_define D sh sh0 k l : NoDup (map fst l) -> (forall r, (k, r) ∈ l -> RangeSha1 src r = sh0) ->
  pend (k :: D) sh l <= pend D sh l + (if decide (sh = sh0) then 1 else 0).
Proof.
  induction l as [|[k' r'] l IH]; simpl; intros Hn Hl; [unfold pend; simpl; case_decide; lia|].
  apply NoDup_cons in Hn as [Hk Hn]. rewrite !pend_cons. simpl.
  destruct (decide (k' = k)) as [->|Hne].
  - assert (pend (k :: D) sh l <= pend D sh l).
    { apply pend_weaken. intros k2 r2 H2 [->|?]%elem_of_cons; [|done]. exfalso. apply Hk, in_keys. eauto. }
    specialize (Hl r' ltac:(by left)). repeat case_decide; try lia; naive_solver.
  - specialize (IH Hn). assert (forall r, (k, r) ∈ l -> RangeSha1 src r = sh0) as Hl' by (intros r Hr; apply Hl; by right).
    specialize (IH Hl'). assert (k' ∈ k :: D <-> k' ∈ D) as Hiff by (rewrite elem_of_cons; naive_solver).
    repeat case_decide; try lia; naive_solver.
Qed.

Lemma pend_converted D sh cmd st st' l :
  (forall x, use_stash (st' !!! x) = if decide (x = cmd) then [] else use_stash (st !!! x)) ->
  pend D sh (uses st' l) <= pend D sh (uses st l).
Proof.
  intros H. unfold uses. induction l as [|x l IH]; simpl; [done|]. rewrite !pend_app, H.
  pose proof (pend_nonneg D sh (use_stash (st !!! x))). case_decide; [unfold pend at 1; simpl|]; lia.
Qed.

(** Fewer uses and fewer definitions leave fewer to come. *)
Lemma pend_sublist D sh l l' : l' `sublist_of` l -> pend D sh l' <= pend D sh l.
Proof.
  induction 1 as [|s l1 l2 _ IH|s l1 l2 _ IH]; [done|..]; rewrite !pend_cons; case_decide; try rewrite pend_cons; lia.
Qed.

Lemma uses_keys_NoDup st ts pre post : NoDup ts -> stash_table ts st -> ts = pre ++ post -> NoDup (map fst (uses st post)).
Proof.
  intros Hnd Htb Hl. unfold uses.
  assert (map fst (flat_map (fun x => use_stash (st !!! x)) post) = flat_map (fun x => map fst (use_stash (st !!! x))) post) as ->.
  { clear. induction post as [|x l IH]; simpl; [done|]. by rewrite map_app, IH. }
  assert (forall n x, post !! n = Some x -> x ∈ ts) as Hin.
  { intros n x Hn. rewrite Hl, elem_of_app. right. by eapply list_elem_of_lookup_2. }
  apply NoDup_flat_map.
  - intros x Hx. apply Htb. rewrite Hl, elem_of_app. by right.
  - intros k n m x y Hn Hm (r & Hr)%in_keys (r' & Hr')%in_keys.
    destruct (tb_use _ _ Htb x y k r r' (Hin n x Hn) (Hin m y Hm) Hr Hr') as [-> _].
    rewrite Hl in Hnd. apply NoDup_app in Hnd as (_ & _ & Hnd). by eapply NoDup_lookup.
Qed.
End count.

(** Slots have the size of the blocks whose hash names them. *)
Definition slot_sizes (src : Image) (hsize : string -> Z) : Prop :=
  (forall sh, 0 <= hsize sh) /\ forall r, wf r -> hsize (RangeSha1 src r) = size r.

Definition total_size (hsize : string -> Z) (keys : list string) : Z := sumZ (map hsize keys).

Lemma total_size_perm hsize l l' : l ≡ₚ l' -> total_size hsize l = total_size hsize l'.
Proof. intros H. apply sumZ_perm. by apply Permutation_map. Qed.

Lemma total_size_subset hsize l l' : (forall sh, 0 <= hsize sh) -> NoDup l -> (forall sh, sh ∈ l -> sh ∈ l') ->
  total_size hsize l <= total_size hsize l'.
Proof.
  intros H0 Hn Hin. destruct (submseteq_Permutation l l') as [k Hk].
  { apply NoDup_submseteq; [done|]. intros sh. apply Hin. }
  rewrite (total_size_perm _ _ _ Hk). unfold total_size. rewrite map_app, sumZ_app.
  assert (0 <= sumZ (map hsize k)); [|lia]. apply sumZ_nonneg, Forall_map, Forall_forall. intros. apply H0.
Qed.

Lemma od_keys_set_perm (k : string) (v : Z) d : od_keys (od_set k v d) ≡ₚ if od_mem k d then od_keys d else k :: od_keys d.
Proof.
  unfold od_mem. induction d as [|[k' v'] d IH]; simpl; [done|]. destruct (decide (k = k')) as [->|Hne]; simpl.
  - rewrite bool_decide_eq_true_2; [done|by left].
  - rewrite IH. destruct (decide (k ∈ od_keys d)) as [Hk|Hk].
    + rewrite !bool_decide_eq_true_2; [done|by right|done].
    + rewrite !bool_decide_eq_false_2; [by rewrite Permutation_swap|by intros [?|?]%elem_of_cons|done].
Qed.

Lemma od_keys_remove_perm (k : string) (d : list (string * Z)) : k ∈ od_keys d -> od_keys d ≡ₚ k :: od_keys (od_remove k d).
Proof.
  induction d as [|[k' v'] d IH]; simpl; [by intros ?%elem_of_nil|]. intros [->|Hk]%elem_of_cons.
  - by rewrite decide_True.
  - destruct (decide (k = k')) as [->|Hne]; [done|]. simpl. rewrite Permutation_swap. by rewrite <- IH.
Qed.

(** * The second pass *)

Section revise.
Context (hsize : string -> Z).
Context (src : Image) (limit : option py_float) (st0 : store) (ts : list tid) (m : stash_map_t).
Context (Hnd : NoDup ts) (Hseq0 : sequenced st0 ts) (Hm : map_ok st0 ts ts m).
Context (Hlimit : exceeds limit 0 = false).
Context (Hwf : forall x, x ∈ ts -> wf (tgt_ranges (st0 !!! x))).

(** A transfer is as it was, or has been converted. *)
Definition kept (st : store) (x : tid) : Prop :=
  (style (st !!! x) = style (st0 !!! x) /\ src_ranges (st !!! x) = src_ranges (st0 !!! x)) \/
  (style (st !!! x) = "new" /\ src_ranges (st !!! x) = empty /\ use_stash (st !!! x) = []).

Record sinv (st : store) : Prop := {
  si_seq : sequenced st ts;
  si_left : left_over st0 ts st;
  si_kept : forall x, kept st x;
  si_tgt : same_on tgt_ranges st0 st
}.

Context (Hdiff : forall x, x ∈ ts -> style (st0 !!! x) = "diff" ->
  rs_bool (tgt_ranges (st0 !!! x)) = true /\ rs_bool (src_ranges (st0 !!! x)) = true).
Context (Huser : forall x, x ∈ ts -> use_stash (st0 !!! x) <> [] -> style (st0 !!! x) <> "new").

Lemma user_style st x s : sinv st -> x ∈ ts -> s ∈ use_stash (st !!! x) -> style (st !!! x) <> "new".
Proof.
  intros [_ [_ L2] Hk _] Hx Hs. destruct (Hk x) as [[-> _]|(_ & _ & Hnil)].
  - apply Huser; [done|]. intros Hnil. destruct s as [k r]. apply L2 in Hs; [|done]. rewrite Hnil in Hs.
    by apply elem_of_nil in Hs.
  - rewrite Hnil in Hs. by apply elem_of_nil in Hs.
Qed.

Lemma sinv_converted cmd st st' : cmd ∈ ts -> sinv st -> converted ts cmd st st' -> sinv st'.
Proof.
  intros Hc [S1 S2 S3 S4] Hcv. split.
  - by eapply converted_sequenced.
  - by eapply converted_left_over.
  - intros x. destruct (decide (x = cmd)) as [->|Hne].
    + right. rewrite (cv_style _ _ _ _ Hcv), (cv_src _ _ _ _ Hcv), (cv_use _ _ _ _ Hcv). by rewrite !decide_True.
    + unfold kept. rewrite (cv_style _ _ _ _ Hcv), (cv_src _ _ _ _ Hcv), (cv_use _ _ _ _ Hcv). rewrite !decide_False by done.
      apply S3.
  - intros x. rewrite (cv_tgt _ _ _ _ Hcv). apply S4.
Qed.

(** The counters: every defined use to come is counted. *)
Record cinv (D : list Z) (l : list (Z * RangeSet)) (z : SizeState) : Prop := {
  ci_count : forall sh, pend src D sh l <= default 0 (od_get sh (z_stashes z));
  ci_pos : forall sh c, od_get sh (z_stashes z) = Some c -> 0 < c;
  ci_nd : NoDup (od_keys (z_stashes z));
  ci_max : exceeds limit (z_max z) = false;
  ci_new : 0 <= z_new z;
  ci_sum : slot_sizes src hsize -> z_stashed z = total_size hsize (od_keys (z_stashes z)) /\ z_stashed z <= z_max z
}.

(** ** Explicit stashes *)

Definition explicit_inv (st : store) (xf : tid) (l : list (Z * RangeSet)) (D : list Z) (p : list (Z * RangeSet))
    (acc : SizeState * list tid) : Prop :=
  let '(z, replaced) := acc in
  z_store z = st /\ NoDup replaced /\
  (forall x, x ∈ replaced -> x ∈ ts /\ exists k r, (k, r) ∈ p /\ (k, r) ∈ use_stash (st !!! x)) /\
  exists D', cinv D' l z /\ (forall k, k ∈ D -> k ∈ D') /\
    forall k r, (k, r) ∈ p -> k ∈ D' \/ exists x, x ∈ replaced /\ (k, r) ∈ use_stash (st !!! x).

Lemma explicit_step pre xf post z replaced D p k sr q :
  let st := z_store z in
  sinv st -> ts = pre ++ xf :: post -> stash_before (st !!! xf) = p ++ (k, sr) :: q ->
  explicit_inv st xf (uses st (xf :: post)) D p (z, replaced) ->
  exists acc, explicit_stash src limit m (z, replaced) (k, sr) = Ok acc /\
    explicit_inv st xf (uses st (xf :: post)) D (p ++ [(k, sr)]) acc.
Proof.
  intros st Hs Hl Hsb (_ & Hnr & Hrep & D' & Hc & HD & Hp). unfold explicit_stash.
  assert (xf ∈ ts) as Hxf by (rewrite Hl, elem_of_app; right; by left).
  assert ((k, sr) ∈ stash_before (st !!! xf)) as Hk by (rewrite Hsb, elem_of_app; right; by left).
  pose proof (sq_table _ _ (si_seq st Hs)) as Htb.
  destruct (tb_user _ _ Htb xf k sr Hxf Hk) as (x & Hx & Hkx).
  assert (forall k' r', (k', r') ∈ p -> k' <> k) as Hkp.
  { intros k' r' Hin ->. pose proof (tb_save_nd _ _ Htb xf Hxf) as Hn. rewrite Hsb, map_app in Hn. simpl in Hn.
    apply NoDup_app in Hn as (_ & Hd & _). apply (Hd k); [apply in_keys; eauto|by left]. }
  set (after := if od_mem _ _ then _ else _).
  destruct (exceeds limit after) eqn:Ee.
  - rewrite (stash_map_get st0 ts m Hm st xf x k sr (si_left st Hs) Hxf Hx Hk Hkx). simpl.
    eexists. split; [done|]. split; [done|]. split.
    { apply NoDup_app. split; [done|]. split; [|apply NoDup_singleton].
      intros y Hy ->%list_elem_of_singleton. destruct (Hrep x Hy) as (_ & k' & r' & Hin & Hku).
      apply (Hkp k' r' Hin). apply (tb_pair _ _ Htb x xf k' k r' sr); try done.
      rewrite Hsb, elem_of_app. by left. }
    split.
    { intros y [Hy|Hy%list_elem_of_singleton]%elem_of_app.
      - destruct (Hrep y Hy) as (? & k' & r' & Hin & ?). split; [done|]. exists k', r'. split; [apply elem_of_app; by left|done].
      - subst y. split; [done|]. exists k, sr. split; [apply elem_of_app; right; by left|done]. }
    exists D'. split; [by destruct Hc|]. split; [done|].
    intros k' r' [Hin|Hin%list_elem_of_singleton]%elem_of_app.
    + destruct (Hp k' r' Hin) as [?|(y & Hy & ?)]; [by left|right]. exists y. split; [apply elem_of_app; by left|done].
    + injection Hin as -> ->. right. exists x. split; [apply elem_of_app; right; by left|done].
  - eexists. split; [done|]. split; [done|]. split; [done|]. split.
    { intros y Hy. destruct (Hrep y Hy) as (? & k' & r' & Hin & ?). split; [done|]. exists k', r'.
      split; [apply elem_of_app; by left|done]. }
    exists (k :: D'). split; [|split].
    + destruct Hc as [C1 C2 C3 C4 C5 C6]. split; simpl; try done.
      * intros sh. rewrite od_get_set.
        assert (pend src (k :: D') sh (uses st (xf :: post)) <=
          pend src D' sh (uses st (xf :: post)) + (if decide (sh = RangeSha1 src sr) then 1 else 0)) as Hpd.
        { apply pend_define; [by apply (uses_keys_NoDup st ts pre)|].
          intros r Hr. apply list_elem_of_In, in_flat_map in Hr as (y & Hy & Hr). apply list_elem_of_In in Hy, Hr.
          assert (y ∈ ts) as Hyt by (rewrite Hl, elem_of_app; by right).
          by destruct (tb_use _ _ Htb x y k sr r Hx Hyt Hkx Hr) as [_ ->]. }
        specialize (C1 sh). destruct (decide (sh = RangeSha1 src sr)) as [->|]; simpl in *; lia.
      * intros sh c. rewrite od_get_set. case_decide; [|apply C2]. intros [= <-].
        destruct (od_get (RangeSha1 src sr) (z_stashes z)) as [c|] eqn:Ec; simpl; [apply C2 in Ec|]; lia.
      * by apply od_keys_set_NoDup.
      * destruct (Z.max_spec (z_max z) after) as [[_ ->]|[_ ->]]; done.
      * intros Hss. destruct (C6 Hss) as [E1 E2]. rewrite (total_size_perm _ _ _ (od_keys_set_perm _ _ _)).
        assert (wf sr) as Hsr.
        { apply list_elem_of_split in Hx as (a & b & Hab).
          by destruct (sq_use _ _ (si_seq st Hs) a x b k sr Hab Hkx) as (_ & _ & _ & [[? _] _]). }
        unfold after. destruct (od_mem _ _); [lia|]. unfold total_size in *. simpl. rewrite (proj2 Hss) by done. lia.
    + intros k' Hk'. right. auto.
    + intros k' r' [Hin|Hin%list_elem_of_singleton]%elem_of_app.
      * destruct (Hp k' r' Hin) as [?|?]; [left; by right|by right].
      * injection Hin as -> ->. left. by left.
Qed.

(** ** Conversions *)

(** What conversions leave of a store. *)
Record shrunk (st st' : store) : Prop := {
  sk_save : forall y k r, y ∈ ts -> (k, r) ∈ stash_before (st' !!! y) -> (k, r) ∈ stash_before (st !!! y);
  sk_use : forall x, use_stash (st' !!! x) `sublist_of` use_stash (st !!! x);
  sk_style : forall x, style (st' !!! x) <> "new" ->
    style (st !!! x) = style (st' !!! x) /\ src_ranges (st !!! x) = src_ranges (st' !!! x);
  sk_tgt : forall x, tgt_ranges (st' !!! x) = tgt_ranges (st !!! x)
}.

Lemma kept_uses_refl st : shrunk st st.
Proof. split; try done. Qed.

Lemma kept_uses_trans st1 st2 st3 : shrunk st1 st2 -> shrunk st2 st3 -> shrunk st1 st3.
Proof.
  intros [A1 A2 A3 A4] [B1 B2 B3 B4]. split.
  - auto.
  - intros x. etransitivity; [apply B2|apply A2].
  - intros x Hx. destruct (B3 x Hx) as [E1 E2]. destruct (A3 x) as [E3 E4]; [congruence|]. split; congruence.
  - intros x. by rewrite B4.
Qed.

Lemma converted_shrunk cmd st st' : converted ts cmd st st' -> shrunk st st'.
Proof.
  intros [C1 _ C3 C4 C5 C6]. split.
  - intros y k r Hy Hk. by apply C1 in Hk as [? _].
  - intros x. rewrite C3. case_decide; [apply sublist_nil_l|done].
  - intros x. rewrite C6, C4. case_decide; [intros Hnw; by destruct Hnw|done].
  - done.
Qed.

(** The stashes that the transfers of a list define. *)
Definition saved_ids (st : store) (l : list tid) : list Z := flat_map (fun y => map fst (stash_before (st !!! y))) l.

Lemma elem_of_saved_ids st l k : k ∈ saved_ids st l <-> exists y r, y ∈ l /\ (k, r) ∈ stash_before (st !!! y).
Proof.
  unfold saved_ids. rewrite list_elem_of_In, in_flat_map. split.
  - intros (y & Hy & Hk). apply list_elem_of_In in Hy, Hk. apply in_keys in Hk as [r Hr]. by exists y, r.
  - intros (y & r & Hy & Hk). exists y. split; [by apply list_elem_of_In|]. apply list_elem_of_In, in_keys. by exists r.
Qed.

(** The slots that are in use while [x] runs, after [p] and before [rest], and
    its implicit stash, take at most [mx] blocks. *)
Definition profile (st : store) (p : list tid) (x : tid) (rest : list tid) (mx : Z) : Prop :=
  forall hs, NoDup hs -> (forall sh, sh ∈ hs -> 0 < pend src (saved_ids st (p ++ [x])) sh (uses st (x :: rest))) ->
    total_size hsize hs <= mx /\
    (style (st !!! x) = "diff" -> overlaps (src_ranges (st !!! x)) (tgt_ranges (st !!! x)) = true ->
       total_size hsize hs + size (src_ranges (st !!! x)) <= mx).

Lemma uses_shrunk st st' l : shrunk st st' -> uses st' l `sublist_of` uses st l.
Proof. intros H. unfold uses. induction l as [|x l IH]; simpl; [done|]. apply sublist_app; [apply H|done]. Qed.

Lemma profile_step st pre xf post st' z1 mx D' : slot_sizes src hsize ->
  cinv D' (uses st (xf :: post)) z1 -> shrunk st st' ->
  (forall y k r, y ∈ pre ++ [xf] -> (k, r) ∈ stash_before (st' !!! y) -> k ∈ D') -> z_max z1 <= mx ->
  (style (st' !!! xf) = "diff" -> overlaps (src_ranges (st' !!! xf)) (tgt_ranges (st' !!! xf)) = true ->
     z_stashed z1 + size (src_ranges (st' !!! xf)) <= mx) ->
  profile st' pre xf post mx.
Proof.
  intros Hss [C1 C2 C3 C4 C5 C6] Hshr HD Hmx Himp hs Hnd' Hhs. destruct (C6 Hss) as [E1 E2].
  assert (total_size hsize hs <= z_stashed z1) as Hle.
  { rewrite E1. apply total_size_subset; [apply Hss|done|]. intros sh Hsh. specialize (Hhs sh Hsh).
    assert (pend src (saved_ids st' (pre ++ [xf])) sh (uses st' (xf :: post)) <= pend src D' sh (uses st (xf :: post))) as Hp.
    { etransitivity; [|apply pend_sublist, uses_shrunk, Hshr]. apply pend_weaken.
      intros k r _ (y & r' & Hy & Hk)%elem_of_saved_ids. by eapply HD. }
    specialize (C1 sh). apply od_get_is_Some. destruct (od_get sh (z_stashes z1)); [done|].
    change (default 0 None) with 0 in C1. lia. }
  split; [lia|]. intros H1 H2. specialize (Himp H1 H2). lia.
Qed.


Lemma replace_cmds_ok xf l post : forall z D,
  sinv (z_store z) -> NoDup l ->
  (forall x, x ∈ l -> x ∈ ts /\ style (z_store z !!! x) <> "new") ->
  cinv D (uses (z_store z) post) z -> xf ∈ ts ->
  (forall k r, (k, r) ∈ stash_before (z_store z !!! xf) -> k ∈ D \/ exists x, x ∈ l /\ (k, r) ∈ use_stash (z_store z !!! x)) ->
  exists z', foldM (replace_cmd m) z l = Ok z' /\ sinv (z_store z') /\
    cinv D (uses (z_store z') post) z' /\
    (forall k r, (k, r) ∈ stash_before (z_store z' !!! xf) -> k ∈ D) /\
    (forall y k r, y ∈ ts -> (k, r) ∈ stash_before (z_store z' !!! y) -> (k, r) ∈ stash_before (z_store z !!! y)) /\
    (l = [] -> z' = z) /\
    shrunk (z_store z) (z_store z') /\ (forall x, x ∈ l -> style (z_store z' !!! x) = "new") /\ z_max z' = z_max z.
Proof.
  induction l as [|cmd l IH]; intros z D Hs Hn Hsty Hc Hxf Hd; simpl.
  { exists z. split_and!; try done; try (by intros x ?%elem_of_nil). intros k r Hk. destruct (Hd k r Hk) as [?|(x & ?%elem_of_nil & _)]; done. }
  apply NoDup_cons in Hn as [Hcl Hn]. destruct (Hsty cmd) as [Hcts Hcs]; [by left|].
  destruct (replace_cmd_ok st0 ts m Hm z cmd (si_left _ Hs) (sq_table _ _ (si_seq _ Hs)) Hcts Hcs) as (st' & -> & Hcv).
  match goal with |- context [foldM _ ?y l] => set (z1 := y) end.
  assert (sinv (z_store z1)) as Hs1 by by eapply sinv_converted.
  destruct (IH z1 D Hs1 Hn) as (z' & -> & Hs' & Hc' & Hd' & Hsub & _ & Hshr & Hnew & Hmax).
  - intros x Hx. destruct (Hsty x) as [? Hxs]; [by right|]. split; [done|]. simpl. rewrite (cv_style _ _ _ _ Hcv).
    rewrite decide_False; [done|]. by intros ->.
  - destruct Hc as [C1 C2 C3 C4 C5 C6]. split; simpl; try done.
    + intros sh. etransitivity; [|apply C1]. eapply pend_converted. apply Hcv.
    + rewrite (si_tgt _ Hs). rewrite size_items by by apply Hwf. lia.
  - done.
  - intros k r Hk. simpl in Hk. apply (cv_save _ _ _ _ Hcv) in Hk as [Hk Hnk]; [|done].
    destruct (Hd k r Hk) as [?|(x & Hx & Hkx)]; [by left|]. right.
    apply elem_of_cons in Hx as [->|Hx]; [exfalso; apply Hnk, in_keys; eauto|].
    exists x. split; [done|]. simpl. rewrite (cv_use _ _ _ _ Hcv). rewrite decide_False; [done|]. by intros ->.
  - exists z'. pose proof (converted_shrunk _ _ _ Hcv) as Hsh1. split_and!; try done.
    + intros y k r Hy Hk. apply Hsub in Hk; [|done]. simpl in Hk. by apply (cv_save _ _ _ _ Hcv) in Hk as [? _].
    + by eapply kept_uses_trans.
    + intros x [->|Hx]%elem_of_cons; [|by apply Hnew].
      destruct (decide (style (z_store z' !!! cmd) = "new")) as [|Hne]; [done|].
      destruct (sk_style _ _ Hshr cmd Hne) as [E _]. rewrite <- E. simpl. rewrite (cv_style _ _ _ _ Hcv). by rewrite decide_True.
Qed.
(** ** Releasing the stashes a transfer has used *)

Lemma release_stashes_ok D l rest : forall z,
  (forall k r, (k, r) ∈ l -> k ∈ D /\ wf r) -> cinv D (l ++ rest) z ->
  exists z', foldM (release_stash src) z l = Ok z' /\ z_store z' = z_store z /\ z_new z' = z_new z /\
    z_max z' = z_max z /\ cinv D rest z'.
Proof.
  induction l as [|[k r] l IH]; intros z HD Hc; simpl; [by exists z|].
  destruct Hc as [C1 C2 C3 C4 C5 C6]. unfold release_stash at 1. simpl.
  destruct (HD k r) as [Hk Hr]; [by left|].
  pose proof (C1 (RangeSha1 src r)) as H1. simpl in H1. rewrite pend_cons in H1. simpl in H1.
  rewrite decide_True in H1 by done. pose proof (pend_nonneg src D (RangeSha1 src r) (l ++ rest)).
  destruct (od_get (RangeSha1 src r) (z_stashes z)) as [c|] eqn:Ec; simpl in H1; [|lia]. simpl.
  assert (forall sh, sh <> RangeSha1 src r -> pend src D sh (l ++ rest) <= default 0 (od_get sh (z_stashes z))) as Hother.
  { intros sh Hne. specialize (C1 sh). simpl in C1. rewrite pend_cons in C1. case_decide; lia. }
  destruct (Z.eqb_spec (c - 1) 0) as [Hz|Hz].
  - apply (IH (mkSize _ _ _ _ _)); [intros k' r' H'; apply (HD k' r'); by right|]. split; simpl; try done.
    + intros sh. rewrite od_get_remove by done. case_decide; [subst; simpl; lia|by apply Hother].
    + intros sh c'. rewrite od_get_remove by done. case_decide; [done|apply C2].
    + by apply od_keys_remove.
    + intros Hss. destruct (C6 Hss) as [E1 E2]. assert (0 <= size r) by (rewrite size_items by done; lia).
      rewrite E1, (total_size_perm _ _ _ (od_keys_remove_perm (RangeSha1 src r) _ (od_get_Some_key _ _ _ Ec))) in *.
      unfold total_size in *. simpl in *. rewrite (proj2 Hss) in * by done. lia.
  - apply (IH (mkSize _ _ _ _ _)); [intros k' r' H'; apply (HD k' r'); by right|]. split; simpl; try done.
    + intros sh. rewrite od_get_set. case_decide; [subst; simpl; lia|by apply Hother].
    + intros sh c'. rewrite od_get_set. case_decide; [|apply C2]. intros [= <-]. apply C2 in Ec. lia.
    + by apply od_keys_set_NoDup.
    + intros Hss. destruct (C6 Hss) as [E1 E2]. rewrite (total_size_perm _ _ _ (od_keys_set_perm _ _ _)).
      unfold od_mem. rewrite bool_decide_eq_true_2; [done|by eapply od_get_Some_key].
Qed.

(** ** One transfer *)

Record zinv (pre post : list tid) (z : SizeState) : Prop := {
  zi_sinv : sinv (z_store z);
  zi_counts : exists D, cinv D (uses (z_store z) post) z /\
    forall y k r, y ∈ pre -> (k, r) ∈ stash_before (z_store z !!! y) -> k ∈ D;
  zi_same : limit = None -> z_store z = st0 /\ z_new z = 0;
  zi_profile : slot_sizes src hsize -> forall p x q st', pre = p ++ x :: q -> shrunk (z_store z) st' ->
    profile st' p x (q ++ post) (z_max z)
}.

Lemma implicit_stash_ok xf z replaced D l : xf ∈ ts -> sinv (z_store z) -> cinv D l z ->
  exists z' extra, implicit_stash limit xf (z, replaced) = Ok (z', replaced ++ extra) /\
    z_store z' = z_store z /\ cinv D l z' /\ z_new z' = z_new z /\ z_max z <= z_max z' /\
    (extra = [] -> style (z_store z !!! xf) = "diff" ->
       overlaps (src_ranges (z_store z !!! xf)) (tgt_ranges (z_store z !!! xf)) = true ->
       z_stashed z + size (src_ranges (z_store z !!! xf)) <= z_max z') /\
    (extra = [] \/ (extra = [xf] /\ style (z_store z !!! xf) = "diff" /\ limit <> None)).
Proof.
  intros Hxf Hs [C1 C2 C3 C4 C5 C6]. unfold implicit_stash.
  destruct (String.eqb_spec (style (z_store z !!! xf)) "diff") as [Hd|Hd].
  2: { exists z, []. rewrite app_nil_r. split_and!; try done. by left. }
  destruct (si_kept _ Hs xf) as [[Ey Es]|[Ey _]]; [|congruence].
  destruct (Hdiff xf Hxf) as [Ht Hsr]; [congruence|]. rewrite (si_tgt _ Hs), Es, Ht, Hsr. simpl.
  destruct (overlaps _ _).
  2: { exists z, []. rewrite app_nil_r. split_and!; try done. by left. }
  destruct (exceeds limit (z_stashed z + size (src_ranges (st0 !!! xf)))) eqn:Ee.
  - exists z, [xf]. split_and!; try done. right. split_and!; try done. intros ->. done.
  - eexists _, []. rewrite app_nil_r. split; [done|]. split_and!; try done; simpl; [|lia|lia|by left].
    split; simpl; try done.
    + destruct (Z.max_spec (z_max z) (z_stashed z + size (src_ranges (st0 !!! xf)))) as [[_ ->]|[_ ->]]; done.
    + intros Hss. destruct (C6 Hss). split; [done|lia].
Qed.

Lemma explicit_max l : forall acc acc', foldM (explicit_stash src limit m) acc l = Ok acc' -> z_max acc.1 <= z_max acc'.1.
Proof.
  intros acc acc' Hf. refine (foldM_ind (fun _ a => z_max acc.1 <= z_max a.1) _ _ _ _ Hf _ _); [lia|].
  intros pre [k r] post [z1 rep] a _ Hz Hstep. unfold explicit_stash in Hstep. cbv zeta in Hstep.
  match type of Hstep with context [exceeds limit ?n] => destruct (exceeds limit n) end.
  - destruct (od_get k m) as [[[? ?] [|u us]]|]; simpl in Hstep; [done| |done]. injection Hstep as <-. simpl in *. lia.
  - injection Hstep as <-. simpl in *. lia.
Qed.

Lemma explicit_none_replaced l : forall z, limit = None ->
  forall acc, foldM (explicit_stash src limit m) (z, []) l = Ok acc -> acc.2 = [] /\ z_new acc.1 = z_new z.
Proof.
  intros z Hn acc Hf.
  apply (foldM_ind (fun _ acc => acc.2 = [] /\ z_new acc.1 = z_new z) _ _ _ _ Hf); [done|].
  intros pre [k r] post [z1 rep] acc' _ [Hr Hz] Hstep. simpl in Hr. subst rep. unfold explicit_stash in Hstep.
  rewrite Hn in Hstep. simpl in Hstep. injection Hstep as <-. done.
Qed.

Lemma revise_one_ok pre xf post z : ts = pre ++ xf :: post -> zinv pre (xf :: post) z ->
  exists z', revise_one src limit m z xf = Ok z' /\ zinv (pre ++ [xf]) post z'.
Proof.
  intros Hl [Hs (D & Hc & HD) Hsame Hprof]. unfold revise_one.
  assert (xf ∈ ts) as Hxf by (rewrite Hl, elem_of_app; right; by left).
  assert (forall y, y ∈ pre -> y ∈ ts) as Hpre by (intros y Hy; rewrite Hl, elem_of_app; by left).
  set (st := z_store z).
  destruct (foldM_ok (explicit_inv st xf (uses st (xf :: post)) D) (explicit_stash src limit m) (z, []) (stash_before (st !!! xf)))
    as ([z1 replaced] & Hf1 & Hst1 & Hnr & Hrep & D' & Hc1 & HD1 & Hdef).
  { split; [done|]. split; [constructor|]. split; [by intros x ?%elem_of_nil|]. exists D. split_and!; try done.
    by intros k r ?%elem_of_nil. }
  { intros p [k sr] q [z1 rep] Hsb Hinv. destruct Hinv as (Hst & Hrest).
    destruct (explicit_step pre xf post z1 rep D p k sr q) as (acc & Hacc & Hi).
    - by rewrite Hst.
    - done.
    - by rewrite Hst.
    - rewrite Hst. by split.
    - rewrite Hst in Hi. by exists acc. }
  rewrite Hf1.
  destruct (implicit_stash_ok xf z1 replaced D' (uses st (xf :: post)) Hxf) as (z2 & extra & -> & Hst2 & Hc2 & Hnew2 & Hmax2 & Himp & Hextra);
    [by rewrite Hst1|done|].
  pose proof (sq_table _ _ (si_seq _ Hs)) as Htb.
  assert (forall x, x ∈ replaced -> x <> xf /\ style (st !!! x) <> "new") as Hrs.
  { intros x Hx. destruct (Hrep x Hx) as (Hxt & k & r & Hk & Hku). split; [|by eapply (user_style st x (k, r))].
    intros ->. by apply (user_after st ts Hnd (si_seq _ Hs) pre xf post xf k r Hl); [apply elem_of_app; right; left| |]. }
  destruct (replace_cmds_ok xf (replaced ++ extra) (xf :: post) z2 D') as (z3 & Hf3 & Hs3 & Hc3 & Hd3 & Hsub3 & Hnil3 & Hshr3 & Hconv3 & Hmax3).
  { by rewrite Hst2, Hst1. }
  { destruct Hextra as [->|(-> & _)]; [by rewrite app_nil_r|]. apply NoDup_app. split; [done|]. split; [|apply NoDup_singleton].
    intros x Hx ->%list_elem_of_singleton. by destruct (Hrs xf Hx). }
  { rewrite Hst2, Hst1. intros x [Hx|Hx]%elem_of_app.
    - split; [by apply Hrep|by apply Hrs].
    - destruct Hextra as [->|(-> & Hsd & _)]; [by apply elem_of_nil in Hx|]. apply list_elem_of_singleton in Hx as ->.
      rewrite Hst1 in Hsd. fold st in Hsd. split; [done|congruence]. }
  { by rewrite Hst2, Hst1. }
  { done. }
  { rewrite Hst2, Hst1. intros k r Hk. destruct (Hdef k r Hk) as [?|(x & Hx & ?)]; [by left|right].
    exists x. split; [apply elem_of_app; by left|done]. }
  rewrite Hf3.
  assert (forall y k r, y ∈ pre ++ [xf] -> (k, r) ∈ stash_before (z_store z3 !!! y) -> k ∈ D') as HDz.
  { intros y k r [Hy|Hy%list_elem_of_singleton]%elem_of_app Hk; [|subst; by eapply Hd3].
    apply HD1. apply (HD y k r Hy). apply Hsub3 in Hk; [|by apply Hpre]. by rewrite Hst2, Hst1 in Hk. }
  destruct (release_stashes_ok D' (use_stash (z_store z3 !!! xf)) (uses (z_store z3) post) z3) as (z4 & -> & Hst4 & Hnew4 & Hmax4 & Hc4).
  { intros k r Hk. destruct (sq_use _ _ (si_seq _ Hs3) pre xf post k r Hl Hk) as (y & Hy & Hky & [[? _] _]). split; [|done].
    apply (HDz y k r); [apply elem_of_app; by left|done]. }
  { done. }
  exists z4. split; [done|]. split.
  - by rewrite Hst4.
  - exists D'. rewrite Hst4. by split.
  - intros Hn. destruct (Hsame Hn) as [Hz0 Hz1]. destruct (explicit_none_replaced _ z Hn _ Hf1) as [Hr1 Hn1].
    simpl in Hr1, Hn1. subst replaced. destruct Hextra as [->|(_ & _ & ?)]; [|done].
    specialize (Hnil3 eq_refl). subst z3.
    split; [by rewrite Hst4, Hst2, Hst1|by rewrite Hnew4, Hnew2, Hn1].
  - intros Hss p x q st' Hpq Hshr. rewrite Hst4 in Hshr. rewrite Hmax4, Hmax3.
    assert (shrunk st st') as Hshr' by (eapply kept_uses_trans; [|exact Hshr]; by rewrite <- Hst1, <- Hst2).
    pose proof (explicit_max _ _ _ Hf1) as Hmax1. simpl in Hmax1.
    destruct (snoc_split pre xf p x q Hpq) as [(q' & -> & Hpre')|(-> & -> & ->)].
    + intros hs Hnd' Hhs. rewrite <- app_assoc in Hhs.
      destruct (Hprof Hss p x q' st' Hpre' Hshr' hs Hnd' Hhs). split; [lia|intros H1 H2; specialize (H0 H1 H2); lia].
    + apply (profile_step st pre xf post st' z1 (z_max z2) D' Hss Hc1 Hshr'); [|lia|].
      * intros y k r Hy Hk. apply (HDz y k r Hy). apply (sk_save _ _ Hshr); [|done].
        apply elem_of_app in Hy as [?|?%list_elem_of_singleton]; [by apply Hpre|by subst].
      * intros Hsty Hov. destruct (sk_style _ _ Hshr xf) as [E1 E2]; [by rewrite Hsty|].
        rewrite (sk_tgt _ _ Hshr') in Hov. rewrite Hst1 in Himp.
        assert (src_ranges (st !!! xf) = src_ranges (st' !!! xf) /\ style (st !!! xf) = style (st' !!! xf)) as [F1 F2].
        { destruct (sk_style _ _ Hshr' xf) as [? ?]; [by rewrite Hsty|done]. }
        fold st in Himp. rewrite F1, F2 in Himp. apply Himp; [|done|done].
        destruct Hextra as [?|(-> & _)]; [done|]. exfalso. rewrite (Hconv3 xf) in E1; [congruence|].
        apply elem_of_app. right. by left.
Qed.
End revise.

(** * The whole function *)

Lemma ReviseStashSize_ok hsize src limit s :
  let st := sq_store s in let ts := sq_transfers s in
  NoDup ts -> sequenced st ts -> exceeds limit 0 = false ->
  (forall x, x ∈ ts -> wf (tgt_ranges (st !!! x))) ->
  (forall x, x ∈ ts -> style (st !!! x) = "diff" ->
     rs_bool (tgt_ranges (st !!! x)) = true /\ rs_bool (src_ranges (st !!! x)) = true) ->
  (forall x, x ∈ ts -> use_stash (st !!! x) <> [] -> style (st !!! x) <> "new") ->
  exists s' nb mx, ReviseStashSize src limit s = Ok (s', nb, mx) /\ sq_transfers s' = ts /\
    sequenced (sq_store s') ts /\ same_on tgt_ranges st (sq_store s') /\
    (forall x, kept st (sq_store s') x) /\ exceeds limit mx = false /\ 0 <= nb /\
    (limit = None -> sq_store s' = st /\ nb = 0) /\
    (slot_sizes src hsize -> forall p x q, ts = p ++ x :: q -> profile hsize src (sq_store s') p x q mx).
Proof.
  intros st ts Hnd Hseq Hlim Hwf Hdiff Huser. unfold ReviseStashSize. fold st ts.
  destruct (build_stash_map_ok st ts Hnd Hseq) as (m & -> & Hm).
  destruct (foldM_ok (fun pre z => exists post, ts = pre ++ post /\ zinv hsize src limit st ts pre post z)
    (revise_one src limit m) (mkSize st [] 0 0 0) ts) as (z & -> & post & Hl & Hz).
  - exists ts. split; [done|]. split; simpl.
    + split; [done|by split|intros x; left; done|done].
    + exists []. split; [|by intros y k r ?%elem_of_nil]. split; simpl; try done.
      * intros sh. by rewrite pend_nothing.
      * constructor.
    + done.
    + intros _ p x q st' H. by destruct p.
  - intros pre xf post z Hl (post' & Hl' & Hz). rewrite Hl in Hl'. apply app_inv_head in Hl' as <-.
    destruct (revise_one_ok hsize src limit st ts m Hnd Hm Hlim Hwf Hdiff Huser pre xf post z Hl Hz) as (z' & -> & Hz').
    exists z'. split; [done|]. exists post. split; [by rewrite <- app_assoc|done].
  - destruct Hz as [[S1 S2 S3 S4] (D & Hc & _) Hs Hprof]. eexists _, _, _. split; [done|]. simpl.
    split_and!; try done; try apply Hc. intros Hss p x q Hl'.
    assert (post = []) as ->.
    { apply (f_equal length) in Hl. rewrite length_app in Hl. destruct post; [done|simpl in Hl; lia]. }
    pose proof (Hprof Hss p x q (z_store z) Hl' (kept_uses_refl ts _)) as Hp. by rewrite app_nil_r in Hp.
Qed.

(** ** What the revision may do to a transfer *)

Section frame.
Context (R : Transfer -> Transfer -> Prop).
Context (Hrefl : forall x, R x x) (Htrans : forall x y z, R x y -> R y z -> R x z).
Context (Hsave : forall x l, R x (set_stash_before l x)).
Context (Hnew : forall x, R x (put_patch_info None (set_src_ranges empty (set_style "new" (set_use_stash [] x))))).

Definition framed (st st' : store) : Prop := forall i, R (st !!! i) (st' !!! i).

Lemma framed_upd st i f : (forall x, R x (f x)) -> framed st (upd i f st).
Proof. intros Hf j. rewrite lookup_total_upd. case_decide; [by subst j|done]. Qed.

Lemma framed_trans st1 st2 st3 : framed st1 st2 -> framed st2 st3 -> framed st1 st3.
Proof. intros H1 H2 i. exact (Htrans _ _ _ (H1 i) (H2 i)). Qed.

Lemma framed_fold {A} (get : A -> store) {B} (f : A -> B -> result A) l a a' :
  (forall a x a', f a x = Ok a' -> framed (get a) (get a')) -> foldM f a l = Ok a' -> framed (get a) (get a').
Proof.
  intros Hf H. apply (foldM_ind (fun _ a1 => framed (get a) (get a1)) _ _ _ _ H); [by intros i|].
  intros pre x post a1 a2 _ Ha Hs. eapply framed_trans; [exact Ha|by eapply Hf].
Qed.

Lemma replace_cmd_framed m z cmd z' : replace_cmd m z cmd = Ok z' -> framed (z_store z) (z_store z').
Proof.
  unfold replace_cmd. destruct (foldM _ _ _) as [st|] eqn:E; [|done].
  apply (framed_fold (fun st => st)) in E.
  2: { intros st1 s st2. unfold undefine. destruct (of_option _ _) as [d|]; [|done].
       destruct (of_option AssertionError _) as [l|]; [|done]. intros [= <-]. by apply framed_upd. }
  unfold ConvertToNew. destruct (negb _); [|done]. simpl. intros [= <-]. simpl. eapply framed_trans; [exact E|].
  intros i. destruct (decide (i = cmd)) as [->|]; [|by rewrite !lookup_total_upd_ne].
  rewrite !lookup_total_upd_eq. apply Hnew.
Qed.

Lemma revise_one_framed src limit m z xf z' : revise_one src limit m z xf = Ok z' -> framed (z_store z) (z_store z').
Proof.
  unfold revise_one. destruct (foldM (explicit_stash _ _ _) _ _) as [[z1 r1]|] eqn:E1; [|done].
  assert (z_store z1 = z_store z) as H1.
  { apply (foldM_ind (fun _ acc => z_store acc.1 = z_store z) _ _ _ _ E1); [done|].
    intros pre [k r] post [z2 r2] [z3 r3] _ Hz. simpl in *. unfold explicit_stash. destruct (exceeds _ _).
    - destruct (of_option _ _) as [d|]; [|done]. destruct d.2; [done|]. by intros [= <- _].
    - by intros [= <- _]. }
  destruct (implicit_stash limit xf (z1, r1)) as [[z2 r2]|] eqn:E2; [|done].
  assert (z_store z2 = z_store z1) as H2.
  { revert E2. unfold implicit_stash. repeat case_match; try done; by intros [= <- _]. }
  destruct (foldM (replace_cmd m) z2 r2) as [z3|] eqn:E3; [|done].
  apply (framed_fold z_store) in E3; [|intros; by eapply replace_cmd_framed]. intros E4.
  assert (z_store z' = z_store z3) as H4.
  { apply (foldM_ind (fun _ z1 => z_store z1 = z_store z3) _ _ _ _ E4); [done|].
    intros pre s post z4 z5 _ Hz. unfold release_stash. destruct (of_option _ _) as [c|]; [|done]. simpl.
    destruct (c - 1 =? 0); by intros [= <-]. }
  rewrite H4, <- H1, <- H2. exact E3.
Qed.

Lemma ReviseStashSize_framed src limit s s' nb mx : ReviseStashSize src limit s = Ok (s', nb, mx) ->
  framed (sq_store s) (sq_store s').
Proof.
  unfold ReviseStashSize. destruct (build_stash_map _ _) as [m|]; [|done].
  destruct (foldM _ _ _) as [z|] eqn:E; [|done]. intros [= <- _ _]. simpl.
  apply (framed_fold z_store) in E; [done|]. intros; by eapply revise_one_framed.
Qed.
End frame.

(** What the transfers look like before their order is found: a transfer with a
    source is not "new", and a "diff" has both a target and a source. *)
Definition styles_ok (st : store) (ts : list tid) : Prop :=
  forall x, x ∈ ts ->
    ((exists b, b ∈ src_ranges (st !!! x)) -> style (st !!! x) <> "new") /\
    (style (st !!! x) = "diff" -> rs_bool (tgt_ranges (st !!! x)) = true /\ rs_bool (src_ranges (st !!! x)) = true).

Lemma same_statics_style st st' i : same_on statics st st' -> style (st' !!! i) = style (st !!! i).
Proof. intros H. specialize (H i). unfold statics in H. by injection H. Qed.

Lemma find_then_revise hsize tgt src limit s :
  NoDup (sq_transfers s) -> ranges_ok (sq_store s) (sq_transfers s) -> styles_ok (sq_store s) (sq_transfers s) ->
  targets_ok tgt (sq_store s) (sq_transfers s) -> exceeds limit 0 = false ->
  exists s1 s2 nb mx, FindSequenceForTransfers s = Ok s1 /\ ReviseStashSize src limit s1 = Ok (s2, nb, mx) /\
    sq_transfers s2 = sq_transfers s1 /\ sq_transfers s1 ≡ₚ sq_transfers s /\ same_on statics (sq_store s) (sq_store s1) /\
    sequenced (sq_store s2) (sq_transfers s2) /\ ranges_ok (sq_store s2) (sq_transfers s2) /\
    targets_ok tgt (sq_store s2) (sq_transfers s2) /\
    (forall x, kept (sq_store s1) (sq_store s2) x) /\ same_on tgt_ranges (sq_store s1) (sq_store s2) /\
    exceeds limit mx = false /\ 0 <= nb /\ (limit = None -> sq_store s2 = sq_store s1 /\ nb = 0) /\
    (slot_sizes src hsize -> forall p x q, sq_transfers s2 = p ++ x :: q -> profile hsize src (sq_store s2) p x q mx).
Proof.
  intros Hnd Hr Hsty Ht Hlim.
  destruct (FindSequenceForTransfers_ok s Hnd Hr) as (s1 & Hf & Hp & Hs & _ & Hseq).
  pose proof (targets_ok_same _ _ _ _ _ Hs Hp Ht) as [T1 T2 T3].
  assert (NoDup (sq_transfers s1)) as Hnd1 by by rewrite Hp.
  assert (ranges_ok (sq_store s1) (sq_transfers s1)) as Hr1.
  { apply (ranges_ok_same _ _ _ Hs). intros i Hi. apply Hr. by rewrite <- Hp. }
  destruct (ReviseStashSize_ok hsize src limit s1) as (s2 & nb & mx & Hrev & Hts & Hseq2 & Htg & Hk & Hmx & Hnb & Hnone & Hprof); try done.
  { intros x Hx. by apply Hr1. }
  { intros x Hx. rewrite (same_statics_style _ _ x Hs), (proj1 (same_statics_ranges _ _ x Hs)), (proj2 (same_statics_ranges _ _ x Hs)).
    apply Hsty. by rewrite <- Hp. }
  { intros x Hx Hu. rewrite (same_statics_style _ _ x Hs). apply Hsty; [by rewrite <- Hp|].
    destruct (use_stash (sq_store s1 !!! x)) as [|[k r] l] eqn:E; [done|].
    apply list_elem_of_split in Hx as (pre & post & Hl).
    destruct (sq_use _ _ Hseq pre x post k r Hl) as (y & _ & _ & [_ [b Hb]] & Hsh); [rewrite E; by left|].
    exists b. rewrite <- (proj2 (same_statics_ranges _ _ x Hs)). by apply Hsh in Hb as [Hb _]. }
  exists s1, s2, nb, mx. rewrite Hts. split_and!; try done.
  - intros x Hx. destruct (Hr1 x Hx) as (R1 & R2 & R3 & R4). rewrite (Htg x). split_and!; try done.
    + destruct (Hk x) as [[_ ->]|(_ & -> & _)]; [done|]. split; [constructor|done].
    + destruct (Hk x) as [[_ ->]|(_ & -> & _)]; [done|]. intros b Hb. discriminate Hb.
  - split.
    + intros x b Hx. rewrite (Htg x). by apply T1.
    + intros x y b. rewrite (Htg x), (Htg y). apply T2.
    + intros b Hb. destruct (T3 b Hb) as (y & Hy & Hby). exists y. by rewrite (Htg y).
Qed.

(** C5: after the order is found, revising the stash size succeeds for any
    limit that allows nothing to be stashed; the sequence it leaves still
    passes AssertSequenceGood, needs at most the limit, and still updates the
    image in place: transfers converted to "new" write their data, the others
    their patched source.  Without a limit nothing changes. *)
Theorem revised_sequence_ok {V} (apply : tid -> (Z -> option V) -> Z -> V) tgt src limit s (orig want : Z -> V) :
  NoDup (sq_transfers s) -> ranges_ok (sq_store s) (sq_transfers s) -> styles_ok (sq_store s) (sq_transfers s) ->
  targets_ok tgt (sq_store s) (sq_transfers s) -> exceeds limit 0 = false ->
  wf (care_map tgt) -> nonneg (care_map tgt) -> 0 <= total_blocks tgt ->
  (forall x src, x ∈ sq_transfers s ->
     (forall b, b ∈ src_ranges (sq_store s !!! x) -> src b = Some (orig b)) ->
     forall b, b ∈ tgt_ranges (sq_store s !!! x) -> apply x src b = want b) ->
  exists s1 s2 nb mx, FindSequenceForTransfers s = Ok s1 /\ ReviseStashSize src limit s1 = Ok (s2, nb, mx) /\
    AssertSequenceGood tgt s2 = Ok tt /\ exceeds limit mx = false /\ (limit = None -> s2 = s1 /\ nb = 0) /\
    forall b,
      (written (sq_store s) (sq_transfers s) b ->
       run_transfers (fun x src b => if String.eqb (style (sq_store s2 !!! x)) "new" then want b else apply x src b)
         (sq_store s2) (sq_transfers s2) orig b = want b) /\
      (~ written (sq_store s) (sq_transfers s) b ->
       run_transfers (fun x src b => if String.eqb (style (sq_store s2 !!! x)) "new" then want b else apply x src b)
         (sq_store s2) (sq_transfers s2) orig b = orig b).
Proof.
  intros Hnd Hr Hsty Ht Hlim Hc Hnc Htot Happly.
  destruct (find_then_revise (fun _ => 0) tgt src limit s) as (s1 & s2 & nb & mx & Hf & Hrev & Hts & Hp & Hs & Hseq & Hr2 & [T1 T2 T3] & Hk & Htg & Hmx & _ & Hnone & _); try done.
  exists s1, s2, nb, mx. destruct s1 as [st1 ts1], s2 as [st2 ts2]. simpl in *. subst ts2.
  assert (NoDup ts1) as Hnd1 by by rewrite Hp.
  split_and!; try done.
  - destruct (sequenced_good tgt st2 ts1) as [Hst Hg]; try done. by apply AssertSequenceGood_iff.
  - intros H. by destruct (Hnone H) as [-> ->].
  - assert (forall b, written (sq_store s) (sq_transfers s) b <-> written st2 ts1 b) as Hw.
    { intros b. unfold written. split; intros (y & Hy & Hb); exists y; revert Hy Hb;
        rewrite Hp, (Htg y), (proj1 (same_statics_ranges _ _ y Hs)); done. }
    intros b. rewrite Hw. apply run_transfers_ok; try done.
    intros x sr Hx Hsr c Hcx. destruct (String.eqb_spec (style (st2 !!! x)) "new") as [|Hne]; [done|].
    destruct (Hk x) as [[_ E]|(? & _)]; [|done]. rewrite E, (proj2 (same_statics_ranges _ _ x Hs)) in Hsr.
    apply Happly; [by rewrite <- Hp|done|]. by rewrite (Htg x), (proj1 (same_statics_ranges _ _ x Hs)) in Hcx.
Qed.

(** The example of BlockProps with room for four blocks: one of the transfers
    that exchange ten blocks is converted. *)
Definition ex_source : Image :=
  mkImage 4096 30 (ex_range 0 25) empty empty [] (fun r => str_join "," (map py_str (rs_data r))) (fun _ => "").

Lemma ex_styles_ok : styles_ok ex_store (sq_transfers ex_seq).
Proof. intros i [->|[->| ->]]%ex_members; by split. Qed.

Lemma revised_sequence_ok_witness : exists s1 s2 nb mx,
  FindSequenceForTransfers ex_seq = Ok s1 /\ ReviseStashSize ex_source (Some (float_lit 4 0)) s1 = Ok (s2, nb, mx) /\
  AssertSequenceGood ex_image s2 = Ok tt /\ exceeds (Some (float_lit 4 0)) mx = false.
Proof.
  destruct (ex_range_ok 0 25) as [Hw Hn]; [lia..|].
  destruct (revised_sequence_ok ex_apply ex_image ex_source (Some (float_lit 4 0)) ex_seq ex_orig ex_want
              ex_NoDup ex_ranges_ok ex_styles_ok ex_targets_ok) as (s1 & s2 & nb & mx & H1 & H2 & H3 & H4 & _).
  - vm_compute. reflexivity.
  - exact Hw.
  - exact Hn.
  - simpl. lia.
  - intros x src Hx Hsrc b Hb. unfold ex_apply. rewrite (Hsrc (ex_want b)); [done|]. clear Hsrc.
    apply ex_members in Hx as [->|[->| ->]]; apply elem_of_range_set in Hb; try lia;
      apply elem_of_range_set; try lia; unfold ex_want; zcases.
  - exists s1, s2, nb, mx. split_and!; assumption.
Defined.
