(* ===== verification/TransferList.v ===== *)
(** releasetools/blockimgdiff.py, [WriteTransfers]: the commands of the
    transfer list, with the stash slots (named by hash, with reference counts),
    the blocks written, and the blocks erased.  The file itself is the list
    of strings that is written to it. *)

From S2P Require Export StashSize.

#[local] Open Scope string_scope.
#[local] Open Scope list_scope.
#[local] Open Scope Z_scope.

(** A newline at the end of a command. *)
Definition nl : string := String "010" "".
Definition words (l : list string) : string := str_join " " l +:+ nl.

(** [WriteSplitTransfers]: "new" and "zero" commands of at most 1024 blocks.
    Every round removes a block, so the size is enough fuel. *)
Fixpoint split_loop (fuel : nat) (style : string) (target_blocks : RangeSet) (total : Z) (out : list string)
  : result (Z * list string) :=
  if rs_bool target_blocks then
    match fuel with
    | O => Raise OutOfFuel
    | S fuel' =>
        let! blocks := first target_blocks 1024 in
        let! raw := to_string_raw blocks in
        let! rest := subtract target_blocks blocks in
        split_loop fuel' style rest (total + size blocks) (out ++ [words [style; raw]])
    end
  else Ok (total, out).

Definition WriteSplitTransfers (style : string) (target_blocks : RangeSet) (out : list string)
  : result (Z * list string) :=
  assert! String.eqb style "new" || String.eqb style "zero" in
  split_loop (Z.to_nat (size target_blocks)) style target_blocks 0 out.

(** The variables of the loop over the transfers. *)
Record WState := mkW {
  w_out : list string;
  w_total : Z;
  w_stashes : list (string * Z);
  w_stashed : Z;
  w_max : Z;
  w_touched : RangeSet
}.

Section write.
Context (src : Image).

(** One stash of [stash_before]. *)
Definition write_stash (w : WState) (s : Z * RangeSet) : result WState :=
  let sr := s.2 in
  let sh := RangeSha1 src sr in
  match od_get sh (w_stashes w) with
  | Some c => Ok (mkW (w_out w) (w_total w) (od_set sh (c + 1) (w_stashes w)) (w_stashed w) (w_max w) (w_touched w))
  | None =>
      let! touched := union (w_touched w) sr in
      let! raw := to_string_raw sr in
      Ok (mkW (w_out w ++ [words ["stash"; sh; raw]]) (w_total w) (od_set sh 1 (w_stashes w))
            (w_stashed w + size sr) (w_max w) touched)
  end.

(** The uses of a transfer: the unstashed source, the stashes mapped into the
    source, the words of the command, the commands that free slots and the
    blocks they free. *)
Record Uses := mkUses {
  u_unstashed : RangeSet;
  u_mapped : list RangeSet;
  u_words : list string;
  u_free : list string;
  u_free_size : Z;
  u_stashes : list (string * Z)
}.

Definition write_use (src_ranges : RangeSet) (u : Uses) (s : Z * RangeSet) : result Uses :=
  let! unstashed := subtract (u_unstashed u) s.2 in
  let sh := RangeSha1 src s.2 in
  let! sr := map_within src_ranges s.2 in
  let! c := of_option AssertionError (od_get sh (u_stashes u)) in
  let! raw := to_string_raw sr in
  let ws := u_words u ++ [sh +:+ ":" +:+ raw] in
  if c - 1 =? 0 then
    Ok (mkUses unstashed (u_mapped u ++ [sr]) ws (u_free u ++ [words ["free"; sh]]) (u_free_size u + size sr)
          (od_remove sh (u_stashes u)))
  else
    Ok (mkUses unstashed (u_mapped u ++ [sr]) ws (u_free u) (u_free_size u) (od_set sh (c - 1) (u_stashes u))).

(** [src_str] once all the stashes are known. *)
Definition source_words (x : Transfer) (u : Uses) : result (list string) :=
  let n := size (src_ranges x) in
  let! all := of_data [0; n] in
  if rs_bool (u_unstashed u) then
    let! raw := to_string_raw (u_unstashed u) in
    match use_stash x with
    | [] => Ok (py_str n :: raw :: u_words u)
    | _ =>
        let! mapped := map_within (src_ranges x) (u_unstashed u) in
        let! raw2 := to_string_raw mapped in
        let! _ := AssertPartition all (u_mapped u ++ [mapped]) in
        Ok (py_str n :: raw :: raw2 :: u_words u)
    end
  else
    let! _ := AssertPartition all (u_mapped u) in
    Ok (py_str n :: "-" :: u_words u).

(** The larger of the maximum so far and the use of an automatic stash. *)
Definition overlap_max (x : Transfer) (stashed mx : Z) : Z :=
  if overlaps (src_ranges x) (tgt_ranges x) then Z.max mx (stashed + size (src_ranges x)) else mx.

(** The command of a transfer, by style. *)
Definition write_command (x : Transfer) (src_str : list string) (w : WState) : result WState :=
  let tgt_size := size (tgt_ranges x) in
  if String.eqb (style x) "new" then
    assert! rs_bool (tgt_ranges x) in
    let! (n, out) := WriteSplitTransfers (style x) (tgt_ranges x) (w_out w) in
    assert! tgt_size =? n in
    Ok (mkW out (w_total w + tgt_size) (w_stashes w) (w_stashed w) (w_max w) (w_touched w))
  else if String.eqb (style x) "move" then
    assert! rs_bool (tgt_ranges x) in
    assert! size (src_ranges x) =? tgt_size in
    if rs_eqb (src_ranges x) (tgt_ranges x) then Ok w
    else
      let! touched := union (w_touched w) (src_ranges x) in
      let! raw := to_string_raw (tgt_ranges x) in
      Ok (mkW (w_out w ++ [words ([style x; tgt_sha1 x; raw] ++ src_str)]) (w_total w + tgt_size) (w_stashes w)
            (w_stashed w) (overlap_max x (w_stashed w) (w_max w)) touched)
  else if String.eqb (style x) "bsdiff" || String.eqb (style x) "imgdiff" then
    assert! rs_bool (tgt_ranges x) in
    assert! rs_bool (src_ranges x) in
    let! touched := union (w_touched w) (src_ranges x) in
    let! raw := to_string_raw (tgt_ranges x) in
    Ok (mkW (w_out w ++ [words ([style x; py_str (patch_start x); py_str (patch_len x); src_sha1 x; tgt_sha1 x; raw]
                                ++ src_str)])
          (w_total w + tgt_size) (w_stashes w) (w_stashed w) (overlap_max x (w_stashed w) (w_max w)) touched)
  else if String.eqb (style x) "zero" then
    assert! rs_bool (tgt_ranges x) in
    let! to_zero := subtract (tgt_ranges x) (src_ranges x) in
    let! (n, out) := WriteSplitTransfers (style x) to_zero (w_out w) in
    assert! n =? size to_zero in
    Ok (mkW out (w_total w + size to_zero) (w_stashes w) (w_stashed w) (w_max w) (w_touched w))
  else Raise ValueError.

(** [max_stashed_blocks * blocksize <= max_allowed], when there is a cache. *)
Definition check_limit (max_allowed : option py_float) (block : Z) (w : WState) : result unit :=
  match max_allowed with
  | None => Ok tt
  | Some f => assert! Z_leb_float (w_max w * block) f in Ok tt
  end.

Definition write_transfer (max_allowed : option py_float) (block : Z) (x : Transfer) (w : WState) : result WState :=
  let! w := foldM write_stash w (stash_before x) in
  let mx := if w_max w <? w_stashed w then w_stashed w else w_max w in
  let! u := foldM (write_use (src_ranges x)) (mkUses (src_ranges x) [] [] [] 0 (w_stashes w)) (use_stash x) in
  let! src_str := source_words x u in
  let! w := write_command x src_str (mkW (w_out w) (w_total w) (u_stashes u) (w_stashed w) mx (w_touched w)) in
  let w := match u_free u with
           | [] => w
           | free => mkW (w_out w ++ [str_join "" free]) (w_total w) (w_stashes w) (w_stashed w - u_free_size u)
                       (w_max w) (w_touched w)
           end in
  let! _ := check_limit max_allowed block w in
  Ok w.
End write.

(** What [WriteTransfers] leaves behind. *)
Record TransferFile := mkTransferFile {
  tf_lines : list string;
  tf_max_stashed_size : Z;
  tf_touched : RangeSet;
  tf_touched_sha1 : string
}.

(** [cache_size * stash_threshold]. *)
Definition cache_limit (cache_size : option Z) (stash_threshold : py_float) : result (option py_float) :=
  match cache_size with
  | None => Ok None
  | Some c => let! f := float_of_Z c in Ok (Some (float_mul f stash_threshold))
  end.

(** An "erase" command, unless the set is empty. *)
Definition erase_line (r : RangeSet) : result (list string) :=
  if rs_bool r then let! raw := to_string_raw r in Ok [words ["erase"; raw]] else Ok [].

(** The percentage of the limit in the message at the end. *)
Definition log_limit (max_allowed : option py_float) (max_stashed_size : Z) : result unit :=
  match max_allowed with
  | None => Ok tt
  | Some f => let! _ := float_div (float_mul (float_of_count max_stashed_size) (float_lit 25 2)) f in Ok tt
  end.

(** What follows the loop over the transfers. *)
Definition finish_list (max_allowed : option py_float) (version : Z) (tgt src : Image) (w : WState)
  : result TransferFile :=
  let! (total, out) :=
    if rs_bool (extended tgt) then
      let! (n, out) := WriteSplitTransfers "zero" (extended tgt) (w_out w) in
      assert! n =? size (extended tgt) in
      Ok (w_total w + size (extended tgt), out)
    else Ok (w_total w, w_out w) in
  let! all_tgt := of_data [0; total_blocks tgt] in
  let! all_tgt_minus_extended := subtract all_tgt (extended tgt) in
  let! new_dontcare := subtract all_tgt_minus_extended (care_map tgt) in
  let! erase_first := subtract new_dontcare (w_touched w) in
  let! first_line := erase_line erase_first in
  let! erase_last := subtract new_dontcare erase_first in
  let! last_line := erase_line erase_last in
  let! _ := log_limit max_allowed (w_max w * blocksize tgt) in
  Ok (mkTransferFile
        ([py_str version +:+ nl; py_str total +:+ nl; "0" +:+ nl; py_str (w_max w) +:+ nl]
         ++ first_line ++ out ++ last_line)
        (w_max w * blocksize tgt) (w_touched w) (RangeSha1 src (w_touched w))).

Definition WriteTransfers (cache_size : option Z) (stash_threshold : py_float) (version : Z)
    (tgt src : Image) (s : SeqState) : result TransferFile :=
  let! max_allowed := cache_limit cache_size stash_threshold in
  let! w := foldM (fun w i => write_transfer src max_allowed (blocksize tgt) (sq_store s !!! i) w)
              (mkW [] 0 [] 0 0 empty) (sq_transfers s) in
  finish_list max_allowed version tgt src w.
