(* ===== verification/TransferProps.v ===== *)
(** The transfer list that is written for a revised sequence: the commands of
    [WriteTransfers] are well-formed, the stash slots it counts are those of the
    transfers to come, and none of its assertions fails. *)

From S2P Require Export DiffPlanFacts StashProps TransferList.

#[local] Open Scope string_scope.
#[local] Open Scope list_scope.
#[local] Open Scope Z_scope.

(** * The index of a block in a range set *)

Section rank.
Context (a : RangeSet) (Ha : wf a).
Let rk (x : Z) : Z := rank (rs_data a) x.

Lemma rank_lt x y : x ∈ a -> x < y -> rk x < rk y.
Proof.
  intros Hx Hxy. unfold rk. pose proof (rank_step (rs_data a) x Ha Hx). pose proof (rank_mono (rs_data a) (x + 1) y Ha). lia.
Qed.

Lemma rank_inj x y : x ∈ a -> y ∈ a -> rk x = rk y -> x = y.
Proof.
  intros Hx Hy E. destruct (Z.lt_trichotomy x y) as [H|[H|H]]; [|done|]; apply rank_lt in H; try done; lia.
Qed.

Lemma rank_range x : x ∈ a -> 0 <= rk x < size a.
Proof.
  intros Hx. unfold rk. rewrite rank_count, size_items by done. split; [lia|]. apply inj_lt.
  change (next_item a) with (items (rs_data a)). apply elem_of_items in Hx; [|done].
  apply list_elem_of_split in Hx as (p & q & ->). rewrite List.filter_app, !length_app. simpl.
  rewrite Z.ltb_irrefl. pose proof (List.filter_length_le (fun y => y <? x) p). pose proof (List.filter_length_le (fun y => y <? x) q). lia.
Qed.

Lemma NoDup_ranks l : NoDup l -> (forall x, x ∈ l -> x ∈ a) -> NoDup (map rk l).
Proof.
  induction 1 as [|x l Hx Hl IH]; intros Hin; simpl; [constructor|]. constructor.
  - intros (y & E & Hy)%list_elem_of_fmap. apply rank_inj in E; [subst; done|apply Hin; by left|apply Hin; by right].
  - apply IH. intros y Hy. apply Hin. by right.
Qed.

Lemma ranks_perm : map rk (next_item a) ≡ₚ zrange 0 (size a).
Proof.
  apply submseteq_length_Permutation.
  - apply NoDup_submseteq; [apply NoDup_ranks; [by apply NoDup_next_item|intros x; by apply elem_of_next_item]|].
    intros i (x & -> & Hx)%list_elem_of_fmap. apply elem_of_zrange, rank_range. by apply elem_of_next_item in Hx.
  - rewrite length_map. apply Nat2Z.inj_le. rewrite length_zrange, <- size_items by done. pose proof (size_nonneg a Ha). lia.
Qed.

Lemma rank_onto i : 0 <= i < size a <-> exists x, x ∈ a /\ rk x = i.
Proof.
  rewrite <- elem_of_zrange, <- ranks_perm. split.
  - intros (x & -> & Hx)%list_elem_of_fmap. exists x. split; [by apply elem_of_next_item|done].
  - intros (x & Hx & <-). apply (list_elem_of_fmap_2 rk). by apply elem_of_next_item.
Qed.

(** The image of a subset under [map_within]. *)
Lemma map_within_size b : wf b -> (forall x, x ∈ b -> x ∈ a) ->
  exists r, map_within a b = Ok r /\ wf r /\ size r = size b /\ forall y, y ∈ r <-> exists x, x ∈ b /\ rk x = y.
Proof.
  intros Hb Hsub. destruct (map_within_ok a b Ha Hb Hsub) as (r & Hr & Hw & Hy). exists r. split_and!; try done.
  rewrite !size_items by done. rewrite <- (length_map rk (next_item b)). f_equal. apply Permutation_length.
  apply NoDup_Permutation; [by apply NoDup_next_item| |].
  - apply NoDup_ranks; [by apply NoDup_next_item|]. intros x Hx. apply Hsub. by apply elem_of_next_item in Hx.
  - intros y. rewrite elem_of_next_item, Hy by done. split.
    + intros (x & Hx & <-). apply (list_elem_of_fmap_2 rk). by apply elem_of_next_item.
    + intros (x & -> & Hx)%list_elem_of_fmap. exists x. split; [by apply elem_of_next_item|done].
Qed.
End rank.

(** [RangeSet(data=(0, n))]. *)
Lemma of_data_upto n : 0 <= n -> exists r, of_data [0; n] = Ok r /\ wf r /\ forall x, x ∈ r <-> 0 <= x < n.
Proof.
  intros Hn. destruct (of_data_spec [0; n]) as (r & Hr & Hw & Hx); [repeat constructor; lia|done|].
  exists r. split_and!; try done. intros x. rewrite Hx. simpl. zcases.
Qed.

Lemma to_string_raw_ok r x : wf r -> x ∈ r -> exists t, to_string_raw r = Ok t.
Proof. intros Hw Hx. unfold to_string_raw. rewrite (proj2 (rs_bool_spec r Hw)) by eauto. eauto. Qed.

(** * Split commands *)

Lemma split_loop_ok sty fuel : forall r total out, wf r -> (Z.to_nat (size r) <= fuel)%nat ->
  exists out', split_loop fuel sty r total out = Ok (total + size r, out').
Proof.
  induction fuel as [|fuel IH]; intros r total out Hw Hf; pose proof (size_nonneg r Hw); cbn [split_loop].
  - destruct (rs_bool r) eqn:E.
    + apply rs_bool_spec, size_pos in E; [lia|done..].
    + exists out. do 2 f_equal. destruct (Z.le_gt_cases (size r) 0); [lia|].
      assert (rs_bool r = true) as E'; [|congruence]. apply rs_bool_spec; [done|]. by apply size_pos.
  - destruct (rs_bool r) eqn:E.
    + apply rs_bool_spec, size_pos in E; [|done..].
      destruct (first_rest r 1024 Hw) as (q & d & -> & Hsub & Hwq & Hwd & Hiq & Hid); [lia|].
      pose proof (size_take r q _ Hw Hwq Hiq) as Hsq. pose proof (size_drop r d _ Hw Hwd Hid) as Hsd.
      destruct (proj1 (size_pos q Hwq)) as [x Hx]; [lia|]. destruct (to_string_raw_ok q x Hwq Hx) as [t ->].
      rewrite Hsub. destruct (IH d (total + size q) (out ++ [words [sty; t]]) Hwd) as [out' ->]; [lia|].
      exists out'. do 2 f_equal. lia.
    + exists out. do 2 f_equal. destruct (Z.le_gt_cases (size r) 0); [lia|].
      assert (rs_bool r = true) as E'; [|congruence]. apply rs_bool_spec; [done|]. by apply size_pos.
Qed.

Lemma WriteSplitTransfers_ok sty r out : wf r -> sty = "new" \/ sty = "zero" ->
  exists out', WriteSplitTransfers sty r out = Ok (size r, out').
Proof.
  intros Hw Hs. unfold WriteSplitTransfers.
  assert (String.eqb sty "new" || String.eqb sty "zero" = true) as -> by (by destruct Hs as [->| ->]).
  apply split_loop_ok; [done|lia].
Qed.

(** * The stash slots *)

Section slots.
Context (hsize : string -> Z) (src : Image) (Hss : slot_sizes src hsize).

(** The reference counts are exactly the uses to come of the stashes [D]. *)
Definition counts (D : list Z) (l : list (Z * RangeSet)) (m : list (string * Z)) : Prop :=
  (forall sh, default 0 (od_get sh m) = pend src D sh l) /\
  (forall sh c, od_get sh m = Some c -> 0 < c) /\ NoDup (od_keys m).

Lemma pend_ext D D' sh l : (forall k r, (k, r) ∈ l -> k ∈ D' <-> k ∈ D) -> pend src D' sh l = pend src D sh l.
Proof. intros H. apply Z.le_antisymm; apply pend_weaken; intros k r Hk; by apply (H k r). Qed.

Lemma pend_define_eq D sh k r l : NoDup (map fst l) -> (k, r) ∈ l -> k ∉ D ->
  pend src (D ++ [k]) sh l = pend src D sh l + (if decide (sh = RangeSha1 src r) then 1 else 0).
Proof.
  induction l as [|[k' r'] l IH]; simpl; [by intros _ ?%elem_of_nil|].
  intros [Hk Hn]%NoDup_cons Hin HD. rewrite !pend_cons. simpl. apply elem_of_cons in Hin as [[= <- <-]|Hin].
  - rewrite (pend_ext D (D ++ [k])).
    + assert (k ∈ D ++ [k]) as Hkk by (apply elem_of_app; right; by left). repeat case_decide; try lia; naive_solver.
    + intros k2 r2 H2. rewrite elem_of_app, list_elem_of_singleton. split; [|by left]. intros [?| ->]; [done|].
      exfalso. apply Hk, in_keys. eauto.
  - rewrite (IH Hn Hin HD). assert (k' <> k) as Hne by (intros ->; apply Hk, in_keys; eauto).
    assert (k' ∈ D ++ [k] <-> k' ∈ D) as Hiff by (rewrite elem_of_app, list_elem_of_singleton; naive_solver).
    repeat case_decide; try lia; naive_solver.
Qed.

Lemma pend_hit D k r l : k ∈ D -> (k, r) ∈ l -> 0 < pend src D (RangeSha1 src r) l.
Proof.
  intros HD. induction l as [|s l IH]; [by intros ?%elem_of_nil|]. rewrite pend_cons.
  pose proof (pend_nonneg src D (RangeSha1 src r) l). intros [<- |Hin]%elem_of_cons.
  - rewrite decide_True by done. lia.
  - specialize (IH Hin). case_decide; lia.
Qed.

Lemma counts_keys D l m : counts D l m -> NoDup (od_keys m) /\ forall sh, sh ∈ od_keys m -> 0 < pend src D sh l.
Proof.
  intros (H1 & H2 & H3). split; [done|]. intros sh [c Hc]%od_get_is_Some. rewrite <- H1, Hc. simpl. by eapply H2.
Qed.

Lemma write_stash_ok D l w k sr : counts D l (w_stashes w) -> NoDup (map fst l) -> (k, sr) ∈ l -> k ∉ D ->
  wf sr -> (exists b, b ∈ sr) -> w_stashed w = total_size hsize (od_keys (w_stashes w)) -> wf (w_touched w) ->
  exists w', write_stash src w (k, sr) = Ok w' /\ counts (D ++ [k]) l (w_stashes w') /\
    w_stashed w' = total_size hsize (od_keys (w_stashes w')) /\ w_max w' = w_max w /\ w_total w' = w_total w /\
    wf (w_touched w') /\ forall b, b ∈ w_touched w' -> b ∈ w_touched w \/ b ∈ sr.
Proof.
  intros (C1 & C2 & C3) Hn Hk HD Hsr [b0 Hb0] Hst Ht. unfold write_stash. simpl.
  assert (forall c, default 0 (od_get (RangeSha1 src sr) (w_stashes w)) = c ->
            counts (D ++ [k]) l (od_set (RangeSha1 src sr) (c + 1) (w_stashes w))) as Hc.
  { intros c E. split_and!; [| |by apply od_keys_set_NoDup].
    - intros sh. rewrite (pend_define_eq D sh k sr l Hn Hk HD), <- C1, od_get_set. case_decide as Hsh; [subst; simpl; lia|lia].
    - intros sh c'. rewrite od_get_set. case_decide; [|apply C2]. intros [= <-].
      destruct (od_get (RangeSha1 src sr) (w_stashes w)) as [c'|] eqn:E'; simpl in E; [apply C2 in E'|]; lia. }
  destruct (od_get _ (w_stashes w)) as [c|] eqn:E.
  - eexists. split; [done|]. simpl. split_and!; try done; [by apply Hc| |by left].
    rewrite (total_size_perm _ _ _ (od_keys_set_perm _ _ _)). unfold od_mem.
    rewrite bool_decide_eq_true_2; [done|by eapply od_get_Some_key].
  - destruct (union_ok (w_touched w) sr Ht Hsr) as (t & -> & Hwt & Hxt). destruct (to_string_raw_ok sr b0 Hsr Hb0) as [s ->].
    eexists. split; [done|]. simpl. split_and!; try done.
    + by apply (Hc 0).
    + rewrite (total_size_perm _ _ _ (od_keys_set_perm _ _ _)). unfold od_mem.
      rewrite bool_decide_eq_false_2 by by apply od_get_None. unfold total_size in *. simpl.
      rewrite (proj2 Hss) by done. lia.
    + intros b. apply Hxt.
Qed.

Lemma write_stashes_ok l b : forall D w,
  counts D l (w_stashes w) -> NoDup (map fst l) -> NoDup (D ++ map fst b) ->
  (forall k r, (k, r) ∈ b -> (k, r) ∈ l /\ wf r /\ exists x, x ∈ r) ->
  w_stashed w = total_size hsize (od_keys (w_stashes w)) -> wf (w_touched w) ->
  exists w', foldM (write_stash src) w b = Ok w' /\ counts (D ++ map fst b) l (w_stashes w') /\
    w_stashed w' = total_size hsize (od_keys (w_stashes w')) /\ w_max w' = w_max w /\ w_total w' = w_total w /\
    wf (w_touched w') /\ forall x, x ∈ w_touched w' -> x ∈ w_touched w \/ exists k r, (k, r) ∈ b /\ x ∈ r.
Proof.
  induction b as [|[k r] b IH]; intros D w Hc Hn Hnd Hb Hst Ht.
  - exists w. rewrite app_nil_r. split_and!; try done. by left.
  - destruct (Hb k r) as (Hin & Hw & Hx); [by left|]. cbn [foldM].
    assert (k ∉ D) as HkD.
    { apply NoDup_app in Hnd as (_ & Hd & _). intros HD. apply (Hd k HD). by left. }
    destruct (write_stash_ok D l w k r Hc Hn Hin HkD Hw Hx Hst Ht) as (w1 & -> & Hc1 & Hst1 & Hm1 & Ht1 & Htw1 & Htx1).
    destruct (IH (D ++ [k]) w1) as (w2 & -> & Hc2 & Hst2 & Hm2 & Ht2 & Htw2 & Htx2); try done.
    { by rewrite <- app_assoc. }
    { intros k' r' H'. apply Hb. by right. }
    exists w2. rewrite <- app_assoc in Hc2. split_and!; try done; [congruence..|].
    intros x Hx2. destruct (Htx2 x Hx2) as [H1|(k' & r' & H1 & H2)].
    + destruct (Htx1 x H1) as [|]; [by left|right]. exists k, r. split; [by left|done].
    + right. exists k', r'. split; [by right|done].
Qed.

(** ** Uses *)

Record uinv (sr : RangeSet) (D : list Z) (w0 : Z) (p q rest : list (Z * RangeSet)) (u : Uses) : Prop := {
  un_counts : counts D (q ++ rest) (u_stashes u);
  un_size : total_size hsize (od_keys (u_stashes u)) + u_free_size u = w0;
  un_wf : wf (u_unstashed u);
  un_rest : forall b, b ∈ u_unstashed u <-> b ∈ sr /\ forall k r, (k, r) ∈ p -> b ∉ r;
  un_mapped : Forall2 (fun (s : Z * RangeSet) i => wf i /\ forall y, y ∈ i <-> exists b, b ∈ s.2 /\ rank (rs_data sr) b = y)
                p (u_mapped u);
  un_free : u_free u = [] -> u_free_size u = 0
}.

Lemma write_use_ok sr D w0 p k r q rest u : wf sr -> wf r -> (exists b, b ∈ r) -> (forall b, b ∈ r -> b ∈ sr) -> k ∈ D ->
  uinv sr D w0 p ((k, r) :: q) rest u ->
  exists u', write_use src sr u (k, r) = Ok u' /\ uinv sr D w0 (p ++ [(k, r)]) q rest u'.
Proof.
  intros Hsr Hr [b0 Hb0] Hsub HD [(C1 & C2 & C3) U2 U3 U4 U5 U6]. unfold write_use. simpl.
  destruct (subtract_ok (u_unstashed u) r U3 Hr) as (un & -> & Hwu & Hxu).
  destruct (map_within_size sr Hsr r Hr Hsub) as (i & -> & Hwi & Hsi & Hxi).
  pose proof (C1 (RangeSha1 src r)) as H1. simpl in H1. rewrite pend_cons in H1. simpl in H1.
  rewrite decide_True in H1 by done. pose proof (pend_nonneg src D (RangeSha1 src r) (q ++ rest)).
  destruct (od_get (RangeSha1 src r) (u_stashes u)) as [c|] eqn:Ec; simpl in H1; [|lia]. simpl of_option. cbn iota.
  destruct (to_string_raw_ok i (rank (rs_data sr) b0) Hwi) as [t ->]; [apply Hxi; eauto|].
  assert (forall sh, sh <> RangeSha1 src r -> default 0 (od_get sh (u_stashes u)) = pend src D sh (q ++ rest)) as Hother.
  { intros sh Hne. rewrite C1. simpl. rewrite pend_cons. case_decide; [naive_solver|lia]. }
  assert (forall b, b ∈ un <-> b ∈ sr /\ forall k' r', (k', r') ∈ p ++ [(k, r)] -> b ∉ r') as Hun.
  { intros b. rewrite Hxu, U4. split.
    - intros [[H2 H3] H4]. split; [done|]. intros k' r' [Hin|[= -> ->]%list_elem_of_singleton]%elem_of_app; [by eapply H3|done].
    - intros [H2 H3]. split; [split; [done|]|].
      + intros k' r' Hin. apply (H3 k'). apply elem_of_app. by left.
      + apply (H3 k). apply elem_of_app. right. by left. }
  assert (Forall2 (fun (s : Z * RangeSet) i => wf i /\ forall y, y ∈ i <-> exists b, b ∈ s.2 /\ rank (rs_data sr) b = y)
            (p ++ [(k, r)]) (u_mapped u ++ [i])) as Hmap.
  { apply Forall2_app; [done|]. constructor; [by split|constructor]. }
  pose proof (od_get_Some_key _ _ _ Ec) as Hkey.
  destruct (Z.eqb_spec (c - 1) 0) as [Hz|Hz]; eexists; (split; [done|]); split; simpl; try done.
  - split_and!; [| |by apply od_keys_remove].
    + intros sh. rewrite od_get_remove by done. case_decide; [subst; simpl; lia|by apply Hother].
    + intros sh c'. rewrite od_get_remove by done. case_decide; [done|apply C2].
  - rewrite (total_size_perm _ _ _ (od_keys_remove_perm _ _ Hkey)) in U2. unfold total_size in *. simpl in U2.
    rewrite (proj2 Hss) in U2 by done. lia.
  - by destruct (u_free u).
  - split_and!; [| |by apply od_keys_set_NoDup].
    + intros sh. rewrite od_get_set. case_decide; [subst; simpl; lia|by apply Hother].
    + intros sh c'. rewrite od_get_set. case_decide; [|apply C2]. intros [= <-]. apply C2 in Ec. lia.
  - rewrite (total_size_perm _ _ _ (od_keys_set_perm _ _ _)). unfold od_mem. by rewrite bool_decide_eq_true_2.
Qed.

Lemma write_uses_ok sr D w0 rest : wf sr -> forall q p u,
  (forall k r, (k, r) ∈ q -> wf r /\ (exists b, b ∈ r) /\ (forall b, b ∈ r -> b ∈ sr) /\ k ∈ D) ->
  uinv sr D w0 p q rest u ->
  exists u', foldM (write_use src sr) u q = Ok u' /\ uinv sr D w0 (p ++ q) [] rest u'.
Proof.
  intros Hsr. induction q as [|[k r] q IH]; intros p u Hq Hu; cbn [foldM].
  - exists u. by rewrite app_nil_r.
  - destruct (Hq k r) as (H1 & H2 & H3 & H4); [by left|].
    destruct (write_use_ok sr D w0 p k r q rest u Hsr H1 H2 H3 H4 Hu) as (u' & -> & Hu').
    destruct (IH (p ++ [(k, r)]) u') as (u2 & -> & Hu2); [intros k' r' H'; apply Hq; by right|done|].
    exists u2. by rewrite <- app_assoc in Hu2.
Qed.
End slots.

(** * The source of a command *)

Definition image_of (a b i : RangeSet) : Prop :=
  wf i /\ forall y, y ∈ i <-> exists x, x ∈ b /\ rank (rs_data a) x = y.

(** The images of a partition of the source are a partition of its indices. *)
Lemma images_partition a rs il all : wf a -> wf all -> (forall y, y ∈ all <-> 0 <= y < size a) ->
  Forall2 (image_of a) rs il -> (forall b, b ∈ a <-> exists r, r ∈ rs /\ b ∈ r) ->
  (forall b n m r r', rs !! n = Some r -> rs !! m = Some r' -> b ∈ r -> b ∈ r' -> n = m) ->
  AssertPartition all il = Ok tt.
Proof.
  intros Ha Hall Hax Him Hcov Hdis.
  assert (forall n i, il !! n = Some i -> exists r, rs !! n = Some r /\ image_of a r i) as Hl.
  { intros n i Hi. by destruct (Forall2_lookup_r _ _ _ _ _ Him Hi) as (r & Hr & ?); exists r. }
  apply AssertPartition_iff; [done| |split].
  - apply list.Forall_forall. intros i Hi. apply list_elem_of_lookup in Hi as [n Hn]. by destruct (Hl n i Hn) as (r & _ & [? _]).
  - intros y. rewrite Hax, (rank_onto a Ha y). split.
    + intros (x & Hx & Hy). apply Hcov in Hx as (r & Hr & Hx). apply list_elem_of_lookup in Hr as [n Hn].
      destruct (Forall2_lookup_l _ _ _ _ _ Him Hn) as (i & Hi & [_ Hii]). exists i.
      split; [by eapply list_elem_of_lookup_2|]. apply Hii. eauto.
    + intros (i & Hi & Hy). apply list_elem_of_lookup in Hi as [n Hn]. destruct (Hl n i Hn) as (r & Hr & [_ Hii]).
      destruct (proj1 (Hii y) Hy) as (x & Hx & E). exists x. split; [|done]. apply Hcov. exists r. split; [by eapply list_elem_of_lookup_2|done].
  - intros y n m i j Hn Hm Hi Hj. destruct (Hl n i Hn) as (r & Hr & [_ Hii]). destruct (Hl m j Hm) as (r' & Hr' & [_ Hjj]).
    destruct (proj1 (Hii y) Hi) as (x & Hx & E). destruct (proj1 (Hjj y) Hj) as (x' & Hx' & E').
    assert (x = x') as <-.
    { apply (rank_inj a Ha); [apply Hcov; exists r|apply Hcov; exists r'|congruence];
        (split; [by eapply list_elem_of_lookup_2|done]). }
    by apply (Hdis x n m r r').
Qed.

Lemma used_dec b (l : list (Z * RangeSet)) : (exists s, s ∈ l /\ b ∈ s.2) \/ ~ exists s, s ∈ l /\ b ∈ s.2.
Proof.
  rewrite <- Exists_exists. destruct (decide (Exists (fun s : Z * RangeSet => b ∈ s.2) l)); [by left|by right].
Qed.

Lemma source_words_ok hsize src x D w0 rest u : wf (src_ranges x) ->
  uinv hsize src (src_ranges x) D w0 (use_stash x) [] rest u ->
  (forall k r, (k, r) ∈ use_stash x -> forall b, b ∈ r -> b ∈ src_ranges x) ->
  (forall b n m s s', use_stash x !! n = Some s -> use_stash x !! m = Some s' -> b ∈ s.2 -> b ∈ s'.2 -> n = m) ->
  exists ws, source_words x u = Ok ws.
Proof.
  intros Hw [_ _ U3 U4 U5 _] Hsub Hdis. unfold source_words.
  destruct (of_data_upto (size (src_ranges x))) as (all & -> & Hwa & Hxa); [by apply size_nonneg|].
  assert (Forall2 (image_of (src_ranges x)) (map snd (use_stash x)) (u_mapped u)) as Him by (by apply Forall2_fmap_l).
  assert (forall n r, map snd (use_stash x) !! n = Some r -> exists s, use_stash x !! n = Some s /\ s.2 = r) as Hl.
  { intros n r. rewrite lookup_map. intros (s & ? & ?)%fmap_Some. by exists s. }
  destruct (rs_bool (u_unstashed u)) eqn:E.
  - apply rs_bool_spec in E as [b0 Hb0]; [|done]. destruct (to_string_raw_ok _ b0 U3 Hb0) as [raw ->].
    destruct (use_stash x) as [|s0 l] eqn:Eu; [eauto|]. rewrite <- Eu in *. clear Eu.
    destruct (map_within_ok (src_ranges x) (u_unstashed u) Hw U3) as (i & -> & Hwi & Hxi).
    { intros b Hb. by apply U4. }
    destruct (to_string_raw_ok i (rank (rs_data (src_ranges x)) b0) Hwi) as [raw2 ->]; [apply Hxi; eauto|].
    rewrite (images_partition (src_ranges x) (map snd (use_stash x) ++ [u_unstashed u])); [eauto|done..| |  |].
    + apply Forall2_app; [done|]. constructor; [by split|constructor].
    + intros b. split.
      * intros Hb. destruct (used_dec b (use_stash x)) as [(s & Hs & Hbs)|Hno].
        -- exists s.2. split; [|done]. apply elem_of_app. left. by apply (list_elem_of_fmap_2 snd).
        -- exists (u_unstashed u). split; [apply elem_of_app; right; by left|]. apply U4. split; [done|].
           intros k r Hk Hbr. apply Hno. by exists (k, r).
      * intros (r & [([k r'] & -> & Hs)%list_elem_of_fmap| ->%list_elem_of_singleton]%elem_of_app & Hb); [by eapply Hsub|].
        by apply U4.
    + assert (forall n r b, map snd (use_stash x) !! n = Some r -> b ∈ r -> b ∈ u_unstashed u -> False) as Hfar.
      { intros n r b Hn Hb Hu. destruct (Hl n r Hn) as ([k r'] & Hs & <-). apply U4 in Hu as [_ Hu].
        apply (Hu k r'); [by eapply list_elem_of_lookup_2|done]. }
      intros b n m r r' Hn Hm Hb Hb'. rewrite lookup_app in Hn, Hm.
      destruct (map snd (use_stash x) !! n) as [r1|] eqn:En, (map snd (use_stash x) !! m) as [r2|] eqn:Em; simplify_eq.
      * destruct (Hl n r En) as (s & Hs & <-). destruct (Hl m r' Em) as (s' & Hs' & <-). by apply (Hdis b n m s s').
      * exfalso. destruct (m - _)%nat; [|done]. injection Hm as <-. by apply (Hfar n r b).
      * exfalso. destruct (n - _)%nat; [|done]. injection Hn as <-. by apply (Hfar m r' b).
      * apply lookup_ge_None in En, Em. destruct (n - _)%nat eqn:E1, (m - _)%nat eqn:E2; try done. lia.
  - rewrite (images_partition (src_ranges x) (map snd (use_stash x))); [eauto|done..| |].
    + intros b. split.
      * intros Hb. destruct (used_dec b (use_stash x)) as [(s & Hs & Hbs)|Hno].
        -- exists s.2. split; [|done]. by apply (list_elem_of_fmap_2 snd).
        -- exfalso. assert (rs_bool (u_unstashed u) = true) as E'; [|congruence]. apply rs_bool_spec; [done|].
           exists b. apply U4. split; [done|]. intros k r Hk Hbr. apply Hno. by exists (k, r).
      * intros (r & ([k r'] & -> & Hs)%list_elem_of_fmap & Hb). by eapply Hsub.
    + intros b n m r r' Hn Hm. destruct (Hl n r Hn) as (s & Hs & <-). destruct (Hl m r' Hm) as (s' & Hs' & <-).
      by apply Hdis.
Qed.

(** * The commands *)

Definition patch_style (s : string) : Prop := s = "move" \/ s = "bsdiff" \/ s = "imgdiff".

(** What [ComputePatches] leaves: every transfer has a target; a "move" has as
    many source as target blocks, a patch has a source, the others are "new" or
    "zero". *)
Definition final_style (x : Transfer) : Prop :=
  (exists b, b ∈ tgt_ranges x) /\
  (style x = "new" \/ style x = "zero" \/ (style x = "move" /\ size (src_ranges x) = size (tgt_ranges x)) \/
   ((style x = "bsdiff" \/ style x = "imgdiff") /\ exists b, b ∈ src_ranges x)).

(** The blocks a command writes. *)
Definition written_size (x : Transfer) : Z :=
  if String.eqb (style x) "move" && rs_eqb (src_ranges x) (tgt_ranges x) then 0
  else if String.eqb (style x) "zero" then
    match subtract (tgt_ranges x) (src_ranges x) with Ok r => size r | Raise _ => 0 end
  else size (tgt_ranges x).

Lemma overlap_max_le x stashed mx0 mx : mx0 <= mx ->
  (overlaps (src_ranges x) (tgt_ranges x) = true -> stashed + size (src_ranges x) <= mx) -> mx0 <= overlap_max x stashed mx0 <= mx.
Proof. unfold overlap_max. intros H1 H2. destruct (overlaps _ _); [specialize (H2 eq_refl)|]; lia. Qed.

Lemma write_command_ok x ws w mx : wf (tgt_ranges x) -> wf (src_ranges x) -> final_style x -> wf (w_touched w) ->
  w_max w <= mx ->
  (patch_style (style x) -> overlaps (src_ranges x) (tgt_ranges x) = true -> w_stashed w + size (src_ranges x) <= mx) ->
  exists w', write_command x ws w = Ok w' /\ w_stashes w' = w_stashes w /\ w_stashed w' = w_stashed w /\
    w_max w <= w_max w' <= mx /\ wf (w_touched w') /\ w_total w' = w_total w + written_size x /\
    (forall b, b ∈ w_touched w' -> b ∈ w_touched w \/ b ∈ src_ranges x).
Proof.
  intros Ht Hs [[b0 Hb0] Hsty] Hw Hmx Hov. unfold write_command, written_size.
  assert (rs_bool (tgt_ranges x) = true) as Hbt by (apply rs_bool_spec; eauto).
  destruct (to_string_raw_ok _ b0 Ht Hb0) as [raw Hraw].
  destruct (union_ok (w_touched w) (src_ranges x) Hw Hs) as (u & Hu & Hwu & Hxu).
  assert (forall b, b ∈ u -> b ∈ w_touched w \/ b ∈ src_ranges x) as Hin by (intros b; apply Hxu).
  destruct Hsty as [E|[E|[[E Hsz]|[E [b1 Hb1]]]]].
  - rewrite E, Hbt. destruct (WriteSplitTransfers_ok "new" (tgt_ranges x) (w_out w) Ht) as [out Ho]; [by left|].
    rewrite Ho. simpl. rewrite Z.eqb_refl. eexists. split; [done|]. simpl. split_and!; try done. by left.
  - rewrite E, Hbt. destruct (subtract_ok (tgt_ranges x) (src_ranges x) Ht Hs) as (z & Hz & Hwz & _). rewrite Hz.
    destruct (WriteSplitTransfers_ok "zero" z (w_out w) Hwz) as [out Ho]; [by right|]. rewrite Ho.
    simpl. rewrite Z.eqb_refl. eexists. split; [done|]. simpl. split_and!; try done. by left.
  - rewrite E, Hbt, Hsz, Z.eqb_refl. simpl. destruct (rs_eqb (src_ranges x) (tgt_ranges x)).
    + exists w. split_and!; try done; [lia|by left].
    + destruct (overlap_max_le x (w_stashed w) (w_max w) mx Hmx) as [M1 M2]; [apply Hov; by left|].
      rewrite Hu, Hraw. eexists. split; [done|]. simpl. by split_and!.
  - assert (rs_bool (src_ranges x) = true) as Hbs by (apply rs_bool_spec; eauto).
    assert (exists w', (assert! rs_bool (tgt_ranges x) in assert! rs_bool (src_ranges x) in
      let! touched := union (w_touched w) (src_ranges x) in let! raw := to_string_raw (tgt_ranges x) in
      Ok (mkW (w_out w ++ [words ([style x; py_str (patch_start x); py_str (patch_len x); src_sha1 x; tgt_sha1 x; raw] ++ ws)])
          (w_total w + size (tgt_ranges x)) (w_stashes w) (w_stashed w) (overlap_max x (w_stashed w) (w_max w)) touched)) = Ok w' /\
      w_stashes w' = w_stashes w /\ w_stashed w' = w_stashed w /\ w_max w <= w_max w' <= mx /\ wf (w_touched w') /\
      w_total w' = w_total w + size (tgt_ranges x) /\ (forall b, b ∈ w_touched w' -> b ∈ w_touched w \/ b ∈ src_ranges x)) as H.
    { destruct (overlap_max_le x (w_stashed w) (w_max w) mx Hmx) as [M1 M2]; [apply Hov; by right|].
      rewrite Hbt, Hbs, Hu, Hraw. eexists. split; [done|]. simpl. by split_and!. }
    destruct E as [E|E]; rewrite E in *; exact H.
Qed.

(** * The loop over the transfers *)

Section write.
Context (hsize : string -> Z) (src : Image) (Hss : slot_sizes src hsize).
Context (st : store) (ts : list tid) (Hnd : NoDup ts) (Hseq : sequenced st ts) (Hr : ranges_ok st ts).
Context (Hdisj : forall x y b, x ∈ ts -> y ∈ ts -> b ∈ tgt_ranges (st !!! x) -> b ∈ tgt_ranges (st !!! y) -> x = y).
Context (Hfinal : forall x, x ∈ ts -> final_style (st !!! x)).
Context (max_allowed : option py_float) (block mx : Z) (Hblock : 0 <= block).
Context (Hallowed : match max_allowed with None => True | Some f => Z_gtb_float (mx * block) f = false /\ Z_leb_float (mx * block) f = true end).
Context (Hpeak : forall p x q hs, ts = p ++ x :: q -> NoDup hs ->
  (forall sh, sh ∈ hs -> 0 < pend src (saved_ids st (p ++ [x])) sh (uses st (x :: q))) ->
  total_size hsize hs <= mx /\
  (patch_style (style (st !!! x)) -> overlaps (src_ranges (st !!! x)) (tgt_ranges (st !!! x)) = true ->
     total_size hsize hs + size (src_ranges (st !!! x)) <= mx)).

Record winv (pre post : list tid) (w : WState) : Prop := {
  wi_counts : counts src (saved_ids st pre) (uses st post) (w_stashes w);
  wi_sum : w_stashed w = total_size hsize (od_keys (w_stashes w));
  wi_max : 0 <= w_max w <= mx;
  wi_touched : wf (w_touched w) /\ forall b, b ∈ w_touched w -> exists x, x ∈ ts /\ b ∈ src_ranges (st !!! x);
  wi_total : w_total w = sumZ (map (fun x => written_size (st !!! x)) pre)
}.

Lemma check_limit_ok w : w_max w <= mx -> check_limit max_allowed block w = Ok tt.
Proof.
  intros Hw. unfold check_limit. destruct max_allowed as [f|]; [|done]. destruct Hallowed as [H1 H2].
  assert (Z_leb_float (w_max w * block) f = true) as ->; [|done].
  unfold Z_leb_float in *. destruct f as [s|s| |s m e]; try done;
    apply negb_true_iff; destruct (Z_gtb_float (w_max w * block) _) eqn:E; try done;
    rewrite (Z_gtb_float_mono (w_max w * block) (mx * block)) in H1; done || nia.
Qed.

Lemma stash_facts p x q k r : ts = p ++ x :: q -> (k, r) ∈ use_stash (st !!! x) ->
  wf r /\ (exists b, b ∈ r) /\ (forall b, b ∈ r -> b ∈ src_ranges (st !!! x)) /\ k ∈ saved_ids st (p ++ [x]).
Proof.
  intros Hl Hk. destruct (sq_use _ _ Hseq p x q k r Hl Hk) as (y & Hy & Hky & [[? ?] Hsh]). split_and!; try done.
  - intros b Hb. by apply Hsh in Hb as [? _].
  - apply elem_of_saved_ids. exists y, r. split; [apply elem_of_app; by left|done].
Qed.

Lemma used_disjoint x : x ∈ ts ->
  forall b n m s s', use_stash (st !!! x) !! n = Some s -> use_stash (st !!! x) !! m = Some s' -> b ∈ s.2 -> b ∈ s'.2 -> n = m.
Proof.
  intros Hx b n m [k r] [k' r'] Hn Hm Hb Hb'. simpl in *. pose proof (sq_table _ _ Hseq) as Htb.
  pose proof (list_elem_of_lookup_2 _ _ _ Hn) as Hk. pose proof (list_elem_of_lookup_2 _ _ _ Hm) as Hk'.
  apply list_elem_of_split in Hx as Hx'. destruct Hx' as (p & q & Hl).
  destruct (sq_use _ _ Hseq p x q k r Hl Hk) as (y & Hy & Hky & [_ Hsh]).
  destruct (sq_use _ _ Hseq p x q k' r' Hl Hk') as (y' & Hy' & Hky' & [_ Hsh']).
  assert (forall z, z ∈ p -> z ∈ ts) as Hp by (intros z Hz; rewrite Hl, elem_of_app; by left).
  assert (y = y') as <-.
  { apply (Hdisj y y' b); [by apply Hp..|by apply Hsh in Hb as [_ ?]|by apply Hsh' in Hb' as [_ ?]]. }
  pose proof (tb_pair _ _ Htb x y k k' r r' Hx (Hp y Hy) Hk Hky Hk' Hky') as <-.
  pose proof (tb_use_nd _ _ Htb x Hx) as Hn2. apply (NoDup_lookup _ n m k Hn2); by rewrite lookup_map, ?Hn, ?Hm.
Qed.

Lemma saved_new p x q : ts = p ++ x :: q ->
  NoDup (saved_ids st p ++ map fst (stash_before (st !!! x))) /\
  forall k r, (k, r) ∈ stash_before (st !!! x) -> (k, r) ∈ uses st (x :: q) /\ wf r /\ exists b, b ∈ r.
Proof.
  intros Hl. pose proof (sq_table _ _ Hseq) as Htb.
  assert (x ∈ ts) as Hx by (rewrite Hl, elem_of_app; right; by left).
  assert (forall z, z ∈ p ++ [x] -> z ∈ ts) as Hp.
  { intros z Hz. rewrite Hl. apply elem_of_app in Hz as [?|?%list_elem_of_singleton]; apply elem_of_app; [by left|right; subst; by left]. }
  split.
  - change (map fst (stash_before (st !!! x))) with ((fun y => map fst (stash_before (st !!! y))) x).
    replace (saved_ids st p ++ _) with (saved_ids st (p ++ [x])) by (unfold saved_ids; rewrite flat_map_app; simpl; by rewrite app_nil_r).
    apply NoDup_flat_map; [intros z Hz; by apply Htb, Hp|].
    intros k n m a b Hn Hm (r & Hkr)%in_keys (r' & Hkr')%in_keys.
    destruct (tb_save _ _ Htb a b k r r') as [<- _]; [apply Hp; by eapply list_elem_of_lookup_2..|done|done|].
    assert (NoDup (p ++ [x])) as Hnp.
    { pose proof Hnd as Hn2. rewrite Hl in Hn2. replace (p ++ x :: q) with ((p ++ [x]) ++ q) in Hn2 by (by rewrite <- app_assoc).
      by apply NoDup_app in Hn2 as [? _]. }
    by eapply NoDup_lookup.
  - intros k r Hk. destruct (tb_user _ _ Htb x k r Hx Hk) as (y & Hy & Hky).
    assert (y ∉ p ++ [x]) as Hny by (intros Hin; by apply (user_after st ts Hnd Hseq p x q y k r Hl Hin Hky)).
    rewrite Hl in Hy. apply elem_of_app in Hy as [Hy|Hy]; [exfalso; apply Hny, elem_of_app; by left|].
    apply elem_of_cons in Hy as [->|Hy]; [exfalso; apply Hny, elem_of_app; right; by left|].
    split.
    + unfold uses. apply list_elem_of_In, in_flat_map. exists y. split; [right; by apply list_elem_of_In|by apply list_elem_of_In].
    + assert (y ∈ ts) as Hyt by (rewrite Hl, elem_of_app; right; by right).
      apply list_elem_of_split in Hyt as (p' & q' & Hl'). by destruct (stash_facts p' y q' k r Hl' Hky) as (? & ? & _).
Qed.

(** One transfer. *)
Lemma write_transfer_ok p x q w : ts = p ++ x :: q -> winv p (x :: q) w ->
  exists w', write_transfer src max_allowed block (st !!! x) w = Ok w' /\ winv (p ++ [x]) q w'.
Proof.
  intros Hl [W1 W2 W3 [W4 W4'] W5]. unfold write_transfer.
  assert (x ∈ ts) as Hx by (rewrite Hl, elem_of_app; right; by left).
  destruct (Hr x Hx) as (Ht & _ & Hs & _). destruct (saved_new p x q Hl) as [Hns Hsv].
  destruct (write_stashes_ok hsize src Hss (uses st (x :: q)) (stash_before (st !!! x)) (saved_ids st p) w)
    as (w1 & -> & Hc1 & Hst1 & Hm1 & Ht1 & Htw1 & Htx1); try done.
  { apply (uses_keys_NoDup st ts p); [done|by apply Hseq|done]. }
  assert (saved_ids st p ++ map fst (stash_before (st !!! x)) = saved_ids st (p ++ [x])) as Hids.
  { unfold saved_ids. rewrite flat_map_app. simpl. by rewrite app_nil_r. }
  rewrite Hids in Hc1. destruct (counts_keys src _ _ _ Hc1) as [Hnk Hkeys].
  destruct (Hpeak p x q (od_keys (w_stashes w1)) Hl Hnk Hkeys) as [Hp1 Hp2]. rewrite <- Hst1 in Hp1, Hp2.
  set (mx1 := if w_max w1 <? w_stashed w1 then w_stashed w1 else w_max w1).
  assert (w_max w1 <= mx1 <= mx) as Hmx1 by (unfold mx1; zcases).
  destruct (write_uses_ok hsize src Hss (src_ranges (st !!! x)) (saved_ids st (p ++ [x])) (w_stashed w1) (uses st q) Hs
              (use_stash (st !!! x)) [] (mkUses (src_ranges (st !!! x)) [] [] [] 0 (w_stashes w1))) as (u & -> & Hu).
  { intros k r Hk. exact (stash_facts p x q k r Hl Hk). }
  { split; simpl; try done; [lia|]. intros b. split; [|by intros [? _]]. intros Hb. split; [done|]. by intros k r ?%elem_of_nil. }
  rewrite app_nil_l in Hu.
  destruct (source_words_ok hsize src (st !!! x) _ _ _ u Hs Hu) as [ws ->].
  { intros k r Hk. by destruct (stash_facts p x q k r Hl Hk) as (_ & _ & ? & _). }
  { by apply used_disjoint. }
  destruct (write_command_ok (st !!! x) ws (mkW (w_out w1) (w_total w1) (u_stashes u) (w_stashed w1) mx1 (w_touched w1)) mx)
    as (w2 & -> & E1 & E2 & E3 & E4 & E5 & E6); try done; [by apply Hfinal|simpl; lia|]. simpl in E1, E2, E3, E5, E6.
  destruct Hu as [U1 U2 _ _ _ U6]. cbn [app] in U1.
  assert (forall w3, w_max w3 = w_max w2 -> w_stashes w3 = w_stashes w2 -> w_stashed w3 = w_stashed w2 - u_free_size u ->
            w_touched w3 = w_touched w2 -> w_total w3 = w_total w2 ->
            exists w', (let! _ := check_limit max_allowed block w3 in Ok w3) = Ok w' /\ winv (p ++ [x]) q w') as Hend.
  { intros w3 F1 F2 F3 F4 F5. rewrite check_limit_ok by lia. exists w3. split; [done|]. split.
    - by rewrite F2, E1.
    - rewrite F2, F3, E1, E2. lia.
    - lia.
    - rewrite F4. split; [done|]. intros b Hb. destruct (E6 b Hb) as [Hb1|Hb1]; [|by exists x].
      destruct (Htx1 b Hb1) as [Hb2|(k & r & Hk & Hbr)]; [by apply W4'|].
      destruct (Hsv k r Hk) as [Hus _]. apply list_elem_of_In, in_flat_map in Hus as (y & Hy & Hky).
      apply list_elem_of_In in Hy, Hky. assert (y ∈ ts) as Hyt by (rewrite Hl, elem_of_app; by right).
      exists y. split; [done|]. apply list_elem_of_split in Hyt as (p' & q' & Hl').
      destruct (stash_facts p' y q' k r Hl' Hky) as (_ & _ & Hin & _). by apply Hin.
    - rewrite F5, E5, Ht1, W5, map_app, sumZ_app. simpl. lia. }
  destruct (u_free u) as [|f fs] eqn:Ef.
  - apply Hend; try done. rewrite (U6 eq_refl). lia.
  - apply Hend; done.
Qed.

Lemma write_transfers_ok : 0 <= mx ->
  exists w, foldM (fun w i => write_transfer src max_allowed block (st !!! i) w) (mkW [] 0 [] 0 0 empty) ts = Ok w /\
    winv ts [] w.
Proof.
  intros Hmx0. destruct (foldM_ok (fun pre w => exists post, ts = pre ++ post /\ winv pre post w)
    (fun w i => write_transfer src max_allowed block (st !!! i) w) (mkW [] 0 [] 0 0 empty) ts) as (w & Hw & post & Hl & Hi).
  - exists ts. split; [done|]. split; simpl; try done.
    + split_and!; [|done|constructor]. intros sh. simpl. by rewrite pend_nothing.
    + split; [apply wf_empty|]. intros b Hb. discriminate Hb.
  - intros pre x post w Hl (post' & Hl' & Hi). rewrite Hl in Hl'. apply app_inv_head in Hl' as <-.
    destruct (write_transfer_ok pre x post w Hl Hi) as (w' & Hw' & Hi'). exists w'. split; [done|].
    exists post. split; [by rewrite <- app_assoc|done].
  - exists w. split; [done|]. assert (post = []) as ->; [|done].
    apply (f_equal length) in Hl. rewrite length_app in Hl. destruct post; [done|simpl in Hl; lia].
Qed.
End write.

(** * The whole file *)

Lemma erase_line_ok r : wf r -> exists l, erase_line r = Ok l.
Proof.
  intros Hr. unfold erase_line. destruct (rs_bool r) eqn:E; [|eauto].
  apply rs_bool_spec in E as [b Hb]; [|done]. destruct (to_string_raw_ok r b Hr Hb) as [t ->]. eauto.
Qed.

(** A limit the percentage of the message can be taken of. *)
Definition limit_positive (max_allowed : option py_float) : Prop :=
  match max_allowed with Some f => float_true f = true | None => True end.

Lemma log_limit_ok max_allowed n : limit_positive max_allowed -> log_limit max_allowed n = Ok tt.
Proof. destruct max_allowed as [f|]; [|done]. simpl. by destruct f. Qed.

Lemma finish_list_ok max_allowed version tgt src w :
  limit_positive max_allowed -> wf (care_map tgt) -> wf (extended tgt) -> 0 <= total_blocks tgt -> wf (w_touched w) ->
  exists lines, finish_list max_allowed version tgt src w =
    Ok (mkTransferFile lines (w_max w * blocksize tgt) (w_touched w) (RangeSha1 src (w_touched w))) /\
    take 4 lines = [py_str version +:+ nl;
                    py_str (w_total w + if rs_bool (extended tgt) then size (extended tgt) else 0) +:+ nl;
                    "0" +:+ nl; py_str (w_max w) +:+ nl].
Proof.
  intros Hlim Hc He Ht Hw. unfold finish_list.
  destruct (of_data_upto (total_blocks tgt) Ht) as (a & -> & Hwa & _).
  destruct (subtract_ok a (extended tgt) Hwa He) as (b & -> & Hwb & _).
  destruct (subtract_ok b (care_map tgt) Hwb Hc) as (c & -> & Hwc & _).
  destruct (subtract_ok c (w_touched w) Hwc Hw) as (d & -> & Hwd & _).
  destruct (erase_line_ok d Hwd) as [l1 ->].
  destruct (subtract_ok c d Hwc Hwd) as (e & -> & Hwe & _). destruct (erase_line_ok e Hwe) as [l2 ->].
  rewrite log_limit_ok by done.
  destruct (rs_bool (extended tgt)).
  - destruct (WriteSplitTransfers_ok "zero" (extended tgt) (w_out w) He) as [out ->]; [by right|]. rewrite Z.eqb_refl. eauto.
  - rewrite Z.add_0_r. eauto.
Qed.

(** What the computation of patches may change: a "diff" becomes a "move", when
    its target has as many blocks as its source, or a patch of one of the two
    kinds. *)
Record patched (ts : list tid) (st st' : store) : Prop := {
  pa_tgt : same_on tgt_ranges st st';
  pa_src : same_on src_ranges st st';
  pa_save : same_on stash_before st st';
  pa_use : same_on use_stash st st';
  pa_style : forall x, x ∈ ts ->
    if String.eqb (style (st !!! x)) "diff"
    then (style (st' !!! x) = "move" /\ size (src_ranges (st !!! x)) = size (tgt_ranges (st !!! x))) \/
         style (st' !!! x) = "bsdiff" \/ style (st' !!! x) = "imgdiff"
    else style (st' !!! x) = style (st !!! x)
}.

(** The transfers that FindTransfers makes. *)
Definition plan_styles (st : store) (ts : list tid) : Prop :=
  forall x, x ∈ ts -> (exists b, b ∈ tgt_ranges (st !!! x)) /\
    (style (st !!! x) = "zero" \/ style (st !!! x) = "new" /\ src_ranges (st !!! x) = empty \/
     style (st !!! x) = "diff" /\ exists b, b ∈ src_ranges (st !!! x)).

(** The limit of WriteTransfers on bytes is not below the limit of
    ReviseStashSize on blocks. *)
Definition limits_agree (limit : option py_float) (max_allowed : option py_float) (block : Z) : Prop :=
  match max_allowed with
  | None => True
  | Some f => forall n, 0 <= n -> exceeds limit n = false -> Z_gtb_float (n * block) f = false /\ Z_leb_float (n * block) f = true
  end.

Lemma plan_styles_ok st ts : ranges_ok st ts -> plan_styles st ts -> styles_ok st ts.
Proof.
  intros Hr H x Hx. destruct (H x Hx) as [Ht Hs]. destruct (Hr x Hx) as (R1 & _ & R3 & _). split.
  - intros [b Hb]. destruct Hs as [->|[[-> E]|[-> _]]]; [done| |done]. rewrite E in Hb. discriminate Hb.
  - intros E. destruct Hs as [E'|[[E' _]|[_ Hs]]]; [congruence..|]. split; by apply rs_bool_spec.
Qed.

Lemma patched_pend ts src st st' D sh l : patched ts st st' -> pend src D sh (uses st' l) = pend src D sh (uses st l).
Proof. intros [_ _ _ H _]. unfold uses. f_equal. apply flat_map_ext. intros x. apply H. Qed.

Lemma patched_ids ts st st' l : patched ts st st' -> saved_ids st' l = saved_ids st l.
Proof. intros [_ _ H _ _]. unfold saved_ids. apply flat_map_ext. intros x. by rewrite (H x). Qed.

Lemma patched_sequenced ts st st' : patched ts st st' -> sequenced st ts -> sequenced st' ts.
Proof.
  intros [P1 P2 P3 P4 _] [S1 S2 S3].
  assert (forall x y r, shared_blocks st x y r -> shared_blocks st' x y r) as Hsh.
  { intros x y r [H1 H2]. split; [done|]. intros b. rewrite H2, (P1 y), (P2 x). done. }
  split.
  - intros pre x post y Hl Hy (b & Hb1 & Hb2). rewrite (P1 y) in Hb1. rewrite (P2 x) in Hb2.
    destruct (S1 pre x post y Hl Hy) as (k & r & H1 & H2 & H3); [by exists b|]. exists k, r.
    rewrite (P4 x), (P3 y). auto.
  - intros pre x post k r Hl. rewrite (P4 x). intros Hk. destruct (S2 pre x post k r Hl Hk) as (y & H1 & H2 & H3).
    exists y. rewrite (P3 y). auto.
  - destruct S3 as [T1 T2 T3 T4 T5 T6 T7]. split.
    + intros y k r. rewrite (P3 y). setoid_rewrite (fun x => P4 x). apply T1.
    + intros x k r. rewrite (P4 x). setoid_rewrite (fun x => P3 x). apply T2.
    + intros x y k r r'. rewrite (P3 x), (P3 y). apply T3.
    + intros x y k r r'. rewrite (P4 x), (P4 y). apply T4.
    + intros x. rewrite (P3 x). apply T5.
    + intros x. rewrite (P4 x). apply T6.
    + intros x y k k' r r'. rewrite (P4 x), (P3 y). apply T7.
Qed.

(** The styles of a revised and patched sequence. *)
Lemma final_styles s1 s2 st' ts x : plan_styles s1 ts -> kept s1 s2 x -> same_on tgt_ranges s1 s2 -> patched ts s2 st' ->
  x ∈ ts -> final_style (st' !!! x) /\
    (patch_style (style (st' !!! x)) -> style (s2 !!! x) = "diff").
Proof.
  intros Hp Hk Ht [P1 P2 _ _ P5] Hx. destruct (Hp x Hx) as [[b Hb] Hs]. specialize (P5 x Hx). unfold final_style.
  rewrite (P1 x), (P2 x), (Ht x).
  assert (style (s2 !!! x) = "diff" \/ style (s2 !!! x) = "zero" \/ style (s2 !!! x) = "new") as Hst.
  { destruct Hk as [[-> _]|[-> _]]; [|by right; right]. destruct Hs as [?|[[? _]|[? _]]]; auto. }
  destruct (String.eqb_spec (style (s2 !!! x)) "diff") as [E|E].
  - assert (exists b, b ∈ src_ranges (s2 !!! x)) as Hsrc.
    { destruct Hk as [[E1 ->]|[E1 _]]; [|congruence]. destruct Hs as [?|[[? _]|[_ ?]]]; congruence || done. }
    split; [|done]. split; [by exists b|]. rewrite (Ht x) in P5. destruct P5 as [[-> ?]|[->| ->]]; auto 10.
  - rewrite P5. split.
    + split; [by exists b|]. destruct Hst as [?|[->| ->]]; auto. done.
    + intros [Ep|[Ep|Ep]]; destruct Hst as [?|[?|?]]; congruence.
Qed.

(** All stash slots are free again at the end. *)
Definition ends_empty (cache_size : option Z) (threshold : py_float) (block : Z) (src : Image) (s : SeqState) : Prop :=
  exists max_allowed w, cache_limit cache_size threshold = Ok max_allowed /\
    foldM (fun w i => write_transfer src max_allowed block (sq_store s !!! i) w) (mkW [] 0 [] 0 0 empty) (sq_transfers s) = Ok w /\
    w_stashes w = [].

(** Finding the order, revising, patching and writing. *)
Lemma write_revised_ok hsize tgt src limit s cache_size threshold max_allowed version :
  NoDup (sq_transfers s) -> ranges_ok (sq_store s) (sq_transfers s) -> plan_styles (sq_store s) (sq_transfers s) ->
  targets_ok tgt (sq_store s) (sq_transfers s) -> exceeds limit 0 = false -> slot_sizes src hsize ->
  cache_limit cache_size threshold = Ok max_allowed -> limit_positive max_allowed ->
  limits_agree limit max_allowed (blocksize tgt) ->
  wf (care_map tgt) -> wf (extended tgt) -> 0 <= total_blocks tgt -> 0 <= blocksize tgt ->
  exists s1 s2 nb mx, FindSequenceForTransfers s = Ok s1 /\ ReviseStashSize src limit s1 = Ok (s2, nb, mx) /\
    forall st', patched (sq_transfers s2) (sq_store s2) st' ->
      exists tf n, WriteTransfers cache_size threshold version tgt src (mkSeq st' (sq_transfers s2)) = Ok tf /\
        0 <= n <= mx /\ tf_max_stashed_size tf = n * blocksize tgt /\ exceeds limit n = false /\
        take 4 (tf_lines tf) =
          [py_str version +:+ nl;
           py_str (sumZ (map (fun x => written_size (st' !!! x)) (sq_transfers s2)) +
                   if rs_bool (extended tgt) then size (extended tgt) else 0) +:+ nl;
           "0" +:+ nl; py_str n +:+ nl] /\
        (forall b, b ∈ tf_touched tf -> exists x, x ∈ sq_transfers s2 /\ b ∈ src_ranges (st' !!! x)) /\
        tf_touched_sha1 tf = RangeSha1 src (tf_touched tf) /\
        ends_empty cache_size threshold (blocksize tgt) src (mkSeq st' (sq_transfers s2)).
Proof.
  intros Hnd Hr Hpl Ht Hlim Hss Hcl Hlp Hag Hc He Htot Hbs.
  destruct (find_then_revise hsize tgt src limit s) as (s1 & s2 & nb & mx & Hf & Hrev & Hts & Hp & Hs & Hseq & Hr2 & [_ T2 _] & Hk & Htg & Hmx & _ & _ & Hprof); try done; [by apply plan_styles_ok|].
  exists s1, s2, nb, mx. split; [done|]. split; [done|]. intros st' Hpa. set (ts := sq_transfers s2) in *.
  assert (NoDup ts) as Hnd2 by (by rewrite Hts, Hp).
  assert (plan_styles (sq_store s1) ts) as Hpl1.
  { intros x Hx. rewrite (proj1 (same_statics_ranges _ _ x Hs)), (proj2 (same_statics_ranges _ _ x Hs)), (same_statics_style _ _ x Hs).
    apply Hpl. by rewrite <- Hp, <- Hts. }
  pose proof (fun x => final_styles _ _ _ ts x Hpl1 (Hk x) Htg Hpa) as Hfin.
  pose proof Hpa as [P1 P2 P3 P4 _].
  assert (0 <= mx) as Hmx0.
  { destruct ts as [|x q] eqn:E.
    - unfold ReviseStashSize in Hrev. assert (sq_transfers s1 = []) as E1 by (by rewrite <- Hts). rewrite E1 in Hrev.
      simpl in Hrev. by injection Hrev as _ _ <-.
    - destruct (Hprof Hss [] x q eq_refl [] (NoDup_nil_2)) as [H _]; [by intros sh ?%elem_of_nil|exact H]. }
  destruct (write_transfers_ok hsize src Hss st' ts Hnd2 (patched_sequenced _ _ _ Hpa Hseq)) with
    (max_allowed := max_allowed) (block := blocksize tgt) (mx := mx) as (w & Hw & [W1 _ [W0 W3] [W4 W5] W6]); try done.
  - intros x Hx. rewrite (P1 x), (P2 x). by apply Hr2.
  - intros x y b Hx Hy. rewrite (P1 x), (P1 y). by apply T2.
  - intros x Hx. by apply Hfin.
  - unfold limits_agree in Hag. destruct max_allowed; [by apply Hag|done].
  - intros p x q hs Hl Hnh Hhs. assert (x ∈ ts) as Hx by (rewrite Hl, elem_of_app; right; by left).
    rewrite (patched_ids _ _ _ _ Hpa) in Hhs. setoid_rewrite (patched_pend _ src _ _ _ _ _ Hpa) in Hhs.
    destruct (Hprof Hss p x q Hl hs Hnh Hhs) as [H1 H2]. split; [done|]. rewrite (P1 x), (P2 x). intros Hps.
    apply H2. by apply Hfin.
  - pose proof (finish_list_ok max_allowed version tgt src w Hlp Hc He Htot W4) as (lines & Hlines & Hhead).
    eexists _, (w_max w). split; [unfold WriteTransfers; rewrite Hcl; simpl; rewrite Hw; exact Hlines|]. simpl.
    split_and!; try done.
    + destruct (exceeds limit (w_max w)) eqn:Ex; [|done]. unfold exceeds in *. destruct limit as [f|]; [|done].
      apply andb_true_iff in Ex as [E1 E2]. rewrite E1 in Hmx. simpl in Hmx.
      by rewrite (Z_gtb_float_mono (w_max w) mx f W3 E2) in Hmx.
    + rewrite Hhead, W6. done.
    + exists max_allowed, w. split_and!; [done|exact Hw|]. destruct (counts_keys src _ _ _ W1) as [_ Hpos].
      destruct (w_stashes w) as [|[sh k] l]; [done|]. specialize (Hpos sh (ltac:(by left))). simpl in Hpos. unfold pend in Hpos. simpl in Hpos. lia.
Qed.

(** C6: whatever the sizes of the patches, [WriteTransfers] writes the revised
    sequence without failing an assertion: each stash it reads is one that was
    saved and not freed, the stash space it uses is at most what the revision
    computed and within the limit, the number of blocks in the second line is
    that of the blocks its commands write, and the blocks it touches in the
    source are those that transfers read. *)
Theorem transfer_list_written hsize tgt src limit s cache_size threshold max_allowed version :
  NoDup (sq_transfers s) -> ranges_ok (sq_store s) (sq_transfers s) -> plan_styles (sq_store s) (sq_transfers s) ->
  targets_ok tgt (sq_store s) (sq_transfers s) -> exceeds limit 0 = false -> slot_sizes src hsize ->
  cache_limit cache_size threshold = Ok max_allowed -> limit_positive max_allowed ->
  limits_agree limit max_allowed (blocksize tgt) ->
  wf (care_map tgt) -> wf (extended tgt) -> 0 <= total_blocks tgt -> 0 <= blocksize tgt ->
  exists s1 s2 nb mx, FindSequenceForTransfers s = Ok s1 /\ ReviseStashSize src limit s1 = Ok (s2, nb, mx) /\
    forall st', patched (sq_transfers s2) (sq_store s2) st' ->
      exists tf n, WriteTransfers cache_size threshold version tgt src (mkSeq st' (sq_transfers s2)) = Ok tf /\
        0 <= n <= mx /\ tf_max_stashed_size tf = n * blocksize tgt /\ exceeds limit n = false /\
        take 4 (tf_lines tf) =
          [py_str version +:+ nl;
           py_str (sumZ (map (fun x => written_size (st' !!! x)) (sq_transfers s2)) +
                   if rs_bool (extended tgt) then size (extended tgt) else 0) +:+ nl;
           "0" +:+ nl; py_str n +:+ nl] /\
        (forall b, b ∈ tf_touched tf -> exists x, x ∈ sq_transfers s2 /\ b ∈ src_ranges (st' !!! x)) /\
        tf_touched_sha1 tf = RangeSha1 src (tf_touched tf).
Proof.
  intros. destruct (write_revised_ok hsize tgt src limit s cache_size threshold max_allowed version)
    as (s1 & s2 & nb & mx & Hf & Hrev & Hw); try done.
  exists s1, s2, nb, mx. split_and!; [done..|]. intros st' Hpa.
  destruct (Hw st' Hpa) as (tf & n & ? & ? & ? & ? & ? & ? & ? & _). exists tf, n. do 6 (split; [done|]). done.
Qed.

(** The example of StashProps, written with binary patches. *)
Definition patch_style_of (x : Transfer) : Transfer := if String.eqb (style x) "diff" then set_style "bsdiff" x else x.
Definition patch_store (st : store) : store := patch_style_of <$> st.

Lemma patch_store_lookup st i : patch_store st !!! i = patch_style_of (st !!! i).
Proof. unfold patch_store. rewrite !lookup_total_alt, lookup_fmap. by destruct (st !! i). Qed.

Lemma patch_store_patched ts st : patched ts st (patch_store st).
Proof.
  assert (forall A (g : Transfer -> A), (forall v x, g (set_style v x) = g x) -> same_on g st (patch_store st)) as H.
  { intros A g Hg i. rewrite patch_store_lookup. unfold patch_style_of. destruct (String.eqb _ _); auto. }
  split; try (apply H; by intros v []).
  intros x _. rewrite patch_store_lookup. unfold patch_style_of.
  destruct (String.eqb (style (st !!! x)) "diff"); [|done]. right. left. by destruct (st !!! x).
Qed.

Definition ex_slots : Image :=
  mkImage 4096 30 (ex_range 0 25) empty empty [] (fun r => py_str (size r)) (fun _ => "").
Definition ex_hsize (sh : string) : Z := match py_int sh with Ok n => Z.max 0 n | Raise _ => 0 end.

Lemma ex_slot_sizes : slot_sizes ex_slots ex_hsize.
Proof.
  split; unfold ex_hsize.
  - intros sh. destruct (py_int sh); lia.
  - intros r Hr. change (RangeSha1 ex_slots r) with (py_str (size r)). pose proof (size_nonneg r Hr). rewrite py_int_str by done. lia.
Qed.

Lemma ex_limits n : 0 <= n -> exceeds (Some (float_lit 4 0)) n = false ->
  Z_gtb_float (n * 4096) (float_lit 16384 0) = false /\ Z_leb_float (n * 4096) (float_lit 16384 0) = true.
Proof.
  intros Hn H. vm_compute (float_lit 4 0) in H. vm_compute (float_lit 16384 0). unfold exceeds in H. simpl in *. zcases.
Qed.

Lemma transfer_list_written_witness : exists s1 s2 nb mx tf,
  FindSequenceForTransfers ex_seq = Ok s1 /\ ReviseStashSize ex_slots (Some (float_lit 4 0)) s1 = Ok (s2, nb, mx) /\
  WriteTransfers (Some 16384) (float_lit 1 0) 4 ex_image ex_slots (mkSeq (patch_store (sq_store s2)) (sq_transfers s2)) = Ok tf.
Proof.
  destruct (ex_range_ok 0 25) as [Hw Hn]; [lia..|].
  destruct (transfer_list_written ex_hsize ex_image ex_slots (Some (float_lit 4 0)) ex_seq (Some 16384) (float_lit 1 0)
              (Some (float_lit 16384 0)) 4 ex_NoDup ex_ranges_ok) as (s1 & s2 & nb & mx & H1 & H2 & H3).
  - intros i [->|[->| ->]]%ex_members; (split; [eexists; apply elem_of_range_set; [|split; [apply Z.le_refl|]]; lia|]);
      right; right; (split; [done|]); eexists; apply elem_of_range_set; [|split; [apply Z.le_refl|]| |split; [apply Z.le_refl|]| |split; [apply Z.le_refl|]]; lia.
  - exact ex_targets_ok.
  - reflexivity.
  - exact ex_slot_sizes.
  - reflexivity.
  - reflexivity.
  - exact ex_limits.
  - exact Hw.
  - apply wf_empty.
  - simpl. lia.
  - simpl. lia.
  - destruct (H3 (patch_store (sq_store s2)) (patch_store_patched _ _)) as (tf & n & H4 & _).
    exists s1, s2, nb, mx, tf. split_and!; assumption.
Defined.
