(* ===== verification/ComputeDiff.v ===== *)
(** releasetools/blockimgdiff.py, the computation of patches and the driver:
    [compute_patch], [ComputePatchesForInputList] with its worker threads,
    [SelectAndConvertDiffTransfersToNew], [ComputePatches], [AssertSha1Good]
    and [Compute].

    bsdiff, imgdiff and zlib are parameters: [run_diff] is the patch a diff tool
    makes of the data of two range sets, or nothing when the tool fails;
    [deflate] is the size of compressed data, or nothing on an error of zlib. *)

From S2P Require Export TransferList DiffPlan.

#[local] Open Scope string_scope.
#[local] Open Scope list_scope.
#[local] Open Scope Z_scope.

(** * Computing patches with worker threads *)

(** An item of [diff_queue]: the index of the transfer, whether imgdiff is used,
    and the place of the result in [patches]. *)
Abbreviation job := (Z * bool * Z)%type.

(** [(xf_index, patch_info, compressed_size)]. *)
Abbreviation patch_result := (Z * PatchInfo * option Z)%type.

Section diff.
Context (tgt src : Image).
Context (run_diff : bool -> string -> string -> option string) (deflate : string -> option Z).

(** [compute_patch]; a tool that fails is a ValueError. *)
Definition compute_patch (src_data tgt_data : string) (use_imgdiff : bool) : result PatchInfo :=
  match run_diff use_imgdiff src_data tgt_data with
  | Some content => Ok (mkPatchInfo use_imgdiff content)
  | None => Raise ValueError
  end.

(** What a worker does with an item it has taken.  Where a tool or zlib fails, the
    handler reads [e.message], which exceptions do not have. *)
Definition diff_job (compress_target : bool) (st : store) (transfers : list tid) (j : job) : result patch_result :=
  let '(xf_index, use_imgdiff, _) := j in
  let! i := py_get transfers xf_index in
  let x := st !!! i in
  let! info :=
    match patch_info x with
    | Some p => Ok p
    | None =>
        match compute_patch (ReadRangeSet src (src_ranges x)) (ReadRangeSet tgt (tgt_ranges x)) use_imgdiff with
        | Raise ValueError => Raise AttributeError
        | r => r
        end
    end in
  if compress_target then
    match deflate (ReadRangeSet tgt (tgt_ranges x)) with
    | Some n => Ok (xf_index, info, Some n)
    | None => Raise AttributeError
    end
  else Ok (xf_index, info, None).

(** The threads share the queue and the results.  A worker is between items, has
    taken an item, or has ended (it returned or died of an exception). *)
Inductive worker := Idle | Busy (j : job) | Gone.

Record Pool := mkPool {
  pl_queue : list job;
  pl_workers : list worker;
  pl_patches : list (option patch_result)
}.

(** The next step of worker [w]; each holds the lock while it is in the shared
    data. *)
Definition pool_step (do_job : job -> result patch_result) (p : Pool) (w : nat) : Pool :=
  let set s := <[w := s]> (pl_workers p) in
  match pl_workers p !! w with
  | Some Idle =>
      match last (pl_queue p) with
      | None => mkPool (pl_queue p) (set Gone) (pl_patches p)
      | Some j => mkPool (removelast (pl_queue p)) (set (Busy j)) (pl_patches p)
      end
  | Some (Busy j) =>
      match (let! r := do_job j in py_set (pl_patches p) j.2 (Some r)) with
      | Ok l => mkPool (pl_queue p) (set Idle) l
      | Raise _ => mkPool (pl_queue p) (set Gone) (pl_patches p)
      end
  | _ => p
  end.

Definition run_pool (do_job : job -> result patch_result) (schedule : list nat) (p : Pool) : Pool :=
  fold_left (pool_step do_job) schedule p.

(** [join] has returned for all threads. *)
Definition all_gone (p : Pool) : bool :=
  forallb (fun s => match s with Gone => true | _ => false end) (pl_workers p).

Definition initial_pool (threads : nat) (diff_queue : list job) : Pool :=
  mkPool diff_queue (replicate threads Idle) (replicate (length diff_queue) None).

(** [ComputePatchesForInputList], for the order of steps [schedule]; an item
    whose worker died keeps [None].  [error_messages] stays empty: the
    expressions of the messages raise. *)
Definition ComputePatchesForInputList (threads : nat) (schedule : list nat) (compress_target : bool) (st : store)
    (transfers : list tid) (diff_queue : list job) : result (list (option patch_result)) :=
  match diff_queue with
  | [] => Ok []
  | _ =>
      let p := run_pool (diff_job compress_target st transfers) schedule (initial_pool threads diff_queue) in
      if all_gone p then Ok (pl_patches p) else Raise OutOfFuel
  end.
End diff.

(** * SelectAndConvertDiffTransfersToNew *)

(** [TransferSizeScore]; the score -1 is the float -1.0, which compares alike. *)
Abbreviation size_score := (tid * Z * py_float)%type.

Section select.
Context (disable_imgdiff : bool).

(** The loop that builds [diff_queue]. *)
Definition queue_diff (st : store) (acc : list job * stats) (i : tid) : result (list job * stats) :=
  let '(diff_queue, stats) := acc in
  let x := st !!! i in
  if String.eqb (style x) "diff" && negb (String.eqb (src_sha1 x) (tgt_sha1 x)) then
    let! (use_imgdiff, stats) := CanUseImgdiff disable_imgdiff (tgt_name x) (tgt_ranges x) (src_ranges x) false stats in
    Ok (diff_queue ++ [(order x, use_imgdiff, Z.of_nat (length diff_queue))], stats)
  else Ok (diff_queue, stats).

(** The body of the loop over the results.  The ratio is for the log. *)
Definition add_candidate (transfers : list tid) (acc : store * list size_score) (r : option patch_result)
  : result (store * list size_score) :=
  let '(st, candidates) := acc in
  let! (xf_index, info, compressed) := of_option TypeError r in
  let! i := py_get transfers xf_index in
  let! st := match patch_info (st !!! i) with None => set_patch_info i (Some info) st | Some _ => Ok st end in
  let! info := of_option AttributeError (patch_info (st !!! i)) in
  let! compressed_size := of_option TypeError compressed in
  let n := str_len (content info) in
  let! _ := float_div_count (float_mul (float_of_count n) (float_lit 25 2)) compressed_size in
  let used := stash_size (use_stash (st !!! i)) in
  if compressed_size <=? n then Ok (st, candidates ++ [(i, used, float_lit (-1) 0)])
  else if 0 <? used then
    let! s := float_div_count (float_mul (float_of_count (compressed_size - n)) (float_lit 25 2)) used in
    Ok (st, candidates ++ [(i, used, s)])
  else Ok (st, candidates).

(** [not (b.score < a.score)], the order of a stable sort by score. *)
Definition score_leb (a b : size_score) : bool := negb (float_ltb b.2 a.2).

(** The conversion loop: it stops once enough blocks are freed. *)
Fixpoint convert_candidates (violated : py_float) (removed : Z) (st : store) (l : list size_score) : result store :=
  match l with
  | [] => Ok st
  | (i, used, _) :: l' =>
      let! st := ConvertToNew i st in
      if Z_geb_float (removed + used) violated then Ok st
      else convert_candidates violated (removed + used) st l'
  end.

Definition SelectAndConvertDiffTransfersToNew (patches_of : store -> list job -> result (list (option patch_result)))
    (violated_stash_blocks : py_float) (s : SeqState) (stats : stats) : result (SeqState * DiffPlan.stats) :=
  let! (diff_queue, stats) := foldM (queue_diff (sq_store s)) ([], stats) (sq_transfers s) in
  let! results := patches_of (sq_store s) diff_queue in
  let! (st, candidates) := foldM (add_candidate (sq_transfers s)) (sq_store s, []) results in
  let! st := convert_candidates violated_stash_blocks 0 st (sort_by score_leb candidates) in
  Ok (mkSeq st (sq_transfers s), stats).
End select.

(** * ComputePatches *)

(** The first loop: the store, the statistics, the contents of the .new.dat
    file and the queue. *)
Record PatchState := mkPatchState {
  ps_store : store;
  ps_stats : stats;
  ps_new : string;
  ps_queue : list job
}.

Definition patch_one (tgt : Image) (disable_imgdiff : bool) (c : PatchState) (xf : Z * tid) : result PatchState :=
  let '(index, i) := xf in
  let x := ps_store c !!! i in
  if String.eqb (style x) "zero" then Ok c
  else if String.eqb (style x) "new" then
    Ok (mkPatchState (ps_store c) (ps_stats c) (ps_new c +:+ ReadRangeSet tgt (tgt_ranges x)) (ps_queue c))
  else if String.eqb (style x) "diff" then
    if String.eqb (src_sha1 x) (tgt_sha1 x) then
      let! st := set_patch_info i None (upd i (set_style "move") (ps_store c)) in
      Ok (mkPatchState st (ps_stats c) (ps_new c) (ps_queue c))
    else
      let! (use_imgdiff, stats) :=
        match patch_info x with
        | Some p => Ok (imgdiff p, ps_stats c)
        | None => CanUseImgdiff disable_imgdiff (tgt_name x) (tgt_ranges x) (src_ranges x) false (ps_stats c)
        end in
      let st := upd i (set_style (if use_imgdiff then "imgdiff" else "bsdiff")) (ps_store c) in
      Ok (mkPatchState st stats (ps_new c) (ps_queue c ++ [(index, use_imgdiff, Z.of_nat (length (ps_queue c)))]))
  else Raise AssertionError.

(** The second loop: patches are written one after the other.  The ratio is for
    the log. *)
Definition place_patch (transfers : list tid) (acc : store * Z * string) (r : option patch_result)
  : result (store * Z * string) :=
  let '(st, offset, patch_dat) := acc in
  let! (index, info, _) := of_option TypeError r in
  let! i := py_get transfers index in
  let len := str_len (content info) in
  let st := upd i (set_patch_pos offset len) st in
  let! _ := float_div_count (float_mul (float_of_count len) (float_lit 25 2)) (size (tgt_ranges (st !!! i))) in
  Ok (st, offset + len, patch_dat +:+ content info).

Definition enumerate (l : list tid) : list (Z * tid) := imap (fun k i => (Z.of_nat k, i)) l.

(** The new state and statistics, and the contents of the .new.dat and
    .patch.dat files. *)
Definition ComputePatches (tgt : Image) (disable_imgdiff : bool)
    (patches_of : store -> list job -> result (list (option patch_result))) (s : SeqState) (stats : stats)
  : result (SeqState * DiffPlan.stats * string * string) :=
  let ts := sq_transfers s in
  let! c := foldM (patch_one tgt disable_imgdiff) (mkPatchState (sq_store s) stats "" []) (enumerate ts) in
  let! patches := patches_of (ps_store c) (ps_queue c) in
  let! (st, _, patch_dat) := foldM (place_patch ts) (ps_store c, 0, "") patches in
  Ok (mkSeq st ts, ps_stats c, ps_new c, patch_dat).

(** * AssertSha1Good and Compute *)

Definition AssertSha1Good (tgt src : Image) (s : SeqState) : result unit :=
  foldM (fun _ i =>
           let x := sq_store s !!! i in
           assert! String.eqb (tgt_sha1 x) (RangeSha1 tgt (tgt_ranges x)) in
           if String.eqb (style x) "diff" then
             assert! String.eqb (src_sha1 x) (RangeSha1 src (src_ranges x)) in Ok tt
           else Ok tt) tt (sq_transfers s).

(** The options and the tools [Compute] uses. *)
Record Env := mkEnv {
  cache_size : option Z;
  stash_threshold : py_float;
  version : Z;
  disable_imgdiff : bool;
  threads : nat;
  run_imgdiff : RangeSet -> RangeSet -> result (string * list string);
  run_diff : bool -> string -> string -> option string;
  deflate : string -> option Z;
  (* the order of the steps of the threads, for a queue *)
  schedule : list job -> list nat
}.

(** The assertions of [BlockImageDiff.__init__]. *)
Definition init_checks (e : Env) (tgt src : Image) : result unit :=
  assert! (version e =? 3) || (version e =? 4) in
  assert! blocksize tgt =? 4096 in
  assert! blocksize src =? 4096 in
  let! _ := AssertPartition (care_map src) (map snd (file_map src)) in
  AssertPartition (care_map tgt) (map snd (file_map tgt)).

(** The files [Compute] writes, the final transfers, and the report. *)
Record Diff := mkDiff {
  d_state : SeqState;
  d_transfer_list : TransferFile;
  d_new : string;
  d_patch : string;
  d_report : list (string * Z * list string)
}.

Section compute.
Context (e : Env) (tgt src : Image).

Definition patches_for (compress_target : bool) (transfers : list tid) (st : store) (diff_queue : list job) :=
  ComputePatchesForInputList tgt src (run_diff e) (deflate e) (threads e) (schedule e diff_queue) compress_target
    st transfers diff_queue.

(** The block that ensures the stash size is under the limit. *)
Definition limit_stash (s : SeqState) (stats : stats) : result (SeqState * DiffPlan.stats) :=
  match cache_size e with
  | None => Ok (s, stats)
  | Some c =>
      let! limit := stash_limit c (stash_threshold e) (blocksize tgt) in
      let! (s, _, max_stashed_blocks) := ReviseStashSize_opts true c (stash_threshold e) tgt src s in
      let! (s, stats) :=
        if Z_gtb_float max_stashed_blocks (float_add limit (float_lit 1024 0)) then
          let violated := float_sub (float_of_count max_stashed_blocks) limit in
          let! (s, stats) := SelectAndConvertDiffTransfersToNew (disable_imgdiff e)
                               (patches_for true (sq_transfers s)) violated s stats in
          let! s := FindSequenceForTransfers s in Ok (s, stats)
        else Ok (s, stats) in
      let! (s, _, _) := ReviseStashSize_opts false c (stash_threshold e) tgt src s in
      Ok (s, stats)
  end.

Definition Compute : result Diff :=
  let '(bases, pats) := AbbreviateSourceNames src in
  let! p := FindTransfers (cache_size e) tgt src (disable_imgdiff e) (run_imgdiff e) (threads e) bases pats (mkPlan ∅ [] [] []) in
  let! s := FindSequenceForTransfers (mkSeq (p_store p) (p_transfers p)) in
  let! (s, stats) := limit_stash s (p_stats p) in
  let! _ := AssertSequenceGood tgt s in
  let! _ := AssertSha1Good tgt src s in
  let! (s, stats, new_dat, patch_dat) :=
    ComputePatches tgt (disable_imgdiff e) (patches_for false (sq_transfers s)) s stats in
  let! tf := WriteTransfers (cache_size e) (stash_threshold e) (version e) tgt src s in
  Ok (mkDiff s tf new_dat patch_dat (if disable_imgdiff e then [] else Report stats)).
End compute.
