(* ===== verification/ComputeFacts.v ===== *)
(** The worker threads of [ComputePatchesForInputList], whatever the order of their
    steps, end and leave for every item of the queue the result that item has on its
    own; [ComputePatches] gives every "diff" its patch, and places the patches one after
    the other; [SelectAndConvertDiffTransfersToNew] only turns transfers into "new". *)

From S2P Require Export ComputeDiff TransferProps DiffProps.

#[local] Open Scope string_scope.
#[local] Open Scope list_scope.
#[local] Open Scope Z_scope.

(** The items of a queue carry their positions. *)
Definition numbered (q : list job) : Prop := forall k j, q !! k = Some j -> j.2 = Z.of_nat k.

(** Every thread gets enough steps: three for an item, which it takes and
    finishes, and one to end. *)
Definition fair (threads : nat) (q : list job) (schedule : list nat) : Prop :=
  forall w, (w < threads)%nat -> (3 * length q + threads <= count_occ Nat.eq_dec schedule w)%nat.

Lemma numbered_snoc q i b : numbered q -> numbered (q ++ [(i, b, Z.of_nat (length q))]).
Proof.
  intros H k j. rewrite lookup_app_Some. intros [?|[Hk Hj]]; [by apply H|].
  destruct (k - length q)%nat as [|m] eqn:E; [|done]. simpl in Hj. injection Hj as <-. simpl. lia.
Qed.

Section pool.
Context (do_job : job -> result patch_result).

(** ** Termination *)

Definition weight (s : worker) : nat := match s with Idle => 1 | Busy _ => 2 | Gone => 0 end.
Definition potential (p : Pool) : nat := 3 * length (pl_queue p) + sum_list (map weight (pl_workers p)).

Lemma weight_insert (ws : list worker) w s s' : ws !! w = Some s ->
  (sum_list (map weight (<[w := s']> ws)) + weight s = sum_list (map weight ws) + weight s')%nat.
Proof.
  revert w. induction ws as [|s0 ws IH]; intros [|w] H; simpl in *; try done.
  - injection H as ->. lia.
  - apply IH in H. lia.
Qed.

(** A step of a thread that has not ended makes progress. *)
Lemma pool_step_progress p w :
  (pool_step do_job p w = p /\ (pl_workers p !! w = Some Gone \/ pl_workers p !! w = None)) \/
  (potential (pool_step do_job p w) < potential p)%nat.
Proof.
  unfold pool_step, potential. destruct (pl_workers p !! w) as [[|j|]|] eqn:E; [| |by left; auto|by left; auto]; right.
  - destruct (last (pl_queue p)) as [j|] eqn:El; simpl.
    + apply last_Some in El as [q ->]. rewrite removelast_last, length_app. simpl.
      pose proof (weight_insert _ _ _ (Busy j) E). simpl in *. lia.
    + pose proof (weight_insert _ _ _ Gone E). simpl in *. lia.
  - pose proof (weight_insert _ _ _ Idle E). pose proof (weight_insert _ _ _ Gone E).
    destruct (let! r := do_job j in _); simpl in *; lia.
Qed.

Lemma pool_step_workers p w : length (pl_workers (pool_step do_job p w)) = length (pl_workers p).
Proof.
  unfold pool_step. destruct (pl_workers p !! w) as [[|j|]|]; try done.
  - by destruct (last (pl_queue p)); simpl; rewrite length_insert.
  - by destruct (let! r := do_job j in _); simpl; rewrite length_insert.
Qed.

Lemma pool_step_gone p v w : pl_workers p !! w = Some Gone -> pl_workers (pool_step do_job p v) !! w = Some Gone.
Proof.
  intros H. destruct (decide (v = w)) as [->|Hne]; [unfold pool_step; by rewrite H|].
  unfold pool_step. destruct (pl_workers p !! v) as [[|j|]|]; try done.
  - by destruct (last (pl_queue p)); simpl; rewrite list_lookup_insert_ne.
  - by destruct (let! r := do_job j in _); simpl; rewrite list_lookup_insert_ne.
Qed.

Lemma weight_zero (ws : list worker) w : (w < length ws)%nat -> sum_list (map weight ws) = 0%nat -> ws !! w = Some Gone.
Proof.
  revert w. induction ws as [|s ws IH]; intros w Hw H; simpl in *; [lia|].
  destruct s; simpl in H; try lia. destruct w as [|w]; [done|]. apply IH; lia.
Qed.

Lemma run_pool_gone schedule : forall p w, (w < length (pl_workers p))%nat ->
  pl_workers p !! w = Some Gone \/ (potential p <= count_occ Nat.eq_dec schedule w)%nat ->
  pl_workers (run_pool do_job schedule p) !! w = Some Gone.
Proof.
  induction schedule as [|v schedule IH]; intros p w Hw H; simpl.
  - destruct H as [?|H]; [done|]. apply weight_zero; [done|]. unfold potential in H. simpl in H. lia.
  - apply IH; [by rewrite pool_step_workers|]. destruct H as [H|H]; [left; by apply pool_step_gone|].
    simpl in H. destruct (pool_step_progress p v) as [[-> Hv]|Hlt].
    + destruct (Nat.eq_dec v w) as [->|]; [|by right]. left. destruct Hv as [?|Hv]; [done|].
      apply lookup_ge_None in Hv. lia.
    + right. destruct (Nat.eq_dec v w); lia.
Qed.

Lemma potential_initial threads q : potential (initial_pool threads q) = (3 * length q + threads)%nat.
Proof.
  unfold potential, initial_pool. simpl. f_equal. induction threads as [|t IH]; simpl; [done|]. by rewrite IH.
Qed.

Lemma run_pool_workers schedule : forall p, length (pl_workers (run_pool do_job schedule p)) = length (pl_workers p).
Proof.
  unfold run_pool. induction schedule as [|v schedule IH]; intros p; simpl; [done|]. by rewrite IH, pool_step_workers.
Qed.

(** Under a fair schedule all threads end. *)
Lemma fair_all_gone threads q schedule : fair threads q schedule ->
  all_gone (run_pool do_job schedule (initial_pool threads q)) = true.
Proof.
  intros Hf. unfold all_gone. apply forallb_forall. intros s Hs. apply list_elem_of_In, list_elem_of_lookup in Hs as [w Hw].
  assert (w < threads)%nat as Hlt.
  { apply lookup_lt_Some in Hw. rewrite run_pool_workers in Hw. simpl in Hw. by rewrite length_replicate in Hw. }
  rewrite (run_pool_gone schedule (initial_pool threads q) w) in Hw.
  - by injection Hw as <-.
  - simpl. by rewrite length_replicate.
  - right. rewrite potential_initial. by apply Hf.
Qed.

(** ** Results *)

Section results.
Context (q : list job) (Hnum : numbered q).

(** What holds of the shared data between steps: items are taken from the end,
    and results that are there are those of the items. *)
Record sound_pool (p : Pool) : Prop := {
  sp_queue : exists m, pl_queue p = take m q /\ (m <= length q)%nat /\
    forall w j, pl_workers p !! w = Some (Busy j) -> exists k, (m <= k)%nat /\ q !! k = Some j;
  sp_length : length (pl_patches p) = length q;
  sp_results : forall k r, pl_patches p !! k = Some (Some r) -> exists j, q !! k = Some j /\ do_job j = Ok r
}.

(** When no item fails, an item that was taken is done or being worked on, and
    threads end only once the queue is empty. *)
Record full_pool (p : Pool) : Prop := {
  fp_done : forall k j, (length (pl_queue p) <= k)%nat -> q !! k = Some j ->
    (exists r, pl_patches p !! k = Some (Some r)) \/ exists w, pl_workers p !! w = Some (Busy j);
  fp_gone : forall w, pl_workers p !! w = Some Gone -> pl_queue p = []
}.

Lemma job_place k j : q !! k = Some j -> (k < length q)%nat /\ j.2 = Z.of_nat k.
Proof. intros H. split; [by eapply lookup_lt_Some|by apply Hnum]. Qed.

Lemma take_last m j : (m <= length q)%nat -> last (take m q) = Some j ->
  (0 < m)%nat /\ q !! (m - 1)%nat = Some j /\ removelast (take m q) = take (m - 1) q.
Proof.
  intros Hm H. destruct m as [|m]; [done|]. replace (S m - 1)%nat with m by lia.
  assert (is_Some (q !! m)) as [j' Hj] by (apply lookup_lt_is_Some; lia).
  rewrite (take_S_r _ _ _ Hj) in *. rewrite last_snoc in H. injection H as ->. rewrite removelast_last. split; [lia|done].
Qed.

Lemma py_set_place p k j r : sound_pool p -> q !! k = Some j ->
  py_set (pl_patches p) j.2 (Some r) = Ok (<[k := Some r]> (pl_patches p)).
Proof.
  intros [_ Hlen _] Hk. destruct (job_place k j Hk) as [Hlt ->]. rewrite py_set_nonneg by lia.
  by rewrite Nat2Z.id.
Qed.

Lemma pool_step_sound p w : sound_pool p -> sound_pool (pool_step do_job p w).
Proof.
  intros Hp. pose proof Hp as [(m & Hq & Hm & Hb) Hlen Hr]. unfold pool_step.
  destruct (pl_workers p !! w) as [[|j|]|] eqn:E; [| |done|done].
  - destruct (last (pl_queue p)) as [j|] eqn:El; [|split; simpl; [|done|done]].
    + rewrite Hq in El. destruct (take_last m j Hm El) as (Hm0 & Hj & Hrem).
      split; simpl; [|done|done]. exists (m - 1)%nat. rewrite Hq, Hrem. split_and!; [done|lia|].
      intros v j' [[-> [[= <-] _]]|[_ Hv]]%list_lookup_insert_Some; [by exists (m - 1)%nat|].
      destruct (Hb v j' Hv) as (k & ? & ?). exists k. split; [lia|done].
    + exists m. split_and!; [done..|]. intros v j' [[_ [? _]]|[_ Hv]]%list_lookup_insert_Some; [done|by eapply Hb].
  - destruct (Hb w j E) as (k & Hmk & Hk).
    assert (forall s, (forall j', s <> Busy j') -> forall v j', <[w := s]> (pl_workers p) !! v = Some (Busy j') ->
      exists k, (m <= k)%nat /\ q !! k = Some j') as Hb'.
    { intros s Hs v j' [[_ [? _]]|[_ Hv]]%list_lookup_insert_Some; [by destruct (Hs j')|by eapply Hb]. }
    destruct (do_job j) as [r|] eqn:Ej; [rewrite (py_set_place p k j r Hp Hk)|]; (split; simpl; [exists m; split_and!; [done|done|by apply Hb']| |]).
    + by rewrite length_insert.
    + intros k' r' [[-> [[= ->] _]]|[_ Hk']]%list_lookup_insert_Some; [by exists j|by apply Hr].
    + done.
    + done.
Qed.

Lemma pool_step_full p w : (forall j, j ∈ q -> exists r, do_job j = Ok r) ->
  sound_pool p -> full_pool p -> full_pool (pool_step do_job p w).
Proof.
  intros Hok Hp [Hd Hg]. pose proof Hp as [(m & Hq & Hm & Hb) Hlen Hr]. unfold pool_step.
  destruct (pl_workers p !! w) as [[|j|]|] eqn:E; [| |by split|by split].
  - pose proof (lookup_lt_Some _ _ _ E) as Hw.
    destruct (last (pl_queue p)) as [j|] eqn:El; split; simpl.
    + rewrite Hq in El. destruct (take_last m j Hm El) as (Hm0 & Hj & Hrem). rewrite Hq, Hrem.
      intros k j' Hk Hj'. rewrite length_take_le in Hk by lia. destruct (decide (k = m - 1)%nat) as [->|Hne].
      * right. exists w. rewrite list_lookup_insert_eq by done. congruence.
      * destruct (Hd k j') as [?|[v Hv]]; [rewrite Hq, length_take_le by lia; lia|done|by left|].
        right. exists v. rewrite list_lookup_insert_ne; [done|]. intros ->. congruence.
    + intros v [[_ [? _]]|[_ Hv]]%list_lookup_insert_Some; [done|]. by rewrite (Hg v Hv).
    + intros k j' Hk Hj'. destruct (Hd k j' Hk Hj') as [?|[v Hv]]; [by left|]. right. exists v.
      rewrite list_lookup_insert_ne; [done|]. intros ->. congruence.
    + intros _ _. by apply last_None.
  - destruct (Hb w j E) as (k & Hmk & Hk). pose proof (lookup_lt_Some _ _ _ E) as Hw.
    destruct (Hok j) as [r Hj]; [by eapply list_elem_of_lookup_2|]. rewrite Hj, (py_set_place p k j r Hp Hk). split; simpl.
    + intros k' j' Hk' Hj'. destruct (decide (k' = k)) as [->|Hne].
      { left. exists r. rewrite list_lookup_insert_eq; [done|]. rewrite Hlen. by destruct (job_place k j Hk). }
      rewrite list_lookup_insert_ne by done. destruct (Hd k' j' Hk' Hj') as [?|[v Hv]]; [by left|].
      right. exists v. rewrite list_lookup_insert_ne; [done|]. intros <-. rewrite E in Hv. injection Hv as <-.
      destruct (job_place k j Hk), (job_place k' j Hj'). lia.
    + intros v [[_ [? _]]|[_ Hv]]%list_lookup_insert_Some; [done|by apply (Hg v)].
Qed.

Lemma initial_sound threads : sound_pool (initial_pool threads q).
Proof.
  split; simpl; [|by rewrite length_replicate|].
  - exists (length q). rewrite take_ge by done. split_and!; [done..|]. intros w j [? ?]%lookup_replicate. done.
  - intros k r [? ?]%lookup_replicate. done.
Qed.

Lemma run_pool_sound schedule : forall p, sound_pool p -> sound_pool (run_pool do_job schedule p).
Proof.
  unfold run_pool. induction schedule as [|w schedule IH]; intros p Hp; simpl; [done|]. by apply IH, pool_step_sound.
Qed.

Lemma run_pool_full schedule : (forall j, j ∈ q -> exists r, do_job j = Ok r) ->
  forall p, sound_pool p -> full_pool p -> full_pool (run_pool do_job schedule p).
Proof.
  intros Hok. unfold run_pool. induction schedule as [|w schedule IH]; intros p Hp Hf; simpl; [done|].
  apply IH; [by apply pool_step_sound|by apply pool_step_full].
Qed.

(** All results are there when the threads have ended. *)
Lemma run_pool_ok threads schedule : (0 < threads)%nat -> (forall j, j ∈ q -> exists r, do_job j = Ok r) ->
  all_gone (run_pool do_job schedule (initial_pool threads q)) = true ->
  exists rs, pl_patches (run_pool do_job schedule (initial_pool threads q)) = map Some rs /\
    Forall2 (fun j r => do_job j = Ok r) q rs.
Proof.
  intros Ht Hok Hgone. set (p := run_pool do_job schedule (initial_pool threads q)) in *.
  pose proof (run_pool_sound schedule _ (initial_sound threads)) as Hs. fold p in Hs.
  assert (full_pool p) as [Hd Hg].
  { apply run_pool_full; [done|apply initial_sound|]. split; simpl.
    - intros k j Hk Hj. apply lookup_lt_Some in Hj. lia.
    - intros w [? ?]%lookup_replicate. done. }
  assert (forall w s, pl_workers p !! w = Some s -> s = Gone) as Hall.
  { intros w s Hw. unfold all_gone in Hgone. rewrite forallb_forall in Hgone.
    specialize (Hgone s). destruct s; try done; exfalso; by discriminate Hgone; apply list_elem_of_In, (list_elem_of_lookup_2 _ w). }
  destruct Hs as [_ Hlen Hr].
  assert (pl_queue p = []) as Hq.
  { assert (is_Some (pl_workers p !! 0%nat)) as [s H0].
    { apply lookup_lt_is_Some. unfold p. rewrite run_pool_workers. simpl. by rewrite length_replicate. }
    apply (Hg 0%nat). by rewrite H0, (Hall _ _ H0). }
  assert (forall k j, q !! k = Some j -> exists r, pl_patches p !! k = Some (Some r) /\ do_job j = Ok r) as Hres.
  { intros k j Hj. destruct (Hd k j) as [[r Hk]|[w Hw]]; [rewrite Hq; simpl; lia|done| |by apply Hall in Hw].
    exists r. split; [done|]. apply Hr in Hk as (j' & Hj' & ?). congruence. }
  clearbody p. revert Hlen Hres. generalize (pl_patches p) as l. clear. revert q. clear.
  induction q as [|j q IH]; intros [|o l] Hlen Hres; try done; [by exists []|].
  destruct (Hres 0%nat j eq_refl) as (r & [= ->] & Hr).
  destruct (IH l) as (rs & -> & Hf); [by injection Hlen|intros k; apply (Hres (S k))|].
  exists (r :: rs). split; [done|by constructor].
Qed.

(** An item that fails leaves no result. *)
Lemma run_pool_failed threads schedule k j e : q !! k = Some j -> do_job j = Raise e ->
  pl_patches (run_pool do_job schedule (initial_pool threads q)) !! k = Some None.
Proof.
  intros Hk Hj. destruct (run_pool_sound schedule _ (initial_sound threads)) as [_ Hlen Hr].
  destruct (pl_patches (run_pool do_job schedule (initial_pool threads q)) !! k) as [[r|]|] eqn:E; [|done|].
  - apply Hr in E as (j' & ? & ?). congruence.
  - apply lookup_ge_None in E. apply lookup_lt_Some in Hk. lia.
Qed.
End results.
End pool.

(** What [Compute] relies on: the diff tools and zlib succeed, compressed data is
    not empty, and the threads are run until they end. *)
Record tools_ok (e : Env) : Prop := {
  tl_threads : (0 < threads e)%nat;
  tl_fair : forall q, fair (threads e) q (schedule e q);
  tl_diff : forall b s t, exists c, run_diff e b s t = Some c;
  tl_deflate : forall d, exists n, deflate e d = Some n /\ 0 < n
}.

Section patches.
Context (e : Env) (tgt src : Image) (Htools : tools_ok e).

(** The patch of a transfer: the one it has, or that of a diff tool. *)
Definition patch_of (x : Transfer) (use_imgdiff : bool) (info : PatchInfo) : Prop :=
  match patch_info x with
  | Some p => info = p
  | None => run_diff e use_imgdiff (ReadRangeSet src (src_ranges x)) (ReadRangeSet tgt (tgt_ranges x)) =
              Some (content info) /\ imgdiff info = use_imgdiff
  end.

Definition result_of (compress : bool) (ts : list tid) (st : store) (j : job) (r : patch_result) : Prop :=
  exists i, py_get ts j.1.1 = Ok i /\ r.1.1 = j.1.1 /\ patch_of (st !!! i) j.1.2 r.1.2 /\
    (compress = true -> exists n, r.2 = Some n /\ 0 < n).

Lemma diff_job_ok compress ts st j i : py_get ts j.1.1 = Ok i ->
  exists r, diff_job tgt src (run_diff e) (deflate e) compress st ts j = Ok r /\ result_of compress ts st j r.
Proof.
  destruct j as [[z b] p]. simpl. intros Hi. unfold diff_job, result_of, patch_of. simpl. rewrite Hi.
  destruct (patch_info (st !!! i)) as [info|] eqn:Ep.
  - destruct compress; [|eexists; split; [done|]; exists i; by rewrite Ep].
    destruct (tl_deflate e Htools (ReadRangeSet tgt (tgt_ranges (st !!! i)))) as (n & -> & Hn).
    eexists; split; [done|]. exists i. rewrite Ep. split_and!; try done. intros _. by exists n.
  - unfold compute_patch.
    destruct (tl_diff e Htools b (ReadRangeSet src (src_ranges (st !!! i))) (ReadRangeSet tgt (tgt_ranges (st !!! i)))) as [c Hc].
    rewrite Hc. destruct compress; [|eexists; split; [done|]; exists i; rewrite Ep; split_and!; done].
    destruct (tl_deflate e Htools (ReadRangeSet tgt (tgt_ranges (st !!! i)))) as (n & -> & Hn).
    eexists; split; [done|]. exists i. rewrite Ep. split_and!; try done. intros _. by exists n.
Qed.

Lemma patches_for_ok compress ts st q : numbered q -> (forall j, j ∈ q -> exists i, py_get ts j.1.1 = Ok i) ->
  exists rs, patches_for e tgt src compress ts st q = Ok (map Some rs) /\ Forall2 (result_of compress ts st) q rs.
Proof.
  intros Hnum Hidx. unfold patches_for, ComputePatchesForInputList.
  destruct q as [|j0 q0] eqn:Eq; [by exists []|]. rewrite <- Eq in *. clear j0 q0 Eq.
  rewrite fair_all_gone by apply Htools.
  assert (forall j, j ∈ q -> exists r, diff_job tgt src (run_diff e) (deflate e) compress st ts j = Ok r /\ result_of compress ts st j r) as Hj.
  { intros j Hin. destruct (Hidx j Hin) as [i Hi]. by eapply diff_job_ok. }
  destruct (run_pool_ok (diff_job tgt src (run_diff e) (deflate e) compress st ts) q Hnum (threads e) (schedule e q))
    as (rs & -> & Hrs); [apply Htools| |by apply fair_all_gone, Htools|].
  { intros j Hin. destruct (Hj j Hin) as (r & ? & _). by exists r. }
  exists rs. split; [done|]. clear Hnum Hidx. induction Hrs as [|j r q rs Hr Hrs IH]; constructor.
  - destruct (Hj j) as (r' & Hr' & Hres); [by left|]. congruence.
  - apply IH. intros j' Hin. apply Hj. by right.
Qed.

(** ** The first loop *)

Definition needs_patch (x : Transfer) : bool := String.eqb (style x) "diff" && negb (String.eqb (src_sha1 x) (tgt_sha1 x)).

Definition kind (x : Transfer) : bool :=
  match patch_info x with
  | Some p => imgdiff p
  | None => imgdiff_usable (disable_imgdiff e) (tgt_name x) (tgt_ranges x) (src_ranges x)
  end.

(** The transfer as the first loop leaves it. *)
Definition finalize (x : Transfer) : Transfer :=
  if String.eqb (style x) "diff" then
    if String.eqb (src_sha1 x) (tgt_sha1 x) then put_patch_info None (set_style "move" x)
    else set_style (if kind x then "imgdiff" else "bsdiff") x
  else x.

Lemma map_snd_enumerate ts : map snd (enumerate ts) = ts.
Proof.
  unfold enumerate.
  assert (forall (f : nat -> tid -> Z * tid), (forall k i, snd (f k i) = i) -> map snd (imap f ts) = ts) as Hid; [|by apply Hid].
  induction ts as [|x l IH]; intros f Hf; simpl; [done|]. rewrite Hf. f_equal. apply IH. intros k j. apply Hf.
Qed.

Lemma enumerate_split ts pre z i post : enumerate ts = pre ++ (z, i) :: post ->
  ts = map snd pre ++ i :: map snd post /\ z = Z.of_nat (length pre) /\ ts !! length pre = Some i.
Proof.
  intros H. split; [by rewrite <- (map_snd_enumerate ts), H, map_app|].
  assert (enumerate ts !! length pre = Some (z, i)) as Hl by by rewrite H, list_lookup_middle.
  unfold enumerate in Hl. rewrite list_lookup_imap in Hl. destruct (ts !! length pre) as [j|]; [|done].
  simpl in Hl. by injection Hl as <- <-.
Qed.

(** The data of the "new" transfers, in order. *)
Definition new_data (st : store) (l : list tid) : string :=
  str_join "" (map (fun i => ReadRangeSet tgt (tgt_ranges (st !!! i)))
    (filter (fun i => style (st !!! i) = "new") l)).

(** The queue for the transfers [l]. *)
Record queued (st : store) (l : list tid) (q : list job) : Prop := {
  qd_num : numbered q;
  qd_nd : NoDup (map (fun j => j.1.1) q);
  qd_in : forall j, j ∈ q -> exists k i, l !! k = Some i /\ j.1 = (Z.of_nat k, kind (st !!! i)) /\ needs_patch (st !!! i) = true;
  qd_all : forall k i, l !! k = Some i -> needs_patch (st !!! i) = true ->
    exists j, j ∈ q /\ j.1 = (Z.of_nat k, kind (st !!! i))
}.

Lemma queued_skip st l q i : queued st l q -> needs_patch (st !!! i) = false -> queued st (l ++ [i]) q.
Proof.
  intros [Q1 Q2 Q3 Q4] Hi. split; [done|done| |].
  - intros j Hj. destruct (Q3 j Hj) as (k & i' & Hk & ?). exists k, i'. split; [by apply lookup_app_l_Some|done].
  - intros k i' [Hk|[Hk Hi']]%lookup_app_Some Hn; [by apply Q4|].
    destruct (k - length l)%nat; [|done]. simpl in Hi'. injection Hi' as <-. congruence.
Qed.

Lemma queued_snoc st l q i : queued st l q -> needs_patch (st !!! i) = true ->
  queued st (l ++ [i]) (q ++ [(Z.of_nat (length l), kind (st !!! i), Z.of_nat (length q))]).
Proof.
  intros [Q1 Q2 Q3 Q4] Hi. split; [by apply numbered_snoc| | |].
  - rewrite map_app. apply NoDup_app. split_and!; [done| |apply NoDup_singleton]. simpl.
    intros z Hz Hz'%list_elem_of_singleton. apply list_elem_of_In, in_map_iff in Hz as (j & <- & Hj).
    apply list_elem_of_In in Hj. destruct (Q3 j Hj) as (k & i' & Hk & Ej & _). rewrite Ej in Hz'. simpl in Hz'.
    apply lookup_lt_Some in Hk. lia.
  - intros j [Hj|Hj%list_elem_of_singleton]%elem_of_app.
    + destruct (Q3 j Hj) as (k & i' & Hk & ?). exists k, i'. split; [by apply lookup_app_l_Some|done].
    + subst j. exists (length l), i. split; [by rewrite list_lookup_middle|done].
  - intros k i' [Hk|[Hk Hi']]%lookup_app_Some Hn.
    + destruct (Q4 k i' Hk Hn) as (j & Hj & Ej). exists j. split; [|done]. apply elem_of_app. by left.
    + destruct (k - length l)%nat eqn:E; [|done]. simpl in Hi'. injection Hi' as <-.
      eexists. split; [apply elem_of_app; right; by left|]. simpl. do 2 f_equal. lia.
Qed.

(** The state after the transfers [l]. *)
Record patching (st : store) (l : list tid) (c : PatchState) : Prop := {
  pg_store : forall i, ps_store c !!! i = if decide (i ∈ l) then finalize (st !!! i) else st !!! i;
  pg_new : ps_new c = new_data st l;
  pg_queue : queued st l (ps_queue c)
}.

Lemma new_data_snoc st l i : new_data st (l ++ [i]) =
  if decide (style (st !!! i) = "new") then new_data st l +:+ ReadRangeSet tgt (tgt_ranges (st !!! i)) else new_data st l.
Proof.
  unfold new_data. rewrite filter_app, map_app, str_concat_app. unfold filter at 2. simpl.
  case_decide; simpl; [done|by rewrite str_app_nil_r].
Qed.

Lemma patch_one_ok st l c i : patching st l c -> i ∉ l ->
  style (st !!! i) = "zero" \/ style (st !!! i) = "new" \/ style (st !!! i) = "diff" ->
  exists c', patch_one tgt (disable_imgdiff e) c (Z.of_nat (length l), i) = Ok c' /\ patching st (l ++ [i]) c'.
Proof.
  intros [P1 P2 P3] Hi Hsty. unfold patch_one. rewrite (P1 i), decide_False by done.
  assert (forall st' : store, (forall j, st' !!! j = if decide (j = i) then finalize (st !!! i) else ps_store c !!! j) ->
    forall j, st' !!! j = if decide (j ∈ l ++ [i]) then finalize (st !!! j) else st !!! j) as Hst.
  { intros st' Hst' j. rewrite Hst', P1. destruct (decide (j = i)) as [->|Hne].
    - rewrite decide_True; [done|]. rewrite elem_of_app. right; by left.
    - destruct (decide (j ∈ l)); [rewrite decide_True; [done|]; rewrite elem_of_app; by left|].
      rewrite decide_False; [done|]. rewrite elem_of_app, list_elem_of_singleton. tauto. }
  assert (style (st !!! i) <> "diff" -> forall j, ps_store c !!! j = if decide (j = i) then finalize (st !!! i) else ps_store c !!! j) as Hsame.
  { intros Hne j. case_decide; [|done]. subst j. unfold finalize. rewrite (proj2 (String.eqb_neq _ _) Hne).
    by rewrite P1, decide_False. }
  destruct Hsty as [E|[E|E]]; rewrite E; simpl.
  - eexists. split; [done|]. split; [|by rewrite new_data_snoc, E|].
    + apply Hst, Hsame. by rewrite E.
    + apply queued_skip; [done|]. unfold needs_patch. by rewrite E.
  - eexists. split; [done|]. split; simpl; [|by rewrite new_data_snoc, E, P2|].
    + apply Hst, Hsame. by rewrite E.
    + apply queued_skip; [done|]. unfold needs_patch. by rewrite E.
  - destruct (String.eqb (src_sha1 (st !!! i)) (tgt_sha1 (st !!! i))) eqn:Es.
    + eexists. split; [done|]. split; simpl; [|by rewrite new_data_snoc, E|].
      * apply Hst. intros j. rewrite !lookup_total_upd. destruct (decide (i = j)) as [<-|]; [|by rewrite decide_False].
        rewrite !decide_True, P1, decide_False by done. unfold finalize. by rewrite E, Es.
      * apply queued_skip; [done|]. unfold needs_patch. by rewrite E, Es.
    + rewrite CanUseImgdiff_ok. unfold kind.
      assert (needs_patch (st !!! i) = true) as Hn by (unfold needs_patch; by rewrite E, Es).
      pose proof (queued_snoc st l _ i P3 Hn) as Hq. unfold kind in Hq.
      assert (forall b, b = kind (st !!! i) -> forall j,
        upd i (set_style (if b then "imgdiff" else "bsdiff")) (ps_store c) !!! j =
        if decide (j = i) then finalize (st !!! i) else ps_store c !!! j) as Hupd.
      { intros b -> j. rewrite lookup_total_upd. destruct (decide (i = j)) as [<-|]; [|by rewrite decide_False].
        rewrite decide_True, P1, decide_False by done. unfold finalize. by rewrite E, Es. }
      unfold kind in Hupd.
      destruct (patch_info (st !!! i)) as [info|]; (eexists; split; [done|]);
        (split; simpl; [apply Hst, Hupd; reflexivity|by rewrite new_data_snoc, E|done]).
Qed.

Lemma patch_loop_ok st ts stats : NoDup ts ->
  (forall i, i ∈ ts -> style (st !!! i) = "zero" \/ style (st !!! i) = "new" \/ style (st !!! i) = "diff") ->
  exists c, foldM (patch_one tgt (disable_imgdiff e)) (mkPatchState st stats "" []) (enumerate ts) = Ok c /\ patching st ts c.
Proof.
  intros Hnd Hsty.
  destruct (foldM_ok (fun pre c => patching st (map snd pre) c) (patch_one tgt (disable_imgdiff e))
    (mkPatchState st stats "" []) (enumerate ts)) as (c & Hc & Hp).
  - split; simpl; [done|done|]. split; [by intros k j|apply NoDup_nil_2|by intros j ?%elem_of_nil|by intros k i].
  - intros pre [z i] post c Hl Hp. destruct (enumerate_split _ _ _ _ _ Hl) as (Hts & -> & _).
    destruct (patch_one_ok st (map snd pre) c i Hp) as (c' & Hc' & Hp').
    + rewrite Hts in Hnd. apply NoDup_app in Hnd as (_ & Hd & _). intros Hin. apply (Hd i Hin). by left.
    + apply Hsty. rewrite Hts, elem_of_app. right; by left.
    + exists c'. rewrite length_map in Hc'. split; [done|]. by rewrite map_app.
  - exists c. split; [done|]. by rewrite map_snd_enumerate in Hp.
Qed.
(** ** The second loop *)

(** [c] is the part of [dat] from [start] of length [len]. *)
Definition sliced (dat : string) (start len : Z) (c : string) : Prop :=
  exists p q, dat = p +:+ c +:+ q /\ start = str_len p /\ len = str_len c.

Lemma sliced_app dat x start len c : sliced dat start len c -> sliced (dat +:+ x) start len c.
Proof. intros (p & q & -> & H). exists p, (q +:+ x). by rewrite !str_app_assoc. Qed.

(** A transfer without its place in the patch file. *)
Definition nopos (x : Transfer) : Transfer := set_patch_pos 0 0 x.

Lemma nopos_field {A} (g : Transfer -> A) x y : (forall z a l, g (set_patch_pos a l z) = g z) -> nopos x = nopos y -> g x = g y.
Proof. intros Hg H. rewrite <- (Hg x 0 0), <- (Hg y 0 0). unfold nopos in H. by rewrite H. Qed.

Definition contents (l : list (option patch_result)) : list string :=
  map (fun o => match o with Some r => content r.1.2 | None => "" end) l.

(** The state after the results [l]. *)
Definition placing (ts : list tid) (st0 : store) (l : list (option patch_result)) (acc : store * Z * string) : Prop :=
  let '(st, offset, dat) := acc in
  offset = str_len dat /\ dat = str_join "" (contents l) /\ same_on nopos st0 st /\
  forall r i, Some r ∈ l -> py_get ts r.1.1 = Ok i ->
    sliced dat (patch_start (st !!! i)) (patch_len (st !!! i)) (content r.1.2).

Lemma py_get_inj (ts : list tid) k k' i : NoDup ts -> py_get ts (Z.of_nat k) = Ok i -> py_get ts (Z.of_nat k') = Ok i -> k = k'.
Proof.
  assert (forall n, py_get ts (Z.of_nat n) = Ok i -> ts !! n = Some i) as Hget.
  { intros n. unfold py_get, py_idx. destruct (Z.ltb_spec (Z.of_nat n) 0); [lia|].
    repeat case_match; try done; simplify_eq; try lia. rewrite Nat2Z.id. by destruct (ts !! n) as [x|]; [intros [= ->]|]. }
  intros Hnd H1%Hget H2%Hget. by eapply NoDup_lookup.
Qed.

Lemma place_patch_ok ts st0 l acc r k i : NoDup ts -> placing ts st0 l acc ->
  r.1.1 = Z.of_nat k -> py_get ts r.1.1 = Ok i -> 0 < size (tgt_ranges (st0 !!! i)) ->
  (forall r', Some r' ∈ l -> exists k', r'.1.1 = Z.of_nat k' /\ k' <> k) ->
  exists acc', place_patch ts acc (Some r) = Ok acc' /\ placing ts st0 (l ++ [Some r]) acc'.
Proof.
  intros Hnd Hp Hk Hi Hsz Hne. destruct acc as [[st off] dat], r as [[z info] cs]. simpl in *. subst z.
  destruct Hp as (-> & Hdat & Hsame & Hsl). rewrite Hi.
  assert (tgt_ranges (upd i (set_patch_pos (str_len dat) (str_len (content info))) st !!! i) = tgt_ranges (st0 !!! i)) as ->.
  { rewrite upd_field by setter. symmetry. apply nopos_field; [setter|]. symmetry. apply Hsame. }
  unfold float_div_count. destruct (Z.eqb_spec (size (tgt_ranges (st0 !!! i))) 0); [lia|].
  eexists. split; [done|]. split_and!.
  - by rewrite str_len_app.
  - unfold contents. rewrite map_app, str_concat_app, Hdat. done.
  - intros j. rewrite lookup_total_upd. case_decide; [subst j|apply Hsame]. rewrite <- Hsame. by destruct (st !!! i).
  - intros r' i' [Hr|[= ->]%list_elem_of_singleton]%elem_of_app Hi'.
    + apply sliced_app. destruct (Hne r' Hr) as (k' & Ek & Hkk).
      rewrite lookup_total_upd_ne; [by apply Hsl|]. intros ->. apply Hkk. rewrite Ek in Hi'. by eapply py_get_inj.
    + simpl in Hi'. rewrite Hi in Hi'. injection Hi' as <-. rewrite lookup_total_upd_eq. destruct (st !!! i). simpl.
      exists dat, "". by rewrite str_app_nil_r.
Qed.

Lemma place_loop_ok ts st rs : NoDup ts -> NoDup (map (fun r : patch_result => r.1.1) rs) ->
  (forall r, r ∈ rs -> exists k i, r.1.1 = Z.of_nat k /\ py_get ts r.1.1 = Ok i /\ 0 < size (tgt_ranges (st !!! i))) ->
  exists acc, foldM (place_patch ts) (st, 0, "") (map Some rs) = Ok acc /\ placing ts st (map Some rs) acc.
Proof.
  intros Hnd Hnr Hr. apply foldM_ok; [by split_and!; try done; intros r i ?%elem_of_nil|].
  intros pre o post acc Hl Hp.
  assert (exists r0, o = Some r0) as [r0 ->].
  { assert (o ∈ map Some rs) as Ho by (rewrite Hl, elem_of_app; right; by left).
    apply list_elem_of_In, in_map_iff in Ho as (r & <- & _). by exists r. }
  assert (forall r, Some r ∈ map Some rs -> r ∈ rs) as Hin.
  { intros r Hs. apply list_elem_of_In, in_map_iff in Hs as (r' & [= ->] & ?). by apply list_elem_of_In. }
  destruct (Hr r0) as (k & i & Hk & Hi & Hsz); [apply Hin; rewrite Hl, elem_of_app; right; by left|].
  apply (place_patch_ok ts st pre acc r0 k i); try done.
  intros r' Hr'. destruct (Hr r') as (k' & i' & Hk' & _); [apply Hin; rewrite Hl, elem_of_app; by left|].
  exists k'. split; [done|]. intros ->.
  assert (map (fun o => match o with Some r => r.1.1 | None => 0 end) (map Some rs) = map (fun r : patch_result => r.1.1) rs) as Em
    by (rewrite map_map; done).
  rewrite <- Em, Hl, map_app in Hnr. apply NoDup_app in Hnr as (_ & Hd & _). apply (Hd (r'.1.1)).
  - apply list_elem_of_In. apply (in_map (fun o => match o with Some r => r.1.1 | None => 0 end) pre (Some r')). by apply list_elem_of_In.
  - simpl. rewrite Hk', <- Hk. by left.
Qed.

(** ** [ComputePatches] *)

Lemma finalize_ranges x : tgt_ranges (finalize x) = tgt_ranges x /\ src_ranges (finalize x) = src_ranges x /\
  stash_before (finalize x) = stash_before x /\ use_stash (finalize x) = use_stash x.
Proof. unfold finalize. destruct (String.eqb (style x) "diff"), (String.eqb (src_sha1 x) (tgt_sha1 x)); by destruct x. Qed.

Lemma finalize_needs x : needs_patch x = true -> finalize x = set_style (if kind x then "imgdiff" else "bsdiff") x.
Proof. unfold needs_patch, finalize. intros [-> ->%negb_true_iff]%andb_true_iff. done. Qed.

Lemma ComputePatches_ok s stats : let st := sq_store s in let ts := sq_transfers s in
  NoDup ts -> (forall i, i ∈ ts -> 0 < size (tgt_ranges (st !!! i))) ->
  (forall i, i ∈ ts -> style (st !!! i) = "zero" \/ style (st !!! i) = "new" \/ style (st !!! i) = "diff") ->
  exists st' stats' rs, ComputePatches tgt (disable_imgdiff e) (patches_for e tgt src false ts) s stats =
      Ok (mkSeq st' ts, stats', new_data st ts, str_join "" (contents rs)) /\
    (forall i, nopos (st' !!! i) = nopos (if decide (i ∈ ts) then finalize (st !!! i) else st !!! i)) /\
    (forall i, i ∈ ts -> needs_patch (st !!! i) = true -> exists info, patch_of (st !!! i) (kind (st !!! i)) info /\
       sliced (str_join "" (contents rs)) (patch_start (st' !!! i)) (patch_len (st' !!! i)) (content info)).
Proof.
  intros st ts Hnd Hsz Hsty. unfold ComputePatches. fold st ts.
  destruct (patch_loop_ok st ts stats Hnd Hsty) as (c & -> & [C1 C2 [Q1 Q2 Q3 Q4]]).
  assert (forall j, j ∈ ps_queue c -> exists k i, ts !! k = Some i /\ j.1 = (Z.of_nat k, kind (st !!! i)) /\
    needs_patch (st !!! i) = true /\ py_get ts j.1.1 = Ok i) as Hq.
  { intros j Hj. destruct (Q3 j Hj) as (k & i & Hk & Ej & Hn). exists k, i. split_and!; try done.
    rewrite Ej. apply py_get_nonneg; [simpl; lia|]. simpl. by rewrite Nat2Z.id. }
  destruct (patches_for_ok false ts (ps_store c) (ps_queue c) Q1) as (rs & -> & Hrs).
  { intros j Hj. destruct (Hq j Hj) as (k & i & _ & _ & _ & ?). by exists i. }
  assert (map (fun r : patch_result => r.1.1) rs = map (fun j : job => j.1.1) (ps_queue c)) as Hidx.
  { clear -Hrs. induction Hrs as [|j r q rs (i & _ & Hr & _) _ IH]; simpl; [done|]. by rewrite Hr, IH. }
  destruct (place_loop_ok ts (ps_store c) rs Hnd) as ([[st' off] dat] & -> & Hoff & -> & Hsame & Hsl).
  { by rewrite Hidx. }
  { intros r Hr. apply list_elem_of_lookup in Hr as [n Hn]. destruct (Forall2_lookup_r _ _ _ _ _ Hrs Hn) as (j & Hj & i & Hi & Hz & _).
    apply list_elem_of_lookup_2 in Hj. destruct (Hq j Hj) as (k & i' & Hk & Ej & _ & Hi').
    exists k, i. rewrite Hz, Ej in *. split_and!; [done|done|]. rewrite C1.
    assert (i ∈ ts) as Hin by (rewrite Hi in Hi'; injection Hi' as ->; by eapply list_elem_of_lookup_2).
    rewrite decide_True by done. destruct (finalize_ranges (st !!! i)) as [-> _]. by apply Hsz. }
  eexists st', _, (map Some rs). rewrite C2. split; [done|]. split.
  - intros i. by rewrite <- C1, (Hsame i).
  - intros i Hi Hn. apply list_elem_of_lookup in Hi as [k Hk].
    destruct (Q4 k i Hk Hn) as (j & Hj & Ej). apply list_elem_of_lookup in Hj as [n Hjn].
    destruct (Forall2_lookup_l _ _ _ _ _ Hrs Hjn) as (r & Hr & i' & Hi' & Hz & Hp & _).
    assert (i' = i) as ->.
    { rewrite Ej in Hi'. rewrite (py_get_nonneg ts _ i) in Hi'; [by injection Hi'|simpl; lia|]. simpl. by rewrite Nat2Z.id. }
    assert (i ∈ ts) as Hin by by eapply list_elem_of_lookup_2.
    exists r.1.2. rewrite Ej in Hp. simpl in Hp. split.
    + rewrite C1, decide_True, finalize_needs in Hp by done. revert Hp. unfold patch_of. by destruct (st !!! i).
    + apply Hsl; [|by rewrite Hz]. apply list_elem_of_In, in_map, list_elem_of_In. by eapply list_elem_of_lookup_2.
Qed.
End patches.
