(* ===== verification/UpdaterText.v ===== *)
(** The updater that executes a transfer list: it reads the text of the file,
    one command a line, and works on a device with a store for stashes, the data
    of .new.dat, read from the start to the end, and the patches of .patch.dat.
    The commands and their words are those [WriteTransfers] documents; a command
    whose words, hashes, data or stash space are not in order fails.

    The second part has the lemmas about such runs: a list of strings that is
    written command by command is executed command by command. *)

From S2P Require Export ComputeFacts.

#[local] Open Scope string_scope.
#[local] Open Scope list_scope.
#[local] Open Scope Z_scope.

(** * Data in blocks *)

Fixpoint zeros (n : nat) : string := match n with O => "" | S n' => String "000" (zeros n') end.
Definition zero_block (bs : Z) : string := zeros (Z.to_nat bs).

Definition slice (start len : Z) (data : string) : string := String.substring (Z.to_nat start) (Z.to_nat len) data.

(** The data of the blocks [l]. *)
Definition read_blocks (dev : Z -> string) (l : list Z) : string := str_join "" (map dev l).

(** The blocks [l] overwritten with [data]. *)
Definition write_blocks (bs : Z) (l : list Z) (data : string) (dev : Z -> string) : Z -> string := fun b =>
  match list_find (fun c => c = b) l with
  | Some (k, _) => slice (Z.of_nat k * bs) bs data
  | None => dev b
  end.

(** The blocks [l], each with the content [f] gives it. *)
Definition set_blocks (l : list Z) (f : Z -> string) (dev : Z -> string) : Z -> string := fun b =>
  if decide (b ∈ l) then f b else dev b.

(** The blocks a word like [2,10,14] stands for: the number of boundaries, then
    the boundaries. *)
Definition read_ranges (t : string) : result (list Z) :=
  let! nums := mapM py_int (split_char "," t) in
  match nums with
  | n :: l =>
      if (0 <? n) && (n =? Z.of_nat (length l)) && Nat.even (length l)
      then Ok (flat_map (fun p => zrange p.1 p.2) (pairs l)) else Raise ValueError
  | [] => Raise ValueError
  end.

(** * The machine *)

Record UState := mkU {
  u_dev : Z -> string;                (* the device *)
  u_saved : list (string * string);   (* the stashes, by hash *)
  u_pos : Z;                          (* the place in the new data *)
  u_written : Z                       (* the blocks written so far *)
}.

Definition block_count (l : list Z) : Z := Z.of_nat (length l).

Section updater.
Context (bs : Z) (sha1 : string -> string) (apply_patch : bool -> string -> string -> string).
Context (new_dat patch_dat : string).
(* what a block holds after it was erased *)
Context (discarded : Z -> string).

(** The blocks the stashes take. *)
Definition used (saved : list (string * string)) : Z := sumZ (map (fun s => str_len s.2 / bs) saved).

Section room.
(* the stash space, in blocks *)
Context (room : Z).

(** "new <rangeset>" *)
Definition run_new (u : UState) (raw : string) : result UState :=
  let! l := read_ranges raw in
  let n := block_count l * bs in
  if u_pos u + n <=? str_len new_dat then
    Ok (mkU (write_blocks bs l (slice (u_pos u) n new_dat) (u_dev u)) (u_saved u) (u_pos u + n)
          (u_written u + block_count l))
  else Raise ValueError.

(** "zero <rangeset>" *)
Definition run_zero (u : UState) (raw : string) : result UState :=
  let! l := read_ranges raw in
  Ok (mkU (set_blocks l (fun _ => zero_block bs) (u_dev u)) (u_saved u) (u_pos u) (u_written u + block_count l)).

(** "erase <rangeset>" *)
Definition run_erase (u : UState) (raw : string) : result UState :=
  let! l := read_ranges raw in
  Ok (mkU (set_blocks l discarded (u_dev u)) (u_saved u) (u_pos u) (u_written u)).

(** "stash <hash> <rangeset>": there has to be room for it. *)
Definition run_stash (u : UState) (id raw : string) : result UState :=
  let! l := read_ranges raw in
  let data := read_blocks (u_dev u) l in
  let saved := od_set id data (u_saved u) in
  if String.eqb (sha1 data) id && (used saved <=? room)
  then Ok (mkU (u_dev u) saved (u_pos u) (u_written u)) else Raise ValueError.

(** "free <hash>" *)
Definition run_free (u : UState) (id : string) : result UState :=
  let! saved := od_del id (u_saved u) in
  Ok (mkU (u_dev u) saved (u_pos u) (u_written u)).

(** A stash "<hash>:<rangeset>" is put in its places of the source data. *)
Definition load_use (saved : list (string * string)) (buf : Z -> string) (use : string) : result (Z -> string) :=
  match split_char ":" use with
  | [id; raw] =>
      let! l := read_ranges raw in
      let! data := of_option KeyError (od_get id saved) in
      Ok (write_blocks bs l data buf)
  | _ => Raise ValueError
  end.

(** "<# blocks> <src ranges>", "<# blocks> <src ranges> <src locs> <stash refs...>"
    or "<# blocks> - <stash refs...>": the blocks that are read from the device,
    and the source data. *)
Definition load_source (u : UState) (ws : list string) : result (list Z * string) :=
  match ws with
  | n :: from :: rest =>
      let! n := py_int n in
      let! (l, buf) :=
        if String.eqb from "-" then
          let! buf := foldM (load_use (u_saved u)) (fun _ => "") rest in Ok ([], buf)
        else
          let! l := read_ranges from in
          let! locs := match rest with [] => Ok (zrange 0 (block_count l)) | locs :: _ => read_ranges locs end in
          let! buf := foldM (load_use (u_saved u))
                        (write_blocks bs locs (read_blocks (u_dev u) l) (fun _ => "")) (tail rest) in
          Ok (l, buf) in
      Ok (l, read_blocks buf (zrange 0 n))
  | _ => Raise ValueError
  end.

(** The target of a command is written once its data has the right hash.  A
    source that overlaps the target is stashed meanwhile. *)
Definition write_target (u : UState) (from : list Z) (source data raw hash : string) : result UState :=
  let! l := read_ranges raw in
  let overlap := existsb (fun b => bool_decide (b ∈ l)) from in
  if (str_len data =? block_count l * bs) && String.eqb (sha1 data) hash &&
     (negb overlap || (used (u_saved u) + str_len source / bs <=? room))
  then Ok (mkU (write_blocks bs l data (u_dev u)) (u_saved u) (u_pos u) (u_written u + block_count l))
  else Raise ValueError.

(** "move hash <tgt rangeset> <src_str>" *)
Definition run_move (u : UState) (hash raw : string) (src_str : list string) : result UState :=
  let! (from, data) := load_source u src_str in write_target u from data data raw hash.

(** "bsdiff patchstart patchlen srchash tgthash <tgt rangeset> <src_str>" *)
Definition run_patch (use_imgdiff : bool) (u : UState) (start len srchash tgthash raw : string) (src_str : list string)
  : result UState :=
  let! start := py_int start in
  let! len := py_int len in
  let! (from, source) := load_source u src_str in
  if String.eqb (sha1 source) srchash && (start + len <=? str_len patch_dat)
  then write_target u from source (apply_patch use_imgdiff (slice start len patch_dat) source) raw tgthash
  else Raise ValueError.

(** The words of a line. *)
Definition run_words (u : UState) (ws : list string) : result UState :=
  match ws with
  | cmd :: args =>
      if String.eqb cmd "new" then match args with [raw] => run_new u raw | _ => Raise ValueError end
      else if String.eqb cmd "zero" then match args with [raw] => run_zero u raw | _ => Raise ValueError end
      else if String.eqb cmd "erase" then match args with [raw] => run_erase u raw | _ => Raise ValueError end
      else if String.eqb cmd "stash" then match args with [id; raw] => run_stash u id raw | _ => Raise ValueError end
      else if String.eqb cmd "free" then match args with [id] => run_free u id | _ => Raise ValueError end
      else if String.eqb cmd "move" then
        match args with hash :: raw :: src_str => run_move u hash raw src_str | _ => Raise ValueError end
      else if String.eqb cmd "bsdiff" || String.eqb cmd "imgdiff" then
        match args with
        | start :: len :: srchash :: tgthash :: raw :: src_str =>
            run_patch (String.eqb cmd "imgdiff") u start len srchash tgthash raw src_str
        | _ => Raise ValueError
        end
      else Raise ValueError
  | [] => Raise ValueError
  end.
End room.

(** The lines of a file, each ended by a newline. *)
Definition text_lines (text : string) : list string := removelast (split_char newline text).

(** A whole transfer list: the version, the number of blocks that are written,
    the number of stash slots, which is not used, the stash space, and the
    commands. *)
Definition run_text (text : string) (dev : Z -> string) : result UState :=
  match text_lines text with
  | version :: total :: _ :: room :: commands =>
      let! version := py_int version in
      let! total := py_int total in
      let! room := py_int room in
      if (3 <=? version) && (version <=? 4) then
        let! u := foldM (fun u line => run_words room u (split_char " " line)) (mkU dev [] 0 0) commands in
        if u_written u =? total then Ok u else Raise ValueError
      else Raise ValueError
  | _ => Raise ValueError
  end.
End updater.

(** * Blocks and data *)

Lemma slice_sliced dat start len c : sliced dat start len c -> slice start len dat = c.
Proof. intros (p & q & -> & -> & ->). unfold slice, str_len. rewrite !Nat2Z.id. apply substring_app. Qed.

Lemma sliced_bound dat start len c : sliced dat start len c -> 0 <= start /\ 0 <= len /\ start + len <= str_len dat.
Proof.
  intros (p & q & -> & -> & ->). rewrite !str_len_app.
  pose proof (str_len_nonneg p). pose proof (str_len_nonneg c). pose proof (str_len_nonneg q). lia.
Qed.

(** A slice of joined data is the slices of its parts. *)
Lemma sliced_split dat start c1 c2 : sliced dat start (str_len (c1 +:+ c2)) (c1 +:+ c2) ->
  sliced dat start (str_len c1) c1 /\ sliced dat (start + str_len c1) (str_len c2) c2.
Proof.
  intros (p & q & -> & -> & _). split.
  - exists p, (c2 +:+ q). split_and!; [by rewrite str_app_assoc|done|done].
  - exists (p +:+ c1), q. split_and!; [by rewrite !str_app_assoc|by rewrite str_len_app|done].
Qed.

Section blocks.
Context (bs : Z).

Lemma read_blocks_len (f : Z -> string) l : (forall b, str_len (f b) = bs) -> str_len (read_blocks f l) = block_count l * bs.
Proof.
  intros Hf. unfold read_blocks, block_count. induction l as [|b l IH]; [done|]. cbn [map length].
  rewrite str_concat_cons, str_len_app, Hf, IH. lia.
Qed.

Lemma read_blocks_app f l1 l2 : read_blocks f (l1 ++ l2) = read_blocks f l1 +:+ read_blocks f l2.
Proof. unfold read_blocks. by rewrite map_app, str_concat_app. Qed.

Lemma read_blocks_ext f g l : (forall b, b ∈ l -> f b = g b) -> read_blocks f l = read_blocks g l.
Proof. intros H. unfold read_blocks. f_equal. apply map_ext_in. intros b Hb. by apply H, list_elem_of_In. Qed.

(** Data of blocks written to places: the place of a block has the block. *)
Lemma write_blocks_at (f : Z -> string) l l' dev k b c : (forall d, str_len (f d) = bs) -> NoDup l' ->
  l !! k = Some b -> l' !! k = Some c -> write_blocks bs l' (read_blocks f l) dev c = f b.
Proof.
  intros Hf Hnd Hb Hc. unfold write_blocks.
  destruct (list_find (fun d => d = c) l') as [[k' d]|] eqn:E.
  - apply list_find_Some in E as (Hk & -> & _). pose proof (NoDup_lookup _ _ _ _ Hnd Hk Hc) as ->. apply slice_sliced.
    exists (read_blocks f (take k l)), (read_blocks f (drop (S k) l)). rewrite Hf. split; [|split; [|done]].
    + rewrite <- (take_drop_middle _ _ _ Hb) at 1. rewrite read_blocks_app. f_equal. apply str_concat_cons.
    + rewrite read_blocks_len by done. unfold block_count. rewrite length_take_le; [done|]. apply lookup_lt_Some in Hb. lia.
  - apply list_find_None in E. rewrite list.Forall_forall in E. destruct (E c); [by eapply list_elem_of_lookup_2|done].
Qed.

Lemma write_blocks_in (f : Z -> string) l dev b : (forall d, str_len (f d) = bs) -> NoDup l -> b ∈ l ->
  write_blocks bs l (read_blocks f l) dev b = f b.
Proof. intros Hf Hnd [k Hk]%list_elem_of_lookup. by eapply write_blocks_at. Qed.

Lemma write_blocks_out l data dev b : b ∉ l -> write_blocks bs l data dev b = dev b.
Proof.
  intros Hb. unfold write_blocks. destruct (list_find (fun d => d = b) l) as [[k d]|] eqn:E; [|done].
  apply list_find_Some in E as (Hk & -> & _). by destruct Hb; eapply list_elem_of_lookup_2.
Qed.

(** What is written is what the blocks have afterwards. *)
Lemma write_blocks_spec (f : Z -> string) l dev b : (forall d, str_len (f d) = bs) -> NoDup l ->
  write_blocks bs l (read_blocks f l) dev b = set_blocks l f dev b.
Proof.
  intros Hf Hnd. unfold set_blocks. case_decide; [by apply write_blocks_in|by apply write_blocks_out].
Qed.

(** Equal data has equal blocks. *)
Lemma read_blocks_inj (f g : Z -> string) l b : (forall d, str_len (f d) = bs) -> (forall d, str_len (g d) = bs) -> NoDup l ->
  read_blocks f l = read_blocks g l -> b ∈ l -> f b = g b.
Proof.
  intros Hf Hg Hnd E Hb. rewrite <- (write_blocks_in f l f b Hf Hnd Hb), <- (write_blocks_in g l f b Hg Hnd Hb). by rewrite E.
Qed.
End blocks.

(** * Words *)

(** No space, newline or colon. *)
Definition plain (s : string) : Prop := has_char " " s = false /\ has_char newline s = false /\ has_char ":" s = false.
(** No space or newline. *)
Definition word (s : string) : Prop := has_char " " s = false /\ has_char newline s = false.

Lemma plain_word s : plain s -> word s.
Proof. by intros (? & ? & _). Qed.

Lemma word_app s t : word s -> word t -> word (s +:+ t).
Proof. intros [H1 H2] [H3 H4]. split; by rewrite has_char_app, ?H1, ?H2, ?H3, ?H4. Qed.

Lemma plain_app s t : plain s -> plain t -> plain (s +:+ t).
Proof. intros (H1 & H2 & H3) (H4 & H5 & H6). split_and!; by rewrite has_char_app, ?H1, ?H2, ?H3, ?H4, ?H5, ?H6. Qed.

Lemma digit_plain c : is_digit c = true -> Ascii.eqb c " " = false /\ Ascii.eqb c newline = false /\ Ascii.eqb c ":" = false.
Proof.
  intros H. split_and!; apply Ascii.eqb_neq; intros ->; vm_compute in H; discriminate H.
Qed.

Lemma plain_num n : 0 <= n -> plain (py_str n).
Proof.
  intros Hn. pose proof (py_str_digits n Hn) as H.
  split_and!; rewrite has_char_forallb; apply negb_false_iff; (eapply str_forallb_impl; [|exact H]);
    intros c Hc; destruct (digit_plain c Hc) as (H1 & H2 & H3); by rewrite ?H1, ?H2, ?H3.
Qed.

Lemma has_char_join c l : has_char c "," = false -> Forall (fun s => has_char c s = false) l -> has_char c (str_join "," l) = false.
Proof.
  intros Hc. induction 1 as [|x l Hx Hl IH]; [done|]. destruct l as [|y l]; [done|].
  change (str_join "," (x :: y :: l)) with (x +:+ "," +:+ str_join "," (y :: l)). by rewrite !has_char_app, Hx, Hc, IH.
Qed.

(** The word for a range set is read as its blocks. *)
Lemma read_ranges_raw r t : wf r -> nonneg r -> to_string_raw r = Ok t -> read_ranges t = Ok (next_item r) /\ plain t.
Proof.
  intros Hw Hn Ht. pose proof (nonneg_data r Hw Hn) as Hd. destruct Hw as [Hs He].
  unfold to_string_raw, rs_bool in Ht. unfold next_item, items. destruct (rs_data r) as [|p l] eqn:Ed; [done|].
  set (n := Z.of_nat (length (p :: l))) in *.
  assert (t = str_join "," (map py_str (n :: p :: l))) as -> by by injection Ht as <-.
  assert (Forall (Z.le 0) (n :: p :: l)) as Hd' by (constructor; [lia|done]). split.
  - unfold read_ranges. rewrite split_char_join; [|done|].
    2: { apply Forall_map. eapply (Forall_impl _ _ _ Hd'). simpl. intros k Hk. by destruct (py_str_token k Hk) as (_ & _ & ? & _). }
    assert (mapM py_int (map py_str (n :: p :: l)) = Ok (n :: p :: l)) as ->.
    { clear -Hd'. induction Hd' as [|k l' Hk _ IH]; [done|]. cbn [map mapM]. by rewrite py_int_str, IH by done. }
    cbv iota beta. rewrite Z.eqb_refl, He. assert (0 <? n = true) as -> by (apply Z.ltb_lt; unfold n; simpl; lia).
    simpl. f_equal. apply flat_map_ext. by intros [].
  - unfold plain. split_and!; apply has_char_join; try done; apply Forall_map; eapply (Forall_impl _ _ _ Hd'); simpl; intros k Hk;
      by destruct (plain_num k Hk) as (? & ? & ?).
Qed.

Lemma size_count r : wf r -> block_count (next_item r) = size r.
Proof. intros Hr. unfold block_count. by rewrite size_items. Qed.

(** * Runs of written commands *)

(** A command of plain words. *)
Definition clean (ws : list string) : Prop := ws <> [] /\ Forall word ws.

Lemma clean_line ws : clean ws -> has_char newline (str_join " " ws) = false /\ split_char " " (str_join " " ws) = ws.
Proof.
  intros [Hne Hw]. split.
  - clear Hne. induction Hw as [|x l Hx Hl IH]; [done|]. destruct l as [|y l]; [apply Hx|].
    change (str_join " " (x :: y :: l)) with (x +:+ " " +:+ str_join " " (y :: l)).
    rewrite !has_char_app, IH. by rewrite (proj2 Hx).
  - apply split_char_join; [done|]. eapply Forall_impl; [exact Hw|]. by intros s [? _].
Qed.

Section runs.
Context {U : Type} (run : U -> list string -> result U).

(** The strings [out] are the commands that lead from [u0] to [u]. *)
Definition ran (u0 : U) (out : list string) (u : U) : Prop :=
  exists cs, str_join "" out = str_join "" (map words cs) /\ Forall clean cs /\ foldM run u0 cs = Ok u.

Lemma ran_nil u : ran u [] u.
Proof. by exists []. Qed.

Lemma ran_app u1 u2 u3 o1 o2 : ran u1 o1 u2 -> ran u2 o2 u3 -> ran u1 (o1 ++ o2) u3.
Proof.
  intros (c1 & E1 & H1 & R1) (c2 & E2 & H2 & R2). exists (c1 ++ c2). split_and!.
  - by rewrite map_app, !str_concat_app, E1, E2.
  - by apply Forall_app.
  - by rewrite foldM_app, R1.
Qed.

Lemma ran_one u ws u' : clean ws -> run u ws = Ok u' -> ran u [words ws] u'.
Proof. intros Hc Hr. exists [ws]. split_and!; [done|by constructor|]. simpl. by rewrite Hr. Qed.

Lemma ran_snoc u0 out u ws u' : ran u0 out u -> clean ws -> run u ws = Ok u' -> ran u0 (out ++ [words ws]) u'.
Proof. intros H1 H2 H3. eapply ran_app; [exact H1|by apply ran_one]. Qed.

(** Several commands in one string. *)

Lemma ran_concat u out u' : ran u out u' -> ran u [str_join "" out] u'.
Proof. intros (cs & E & H). exists cs. split; [|done]. simpl. exact E. Qed.

(** The lines of such strings. *)
Lemma ran_lines u out u' : ran u out u' -> forall head, Forall (fun s => has_char newline s = false) head ->
  exists ls, text_lines (str_join "" (map end_line head ++ out)) = head ++ ls /\
    foldM (fun u line => run u (split_char " " line)) u ls = Ok u'.
Proof.
  intros (cs & E & Hc & Hr) head Hh. exists (map (str_join " ") cs).
  assert (map words cs = map end_line (map (str_join " ") cs)) as Ew by (by rewrite map_map).
  rewrite str_concat_app, E, Ew, <- str_concat_app, <- map_app. split.
  - unfold text_lines. rewrite split_lines; [by rewrite removelast_last|]. apply Forall_app. split; [done|].
    apply Forall_map. eapply Forall_impl; [exact Hc|]. intros ws Hws. by apply clean_line.
  - clear -Hr Hc. revert u Hr. induction Hc as [|ws cs Hws Hcs IH]; intros u Hr; [done|]. cbn [map foldM] in *.
    rewrite (proj2 (clean_line ws Hws)). inv_ok. by apply IH.
Qed.
End runs.
