(* ===== verification/UpdaterFacts.v ===== *)
(** The updater of UpdaterText.v on the lines [WriteTransfers] writes: every
    command finds its stashes, source data, patch and stash space, and writes the
    target of its transfer. *)

From S2P Require Export UpdaterText.

#[local] Open Scope string_scope.
#[local] Open Scope list_scope.
#[local] Open Scope Z_scope.

(** * The index of a block *)

Lemma map_rank_items a l : wf a -> StronglySorted Z.lt l -> (forall x, x ∈ l -> x ∈ a) ->
  StronglySorted Z.lt (map (rank (rs_data a)) l).
Proof.
  intros Ha. induction 1 as [|x l Hl IH Hx]; intros Hin; simpl; constructor.
  - apply IH. intros y Hy. apply Hin. by right.
  - apply Forall_map. apply list.Forall_forall. intros y Hy. rewrite list.Forall_forall in Hx.
    apply rank_lt; [done|apply Hin; by left|by apply Hx].
Qed.

Lemma ranks_range a : wf a -> map (rank (rs_data a)) (next_item a) = zrange 0 (size a).
Proof.
  intros Ha. apply StronglySorted_lt_unique.
  - apply map_rank_items; [done|by apply items_sorted|]. intros x. by apply elem_of_next_item.
  - apply zrange_sorted.
  - intros x. by rewrite (ranks_perm a Ha).
Qed.

Lemma map_within_items a b r : wf a -> wf b -> (forall x, x ∈ b -> x ∈ a) -> map_within a b = Ok r ->
  wf r /\ nonneg r /\ next_item r = map (rank (rs_data a)) (next_item b).
Proof.
  intros Ha Hb Hsub E. destruct (map_within_ok a b Ha Hb Hsub) as (r' & E' & Hw & Hr). rewrite E in E'. injection E' as <-.
  split_and!; [done| |].
  - intros y (x & Hx & <-)%Hr. by apply (rank_range a Ha x), Hsub.
  - apply StronglySorted_lt_unique; [by apply items_sorted| |].
    + apply map_rank_items; [done|by apply items_sorted|]. intros x ?%elem_of_next_item; [by apply Hsub|done].
    + intros y. rewrite elem_of_next_item, Hr by done. split.
      * intros (x & Hx & <-). apply (list_elem_of_fmap_2 (rank (rs_data a))). by apply elem_of_next_item.
      * intros (x & -> & Hx)%list_elem_of_fmap. exists x. by rewrite <- elem_of_next_item.
Qed.

Lemma nonneg_sub a b : nonneg a -> (forall x, x ∈ b -> x ∈ a) -> nonneg b.
Proof. intros Ha H x Hx. by apply Ha, H. Qed.

(** ** Keys *)

Section keys.
Context {V W : Type}.
Implicit Types (d : list (string * V)) (m : list (string * W)).

Lemma od_keys_set_eq k v d : od_keys (od_set k v d) = if decide (k ∈ od_keys d) then od_keys d else od_keys d ++ [k].
Proof.
  unfold od_keys. induction d as [|[k' v'] d IH]; simpl.
  - done.
  - destruct (decide (k = k')) as [->|Hne]; simpl.
    + rewrite decide_True; [done|by left].
    + rewrite IH. destruct (decide (k ∈ map fst d)) as [H|H].
      * rewrite decide_True; [done|by right].
      * rewrite decide_False; [done|]. by intros [?|?]%elem_of_cons.
Qed.

Lemma od_keys_remove_eq k d m : od_keys d = od_keys m -> od_keys (od_remove k d) = od_keys (od_remove k m).
Proof.
  revert m. induction d as [|[k' v'] d IH]; intros [|[k2 v2] m]; try done. simpl. intros [= -> H].
  case_decide; [done|]. simpl. f_equal. by apply IH.
Qed.
End keys.

Lemma od_remove_sub {V} k (d : list (string * V)) s : s ∈ od_remove k d -> s ∈ d.
Proof.
  induction d as [|[k' v'] d IH]; simpl; [done|]. case_decide; [by right|].
  intros [->|Hs]%elem_of_cons; [by left|right; by apply IH].
Qed.

Lemma elem_of_od_set {V} k v (d : list (string * V)) s : s ∈ od_set k v d -> s ∈ d \/ s.2 = v /\ s.1 = k.
Proof.
  induction d as [|[k' v'] d IH]; simpl.
  - intros ->%list_elem_of_singleton. by right.
  - case_decide.
    + intros [->|H']%elem_of_cons; [by right; subst|left; by right].
    + intros [->|[?|?]%IH]%elem_of_cons; [left; by left|left; by right|by right].
Qed.

(** * Effects of commands on the machine *)

(** The blocks [l] have the contents [f], and the place in the new data has moved
    by [adv]. *)
Record effect (l : list Z) (f : Z -> string) (adv : Z) (u u' : UState) : Prop := {
  ef_dev : forall b, u_dev u' b = set_blocks l f (u_dev u) b;
  ef_saved : u_saved u' = u_saved u;
  ef_pos : u_pos u' = u_pos u + adv;
  ef_written : u_written u' = u_written u + block_count l
}.

Lemma effect_nil f u : effect [] f 0 u u.
Proof. split; [|done|lia|unfold block_count; simpl; lia]. intros b. unfold set_blocks. rewrite decide_False by apply not_elem_of_nil. done. Qed.

Lemma effect_app l1 l2 f a1 a2 u1 u2 u3 : effect l1 f a1 u1 u2 -> effect l2 f a2 u2 u3 -> effect (l1 ++ l2) f (a1 + a2) u1 u3.
Proof.
  intros [D1 S1 P1 W1] [D2 S2 P2 W2]. split; [|congruence|lia|].
  - intros b. rewrite D2. unfold set_blocks. rewrite D1. unfold set_blocks. pose proof (elem_of_app l1 l2 b).
    repeat case_decide; tauto || done.
  - unfold block_count in *. rewrite length_app. lia.
Qed.

Section updater.
Context (bs : Z) (Hbs : 0 < bs) (sha1 unsha1 : string -> string) (Hinv : forall d, unsha1 (sha1 d) = d) (Hplain : forall d, plain (sha1 d)).
Context (apply_patch : bool -> string -> string -> string) (new_dat patch_dat : string) (discarded : Z -> string) (room : Z).
Context (tblk sblk : Z -> string) (Ht_len : forall b, str_len (tblk b) = bs) (Hs_len : forall b, str_len (sblk b) = bs).

Let run : UState -> list string -> result UState := run_words bs sha1 apply_patch new_dat patch_dat discarded room.
Let rd (blk : Z -> string) (r : RangeSet) : string := read_blocks blk (next_item r).

(** ** Split commands *)

Section split.
Context (sty : string) (Hsty : word sty) (f : Z -> string) (adv : Z) (good : UState -> list Z -> Prop).
Context (Hone : forall u q raw, wf q -> nonneg q -> to_string_raw q = Ok raw -> good u (next_item q) ->
  exists u', run u [sty; raw] = Ok u' /\ effect (next_item q) f (adv * size q) u u').
Context (Hsplit : forall u q l2, wf q -> good u (next_item q ++ l2) ->
  good u (next_item q) /\ forall u', effect (next_item q) f (adv * size q) u u' -> good u' l2).

Lemma split_loop_ran fuel : forall r total out n out' u0 u, wf r -> nonneg r -> good u (next_item r) ->
  split_loop fuel sty r total out = Ok (n, out') -> ran run u0 out u ->
  exists u', ran run u0 out' u' /\ effect (next_item r) f (adv * size r) u u'.
Proof.
  induction fuel as [|fuel IH]; intros r total out n out' u0 u Hw Hn Hg E Hran; cbn [split_loop] in E.
  - destruct (rs_bool r) eqn:Er; [done|]. injection E as <- <-. exists u. split; [done|].
    unfold rs_bool in Er. unfold next_item, size. destruct (rs_data r); [|done]. simpl. rewrite Z.mul_0_r. apply effect_nil.
  - destruct (rs_bool r) eqn:Er.
    + destruct (first_rest r 1024 Hw) as (q & d & Eq & Ed & Hwq & Hwd & Hiq & Hid); [lia|]. rewrite Eq in E.
      destruct (to_string_raw q) as [raw|] eqn:Eraw; [|done]. rewrite Ed in E.
      assert (next_item r = next_item q ++ next_item d) as Eqd by (by rewrite Hiq, Hid, take_drop).
      assert (forall x, x ∈ q \/ x ∈ d -> x ∈ r) as Hsub.
      { intros x. rewrite <- !elem_of_next_item by done. rewrite Eqd, elem_of_app. tauto. }
      assert (nonneg q) as Hnq by (apply (nonneg_sub r); auto). assert (nonneg d) as Hnd by (apply (nonneg_sub r); auto).
      rewrite Eqd in Hg. destruct (Hsplit u q (next_item d) Hwq Hg) as [Hg1 Hg2].
      destruct (Hone u q raw Hwq Hnq Eraw Hg1) as (u1 & Hr1 & He1).
      destruct (read_ranges_raw q raw Hwq Hnq Eraw) as [_ Hpr].
      destruct (IH d _ _ n out' u0 u1 Hwd Hnd (Hg2 u1 He1) E) as (u2 & Hran2 & He2).
      { apply (ran_snoc run u0 out u [sty; raw]); [done| |done]. split; [done|].
        constructor; [done|]. constructor; [by apply plain_word|constructor]. }
      exists u2. split; [done|]. rewrite Eqd.
      assert (size r = size q + size d) as -> by (rewrite <- !size_count by done; unfold block_count; rewrite Eqd, length_app; lia).
      rewrite Z.mul_add_distr_l. by eapply effect_app.
    + injection E as <- <-. exists u. split; [done|].
      unfold rs_bool in Er. unfold next_item, size. destruct (rs_data r); [|done]. simpl. rewrite Z.mul_0_r. apply effect_nil.
Qed.

Lemma WriteSplit_ran r out n out' u0 u : wf r -> nonneg r -> good u (next_item r) ->
  WriteSplitTransfers sty r out = Ok (n, out') -> ran run u0 out u ->
  exists u', ran run u0 out' u' /\ effect (next_item r) f (adv * size r) u u'.
Proof. intros Hw Hn Hg E Hran. unfold WriteSplitTransfers in E. destruct (_ || _); [|done]. by eapply split_loop_ran. Qed.
End split.

(** "new" commands for [r]: the data is next in the file. *)
Lemma write_new_ran r out n out' u0 u : wf r -> nonneg r -> sliced new_dat (u_pos u) (size r * bs) (rd tblk r) ->
  WriteSplitTransfers "new" r out = Ok (n, out') -> ran run u0 out u ->
  exists u', ran run u0 out' u' /\ effect (next_item r) tblk (bs * size r) u u'.
Proof.
  intros Hw Hn Hs. apply WriteSplit_ran with
    (good := fun u l => sliced new_dat (u_pos u) (str_len (read_blocks tblk l)) (read_blocks tblk l)); try done.
  - intros v q raw Hwq Hnq Hraw Hg. destruct (read_ranges_raw q raw Hwq Hnq Hraw) as [Er _].
    unfold run, run_words, run_new. simpl. rewrite Er.
    rewrite (read_blocks_len bs) in Hg by done. destruct (sliced_bound _ _ _ _ Hg) as (_ & _ & Hle).
    rewrite (slice_sliced _ _ _ _ Hg). destruct (Z.leb_spec (u_pos v + block_count (next_item q) * bs) (str_len new_dat)); [|lia].
    eexists. split; [done|]. split; simpl; try done.
    + intros b. apply write_blocks_spec; [done|by apply NoDup_next_item].
    + rewrite size_count by done. lia.
  - intros v q l2 Hwq Hg. rewrite read_blocks_app in Hg. apply sliced_split in Hg as [Hg1 Hg2]. split; [done|].
    intros v' [_ _ -> _]. rewrite (read_blocks_len bs), size_count in Hg2 by done. by rewrite Z.mul_comm.
  - rewrite (read_blocks_len bs), size_count by done. exact Hs.
Qed.

(** "zero" commands for [r]. *)
Lemma write_zero_ran r out n out' u0 u : wf r -> nonneg r ->
  WriteSplitTransfers "zero" r out = Ok (n, out') -> ran run u0 out u ->
  exists u', ran run u0 out' u' /\ effect (next_item r) (fun _ => zero_block bs) 0 u u'.
Proof.
  intros Hw Hn E Hran. change 0 with (0 * size r). revert E Hran. apply WriteSplit_ran with (good := fun _ _ => True); try done.
  intros v q raw Hwq Hnq Hraw _. destruct (read_ranges_raw q raw Hwq Hnq Hraw) as [Er _].
  unfold run, run_words, run_zero. simpl. rewrite Er. eexists. split; [done|]. split; simpl; try done. lia.
Qed.

(** An "erase" command. *)
Lemma erase_ran r lines u : wf r -> nonneg r -> erase_line r = Ok lines ->
  exists u', ran run u lines u' /\ (forall b, u_dev u' b = if decide (b ∈ r) then discarded b else u_dev u b) /\
    u_saved u' = u_saved u /\ u_pos u' = u_pos u /\ u_written u' = u_written u.
Proof.
  intros Hw Hn E. unfold erase_line in E. destruct (rs_bool r) eqn:Er.
  - destruct (to_string_raw r) as [raw|] eqn:Eraw; [|done]. injection E as <-.
    destruct (read_ranges_raw r raw Hw Hn Eraw) as [Erd Hp]. eexists. split; [apply ran_one; [|unfold run, run_words, run_erase; simpl; rewrite Erd; done]|].
    + split; [done|]. constructor; [done|]. constructor; [by apply plain_word|constructor].
    + simpl. split_and!; try done. intros b. unfold set_blocks. repeat case_decide; try done; rewrite elem_of_next_item in *; done.
  - injection E as <-. exists u. split_and!; [apply ran_nil| |done..]. intros b. rewrite decide_False; [done|].
    intros Hb. assert (rs_bool r = true); [|congruence]. apply rs_bool_spec; eauto.
Qed.

(** ** Stashes *)

Context (hsize : string -> Z) (Hhs : forall sh, 0 <= hsize sh) (Hhsize : forall d, hsize (sha1 d) = str_len d / bs).
Context (src : Image) (Hsha : forall r, wf r -> RangeSha1 src r = sha1 (rd sblk r)).

(** The stashes of the machine are the slots of the writer, each with data of
    its hash. *)
Definition saved_is {W} (saved : list (string * string)) (m : list (string * W)) : Prop :=
  od_keys saved = od_keys m /\ forall s, s ∈ saved -> sha1 s.2 = s.1.

Lemma used_total {W} saved (m : list (string * W)) : saved_is saved m -> used bs saved = total_size hsize (od_keys m).
Proof.
  intros [<- Hd]. unfold used, total_size, od_keys. rewrite map_map. f_equal. apply map_ext_in. intros s Hs%list_elem_of_In.
  by rewrite <- (Hd s Hs), Hhsize.
Qed.

Lemma saved_data {W} saved (m : list (string * W)) r : saved_is saved m -> wf r -> RangeSha1 src r ∈ od_keys m ->
  od_get (RangeSha1 src r) saved = Some (rd sblk r).
Proof.
  intros [Hk Hd] Hr Hin. rewrite <- Hk in Hin. apply od_get_is_Some in Hin as [d Hg]. rewrite Hg. f_equal.
  pose proof (Hd _ (od_get_In _ _ _ Hg)) as E. simpl in E. rewrite Hsha in E by done.
  by rewrite <- (Hinv d), E, Hinv.
Qed.

Lemma write_stash_ran w w' s u0 u : write_stash src w s = Ok w' -> ran run u0 (w_out w) u ->
  saved_is (u_saved u) (w_stashes w) -> wf s.2 -> nonneg s.2 -> wf (w_touched w) ->
  ((forall b, b ∈ s.2 -> b ∈ w_touched w') -> forall b, b ∈ s.2 -> u_dev u b = sblk b) ->
  total_size hsize (od_keys (w_stashes w')) <= room ->
  exists u', ran run u0 (w_out w') u' /\ saved_is (u_saved u') (w_stashes w') /\
    u_dev u' = u_dev u /\ u_pos u' = u_pos u /\ u_written u' = u_written u.
Proof.
  intros E Hran Hsv Hw Hn Hwt Hdev Hroom. destruct Hsv as [Hk Hd]. unfold write_stash in E.
  destruct (od_get (RangeSha1 src s.2) (w_stashes w)) as [c|] eqn:Eg.
  - injection E as <-. exists u. split_and!; [done| |done..]. split; [|done]. simpl.
    rewrite od_keys_set_eq, decide_True by (by eapply od_get_Some_key). exact Hk.
  - destruct (union (w_touched w) s.2) as [t|] eqn:Et; [|done]. destruct (to_string_raw s.2) as [raw|] eqn:Eraw; [|done].
    injection E as <-. simpl in *. destruct (read_ranges_raw _ _ Hw Hn Eraw) as [Er Hp].
    destruct (union_inv _ _ _ Hwt Hw Et) as [_ Hin].
    assert (read_blocks (u_dev u) (next_item s.2) = rd sblk s.2) as Edata.
    { apply read_blocks_ext. intros b Hb. apply Hdev; [|by apply elem_of_next_item in Hb]. intros c Hc. apply Hin. by right. }
    apply od_get_None in Eg.
    assert (saved_is (od_set (RangeSha1 src s.2) (rd sblk s.2) (u_saved u)) (od_set (RangeSha1 src s.2) 1 (w_stashes w))) as Hsv'.
    { split.
      - rewrite !od_keys_set_eq, Hk. done.
      - intros x [Hx|[-> ->]]%elem_of_od_set; [by apply Hd|]. by rewrite Hsha. }
    exists (mkU (u_dev u) (od_set (RangeSha1 src s.2) (rd sblk s.2) (u_saved u)) (u_pos u) (u_written u)).
    split_and!; [|exact Hsv'|done..].
    apply (ran_snoc run u0 (w_out w) u ["stash"; RangeSha1 src s.2; raw]); [done| |].
    + split; [done|]. constructor; [done|]. rewrite Hsha by done.
      constructor; [by apply plain_word, Hplain|]. constructor; [by apply plain_word|constructor].
    + unfold run, run_words, run_stash. simpl. rewrite Er. rewrite Edata, Hsha, String.eqb_refl by done. rewrite Hsha in Hsv' by done.
      rewrite (used_total _ _ Hsv'). rewrite Hsha in Hroom by done. by rewrite (proj2 (Z.leb_le _ _) Hroom).
Qed.

Lemma write_stash_mono w w' s : write_stash src w s = Ok w' -> wf s.2 -> wf (w_touched w) ->
  (forall b, b ∈ w_touched w -> b ∈ w_touched w') /\ wf (w_touched w') /\ w_max w' = w_max w /\ w_total w' = w_total w /\
  total_size hsize (od_keys (w_stashes w)) <= total_size hsize (od_keys (w_stashes w')).
Proof.
  unfold write_stash. intros E Hw Hwt. destruct (od_get _ _) as [c|] eqn:Eg.
  - injection E as <-. split_and!; try done. simpl. rewrite od_keys_set_eq, decide_True by (by eapply od_get_Some_key). done.
  - destruct (union (w_touched w) s.2) as [t|] eqn:Et; [|done]. destruct (to_string_raw s.2) as [raw|]; [|done].
    injection E as <-. destruct (union_inv _ _ _ Hwt Hw Et) as [Hwt' Hin]. simpl. split_and!; try done.
    + intros b Hb. apply Hin. by left.
    + apply od_get_None in Eg. rewrite od_keys_set_eq, decide_False by done. unfold total_size. rewrite map_app, sumZ_app.
      simpl. pose proof (Hhs (RangeSha1 src s.2)). lia.
Qed.

Lemma write_stashes_mono l : forall w w', foldM (write_stash src) w l = Ok w' -> (forall s, s ∈ l -> wf s.2) -> wf (w_touched w) ->
  (forall b, b ∈ w_touched w -> b ∈ w_touched w') /\ wf (w_touched w') /\ w_max w' = w_max w /\ w_total w' = w_total w /\
  total_size hsize (od_keys (w_stashes w)) <= total_size hsize (od_keys (w_stashes w')).
Proof.
  induction l as [|s l IH]; intros w w' E Hl Hwt; cbn [foldM] in E; [by injection E as <-|].
  destruct (write_stash src w s) as [w1|] eqn:E1; [|done].
  destruct (write_stash_mono w w1 s E1) as (M1 & M2 & M3 & M4 & M5); [apply Hl; by left|done|].
  destruct (IH w1 w' E) as (N1 & N2 & N3 & N4 & N5); [intros x Hx; apply Hl; by right|done|].
  split_and!; [auto|done|congruence..|lia].
Qed.

Lemma write_stashes_ran l : forall w w' u0 u, foldM (write_stash src) w l = Ok w' -> ran run u0 (w_out w) u ->
  saved_is (u_saved u) (w_stashes w) -> (forall s, s ∈ l -> wf s.2 /\ nonneg s.2) -> wf (w_touched w) ->
  (forall s b, s ∈ l -> b ∈ s.2 -> b ∈ w_touched w' -> u_dev u b = sblk b) ->
  total_size hsize (od_keys (w_stashes w')) <= room ->
  exists u', ran run u0 (w_out w') u' /\ saved_is (u_saved u') (w_stashes w') /\
    u_dev u' = u_dev u /\ u_pos u' = u_pos u /\ u_written u' = u_written u.
Proof.
  induction l as [|s l IH]; intros w w' u0 u E Hran Hsv Hl Hwt Hdev Hroom; cbn [foldM] in E.
  - injection E as <-. exists u. by split_and!.
  - destruct (write_stash src w s) as [w1|] eqn:E1; [|done]. destruct (Hl s) as [Hw Hn]; [by left|].
    destruct (write_stash_mono w w1 s E1 Hw Hwt) as (M1 & M2 & M3 & M4 & M5).
    destruct (write_stashes_mono l w1 w' E) as (Hm & Hwt' & N3 & N4 & Hsz); [intros x Hx; apply Hl; by right|done|].
    destruct (write_stash_ran w w1 s u0 u E1 Hran Hsv Hw Hn Hwt) as (u1 & R1 & R2 & R3 & R4 & R5); [|lia|].
    { intros Hin b Hb. apply (Hdev s); [by left|done|]. by apply Hm, Hin. }
    destruct (IH w1 w' u0 u1 E R1 R2) as (u2 & Q1 & Q2 & Q3 & Q4 & Q5); [intros x Hx; apply Hl; by right|done| |done|].
    { intros x b Hx Hb Hbt. rewrite R3. apply (Hdev x); [by right|done..]. }
    exists u2. split_and!; [done..|congruence|congruence|congruence].
Qed.

(** ** Sources *)

Section source.
Context (sr : RangeSet) (Hsr : wf sr).
Let rk (b : Z) : Z := rank (rs_data sr) b.

(** The data of [r] put in the places of its blocks. *)
Lemma write_placed r buf b : wf r -> (forall c, c ∈ r -> c ∈ sr) -> b ∈ sr ->
  write_blocks bs (map rk (next_item r)) (rd sblk r) buf (rk b) = if decide (b ∈ r) then sblk b else buf (rk b).
Proof.
  intros Hr Hsub Hb. assert (forall c, c ∈ next_item r -> c ∈ sr) as Hsub' by (intros c ?%elem_of_next_item; auto).
  case_decide as Hbr.
  - apply elem_of_next_item in Hbr; [|done]. apply list_elem_of_lookup in Hbr as [k Hk].
    apply (write_blocks_at bs sblk (next_item r) _ _ k b); [done| |done|by rewrite lookup_map, Hk].
    apply NoDup_ranks; [done|by apply NoDup_next_item|done].
  - apply write_blocks_out. intros (c & E & Hc)%list_elem_of_fmap. apply rank_inj in E; [|done|done|by apply Hsub'].
    subst c. apply Hbr. by apply elem_of_next_item.
Qed.

(** A buffer whose places are all filled is the source data. *)
Lemma read_placed buf : (forall b, b ∈ sr -> buf (rk b) = sblk b) -> read_blocks buf (zrange 0 (size sr)) = rd sblk sr.
Proof.
  intros H. rewrite <- ranks_range by done. unfold rd, read_blocks. rewrite map_map. f_equal. apply map_ext_in.
  intros b Hb%list_elem_of_In%elem_of_next_item; [|done]. by apply H.
Qed.

Context (saved : list (string * string)) (m : list (string * Z)) (Hsv : saved_is saved m).

(** The word of a use, and what it does to a buffer. *)
Definition fills (uses : list string) (l : list (Z * RangeSet)) : Prop :=
  Forall word uses /\
  forall buf, exists buf', foldM (load_use bs saved) buf uses = Ok buf' /\
    forall b, b ∈ sr -> buf (rk b) = sblk b \/ (exists s, s ∈ l /\ b ∈ s.2) -> buf' (rk b) = sblk b.

(** The slots that are freed. *)
Definition frees (fs : list string) (m1 m2 : list (string * Z)) : Prop :=
  Forall plain fs /\
  forall sv : list (string * string), od_keys sv = od_keys m1 ->
    exists sv', foldM (fun s id => od_del id s) sv fs = Ok sv' /\ od_keys sv' = od_keys m2 /\ forall s, s ∈ sv' -> s ∈ sv.

Lemma fills_app u1 u2 l1 l2 : fills u1 l1 -> fills u2 l2 -> fills (u1 ++ u2) (l1 ++ l2).
Proof.
  intros [W1 F1] [W2 F2]. split; [by apply Forall_app|]. intros buf. destruct (F1 buf) as (b1 & E1 & P1).
  destruct (F2 b1) as (b2 & E2 & P2). exists b2. rewrite foldM_app, E1. split; [done|].
  intros b Hb [H|(s & [H|H]%elem_of_app & Hbs')]; apply P2; try done.
  - left. apply P1; [done|by left].
  - left. apply P1; [done|right; eauto].
  - right. eauto.
Qed.

Lemma frees_app f1 f2 m1 m2 m3 : frees f1 m1 m2 -> frees f2 m2 m3 -> frees (f1 ++ f2) m1 m3.
Proof.
  intros [W1 F1] [W2 F2]. split; [by apply Forall_app|]. intros sv Hk. destruct (F1 sv Hk) as (s1 & E1 & K1 & P1).
  destruct (F2 s1 K1) as (s2 & E2 & K2 & P2). exists s2. rewrite foldM_app, E1. split_and!; try done. auto.
Qed.

Lemma write_use_ran v v' s : write_use src sr v s = Ok v' -> wf s.2 -> (forall b, b ∈ s.2 -> b ∈ sr) -> wf (u_unstashed v) ->
  (forall k, k ∈ od_keys (u_stashes v) -> k ∈ od_keys m) ->
  exists use fs, u_words v' = u_words v ++ [use] /\ fills [use] [s] /\
    u_free v' = u_free v ++ map (fun id => words ["free"; id]) fs /\ frees fs (u_stashes v) (u_stashes v') /\
    wf (u_unstashed v') /\ (forall b, b ∈ u_unstashed v' <-> b ∈ u_unstashed v /\ b ∉ s.2) /\
    (forall k, k ∈ od_keys (u_stashes v') -> k ∈ od_keys m).
Proof.
  intros E Hw Hsub Hu Hk. unfold write_use in E.
  destruct (subtract (u_unstashed v) s.2) as [un|] eqn:Eun; [|done]. destruct (map_within sr s.2) as [i|] eqn:Ei; [|done].
  destruct (od_get (RangeSha1 src s.2) (u_stashes v)) as [c|] eqn:Ec; [|done]. simpl in E.
  destruct (to_string_raw i) as [raw|] eqn:Eraw; [|done].
  destruct (map_within_items sr s.2 i Hsr Hw Hsub Ei) as (Hwi & Hni & Hii). destruct (subtract_inv _ _ _ Hu Hw Eun) as [Hwu Hxu].
  destruct (read_ranges_raw i raw Hwi Hni Eraw) as [Er Hp]. pose proof (od_get_Some_key _ _ _ Ec) as Hkey.
  pose proof (saved_data saved m s.2 Hsv Hw (Hk _ Hkey)) as Hget.
  assert (plain (RangeSha1 src s.2)) as Hps by (rewrite Hsha by done; apply Hplain).
  assert (fills [RangeSha1 src s.2 +:+ ":" +:+ raw] [s]) as Hf.
  { split.
    - constructor; [|constructor]. apply word_app; [by apply plain_word|]. apply word_app; [done|by apply plain_word].
    - intros buf. eexists. split.
      + cbn [foldM]. unfold load_use at 1. change (RangeSha1 src s.2 +:+ ":" +:+ raw) with (RangeSha1 src s.2 +:+ String ":" raw).
        rewrite split_char_app by apply Hps. rewrite split_char_none by apply Hp. rewrite Er, Hget. simpl. done.
      + intros b Hb Hor. rewrite Hii. fold rk. rewrite write_placed by done. case_decide as Hbs'; [done|].
        destruct Hor as [?|(s' & ->%list_elem_of_singleton & ?)]; done. }
  assert (forall fs m', frees fs (u_stashes v) m' -> (forall k, k ∈ od_keys m' -> k ∈ od_keys (u_stashes v)) ->
    v' = mkUses un (u_mapped v ++ [i]) (u_words v ++ [RangeSha1 src s.2 +:+ ":" +:+ raw])
           (u_free v ++ map (fun id => words ["free"; id]) fs) (u_free_size v') m' ->
    exists use fs, u_words v' = u_words v ++ [use] /\ fills [use] [s] /\
      u_free v' = u_free v ++ map (fun id => words ["free"; id]) fs /\ frees fs (u_stashes v) (u_stashes v') /\
      wf (u_unstashed v') /\ (forall b, b ∈ u_unstashed v' <-> b ∈ u_unstashed v /\ b ∉ s.2) /\
      (forall k, k ∈ od_keys (u_stashes v') -> k ∈ od_keys m)) as Hgen.
  { intros fs m' Hfr Hsubk ->. eexists _, fs. simpl. split_and!; [done|exact Hf|done|done|done|done|]. auto. }
  destruct (c - 1 =? 0); injection E as <-.
  - apply (Hgen [RangeSha1 src s.2] (od_remove (RangeSha1 src s.2) (u_stashes v))); [| |done].
    + split; [by constructor|]. intros sv Hks. exists (od_remove (RangeSha1 src s.2) sv). split_and!.
      * cbn [foldM]. unfold od_del, od_pop. assert (is_Some (od_get (RangeSha1 src s.2) sv)) as [d ->]; [|done].
        apply od_get_is_Some. by rewrite Hks.
      * by apply od_keys_remove_eq.
      * intros x. apply od_remove_sub.
    + intros k (x & -> & Hx)%list_elem_of_fmap. apply (list_elem_of_fmap_2 fst). by apply od_remove_sub in Hx.
  - assert (od_keys (od_set (RangeSha1 src s.2) (c - 1) (u_stashes v)) = od_keys (u_stashes v)) as Hke
      by (by rewrite od_keys_set_eq, decide_True).
    apply (Hgen [] (od_set (RangeSha1 src s.2) (c - 1) (u_stashes v))).
    + split; [done|]. intros sv Hks. exists sv. split_and!; [done|by rewrite Hke|done].
    + by rewrite Hke.
    + simpl. by rewrite app_nil_r.
Qed.

Lemma write_uses_ran l : forall v v', foldM (write_use src sr) v l = Ok v' ->
  (forall s, s ∈ l -> wf s.2 /\ forall b, b ∈ s.2 -> b ∈ sr) -> wf (u_unstashed v) ->
  (forall k, k ∈ od_keys (u_stashes v) -> k ∈ od_keys m) ->
  exists uses fs, u_words v' = u_words v ++ uses /\ fills uses l /\
    u_free v' = u_free v ++ map (fun id => words ["free"; id]) fs /\ frees fs (u_stashes v) (u_stashes v') /\
    wf (u_unstashed v') /\ (forall b, b ∈ u_unstashed v' <-> b ∈ u_unstashed v /\ forall s, s ∈ l -> b ∉ s.2).
Proof.
  induction l as [|s l IH]; intros v v' E Hl Hu Hk; cbn [foldM] in E.
  - injection E as <-. exists [], []. rewrite !app_nil_r. split_and!; try done.
    + split; [constructor|]. intros buf. exists buf. split; [done|]. intros b _ [?|(s & ?%elem_of_nil & _)]; done.
    + split; [constructor|]. intros sv Hks. by exists sv.
    + intros b. split; [|tauto]. intros Hb. split; [done|]. by intros s ?%elem_of_nil.
  - destruct (write_use src sr v s) as [v1|] eqn:E1; [|done]. destruct (Hl s) as [Hw Hsub]; [by left|].
    destruct (write_use_ran v v1 s E1 Hw Hsub Hu Hk) as (use & fs & W1 & F1 & R1 & Q1 & U1 & X1 & K1).
    destruct (IH v1 v' E) as (uses & fs' & W2 & F2 & R2 & Q2 & U2 & X2); [intros x Hx; apply Hl; by right|done|done|].
    exists (use :: uses), (fs ++ fs'). split_and!; [| | | |done|].
    + by rewrite W2, W1, <- app_assoc.
    + exact (fills_app [use] uses [s] l F1 F2).
    + by rewrite R2, R1, map_app, <- app_assoc.
    + by eapply frees_app.
    + intros b. rewrite X2, X1. setoid_rewrite elem_of_cons. naive_solver.
Qed.
End source.

(** The source words of a command load the source. *)
Lemma source_words_ran x v ws u saved : source_words x v = Ok ws -> wf (src_ranges x) -> nonneg (src_ranges x) ->
  fills (src_ranges x) saved (u_words v) (use_stash x) -> wf (u_unstashed v) ->
  (forall b, b ∈ u_unstashed v <-> b ∈ src_ranges x /\ forall s, s ∈ use_stash x -> b ∉ s.2) ->
  (use_stash x = [] -> u_words v = [] /\ u_unstashed v = src_ranges x) -> u_saved u = saved ->
  Forall word ws /\
  ((forall b, b ∈ u_unstashed v -> u_dev u b = sblk b) ->
   exists l, load_source bs u ws = Ok (l, rd sblk (src_ranges x)) /\ forall b, b ∈ l -> b ∈ src_ranges x).
Proof.
  intros E Hw Hn [Hfw Hf] Hu Hx Hnil Hsv. unfold source_words in E. set (n := size (src_ranges x)) in *.
  destruct (of_data [0; n]) as [all|]; [|done].
  assert (0 <= n) as Hn0 by (by apply size_nonneg). pose proof (plain_word _ (plain_num n Hn0)) as Hwn.
  assert (nonneg (u_unstashed v)) as Hnu by (apply (nonneg_sub (src_ranges x)); [done|]; intros b Hb; by apply Hx).
  assert (forall buf0, (forall b, b ∈ src_ranges x -> b ∈ u_unstashed v -> buf0 (rank (rs_data (src_ranges x)) b) = sblk b) ->
    exists buf, foldM (load_use bs saved) buf0 (u_words v) = Ok buf /\
      read_blocks buf (zrange 0 n) = rd sblk (src_ranges x)) as Hbuf.
  { intros buf0 H0. destruct (Hf buf0) as (buf & -> & Hb). exists buf. split; [done|].
    apply read_placed; [done|]. intros b Hbs'. apply Hb; [done|].
    destruct (used_dec b (use_stash x)) as [Hs|Hs]; [by right|left]. apply H0; [done|]. apply Hx. split; [done|].
    intros s Hss Hbs2. apply Hs. by exists s. }
  destruct (rs_bool (u_unstashed v)) eqn:Eb.
  - destruct (to_string_raw (u_unstashed v)) as [raw|] eqn:Eraw; [|done].
    destruct (read_ranges_raw _ _ Hu Hnu Eraw) as [Er Hp].
    assert (String.eqb raw "-" = false) as Hdash by (apply String.eqb_neq; intros ->; discriminate Er).
    destruct (decide (use_stash x = [])) as [Enil|Hne].
    + rewrite Enil in E. injection E as <-. destruct (Hnil Enil) as [Ew Eun]. rewrite Ew. split.
      { constructor; [done|]. constructor; [by apply plain_word|constructor]. }
      intros Hdev. unfold load_source. rewrite py_int_str, Hdash, Er by done. cbn [tail].
      rewrite size_count, Hsv by done. rewrite Ew in Hbuf. exists (next_item (u_unstashed v)). split.
      * match goal with |- context [foldM _ ?b0 []] => destruct (Hbuf b0) as (buf & -> & Hend) end; [|by rewrite Hend].
        intros b Hb Hbu. rewrite Eun. fold n. unfold n. rewrite <- ranks_range by done.
        rewrite (read_blocks_ext _ sblk), write_placed by (done || intros c Hc; apply Hdev; rewrite Eun; by apply elem_of_next_item in Hc).
        by rewrite decide_True.
      * intros b Hb. apply elem_of_next_item in Hb; [|done]. by apply Hx.
    + destruct (map_within (src_ranges x) (u_unstashed v)) as [i|] eqn:Ei; [|by destruct (use_stash x)].
      destruct (map_within_items _ _ _ Hw Hu (fun b Hb => proj1 (proj1 (Hx b) Hb)) Ei) as (Hwi & Hni & Hii).
      destruct (to_string_raw i) as [raw2|] eqn:Eraw2; [|by destruct (use_stash x)].
      destruct (read_ranges_raw _ _ Hwi Hni Eraw2) as [Er2 Hp2].
      assert (ws = py_str n :: raw :: raw2 :: u_words v) as ->.
      { destruct (use_stash x); [done|]. by inv_ok. }
      split; [repeat (constructor; [by (done || apply plain_word)|]); done|].
      intros Hdev. unfold load_source. rewrite py_int_str, Hdash, Er, Er2 by done. cbn [tail].
      exists (next_item (u_unstashed v)). rewrite Hsv. split.
      * match goal with |- context [foldM _ ?b0 _] => destruct (Hbuf b0) as (buf & -> & Hend) end; [|by rewrite Hend].
        intros b Hb Hbu. rewrite Hii.
        rewrite (read_blocks_ext _ sblk), write_placed by
          (done || (intros c Hc; apply Hdev; by apply elem_of_next_item in Hc) || (intros c Hc; by apply Hx)).
        by rewrite decide_True.
      * intros b Hb. apply elem_of_next_item in Hb; [|done]. by apply Hx.
  - destruct (AssertPartition all (u_mapped v)); [|done]. injection E as <-. split.
    { constructor; [done|]. constructor; done. }
    intros _. unfold load_source. rewrite py_int_str by done. rewrite String.eqb_refl, Hsv.
    destruct (Hbuf (fun _ => "")) as (buf & -> & Hend).
    { intros b _ Hb. assert (rs_bool (u_unstashed v) = true); [|congruence]. apply rs_bool_spec; eauto. }
    exists []. split; [by rewrite Hend|]. by intros b ?%elem_of_nil.
Qed.

(** ** Commands *)

(** What the data files, the patches and the hashes of a transfer have to be;
    [pos] is the place in the new data. *)
Record command_data (pos : Z) (x : Transfer) : Prop := {
  cd_new : style x = "new" -> sliced new_dat pos (size (tgt_ranges x) * bs) (rd tblk (tgt_ranges x));
  cd_zero : style x = "zero" -> forall b, b ∈ tgt_ranges x ->
    tblk b = zero_block bs /\ (b ∈ src_ranges x -> sblk b = zero_block bs);
  cd_move : style x = "move" -> rd sblk (src_ranges x) = rd tblk (tgt_ranges x);
  cd_patch : style x = "bsdiff" \/ style x = "imgdiff" -> exists p,
    sliced patch_dat (patch_start x) (patch_len x) p /\
    apply_patch (String.eqb (style x) "imgdiff") p (rd sblk (src_ranges x)) = rd tblk (tgt_ranges x) /\
    src_sha1 x = sha1 (rd sblk (src_ranges x));
  cd_hash : tgt_sha1 x = sha1 (rd tblk (tgt_ranges x))
}.

(** The new data a transfer takes. *)
Definition new_len (x : Transfer) : Z := if decide (style x = "new") then size (tgt_ranges x) * bs else 0.

Lemma write_target_ran x u l raw : wf (tgt_ranges x) -> nonneg (tgt_ranges x) -> wf (src_ranges x) ->
  to_string_raw (tgt_ranges x) = Ok raw -> (forall b, b ∈ l -> b ∈ src_ranges x) ->
  (overlaps (src_ranges x) (tgt_ranges x) = true -> used bs (u_saved u) + size (src_ranges x) <= room) ->
  exists u', write_target bs sha1 room u l (rd sblk (src_ranges x)) (rd tblk (tgt_ranges x)) raw
               (sha1 (rd tblk (tgt_ranges x))) = Ok u' /\
    effect (next_item (tgt_ranges x)) tblk 0 u u'.
Proof.
  intros Hw Hn Hws Hraw Hl Hov. destruct (read_ranges_raw _ _ Hw Hn Hraw) as [Er _]. unfold write_target. rewrite Er.
  unfold rd. rewrite !(read_blocks_len bs), !size_count by done. rewrite Z.eqb_refl, String.eqb_refl, Z.div_mul by lia. simpl.
  match goal with |- context [negb ?e || ?c] => assert (negb e || c = true) as -> end.
  { destruct (existsb _ l) eqn:Ex; [|done]. simpl. apply Z.leb_le, Hov. apply existsb_exists in Ex as (b & Hb & Hbt).
    apply bool_decide_eq_true in Hbt. apply overlaps_iff; [done..|]. exists b. split; [by apply Hl, list_elem_of_In|].
    by apply elem_of_next_item in Hbt. }
  eexists. split; [done|]. split; simpl; try done; [|lia|by rewrite size_count].
  intros b. apply write_blocks_spec; [done|by apply NoDup_next_item].
Qed.

Lemma effect_target x adv u u' : wf (tgt_ranges x) -> effect (next_item (tgt_ranges x)) tblk adv u u' ->
  forall b, u_dev u' b = if decide (b ∈ tgt_ranges x) then tblk b else u_dev u b.
Proof.
  intros Hw [D _ _ _] b. rewrite D. unfold set_blocks. pose proof (elem_of_next_item b _ Hw). repeat case_decide; tauto || done.
Qed.

Lemma write_command_ran x ws w w' u0 u : write_command x ws w = Ok w' ->
  wf (tgt_ranges x) -> nonneg (tgt_ranges x) -> wf (src_ranges x) -> nonneg (src_ranges x) -> wf (w_touched w) ->
  command_data (u_pos u) x -> ran run u0 (w_out w) u -> Forall word ws ->
  ((forall b, b ∈ src_ranges x -> b ∈ w_touched w') ->
    exists l, load_source bs u ws = Ok (l, rd sblk (src_ranges x)) /\ forall b, b ∈ l -> b ∈ src_ranges x) ->
  used bs (u_saved u) = w_stashed w -> w_max w' <= room -> (forall b, b ∈ tgt_ranges x -> u_dev u b = sblk b) ->
  exists u', ran run u0 (w_out w') u' /\ u_saved u' = u_saved u /\ u_pos u' = u_pos u + new_len x /\
    u_written u' - u_written u = w_total w' - w_total w /\
    forall b, u_dev u' b = if decide (b ∈ tgt_ranges x) then tblk b else u_dev u b.
Proof.
  intros E Hwt Hnt Hws Hns Hto [Cn Cz Cm Cp Ch] Hran Hwords Hload Hused Hmax Hdev. unfold write_command in E. unfold new_len.
  destruct (String.eqb_spec (style x) "new") as [Es|Hs1].
  { destruct (rs_bool (tgt_ranges x)); [|done]. rewrite Es in E. rewrite decide_True by done.
    destruct (WriteSplitTransfers "new" _ _) as [[k out]|] eqn:E1; [|done]. destruct (_ =? k); [|done]. injection E as <-.
    destruct (write_new_ran _ _ _ _ u0 u Hwt Hnt (Cn Es) E1 Hran) as (u' & Hr & Hef). exists u'. simpl.
    pose proof (effect_target x _ u u' Hwt Hef) as Hd. destruct Hef as [_ Hsv Hp Hwr].
    split_and!; [done|done|lia| |done]. rewrite Hwr, size_count by done. lia. }
  rewrite decide_False by done. rewrite Z.add_0_r.
  assert (overlap_max x (w_stashed w) (w_max w) <= room -> overlaps (src_ranges x) (tgt_ranges x) = true ->
    used bs (u_saved u) + size (src_ranges x) <= room) as Hov.
  { intros Hm Ho. unfold overlap_max in Hm. rewrite Ho in Hm. lia. }
  destruct (String.eqb_spec (style x) "move") as [Es|Hs2].
  { destruct (rs_bool (tgt_ranges x)); [|done]. destruct (size (src_ranges x) =? _); [|done].
    destruct (rs_eqb (src_ranges x) (tgt_ranges x)) eqn:Eq.
    - injection E as <-. exists u. split_and!; try done; [lia|]. intros b. case_decide as Hb; [|done].
      rewrite Hdev by done. unfold rs_eqb in Eq. apply bool_decide_eq_true in Eq.
      assert (next_item (src_ranges x) = next_item (tgt_ranges x)) as Ei by (unfold next_item; by rewrite Eq).
      apply (read_blocks_inj bs sblk tblk (next_item (tgt_ranges x))); [done..|by apply NoDup_next_item| |by apply elem_of_next_item].
      specialize (Cm Es). unfold rd in Cm. by rewrite Ei in Cm.
    - destruct (union (w_touched w) (src_ranges x)) as [t|] eqn:E2; [|done].
      destruct (to_string_raw (tgt_ranges x)) as [raw|] eqn:E3; [|done]. injection E as <-.
      simpl in *. destruct (union_inv _ _ _ Hto Hws E2) as [_ Hin].
      destruct Hload as (l & Hl & Hls); [intros b Hb; apply Hin; by right|].
      destruct (write_target_ran x u l _ Hwt Hnt Hws E3 Hls (Hov Hmax)) as (u' & Ht & Hef).
      destruct (read_ranges_raw _ _ Hwt Hnt E3) as [_ Hpr]. exists u'.
      pose proof (effect_target x _ u u' Hwt Hef) as Hd. destruct Hef as [_ Hsv Hp Hwr].
      split_and!; [|done|lia|rewrite Hwr, size_count by done; lia|done].
      eapply ran_snoc; [exact Hran| |].
      + split; [done|]. rewrite Es, Ch. constructor; [done|]. constructor; [by apply plain_word|].
        constructor; [by apply plain_word|done].
      + rewrite Es, Ch. unfold run, run_words, run_move. simpl. rewrite Hl. rewrite (Cm Es) in Ht |- *. exact Ht. }
  destruct (String.eqb (style x) "bsdiff" || String.eqb (style x) "imgdiff") eqn:Es.
  { destruct (rs_bool (tgt_ranges x)); [|done]. destruct (rs_bool (src_ranges x)); [|done].
    destruct (union (w_touched w) (src_ranges x)) as [t|] eqn:E2; [|done].
    destruct (to_string_raw (tgt_ranges x)) as [raw|] eqn:E3; [|done]. injection E as <-.
    simpl in *. destruct (union_inv _ _ _ Hto Hws E2) as [_ Hin].
    destruct Hload as (l & Hl & Hls); [intros b Hb; apply Hin; by right|].
    destruct Cp as (p & Hsl & Hap & Hsh).
    { apply orb_true_iff in Es as [?|?]; [left|right]; by apply String.eqb_eq. }
    destruct (sliced_bound _ _ _ _ Hsl) as (P1 & P2 & P3).
    destruct (write_target_ran x u l _ Hwt Hnt Hws E3 Hls (Hov Hmax)) as (u' & Ht & Hef).
    destruct (read_ranges_raw _ _ Hwt Hnt E3) as [_ Hpr]. exists u'.
    pose proof (effect_target x _ u u' Hwt Hef) as Hd. destruct Hef as [_ Hsv Hp Hwr].
    split_and!; [|done|lia|rewrite Hwr, size_count by done; lia|done].
    eapply ran_snoc; [exact Hran| |].
    - split; [done|]. rewrite Ch, Hsh. constructor.
      { apply orb_true_iff in Es as [Es|Es]; apply String.eqb_eq in Es; by rewrite Es. }
      do 2 (constructor; [by apply plain_word, plain_num|]). do 2 (constructor; [by apply plain_word|]).
      constructor; [by apply plain_word|done].
    - assert (run_patch bs sha1 apply_patch patch_dat room (String.eqb (style x) "imgdiff") u (py_str (patch_start x)) (py_str (patch_len x))
                (src_sha1 x) (tgt_sha1 x) raw ws = Ok u') as Hrun.
      { unfold run_patch. rewrite !py_int_str, Hl, Hsh, Ch, String.eqb_refl, (slice_sliced _ _ _ _ Hsl), Hap by done.
        destruct (Z.leb_spec (patch_start x + patch_len x) (str_len patch_dat)); [exact Ht|lia]. }
      apply orb_true_iff in Es as [Es|Es]; apply String.eqb_eq in Es; rewrite Es in *; exact Hrun. }
  destruct (String.eqb_spec (style x) "zero") as [Ez|]; [|done]. rewrite Ez in E.
  destruct (rs_bool (tgt_ranges x)); [|done]. destruct (subtract (tgt_ranges x) (src_ranges x)) as [a|] eqn:E1; [|done].
  destruct (WriteSplitTransfers "zero" _ _) as [[k out]|] eqn:E2; [|done]. destruct (k =? _); [|done]. injection E as <-. simpl in *.
  destruct (subtract_inv _ _ _ Hwt Hws E1) as [Hwz Hz].
  assert (nonneg a) as Hna by (apply (nonneg_sub (tgt_ranges x)); [done|]; intros b Hb; by apply Hz).
  destruct (write_zero_ran a _ _ _ u0 u Hwz Hna E2 Hran) as (u' & Hr & [Hd Hsv Hp Hwr]). exists u'.
  split_and!; [done|done|lia|rewrite Hwr, size_count by done; lia|].
  intros b. rewrite Hd. unfold set_blocks. pose proof (elem_of_next_item b a Hwz) as Hi. specialize (Hz b).
  destruct (decide (b ∈ next_item a)) as [Ha|Ha].
  - rewrite decide_True by tauto. symmetry. apply (Cz Ez). tauto.
  - case_decide as Hb; [|done]. destruct (Cz Ez b Hb) as [Z1 Z2]. rewrite Z1, <- Z2, Hdev; [done|done|].
    destruct (decide (b ∈ src_ranges x)); [done|]. tauto.
Qed.

(** ** What the writer keeps *)

Lemma hsize_range r : wf r -> hsize (RangeSha1 src r) = size r.
Proof. intros Hr. rewrite Hsha, Hhsize by done. unfold rd. rewrite (read_blocks_len bs), size_count by done. by rewrite Z.div_mul by lia. Qed.

Lemma total_size_snoc k l : total_size hsize (l ++ [k]) = total_size hsize l + hsize k.
Proof. unfold total_size. rewrite map_app, sumZ_app. simpl. lia. Qed.

Lemma write_stashes_sum l : forall w w', foldM (write_stash src) w l = Ok w' -> (forall s, s ∈ l -> wf s.2) ->
  w_stashed w = total_size hsize (od_keys (w_stashes w)) -> w_stashed w' = total_size hsize (od_keys (w_stashes w')).
Proof.
  induction l as [|s l IH]; intros w w' E Hl Hs; cbn [foldM] in E; [by injection E as <-|].
  destruct (write_stash src w s) as [w1|] eqn:E1; [|done]. apply (IH w1 w' E); [intros x Hx; apply Hl; by right|].
  assert (wf s.2) as Hw by (apply Hl; by left). unfold write_stash in E1.
  destruct (od_get _ _) as [c|] eqn:Eg.
  - injection E1 as <-. simpl. rewrite od_keys_set_eq, decide_True by (by eapply od_get_Some_key). done.
  - inv_ok. apply od_get_None in Eg. simpl. rewrite od_keys_set_eq, decide_False, total_size_snoc, hsize_range by done. lia.
Qed.

Lemma write_uses_sum sr l : wf sr -> forall v v', foldM (write_use src sr) v l = Ok v' ->
  (forall s, s ∈ l -> wf s.2 /\ forall b, b ∈ s.2 -> b ∈ sr) ->
  total_size hsize (od_keys (u_stashes v')) + u_free_size v' = total_size hsize (od_keys (u_stashes v)) + u_free_size v /\
  (u_free v' = [] -> u_free_size v' = u_free_size v /\ u_free v = []).
Proof.
  intros Hsr. induction l as [|s l IH]; intros v v' E Hl; cbn [foldM] in E; [by injection E as <-|].
  destruct (write_use src sr v s) as [v1|] eqn:E1; [|done]. destruct (Hl s) as [Hw Hsub]; [by left|].
  destruct (IH v1 v' E) as [-> IH2]; [intros x Hx; apply Hl; by right|]. unfold write_use in E1.
  destruct (subtract (u_unstashed v) s.2); [|done]. destruct (map_within sr s.2) as [i|] eqn:Ei; [|done].
  destruct (od_get (RangeSha1 src s.2) (u_stashes v)) as [c|] eqn:Ec; [|done]. simpl in E1.
  destruct (to_string_raw i); [|done]. pose proof (od_get_Some_key _ _ _ Ec) as Hkey.
  destruct (map_within_items sr s.2 i Hsr Hw Hsub Ei) as (Hwi & _ & Hii).
  assert (size i = size s.2) as Hsz by (by rewrite <- !size_count, Hii by done; unfold block_count; rewrite length_map).
  destruct (c - 1 =? 0); injection E1 as <-; simpl in *.
  - split.
    + rewrite (total_size_perm _ _ _ (od_keys_remove_perm _ _ Hkey)). unfold total_size. simpl. rewrite hsize_range by done. lia.
    + intros Hf. destruct (IH2 Hf) as [_ ?]. by destruct (u_free v).
  - rewrite od_keys_set_eq, decide_True by done. split; [done|exact IH2].
Qed.

Lemma write_command_frame x ws w w' : write_command x ws w = Ok w' -> wf (tgt_ranges x) -> wf (src_ranges x) ->
  wf (w_touched w) -> w_stashes w' = w_stashes w /\ w_stashed w' = w_stashed w /\ w_max w <= w_max w' /\ w_total w <= w_total w' /\
  wf (w_touched w') /\ forall b, b ∈ w_touched w -> b ∈ w_touched w'.
Proof.
  intros E Hwt Hs Ht. unfold write_command in E. pose proof (size_nonneg _ Hwt). assert (w_max w <= overlap_max x (w_stashed w) (w_max w)) as Ho.
  { unfold overlap_max. destruct (overlaps _ _); lia. }
  assert (forall t, union (w_touched w) (src_ranges x) = Ok t -> wf t /\ forall b, b ∈ w_touched w -> b ∈ t) as Hu.
  { intros t Eu. destruct (union_inv _ _ _ Ht Hs Eu) as [? Hin]. split; [done|]. intros b Hb. apply Hin. by left. }
  destruct (String.eqb (style x) "new").
  { destruct (rs_bool _); [|done]. destruct (WriteSplitTransfers _ _ _) as [[k out]|]; [|done]. destruct (_ =? k); [|done].
    injection E as <-. simpl. split_and!; done || lia. }
  destruct (String.eqb (style x) "move").
  { destruct (rs_bool _); [|done]. destruct (_ =? _); [|done]. destruct (rs_eqb _ _); [injection E as <-; split_and!; done || lia|].
    destruct (union _ _) as [t|] eqn:Eu; [|done]. destruct (to_string_raw _); [|done]. injection E as <-. simpl.
    destruct (Hu t eq_refl). split_and!; done || lia. }
  destruct (_ || _).
  { destruct (rs_bool _); [|done]. destruct (rs_bool _); [|done].
    destruct (union _ _) as [t|] eqn:Eu; [|done]. destruct (to_string_raw _); [|done]. injection E as <-. simpl.
    destruct (Hu t eq_refl). split_and!; done || lia. }
  destruct (String.eqb (style x) "zero"); [|done]. destruct (rs_bool _); [|done]. destruct (subtract _ _) as [z|] eqn:Ez; [|done].
  pose proof (size_nonneg z (proj1 (subtract_inv _ _ _ Hwt Hs Ez))).
  destruct (WriteSplitTransfers _ _ _) as [[k out]|]; [|done]. destruct (k =? _); [|done]. injection E as <-. simpl. split_and!; done || lia.
Qed.

(** ** Freed slots *)

Lemma frees_ran fs : forall u sv', Forall plain fs -> foldM (fun s id => od_del id s) (u_saved u) fs = Ok sv' ->
  ran run u (map (fun id => words ["free"; id]) fs) (mkU (u_dev u) sv' (u_pos u) (u_written u)).
Proof.
  induction fs as [|id fs IH]; intros u sv' Hp E; cbn [foldM map] in *.
  - injection E as <-. destruct u. apply ran_nil.
  - apply Forall_cons in Hp as [Hid Hp]. destruct (od_del id (u_saved u)) as [s1|] eqn:E1; [|done].
    change (words ["free"; id] :: ?l) with ([words ["free"; id]] ++ l).
    apply (ran_app run u (mkU (u_dev u) s1 (u_pos u) (u_written u))).
    + apply ran_one.
      * split; [done|]. constructor; [done|]. constructor; [by apply plain_word|constructor].
      * unfold run, run_words, run_free. simpl. by rewrite E1.
    + by apply (IH (mkU (u_dev u) s1 (u_pos u) (u_written u))).
Qed.

(** ** The loop over the transfers *)

Section loop.
Context (st : store) (ts : list tid) (Hnd : NoDup ts) (Hseq : sequenced st ts) (Hr : ranges_ok st ts).
Context (Hdisj : forall x y b, x ∈ ts -> y ∈ ts -> b ∈ tgt_ranges (st !!! x) -> b ∈ tgt_ranges (st !!! y) -> x = y).
(* the device before the commands: some blocks that no transfer reads or writes were erased *)
Context (orig : Z -> string) (Horig : forall x b, x ∈ ts -> b ∈ tgt_ranges (st !!! x) -> orig b = sblk b).
Context (max_allowed : option py_float) (block : Z) (u0 : UState).

Definition new_sum (l : list tid) : Z := sumZ (map (fun x => new_len (st !!! x)) l).

Record einv (pre : list tid) (w : WState) (u : UState) : Prop := {
  ei_ran : ran run u0 (w_out w) u;
  ei_saved : saved_is (u_saved u) (w_stashes w);
  ei_sum : w_stashed w = total_size hsize (od_keys (w_stashes w));
  ei_touched : wf (w_touched w);
  ei_pos : u_pos u = new_sum pre;
  ei_written : u_written u = w_total w;
  ei_dev : forall b, (written st pre b -> u_dev u b = tblk b) /\ (~ written st pre b -> u_dev u b = orig b)
}.

(** A stash is of blocks its transfer is about to overwrite. *)
Lemma before_facts x s : x ∈ ts -> s ∈ stash_before (st !!! x) ->
  wf s.2 /\ nonneg s.2 /\ forall b, b ∈ s.2 -> b ∈ tgt_ranges (st !!! x).
Proof.
  intros Hx Hs. destruct s as [k r]. pose proof (sq_table _ _ Hseq) as Htb.
  destruct (tb_user _ _ Htb x k r Hx Hs) as (y & Hy & Hky). apply list_elem_of_split in Hy as (p & q & Hl).
  destruct (sq_use _ _ Hseq p y q k r Hl Hky) as (z & Hz & Hkz & [[Hw _] Hsh]).
  assert (z ∈ ts) as Hzt by (rewrite Hl, elem_of_app; by left).
  destruct (tb_save _ _ Htb x z k r r) as [<- _]; [done..|]. simpl.
  assert (forall b, b ∈ r -> b ∈ tgt_ranges (st !!! x)) as Hin by (intros b Hb; by apply Hsh in Hb as [_ ?]).
  split_and!; [done| |done]. apply (nonneg_sub (tgt_ranges (st !!! x))); [|done]. by apply Hr.
Qed.

(** A used stash is of blocks of the source; blocks that are not in one have not
    been written yet. *)
Lemma use_facts pre x post s : ts = pre ++ x :: post -> s ∈ use_stash (st !!! x) ->
  wf s.2 /\ forall b, b ∈ s.2 -> b ∈ src_ranges (st !!! x).
Proof.
  intros Hl Hs. destruct s as [k r]. destruct (sq_use _ _ Hseq pre x post k r Hl Hs) as (y & _ & _ & [[Hw _] Hsh]). simpl.
  split; [done|]. intros b Hb. by apply Hsh in Hb as [? _].
Qed.

Lemma unstashed_unwritten pre x post b : ts = pre ++ x :: post -> b ∈ src_ranges (st !!! x) ->
  (forall s, s ∈ use_stash (st !!! x) -> b ∉ s.2) -> ~ written st pre b.
Proof.
  intros Hl Hb Hno (y & Hy & Hby). destruct (sq_conflict _ _ Hseq pre x post y Hl Hy) as (k & r & Hk & _ & [_ Hsh]); [by exists b|].
  apply (Hno (k, r) Hk). simpl. by apply Hsh.
Qed.

Lemma written_snoc pre x b : written st (pre ++ [x]) b <-> written st pre b \/ b ∈ tgt_ranges (st !!! x).
Proof. unfold written. setoid_rewrite elem_of_app. setoid_rewrite list_elem_of_singleton. naive_solver. Qed.

(** The maximum and the blocks touched only grow. *)
Definition grows (w w' : WState) : Prop :=
  w_max w <= w_max w' /\ w_total w <= w_total w' /\ (forall b, b ∈ w_touched w -> b ∈ w_touched w') /\ wf (w_touched w').

(** The steps of a transfer. *)
Record steps (x : tid) (w w' w1 : WState) (v : Uses) (ws : list string) (w2 : WState) : Prop := {
  sp_stash : foldM (write_stash src) w (stash_before (st !!! x)) = Ok w1;
  sp_use : foldM (write_use src (src_ranges (st !!! x))) (mkUses (src_ranges (st !!! x)) [] [] [] 0 (w_stashes w1))
             (use_stash (st !!! x)) = Ok v;
  sp_words : source_words (st !!! x) v = Ok ws;
  sp_command : write_command (st !!! x) ws (mkW (w_out w1) (w_total w1) (u_stashes v) (w_stashed w1)
                 (if w_max w1 <? w_stashed w1 then w_stashed w1 else w_max w1) (w_touched w1)) = Ok w2;
  sp_end : w' = match u_free v with
                | [] => w2
                | free => mkW (w_out w2 ++ [str_join "" free]) (w_total w2) (w_stashes w2) (w_stashed w2 - u_free_size v)
                            (w_max w2) (w_touched w2)
                end
}.

Lemma write_transfer_steps x w w' : write_transfer src max_allowed block (st !!! x) w = Ok w' ->
  exists w1 v ws w2, steps x w w' w1 v ws w2.
Proof.
  unfold write_transfer. intros E. destruct (foldM (write_stash src) w _) as [w1|] eqn:E1; [|done].
  destruct (foldM (write_use _ _) _ _) as [v|] eqn:E2; [|done]. destruct (source_words _ v) as [ws|] eqn:E3; [|done].
  destruct (write_command _ ws _) as [w2|] eqn:E4; [|done]. destruct (check_limit _ _ _); [|done]. injection E as <-.
  by exists w1, v, ws, w2.
Qed.

Lemma steps_grow x w w' w1 v ws w2 : x ∈ ts -> steps x w w' w1 v ws w2 -> wf (w_touched w) ->
  grows w w' /\ w_stashed w1 <= w_max w' /\ w_stashes w2 = u_stashes v /\ w_stashed w2 = w_stashed w1 /\
  w_max w2 = w_max w' /\ w_touched w2 = w_touched w' /\ w_total w2 = w_total w' /\ w_stashes w' = w_stashes w2 /\
  forall b, b ∈ w_touched w1 -> b ∈ w_touched w'.
Proof.
  intros Hx [E1 E2 E3 E4 ->] T. destruct (Hr x Hx) as (Hwt & _ & Hws & _).
  destruct (write_stashes_mono _ w w1 E1 (fun s Hs => proj1 (before_facts x s Hx Hs)) T) as (M1 & M2 & M3 & M4 & M5).
  destruct (write_command_frame _ ws _ w2 E4 Hwt Hws) as (F1 & F2 & F3 & F6 & F4 & F5); [done|]. simpl in F1, F2, F3, F5, F6.
  assert (w_max w1 <= w_max w2 /\ w_stashed w1 <= w_max w2) as [Hm1 Hm2] by zcases.
  unfold grows. destruct (u_free v); simpl; split_and!; try done; try lia; auto.
Qed.

Lemma write_transfer_grows x w w' : x ∈ ts -> write_transfer src max_allowed block (st !!! x) w = Ok w' -> wf (w_touched w) ->
  grows w w'.
Proof. intros Hx (w1 & v & ws & w2 & H)%write_transfer_steps T. by apply (steps_grow x w w' w1 v ws w2). Qed.

Lemma write_transfer_ran pre x post w w' u : ts = pre ++ x :: post ->
  write_transfer src max_allowed block (st !!! x) w = Ok w' -> einv pre w u -> command_data (new_sum pre) (st !!! x) ->
  w_max w' <= room -> (forall b, b ∈ w_touched w' -> orig b = sblk b) -> exists u', einv (pre ++ [x]) w' u'.
Proof.
  intros Hl (w1 & v & ws & w2 & Hst)%write_transfer_steps [R S1 Sm T P W D] Hc Hroom Htouch.
  assert (x ∈ ts) as Hx by (rewrite Hl, elem_of_app; right; by left).
  destruct (Hr x Hx) as (Hwt & Hnt & Hws & Hns). pose proof (fun s Hs => proj1 (before_facts x s Hx Hs)) as Hb1.
  destruct (steps_grow x w w' w1 v ws w2 Hx Hst T) as ((_ & _ & _ & F4) & Hmx & F1 & F2 & G1 & G2 & G3 & G4 & F5).
  destruct Hst as [E1 E2 E3 E4 Eend]. destruct (write_stashes_mono _ w w1 E1 Hb1 T) as (_ & M2 & _ & M4 & _).
  pose proof (write_stashes_sum _ w w1 E1 Hb1 Sm) as Sm1.
  assert (forall b, b ∈ tgt_ranges (st !!! x) -> u_dev u b = sblk b) as Htdev.
  { intros b Hb. rewrite (proj2 (D b)); [by apply (Horig x)|]. by apply (not_written_yet st ts Hnd Hdisj pre x post b). }
  destruct (write_stashes_ran _ w w1 u0 u E1 R S1) as (u1 & R1 & S1' & D1 & P1 & W1); [|done| |lia|].
  { intros s Hs. destruct (before_facts x s Hx Hs) as (? & ? & _). done. }
  { intros s b Hs Hb _. apply Htdev. by apply (before_facts x s Hx Hs). }
  destruct (write_uses_ran _ Hws (u_saved u1) (w_stashes w1) S1' _ _ v E2) as (uses & fs & V1 & V2 & V3 & V4 & V5 & V6).
  { intros s Hs. by apply (use_facts pre x post). }
  { done. }
  { done. }
  simpl in V1, V3, V4, V6.
  destruct (source_words_ran (st !!! x) v ws u1 (u_saved u1) E3 Hws Hns) as [Q1 Q2]; [by rewrite V1|done|done| |done|].
  { intros En. rewrite En in E2. by injection E2 as <-. }
  destruct (write_command_ran (st !!! x) ws _ w2 u0 u1 E4 Hwt Hnt Hws Hns) as (u2 & R2 & S2 & P2 & W2 & D2); try done.
  { rewrite P1, P. exact Hc. }
  { rewrite G2. intros Hin. apply Q2. intros b [Hb Hno]%V6. rewrite D1, (proj2 (D b)); [by apply Htouch, Hin|].
    by apply (unstashed_unwritten pre x post). }
  { simpl. rewrite Sm1. by apply used_total. }
  { by rewrite G1. }
  { intros b Hb. rewrite D1. by apply Htdev. }
  simpl in W2. rewrite <- S2 in S1'. destruct V4 as [Hfp Hfr].
  destruct (Hfr (u_saved u2)) as (sv & Esv & Ksv & Isv); [by apply S1'|].
  destruct (write_uses_sum _ _ Hws _ v E2 (fun s Hs => use_facts pre x post s Hl Hs)) as [Usum Unil]. simpl in Usum, Unil.
  exists (mkU (u_dev u2) sv (u_pos u2) (u_written u2)). split; simpl.
  - rewrite Eend. destruct (u_free v) as [|f0 ff] eqn:Ef.
    + destruct fs; [|done]. injection Esv as <-. destruct u2. exact R2.
    + cbn [w_out]. eapply ran_app; [exact R2|]. apply ran_concat. rewrite V3. by apply frees_ran.
  - split; [by rewrite Ksv, G4, F1|]. intros s Hs. apply S1'. by apply Isv.
  - rewrite G4, F1, Eend. destruct (u_free v) as [|f0 ff] eqn:Ef; simpl.
    + destruct (Unil eq_refl) as [Uz _]. lia.
    + lia.
  - exact F4.
  - rewrite P2, P1, P. unfold new_sum. rewrite map_app, sumZ_app. simpl. lia.
  - lia.
  - intros b. rewrite written_snoc, D2, D1. destruct (D b) as [Da Db]. case_decide; split; tauto || (intros ?; apply Db; tauto) || (intros [?|?]; tauto).
Qed.

Lemma write_transfers_grow l : forall w w', (forall x, x ∈ l -> x ∈ ts) ->
  foldM (fun w i => write_transfer src max_allowed block (st !!! i) w) w l = Ok w' -> wf (w_touched w) -> grows w w'.
Proof.
  induction l as [|x l IH]; intros w w' Hl E T; cbn [foldM] in E; [injection E as <-; by split_and!|].
  destruct (write_transfer _ _ _ _ w) as [w1|] eqn:E1; [|done].
  destruct (write_transfer_grows x w w1 (Hl x (ltac:(by left))) E1 T) as (A1 & A0 & A2 & A3).
  destruct (IH w1 w') as (B1 & B0 & B2 & B3); [intros y Hy; apply Hl; by right|done..|]. split_and!; [lia|lia|auto|done].
Qed.

Lemma write_transfers_ran l : forall pre w w' u, ts = pre ++ l ->
  foldM (fun w i => write_transfer src max_allowed block (st !!! i) w) w l = Ok w' -> einv pre w u ->
  (forall p x q, ts = p ++ x :: q -> command_data (new_sum p) (st !!! x)) ->
  w_max w' <= room -> (forall b, b ∈ w_touched w' -> orig b = sblk b) -> exists u', einv ts w' u'.
Proof.
  induction l as [|x l IH]; intros pre w w' u Hl E He Hc Hm Ht; cbn [foldM] in E.
  - injection E as <-. exists u. by rewrite Hl, app_nil_r.
  - destruct (write_transfer _ _ _ _ w) as [w1|] eqn:E1; [|done].
    destruct (write_transfer_grows x w w1) as (A1 & A0 & A2 & A3); [rewrite Hl, elem_of_app; right; by left|done|apply He|].
    destruct (write_transfers_grow l w1 w') as (B1 & B0 & B2 & B3); [|done..|].
    { intros y Hy. rewrite Hl, elem_of_app. right. by right. }
    destruct (write_transfer_ran pre x l w w1 u Hl E1 He (Hc pre x l Hl)) as (u1 & He1); [lia|auto|].
    apply (IH (pre ++ [x]) w1 w' u1); try done. by rewrite <- app_assoc.
Qed.
End loop.

(** ** The whole list *)

(** What follows the commands of the transfers: the extended blocks are zeroed,
    and the blocks without data are erased, those no transfer reads first. *)
Lemma finish_list_lines limit version tgt w tf : finish_list limit version tgt src w = Ok tf ->
  wf (care_map tgt) -> wf (extended tgt) -> 0 <= total_blocks tgt -> wf (w_touched w) ->
  let dontcare b := 0 <= b < total_blocks tgt /\ b ∉ extended tgt /\ b ∉ care_map tgt in
  exists e1 e2 l1 l2 out,
    tf_lines tf = map end_line [py_str version; py_str (w_total w + size (extended tgt)); "0"; py_str (w_max w)] ++ (l1 ++ out ++ l2) /\
    erase_line e1 = Ok l1 /\ wf e1 /\ (forall b, b ∈ e1 <-> dontcare b /\ b ∉ w_touched w) /\
    erase_line e2 = Ok l2 /\ wf e2 /\ (forall b, b ∈ e2 <-> dontcare b /\ b ∈ w_touched w) /\
    WriteSplitTransfers "zero" (extended tgt) (w_out w) = Ok (size (extended tgt), out).
Proof.
  intros E Hc He Ht Hw dontcare. unfold finish_list in E.
  assert (exists out, WriteSplitTransfers "zero" (extended tgt) (w_out w) = Ok (size (extended tgt), out) /\
    (if rs_bool (extended tgt) then let! (n, out) := WriteSplitTransfers "zero" (extended tgt) (w_out w) in
       assert! n =? size (extended tgt) in Ok (w_total w + size (extended tgt), out)
     else Ok (w_total w, w_out w)) = Ok (w_total w + size (extended tgt), out)) as (out & Hout & Hext).
  { destruct (rs_bool (extended tgt)) eqn:Eb.
    - destruct (WriteSplitTransfers_ok "zero" (extended tgt) (w_out w) He) as [out Ho]; [by right|]. exists out.
      by rewrite Ho, Z.eqb_refl.
    - exists (w_out w). unfold rs_bool in Eb. unfold WriteSplitTransfers, size.
      destruct (extended tgt) as [[|? ?] ? ?]; [|done]. simpl. by rewrite Z.add_0_r. }
  rewrite Hext in E. destruct (of_data_upto (total_blocks tgt) Ht) as (a & Ea & Hwa & Hxa). rewrite Ea in E.
  destruct (subtract_ok a (extended tgt) Hwa He) as (b & Eb & Hwb & Hxb). rewrite Eb in E.
  destruct (subtract_ok b (care_map tgt) Hwb Hc) as (c & Ec & Hwc & Hxc). rewrite Ec in E.
  destruct (subtract_ok c (w_touched w) Hwc Hw) as (d & Ed & Hwd & Hxd). rewrite Ed in E.
  destruct (erase_line d) as [l1|] eqn:E1; [|done].
  destruct (subtract_ok c d Hwc Hwd) as (f & Ef & Hwf & Hxf). rewrite Ef in E.
  destruct (erase_line f) as [l2|] eqn:E2; [|done]. destruct (log_limit _ _); [|done]. injection E as <-.
  assert (forall x, x ∈ c <-> dontcare x) as Hdc by (intros x; unfold dontcare; rewrite Hxc, Hxb, Hxa; tauto).
  exists d, f, l1, l2, out. split_and!; try done.
  - intros x. by rewrite Hxd, Hdc.
  - intros x. rewrite Hxf, Hxd, Hdc. destruct (decide (x ∈ w_touched w)); tauto.
Qed.

Section whole.
Context (st : store) (ts : list tid) (Hnd : NoDup ts) (Hseq : sequenced st ts) (Hr : ranges_ok st ts).
Context (Hdisj : forall x y b, x ∈ ts -> y ∈ ts -> b ∈ tgt_ranges (st !!! x) -> b ∈ tgt_ranges (st !!! y) -> x = y).
Context (tgt : Image) (Hcare : wf (care_map tgt)) (Hext : wf (extended tgt)) (Htot : 0 <= total_blocks tgt).
Context (Hext_in : forall b, b ∈ extended tgt -> 0 <= b /\ b ∉ care_map tgt).
Context (Hwritten : forall b, written st ts b <-> b ∈ care_map tgt).
Context (Hdata : forall p x q, ts = p ++ x :: q -> command_data (new_sum st p) (st !!! x)).

(** What the device holds after the update: the target in the care map, zeroes in
    the extended blocks; the other blocks of the target were erased, and what is
    beyond it is as it was. *)
Definition after_update (b : Z) : string :=
  if decide (b ∈ care_map tgt) then tblk b
  else if decide (b ∈ extended tgt) then zero_block bs
  else if decide (0 <= b < total_blocks tgt) then discarded b
  else sblk b.

Lemma whole_list_ran max_allowed block limit version w tf :
  foldM (fun w i => write_transfer src max_allowed block (st !!! i) w) (mkW [] 0 [] 0 0 empty) ts = Ok w ->
  finish_list limit version tgt src w = Ok tf -> w_max w = room ->
  exists ls u, tf_lines tf = map end_line [py_str version; py_str (u_written u); "0"; py_str room] ++ ls /\
    ran run (mkU sblk [] 0 0) ls u /\ 0 <= u_written u /\ 0 <= room /\ u_pos u = new_sum st ts /\
    od_keys (u_saved u) = od_keys (w_stashes w) /\ forall b, u_dev u b = after_update b.
Proof.
  intros Ew Ef Hroom. destruct (write_transfers_grow st ts Hseq Hr max_allowed block ts _ w (fun x Hx => Hx) Ew wf_empty) as (G1 & G2 & _ & G4).
  simpl in G1, G2. destruct (finish_list_lines _ _ _ _ _ Ef Hcare Hext Htot G4) as (e1 & e2 & l1 & l2 & out & Hl & Z1 & We1 & X1 & Z2 & We2 & X2 & Zx).
  assert (nonneg e1) as N1 by (intros b Hb; by apply X1 in Hb as [[[? _] _] _]).
  assert (nonneg e2) as N2 by (intros b Hb; by apply X2 in Hb as [[[? _] _] _]).
  destruct (erase_ran e1 l1 (mkU sblk [] 0 0) We1 N1 Z1) as (u1 & R1 & D1 & S1 & P1 & W1). simpl in D1, S1, P1, W1.
  destruct (write_transfers_ran st ts Hnd Hseq Hr Hdisj (u_dev u1)) with (max_allowed := max_allowed) (block := block) (u0 := u1)
    (l := ts) (pre := @nil tid) (w := mkW [] 0 [] 0 0 empty) (w' := w) (u := u1) as (u2 & [R2 [K2 _] _ _ P2 W2 D2]); try done.
  { intros x b Hx Hb. rewrite D1, decide_False; [done|]. intros [[_ [_ Hc]] _]%X1. apply Hc, Hwritten. by exists x. }
  { split; simpl; try done; [apply ran_nil|rewrite S1; split; [done|by intros s ?%elem_of_nil]|apply wf_empty|]. intros b. split; [by intros (y & ?%elem_of_nil & _)|done]. }
  { lia. }
  { intros b Hb. rewrite D1, decide_False; [done|]. by intros [_ ?]%X1. }
  assert (nonneg (extended tgt)) as Nx by (intros b Hb; by apply Hext_in).
  destruct (write_zero_ran (extended tgt) _ _ _ u1 u2 Hext Nx Zx R2) as (u3 & R3 & [D3 S3 P3 W3]).
  destruct (erase_ran e2 l2 u3 We2 N2 Z2) as (u4 & R4 & D4 & S4 & P4 & W4).
  assert (u_written u4 = w_total w + size (extended tgt)) as HW by (rewrite W4, W3, W2, size_count; done).
  exists (l1 ++ out ++ l2), u4. rewrite HW. pose proof (size_nonneg _ Hext). split_and!.
  - rewrite <- Hroom. exact Hl.
  - eapply ran_app; [exact R1|]. eapply ran_app; [exact R3|exact R4].
  - lia.
  - lia.
  - rewrite P4, P3, P2. lia.
  - by rewrite S4, S3, K2.
  - intros b. rewrite D4, D3. unfold set_blocks, after_update. pose proof (elem_of_next_item b _ Hext) as Hi.
    destruct (D2 b) as [Da Db]. rewrite Hwritten in Da, Db. specialize (X1 b). specialize (X2 b). specialize (Hext_in b). specialize (D1 b).
    destruct (decide (b ∈ e2)), (decide (b ∈ next_item (extended tgt))), (decide (b ∈ care_map tgt)), (decide (b ∈ extended tgt)),
      (decide (0 <= b < total_blocks tgt)), (decide (b ∈ e1)); try tauto; try (by apply Da); by rewrite Db, D1 by tauto.
Qed.
End whole.
End updater.

(** Executing the file [WriteTransfers] writes. *)
Lemma WriteTransfers_run bs sha1 unsha1 apply_patch new_dat patch_dat discarded tblk sblk cache_size threshold version tgt src st ts tf :
  0 < bs -> (forall d, unsha1 (sha1 d) = d) -> (forall d, plain (sha1 d)) ->
  (forall b, str_len (tblk b) = bs) -> (forall b, str_len (sblk b) = bs) ->
  (forall r, wf r -> RangeSha1 src r = sha1 (read_blocks sblk (next_item r))) -> 3 <= version <= 4 ->
  NoDup ts -> sequenced st ts -> ranges_ok st ts ->
  (forall x y b, x ∈ ts -> y ∈ ts -> b ∈ tgt_ranges (st !!! x) -> b ∈ tgt_ranges (st !!! y) -> x = y) ->
  wf (care_map tgt) -> wf (extended tgt) -> 0 <= total_blocks tgt ->
  (forall b, b ∈ extended tgt -> 0 <= b /\ b ∉ care_map tgt) -> (forall b, written st ts b <-> b ∈ care_map tgt) ->
  (forall p x q, ts = p ++ x :: q -> command_data bs sha1 apply_patch new_dat patch_dat tblk sblk (new_sum bs st p) (st !!! x)) ->
  WriteTransfers cache_size threshold version tgt src (mkSeq st ts) = Ok tf ->
  exists u, run_text bs sha1 apply_patch new_dat patch_dat discarded (str_join "" (tf_lines tf)) sblk = Ok u /\
    u_pos u = new_sum bs st ts /\
    (forall limit w, cache_limit cache_size threshold = Ok limit ->
       foldM (fun w i => write_transfer src limit (blocksize tgt) (st !!! i) w) (mkW [] 0 [] 0 0 empty) ts = Ok w ->
       od_keys (u_saved u) = od_keys (w_stashes w)) /\
    forall b, u_dev u b = after_update bs discarded tblk sblk tgt b.
Proof.
  intros Hbs Hinv Hp Htl Hsl Hsha Hv Hnd Hseq Hr Hdisj Hc He Ht Hei Hw Hd E. unfold WriteTransfers in E. simpl in E.
  destruct (cache_limit _ _) as [limit|] eqn:Elim; [|done]. destruct (foldM _ _ ts) as [w|] eqn:Ew; [|done].
  destruct (whole_list_ran bs Hbs sha1 unsha1 Hinv Hp apply_patch new_dat patch_dat discarded (w_max w) tblk sblk Htl Hsl
    (fun sh => Z.max 0 (str_len (unsha1 sh) / bs))) with (src := src) (st := st) (ts := ts) (tgt := tgt)
    (max_allowed := limit) (block := blocksize tgt) (limit := limit) (version := version) (w := w) (tf := tf)
    as (ls & u & Hl & Hran & W0 & R0 & P & K & D); try done.
  { intros sh. lia. }
  { intros d. rewrite Hinv. pose proof (str_len_nonneg d). assert (0 <= str_len d / bs) by (apply Z.div_pos; lia). lia. }
  exists u. split; [|split; [done|split; [|done]]]; [|intros limit' w' [= <-] Ew'; rewrite Ew in Ew'; by injection Ew' as <-].
  unfold run_text. rewrite Hl.
  destruct (ran_lines _ _ _ _ Hran [py_str version; py_str (u_written u); "0"; py_str (w_max w)]) as (cmds & -> & Hrun).
  { repeat constructor; try apply plain_num; lia. }
  cbn [app]. rewrite !py_int_str by lia.
  assert ((3 <=? version) && (version <=? 4) = true) as -> by (apply andb_true_iff; split; apply Z.leb_le; lia).
  rewrite Hrun. by rewrite Z.eqb_refl.
Qed.
