(* ===== verification/ComputeProps.v ===== *)
(** [SelectAndConvertDiffTransfersToNew] only turns transfers into "new"; [Compute]
    from end to end: the states its passes hand to each other, and the data, hashes
    and patches of the commands it writes. *)

From S2P Require Export UpdaterFacts.

#[local] Open Scope string_scope.
#[local] Open Scope list_scope.
#[local] Open Scope Z_scope.

(** A transfer that may have become "new". *)
Record may_convert (x y : Transfer) : Prop := {
  mc_tgt : tgt_ranges y = tgt_ranges x;
  mc_tgt_sha1 : tgt_sha1 y = tgt_sha1 x;
  mc_src_sha1 : src_sha1 y = src_sha1 x;
  mc_kept : style y = style x /\ src_ranges y = src_ranges x /\ patch_info y = patch_info x \/
            style y = "new" /\ src_ranges y = empty
}.

Lemma may_convert_refl x : may_convert x x.
Proof. split; try done. by left. Qed.

Lemma may_convert_trans x y z : may_convert x y -> may_convert y z -> may_convert x z.
Proof.
  intros [A1 A2 A3 A4] [B1 B2 B3 B4]. split; [by rewrite B1|by rewrite B2|by rewrite B3|].
  destruct B4 as [(-> & -> & ->)|?]; [exact A4|by right].
Qed.

(** A transfer without its patch. *)
Definition nopatch (x : Transfer) : Transfer := put_patch_info None x.

Lemma nopatch_field {A} (g : Transfer -> A) x y : (forall z p, g (put_patch_info p z) = g z) -> nopatch x = nopatch y -> g x = g y.
Proof. intros Hg H. rewrite <- (Hg x None), <- (Hg y None). unfold nopatch in H. by rewrite H. Qed.

Section select.
Context (e : Env) (tgt src : Image) (Htools : tools_ok e).

Lemma queue_diff_ok st ts stats : NoDup ts -> (forall k i, ts !! k = Some i -> order (st !!! i) = Z.of_nat k) ->
  exists q stats', foldM (queue_diff (disable_imgdiff e) st) ([], stats) ts = Ok (q, stats') /\ numbered q /\
    NoDup (map (fun j : job => j.1.1) q) /\
    forall j, j ∈ q -> exists k i, ts !! k = Some i /\ j.1.1 = Z.of_nat k /\ style (st !!! i) = "diff".
Proof.
  intros Hnd Hord.
  destruct (foldM_ok (fun pre (acc : list job * DiffPlan.stats) => numbered acc.1 /\ NoDup (map (fun j : job => j.1.1) acc.1) /\
      forall j, j ∈ acc.1 -> exists k i, (k < length pre)%nat /\ ts !! k = Some i /\ j.1.1 = Z.of_nat k /\ style (st !!! i) = "diff")
    (queue_diff (disable_imgdiff e) st) ([], stats) ts) as ([q stats'] & Hq & H1 & H2 & H3).
  - split_and!; [by intros k j|apply NoDup_nil_2|by intros j ?%elem_of_nil].
  - intros pre i post [q st1] Hl (Q1 & Q2 & Q3). simpl in *. unfold queue_diff.
    assert (forall j, j ∈ q -> exists k i', (k < length (pre ++ [i]))%nat /\ ts !! k = Some i' /\ j.1.1 = Z.of_nat k /\
      style (st !!! i') = "diff") as Hold.
    { intros j Hj. destruct (Q3 j Hj) as (k & i' & ? & ? & ?). exists k, i'. rewrite length_app. simpl. split; [lia|done]. }
    destruct (String.eqb_spec (style (st !!! i)) "diff") as [Es|]; simpl; [|by exists (q, st1)].
    destruct (negb _); [|by exists (q, st1)]. rewrite CanUseImgdiff_ok. eexists. split; [done|]. simpl.
    assert (ts !! length pre = Some i) as Hi by by rewrite Hl, list_lookup_middle.
    split_and!; [by apply numbered_snoc| |].
    + rewrite map_app. apply NoDup_app. split_and!; [done| |apply NoDup_singleton].
      intros z Hz Hz'%list_elem_of_singleton. apply list_elem_of_In, in_map_iff in Hz as (j & <- & Hj).
      apply list_elem_of_In in Hj. destruct (Q3 j Hj) as (k & i' & Hk & _ & Ej & _). simpl in Hz'. rewrite (Hord _ _ Hi) in Hz'. lia.
    + intros j [Hj|Hj%list_elem_of_singleton]%elem_of_app; [by apply Hold|]. subst j. exists (length pre), i.
      rewrite length_app. simpl. split_and!; [lia|done|by apply Hord|done].
  - exists q, stats'. split_and!; try done. intros j Hj. destruct (H3 j Hj) as (k & i & _ & ?). by exists k, i.
Qed.

(** A transfer that may have got the patch of a diff tool. *)
Definition repatched (x0 x : Transfer) : Prop :=
  nopatch x0 = nopatch x /\
  (patch_info x = patch_info x0 \/
   exists info, patch_info x = Some info /\
     run_diff e (imgdiff info) (ReadRangeSet src (src_ranges x0)) (ReadRangeSet tgt (tgt_ranges x0)) = Some (content info)).

(** The candidates found so far. *)
Definition candidates_ok (st0 : store) (ts : list tid) (l : list (option patch_result)) (acc : store * list size_score) : Prop :=
  let '(st, cands) := acc in
  (forall i, repatched (st0 !!! i) (st !!! i)) /\ NoDup (map (fun c : size_score => c.1.1) cands) /\
  (forall c, c ∈ cands -> style (st0 !!! c.1.1) = "diff") /\
  (forall c, c ∈ cands -> exists r, Some r ∈ l /\ py_get ts r.1.1 = Ok c.1.1).

Lemma candidates_same st0 ts l o st cands : candidates_ok st0 ts l (st, cands) -> candidates_ok st0 ts (l ++ [o]) (st, cands).
Proof.
  intros (H1 & H2 & H3 & H4). split_and!; try done. intros c Hc. destruct (H4 c Hc) as (r & ? & ?). exists r.
  split; [apply elem_of_app; by left|done].
Qed.

Lemma candidates_snoc st0 ts l r i st cands u s : candidates_ok st0 ts l (st, cands) ->
  py_get ts r.1.1 = Ok i -> style (st0 !!! i) = "diff" -> (forall r', Some r' ∈ l -> py_get ts r'.1.1 <> Ok i) ->
  candidates_ok st0 ts (l ++ [Some r]) (st, cands ++ [(i, u, s)]).
Proof.
  intros (H1 & H2 & H3 & H4) Hi Hs Hn. split_and!; [done| | |].
  - rewrite map_app. apply NoDup_app. split_and!; [done| |apply NoDup_singleton]. simpl.
    intros z Hz ->%list_elem_of_singleton. apply list_elem_of_In, in_map_iff in Hz as (c & Ec & Hc).
    apply list_elem_of_In in Hc. destruct (H4 c Hc) as (r' & Hr' & Hg). rewrite Ec in Hg. by apply (Hn r').
  - intros c [Hc|Hc%list_elem_of_singleton]%elem_of_app; [by apply H3|]. by subst c.
  - intros c [Hc|Hc%list_elem_of_singleton]%elem_of_app.
    + destruct (H4 c Hc) as (r' & ? & ?). exists r'. split; [apply elem_of_app; by left|done].
    + subst c. exists r. split; [apply elem_of_app; right; by left|done].
Qed.

Lemma add_candidate_ok st0 ts l acc r i n : candidates_ok st0 ts l acc ->
  py_get ts r.1.1 = Ok i -> r.2 = Some n -> 0 < n -> style (st0 !!! i) = "diff" ->
  (exists b, patch_of e tgt src (st0 !!! i) b r.1.2) -> (forall r', Some r' ∈ l -> py_get ts r'.1.1 <> Ok i) ->
  exists acc', add_candidate ts acc (Some r) = Ok acc' /\ candidates_ok st0 ts (l ++ [Some r]) acc'.
Proof.
  intros Hc Hi Hr Hn Hs [b Hb] Hne. destruct acc as [st cands], r as [[z info] cs]. simpl in Hi, Hr, Hb. subst cs. pose proof Hc as (Hsame & _).
  assert (exists st1 info1, (match patch_info (st !!! i) with None => set_patch_info i (Some info) st | Some _ => Ok st end) = Ok st1 /\
    patch_info (st1 !!! i) = Some info1 /\ candidates_ok st0 ts l (st1, cands)) as (st1 & info1 & Hset & Hinfo & Hc1).
  { destruct (patch_info (st !!! i)) as [p|] eqn:Ep; [by exists st, p|].
    assert (style (st !!! i) = "diff") as Hs'.
    { rewrite <- Hs. symmetry. apply nopatch_field; [setter|]. apply Hsame. }
    unfold set_patch_info. rewrite Hs'. simpl. eexists _, info. split; [done|]. split.
    - rewrite lookup_total_upd_eq. by destruct (st !!! i).
    - destruct Hc as (_ & ?). split; [|done]. intros j. rewrite lookup_total_upd. case_decide; [subst j|apply Hsame].
      destruct (Hsame i) as [Hnp Hpi]. split; [rewrite Hnp; by destruct (st !!! i)|]. right. exists info. split; [by destruct (st !!! i)|].
      destruct Hpi as [Hpi|(p & Hpi & _)]; [|congruence]. unfold patch_of in Hb. rewrite <- Hpi, Ep in Hb.
      destruct Hb as [Hb ->]. exact Hb. }
  unfold add_candidate. simpl of_option. cbv iota beta. rewrite Hi, Hset, Hinfo. simpl.
  unfold float_div_count. destruct (Z.eqb_spec n 0); [lia|]. cbv iota beta zeta.
  destruct (n <=? _); [eexists; split; [done|by apply candidates_snoc]|].
  destruct (Z.ltb_spec 0 (stash_size (use_stash (st1 !!! i)))); [|eexists; split; [done|by apply candidates_same]].
  destruct (Z.eqb_spec (stash_size (use_stash (st1 !!! i))) 0); [lia|].
  eexists; split; [done|by apply candidates_snoc].
Qed.

Lemma ConvertToNew_converts i st st' : ConvertToNew i st = Ok st' ->
  framed may_convert st st' /\ forall j, j <> i -> st' !!! j = st !!! j.
Proof.
  unfold ConvertToNew. destruct (negb _); [|done]. simpl. intros [= <-]. split.
  - intros j. destruct (decide (j = i)) as [->|Hj]; [|rewrite !lookup_total_upd_ne by done; apply may_convert_refl].
    rewrite !lookup_total_upd_eq. split; try by destruct (st !!! i). right. by destruct (st !!! i).
  - intros j Hj. by rewrite !lookup_total_upd_ne.
Qed.

Lemma convert_candidates_ok violated l : forall removed st, NoDup (map (fun c : size_score => c.1.1) l) ->
  (forall c, c ∈ l -> style (st !!! c.1.1) = "diff") ->
  exists st', convert_candidates violated removed st l = Ok st' /\ framed may_convert st st'.
Proof.
  induction l as [|[[i u] s] l IH]; intros removed st Hnd Hs; simpl.
  { exists st. split; [done|]. intros j. apply may_convert_refl. }
  apply NoDup_cons in Hnd as [Hi Hnd].
  assert (exists st1, ConvertToNew i st = Ok st1) as [st1 H1].
  { assert (style (st !!! i) = "diff") as E by (apply (Hs (i, u, s)); by left). unfold ConvertToNew. rewrite E. simpl. eauto. }
  rewrite H1. destruct (ConvertToNew_converts i st st1 H1) as [Hsel Ho].
  destruct (Z_geb_float _ _); [by exists st1|].
  destruct (IH (removed + u) st1 Hnd) as (st2 & -> & Hsel2).
  { intros c Hc. rewrite Ho; [apply Hs; by right|]. intros E. apply Hi. simpl. rewrite <- E.
    apply list_elem_of_In, (in_map (fun c : size_score => c.1.1) l c), list_elem_of_In. exact Hc. }
  exists st2. split; [done|]. by eapply framed_trans; [exact may_convert_trans|exact Hsel|].
Qed.

Lemma SelectAndConvert_ok violated s stats : NoDup (sq_transfers s) -> ordered s ->
  exists s' stats', SelectAndConvertDiffTransfersToNew (disable_imgdiff e) (patches_for e tgt src true (sq_transfers s))
      violated s stats = Ok (s', stats') /\
    sq_transfers s' = sq_transfers s /\
    exists st1, (forall i, repatched (sq_store s !!! i) (st1 !!! i)) /\ framed may_convert st1 (sq_store s').
Proof.
  intros Hnd Hord. set (st := sq_store s). set (ts := sq_transfers s) in *. unfold SelectAndConvertDiffTransfersToNew. fold st ts.
  destruct (queue_diff_ok st ts stats Hnd Hord) as (q & stats' & -> & Q1 & Q2 & Q3).
  assert (forall j, j ∈ q -> exists k i, py_get ts j.1.1 = Ok i /\ j.1.1 = Z.of_nat k /\ style (st !!! i) = "diff") as Hq.
  { intros j Hj. destruct (Q3 j Hj) as (k & i & Hk & Ej & Hs). exists k, i. split_and!; try done.
    rewrite Ej. apply py_get_nonneg; [lia|]. by rewrite Nat2Z.id. }
  destruct (patches_for_ok e tgt src Htools true ts st q Q1) as (rs & -> & Hrs).
  { intros j Hj. destruct (Hq j Hj) as (k & i & ? & _). by exists i. }
  destruct (foldM_ok (candidates_ok st ts) (add_candidate ts) (st, []) (map Some rs)) as ([st1 cands] & -> & C1 & C2 & C3 & _).
  - split_and!; [|apply NoDup_nil_2|by intros c ?%elem_of_nil|by intros c ?%elem_of_nil].
    intros i. split; [done|by left].
  - intros pre o post acc Hl Hp.
    assert (map Some rs !! length pre = Some o) as Ho by by rewrite Hl, list_lookup_middle.
    rewrite lookup_map in Ho. destruct (rs !! length pre) as [r|] eqn:Er; [|done]. simpl in Ho. injection Ho as <-.
    destruct (Forall2_lookup_r _ _ _ _ _ Hrs Er) as (j & Hj & i & Hi & Hz & Hpo & Hcs).
    destruct (Hcs eq_refl) as (n & Hn & Hn0).
    destruct (Hq j) as (k & i' & Hi' & Ej & Hs); [by eapply list_elem_of_lookup_2|].
    rewrite Hi in Hi'. injection Hi' as <-. rewrite <- Hz in Hi.
    apply (add_candidate_ok st ts pre acc r i n); try done; [by eexists|].
    intros r' Hr' Hg. apply list_elem_of_lookup in Hr' as [m Hm]. pose proof (lookup_lt_Some _ _ _ Hm) as Hlt.
    assert (map Some rs !! m = Some (Some r')) as Hm' by by rewrite Hl, lookup_app_l.
    rewrite lookup_map in Hm'. destruct (rs !! m) as [r0|] eqn:Em; [|done]. simpl in Hm'. injection Hm' as ->.
    destruct (Forall2_lookup_r _ _ _ _ _ Hrs Em) as (j' & Hj' & i' & Hi' & Hz' & _).
    destruct (Hq j') as (k' & i2 & _ & Ej' & _); [by eapply list_elem_of_lookup_2|].
    rewrite Hz, Ej in Hi. rewrite Hz', Ej' in Hg.
    assert (k' = k) as -> by (by eapply py_get_inj).
    assert (m = length pre); [|lia]. eapply (NoDup_lookup _ _ _ (j.1.1) Q2); rewrite lookup_map; [rewrite Hj'|rewrite Hj]; simpl; congruence.
  - destruct (convert_candidates_ok violated (sort_by score_leb cands) 0 st1) as (st2 & -> & Hsel).
    + rewrite (Permutation_map _ (sort_by_perm score_leb cands)). exact C2.
    + intros c Hc. apply elem_of_sort_by in Hc. rewrite <- (C3 c Hc).
      symmetry. apply nopatch_field; [setter|]. apply C1.
    + eexists _, _. split; [done|]. simpl. split; [done|]. by exists st1.
Qed.
End select.

(** * Images, hashes and tools *)

(** The blocks of an image, what it reads, and its files. *)
Record image_data (img : Image) (blk : Z -> string) : Prop := {
  im_block : forall b, str_len (blk b) = blocksize img;
  im_read : forall r, wf r -> ReadRangeSet img r = read_blocks blk (next_item r);
  im_zero : forall z b, ("__ZERO", z) ∈ file_map img -> b ∈ z -> blk b = zero_block (blocksize img);
  im_files : files_ok img
}.

Record target_image (tgt : Image) : Prop := {
  ti_care : wf (care_map tgt) /\ nonneg (care_map tgt) /\ forall b, b ∈ care_map tgt -> b < total_blocks tgt;
  ti_extended : wf (extended tgt) /\ forall b, b ∈ extended tgt -> 0 <= b /\ b ∉ care_map tgt;
  ti_total : 0 <= total_blocks tgt;
  ti_tree : forall k r, (k, r) ∈ file_map tgt -> k <> "__HASHTREE"
}.

(** The limits the options give: [c] is the cache size, [mx] the largest
    transfer, and the two limits on the stash agree. *)
Record options_ok (e : Env) (bs : Z) (c mx : Z) (limit max_allowed : py_float) : Prop := {
  op_cache : cache_size e = Some c;
  op_max : max_blocks_of c bs = Ok mx /\ 0 < mx;
  op_limit : stash_limit c (stash_threshold e) bs = Ok limit /\ exceeds (Some limit) 0 = false;
  op_allowed : cache_limit (Some c) (stash_threshold e) = Ok (Some max_allowed) /\ float_true max_allowed = true;
  op_agree : limits_agree (Some limit) (Some max_allowed) bs
}.

Section compute.
Context (e : Env) (tgt src : Image) (tblk sblk : Z -> string).
Context (apply_patch : bool -> string -> string -> string).
Context (Himg_t : image_data tgt tblk) (Himg_s : image_data src sblk) (Htgt : target_image tgt).
Context (Hbs : blocksize src = blocksize tgt) (Hbs0 : 0 < blocksize tgt).
(* the hash has no collisions: the data can be told from it *)
Context (sha1 unsha1 : string -> string) (Hinv : forall d, unsha1 (sha1 d) = d).
Context (Hsha_t : forall r, RangeSha1 tgt r = sha1 (ReadRangeSet tgt r)).
Context (Hsha_s : forall r, RangeSha1 src r = sha1 (ReadRangeSet src r)).
(* the tools: a patch turns the source data into the target data *)
Context (Htools : tools_ok e).
Context (Hpatch : forall b s t p, run_diff e b s t = Some p -> apply_patch b p s = t).

(** The part of a split patch that belongs to a piece. *)
Definition piece_patch (t s : RangeSet) (p : string) : Prop :=
  apply_patch true p (ReadRangeSet src s) = ReadRangeSet tgt t.

Lemma read_len img blk r : image_data img blk -> wf r -> str_len (ReadRangeSet img r) = size r * blocksize img.
Proof. intros [H1 H2 _ _] Hr. by rewrite H2, (read_blocks_len (blocksize img)), size_count by done. Qed.

Lemma same_hash_data t s : RangeSha1 src s = RangeSha1 tgt t -> ReadRangeSet src s = ReadRangeSet tgt t.
Proof. rewrite Hsha_t, Hsha_s. intros H. by rewrite <- (Hinv (ReadRangeSet src s)), H, Hinv. Qed.

Lemma same_hash_size t s : wf t -> wf s -> RangeSha1 src s = RangeSha1 tgt t -> size s = size t.
Proof.
  intros Ht Hs H%same_hash_data. pose proof (read_len _ _ t Himg_t Ht) as H1. pose proof (read_len _ _ s Himg_s Hs) as H2.
  rewrite H, H1, Hbs in H2. nia.
Qed.

Definition hash_size (sh : string) : Z := Z.max 0 (str_len (unsha1 sh) / blocksize tgt).

Lemma hash_size_ok : slot_sizes src hash_size.
Proof.
  split; unfold hash_size; [lia|]. intros r Hr. rewrite Hsha_s, Hinv, (read_len _ _ r Himg_s Hr), Hbs, Z.div_mul by lia.
  pose proof (size_nonneg r Hr). lia.
Qed.

(** * States the passes hand to each other *)

(** The patch a transfer has is right. *)
Definition good_info (x : Transfer) : Prop := forall p, patch_info x = Some p ->
  apply_patch (imgdiff p) (content p) (ReadRangeSet src (src_ranges x)) = ReadRangeSet tgt (tgt_ranges x).

Record sound_transfer (x : Transfer) : Prop := {
  so_styled : styled tgt src (style x) (tgt_ranges x) (src_ranges x);
  so_tgt_sha1 : tgt_sha1 x = RangeSha1 tgt (tgt_ranges x);
  so_src_sha1 : style x = "diff" -> src_sha1 x = RangeSha1 src (src_ranges x);
  so_info : style x = "diff" -> good_info x
}.

Record planned (s : SeqState) : Prop := {
  pn_nd : NoDup (sq_transfers s);
  pn_ranges : ranges_ok (sq_store s) (sq_transfers s);
  pn_targets : targets_ok tgt (sq_store s) (sq_transfers s);
  pn_sound : forall x, x ∈ sq_transfers s -> sound_transfer (sq_store s !!! x);
  pn_inside : forall x b, x ∈ sq_transfers s -> b ∈ tgt_ranges (sq_store s !!! x) -> b ∈ care_map tgt
}.

Lemma styled_styles st ts : (forall x, x ∈ ts -> sound_transfer (st !!! x)) -> plan_styles st ts.
Proof.
  intros H x Hx. destruct (H x Hx) as [[Ht Hs] _ _ _]. split; [done|].
  destruct Hs as [(? & _)|[?|?]]; [by left|by right; left|by right; right].
Qed.

Lemma sound_converts x y : may_convert x y -> sound_transfer x -> sound_transfer y.
Proof.
  intros [C1 C2 C3 C4] [[T S] H1 H2 H3]. destruct C4 as [(E1 & E2 & E3)|[E1 E2]].
  - split; rewrite ?C1, ?C2, ?C3, ?E1, ?E2; try done. intros E p. rewrite E3, E2, C1. by apply H3.
  - split; rewrite ?C1, ?C2, ?E1, ?E2; try done. split; [done|]. by right; left.
Qed.

Lemma sound_repatched x y : repatched e tgt src x y -> sound_transfer x -> sound_transfer y.
Proof.
  intros [Hn Hp] [H1 H2 H3 H4].
  assert (forall A (g : Transfer -> A), (forall z p, g (put_patch_info p z) = g z) -> g y = g x) as Hg.
  { intros A g Hg. symmetry. by apply nopatch_field. }
  assert (style y = style x /\ tgt_ranges y = tgt_ranges x /\ src_ranges y = src_ranges x /\
    tgt_sha1 y = tgt_sha1 x /\ src_sha1 y = src_sha1 x) as (E1 & E2 & E3 & E4 & E5) by (split_and!; apply Hg; setter).
  split; rewrite ?E1, ?E2, ?E3, ?E4, ?E5; try done. intros E p Hi. rewrite E2, E3.
  destruct Hp as [Hp|(info & Hp & Hd)]; [apply (H4 E); congruence|]. rewrite Hp in Hi. injection Hi as <-. by eapply Hpatch.
Qed.

Lemma sound_statics x y : statics x = statics y -> sound_transfer x -> sound_transfer y.
Proof.
  unfold statics. intros [= E1 E2 E3 E4 E5 E6 E7 E8 E9] [H1 H2 H3 H4]. unfold good_info in *.
  split; rewrite <- ?E7, <- ?E3, <- ?E4, <- ?E5, <- ?E6; try done. intros E p. rewrite <- E9, <- E3, <- E4. by apply H4.
Qed.

(** Conversions keep a plan a plan. *)
Lemma planned_converts s s' : planned s -> sq_transfers s' = sq_transfers s ->
  framed may_convert (sq_store s) (sq_store s') -> planned s'.
Proof.
  intros [N R [T1 T2 T3] S I] Ht Hc.
  assert (forall x, tgt_ranges (sq_store s' !!! x) = tgt_ranges (sq_store s !!! x)) as Htg by (intros x; apply Hc).
  split; rewrite Ht; [done| | | |].
  - intros x Hx. destruct (R x Hx) as (R1 & R2 & R3 & R4). rewrite Htg. split_and!; try done.
    + destruct (mc_kept _ _ (Hc x)) as [(_ & -> & _)|[_ ->]]; [done|]. split; [constructor|done].
    + destruct (mc_kept _ _ (Hc x)) as [(_ & -> & _)|[_ ->]]; [done|]. intros b Hb. discriminate Hb.
  - split.
    + intros x b Hx. rewrite Htg. by apply T1.
    + intros x y b. rewrite !Htg. apply T2.
    + intros b Hb. destruct (T3 b Hb) as (y & Hy & Hby). exists y. by rewrite Htg.
  - intros x Hx. eapply sound_converts; [apply Hc|by apply S].
  - intros x b. rewrite Htg. apply I.
Qed.

Lemma planned_repatched s st' : planned s -> (forall i, repatched e tgt src (sq_store s !!! i) (st' !!! i)) ->
  planned (mkSeq st' (sq_transfers s)).
Proof.
  intros [N R [T1 T2 T3] S I] Hr.
  assert (forall x, tgt_ranges (st' !!! x) = tgt_ranges (sq_store s !!! x)) as Htg.
  { intros x. symmetry. apply nopatch_field; [setter|]. apply Hr. }
  assert (forall x, src_ranges (st' !!! x) = src_ranges (sq_store s !!! x)) as Hsg.
  { intros x. symmetry. apply nopatch_field; [setter|]. apply Hr. }
  split; simpl; [done| | | |].
  - intros x Hx. rewrite Htg, Hsg. by apply R.
  - split.
    + intros x b Hx. rewrite Htg. by apply T1.
    + intros x y b. rewrite !Htg. apply T2.
    + intros b Hb. destruct (T3 b Hb) as (y & Hy & Hby). exists y. by rewrite Htg.
  - intros x Hx. eapply sound_repatched; [apply Hr|by apply S].
  - intros x b. rewrite Htg. apply I.
Qed.

(** Finding the order keeps a plan a plan. *)
Lemma find_planned s : planned s ->
  exists s1, FindSequenceForTransfers s = Ok s1 /\ sq_transfers s1 ≡ₚ sq_transfers s /\ ordered s1 /\ planned s1.
Proof.
  intros [N R T S I]. destruct (FindSequenceForTransfers_ok s N R) as (s1 & Hf & Hp & Hs & Ho & _).
  exists s1. split_and!; try done. split.
  - by rewrite Hp.
  - apply (ranges_ok_same _ _ _ Hs). intros i Hi. apply R. by rewrite <- Hp.
  - by eapply targets_ok_same.
  - intros x Hx. eapply sound_statics; [symmetry; apply Hs|]. apply S. by rewrite <- Hp.
  - intros x b. rewrite Hp, (proj1 (same_statics_ranges _ _ x Hs)). apply I.
Qed.

Lemma sha1_good s : (forall x, x ∈ sq_transfers s -> sound_transfer (sq_store s !!! x)) -> AssertSha1Good tgt src s = Ok tt.
Proof.
  unfold AssertSha1Good. induction (sq_transfers s) as [|x ts IH]; intros H; simpl; [done|].
  destruct (H x) as [_ H1 H2 _]; [by left|]. rewrite H1, String.eqb_refl.
  destruct (String.eqb_spec (style (sq_store s !!! x)) "diff") as [E|]; [rewrite H2, String.eqb_refl by done|];
    apply IH; intros y Hy; apply H; by right.
Qed.

(** ** From a plan to the transfer list *)

Section finish.
Context (c mx : Z) (limit max_allowed : py_float) (Hop : options_ok e (blocksize tgt) c mx limit max_allowed).

(** What is left to do after the plan is made, and how it ends. *)
Record finished (s1 s2 : SeqState) : Prop := {
  fi_revise : exists nb n1, ReviseStashSize src (Some limit) s1 = Ok (s2, nb, n1);
  fi_planned : planned s2;
  fi_good : AssertSequenceGood tgt s2 = Ok tt;
  fi_seq : sequenced (sq_store s2) (sq_transfers s2);
  fi_write : forall st', patched (sq_transfers s2) (sq_store s2) st' ->
    exists tf n, WriteTransfers (cache_size e) (stash_threshold e) (version e) tgt src (mkSeq st' (sq_transfers s2)) = Ok tf /\
      0 <= n /\ exceeds (Some limit) n = false /\ tf_max_stashed_size tf = n * blocksize tgt /\
      ends_empty (cache_size e) (stash_threshold e) (blocksize tgt) src (mkSeq st' (sq_transfers s2))
}.

Lemma finish_ok s : planned s ->
  exists s1 s2, FindSequenceForTransfers s = Ok s1 /\ finished s1 s2.
Proof.
  intros Hp. pose proof Hp as [N R T S _]. pose proof (styled_styles _ _ S) as Hst.
  destruct Hop as [Oc _ [Ol Oe] [Oa Oz] Og]. destruct Htgt as [(Tc & Tn & _) [Te _] Tt _].
  destruct (find_planned s Hp) as (s1 & Hf & Hperm & Ho & Hp1).
  destruct (find_then_revise hash_size tgt src (Some limit) s N R (plan_styles_ok _ _ R Hst) T Oe)
    as (s1' & s2 & nb & n1 & Hf' & Hrev & Hts & _ & _ & Hseq & Hr2 & T2 & _).
  rewrite Hf in Hf'. injection Hf' as <-.
  destruct (write_revised_ok hash_size tgt src (Some limit) s (cache_size e) (stash_threshold e) (Some max_allowed) (version e) N R Hst T Oe
    hash_size_ok) as (s1' & s2' & nb' & n1' & Hf' & Hrev' & Hw); try done.
  { by rewrite Oc. }
  { lia. }
  rewrite Hf in Hf'. injection Hf' as <-. rewrite Hrev in Hrev'. injection Hrev' as <- <- <-.
  exists s1, s2. split; [done|].
  assert (planned s2) as Hp2.
  { apply (planned_converts s1); [done|done|].
    apply (ReviseStashSize_framed may_convert) with (src := src) (limit := Some limit) (nb := nb) (mx := n1); try done.
    - apply may_convert_refl.
    - apply may_convert_trans.
    - intros x l. split; try by destruct x. left. by destruct x.
    - intros x. split; try by destruct x. right. by destruct x. }
  split; [by exists nb, n1|done| |done|].
  - destruct T2 as [A1 A2 A3]. destruct (sequenced_good tgt (sq_store s2) (sq_transfers s2)) as [G1 G2]; try done; [apply Hp2|].
    destruct s2 as [st2 ts2]. by apply AssertSequenceGood_iff.
  - intros st' Hpa. destruct (Hw st' Hpa) as (tf & n & Hwr & [Hn _] & Hsz & Hex & _ & _ & _ & Hend). by exists tf, n.
Qed.

(** [ComputePatches] on such a state. *)
Lemma patches_patched ts st st' : (forall i, i ∈ ts -> sound_transfer (st !!! i)) -> ranges_ok st ts ->
  (forall i, nopos (st' !!! i) = nopos (if decide (i ∈ ts) then finalize e (st !!! i) else st !!! i)) -> patched ts st st'.
Proof.
  intros Hs Hr Hn.
  assert (forall A (g : Transfer -> A), (forall z a l, g (set_patch_pos a l z) = g z) -> (forall x, g (finalize e x) = g x) ->
    same_on g st st') as Hg.
  { intros A g H1 H2 i. rewrite (nopos_field g _ _ H1 (Hn i)). case_decide; [apply H2|done]. }
  split; try (apply Hg; [setter|intros x; apply finalize_ranges]).
  intros x Hx. rewrite (nopos_field style _ _ (ltac:(setter)) (Hn x)), decide_True by done. unfold finalize.
  destruct (String.eqb_spec (style (st !!! x)) "diff") as [E|]; [|done].
  destruct (String.eqb_spec (src_sha1 (st !!! x)) (tgt_sha1 (st !!! x))) as [E2|].
  - left. split; [by destruct (st !!! x)|]. destruct (Hs x Hx) as [_ H1 H2 _]. destruct (Hr x Hx) as (? & _ & ? & _).
    apply same_hash_size; [done..|]. by rewrite <- (H2 E), <- H1.
  - right. destruct (kind e (st !!! x)); [right|left]; by destruct (st !!! x).
Qed.
(** The space for stashes is limited, with or without converting transfers. *)
Lemma limit_stash_ok s0 s1 stats : planned s0 -> FindSequenceForTransfers s0 = Ok s1 ->
  exists s1' s2 stats', limit_stash e tgt src s1 stats = Ok (s2, stats') /\ finished s1' s2.
Proof.
  intros Hp0 Hf. pose proof Hp0 as [N R T S _]. pose proof Hop as [Oc _ [Ol _] _ _].
  destruct (find_planned s0 Hp0) as (s1' & Hf' & _ & Ho & Hp1). rewrite Hf in Hf'. injection Hf' as <-.
  destruct (find_then_revise hash_size tgt src None s0 N R (plan_styles_ok _ _ R (styled_styles _ _ S)) T eq_refl)
    as (s1' & s1r & nb & n0 & Hf' & Hrev & Hts & _ & _ & _ & _ & _ & _ & _ & _ & _ & Hnone & _).
  rewrite Hf in Hf'. injection Hf' as <-. destruct (Hnone eq_refl) as [Hst _].
  assert (s1r = s1) as -> by (destruct s1r, s1; simpl in *; congruence).
  unfold limit_stash. rewrite Oc, Ol. simpl. rewrite Hrev. cbv beta iota zeta.
  destruct (Z_gtb_float _ _).
  - destruct (SelectAndConvert_ok e tgt src Htools (float_sub (float_of_count n0) limit) s1 stats) as (s2 & stats' & -> & Ht2 & st1 & Hr1 & Hc1);
      [apply Hp1|done|].
    assert (planned s2) as Hp2.
    { apply (planned_converts (mkSeq st1 (sq_transfers s1))); [by apply planned_repatched|done|done]. }
    destruct (finish_ok s2 Hp2) as (s3 & s4 & -> & Hfin). exists s3, s4, stats'.
    destruct (fi_revise _ _ Hfin) as (nb' & n1 & Hrev'). rewrite Ol, Hrev'. done.
  - destruct (finish_ok s0 Hp0) as (s1' & s2 & Hf' & Hfin). rewrite Hf in Hf'. injection Hf' as <-.
    exists s1, s2, stats. destruct (fi_revise _ _ Hfin) as (nb' & n1 & Hrev'). rewrite Ol, Hrev'. done.
Qed.

(** The plan that [FindTransfers] makes. *)
Lemma find_transfers_planned bases pats : AssertPartition (care_map tgt) (map snd (file_map tgt)) = Ok tt -> (0 < threads e)%nat -> imgdiff_ok piece_patch (run_imgdiff e) ->
  AbbreviateSourceNames src = (bases, pats) ->
  exists p, FindTransfers (cache_size e) tgt src (disable_imgdiff e) (run_imgdiff e) (threads e) bases pats (mkPlan ∅ [] [] []) = Ok p /\
    planned (mkSeq (p_store p) (p_transfers p)).
Proof.
  intros Tp Hthr Himg Hn. pose proof (AbbreviateSourceNames_ok src) as Hbp. rewrite Hn in Hbp. destruct Hbp as [Hb Hp].
  destruct Hop as [Oc [Om Om0] _ _ _]. destruct Htgt as [(Tc & Tn & Tb) [Te _] Tt Th].
  unfold FindTransfers. rewrite Oc, Om. change (mkPlan ∅ [] [] []) with empty_plan.
  destruct (FindTransfers_with_ok tgt src _ (disable_imgdiff e) mx Om0 (run_imgdiff e) (threads e) Hthr Himg bases pats
    (im_files _ _ Himg_t) (im_files _ _ Himg_s) Hb Hp empty_plan (empty_plan_ok tgt src _)) as (p & -> & [Hok Hperm] & Hlg).
  exists p. split; [done|]. simpl in Hperm.
  destruct (partition_blocks tgt Tc (im_files _ _ Himg_t) Tp Th) as [Hnd Hin].
  destruct (plan_targets_ok tgt src _ p (file_blocks tgt) Hok Hlg Hperm Hnd) as (Hnt & Hr & Htg).
  { intros b Hbb. by apply Tb, Hin. }
  { intros b. by apply Hin. }
  destruct Hok as [P1 P2 PM P3]. split; simpl; try done.
  - intros x Hx. destruct (PM x Hx) as [M1 M2 M3 M4]. split; try done. intros _ q Hq. destruct (M4 q Hq) as [-> M]. exact M.
  - intros x b Hx Hbx. apply Hin. rewrite <- Hperm. unfold plan_blocks. rewrite Hlg, app_nil_r.
    apply list_elem_of_In, in_flat_map. exists x. split; [by apply list_elem_of_In|].
    apply list_elem_of_In, elem_of_next_item; [by apply P2|done].
Qed.
End finish.

(** ** The commands *)

Lemma new_data_app st l1 l2 : new_data tgt st (l1 ++ l2) = new_data tgt st l1 +:+ new_data tgt st l2.
Proof. unfold new_data. by rewrite filter_app, map_app, str_concat_app. Qed.

Lemma new_data_cons st j l : new_data tgt st (j :: l) =
  if decide (style (st !!! j) = "new") then ReadRangeSet tgt (tgt_ranges (st !!! j)) +:+ new_data tgt st l else new_data tgt st l.
Proof.
  unfold new_data. unfold filter at 1. simpl. case_decide; [|done]. cbn [map]. by rewrite str_concat_cons.
Qed.

Lemma new_data_len st l : (forall j, j ∈ l -> wf (tgt_ranges (st !!! j))) -> str_len (new_data tgt st l) = new_sum (blocksize tgt) st l.
Proof.
  unfold new_sum, new_len. induction l as [|j l IH]; intros Hw; [done|]. rewrite new_data_cons. cbn [map].
  change (sumZ (?z :: ?m)) with (z + sumZ m). rewrite <- IH by (intros k Hk; apply Hw; by right).
  case_decide; [|done]. by rewrite str_len_app, (read_len tgt tblk) by (done || apply Hw; by left).
Qed.

(** The data of a "new" transfer is where the transfers before it leave the
    place in the new data. *)
Lemma new_slice st p i q : style (st !!! i) = "new" -> (forall j, j ∈ p ++ i :: q -> wf (tgt_ranges (st !!! j))) ->
  sliced (new_data tgt st (p ++ i :: q)) (new_sum (blocksize tgt) st p) (size (tgt_ranges (st !!! i)) * blocksize tgt)
    (ReadRangeSet tgt (tgt_ranges (st !!! i))).
Proof.
  intros Hs Hw. exists (new_data tgt st p), (new_data tgt st q). rewrite new_data_app, new_data_cons, decide_True by done.
  split_and!; [done|symmetry; apply new_data_len; intros j Hj; apply Hw, elem_of_app; by left|].
  rewrite (read_len tgt tblk); [done|done|]. apply Hw, elem_of_app. right. by left.
Qed.

Lemma new_sum_ext bs st st' l : (forall j, j ∈ l -> (style (st !!! j) = "new" <-> style (st' !!! j) = "new") /\
    tgt_ranges (st !!! j) = tgt_ranges (st' !!! j)) -> new_sum bs st l = new_sum bs st' l.
Proof.
  intros H. unfold new_sum, new_len. f_equal. apply map_ext_in. intros j Hj%list_elem_of_In. destruct (H j Hj) as [H1 H2]. rewrite H2.
  destruct (decide (style (st !!! j) = "new")), (decide (style (st' !!! j) = "new")); tauto || done.
Qed.

Lemma finalize_hashes x : tgt_sha1 (finalize e x) = tgt_sha1 x /\ src_sha1 (finalize e x) = src_sha1 x.
Proof.
  unfold finalize. destruct (String.eqb (style x) "diff"), (String.eqb (src_sha1 x) (tgt_sha1 x)), (kind e x); by destruct x.
Qed.

(** What [ComputePatches] leaves behind: styles that are final, patches in the
    file of patches, and the data of the "new" transfers. *)
Section commands.
Context (d : Diff) (st : store) (ts : list tid).
Context (Hts : sq_transfers (d_state d) = ts) (Hr : ranges_ok st ts) (Hs : forall i, i ∈ ts -> sound_transfer (st !!! i)).
Context (Hn : forall i, nopos (sq_store (d_state d) !!! i) = nopos (if decide (i ∈ ts) then finalize e (st !!! i) else st !!! i)).
Context (Hnew : d_new d = new_data tgt st ts).
Context (Hpt : forall i, i ∈ ts -> needs_patch (st !!! i) = true -> exists info, patch_of e tgt src (st !!! i) (kind e (st !!! i)) info /\
  sliced (d_patch d) (patch_start (sq_store (d_state d) !!! i)) (patch_len (sq_store (d_state d) !!! i)) (content info)).
Let st' : store := sq_store (d_state d).

Lemma final_field {A} (g : Transfer -> A) i : (forall z a l, g (set_patch_pos a l z) = g z) -> i ∈ ts ->
  g (st' !!! i) = g (finalize e (st !!! i)).
Proof. intros Hg Hi. unfold st'. by rewrite (nopos_field g _ _ Hg (Hn i)), decide_True. Qed.

Lemma final_new i : i ∈ ts -> (style (st !!! i) = "new" <-> style (st' !!! i) = "new") /\
  tgt_ranges (st !!! i) = tgt_ranges (st' !!! i).
Proof.
  intros Hi. rewrite (final_field style), (final_field tgt_ranges) by (setter || done).
  split; [|symmetry; apply finalize_ranges]. unfold finalize.
  destruct (String.eqb_spec (style (st !!! i)) "diff") as [Ed|]; [|done]. rewrite Ed.
  destruct (String.eqb _ _), (kind e (st !!! i)); destruct (st !!! i); done.
Qed.

Lemma new_data_whole : str_len (d_new d) = new_sum (blocksize tgt) st' ts.
Proof.
  rewrite Hnew, new_data_len by (intros j Hj; by apply Hr). apply new_sum_ext. intros j. apply final_new.
Qed.

(** The data, patches and hashes of every command are right. *)
Lemma commands_data p i q : ts = p ++ i :: q ->
  command_data (blocksize tgt) sha1 apply_patch (d_new d) (d_patch d) tblk sblk (new_sum (blocksize tgt) st' p) (st' !!! i).
Proof.
  intros Hl. assert (i ∈ ts) as Hi by (rewrite Hl, elem_of_app; right; by left).
  destruct (Hs i Hi) as [[_ Hsty] Ht1 Hs1 Hinfo]. destruct (Hr i Hi) as (Hwt & _ & Hws & _).
  assert (tgt_ranges (st' !!! i) = tgt_ranges (st !!! i)) as Et by (symmetry; by apply final_new).
  assert (src_ranges (st' !!! i) = src_ranges (st !!! i)) as Esr.
  { rewrite (final_field src_ranges) by (setter || done). apply finalize_ranges. }
  pose proof (final_field style i (ltac:(setter)) Hi) as Esty.
  assert (tgt_sha1 (st' !!! i) = tgt_sha1 (st !!! i) /\ src_sha1 (st' !!! i) = src_sha1 (st !!! i)) as [Eth Esh].
  { rewrite (final_field tgt_sha1), (final_field src_sha1) by (setter || done). apply finalize_hashes. }
  assert (tgt_sha1 (st' !!! i) = sha1 (read_blocks tblk (next_item (tgt_ranges (st' !!! i))))) as Ch.
  { by rewrite Eth, Et, Ht1, Hsha_t, (im_read _ _ Himg_t _ Hwt). }
  assert (style (st' !!! i) = "new" -> style (st !!! i) = "new") as Hnw by (intros ?; by apply final_new).
  destruct Hsty as [(E & Hzt & Hzs)|[[E Esn]|[E _]]].
  - assert (style (st' !!! i) = "zero") as Ez by (rewrite Esty; unfold finalize; by rewrite E).
    split; rewrite ?Ez; try done; [|by intros [?|?]]. rewrite Et, Esr. intros _ b Hb. split.
    + destruct (Hzt b Hb) as (z & Hz & Hbz). exact (im_zero _ _ Himg_t z b Hz Hbz).
    + intros Hbs'. destruct (Hzs b Hbs') as (z & Hz & Hbz). by rewrite (im_zero _ _ Himg_s z b Hz Hbz), Hbs.
  - assert (style (st' !!! i) = "new") as Ez by (rewrite Esty; unfold finalize; by rewrite E).
    split; rewrite ?Ez; try done; [|by intros [?|?]]. intros _. rewrite Et, Hnew, Hl.
    rewrite (new_sum_ext _ st' st p), <- (im_read _ _ Himg_t _ Hwt).
    + apply new_slice; [done|]. intros j Hj. apply Hr. by rewrite Hl.
    + intros j Hj. assert (j ∈ ts) as Hjt by (rewrite Hl, elem_of_app; by left). destruct (final_new j Hjt) as [H1 H2]. by rewrite H1, H2.
  - unfold finalize in Esty. rewrite E in Esty. simpl in Esty.
    destruct (String.eqb_spec (src_sha1 (st !!! i)) (tgt_sha1 (st !!! i))) as [Eh|Eh].
    + assert (style (st' !!! i) = "move") as Ez by (rewrite Esty; by destruct (st !!! i)).
      split; rewrite ?Ez; try done; [|by intros [?|?]]. intros _.
      rewrite Et, Esr, <- (im_read _ _ Himg_t _ Hwt), <- (im_read _ _ Himg_s _ Hws).
      apply same_hash_data. by rewrite <- Ht1, <- (Hs1 E).
    + assert (needs_patch (st !!! i) = true) as Hnp.
      { unfold needs_patch. rewrite E, (proj2 (String.eqb_neq _ _) Eh). done. }
      destruct (Hpt i Hi Hnp) as (info & Hinf & Hsl).
      assert (style (st' !!! i) = if kind e (st !!! i) then "imgdiff" else "bsdiff") as Ez by (rewrite Esty; by destruct (st !!! i)).
      assert (apply_patch (kind e (st !!! i)) (content info) (ReadRangeSet src (src_ranges (st !!! i))) =
              ReadRangeSet tgt (tgt_ranges (st !!! i))) as Happ.
      { unfold patch_of in Hinf. destruct (patch_info (st !!! i)) as [pi|] eqn:Ep.
        - subst info. unfold kind. rewrite Ep. by apply (Hinfo E).
        - destruct Hinf as [Hd _]. by eapply Hpatch. }
      split; rewrite ?Ez; try (by destruct (kind e (st !!! i))). intros _. exists (content info). split; [exact Hsl|].
      rewrite Et, Esr, Esh, (Hs1 E), Hsha_s, <- (im_read _ _ Himg_t _ Hwt), <- (im_read _ _ Himg_s _ Hws). split; [|done].
      rewrite <- Happ. by destruct (kind e (st !!! i)).
Qed.
End commands.
End compute.
