(* ===== verification/UpdateProps.v ===== *)
(** The theorems about a whole block diff: [Compute] never fails, what it plans
    updates the device, and its worker threads may run in any order. *)

From S2P Require Export ComputeProps.

#[local] Open Scope string_scope.
#[local] Open Scope list_scope.
#[local] Open Scope Z_scope.

(** C1: for images that pass the checks of [__init__] (their files partition
    their care maps), a hash without collisions whose values are single words, and
    diff tools whose patches do turn source data into target data, [Compute]
    succeeds in every interleaving of its threads, the stash space of its transfer
    list is within the limit, and an updater that reads the text of the transfer
    list and executes its commands in place, with the data of the .new.dat and
    .patch.dat files, finds every command in order: the stashes it names are
    there and fit in the space the list states, the hashes agree, the new data is
    used up, every stash is freed, and as many blocks are written as the list
    states.  Afterwards the blocks of the care map are those of the target, the
    extended blocks are zero, the other blocks of the target image have been erased
    (their contents, [discarded], may be anything), and no block beyond it has
    changed. *)
Theorem compute_correct e tgt src tblk sblk apply_patch sha1 unsha1 c mx limit max_allowed :
  image_data tgt tblk -> image_data src sblk -> target_image tgt ->
  init_checks e tgt src = Ok tt ->
  (forall d, unsha1 (sha1 d) = d) -> (forall d, plain (sha1 d)) ->
  (forall r, RangeSha1 tgt r = sha1 (ReadRangeSet tgt r)) -> (forall r, RangeSha1 src r = sha1 (ReadRangeSet src r)) ->
  tools_ok e -> (forall b s t p, run_diff e b s t = Some p -> apply_patch b p s = t) ->
  imgdiff_ok (piece_patch tgt src apply_patch) (run_imgdiff e) ->
  options_ok e (blocksize tgt) c mx limit max_allowed ->
  exists d n, Compute e tgt src = Ok d /\
    0 <= n /\ exceeds (Some limit) n = false /\ tf_max_stashed_size (d_transfer_list d) = n * blocksize tgt /\
    forall discarded, exists u,
      run_text (blocksize tgt) sha1 apply_patch (d_new d) (d_patch d) discarded
        (str_join "" (tf_lines (d_transfer_list d))) sblk = Ok u /\
      u_pos u = str_len (d_new d) /\ u_saved u = [] /\
      forall b, u_dev u b = if decide (b ∈ care_map tgt) then tblk b
                            else if decide (b ∈ extended tgt) then zero_block (blocksize tgt)
                            else if decide (0 <= b < total_blocks tgt) then discarded b
                            else sblk b.
Proof.
  intros Ht Hs Htgt Hinit Hinv Hplain Hsht Hshs Htools Hpatch Himg Hop. unfold Compute.
  unfold init_checks in Hinit. destruct (_ || _) eqn:Hver; [|done]. destruct (Z.eqb_spec (blocksize tgt) 4096) as [Hb1|]; [|done].
  destruct (Z.eqb_spec (blocksize src) 4096) as [Hb2|]; [|done].
  destruct (AssertPartition (care_map src) _); [|done]. rename Hinit into Hpart.
  assert (blocksize src = blocksize tgt) as Hbs by congruence. assert (0 < blocksize tgt) as Hbs0 by lia.
  destruct (AbbreviateSourceNames src) as [bases pats] eqn:Hn.
  destruct (find_transfers_planned e tgt src tblk sblk apply_patch Ht Hs Htgt c mx limit max_allowed Hop bases pats Hpart (tl_threads _ Htools) Himg Hn) as (p & -> & Hp).
  destruct (find_planned tgt src apply_patch _ Hp) as (s1 & Hf & _). rewrite Hf.
  edestruct limit_stash_ok with (e := e) (tgt := tgt) (src := src) (stats := p_stats p) as (s1' & s2 & stats & -> & [_ Hp2 Hgood Hseq Hw]);
    [eassumption..|].
  rewrite Hgood. pose proof Hp2 as [N R [T1 T2 T3] S I]. rewrite (sha1_good tgt src apply_patch s2 S).
  pose proof (styled_styles tgt src apply_patch _ _ S) as Hst.
  destruct (ComputePatches_ok e tgt src Htools s2 stats) as (st3 & stats' & rs & -> & Hn3 & Hsl); [done| | |].
  { intros i Hi. apply size_pos; [by apply R|]. by apply Hst. }
  { intros i Hi. destruct (Hst i Hi) as [_ [?|[[? _]|[? _]]]]; auto. }
  assert (patched (sq_transfers s2) (sq_store s2) st3) as Hpa.
  { eapply patches_patched with (tgt := tgt) (src := src); eassumption. }
  destruct (Hw st3 Hpa) as (tf & n & Htf & Hn0 & Hex & Hsz & lim & w & Hlim & Hfold & Hnil). rewrite Htf.
  eexists _, n. split; [done|]. split_and!; [done..|]. intros discarded. set (d := mkDiff _ _ _ _ _). simpl d_transfer_list.
  pose proof (pa_tgt _ _ _ Hpa) as Htg. pose proof (pa_src _ _ _ Hpa) as Hsg.
  destruct Htgt as [(Tc & _ & _) [Te Tx] Tt _].
  destruct (WriteTransfers_run (blocksize tgt) sha1 unsha1 apply_patch (d_new d) (d_patch d) discarded tblk sblk (cache_size e)
    (stash_threshold e) (version e) tgt src st3 (sq_transfers s2) tf) as (u & Hu & Hpos & Hsaved & Hdev); try done.
  - apply Ht.
  - rewrite <- Hbs. apply Hs.
  - intros r Hr. by rewrite Hshs, (im_read _ _ Hs r Hr).
  - apply orb_true_iff in Hver as [Hv|Hv]; apply Z.eqb_eq in Hv; lia.
  - by eapply patched_sequenced.
  - intros x Hx. rewrite (Htg x), (Hsg x). by apply R.
  - intros x y b. rewrite (Htg x), (Htg y). by apply T2.
  - intros b. split; [intros (y & Hy & Hb); rewrite (Htg y) in Hb; by eapply I|].
    intros Hb. destruct (T3 b Hb) as (y & Hy & Hby). exists y. by rewrite (Htg y).
  - intros l i q Hl. eapply (commands_data e tgt src tblk sblk apply_patch) with (d := d) (st := sq_store s2); (eassumption || reflexivity).
  - exists u. split_and!; [done| | |exact Hdev].
    + rewrite Hpos. symmetry. eapply (new_data_whole e tgt tblk) with (d := d) (st := sq_store s2); (eassumption || reflexivity).
    + pose proof (Hsaved lim w Hlim Hfold) as Hk. rewrite Hnil in Hk. by destruct (u_saved u).
Qed.

(** ** An example: three files with a moved one, a changed one and zeroes *)

Lemma str_len_zeros n : str_len (zeros n) = Z.of_nat n.
Proof. unfold str_len. induction n as [|n IH]; simpl; lia. Qed.

(** A block that starts with [c], or a block of zeroes. *)
Definition ex_block (zero : Z -> bool) (content : Z -> Z) (b : Z) : string :=
  if zero b then zero_block 4096
  else String (ascii_of_nat (Z.to_nat (content b))) (zeros (Z.to_nat 4095)).

Definition ex_tblk : Z -> string := ex_block (fun b => (20 <=? b) && (b <? 24)) (fun b => b).
Definition ex_sblk : Z -> string := ex_block (fun b => (14 <=? b) && (b <? 30)) (fun b => if b <? 4 then b + 12 else b - 5).

Definition ex_read (blk : Z -> string) (r : RangeSet) : string := read_blocks blk (next_item r).

(** A hash: two letters for every byte. *)
Fixpoint ex_sha1 (s : string) : string :=
  match s with
  | "" => ""
  | String c s' =>
      let n := nat_of_ascii c in
      String (ascii_of_nat (97 + n / 16)) (String (ascii_of_nat (97 + n mod 16)) (ex_sha1 s'))
  end.
Fixpoint ex_unsha1 (s : string) : string :=
  match s with
  | String a (String b s') => String (ascii_of_nat ((nat_of_ascii a - 97) * 16 + (nat_of_ascii b - 97))) (ex_unsha1 s')
  | _ => ""
  end.

Lemma ex_sha1_inv d : ex_unsha1 (ex_sha1 d) = d.
Proof.
  induction d as [|c d IH]; [done|]. cbn [ex_sha1 ex_unsha1]. f_equal; [|exact IH]. clear IH.
  destruct c as [[] [] [] [] [] [] [] []]; reflexivity.
Qed.

Lemma ex_sha1_plain d : plain (ex_sha1 d).
Proof.
  induction d as [|c d (H1 & H2 & H3)]; [by split_and!|]. cbn [ex_sha1]. unfold plain. cbn [has_char]. rewrite H1, H2, H3.
  destruct c as [[] [] [] [] [] [] [] []]; by split_and!.
Qed.

Definition ex_target : Image :=
  mkImage 4096 40 (ex_range 0 32) empty (ex_range 32 36) (file_map ex_tgt) (fun r => ex_sha1 (ex_read ex_tblk r)) (ex_read ex_tblk).
Definition ex_origin : Image :=
  mkImage 4096 40 (ex_range 0 30) empty empty (file_map ex_src) (fun r => ex_sha1 (ex_read ex_sblk r)) (ex_read ex_sblk).

Lemma str_len_ex_block zero content b : str_len (ex_block zero content b) = 4096.
Proof.
  unfold ex_block, zero_block. destruct (zero b); [by rewrite str_len_zeros|].
  unfold str_len. cbn [String.length]. fold (str_len (zeros (Z.to_nat 4095))).
  pose proof (str_len_zeros (Z.to_nat 4095)) as H. unfold str_len in H. lia.
Qed.

Lemma ex_target_data : image_data ex_target ex_tblk.
Proof.
  split; [intros b; apply str_len_ex_block|done| |exact ex_tgt_files].
  intros z b Hz Hb. cbn [file_map ex_target ex_tgt] in Hz. rewrite !elem_of_cons, elem_of_nil in Hz.
  destruct Hz as [[= _]|[[= _]|[[= ->]|[[= _]|[]]]]]. apply elem_of_range_set in Hb; [|lia].
  unfold ex_tblk, ex_block. destruct (Z.leb_spec 20 b); [|lia]. destruct (Z.ltb_spec b 24); [|lia]. done.
Qed.

Lemma ex_origin_data : image_data ex_origin ex_sblk.
Proof.
  split; [intros b; apply str_len_ex_block|done| |exact ex_src_files].
  intros z b Hz Hb. cbn [file_map ex_origin ex_src] in Hz. rewrite !elem_of_cons, elem_of_nil in Hz.
  destruct Hz as [[= _]|[[= _]|[[= ->]|[]]]]. apply elem_of_range_set in Hb; [|lia].
  unfold ex_sblk, ex_block. destruct (Z.leb_spec 14 b); [|lia]. destruct (Z.ltb_spec b 30); [|lia]. done.
Qed.

Lemma ex_target_image : target_image ex_target.
Proof.
  destruct (ex_range_ok 0 32) as [Hw Hn]; [lia..|].
  split; [split_and!; [exact Hw|exact Hn|]| |simpl; lia|].
  - intros b Hb. apply elem_of_range_set in Hb; simpl; lia.
  - split; [apply (ex_range_ok 32 36); lia|]. intros b Hb. apply elem_of_range_set in Hb; [|lia]. split; [lia|].
    intros Hc. apply elem_of_range_set in Hc; lia.
  - intros k r Hr. simpl in Hr. rewrite !elem_of_cons, elem_of_nil in Hr. naive_solver.
Qed.

(** Tools whose patch is the target data; two threads, one after the other. *)
Definition ex_env : Env :=
  mkEnv (Some 163840) (float_lit 1 0) 4 false 2 (one_piece (ReadRangeSet ex_target)) (fun _ _ t => Some t) (fun d => Some (1 + str_len d))
    (fun q => repeat 0%nat (3 * length q + 2) ++ repeat 1%nat (3 * length q + 2)).

Lemma count_occ_repeat w n : count_occ Nat.eq_dec (repeat w n) w = n.
Proof. induction n as [|n IH]; simpl; [done|]. destruct (Nat.eq_dec w w); [by rewrite IH|done]. Qed.

Lemma ex_tools : tools_ok ex_env.
Proof.
  split; [simpl; lia| |intros b s t; by exists t|intros d; eexists; split; [reflexivity|pose proof (str_len_nonneg d); lia]].
  intros q w Hw. change (schedule ex_env q) with (repeat 0%nat (3 * length q + 2) ++ repeat 1%nat (3 * length q + 2)).
  rewrite count_occ_app. change (threads ex_env) with 2%nat in Hw.
  destruct w as [|[|w]]; [| |simpl in Hw; lia]; rewrite count_occ_repeat; change (threads ex_env) with 2%nat; lia.
Qed.

Lemma ex_options : options_ok ex_env 4096 163840 5 (float_lit 40 0) (float_lit 163840 0).
Proof.
  split; [reflexivity|split; [vm_compute; reflexivity|lia]|split; vm_compute; reflexivity|split; vm_compute; reflexivity|].
  intros n Hn H. vm_compute (float_lit 40 0) in H. vm_compute (float_lit 163840 0). unfold exceeds in H. simpl in *. zcases.
Qed.

Lemma compute_correct_witness : exists d n, Compute ex_env ex_target ex_origin = Ok d /\
  0 <= n /\ exceeds (Some (float_lit 40 0)) n = false /\ tf_max_stashed_size (d_transfer_list d) = n * 4096 /\
  forall discarded, exists u,
    run_text 4096 ex_sha1 (fun _ p _ => p) (d_new d) (d_patch d) discarded
      (str_join "" (tf_lines (d_transfer_list d))) ex_sblk = Ok u /\
    u_pos u = str_len (d_new d) /\ u_saved u = [] /\
    forall b, u_dev u b = if decide (b ∈ ex_range 0 32) then ex_tblk b
                          else if decide (b ∈ ex_range 32 36) then zero_block 4096
                          else if decide (0 <= b < 40) then discarded b
                          else ex_sblk b.
Proof.
  apply (compute_correct ex_env ex_target ex_origin ex_tblk ex_sblk (fun _ p _ => p) ex_sha1 ex_unsha1 163840 5
    (float_lit 40 0) (float_lit 163840 0)).
  - exact ex_target_data.
  - exact ex_origin_data.
  - exact ex_target_image.
  - reflexivity.
  - exact ex_sha1_inv.
  - exact ex_sha1_plain.
  - reflexivity.
  - reflexivity.
  - exact ex_tools.
  - intros b s t p H. injection H as <-. reflexivity.
  - apply one_piece_ok. intros t q r _ _ Hi. unfold piece_patch. cbn [ReadRangeSet ex_target]. unfold ex_read. rewrite Hi. reflexivity.
  - exact ex_options.
Defined.

(** C7: the threads of [ComputePatchesForInputList] end under every schedule that
    gives each of them enough steps; when no item fails, the list they leave
    is, whatever the schedule and the number of threads, that of the results of
    the items one by one. *)
Theorem patches_any_schedule tgt src run_diff deflate threads schedule compress st ts q :
  (0 < threads)%nat -> numbered q -> fair threads q schedule ->
  (forall j, j ∈ q -> exists r, diff_job tgt src run_diff deflate compress st ts j = Ok r) ->
  exists rs, ComputePatchesForInputList tgt src run_diff deflate threads schedule compress st ts q = Ok (map Some rs) /\
    mapM (diff_job tgt src run_diff deflate compress st ts) q = Ok rs.
Proof.
  intros Ht Hnum Hf Hok. unfold ComputePatchesForInputList. destruct q as [|j0 q0] eqn:Eq; [by exists []|].
  rewrite <- Eq in *. clear j0 q0 Eq. rewrite fair_all_gone by done.
  destruct (run_pool_ok (diff_job tgt src run_diff deflate compress st ts) q Hnum threads schedule Ht Hok) as (rs & -> & Hrs);
    [by apply fair_all_gone|].
  exists rs. split; [done|]. clear -Hrs. induction Hrs as [|j r q rs Hj _ IH]; simpl; [done|]. by rewrite Hj, IH.
Qed.

(** when a diff tool fails for a transfer without a patch, no message is
    reported: the worker dies of the attribute [message] that exceptions do not
    have, its place in the list stays [None], and [ComputePatches] ends with a
    TypeError. *)
Theorem failed_tool_unreported e tgt src stats st0 ts q k j i offset dat :
  numbered q -> fair (threads e) q (schedule e q) -> q !! k = Some j -> py_get ts j.1.1 = Ok i ->
  patch_info (st0 !!! i) = None ->
  run_diff e j.1.2 (ReadRangeSet src (src_ranges (st0 !!! i))) (ReadRangeSet tgt (tgt_ranges (st0 !!! i))) = None ->
  exists l, patches_for e tgt src false ts st0 q = Ok l /\ l !! k = Some None /\
    exists err, foldM (place_patch ts) (stats, offset, dat) l = Raise err.
Proof.
  intros Hnum Hf Hk Hi Hp Hd. unfold patches_for, ComputePatchesForInputList.
  destruct q as [|j0 q0] eqn:Eq; [done|]. rewrite <- Eq in *. clear j0 q0 Eq.
  rewrite fair_all_gone by done. eexists. split; [done|].
  assert (diff_job tgt src (run_diff e) (deflate e) false st0 ts j = Raise AttributeError) as Hj.
  { destruct j as [[z b] m]. simpl in *. rewrite Hi, Hp. unfold compute_patch. by rewrite Hd. }
  pose proof (run_pool_failed _ q Hnum (threads e) (schedule e q) k j _ Hk Hj) as Hnone. split; [done|].
  apply list_elem_of_split_length in Hnone as (l1 & l2 & -> & _). revert stats offset dat.
  induction l1 as [|o l1 IH]; intros st off dt; [by exists TypeError|]. cbn [foldM app].
  destruct (place_patch ts (st, off, dt) o) as [[[st' off'] dt']|err]; [apply IH|by exists err].
Qed.

(** Two items with a patch of their own and one without. *)
Definition ex_jobs : list job := [(0, true, 0); (2, false, 1)].

Lemma patches_any_schedule_witness :
  exists rs, ComputePatchesForInputList ex_tgt ex_src (fun _ _ _ => Some "p") (fun _ => Some 3) 2
      (schedule ex_env ex_jobs) true ex_store [0%nat; 1%nat; 2%nat] ex_jobs = Ok (map Some rs) /\
    mapM (diff_job ex_tgt ex_src (fun _ _ _ => Some "p") (fun _ => Some 3) true ex_store [0%nat; 1%nat; 2%nat]) ex_jobs = Ok rs.
Proof.
  apply (patches_any_schedule ex_tgt ex_src (fun _ _ _ => Some "p") (fun _ => Some 3) 2 (schedule ex_env ex_jobs) true ex_store
    [0%nat; 1%nat; 2%nat] ex_jobs).
  - lia.
  - intros k j Hk. destruct k as [|[|k]]; simpl in Hk; [| |discriminate Hk]; injection Hk as <-; reflexivity.
  - intros w Hw. destruct w as [|[|w]]; [vm_compute; lia|vm_compute; lia|lia].
  - intros j Hj. unfold ex_jobs in Hj. rewrite !elem_of_cons, elem_of_nil in Hj.
    destruct Hj as [->|[->|[]]]; eexists; vm_compute; reflexivity.
Defined.

Definition ex_failing : Env :=
  mkEnv (Some 163840) (float_lit 1 0) 4 false 2 (one_piece (fun _ => "P")) (fun b _ _ => if b then Some "p" else None) (fun d => Some 1)
    (schedule ex_env).

Lemma failed_tool_unreported_witness :
  exists l, patches_for ex_failing ex_tgt ex_src false [0%nat; 1%nat; 2%nat] ex_store ex_jobs = Ok l /\ l !! 1%nat = Some None /\
    exists err, foldM (place_patch [0%nat; 1%nat; 2%nat]) (ex_store, 0, "") l = Raise err.
Proof.
  apply (failed_tool_unreported ex_failing ex_tgt ex_src ex_store ex_store [0%nat; 1%nat; 2%nat] ex_jobs 1 (2, false, 1) 2%nat).
  - intros k j Hk. destruct k as [|[|k]]; simpl in Hk; [| |discriminate Hk]; injection Hk as <-; reflexivity.
  - intros w Hw. change (threads ex_failing) with 2%nat in Hw. destruct w as [|[|w]]; [vm_compute; lia|vm_compute; lia|lia].
  - reflexivity.
  - reflexivity.
  - vm_compute. reflexivity.
  - reflexivity.
Defined.
