(* ===== verification/SparseImg.v ===== *)
(** releasetools/sparse_img.py and releasetools/images.py: images read from
    files.  A file is its bytes.  On Python 3 the data of a file are [bytes]
    while the block of zeroes they are compared with is a [str]; values of the
    two types are told apart as Python does. *)

From S2P Require Export PyFile PyColl RangeFacts.

#[local] Open Scope string_scope.
#[local] Open Scope list_scope.
#[local] Open Scope Z_scope.

(** * Values compared with the block of zeroes *)

Inductive pyval := VBytes (b : bytes) | VStr (s : bytes) | VNone.

(** [a == b]: values of different types are not equal. *)
Definition py_eqb (a b : pyval) : bool :=
  match a, b with
  | VBytes x, VBytes y | VStr x, VStr y => bool_decide (x = y)
  | VNone, VNone => true
  | _, _ => false
  end.

(** [v[:n]] of a string. *)
Definition py_prefix (n : nat) (v : pyval) : pyval :=
  match v with VBytes b => VBytes (take n b) | VStr s => VStr (take n s) | VNone => VNone end.

(** ['\0' * blocksize]. *)
Definition reference (blocksize : Z) : pyval := VStr (replicate (Z.to_nat blocksize) 0).

(** * The sparse format *)

(** An entry of [offset_map]: the first block, the number of blocks, and where
    the data are: at a position of the file, or four bytes to repeat. *)
Inductive chunk_data := AtPos (filepos : Z) | FillWith (fill_data : bytes).
Record chunk := mkChunk { ck_start : Z; ck_len : Z; ck_data : chunk_data }.

Record SparseImage := mkSparse {
  si_file : bytes;
  si_blocksize : Z;
  si_total_blocks : Z;
  si_total_chunks : Z;
  si_offset_map : list chunk;
  si_care_map : RangeSet;
  si_clobbered : RangeSet;
  si_extended : RangeSet;
  si_file_map : list (string * RangeSet)
}.

(** The 28 bytes of the file header, "<I4H4I"; the checksum is not used. *)
Record Header := mkHeader {
  magic : Z; major_version : Z; minor_version : Z; file_hdr_sz : Z; chunk_hdr_sz : Z;
  blk_sz : Z; total_blks : Z; total_chunks : Z
}.

Definition unpack_header (b : bytes) : result Header :=
  if blen b =? 28 then
    Ok (mkHeader (field b 0 4) (field b 4 2) (field b 6 2) (field b 8 2) (field b 10 2) (field b 12 4) (field b 16 4)
          (field b 20 4))
  else Raise StructError.

Definition check_header (h : Header) : result unit :=
  if negb (magic h =? 0xED26FF3A) then Raise ValueError
  else if negb (major_version h =? 1) || negb (minor_version h =? 0) then Raise ValueError
  else if negb (file_hdr_sz h =? 28) then Raise ValueError
  else if negb (chunk_hdr_sz h =? 12) then Raise ValueError
  else Ok tt.

Definition read_header (simg : bytes) : result (Header * file) :=
  let '(b, f) := f_read 28 (mkFile simg 0) in
  let! h := unpack_header b in
  let! _ := check_header h in
  Ok (h, f).

(** The variables of the loop over the chunks. *)
Record ChunkState := mkChunks { cs_file : file; cs_pos : Z; cs_care : list Z; cs_map : list chunk }.

Definition read_chunk (blocksize : Z) (s : ChunkState) : result ChunkState :=
  let '(b, f) := f_read 12 (cs_file s) in
  if negb (blen b =? 12) then Raise StructError
  else
    let chunk_type := field b 0 2 in
    let chunk_sz := field b 4 4 in
    let data_sz := field b 8 4 - 12 in
    let pos := cs_pos s in
    let add f d := mkChunks f (pos + chunk_sz) (cs_care s ++ [pos; pos + chunk_sz]) (cs_map s ++ [mkChunk pos chunk_sz d]) in
    if chunk_type =? 0xCAC1 then
      if negb (data_sz =? chunk_sz * blocksize) then Raise ValueError
      else Ok (add (f_seek (f_pos f + data_sz) f) (AtPos (f_pos f)))
    else if chunk_type =? 0xCAC2 then
      let '(fill_data, f) := f_read 4 f in Ok (add f (FillWith fill_data))
    else if chunk_type =? 0xCAC3 then
      if negb (data_sz =? 0) then Raise ValueError
      else Ok (mkChunks f (pos + chunk_sz) (cs_care s) (cs_map s))
    else Raise ValueError.

Definition read_chunks (h : Header) (f : file) : result ChunkState :=
  foldM (fun s _ => read_chunk (blk_sz h) s) (mkChunks f 0 [] []) (seq 0 (Z.to_nat (total_chunks h))).

(** * Reading blocks *)

Definition offset_index (m : list chunk) : list Z := map ck_start m.

(** [bisect.bisect_right(self.offset_index, b) - 1]. *)
Definition chunk_index (m : list chunk) (b : Z) : Z := bisect_right (offset_index m) b - 1.

(** [f.read(n)] at [p]; a negative [n] reads to the end. *)
Definition read_at (simg : bytes) (p n : Z) : bytes :=
  if n <? 0 then drop (Z.to_nat p) simg else py_slice simg p (p + n).

Definition repeat_bytes (n : Z) (b : bytes) : bytes := concat (replicate (Z.to_nat n) b).

Section image.
Context (simg : bytes) (blocksize : Z) (offset_map : list chunk).

(** [n] blocks from block [off] of a chunk. *)
Definition chunk_piece (c : chunk) (off n : Z) : bytes :=
  match ck_data c with
  | AtPos filepos => read_at simg (filepos + off * blocksize) (n * blocksize)
  | FillWith d => repeat_bytes (n * Z.shiftr blocksize 2) d
  end.

(** The [while] loop over the following chunks; the index grows with every
    round, so the number of chunks is enough fuel. *)
Fixpoint read_more (fuel : nat) (idx to_read : Z) (out : list bytes) : result (list bytes) :=
  if 0 <? to_read then
    match fuel with
    | O => Raise OutOfFuel
    | S fuel' =>
        let! c := py_get offset_map (idx + 1) in
        let this_read := Z.min (ck_len c) to_read in
        read_more fuel' (idx + 1) (to_read - this_read) (out ++ [chunk_piece c 0 this_read])
    end
  else Ok out.

Definition read_range (out : list bytes) (r : Z * Z) : result (list bytes) :=
  let '(s, e) := r in
  let to_read := e - s in
  let idx := chunk_index offset_map s in
  let! c := py_get offset_map idx in
  let remain := ck_len c - (s - ck_start c) in
  let this_read := Z.min remain to_read in
  read_more (S (length offset_map)) idx (to_read - this_read) (out ++ [chunk_piece c (s - ck_start c) this_read]).

(** [_GetRangeData]: the pieces in order. *)
Definition GetRangeData (ranges : list (Z * Z)) : result (list bytes) := foldM read_range [] ranges.

(** * The block map *)

(** The data of one block in [LoadFileBlockMap]. *)
Definition map_block (b : Z) : result pyval :=
  let! c := py_get offset_map (chunk_index offset_map b) in
  match ck_data c with
  | AtPos filepos => Ok (VBytes (read_at simg (filepos + (b - ck_start c) * blocksize) blocksize))
  | FillWith d =>
      if py_eqb (VBytes d) (py_prefix 4 (reference blocksize)) then Ok (reference blocksize) else Ok VNone
  end.

(** [MAX_BLOCKS_PER_GROUP], compared with the number of boundaries. *)
Definition MAX_BLOCKS_PER_GROUP : nat := 1024.

(** The zero blocks, the current group and the finished groups. *)
Abbreviation groups := (list Z * list Z * list (list Z))%type.

Definition classify_block (g : groups) (b : Z) : result groups :=
  let '(zero_blocks, nonzero_blocks, nonzero_groups) := g in
  let! data := map_block b in
  if py_eqb data (reference blocksize) then Ok (zero_blocks ++ [b; b + 1], nonzero_blocks, nonzero_groups)
  else
    let nonzero_blocks := nonzero_blocks ++ [b; b + 1] in
    if (MAX_BLOCKS_PER_GROUP <=? length nonzero_blocks)%nat
    then Ok (zero_blocks, [], nonzero_groups ++ [nonzero_blocks])
    else Ok (zero_blocks, nonzero_blocks, nonzero_groups).

(** A line of the block map; the state is the blocks that remain and the
    dictionary. *)
Definition load_line (clobbered : RangeSet) (allow_shared_blocks : bool) (st : RangeSet * list (string * RangeSet))
    (line : string) : result (RangeSet * list (string * RangeSet)) :=
  let '(remaining, out) := st in
  match split_ws_once (rstrip line) with
  | [fn; ranges_text] =>
      let! raw_ranges := parse ranges_text in
      let! zero := parse_internal "0" in
      let! ranges := subtract raw_ranges zero in
      let ranges := set_extra "text_str" (ExText ranges_text) (set_monotonic (rs_monotonic raw_ranges) ranges) in
      let claim ranges :=
        let! common := intersect ranges remaining in
        assert! size ranges =? size common in
        assert! negb (overlaps clobbered ranges) in
        let! remaining := subtract remaining ranges in
        Ok (remaining, od_set fn ranges out) in
      if allow_shared_blocks then
        let! shared_blocks := subtract ranges remaining in
        if rs_bool shared_blocks then
          let! non_shared := subtract ranges shared_blocks in
          if negb (rs_bool non_shared) then Ok (remaining, out)
          else claim (set_extra "uses_shared_blocks" (ExRanges ranges) non_shared)
        else claim ranges
      else claim ranges
  | _ => Raise ValueError
  end.

(** The entries for the blocks of no file. *)
Definition add_groups (nonzero_groups : list (list Z)) (out : list (string * RangeSet)) : result (list (string * RangeSet)) :=
  foldM (fun out '(i, blocks) =>
           let! r := of_data blocks in
           Ok (od_set ("__NONZERO-" +:+ py_str (Z.of_nat i)) r out)) out (zip (seq 0 (length nonzero_groups)) nonzero_groups).

Definition LoadFileBlockMap (care_map : RangeSet) (lines : list string) (clobbered : RangeSet) (allow_shared_blocks : bool)
  : result (list (string * RangeSet)) :=
  let! (remaining, out) := foldM (load_line clobbered allow_shared_blocks) (care_map, []) lines in
  let! remaining := subtract remaining clobbered in
  let! (zero_blocks, nonzero_blocks, nonzero_groups) :=
    foldM (fun g '(s, e) => foldM classify_block g (zrange s e)) ([], [], []) (rs_iter remaining) in
  let nonzero_groups := match nonzero_blocks with [] => nonzero_groups | _ => nonzero_groups ++ [nonzero_blocks] end in
  assert! negb (bool_decide (zero_blocks = [])) || negb (bool_decide (nonzero_groups = [])) || rs_bool clobbered in
  let! out := match zero_blocks with
              | [] => Ok out
              | _ => let! r := of_data zero_blocks in Ok (od_set "__ZERO" r out)
              end in
  let! out := add_groups nonzero_groups out in
  Ok (if rs_bool clobbered then od_set "__COPY" clobbered out else out).
End image.

(** * The constructor *)

(** [RangeSet(data=text)], where the text may be missing. *)
Definition clobbered_of (text : option string) : result RangeSet :=
  match text with None => Ok empty | Some t => parse_internal t end.

(** [SparseImage(simg_fn, file_map_fn, clobbered_blocks, ...)], given the contents
    of the two files. *)
Definition new_SparseImage (simg : bytes) (file_map : option string) (clobbered_blocks : option string)
    (allow_shared_blocks : bool) : result SparseImage :=
  let! (h, f) := read_header simg in
  let! clobbered := clobbered_of clobbered_blocks in
  let! s := read_chunks h f in
  let! care_map := of_data (cs_care s) in
  let! extended := extend care_map 512 in
  let! all_blocks := of_data [0; total_blks h] in
  let! extended := intersect extended all_blocks in
  let! extended := subtract extended care_map in
  let! map :=
    match file_map with
    | Some content => LoadFileBlockMap simg (blk_sz h) (cs_map s) care_map (readlines content) clobbered allow_shared_blocks
    | None => Ok [("__DATA", care_map)]
    end in
  Ok (mkSparse simg (blk_sz h) (total_blks h) (total_chunks h) (cs_map s) care_map clobbered extended map).

Definition ReadRangeSet (img : SparseImage) (ranges : RangeSet) : result (list bytes) :=
  GetRangeData (si_file img) (si_blocksize img) (si_offset_map img) (rs_iter ranges).

(** [ReadBlocks]. *)
Definition ReadBlocks (img : SparseImage) (start : Z) (num_blocks : option Z) : result (list bytes) :=
  let n := default (si_total_blocks img) num_blocks in
  GetRangeData (si_file img) (si_blocksize img) (si_offset_map img) [(start, start + n)].

(** The hashes; [sha1] is that of a list of bytes. *)
Definition RangeSha1 (sha1 : bytes -> string) (img : SparseImage) (ranges : RangeSet) : result string :=
  let! pieces := ReadRangeSet img ranges in Ok (sha1 (concat pieces)).

Definition TotalSha1 (sha1 : bytes -> string) (img : SparseImage) (include_clobbered_blocks : bool) : result string :=
  let! ranges := if include_clobbered_blocks then Ok (si_care_map img) else subtract (si_care_map img) (si_clobbered img) in
  RangeSha1 sha1 img ranges.

(** [WriteRangeDataToFd], at the end of a file. *)
Definition WriteRangeDataToFd (img : SparseImage) (ranges : RangeSet) (fd : bytes) : result bytes :=
  let! pieces := ReadRangeSet img ranges in Ok (fd ++ concat pieces).

(** [AppendFillChunk]: a fill chunk at the end, and the counts of the header. *)
Definition AppendFillChunk (img : SparseImage) (data blocks : Z) : result SparseImage :=
  let! t := pack_H 0xCAC2 in let! z := pack_H 0 in
  let! b := pack_L blocks in let! l := pack_L 16 in let! d := pack_L data in
  let simg := si_file img ++ t ++ z ++ b ++ l ++ d in
  let total_blocks := si_total_blocks img + blocks in
  let total_chunks := si_total_chunks img + 1 in
  let! tb := pack_L total_blocks in let! tc := pack_L total_chunks in
  Ok (mkSparse (splice simg 16 (tb ++ tc)) (si_blocksize img) total_blocks total_chunks (si_offset_map img)
        (si_care_map img) (si_clobbered img) (si_extended img) (si_file_map img)).

Definition ResetFileMap (img : SparseImage) : SparseImage :=
  mkSparse (si_file img) (si_blocksize img) (si_total_blocks img) (si_total_chunks img) (si_offset_map img)
    (si_care_map img) (si_clobbered img) (si_extended img) [("__DATA", si_care_map img)].

(** [GetImagePartitionSize]: the size in the header of a sparse image, or the
    size of the file. *)
Definition GetImagePartitionSize (simg : bytes) : result Z :=
  match read_header simg with
  | Ok (h, _) => Ok (blk_sz h * total_blks h)
  | Raise ValueError => Ok (blen simg)
  | Raise e => Raise e
  end.
