(* ===== verification/SparseFacts.v ===== *)
(** Sparse images: their chunks lie one after the other, a block is found by
    bisection, and the file map covers every block once. *)

From stdpp Require Import sorting.
From S2P Require Export Transfer SparseImg.

#[local] Open Scope string_scope.
#[local] Open Scope list_scope.
#[local] Open Scope Z_scope.

(** * Consecutive ranges *)

(** Ranges one after the other, from [lo] to [hi]. *)
Fixpoint spans (lo : Z) (ps : list (Z * Z)) (hi : Z) : Prop :=
  match ps with
  | [] => lo <= hi
  | (s, e) :: ps' => lo <= s <= e /\ spans e ps' hi
  end.

Definition bounds (ps : list (Z * Z)) : list Z := flat_map (fun p => [p.1; p.2]) ps.

Lemma bounds_app ps qs : bounds (ps ++ qs) = bounds ps ++ bounds qs.
Proof. apply flat_map_app. Qed.

Lemma spans_le lo ps hi : spans lo ps hi -> lo <= hi.
Proof. revert lo. induction ps as [|[s e] ps IH]; intros lo H; simpl in *; [done|]. destruct H as [? ?%IH]. lia. Qed.

Lemma spans_snoc lo ps mid e hi : spans lo ps mid -> mid <= e -> e <= hi -> spans lo (ps ++ [(mid, e)]) hi.
Proof.
  revert lo. induction ps as [|[s' e'] ps IH]; intros lo H Hm He; simpl in *; [by split_and!|].
  destruct H as [? ?]. split; [done|by apply IH].
Qed.

Lemma spans_weaken lo ps hi hi' : spans lo ps hi -> hi <= hi' -> spans lo ps hi'.
Proof. revert lo. induction ps as [|[s e] ps IH]; intros lo H Hh; simpl in *; [lia|]. destruct H as [? ?]. split; [done|by apply IH]. Qed.

Lemma spans_bounds lo ps hi : spans lo ps hi -> StronglySorted Z.le (bounds ps) /\ Forall (Z.le lo) (bounds ps).
Proof.
  revert lo. induction ps as [|[s e] ps IH]; intros lo H; [by repeat constructor|].
  destruct H as [Hs H]. apply IH in H as [IHs IHf].
  assert (forall b, b <= e -> Forall (Z.le b) (bounds ps)) as Hf.
  { intros b Hb. eapply (Forall_impl _ _ _ IHf). simpl. lia. }
  split; cbn [bounds flat_map app fst snd].
  - constructor; [constructor; [done|by apply Hf]|]. constructor; [lia|]. apply Hf. lia.
  - constructor; [lia|]. constructor; [lia|]. apply Hf. lia.
Qed.

Lemma covers_bounds x lo ps hi : spans lo ps hi -> covers x (bounds ps) = true <-> exists s e, (s, e) ∈ ps /\ s <= x < e.
Proof.
  revert lo. induction ps as [|[s e] ps IH]; intros lo H.
  - split; [done|]. by intros (? & ? & ?%elem_of_nil & _).
  - destruct H as [Hs H]. change (bounds ((s, e) :: ps)) with (s :: e :: bounds ps).
    rewrite covers_pair; [|lia|by eapply spans_bounds]. rewrite orb_true_iff, (IH _ H), andb_true_iff, Z.leb_le, Z.ltb_lt.
    setoid_rewrite elem_of_cons. split.
    + intros [?|(s' & e' & ? & ?)]; [exists s, e|exists s', e']; auto.
    + intros (s' & e' & [[= -> ->]|?] & ?); [by left|right; eauto].
Qed.

Lemma of_bounds_ok lo ps hi : spans lo ps hi ->
  exists r, of_data (bounds ps) = Ok r /\ wf r /\ forall x, x ∈ r <-> exists s e, (s, e) ∈ ps /\ s <= x < e.
Proof.
  intros H. destruct (of_data_spec (bounds ps)) as (r & Hr & Hw & Hm).
  - by eapply spans_bounds.
  - clear H. induction ps as [|p ps IH]; done.
  - exists r. split_and!; [done..|]. intros x. rewrite Hm. by eapply covers_bounds.
Qed.

Lemma spans_inside lo ps hi : spans lo ps hi -> Forall (fun p => lo <= p.1 <= p.2) ps.
Proof.
  revert lo. induction ps as [|[s e] ps IH]; intros lo H; [constructor|]. destruct H as [Hs H].
  constructor; [done|]. eapply (Forall_impl _ _ _ (IH _ H)). simpl. lia.
Qed.

Lemma spans_order lo ps hi : spans lo ps hi -> forall i j p q, ps !! i = Some p -> ps !! j = Some q ->
  lo <= p.1 <= p.2 /\ ((i < j)%nat -> p.2 <= q.1).
Proof.
  intros H i j p q Hi Hj. split; [by eapply (Forall_lookup_1 _ _ _ _ (spans_inside _ _ _ H))|].
  revert lo i j H Hi Hj. induction ps as [|[s e] ps IH]; intros lo [|i] [|j] H Hi Hj Hij; try done; try lia.
  - injection Hi as <-. destruct H as [_ H%spans_inside]. by eapply (Forall_lookup_1 _ _ _ _ H).
  - destruct H as [_ H]. eapply (IH e i j H Hi Hj). lia.
Qed.

(** The boundaries of single blocks. *)
Definition unit_ranges (bs : list Z) : list (Z * Z) := map (fun b => (b, b + 1)) bs.

Lemma unit_ranges_spans bs lo : StronglySorted Z.lt bs -> Forall (Z.le lo) bs -> exists hi, spans lo (unit_ranges bs) hi.
Proof.
  intros H. revert lo. induction H as [|b bs Hs IH Hb]; intros lo Hlo; [exists lo; simpl; lia|].
  apply Forall_cons_1 in Hlo as [? _]. destruct (IH (b + 1)) as [hi Hhi].
  { eapply (Forall_impl _ _ _ Hb). simpl. lia. }
  exists hi. split; [lia|done].
Qed.

Lemma of_units_ok bs : StronglySorted Z.lt bs ->
  exists r, of_data (bounds (unit_ranges bs)) = Ok r /\ wf r /\ forall x, x ∈ r <-> x ∈ bs.
Proof.
  intros Hs. assert (exists lo, Forall (Z.le lo) bs) as [lo Hlo].
  { clear Hs. induction bs as [|b bs [lo IH]]; [by exists 0|]. exists (Z.min lo b).
    constructor; [lia|]. eapply (Forall_impl _ _ _ IH). simpl. lia. }
  destruct (unit_ranges_spans bs lo Hs Hlo) as [hi Hsp]. destruct (of_bounds_ok _ _ _ Hsp) as (r & Hr & Hw & Hm).
  exists r. split_and!; [done..|]. intros x. rewrite Hm. unfold unit_ranges. setoid_rewrite list_elem_of_fmap. split.
  - intros (s & e & (b & [= -> ->] & Hb) & Hx). by replace x with b by lia.
  - intros Hx. exists x, (x + 1). split; [by exists x|lia].
Qed.

(** * Partitions built one range set at a time *)

Section partition.
Context (care : RangeSet).

(** [out] divides what is gone from [care]; [rem] is what remains. *)
Record parts (rem : Z -> Prop) (out : list RangeSet) : Prop := {
  pt_wf : Forall wf out;
  pt_cover : forall x, x ∈ care <-> rem x \/ exists r, r ∈ out /\ x ∈ r;
  pt_rem : forall x r, r ∈ out -> x ∈ r -> ~ rem x;
  pt_disjoint : forall x n m i j, out !! n = Some i -> out !! m = Some j -> x ∈ i -> x ∈ j -> n = m
}.

Lemma parts_start : parts (fun x => x ∈ care) [].
Proof.
  split; [constructor| |by intros x r ?%elem_of_nil|by intros x [|n]].
  intros x. split; [by left|]. by intros [?|(r & ?%elem_of_nil & _)].
Qed.

Lemma parts_equiv rem rem' out : parts rem out -> (forall x, rem x <-> rem' x) -> parts rem' out.
Proof.
  intros [? Hc Hr ?] He. split; [done| | |done].
  - intros x. by rewrite Hc, (He x).
  - intros x r Hi Hx Hx'. apply (Hr x r Hi Hx). by apply He.
Qed.

(** A set of remaining blocks becomes a part. *)
Lemma parts_claim rem rem' out r : parts rem out -> wf r -> (forall x, x ∈ r -> rem x) ->
  (forall x, rem' x <-> rem x /\ x ∉ r) -> parts rem' (out ++ [r]).
Proof.
  intros [Hw Hc Hr Hd] Hwr Hin He. split.
  - apply Forall_app. by split; [|constructor].
  - intros x. rewrite Hc, He. setoid_rewrite elem_of_app. setoid_rewrite list_elem_of_singleton. split.
    + intros [Hx|(q & Hq & Hx)]; [|by right; exists q; eauto].
      destruct (decide (x ∈ r)); [right; exists r; eauto|by left].
    + intros [[? _]|(q & [Hq| ->] & Hx)]; [by left|right; by exists q|left; by apply Hin].
  - intros x q Hq Hx [Hx' Hn]%He. apply elem_of_app in Hq as [Hq| ->%list_elem_of_singleton]; [by eapply Hr|done].
  - intros x n m i j Hi Hj Hxi Hxj.
    apply lookup_app_Some in Hi as [Hi|[Hln Hi]]; apply lookup_app_Some in Hj as [Hj|[Hlm Hj]].
    + by eapply Hd.
    + apply list_elem_of_lookup_2 in Hi. apply list_lookup_singleton_Some in Hj as [_ <-]. exfalso. by eapply Hr, Hin.
    + apply list_elem_of_lookup_2 in Hj. apply list_lookup_singleton_Some in Hi as [_ <-]. exfalso. by eapply Hr, Hin.
    + apply list_lookup_singleton_Some in Hi as [? _], Hj as [? _]. lia.
Qed.

Lemma parts_done rem out : wf care -> parts rem out -> (forall x, ~ rem x) -> AssertPartition care out = Ok tt.
Proof.
  intros Hcare [Hw Hc _ Hd] Hn. apply AssertPartition_iff; [done..|]. split; [|done].
  intros x. rewrite Hc. split; [|by right]. intros [?%Hn|?]; done.
Qed.
End partition.


(** * The block map *)

(** The name at the start of a line. *)
Definition line_name (line : string) : option string := head (split_ws_once (rstrip line)).

Section block_map.
Context (simg : bytes) (blocksize : Z) (offset_map : list chunk) (care clobbered : RangeSet).
Context (Hcare : wf care) (Hclob : wf clobbered).

(** The dictionary and the blocks that remain after some lines. *)
Record lines_ok (names : list (option string)) (remaining : RangeSet) (out : list (string * RangeSet)) : Prop := {
  lo_wf : wf remaining;
  lo_parts : parts care (fun x => x ∈ remaining) (map snd out);
  lo_keys : forall k, k ∈ od_keys out -> Some k ∈ names;
  lo_clob : forall x r, r ∈ map snd out -> x ∈ r -> x ∉ clobbered
}.

Lemma wf_mem_data (r q : RangeSet) : rs_data r = rs_data q -> wf r -> wf q /\ forall x, x ∈ q <-> x ∈ r.
Proof. unfold wf, elem_of, rangeset_elem_of. by intros ->. Qed.

Lemma claim_ok names remaining out ranges out' remaining' (fn : string) :
  lines_ok names remaining out -> Some fn ∉ names -> wf ranges ->
  (let! common := intersect ranges remaining in
   assert! size ranges =? size common in
   assert! negb (overlaps clobbered ranges) in
   let! remaining := subtract remaining ranges in
   Ok (remaining, od_set fn ranges out)) = Ok (remaining', out') ->
  lines_ok (names ++ [Some fn]) remaining' out'.
Proof.
  intros [Hw Hp Hk Hc] Hfn Hr H.
  destruct (intersect_ok _ _ Hr Hw) as (common & Ec & Hcw & Hcm). rewrite Ec in H.
  destruct (subtract_ok _ _ Hw Hr) as (rem' & Es & Hsw & Hsm). rewrite Es in H. inv_ok. bool_prop.
  assert (forall x, x ∈ ranges -> x ∈ remaining) as Hin.
  { intros x Hx. eapply Hcm, size_eq_subset; [exact Hr|exact Hcw| |done|done]. intros y ?%Hcm. tauto. }
  assert (fn ∉ od_keys out) as Hnew by (intros ?%Hk; done).
  rewrite od_set_fresh by done. split; [done| | |].
  - rewrite map_app. by eapply parts_claim.
  - intros k. unfold od_keys. rewrite map_app, !elem_of_app. cbn [map fst]. rewrite !list_elem_of_singleton. intros [?%Hk| ->]; [by left|].
    by right.
  - intros x r. rewrite map_app, elem_of_app; cbn [map snd]; rewrite list_elem_of_singleton. intros [Hr'| ->] Hx; [by eapply Hc|].
    intros Hx'. assert (overlaps clobbered ranges = true); [|congruence]. apply overlaps_iff; [done..|by exists x].
Qed.

Lemma load_line_ok shared names remaining out line remaining' out' :
  load_line clobbered shared (remaining, out) line = Ok (remaining', out') ->
  lines_ok names remaining out -> line_name line ∉ names ->
  lines_ok (names ++ [line_name line]) remaining' out'.
Proof.
  unfold load_line, line_name. intros H Hl Hn.
  destruct (split_ws_once (rstrip line)) as [|fn [|text [|? ?]]]; try done. cbn [head] in *.
  destruct (parse text) as [raw|] eqn:Eraw; [|done]. apply parse_wf in Eraw.
  destruct (parse_internal "0") as [zero|] eqn:E0; [|done]. apply parse_wf in E0.
  destruct (subtract_ok _ _ Eraw E0) as (ranges & Es & Hrw & _). rewrite Es in H.
  set (rs := set_extra _ _ _) in H.
  assert (wf rs) as Hrs by exact Hrw. clearbody rs. clear Hrw Es.
  destruct shared; [|exact (claim_ok _ _ _ _ _ _ _ Hl Hn Hrs H)].
  destruct (subtract_ok _ _ Hrs (lo_wf _ _ _ Hl)) as (sh & Esh & Hshw & _). rewrite Esh in H.
  destruct (rs_bool sh); [|exact (claim_ok _ _ _ _ _ _ _ Hl Hn Hrs H)].
  destruct (subtract_ok _ _ Hrs Hshw) as (ns & Ens & Hnsw & _). rewrite Ens in H.
  destruct (negb (rs_bool ns)).
  - injection H as <- <-. destruct Hl as [? ? Hk ?]. split; [done..| |done]. intros k ?%Hk. apply elem_of_app. by left.
  - exact (claim_ok _ _ _ (set_extra _ _ ns) _ _ _ Hl Hn Hnsw H).
Qed.

Lemma load_lines_ok shared lines remaining out : NoDup (map line_name lines) ->
  foldM (load_line clobbered shared) (care, []) lines = Ok (remaining, out) ->
  lines_ok (map line_name lines) remaining out.
Proof.
  intros Hnd H.
  change (lines_ok (map line_name lines) (remaining, out).1 (remaining, out).2).
  apply (foldM_ind (fun pre st => lines_ok (map line_name pre) st.1 st.2) _ _ _ _ H).
  - split; [done|apply parts_start| |]; cbn; [by intros k ?%elem_of_nil|by intros x r ?%elem_of_nil].
  - intros pre x post [rem o] [rem' o'] -> Hp Hx. rewrite map_app. eapply load_line_ok; [exact Hx|exact Hp|].
    rewrite map_app in Hnd. apply NoDup_app in Hnd as (_ & Hd & _). intros Hin. apply (Hd _ Hin). by left.
Qed.

(** ** Blocks of no file *)

(** Data read from a file never equal the block of zeroes, a [str]. *)
Lemma map_block_data b v : map_block simg blocksize offset_map b = Ok v -> py_eqb v (reference blocksize) = false.
Proof.
  unfold map_block. destruct (py_get _ _) as [c|]; [|done]. destruct (ck_data c); [by intros [= <-]|].
  by intros [= <-].
Qed.

(** The visited blocks are those of the full groups and of the current one. *)
Record groups_ok (visited : list Z) (g : list Z * list Z * list (list Z)) : Prop := {
  go_zero : g.1.1 = [];
  go_groups : exists nz gs, g.1.2 = bounds (unit_ranges nz) /\ g.2 = map (fun bs => bounds (unit_ranges bs)) gs /\
    visited = concat gs ++ nz /\ (length nz < 512)%nat /\ Forall (fun bs => length bs = 512%nat) gs
}.

Lemma length_units bs : length (bounds (unit_ranges bs)) = (2 * length bs)%nat.
Proof. induction bs as [|b bs IH]; [done|]. cbn. unfold bounds, unit_ranges in IH. rewrite IH. lia. Qed.

Lemma units_snoc bs b : bounds (unit_ranges bs) ++ [b; b + 1] = bounds (unit_ranges (bs ++ [b])).
Proof. unfold unit_ranges. by rewrite map_app, bounds_app. Qed.

Lemma classify_block_ok visited g b g' : classify_block simg blocksize offset_map g b = Ok g' ->
  groups_ok visited g -> groups_ok (visited ++ [b]) g'.
Proof.
  destruct g as [[z n] gs]. unfold classify_block. intros H [Hz (nz & bs & Hn & Hg & Hv & Hl & Hf)]. cbn in Hz, Hn, Hg. subst z n gs.
  destruct (map_block _ _ _ b) as [v|] eqn:Ev; [|done]. apply map_block_data in Ev. rewrite Ev in H.
  rewrite units_snoc in H. rewrite length_units, length_app in H. change (length [b]) with 1%nat in H.
  unfold MAX_BLOCKS_PER_GROUP in H. destruct (Nat.leb_spec 1024 (2 * (length nz + 1))); injection H as <-; (split; [done|]); cbn.
  - exists [], (bs ++ [nz ++ [b]]). rewrite map_app, concat_app, app_nil_r. cbn. rewrite app_nil_r, Hv, <- app_assoc.
    split_and!; [done..|lia|]. apply Forall_app. split; [done|]. constructor; [|done]. rewrite length_app. simpl. lia.
  - exists (nz ++ [b]), bs. rewrite Hv, <- app_assoc. split_and!; [done..| |done]. rewrite length_app. simpl. lia.
Qed.

Lemma classify_ok ranges g : wf ranges ->
  foldM (fun g '(s, e) => foldM (classify_block simg blocksize offset_map) g (zrange s e)) ([], [], []) (rs_iter ranges) = Ok g ->
  groups_ok (next_item ranges) g.
Proof.
  intros Hr H. rewrite (foldM_ext _ (fun g p => foldM (classify_block simg blocksize offset_map) g ((fun '(s, e) => zrange s e) p))) in H
    by (by intros ? []).
  rewrite foldM_flat_map in H. fold (items (rs_data ranges)) in H. change (items _) with (next_item ranges) in H.
  apply (foldM_ind groups_ok _ _ _ _ H).
  - split; [done|]. exists [], []. by split_and!; [..|simpl; lia|].
  - intros pre x post t t' _ Ht Hx. by eapply classify_block_ok.
Qed.
(** ** The whole map *)

Definition reserved (k : string) : bool := starts_with "__" k.
Definition nonzero_name (i : nat) : string := "__NONZERO-" +:+ py_str (Z.of_nat i).

Lemma nonzero_name_inj i j : nonzero_name i = nonzero_name j -> i = j.
Proof.
  unfold nonzero_name. intros [= H]. pose proof (py_int_str (Z.of_nat i) ltac:(lia)) as Hi.
  rewrite H, py_int_str in Hi by lia. injection Hi. lia.
Qed.

Lemma size_of_blocks r bs : wf r -> NoDup bs -> (forall x, x ∈ r <-> x ∈ bs) -> size r = Z.of_nat (length bs).
Proof.
  intros Hr Hn Hm. rewrite size_items by done. f_equal. apply Permutation_length, NoDup_Permutation; [by apply NoDup_next_item|done|].
  intros x. by rewrite elem_of_next_item, Hm.
Qed.

(** Each group of blocks becomes an entry; the groups are consecutive parts of
    an increasing list. *)
Lemma add_groups_ok (gs : list (list Z)) rem out out' :
  parts care rem (map snd out) -> StronglySorted Z.lt (concat gs) -> (forall x, x ∈ concat gs -> rem x) ->
  (forall i, nonzero_name i ∉ od_keys out) ->
  add_groups (map (fun bs => bounds (unit_ranges bs)) gs) out = Ok out' ->
  exists rs, out' = out ++ imap (fun i r => (nonzero_name i, r)) rs /\
    parts care (fun x => rem x /\ x ∉ concat gs) (map snd out') /\
    Forall2 (fun r bs => wf r /\ size r = Z.of_nat (length bs)) rs gs.
Proof.
  intros Hp Hs Hin Hnew H. unfold add_groups in H. rewrite length_map in H.
  enough (exists rs, out' = out ++ imap (fun i r => (nonzero_name (0 + i), r)) rs /\
    parts care (fun x => rem x /\ x ∉ concat gs) (map snd out') /\
    Forall2 (fun r bs => wf r /\ size r = Z.of_nat (length bs)) rs gs) by done.
  assert (forall i, (0 <= i)%nat -> nonzero_name i ∉ od_keys out) as Hnew' by auto. clear Hnew.
  revert out rem Hp Hin Hnew' H Hs. generalize 0%nat as n.
  induction gs as [|bs gs IH]; intros n out rem Hp Hin Hnew H Hs; cbn in H.
  - inv_ok. exists []. cbn. rewrite app_nil_r. split_and!; [done| |done]. eapply parts_equiv; [done|].
    intros x. rewrite elem_of_nil. tauto.
  - cbn [concat] in Hs, Hin. apply StronglySorted_app in Hs as (Hlt & Hbs & Hgs).
    destruct (of_units_ok bs Hbs) as (r & Er & Hr & Hrm). rewrite Er in H. fold (nonzero_name n) in H.
    rewrite od_set_fresh in H by (by apply Hnew).
    destruct (IH (S n) (out ++ [(nonzero_name n, r)]) (fun x => rem x /\ x ∉ bs)) as (rs & -> & Hp' & Hf); [..|done|done|].
    + rewrite map_app. eapply parts_claim; [exact Hp|done| |].
      * intros x ?%Hrm. apply Hin. set_solver.
      * intros x. by rewrite Hrm.
    + intros x Hx. split; [apply Hin; set_solver|]. intros Hb. specialize (Hlt _ _ Hb Hx). lia.
    + intros i Hi. unfold od_keys. rewrite map_app, elem_of_app. cbn [map fst]. rewrite list_elem_of_singleton.
      intros [?|Heq%nonzero_name_inj]; [|lia]. apply (Hnew i); [lia|done].
    + exists (r :: rs). split_and!.
      * rewrite imap_cons, <- app_assoc, Nat.add_0_r. f_equal. cbn [app]. f_equal. apply imap_ext. intros i q _. unfold compose.
        by replace (n + S i)%nat with (S n + i)%nat by lia.
      * eapply parts_equiv; [exact Hp'|]. intros x. cbn [concat]. set_solver.
      * constructor; [|done]. split; [done|]. apply size_of_blocks; [done|by apply sorted_NoDup|done].
Qed.
(** The groups with the unfinished one, and their blocks. *)
Lemma last_group visited nz bss : visited = concat bss ++ nz -> (length nz < 512)%nat ->
  Forall (fun bs => length bs = 512%nat) bss ->
  exists gs, match bounds (unit_ranges nz) with
             | [] => map (fun bs => bounds (unit_ranges bs)) bss
             | _ => map (fun bs => bounds (unit_ranges bs)) bss ++ [bounds (unit_ranges nz)]
             end = map (fun bs => bounds (unit_ranges bs)) gs /\
    concat gs = visited /\ Forall (fun bs => (0 < length bs <= 512)%nat) gs.
Proof.
  intros -> Hl Hf. assert (Forall (fun bs : list Z => (0 < length bs <= 512)%nat) bss) as Hf'.
  { eapply (Forall_impl _ _ _ Hf). simpl. lia. }
  destruct nz as [|b nz].
  - exists bss. by rewrite app_nil_r.
  - exists (bss ++ [b :: nz]). rewrite map_app, concat_app. cbn [concat]. rewrite app_nil_r. split_and!; [done..|].
    apply Forall_app. split; [done|]. constructor; [|done]. simpl in *. lia.
Qed.

Lemma rs_bool_mem r : rs_bool r = false -> forall x, x ∉ r.
Proof. unfold rs_bool, elem_of, rangeset_elem_of. by destruct (rs_data r). Qed.

(** The entries are the files of the map, groups of the other blocks, and the
    clobbered blocks; together they divide the care map. *)
Lemma LoadFileBlockMap_ok shared lines out :
  NoDup (map line_name lines) -> (forall k, Some k ∈ map line_name lines -> reserved k = false) ->
  (forall x, x ∈ clobbered -> x ∈ care) ->
  LoadFileBlockMap simg blocksize offset_map care lines clobbered shared = Ok out ->
  exists files groups,
    out = files ++ imap (fun i r => (nonzero_name i, r)) groups ++ (if rs_bool clobbered then [("__COPY", clobbered)] else []) /\
    (forall k, k ∈ od_keys files -> Some k ∈ map line_name lines) /\
    Forall (fun r => wf r /\ 0 < size r <= 512) groups /\
    AssertPartition care (map snd out) = Ok tt.
Proof.
  intros Hnd Hres Hsub H. unfold LoadFileBlockMap in H.
  destruct (foldM (load_line _ _) _ _) as [[rem files]|] eqn:El; [|done]. apply load_lines_ok in El as [Hrw Hp Hk Hc]; [|done].
  destruct (subtract_ok _ _ Hrw Hclob) as (rem' & Es & Hrw' & Hrm). rewrite Es in H.
  destruct (foldM _ _ (rs_iter rem')) as [[[z n] gs]|] eqn:Eg; [|done].
  apply classify_ok in Eg as [Hz (nz & bss & Hn & Hg & Hv & Hl & Hf)]; [|done]. cbn in Hz, Hn, Hg. subst z n gs.
  destruct (last_group _ _ _ Hv Hl Hf) as (gs & Egs & Hcat & Hlen). rewrite Egs in H.
  destruct (negb _ || _ || _); [|done]. cbv beta iota in H.
  destruct (add_groups _ files) as [out1|] eqn:Ea; [|done].
  assert (StronglySorted Z.lt (concat gs)) as Hsort by (rewrite Hcat; by apply items_sorted).
  assert (forall i, nonzero_name i ∉ od_keys files) as Hfresh.
  { intros i ?%Hk%Hres. done. }
  destruct (add_groups_ok gs (fun x => x ∈ rem) files out1) as (rs & -> & Hp' & Hf2); [done..| |done|done|].
  { intros x. rewrite Hcat, elem_of_next_item by done. intros ?%Hrm. tauto. }
  assert (Forall (fun r => wf r /\ 0 < size r <= 512) rs) as Hrs.
  { clear -Hf2 Hlen. induction Hf2 as [|r bs rs gs [Hr Hs] _ IH]; constructor; apply Forall_cons_1 in Hlen as [? ?]; [|by apply IH].
    split; [done|lia]. }
  assert (forall x, x ∈ rem -> x ∉ concat gs -> x ∈ clobbered) as Hleft.
  { intros x Hx Hn. destruct (decide (x ∈ clobbered)) as [?|Hc']; [done|]. exfalso. apply Hn. rewrite Hcat, elem_of_next_item, Hrm by done. done. }
  exists files, rs. rewrite app_assoc. destruct (rs_bool clobbered) eqn:Eb; injection H as <-.
  - rewrite od_set_fresh.
    + split_and!; [done..|]. rewrite map_app. eapply parts_done; [done|eapply parts_claim|].
      * exact Hp'.
      * done.
      * intros x Hx. split.
        -- apply Hsub in Hx as Hx'. apply (pt_cover _ _ _ Hp) in Hx' as [?|(r & Hr & Hxr)]; [done|]. exfalso. by eapply Hc.
        -- rewrite Hcat, elem_of_next_item, Hrm by done. tauto.
      * intros x. split; [intros Hx; exact Hx|intros Hx; exact Hx].
      * intros x [[Hx Hn] Hc']. by apply Hc', Hleft.
    + unfold od_keys. rewrite map_app, elem_of_app. intros [?%Hk%Hres|Hin]; [done|].
      apply list_elem_of_fmap in Hin as ([k r] & Heq & Hin). cbn in Heq. subst k.
      apply elem_of_lookup_imap in Hin as (i & q & [= Heq _] & _).
  - rewrite app_nil_r. split_and!; [done..|]. eapply parts_done; [done|exact Hp'|].
    intros x [Hx Hn]. eapply rs_bool_mem; [exact Eb|]. by apply Hleft.
Qed.
End block_map.
