(* ===== verification/SparseProps.v ===== *)
(** Sparse images: the chunks found by the constructor, and the data read through
    them, against a decoder that expands the file block by block; their files divide
    the blocks, reading gives the blocks the file encodes, and a chunk can be added. *)

From stdpp Require Import sorting.
From S2P Require Export SparseFacts.

#[local] Open Scope string_scope.
#[local] Open Scope list_scope.
#[local] Open Scope Z_scope.

(** * The reference decoder *)

(** The blocks a file of chunks stands for: [None] is a block the image does
    not care about. *)
Section decode.
Context (blocksize : Z).

Definition decode_chunk (st : file * list (option bytes)) : result (file * list (option bytes)) :=
  let '(f, blocks) := st in
  let '(b, f) := f_read 12 f in
  if blen b =? 12 then
    let chunk_type := field b 0 2 in
    let n := Z.to_nat (field b 4 4) in
    if chunk_type =? 0xCAC1 then
      let block i := py_slice (f_data f) (f_pos f + Z.of_nat i * blocksize) (f_pos f + Z.of_nat i * blocksize + blocksize) in
      Ok (f_seek (f_pos f + Z.of_nat n * blocksize) f, blocks ++ map (fun i => Some (block i)) (seq 0 n))
    else if chunk_type =? 0xCAC2 then
      let d := py_slice (f_data f) (f_pos f) (f_pos f + 4) in
      Ok (f_seek (f_pos f + 4) f, blocks ++ replicate n (Some (repeat_bytes (Z.shiftr blocksize 2) d)))
    else Ok (f, blocks ++ replicate n None)
  else Raise StructError.
End decode.

(** The chunks follow the file header; [decode_all] also says where they end. *)
Definition decode_all (simg : bytes) : result (file * list (option bytes)) :=
  let h := py_slice simg 0 28 in
  foldM (fun st _ => decode_chunk (field h 12 4) st) (mkFile simg 28, []) (seq 0 (Z.to_nat (field h 20 4))).

Definition decode (simg : bytes) : result (list (option bytes)) :=
  let! (_, blocks) := decode_all simg in Ok blocks.

(** The data of a block. *)
Definition block_of (blocks : list (option bytes)) (b : Z) : bytes := default [] (mjoin (blocks !! Z.to_nat b)).
Definition cared (blocks : list (option bytes)) (b : Z) : Prop := 0 <= b /\ exists d, blocks !! Z.to_nat b = Some (Some d).

(** * Pieces of chunks *)

Definition extent (c : chunk) : Z * Z := (ck_start c, ck_start c + ck_len c).

Section image.
Context (simg : bytes) (blocksize : Z) (Hbs : 0 <= blocksize).

(** A chunk whose data are where a file can have them. *)
Definition placed (c : chunk) : Prop := match ck_data c with AtPos p => 0 <= p | FillWith _ => True end.

Lemma chunk_piece_app c off n m : placed c -> 0 <= off -> 0 <= n -> 0 <= m ->
  chunk_piece simg blocksize c off n ++ chunk_piece simg blocksize c (off + n) m = chunk_piece simg blocksize c off (n + m).
Proof.
  intros Hp Ho Hn Hm. unfold chunk_piece, placed in *. destruct (ck_data c) as [p|d].
  - unfold read_at. assert (forall k, 0 <= k -> (k * blocksize <? 0) = false) as Hlt by (intros; apply Z.ltb_ge; nia).
    rewrite !Hlt by lia. replace (p + (off + n) * blocksize) with (p + off * blocksize + n * blocksize) by lia.
    replace (p + off * blocksize + (n + m) * blocksize) with (p + off * blocksize + n * blocksize + m * blocksize) by lia.
    apply py_slice_app; nia.
  - unfold repeat_bytes. rewrite <- concat_app, <- replicate_add. do 2 f_equal.
    assert (0 <= Z.shiftr blocksize 2) by (by apply Z.shiftr_nonneg).
    rewrite <- Z2Nat.inj_add by nia. f_equal. lia.
Qed.

Lemma chunk_piece_0 c off : chunk_piece simg blocksize c off 0 = [].
Proof.
  unfold chunk_piece. destruct (ck_data c); [|done]. unfold read_at. rewrite Z.mul_0_l, Z.add_0_r. cbn.
  unfold py_slice. by rewrite Z.sub_diag.
Qed.

Lemma chunk_piece_blocks c off n : placed c -> 0 <= off -> 0 <= n ->
  chunk_piece simg blocksize c off n = concat (map (fun i => chunk_piece simg blocksize c i 1) (zrange off (off + n))).
Proof.
  intros Hp Ho Hn. remember (Z.to_nat n) as k eqn:Ek. revert off n Ho Hn Ek.
  induction k as [|k IH]; intros off n Ho Hn Ek.
  - replace n with 0 by lia. by rewrite chunk_piece_0, zrange_nil by lia.
  - rewrite zrange_cons by lia. cbn [map concat]. replace (off + n) with (off + 1 + (n - 1)) by lia.
    rewrite <- IH by lia. rewrite chunk_piece_app by (done || lia). f_equal. lia.
Qed.

(** * The chunks of a file *)

(** The state of the loop describes the blocks decoded so far. *)
Record chunks_ok (s : ChunkState) (blocks : list (option bytes)) : Prop := {
  co_pos : cs_pos s = Z.of_nat (length blocks);
  co_file : f_data (cs_file s) = simg /\ 0 <= f_pos (cs_file s);
  co_care : cs_care s = bounds (map extent (cs_map s));
  co_spans : spans 0 (map extent (cs_map s)) (cs_pos s);
  co_placed : Forall placed (cs_map s);
  co_data : forall c i, c ∈ cs_map s -> 0 <= i < ck_len c ->
    blocks !! Z.to_nat (ck_start c + i) = Some (Some (chunk_piece simg blocksize c i 1));
  co_covered : forall b, cared blocks b -> exists c, c ∈ cs_map s /\ ck_start c <= b < ck_start c + ck_len c
}.

(** A chunk with data, and one without. *)
Lemma add_chunk_ok s blocks n f c : chunks_ok s blocks -> f_data f = simg -> 0 <= f_pos f ->
  ck_start c = cs_pos s -> ck_len c = Z.of_nat n -> placed c ->
  chunks_ok (mkChunks f (cs_pos s + Z.of_nat n) (cs_care s ++ [cs_pos s; cs_pos s + Z.of_nat n]) (cs_map s ++ [c]))
    (blocks ++ map (fun i => Some (chunk_piece simg blocksize c (Z.of_nat i) 1)) (seq 0 n)).
Proof.
  intros [Hp Hf Hc Hs Hpl Hd Hcov] Hfd Hfp Hst Hln Hplc. split; cbn [cs_pos cs_file cs_care cs_map].
  - rewrite length_app, length_map, length_seq. lia.
  - done.
  - rewrite map_app, bounds_app, <- Hc. unfold extent at 1. cbn. by rewrite Hst, Hln.
  - rewrite map_app. cbn [map]. unfold extent at 2. rewrite Hst, Hln. apply spans_snoc; [done|lia|lia].
  - apply Forall_app. by split; [|constructor].
  - intros d i [Hin| ->%list_elem_of_singleton]%elem_of_app Hi.
    + apply lookup_app_l_Some. by apply Hd.
    + rewrite lookup_app_r by lia. replace (Z.to_nat _ - length blocks)%nat with (Z.to_nat i) by lia.
      rewrite lookup_map, lookup_seq_lt by lia. cbn. do 3 f_equal. lia.
  - intros b [Hb [d Hbd]]. apply lookup_app_Some in Hbd as [Hbd|[Hge Hbd]].
    + destruct (Hcov b) as (c' & ? & ?); [by split; [|exists d]|]. exists c'. split; [apply elem_of_app; by left|done].
    + exists c. split; [apply elem_of_app; right; by left|]. apply lookup_lt_Some in Hbd. rewrite length_map, length_seq in Hbd. lia.
Qed.

Lemma skip_chunk_ok s blocks n f : chunks_ok s blocks -> f_data f = simg -> 0 <= f_pos f ->
  chunks_ok (mkChunks f (cs_pos s + Z.of_nat n) (cs_care s) (cs_map s)) (blocks ++ replicate n None).
Proof.
  intros [Hp Hf Hc Hs Hpl Hd Hcov] Hfd Hfp. split; cbn [cs_pos cs_file cs_care cs_map]; try done.
  - rewrite length_app, length_replicate. lia.
  - eapply spans_weaken; [done|lia].
  - intros d i Hin Hi. apply lookup_app_l_Some. by apply Hd.
  - intros b [Hb [d Hbd]]. apply lookup_app_Some in Hbd as [Hbd|[Hge Hbd]]; [apply Hcov; by split; [|exists d]|].
    by apply lookup_replicate in Hbd as [? _].
Qed.

(** The decoder is where the loop is, or the loop is at the end of the file and
    reads nothing more. *)
Definition same_place (f f' : file) : Prop := f_data f = simg /\ (f_pos f = f_pos f' \/ blen simg <= f_pos f').

Lemma read_chunk_ok s blocks s' g : bytes_ok simg -> chunks_ok s blocks -> same_place g (cs_file s) ->
  read_chunk blocksize s = Ok s' ->
  exists g' blocks', decode_chunk blocksize (g, blocks) = Ok (g', blocks') /\ chunks_ok s' blocks' /\ same_place g' (cs_file s').
Proof.
  intros Hb Hok [Hg Hpl] H. unfold read_chunk in H. unfold decode_chunk.
  destruct (co_file _ _ Hok) as [Hf Hf0]. destruct (f_read 12 (cs_file s)) as [b f] eqn:Ef.
  assert (bytes_ok b /\ f_data f = simg /\ 0 <= f_pos f) as (Hbb & Hfd & Hfp).
  { unfold f_read in Ef. injection Ef as <- <-. cbn. rewrite Hf. split; [by apply slice_bytes_ok|]. unfold blen. split; [done|lia]. }
  destruct (Z.eqb_spec (blen b) 12) as [Hb12|]; [|done]. cbn [negb] in H.
  assert (g = cs_file s) as ->.
  { destruct Hpl as [Hpl|Hend]; [destruct g, (cs_file s); cbn in *; congruence|]. exfalso. unfold f_read in Ef. injection Ef as <- _.
    rewrite Hf in Hb12. unfold py_slice, blen in *. rewrite length_take, length_drop in Hb12. lia. }
  clear Hpl Hg. rewrite Ef, Hb12, Z.eqb_refl.
  pose proof (field_nonneg b 4 4 Hbb) as Hn. remember (Z.to_nat (field b 4 4)) as n eqn:En.
  replace (field b 4 4) with (Z.of_nat n) in * by lia. rewrite Hfd.
  destruct (_ =? 0xCAC1).
  - destruct (Z.eqb_spec (field b 8 4 - 12) (Z.of_nat n * blocksize)) as [Hsz|]; [|done]. injection H as <-. rewrite Hsz.
    eexists _, _. split; [reflexivity|]. split; [|by split; [|left]]. erewrite map_ext; [apply add_chunk_ok; try done; cbn; nia|].
    intros i. cbn [chunk_piece ck_data]. unfold chunk_piece, read_at. cbn [ck_data].
    destruct (Z.ltb_spec (1 * blocksize) 0); [lia|]. by rewrite Z.mul_1_l.
  - destruct (_ =? 0xCAC2).
    + destruct (f_read 4 f) as [d f2] eqn:Ef2. injection H as <-. eexists _, _. split; [reflexivity|].
      unfold f_read in Ef2. rewrite Hfd in Ef2. injection Ef2 as <- <-. split; [|split; [done|]].
      * replace (replicate n _) with (map (fun i => Some (chunk_piece simg blocksize (mkChunk (cs_pos s) (Z.of_nat n)
          (FillWith (py_slice simg (f_pos f) (f_pos f + 4)))) (Z.of_nat i) 1)) (seq 0 n)).
        -- apply add_chunk_ok; try done. cbn. unfold blen. lia.
        -- unfold chunk_piece. cbn [ck_data]. rewrite Z.mul_1_l. generalize 0%nat. clear. induction n as [|n IH]; intros k; [done|].
           cbn. by rewrite IH.
      * cbn. unfold py_slice, blen. rewrite length_take, length_drop. lia.
    + destruct (_ =? 0xCAC3); [|done]. destruct (_ =? 0); [|done]. injection H as <-. eexists _, _. split; [reflexivity|].
      split; [by apply skip_chunk_ok|by split; [|left]].
Qed.

Lemma read_chunks_ok h f s : bytes_ok simg -> blk_sz h = blocksize -> f_data f = simg -> 0 <= f_pos f ->
  read_chunks h f = Ok s ->
  exists blocks f', foldM (fun st _ => decode_chunk blocksize st) (f, []) (seq 0 (Z.to_nat (total_chunks h))) = Ok (f', blocks) /\
    chunks_ok s blocks.
Proof.
  intros Hb Hbsz Hfd Hfp H. unfold read_chunks in H. rewrite Hbsz in H.
  assert (chunks_ok (mkChunks f 0 [] []) []) as Hok.
  { split; cbn; [done|done|done|lia|constructor|by intros c i ?%elem_of_nil|]. intros b [_ [d Hd]]. by rewrite lookup_nil in Hd. }
  assert (same_place f (cs_file (mkChunks f 0 [] []))) as Hfile by (split; [done|by left]).
  revert H Hok Hfile. generalize (mkChunks f 0 [] []) as s0. generalize ([] : list (option bytes)) as blocks. clear Hfd Hfp. revert f.
  induction (seq _ _) as [|x l IH]; intros f blocks s0 H Hok Hfile; cbn [foldM] in H |- *.
  - injection H as <-. by exists blocks, f.
  - destruct (read_chunk blocksize s0) as [s1|] eqn:E; [|done].
    destruct (read_chunk_ok _ _ _ _ Hb Hok Hfile E) as (g' & blocks1 & -> & Hok1 & Hp1). by apply (IH _ _ s1).
Qed.

(** * Reading *)

Section reading.
Context (s : ChunkState) (blocks : list (option bytes)) (Hok : chunks_ok s blocks).
#[local] Abbreviation m := (cs_map s).

(** A chunk ends before the next one starts. *)
Lemma chunks_order i j c d : m !! i = Some c -> m !! j = Some d ->
  0 <= ck_start c /\ 0 <= ck_len c /\ ((i < j)%nat -> ck_start c + ck_len c <= ck_start d).
Proof.
  intros Hi Hj. pose proof (co_spans _ _ Hok) as H.
  destruct (spans_order _ _ _ H i j (extent c) (extent d)) as [H1 H2]; [by rewrite lookup_map, Hi|by rewrite lookup_map, Hj|].
  unfold extent in *. cbn in *. split_and!; [lia|lia|done].
Qed.

Lemma starts_sorted : StronglySorted Z.le (offset_index m).
Proof.
  apply sorted_of_lookup. intros i j x y Hi Hj Hij. unfold offset_index in *. rewrite lookup_map in Hi, Hj.
  destruct (m !! i) as [c|] eqn:Ei; [|done]. destruct (m !! j) as [d|] eqn:Ej; [|done]. injection Hi as <-. injection Hj as <-.
  destruct (chunks_order i j c d Ei Ej) as (? & ? & Hle). specialize (Hle Hij). lia.
Qed.

(** Bisection finds the chunk of a block. *)
Lemma chunk_index_ok b : cared blocks b ->
  exists k c, chunk_index m b = Z.of_nat k /\ m !! k = Some c /\ ck_start c <= b < ck_start c + ck_len c.
Proof.
  intros (c & Hc & Hb)%(co_covered _ _ Hok). apply list_elem_of_lookup in Hc as [j Hj].
  destruct (bisect_right_ok (offset_index m) b starts_sorted) as (k & Ek & Hk & Hle & Hgt).
  assert (offset_index m !! j = Some (ck_start c)) as Hoj by (unfold offset_index; by rewrite lookup_map, Hj).
  assert (j < k)%nat as Hjk by (destruct (decide (k <= j)%nat) as [Hge|]; [specialize (Hgt _ _ Hoj Hge)|]; lia).
  assert (j = k - 1)%nat as ->.
  { destruct (decide (j < k - 1)%nat) as [Hlt|]; [|lia]. exfalso.
    assert (is_Some (m !! (k - 1)%nat)) as [d Hd]. { apply lookup_lt_is_Some. unfold offset_index in Hk. rewrite length_map in Hk. lia. }
    assert (offset_index m !! (k - 1)%nat = Some (ck_start d)) as Hod by (unfold offset_index; by rewrite lookup_map, Hd).
    specialize (Hle _ _ Hod ltac:(lia)). destruct (chunks_order j (k - 1) c d Hj Hd) as (_ & _ & Hlt'). specialize (Hlt' Hlt). lia. }
  exists (k - 1)%nat, c. split_and!; [unfold chunk_index; lia|done|lia|lia].
Qed.

(** The pieces of a chunk are its blocks. *)
Lemma piece_blocks c off n : c ∈ m -> 0 <= off -> 0 <= n -> off + n <= ck_len c ->
  chunk_piece simg blocksize c off n = concat (map (block_of blocks) (zrange (ck_start c + off) (ck_start c + off + n))).
Proof.
  intros Hc Ho Hn Hl. rewrite chunk_piece_blocks; [|by eapply (proj1 (list.Forall_forall _ _) (co_placed _ _ Hok))|done|done].
  f_equal. rewrite (zrange_shift (ck_start c)), map_map. apply map_ext_in. intros i Hi%list_elem_of_In%elem_of_zrange.
  unfold block_of. rewrite (co_data _ _ Hok c i) by (done || lia). done.
Qed.

Lemma read_more_ok fuel : forall k c n out, (length m - k < fuel)%nat -> m !! k = Some c ->
  (forall b, ck_start c + ck_len c <= b < ck_start c + ck_len c + n -> cared blocks b) ->
  exists ps, read_more simg blocksize m fuel (Z.of_nat k) n out = Ok (out ++ ps) /\
    concat ps = concat (map (block_of blocks) (zrange (ck_start c + ck_len c) (ck_start c + ck_len c + n))).
Proof.
  induction fuel as [|fuel IH]; intros k c n out Hf Hk Hcov; [lia|]. cbn [read_more].
  destruct (Z.ltb_spec 0 n); [|exists []; rewrite app_nil_r, zrange_nil by lia; done].
  destruct (chunk_index_ok (ck_start c + ck_len c)) as (j & d & _ & Hj & Hd); [apply Hcov; lia|].
  assert (k < j)%nat as Hkj.
  { destruct (decide (k < j)%nat) as [?|Hn]; [done|]. exfalso. destruct (decide (k = j)) as [->|]; [simplify_eq; lia|].
    destruct (chunks_order j k d c Hj Hk) as (? & ? & Hle). specialize (Hle ltac:(lia)). destruct (chunks_order k k c c Hk Hk). lia. }
  assert (is_Some (m !! S k)) as [c' Hc'] by (apply lookup_lt_is_Some; apply lookup_lt_Some in Hj; lia).
  assert (ck_start c' = ck_start c + ck_len c) as Hst.
  { destruct (chunks_order k (S k) c c' Hk Hc') as (_ & _ & H1). specialize (H1 ltac:(lia)).
    destruct (decide (S k = j)) as [<-|]; [simplify_eq; lia|].
    destruct (chunks_order (S k) j c' d Hc' Hj) as (_ & ? & H2). specialize (H2 ltac:(lia)). lia. }
  destruct (chunks_order (S k) (S k) c' c' Hc' Hc') as (_ & Hl & _).
  rewrite (py_get_nonneg m (Z.of_nat k + 1) c') by (lia || by replace (Z.to_nat (Z.of_nat k + 1)) with (S k) by lia).
  remember (Z.min (ck_len c') n) as r eqn:Er. replace (Z.of_nat k + 1) with (Z.of_nat (S k)) by lia.
  assert (chunk_piece simg blocksize c' 0 r = concat (map (block_of blocks) (zrange (ck_start c + ck_len c) (ck_start c + ck_len c + r)))) as Hp.
  { rewrite piece_blocks; [|by eapply list_elem_of_lookup_2|lia|lia|lia]. by rewrite Z.add_0_r, Hst. }
  destruct (decide (n <= ck_len c')).
  - exists [chunk_piece simg blocksize c' 0 r]. replace (n - r) with 0 by lia. split; [by destruct fuel|].
    cbn [concat]. rewrite app_nil_r, Hp. do 3 f_equal. lia.
  - replace r with (ck_len c') in * by lia.
    destruct (IH (S k) c' (n - ck_len c') (out ++ [chunk_piece simg blocksize c' 0 (ck_len c')])) as (ps & Hps & Hcat).
    { apply lookup_lt_Some in Hc'. lia. }
    { done. }
    { intros b Hb. apply Hcov. lia. }
    exists (chunk_piece simg blocksize c' 0 (ck_len c') :: ps). split; [by rewrite Hps, <- app_assoc|].
    cbn [concat]. rewrite Hcat, Hp, <- concat_app, <- map_app, Hst. do 2 f_equal.
    rewrite <- zrange_split by lia. f_equal. lia.
Qed.

Lemma read_range_ok out a e : a < e -> (forall b, a <= b < e -> cared blocks b) ->
  exists ps, read_range simg blocksize m out (a, e) = Ok (out ++ ps) /\ concat ps = concat (map (block_of blocks) (zrange a e)).
Proof.
  intros Hae Hcov. unfold read_range. destruct (chunk_index_ok a) as (k & c & -> & Hk & Hc); [apply Hcov; lia|].
  rewrite (py_get_nonneg m (Z.of_nat k) c) by (lia || by rewrite Nat2Z.id).
  remember (Z.min (ck_len c - (a - ck_start c)) (e - a)) as r eqn:Er.
  assert (chunk_piece simg blocksize c (a - ck_start c) r = concat (map (block_of blocks) (zrange a (a + r)))) as Hp.
  { rewrite piece_blocks; [|by eapply list_elem_of_lookup_2|lia|lia|lia]. by replace (ck_start c + (a - ck_start c)) with a by lia. }
  destruct (decide (e - a <= ck_len c - (a - ck_start c))).
  - exists [chunk_piece simg blocksize c (a - ck_start c) r]. replace (e - a - r) with 0 by lia. split; [done|].
    cbn [concat]. rewrite app_nil_r, Hp. do 3 f_equal. lia.
  - destruct (read_more_ok (S (length m)) k c (e - a - r) (out ++ [chunk_piece simg blocksize c (a - ck_start c) r])) as (ps & Hps & Hcat);
      [lia|done| |].
    { intros b Hb. apply Hcov. lia. }
    eexists (_ :: ps). split; [by rewrite Hps, <- app_assoc|]. cbn [concat]. rewrite Hcat, Hp, <- concat_app, <- map_app. do 2 f_equal.
    replace (ck_start c + ck_len c) with (a + r) by lia. rewrite <- zrange_split by lia. f_equal. lia.
Qed.

Lemma GetRangeData_ok ranges : Forall (fun p => p.1 < p.2 /\ forall b, p.1 <= b < p.2 -> cared blocks b) ranges ->
  exists ps, GetRangeData simg blocksize m ranges = Ok ps /\
    concat ps = concat (map (block_of blocks) (flat_map (fun '(a, e) => zrange a e) ranges)).
Proof.
  intros H. unfold GetRangeData. enough (forall out, exists ps, foldM (read_range simg blocksize m) out ranges = Ok (out ++ ps) /\
    concat ps = concat (map (block_of blocks) (flat_map (fun '(a, e) => zrange a e) ranges))) as Hgen by apply (Hgen []).
  induction H as [|[a e] ranges [Hae Hcov] _ IH]; intros out; cbn [foldM flat_map].
  - exists []. by rewrite app_nil_r.
  - destruct (read_range_ok out a e Hae Hcov) as (ps & -> & Hps). destruct (IH (out ++ ps)) as (qs & -> & Hqs).
    exists (ps ++ qs). by rewrite app_assoc, map_app, !concat_app, Hps, Hqs.
Qed.
End reading.
End image.

(** * The constructor *)

(** What the constructor makes of the file. *)
Lemma new_image_ok simg file_map clobbered_blocks shared img : bytes_ok simg ->
  new_SparseImage simg file_map clobbered_blocks shared = Ok img ->
  exists h s blocks clobbered, read_header simg = Ok (h, mkFile simg 28) /\ decode simg = Ok blocks /\
    clobbered_of clobbered_blocks = Ok clobbered /\
    chunks_ok simg (blk_sz h) s blocks /\ 0 <= blk_sz h /\
    si_file img = simg /\ si_blocksize img = blk_sz h /\ si_total_blocks img = total_blks h /\
    si_total_chunks img = field (py_slice simg 0 28) 20 4 /\ 28 <= blen simg /\
    blk_sz h = field (py_slice simg 0 28) 12 4 /\
    si_offset_map img = cs_map s /\ si_clobbered img = clobbered /\ wf clobbered /\
    wf (si_care_map img) /\ (forall x, x ∈ si_care_map img <-> cared blocks x) /\
    (forall x, x ∈ si_extended img <-> 0 <= x < total_blks h /\ ~ cared blocks x /\ exists y, cared blocks y /\ y - 512 <= x <= y + 512) /\
    match file_map with
    | Some content => LoadFileBlockMap simg (blk_sz h) (cs_map s) (si_care_map img) (readlines content) clobbered shared = Ok (si_file_map img)
    | None => si_file_map img = [("__DATA", si_care_map img)]
    end.
Proof.
  intros Hb H. unfold new_SparseImage in H. destruct (read_header simg) as [[h f]|] eqn:Eh; [|done].
  destruct (clobbered_of clobbered_blocks) as [clobbered|] eqn:Ec; [|done].
  destruct (read_chunks h f) as [s|] eqn:Es; [|done].
  assert (f = mkFile simg 28 /\ blk_sz h = field (py_slice simg 0 28) 12 4 /\ total_blks h = field (py_slice simg 0 28) 16 4 /\
    total_chunks h = field (py_slice simg 0 28) 20 4 /\ 28 <= blen simg) as (-> & Hbs & Htb & Htc & H28).
  { unfold read_header in Eh. destruct (f_read 28 (mkFile simg 0)) as [b f0] eqn:Ef. unfold unpack_header in Eh.
    destruct (Z.eqb_spec (blen b) 28) as [Hl|]; [|done]. destruct (check_header _); [|done]. injection Eh as <- <-.
    unfold f_read in Ef. cbn in Ef. injection Ef as <- <-. rewrite Hl. split_and!; [done..|].
    unfold blen, py_slice in *. rewrite length_take, length_drop in Hl. lia. }
  assert (0 <= blk_sz h) as Hbs0 by (rewrite Hbs; by apply field_nonneg, slice_bytes_ok).
  destruct (read_chunks_ok simg (blk_sz h) Hbs0 h (mkFile simg 28) s) as (blocks & f' & Hd & Hok); [done..|cbn; lia|done|].
  rewrite Htc, Hbs in Hd.
  rewrite (co_care _ _ _ _ Hok) in H.
  destruct (of_bounds_ok _ _ _ (co_spans _ _ _ _ Hok)) as (care & Ecare & Hcw & Hcm). rewrite Ecare in H.
  assert (forall x, x ∈ care <-> cared blocks x) as Hcare.
  { intros x. rewrite Hcm. split.
    - intros (a & e & (c & Hce & Hc)%list_elem_of_fmap & Hx). injection Hce as -> ->.
      assert (0 <= ck_start c). { apply list_elem_of_lookup in Hc as [k Hk]. by eapply (chunks_order _ _ _ _ Hok k k). }
      split; [lia|]. pose proof (co_data _ _ _ _ Hok c (x - ck_start c) Hc ltac:(lia)) as Hx'.
      replace (ck_start c + (x - ck_start c)) with x in Hx' by lia. eauto.
    - intros (c & Hc & Hx)%(co_covered _ _ _ _ Hok). exists (ck_start c), (ck_start c + ck_len c). split; [|done].
      apply list_elem_of_fmap. by exists c. }
  assert (0 <= total_blks h) as Htb0 by (rewrite Htb; by apply field_nonneg, slice_bytes_ok).
  destruct (extend_ok care 512 Hcw) as (ext & Eext & Hew & Hem); [intros x [? _]%Hcare; lia|lia|]. rewrite Eext in H.
  destruct (of_bounds_ok 0 [(0, total_blks h)] (total_blks h)) as (all & Eall & Haw & Ham); [cbn; lia|]. cbn [bounds flat_map app fst snd] in Eall.
  rewrite Eall in H. destruct (intersect_ok ext all Hew Haw) as (ext1 & E1 & Hw1 & Hm1). rewrite E1 in H.
  destruct (subtract_ok ext1 care Hw1 Hcw) as (ext2 & E2 & Hw2 & Hm2). rewrite E2 in H.
  assert (forall x, x ∈ ext2 <-> 0 <= x < total_blks h /\ ~ cared blocks x /\ exists y, cared blocks y /\ y - 512 <= x <= y + 512) as Hext.
  { intros x. rewrite Hm2, Hm1, Hem, Ham, Hcare. setoid_rewrite Hcare. setoid_rewrite list_elem_of_singleton. split.
    - intros [[(? & Hy) (? & ? & [= -> ->] & ?)] ?]. split; [lia|]. by split.
    - intros (? & ? & ?). split_and!; [lia|done|by exists 0, (total_blks h)|done]. }
  assert (wf clobbered) as Hclob.
  { unfold clobbered_of in Ec. destruct clobbered_blocks; [by eapply parse_wf|]. injection Ec as <-. apply wf_empty. }
  destruct file_map as [content|].
  - destruct (LoadFileBlockMap _ _ _ _ _ _ _) as [fm|] eqn:El; [|done]. injection H as <-. exists h, s, blocks, clobbered.
    unfold decode, decode_all. rewrite Hd. by split_and!.
  - injection H as <-. exists h, s, blocks, clobbered. unfold decode, decode_all. rewrite Hd. by split_and!.
Qed.

(** * The file map *)

(** C12: the file map that the constructor makes from a map with distinct names
    that do not start with two underscores is a partition of the care map, as
    [BlockImageDiff.__init__] asserts, when the clobbered blocks are in the care
    map: files with names of the map, then groups of at most 512 blocks of no
    file, then the clobbered blocks; there is never a [__ZERO] entry. *)
Theorem sparse_file_map simg content clobbered_blocks shared img : bytes_ok simg ->
  NoDup (map line_name (readlines content)) -> (forall k, Some k ∈ map line_name (readlines content) -> reserved k = false) ->
  new_SparseImage simg (Some content) clobbered_blocks shared = Ok img ->
  (forall x, x ∈ si_clobbered img -> x ∈ si_care_map img) ->
  AssertPartition (si_care_map img) (map snd (si_file_map img)) = Ok tt /\
  (exists files groups,
    si_file_map img = files ++ imap (fun i r => (nonzero_name i, r)) groups ++
      (if rs_bool (si_clobbered img) then [("__COPY", si_clobbered img)] else []) /\
    (forall k, k ∈ od_keys files -> Some k ∈ map line_name (readlines content)) /\
    Forall (fun r => wf r /\ 0 < size r <= 512) groups) /\
  "__ZERO" ∉ od_keys (si_file_map img).
Proof.
  intros Hb Hn Hres H Hsub. apply new_image_ok in H; [|done].
  destruct H as (h & s & blocks & clobbered & _ & _ & _ & _ & _ & _ & _ & _ & _ & _ & _ & _ & Hcl & Hclw & Hcw & _ & _ & Hl). subst clobbered.
  destruct (LoadFileBlockMap_ok _ _ _ _ _ Hcw Hclw _ _ _ Hn Hres Hsub Hl) as (files & groups & Hmap & Hk & Hg & Hp).
  split_and!; [done|by exists files, groups|]. rewrite Hmap. unfold od_keys. rewrite !map_app, !elem_of_app.
  intros [Hf%Hk%Hres|[Hin|Hin]]; [done| |].
  - apply list_elem_of_fmap in Hin as ([k r] & Heq & Hin). cbn in Heq. subst k.
    apply elem_of_lookup_imap in Hin as (i & q & [= Heq _] & _).
  - destruct (rs_bool _); [|by apply elem_of_nil in Hin]. by apply list_elem_of_singleton in Hin.
Qed.

(** ** An example: blocks of 8 bytes; two raw blocks, one that does not matter,
    and two blocks of a pattern *)

Definition word2 (n : Z) : bytes := [n mod 256; n / 256].
Definition word4 (n : Z) : bytes := [n mod 256; (n / 256) mod 256; (n / 65536) mod 256; n / 16777216].
Definition chunk_header (t n data : Z) : bytes := word2 t ++ word2 0 ++ word4 n ++ word4 (12 + data).

Definition ex_simg : bytes :=
  word4 0xED26FF3A ++ word2 1 ++ word2 0 ++ word2 28 ++ word2 12 ++ word4 8 ++ word4 5 ++ word4 3 ++ word4 0 ++
  chunk_header 0xCAC1 2 16 ++ zrange 1 9 ++ replicate 8 0 ++ chunk_header 0xCAC3 1 0 ++ chunk_header 0xCAC2 2 4 ++ [1; 2; 3; 4].

Definition ex_map : string := "/a 1" +:+ String newline "/b 3" +:+ String newline "".

Lemma ex_simg_bytes : bytes_ok ex_simg.
Proof. apply (bool_decide_unpack _). by vm_compute. Qed.

Definition ex_image : result SparseImage := new_SparseImage ex_simg (Some ex_map) (Some "0") false.

Lemma sparse_file_map_witness : exists img, ex_image = Ok img /\
  map fst (si_file_map img) = ["/a"; "/b"; "__NONZERO-0"; "__COPY"] /\
  AssertPartition (si_care_map img) (map snd (si_file_map img)) = Ok tt /\
  (exists files groups,
    si_file_map img = files ++ imap (fun i r => (nonzero_name i, r)) groups ++
      (if rs_bool (si_clobbered img) then [("__COPY", si_clobbered img)] else []) /\
    (forall k, k ∈ od_keys files -> Some k ∈ map line_name (readlines ex_map)) /\
    Forall (fun r => wf r /\ 0 < size r <= 512) groups) /\
  "__ZERO" ∉ od_keys (si_file_map img).
Proof.
  destruct ex_image as [img|e] eqn:E; [|by vm_compute in E]. exists img. split; [done|].
  split; [vm_compute in E; by injection E as <-|]. apply (sparse_file_map ex_simg ex_map (Some "0") false img ex_simg_bytes).
  - apply (bool_decide_unpack _). by vm_compute.
  - intros k. vm_compute (map _ _). rewrite !elem_of_cons, elem_of_nil. by intros [[= ->]|[[= ->]|[]]].
  - exact E.
  - vm_compute in E. injection E as <-. cbn [si_clobbered si_care_map]. intros x Hx. unfold elem_of, rangeset_elem_of in *. cbn in *. zcases.
Defined.

(** * Reading *)

(** The data of a range set in an expanded image. *)
Definition data_of (blocks : list (option bytes)) (r : RangeSet) : bytes := concat (map (block_of blocks) (next_item r)).

Lemma pairs_lt l a b : wf_data l -> (a, b) ∈ pairs l -> a < b.
Proof.
  intros H. wf_induction l H; cbn; [by intros ?%elem_of_nil|]. intros [[= -> ->]|?]%elem_of_cons; [done|auto].
Qed.

Lemma iter_nonempty r : wf r -> Forall (fun p => p.1 < p.2 /\ forall b, p.1 <= b < p.2 -> b ∈ r) (rs_iter r).
Proof.
  intros Hr. apply Forall_forall. intros [s e] Hp. cbn. split.
  - unfold rs_iter in Hp. destruct r as [l mono extra]. cbn in Hp, Hr. unfold wf in Hr. cbn in Hr. by eapply pairs_lt.
  - intros b Hb. apply elem_of_pairs; [done|]. by exists s, e.
Qed.

Lemma read_range_set simg h s blocks img r : chunks_ok simg (blk_sz h) s blocks -> 0 <= blk_sz h ->
  si_file img = simg -> si_blocksize img = blk_sz h -> si_offset_map img = cs_map s ->
  wf r -> (forall x, x ∈ r -> cared blocks x) ->
  exists pieces, ReadRangeSet img r = Ok pieces /\ concat pieces = data_of blocks r.
Proof.
  intros Hok Hb0 Hf Hb Hm Hr Hsub. unfold ReadRangeSet. rewrite Hf, Hb, Hm.
  destruct (GetRangeData_ok simg (blk_sz h) Hb0 s blocks Hok (rs_iter r)) as (ps & -> & Hps).
  - eapply (Forall_impl _ _ _ (iter_nonempty r Hr)). intros [a e] [? Hin]. split; [done|]. intros b Hbe. by apply Hsub, Hin.
  - by exists ps.
Qed.

(** C13: reading through the chunk index gives the same data as expanding the
    file block by block.  The care map holds the blocks that have data and the
    extended blocks the others within 512 of them; reading any set of blocks of
    the care map returns the data of its blocks in order, whatever chunks they
    lie in, and the hashes are those of that data. *)
Theorem sparse_reads_decoded simg file_map clobbered_blocks shared img : bytes_ok simg ->
  new_SparseImage simg file_map clobbered_blocks shared = Ok img ->
  exists blocks, decode simg = Ok blocks /\ wf (si_care_map img) /\
    (forall x, x ∈ si_care_map img <-> cared blocks x) /\
    (forall x, x ∈ si_extended img <->
       0 <= x < si_total_blocks img /\ ~ cared blocks x /\ exists y, cared blocks y /\ y - 512 <= x <= y + 512) /\
    (forall r, wf r -> (forall x, x ∈ r -> x ∈ si_care_map img) ->
       exists pieces, ReadRangeSet img r = Ok pieces /\ concat pieces = data_of blocks r) /\
    (forall sha1, TotalSha1 sha1 img true = Ok (sha1 (data_of blocks (si_care_map img)))) /\
    (forall sha1, exists r, wf r /\ (forall x, x ∈ r <-> x ∈ si_care_map img /\ x ∉ si_clobbered img) /\
       TotalSha1 sha1 img false = Ok (sha1 (data_of blocks r))).
Proof.
  intros Hb H. apply new_image_ok in H; [|done].
  destruct H as (h & s & blocks & clobbered & _ & Hd & _ & Hok & Hb0 & Hf & Hbs & Htb & _ & _ & _ & Hm & Hcl & Hclw & Hcw & Hcare & Hext & _).
  subst clobbered. pose proof (read_range_set simg h s blocks img) as Hread.
  assert (forall r, wf r -> (forall x, x ∈ r -> x ∈ si_care_map img) ->
    exists pieces, ReadRangeSet img r = Ok pieces /\ concat pieces = data_of blocks r) as Hr.
  { intros r Hw Hsub. apply Hread; try done. intros x Hx. by apply Hcare, Hsub. }
  exists blocks. rewrite Htb. split_and!; [done..| |].
  - intros sha1. unfold TotalSha1, RangeSha1. destruct (Hr (si_care_map img)) as (ps & -> & ->); done.
  - intros sha1. unfold TotalSha1, RangeSha1. destruct (subtract_ok _ _ Hcw Hclw) as (r & -> & Hw & Hrm). exists r.
    split_and!; [done..|]. destruct (Hr r Hw) as (ps & -> & ->); [|done]. intros x ?%Hrm. tauto.
Qed.

Lemma sparse_reads_decoded_witness : exists img, ex_image = Ok img /\
  rs_data (si_care_map img) = [0; 2; 3; 5] /\
  ReadRangeSet img (mkRangeSet [1; 2; 3; 4] true []) = Ok [replicate 8 0; [1; 2; 3; 4; 1; 2; 3; 4]] /\
  exists blocks, decode ex_simg = Ok blocks /\ wf (si_care_map img) /\
    (forall x, x ∈ si_care_map img <-> cared blocks x) /\
    (forall x, x ∈ si_extended img <->
       0 <= x < si_total_blocks img /\ ~ cared blocks x /\ exists y, cared blocks y /\ y - 512 <= x <= y + 512) /\
    (forall r, wf r -> (forall x, x ∈ r -> x ∈ si_care_map img) ->
       exists pieces, ReadRangeSet img r = Ok pieces /\ concat pieces = data_of blocks r) /\
    (forall sha1, TotalSha1 sha1 img true = Ok (sha1 (data_of blocks (si_care_map img)))) /\
    (forall sha1, exists r, wf r /\ (forall x, x ∈ r <-> x ∈ si_care_map img /\ x ∉ si_clobbered img) /\
       TotalSha1 sha1 img false = Ok (sha1 (data_of blocks r))).
Proof.
  destruct ex_image as [img|e] eqn:E; [|by vm_compute in E]. exists img. split; [done|].
  split; [vm_compute in E; by injection E as <-|]. split; [vm_compute in E; by injection E as <-|].
  apply (sparse_reads_decoded ex_simg (Some ex_map) (Some "0") false img ex_simg_bytes). exact E.
Defined.

(** * Adding a chunk *)

(** The decoder reads nothing but what lies between the places it starts and
    stops at. *)
Section moved.
Context (simg new : bytes) (blocksize : Z) (Hbs : 0 <= blocksize) (Hb : bytes_ok simg).
Context (Hsame : forall i j, 28 <= i -> j <= blen simg -> py_slice new i j = py_slice simg i j).

Lemma decode_chunk_moved p blocks f' blocks' : 28 <= p ->
  decode_chunk blocksize (mkFile simg p, blocks) = Ok (f', blocks') ->
  p <= f_pos f' /\ f_data f' = simg /\
  (f_pos f' <= blen simg -> decode_chunk blocksize (mkFile new p, blocks) = Ok (mkFile new (f_pos f'), blocks')).
Proof.
  intros Hp H. unfold decode_chunk, f_read in *. cbn [f_data f_pos f_seek] in *.
  assert (bytes_ok (py_slice simg p (p + 12))) as Hbb by (by apply slice_bytes_ok).
  destruct (Z.eqb_spec (blen (py_slice simg p (p + 12))) 12) as [Hl|]; [|done].
  assert (p + 12 <= blen simg) as Hp12. { unfold blen, py_slice in *. rewrite length_take, length_drop in Hl. lia. }
  pose proof (field_nonneg _ 4 4 Hbb) as Hn. rewrite Hl in H. rewrite Hsame, Hl by lia. rewrite Z.eqb_refl.
  destruct (_ =? 0xCAC1); [|destruct (_ =? 0xCAC2)]; injection H as <- <-; cbn [f_pos f_data f_seek].
  - split; [nia|]. split; [done|]. intros He. do 2 f_equal. f_equal. apply map_ext_in. intros i Hi%list_elem_of_In%elem_of_seq.
    f_equal. apply Hsame; nia.
  - split; [lia|]. split; [done|]. intros He. by rewrite Hsame by lia.
  - split; [lia|]. by split.
Qed.

Lemma decode_moved {A} (l : list A) p blocks f' blocks' : 28 <= p ->
  foldM (fun st _ => decode_chunk blocksize st) (mkFile simg p, blocks) l = Ok (f', blocks') -> f_pos f' <= blen simg ->
  foldM (fun st _ => decode_chunk blocksize st) (mkFile new p, blocks) l = Ok (mkFile new (f_pos f'), blocks').
Proof.
  assert (forall (l : list A) p blocks f' blocks', 28 <= p ->
    foldM (fun st _ => decode_chunk blocksize st) (mkFile simg p, blocks) l = Ok (f', blocks') -> p <= f_pos f') as Hmono.
  { clear l p blocks f' blocks'. induction l as [|x l IH]; intros p blocks f' blocks' Hp H; cbn [foldM] in H; [by injection H as <- _|].
    destruct (decode_chunk _ _) as [[f1 b1]|] eqn:E; [|done]. apply decode_chunk_moved in E as (H1 & H2 & _); [|done].
    destruct f1 as [d1 p1]. cbn in H1, H2. subst d1. apply IH in H; lia. }
  revert p blocks. induction l as [|x l IH]; intros p blocks Hp H He; cbn [foldM] in H |- *; [by injection H as <- <-|].
  destruct (decode_chunk blocksize (mkFile simg p, blocks)) as [[f1 b1]|] eqn:E; [|done].
  apply decode_chunk_moved in E as (H1 & H2 & H3); [|done]. destruct f1 as [d1 p1]. cbn [f_pos f_data] in H1, H2, H3. subst d1.
  assert (p1 <= f_pos f') by (eapply Hmono; [|exact H]; lia). rewrite H3 by lia. apply IH; [lia|done|done].
Qed.
End moved.

(** What the header and the chunks become. *)

Section appended.
Context (simg tb tc tail : bytes) (Hlen : 28 <= blen simg) (Htb : length tb = 4%nat) (Htc : length tc = 4%nat).

(** The file with a longer end and new counts in the header. *)
Definition appended : bytes := take 16 simg ++ tb ++ tc ++ drop 24 simg ++ tail.

Lemma splice_appended : splice (simg ++ tail) 16 (tb ++ tc) = appended.
Proof.
  unfold blen in Hlen. rewrite splice_in by (rewrite !length_app; lia). unfold appended.
  rewrite length_app, Htb, Htc. cbn [Nat.add]. rewrite take_app_le, drop_app_le by lia. by rewrite <- !app_assoc.
Qed.

Lemma blen_appended : blen appended = blen simg + blen tail.
Proof. unfold appended, blen in *. rewrite !length_app, length_take, length_drop. lia. Qed.

Lemma appended_chunks i j : 28 <= i -> j <= blen simg -> py_slice appended i j = py_slice simg i j.
Proof.
  unfold blen in *. intros Hi Hj. replace (py_slice simg i j) with (py_slice (take 24 simg ++ drop 24 simg) i j) by (by rewrite take_drop). unfold appended. rewrite !app_assoc, <- (app_assoc _ _ tail).
  assert (length (take 24 simg) = 24%nat) as H1 by (rewrite length_take; lia).
  assert (length ((take 16 simg ++ tb) ++ tc) = 24%nat) as H2 by (rewrite !length_app, length_take; lia).
  rewrite (py_slice_app_r (take 24 simg)), (py_slice_app_r (_ ++ tc)) by lia. rewrite H1, H2.
  apply py_slice_app_l; [lia|]. rewrite length_drop. lia.
Qed.

Lemma appended_tail i j : 0 <= i -> py_slice appended (blen simg + i) (blen simg + j) = py_slice tail i j.
Proof.
  unfold blen in *. intros Hi. unfold appended. rewrite !app_assoc.
  assert (length (((take 16 simg ++ tb) ++ tc) ++ drop 24 simg) = length simg) as H1 by (rewrite !length_app, length_take, length_drop; lia).
  rewrite py_slice_app_r by lia. rewrite H1. f_equal; lia.
Qed.

Lemma appended_front p n : 0 <= p -> 0 <= n -> p + n <= 16 -> field (py_slice appended 0 28) p n = field (py_slice simg 0 28) p n.
Proof.
  unfold blen in *. intros Hp Hn Hpn. unfold field. rewrite !slice_of_slice by lia. f_equal.
  replace (py_slice simg p (p + n)) with (py_slice (take 16 simg ++ drop 16 simg) p (p + n)) by (by rewrite take_drop). unfold appended.
  by rewrite !py_slice_app_l by (rewrite ?length_take; lia).
Qed.

Lemma appended_counts : field (py_slice appended 0 28) 16 4 = PyFile.le tb /\ field (py_slice appended 0 28) 20 4 = PyFile.le tc.
Proof.
  unfold blen in *. unfold field. rewrite !slice_of_slice by lia. unfold appended.
  assert (length (take 16 simg) = 16%nat) as H1 by (rewrite length_take; lia).
  rewrite !(py_slice_app_r (take 16 simg)) by lia. rewrite H1. cbn [Z.of_nat Z.add Z.sub Z.opp Z.pos_sub].
  rewrite (py_slice_app_l tb), (py_slice_app_r tb), (py_slice_app_l tc) by lia. rewrite Htb.
  unfold py_slice. cbn -[take drop]. rewrite !drop_0, !take_ge by lia. done.
Qed.

Lemma appended_header h : read_header simg = Ok (h, mkFile simg 28) -> exists h', read_header appended = Ok (h', mkFile appended 28) /\
  blk_sz h' = blk_sz h /\ total_blks h' = PyFile.le tb.
Proof.
  unfold read_header, f_read, unpack_header, f_seek. cbn [f_data f_pos]. change (0 + 28) with 28.
  assert (blen (py_slice appended 0 28) = 28) as Hb.
  { pose proof blen_appended. unfold py_slice, blen in *. rewrite length_take, drop_0. lia. }
  rewrite Hb. destruct (Z.eqb_spec (blen (py_slice simg 0 28)) 28) as [Hb'|]; [|done]. rewrite Hb'. cbn [Z.eqb Pos.eqb].
  rewrite !appended_front by lia. destruct appended_counts as [-> ->]. unfold check_header. cbn [magic major_version minor_version file_hdr_sz chunk_hdr_sz].
  repeat (destruct (negb _); [done|]). destruct (_ || _); [done|]. repeat (destruct (negb _); [done|]).
  intros [= <-]. by eexists.
Qed.
End appended.

(** The decoder at the end of the old file. *)
Lemma last_chunk simg tb tc b d blocksize blocks : 28 <= blen simg -> length tb = 4%nat -> length tc = 4%nat ->
  length b = 4%nat -> length d = 4%nat ->
  let new := appended simg tb tc ([194; 202] ++ [0; 0] ++ b ++ [16; 0; 0; 0] ++ d) in
  decode_chunk blocksize (mkFile new (blen simg), blocks) =
    Ok (mkFile new (blen new), blocks ++ replicate (Z.to_nat (PyFile.le b)) (Some (repeat_bytes (Z.shiftr blocksize 2) d))).
Proof.
  intros Hlen Htb Htc Hb Hd new. set (tail := _ ++ _ ++ _ ++ _ ++ d) in new.
  assert (blen new = blen simg + 16) as Hblen.
  { unfold new. rewrite blen_appended by done. unfold tail, blen. rewrite !length_app, Hb, Hd. done. }
  assert (py_slice new (blen simg) (blen simg + 12) = [194; 202; 0; 0] ++ b ++ [16; 0; 0; 0]) as H1.
  { pose proof (appended_tail simg tb tc tail Hlen Htb Htc 0 12 (Z.le_refl 0)) as H. rewrite Z.add_0_r in H. fold new in H. rewrite H.
    unfold tail. destruct b as [|b0 [|b1 [|b2 [|b3 [|? ?]]]]]; done. }
  assert (py_slice new (blen simg + 12) (blen simg + 16) = d) as H2.
  { pose proof (appended_tail simg tb tc tail Hlen Htb Htc 12 16 ltac:(lia)) as H. fold new in H. rewrite H.
    unfold tail. destruct b as [|b0 [|b1 [|b2 [|b3 [|? ?]]]]]; try done. destruct d as [|d0 [|d1 [|d2 [|d3 [|? ?]]]]]; done. }
  unfold decode_chunk, f_read. cbn [f_data f_pos f_seek]. rewrite H1.
  assert (blen ([194; 202; 0; 0] ++ b ++ [16; 0; 0; 0]) = 12) as -> by (unfold blen; rewrite !length_app, Hb; done).
  replace (blen simg + 12 + 4) with (blen simg + 16) by lia. rewrite H2, Hblen. destruct b as [|b0 [|b1 [|b2 [|b3 [|? ?]]]]]; try done.
Qed.


(** Appending a fill chunk to a file that ends with its last chunk leaves
    a file that decodes to the same blocks followed by [n] blocks filled with
    the data, ends with its last chunk again, and whose header has the new
    counts: the partition size read from it is that of the object. *)
Theorem sparse_append_fill simg file_map clobbered_blocks shared img f blocks data n img' : bytes_ok simg ->
  new_SparseImage simg file_map clobbered_blocks shared = Ok img ->
  decode_all simg = Ok (f, blocks) -> f_pos f = blen simg ->
  AppendFillChunk img data n = Ok img' ->
  let new := si_file img' in
  exists d, pack_L data = Ok d /\
    decode_all new = Ok (mkFile new (blen new),
      blocks ++ replicate (Z.to_nat n) (Some (repeat_bytes (Z.shiftr (si_blocksize img) 2) d))) /\
    si_total_blocks img' = si_total_blocks img + n /\
    GetImagePartitionSize simg = Ok (si_blocksize img * si_total_blocks img) /\
    GetImagePartitionSize new = Ok (si_blocksize img' * si_total_blocks img').
Proof.
  intros Hb H Hd Hend Ha new. apply new_image_ok in H; [|done].
  destruct H as (h & s & _ & _ & Hh & _ & _ & _ & Hb0 & Hf & Hbs & Htb & Htc & Hlen & Hfld & _).
  unfold AppendFillChunk in Ha. destruct (pack_H 0xCAC2) as [t|] eqn:E1; [|done]. destruct (pack_H 0) as [z|] eqn:E2; [|done].
  vm_compute in E1, E2. injection E1 as <-. injection E2 as <-.
  destruct (pack_L n) as [b|] eqn:E3; [|done]. destruct (pack_L 16) as [l|] eqn:E4; [|done]. vm_compute in E4. injection E4 as <-.
  destruct (pack_L data) as [d|] eqn:E5; [|done]. destruct (pack_L (si_total_blocks img + n)) as [tb|] eqn:E6; [|done].
  destruct (pack_L (si_total_chunks img + 1)) as [tc|] eqn:E7; [|done]. injection Ha as <-. subst new. cbn [si_file si_total_blocks si_blocksize].
  apply pack_L_inv in E3 as (Hn & Hbl & Hbv), E6 as (_ & Htbl & Htbv), E7 as (Htc0 & Htcl & Htcv). apply pack_L_inv in E5 as Hdl.
  destruct Hdl as (_ & Hdl & _). rewrite Hf. set (tail := 194 :: 202 :: 0 :: 0 :: b ++ 16 :: 0 :: 0 :: 0 :: d).
  rewrite splice_appended by done. exists d. split; [done|].
  destruct (appended_header simg tb tc tail Hlen Htbl Htcl h Hh) as (h' & Hh' & Hbs' & Htb').
  assert (GetImagePartitionSize simg = Ok (si_blocksize img * si_total_blocks img)) as Hs1 by (unfold GetImagePartitionSize; by rewrite Hh, Hbs, Htb).
  split_and!; [|done|done|unfold GetImagePartitionSize; by rewrite Hh', Hbs', Htb', Hbs, Htbv].
  unfold decode_all in *. rewrite appended_front by (done || lia). destruct (appended_counts simg tb tc tail Hlen Htbl Htcl) as [_ ->].
  rewrite Htcv, Htc. pose proof (field_nonneg _ 20 4 (slice_bytes_ok simg 0 28 Hb)) as Hk. rewrite Z2Nat.inj_add by lia.
  rewrite Nat.add_1_r, seq_S, foldM_app.
  assert (0 <= field (py_slice simg 0 28) 12 4) as Hbz by (by apply field_nonneg, slice_bytes_ok).
  rewrite (decode_moved simg _ _ Hbz Hb (fun i j => appended_chunks simg tb tc tail Hlen Htbl Htcl i j) _ _ _ _ _ (Z.le_refl 28) Hd) by lia.
  cbn [foldM]. rewrite Hend. unfold tail. 
  rewrite (last_chunk simg tb tc b d _ blocks Hlen Htbl Htcl Hbl Hdl), Hbv, Hbs, Hfld. done.
Qed.

Lemma ex_decoded : exists blocks, decode_all ex_simg = Ok (mkFile ex_simg (blen ex_simg), blocks).
Proof. eexists. by vm_compute. Qed.

Lemma sparse_append_fill_witness : exists img img' blocks, ex_image = Ok img /\ AppendFillChunk img 7 2 = Ok img' /\
  decode_all ex_simg = Ok (mkFile ex_simg (blen ex_simg), blocks) /\ length blocks = 5%nat /\
  (let new := si_file img' in
   exists d, pack_L 7 = Ok d /\
    decode_all new = Ok (mkFile new (blen new),
      blocks ++ replicate (Z.to_nat 2) (Some (repeat_bytes (Z.shiftr (si_blocksize img) 2) d))) /\
    si_total_blocks img' = si_total_blocks img + 2 /\
    GetImagePartitionSize ex_simg = Ok (si_blocksize img * si_total_blocks img) /\
    GetImagePartitionSize new = Ok (si_blocksize img' * si_total_blocks img')).
Proof.
  destruct ex_image as [img|e] eqn:E; [|by vm_compute in E].
  destruct (AppendFillChunk img 7 2) as [img'|e] eqn:E'; [|vm_compute in E; injection E as <-; by vm_compute in E'].
  destruct ex_decoded as [blocks Hd]. exists img, img', blocks. split_and!; [done..|vm_compute in Hd; by injection Hd as <-|].
  exact (sparse_append_fill ex_simg (Some ex_map) (Some "0") false img _ blocks 7 2 img' ex_simg_bytes E Hd eq_refl E').
Defined.
