(* ===== verification/Images.v ===== *)
(** releasetools/images.py: the image that is empty, the image around a string
    and the image around a raw file. *)

From stdpp Require Import sorting.
From S2P Require Export SparseFacts.

#[local] Open Scope string_scope.
#[local] Open Scope list_scope.
#[local] Open Scope Z_scope.

(** * Values of two types *)

Definition vlen (v : pyval) : Z := match v with VBytes b | VStr b => blen b | VNone => 0 end.

(** [v[i:j]], bounds not negative. *)
Definition vslice (v : pyval) (i j : Z) : pyval :=
  match v with VBytes b => VBytes (py_slice b i j) | VStr s => VStr (py_slice s i j) | VNone => VNone end.

(** [v + '\0' * n]: a [str] is not added to [bytes]. *)
Definition pad_zeros (v : pyval) (n : Z) : result pyval :=
  match v with
  | VStr s => Ok (VStr (s ++ replicate (Z.to_nat n) 0))
  | _ => Raise TypeError
  end.

(** What hashing and writing accept. *)
Definition as_bytes (v : pyval) : result bytes := match v with VBytes b => Ok b | _ => Raise TypeError end.

(** The pieces of data given to [h.update] or [fd.write]. *)
Definition feed (pieces : list pyval) : result bytes :=
  foldM (fun out v => let! b := as_bytes v in Ok (out ++ b)) [] pieces.

Definition block_size : Z := 4096.

(** The boundaries of the zero blocks and of the others. *)
Definition split_blocks (data : Z -> pyval) (blocks : list Z) : list Z * list Z :=
  fold_left (fun '(zero, nonzero) i =>
               if py_eqb (data i) (reference block_size) then (zero ++ [i; i + 1], nonzero) else (zero, nonzero ++ [i; i + 1]))
    blocks ([], []).

Definition add_entry (name : string) (blocks : list Z) (m : list (string * RangeSet)) : result (list (string * RangeSet)) :=
  match blocks with [] => Ok m | _ => let! r := of_data blocks in Ok (od_set name r m) end.

(** * EmptyImage *)

Section sha1.
Context (sha1 : bytes -> string).
Definition EmptyImage_RangeSha1 (ranges : RangeSet) : string := sha1 [].
Definition EmptyImage_ReadRangeSet (ranges : RangeSet) : list pyval := [].
Definition EmptyImage_TotalSha1 : result string := assert! size empty =? 0 in Ok (sha1 []).
Definition EmptyImage_WriteRangeDataToFd (ranges : RangeSet) (fd : bytes) : result bytes := Raise ValueError.

(** The object, as the diff sees it. *)
Definition EmptyImage : Image := mkImage 4096 0 empty empty empty [] EmptyImage_RangeSha1 (fun _ => "").
End sha1.

(** * DataImage *)

(** The clobbered blocks are a list, not a [RangeSet]. *)
Record DataImage := mkDataImage { di_data : pyval; di_total_blocks : Z; di_care_map : RangeSet; di_clobbered_blocks : list Z; di_file_map : list (string * RangeSet) }.

(** The data cut or padded to whole blocks, and whether they were padded. *)
Definition whole_blocks (d : pyval) (trim pad : bool) : result (pyval * bool) :=
  assert! negb (trim && pad) in
  let partial := vlen d mod block_size in
  if 0 <? partial then
    if trim then Ok (vslice d 0 (vlen d - partial), false)
    else if pad then let! d := pad_zeros d (block_size - partial) in Ok (d, true)
    else Raise ValueError
  else Ok (d, false).

Definition new_DataImage (d : pyval) (trim pad : bool) : result DataImage :=
  let! (d, padded) := whole_blocks d trim pad in
  assert! vlen d mod block_size =? 0 in
  let total := vlen d / block_size in
  let! care := of_data [0; total] in
  let clobbered := if padded : bool then [total - 1; total] else [] in
  let '(zero, nonzero) :=
    split_blocks (fun i => vslice d (i * block_size) ((i + 1) * block_size)) (zrange 0 (if padded : bool then total - 1 else total)) in
  assert! negb (bool_decide (zero = [])) || negb (bool_decide (nonzero = [])) || negb (bool_decide (clobbered = [])) in
  let! m := add_entry "__ZERO" zero [] in
  let! m := add_entry "__NONZERO" nonzero m in
  let! m := add_entry "__COPY" clobbered m in
  Ok (mkDataImage d total care clobbered m).

Definition DataImage_ReadRangeSet (img : DataImage) (ranges : RangeSet) : list pyval :=
  map (fun '(s, e) => vslice (di_data img) (s * block_size) (e * block_size)) (rs_iter ranges).

Section sha1.
Context (sha1 : bytes -> string).
Definition DataImage_RangeSha1 (img : DataImage) (ranges : RangeSet) : result string :=
  let! b := feed (DataImage_ReadRangeSet img ranges) in Ok (sha1 b).

(** [care_map.subtract(clobbered_blocks)] looks for the boundaries of a list. *)
Definition DataImage_TotalSha1 (img : DataImage) (include_clobbered_blocks : bool) : result string :=
  if include_clobbered_blocks then let! b := as_bytes (di_data img) in Ok (sha1 b) else Raise AttributeError.
End sha1.

Definition DataImage_WriteRangeDataToFd (img : DataImage) (ranges : RangeSet) (fd : bytes) : result bytes :=
  let! b := feed (DataImage_ReadRangeSet img ranges) in Ok (fd ++ b).

(** * FileImage *)

Record FileImage := mkFileImage { fi_file_data : bytes; fi_total_blocks : Z; fi_care_map : RangeSet; fi_file_map : list (string * RangeSet) }.

(** The message of the exception for a partial block has three values for its
    format but is given one: the error that appears is a [TypeError]. *)
Definition new_FileImage (f : bytes) : result FileImage :=
  if negb (blen f mod block_size =? 0) then Raise TypeError
  else
    let total := blen f / block_size in
    let! care := of_data [0; total] in
    let '(zero, nonzero) := split_blocks (fun i => VBytes (py_slice f (i * block_size) ((i + 1) * block_size))) (zrange 0 total) in
    assert! negb (bool_decide (zero = [])) || negb (bool_decide (nonzero = [])) in
    let! m := add_entry "__ZERO" zero [] in
    let! m := add_entry "__NONZERO" nonzero m in
    Ok (mkFileImage f total care m).

(** One piece for each block. *)
Definition FileImage_ReadRangeSet (img : FileImage) (ranges : RangeSet) : list pyval :=
  flat_map (fun '(s, e) =>
    map (fun i => VBytes (py_slice (fi_file_data img) (i * block_size) ((i + 1) * block_size))) (zrange s e)) (rs_iter ranges).

Section sha1.
Context (sha1 : bytes -> string).
Definition FileImage_RangeSha1 (img : FileImage) (ranges : RangeSet) : result string :=
  let! b := feed (FileImage_ReadRangeSet img ranges) in Ok (sha1 b).
Definition FileImage_TotalSha1 (img : FileImage) : result string := assert! negb (rs_bool empty) in FileImage_RangeSha1 img (fi_care_map img).
End sha1.

Definition FileImage_WriteRangeDataToFd (img : FileImage) (ranges : RangeSet) (fd : bytes) : result bytes :=
  let! b := feed (FileImage_ReadRangeSet img ranges) in Ok (fd ++ b).
