(* ===== verification/ImagesProps.v ===== *)
(** The theorems about images made from data and from raw files. *)

From stdpp Require Import sorting.
From S2P Require Export Images SparseProps.

#[local] Open Scope string_scope.
#[local] Open Scope list_scope.
#[local] Open Scope Z_scope.

(** * Zero blocks and the others *)

Lemma split_blocks_eq f l :
  let P i := py_eqb (f i) (reference block_size) = true in
  split_blocks f l = (bounds (unit_ranges (filter P l)), bounds (unit_ranges (filter (fun i => ~ P i) l))).
Proof.
  intros P. unfold split_blocks.
  enough (forall z n, fold_left (fun '(zero, nonzero) i =>
      if py_eqb (f i) (reference block_size) then (zero ++ [i; i + 1], nonzero) else (zero, nonzero ++ [i; i + 1])) l (z, n) =
    (z ++ bounds (unit_ranges (filter P l)), n ++ bounds (unit_ranges (filter (fun i => ~ P i) l)))) as H by apply H.
  induction l as [|i l IH]; intros z n; cbn [fold_left]; [by rewrite !app_nil_r|].
  rewrite !filter_cons. unfold P. destruct (py_eqb (f i) (reference block_size)) eqn:E.
  - rewrite IH, decide_True by done. rewrite decide_False by (by intros []). by rewrite <- app_assoc.
  - rewrite IH, decide_False by done. rewrite decide_True by done. by rewrite <- app_assoc.
Qed.

Lemma StronglySorted_filter (P : Z -> Prop) `{forall x, Decision (P x)} l : StronglySorted Z.lt l -> StronglySorted Z.lt (filter P l).
Proof.
  induction 1 as [|x l Hs IH Hx]; [constructor|]. rewrite filter_cons. case_decide; [|done].
  constructor; [done|]. apply Forall_forall. intros y [_ Hy]%list_elem_of_filter. by apply (proj1 (list.Forall_forall _ _) Hx).
Qed.

(** An entry takes its blocks from those that remain. *)
Lemma add_entry_ok care rem rem' name bs m m' :
  parts care rem (map snd m) -> name ∉ od_keys m -> StronglySorted Z.lt bs -> (forall x, x ∈ bs -> rem x) ->
  (forall x, rem' x <-> rem x /\ x ∉ bs) ->
  add_entry name (bounds (unit_ranges bs)) m = Ok m' ->
  parts care rem' (map snd m') /\ (forall k, k ∈ od_keys m' -> k = name \/ k ∈ od_keys m) /\
  (bs = [] /\ m' = m \/ exists r, m' = m ++ [(name, r)] /\ forall x, x ∈ r <-> x ∈ bs).
Proof.
  intros Hp Hn Hs Hin He H. destruct (of_units_ok bs Hs) as (r & Hr & Hw & Hm).
  unfold add_entry in H. destruct bs as [|b bs].
  - cbn in H. injection H as <-. split_and!; [|by right|by left]. eapply parts_equiv; [done|]. intros x. rewrite He, elem_of_nil. tauto.
  - assert (of_data (bounds (unit_ranges (b :: bs))) = Ok r) as Hr' by done. cbn [bounds unit_ranges map flat_map app] in H.
    unfold bounds, unit_ranges in Hr'. cbn [map flat_map app] in Hr'. rewrite Hr' in H. injection H as <-. rewrite od_set_fresh by done.
    split_and!; [| |right; by exists r].
    + rewrite map_app. eapply parts_claim; [done|done| |].
      * intros x ?%Hm. by apply Hin.
      * intros x. by rewrite He, Hm.
    + intros k. unfold od_keys. rewrite map_app, elem_of_app. cbn [map fst]. rewrite list_elem_of_singleton. tauto.
Qed.

Section entries.
Context (f : Z -> pyval) (total n : Z) (Hn : 0 <= n <= total).

(** What the two entries hold. *)
Record entries_ok (m : list (string * RangeSet)) : Prop := {
  eo_keys : forall k, k ∈ od_keys m -> k = "__ZERO" \/ k = "__NONZERO";
  eo_zero : forall r x, ("__ZERO", r) ∈ m -> x ∈ r -> py_eqb (f x) (reference block_size) = true;
  eo_nonzero : forall r x, ("__NONZERO", r) ∈ m -> x ∈ r -> py_eqb (f x) (reference block_size) = false
}.

Lemma two_entries care z nz m1 m2 : of_data [0; total] = Ok care -> split_blocks f (zrange 0 n) = (z, nz) ->
  add_entry "__ZERO" z [] = Ok m1 -> add_entry "__NONZERO" nz m1 = Ok m2 ->
  wf care /\ (forall x, x ∈ care <-> 0 <= x < total) /\ parts care (fun x => n <= x < total) (map snd m2) /\ entries_ok m2.
Proof.
  intros Hc Hs H1 H2. destruct (of_bounds_ok 0 [(0, total)] total) as (care' & Ec & Hw & Hm); [cbn; lia|].
  cbn [bounds flat_map app fst snd] in Ec. rewrite Hc in Ec. injection Ec as <-.
  assert (forall x, x ∈ care <-> 0 <= x < total) as Hcare.
  { intros x. rewrite Hm. setoid_rewrite list_elem_of_singleton. split; [by intros (a & b & [= -> ->] & ?)|]. intros ?. by exists 0, total. }
  rewrite split_blocks_eq in Hs. injection Hs as <- <-. set (P i := py_eqb (f i) (reference block_size) = true) in *.
  pose proof (zrange_sorted 0 n) as Hz.
  destruct (add_entry_ok care _ (fun x => x ∈ care /\ x ∉ filter P (zrange 0 n)) "__ZERO" (filter P (zrange 0 n)) [] m1 (parts_start care)) as (Hp1 & Hk1 & Hr1);
    [by intros ?%elem_of_nil|by apply StronglySorted_filter| |done|done|].
  { intros x [_ ?%elem_of_zrange]%list_elem_of_filter. apply Hcare. lia. }
  destruct (add_entry_ok care _ (fun x => n <= x < total) "__NONZERO" (filter (fun i => ~ P i) (zrange 0 n)) m1 m2 Hp1) as (Hp2 & Hk2 & Hr2);
    [by intros [?|?%elem_of_nil]%Hk1|by apply StronglySorted_filter| | |done|].
  { intros x [Hnp Hx]%list_elem_of_filter. split; [apply Hcare; apply elem_of_zrange in Hx; lia|]. by intros [? _]%list_elem_of_filter. }
  { intros x. rewrite Hcare, !list_elem_of_filter, !elem_of_zrange. destruct (decide (P x)); split; [intros ?|intros [[? ?] ?]|intros ?|intros [[? ?] ?]].
    - split; [split; [lia|intros [_ ?]; lia]|]. intros [? _]. done.
    - split; [|lia]. apply Z.nlt_ge. intros ?. eauto with lia.
    - split; [split; [lia|intros [? _]; done]|]. intros [_ ?]. lia.
    - split; [|lia]. apply Z.nlt_ge. intros ?. eauto with lia. }
  split_and!; [done..|]. split.
  - intros k [->|[->|?%elem_of_nil]%Hk1]%Hk2; [by right|by left|done].
  - intros r x Hin Hx. destruct Hr2 as [[_ ->]|(r2 & -> & _)]; [|apply elem_of_app in Hin as [Hin|Hin%list_elem_of_singleton]; [|done]];
      (destruct Hr1 as [[_ ->]|(r1 & -> & Hr1)]; [by apply elem_of_nil in Hin|]); apply list_elem_of_singleton in Hin as [= ->];
      by apply Hr1, list_elem_of_filter in Hx as [? _].
  - intros r x Hin Hx. destruct Hr2 as [[_ ->]|(r2 & -> & Hr2)];
      [|apply elem_of_app in Hin as [Hin|Hin%list_elem_of_singleton]; [|injection Hin as ->; by apply Hr2, list_elem_of_filter in Hx as [?%not_true_is_false _]]];
      (destruct Hr1 as [[_ ->]|(r1 & -> & _)]; [by apply elem_of_nil in Hin|by apply list_elem_of_singleton in Hin]).
Qed.
End entries.

(** * Reading data images *)

(** Block [i] of some data, and the data of a range set. *)
Definition raw_block (b : bytes) (i : Z) : bytes := py_slice b (i * block_size) ((i + 1) * block_size).
Definition raw_data (b : bytes) (r : RangeSet) : bytes := concat (map (raw_block b) (next_item r)).

Lemma slice_blocks b s e : 0 <= s -> py_slice b (s * block_size) (e * block_size) = concat (map (raw_block b) (zrange s e)).
Proof.
  intros Hs. destruct (decide (e <= s)) as [|Hlt].
  { rewrite zrange_nil by done. unfold py_slice, block_size. by replace (Z.to_nat (e * 4096 - s * 4096)) with 0%nat by lia. }
  remember (Z.to_nat (e - s)) as k eqn:Ek. assert (e = s + Z.of_nat k) as -> by lia. clear Ek. revert s Hs Hlt.
  induction k as [|k IH]; intros s Hs Hse; [lia|]. rewrite zrange_cons by lia. cbn [map concat].
  destruct (decide (k = 0%nat)) as [->|].
  - rewrite zrange_nil by lia. cbn [map concat]. by rewrite app_nil_r.
  - replace (s + Z.of_nat (S k)) with (s + 1 + Z.of_nat k) by lia. rewrite <- IH by lia. unfold raw_block.
    rewrite py_slice_app; unfold block_size in *; [done|lia|lia].
Qed.

Lemma feed_bytes l : feed (map VBytes l) = Ok (concat l).
Proof.
  unfold feed. change (concat l) with ([] ++ concat l). generalize ([] : bytes) as out.
  induction l as [|b l IH]; intros out; cbn; [by rewrite app_nil_r|]. by rewrite IH, <- app_assoc.
Qed.

Lemma concat_pieces b (ps : list (Z * Z)) : Forall (fun p => 0 <= p.1) ps ->
  concat (map (fun '(s, e) => py_slice b (s * block_size) (e * block_size)) ps) =
  concat (map (raw_block b) (flat_map (fun '(s, e) => zrange s e) ps)).
Proof.
  induction 1 as [|[s e] ps Hp _ IH]; [done|]. cbn [map concat flat_map]. by rewrite map_app, concat_app, <- IH, slice_blocks.
Qed.

Lemma data_image_reads img b r : di_data img = VBytes b -> wf r -> (forall x, x ∈ r -> 0 <= x) ->
  feed (DataImage_ReadRangeSet img r) = Ok (raw_data b r).
Proof.
  intros Hd Hr Hnn. unfold DataImage_ReadRangeSet. rewrite Hd.
  assert (Forall (fun p => 0 <= p.1) (rs_iter r)) as Hp.
  { eapply (Forall_impl _ _ _ (iter_nonempty r Hr)). intros [a e] [? Hin]. cbn in *. apply Hnn, Hin. lia. }
  unfold raw_data, next_item, items. change (pairs (rs_data r)) with (rs_iter r). rewrite <- (concat_pieces b _ Hp), <- feed_bytes, map_map. f_equal. apply map_ext. by intros [].
Qed.

Lemma file_image_reads img r : feed (FileImage_ReadRangeSet img r) = Ok (raw_data (fi_file_data img) r).
Proof.
  unfold FileImage_ReadRangeSet, raw_data. rewrite <- feed_bytes, map_map. f_equal. unfold next_item, items, rs_iter.
  induction (pairs (rs_data r)) as [|[s e] l IH]; [done|]. cbn [flat_map]. by rewrite map_app, IH.
Qed.

Lemma py_eqb_reference v n : py_eqb v (reference n) = true -> v = reference n.
Proof. destruct v; cbn; [done| |done]. by intros ->%bool_decide_eq_true. Qed.

Lemma whole_blocks_padded d trim pad d' : whole_blocks d trim pad = Ok (d', true) -> 0 < vlen d'.
Proof.
  unfold whole_blocks. intros H. destruct (negb _); [|done]. destruct (Z.ltb_spec 0 (vlen d mod block_size)); [|done].
  destruct trim; [done|]. destruct pad; [|done]. destruct (pad_zeros d _) as [d1|] eqn:E; [|done]. injection H as <-.
  destruct d as [b|s|]; cbn in E; [done| |done]. injection E as <-. cbn. unfold blen. rewrite length_app, length_replicate.
  pose proof (Z.mod_pos_bound (vlen (VStr s)) block_size ltac:(done)). cbn [vlen] in *. unfold blen, block_size in *. lia.
Qed.

Lemma data_image_ok d trim pad img : new_DataImage d trim pad = Ok img ->
  (exists padded, whole_blocks d trim pad = Ok (di_data img, padded)) /\
  vlen (di_data img) = block_size * di_total_blocks img /\
  (forall x, x ∈ di_care_map img <-> 0 <= x < di_total_blocks img) /\
  AssertPartition (di_care_map img) (map snd (di_file_map img)) = Ok tt /\
  (forall r x, ("__ZERO", r) ∈ di_file_map img -> x ∈ r ->
    vslice (di_data img) (x * block_size) ((x + 1) * block_size) = reference block_size).
Proof.
  intros H. unfold new_DataImage in H. destruct (whole_blocks d trim pad) as [[d' padded]|] eqn:Ew; [|done].
  destruct (Z.eqb_spec (vlen d' mod block_size) 0) as [Hmod|]; [|done].
  assert (vlen d' = block_size * (vlen d' / block_size)) as Htot by (pose proof (Z.div_mod (vlen d') block_size ltac:(done)); lia).
  assert (0 <= vlen d') as Hv by (destruct d'; cbn; unfold blen; lia).
  assert (padded = true -> 0 < vlen d') as Hpad by (intros ->; by eapply whole_blocks_padded).
  remember (vlen d' / block_size) as total eqn:Et. unfold block_size in Htot.
  destruct (of_data [0; total]) as [care|] eqn:Ec; [|done].
  destruct (split_blocks _ _) as [z nz] eqn:Es. destruct (_ || _); [|done].
  destruct (add_entry _ z _) as [m1|] eqn:E1; [|done]. destruct (add_entry _ nz _) as [m2|] eqn:E2; [|done].
  destruct (two_entries _ total (if padded then total - 1 else total) ltac:(destruct padded; [specialize (Hpad eq_refl)|]; lia)
    care z nz m1 m2 Ec Es E1 E2) as (Hcw & Hcare & Hp & [Hk Hz _]).
  destruct (add_entry "__COPY" _ m2) as [m3|] eqn:E3; [|done]. injection H as <-.
  cbn [di_data di_total_blocks di_care_map di_file_map].
  destruct (add_entry_ok care _ (fun _ => False) "__COPY" (if padded then [total - 1] else []) m2 m3 Hp) as (Hp3 & Hk3 & Hr3).
  - by intros [?|?]%Hk.
  - destruct padded; repeat constructor.
  - intros x. destruct padded; [intros ->%list_elem_of_singleton; lia|by intros ?%elem_of_nil].
  - intros x. destruct padded; [rewrite list_elem_of_singleton; lia|rewrite elem_of_nil; lia].
  - rewrite <- E3. destruct padded; [|done]. cbn. by replace (total - 1 + 1) with total by lia.
  - split_and!; [by exists padded|done|done|by eapply parts_done; [done|exact Hp3|intros x []]|].
    intros r x Hr Hx. apply py_eqb_reference. apply (Hz r x); [|done].
    destruct Hr3 as [[_ ->]|(r3 & -> & _)]; [done|]. apply elem_of_app in Hr as [?|Hr]; [done|]. by apply list_elem_of_singleton in Hr.
Qed.

(** The blocks of a file are never equal to a [str]. *)
Lemma split_bytes (g : Z -> bytes) l : split_blocks (fun i => VBytes (g i)) l = ([], bounds (unit_ranges l)).
Proof.
  unfold split_blocks. cbn [py_eqb reference].
  enough (forall z n, fold_left (fun '(zero, nonzero) i => (zero, nonzero ++ [i; i + 1])) l (z, n) = (z, n ++ bounds (unit_ranges l))) as H
    by exact (H [] []).
  induction l as [|i l IH]; intros z n; cbn [fold_left]; [by rewrite app_nil_r|]. by rewrite IH, <- app_assoc.
Qed.

Lemma file_image_ok f : blen f mod block_size = 0 -> 0 < blen f -> exists img, new_FileImage f = Ok img /\
  fi_file_data img = f /\
  blen f = block_size * fi_total_blocks img /\
  (forall x, x ∈ fi_care_map img <-> 0 <= x < fi_total_blocks img) /\
  AssertPartition (fi_care_map img) (map snd (fi_file_map img)) = Ok tt /\
  od_keys (fi_file_map img) = ["__NONZERO"].
Proof.
  intros Hmod Hpos. unfold new_FileImage. rewrite Hmod. cbn [Z.eqb negb].
  assert (blen f = block_size * (blen f / block_size)) as Htot by (pose proof (Z.div_mod (blen f) block_size ltac:(done)); lia).
  remember (blen f / block_size) as total eqn:Et. assert (0 < total) as Ht by (unfold block_size in Htot; lia).
  destruct (of_bounds_ok 0 [(0, total)] total) as (care & Ec & _); [cbn; lia|]. cbn [bounds flat_map app fst snd] in Ec. rewrite Ec.
  pose proof (split_bytes (fun i => py_slice f (i * block_size) ((i + 1) * block_size)) (zrange 0 total)) as Es.
  rewrite Es. destruct (of_units_ok (zrange 0 total) (zrange_sorted 0 total)) as (r & Er & _).
  destruct (add_entry "__NONZERO" (bounds (unit_ranges (zrange 0 total))) []) as [m|] eqn:E2.
  2: { unfold add_entry in E2. rewrite Er in E2. by destruct (bounds _). }
  assert (bounds (unit_ranges (zrange 0 total)) <> []) as Hne by (by rewrite (zrange_cons 0) by lia).
  rewrite (bool_decide_eq_false_2 _ Hne). cbn [bool_decide negb orb add_entry]. rewrite orb_true_r. rewrite E2.
  eexists. split; [done|]. cbn [fi_file_data fi_total_blocks fi_care_map fi_file_map].
  destruct (two_entries _ total total ltac:(lia) care _ _ [] m Ec Es eq_refl E2) as (Hcw & Hcare & Hp & _).
  split_and!; [done|done|done|eapply parts_done; [done|exact Hp|intros x ?; lia]|].
  unfold add_entry in E2. rewrite Er in E2. destruct (bounds _); [done|]. by injection E2 as <-.
Qed.


(** C14: an image made from data, or from a file of whole blocks, has all its
    blocks in the care map and a file map that is a partition of it, in which a
    [__ZERO] entry holds only blocks of zeroes; reading a range set gives the
    data of its blocks in order.  Data are cut or padded to whole blocks as
    asked; [bytes] cannot be padded, and a file with a partial block and the
    hash of a data image without its clobbered blocks raise a [TypeError] and an
    [AttributeError]. *)
Theorem raw_images_ok :
  (forall d trim pad img, new_DataImage d trim pad = Ok img ->
    (exists padded, whole_blocks d trim pad = Ok (di_data img, padded)) /\
    vlen (di_data img) = block_size * di_total_blocks img /\
    (forall x, x ∈ di_care_map img <-> 0 <= x < di_total_blocks img) /\
    AssertPartition (di_care_map img) (map snd (di_file_map img)) = Ok tt /\
    (forall r x, ("__ZERO", r) ∈ di_file_map img -> x ∈ r ->
      vslice (di_data img) (x * block_size) ((x + 1) * block_size) = reference block_size) /\
    (forall b r, di_data img = VBytes b -> wf r -> (forall x, x ∈ r -> x ∈ di_care_map img) ->
      feed (DataImage_ReadRangeSet img r) = Ok (raw_data b r)) /\
    (forall sha1, DataImage_TotalSha1 sha1 img false = Raise AttributeError)) /\
  (forall f, blen f mod block_size = 0 -> 0 < blen f -> exists img, new_FileImage f = Ok img /\
    blen f = block_size * fi_total_blocks img /\
    (forall x, x ∈ fi_care_map img <-> 0 <= x < fi_total_blocks img) /\
    AssertPartition (fi_care_map img) (map snd (fi_file_map img)) = Ok tt /\
    od_keys (fi_file_map img) = ["__NONZERO"] /\
    (forall r, feed (FileImage_ReadRangeSet img r) = Ok (raw_data f r))) /\
  (forall b, blen b mod block_size <> 0 ->
    new_DataImage (VBytes b) false true = Raise TypeError /\ new_FileImage b = Raise TypeError).
Proof.
  split_and!.
  - intros d trim pad img H. destruct (data_image_ok _ _ _ _ H) as (Hw & Hl & Hcare & Hp & Hz). split_and!; [done..| |done].
    intros b r Hd Hr Hsub. apply data_image_reads; [done..|]. intros x ?%Hsub%Hcare. lia.
  - intros f H1 H2. destruct (file_image_ok f H1 H2) as (img & Hm & Hf & Hl & Hc & Hp & Hk). exists img.
    split_and!; [done..|]. intros r. rewrite file_image_reads. by rewrite Hf.
  - intros b Hb. unfold new_DataImage, whole_blocks, new_FileImage. cbn [vlen andb negb].
    pose proof (Z.mod_pos_bound (blen b) block_size ltac:(done)). destruct (Z.ltb_spec 0 (blen b mod block_size)); [|lia].
    destruct (Z.eqb_spec (blen b mod block_size) 0); done.
Qed.
