(* ===== verification/DynPart.v ===== *)
(** releasetools/common.py: [DynamicPartitionsDifference], the list of
    operations that turns the partitions and groups of the source build, in the
    super partition, into those of the target build. *)

From S2P Require Export PyText PyColl PyFloat Transfer.

#[local] Open Scope string_scope.
#[local] Open Scope list_scope.
#[local] Open Scope Z_scope.

(** * Updates of partitions and groups *)

(** What the class uses of a [BlockDifference]. *)
Record BlockDifference := mkBlockDifference { bd_partition : string; bd_tgt : option Image; bd_src : option Image }.

Record DynamicPartitionUpdate := mkPartitionUpdate {
  src_group : option string;
  tgt_group : option string;
  progress : option py_float;
  block_difference : option BlockDifference
}.

Definition GetSparseImageSize (img : option Image) : Z :=
  match img with Some i => blocksize i * total_blocks i | None => 0 end.

Definition src_size (u : DynamicPartitionUpdate) : Z :=
  match block_difference u with Some b => GetSparseImageSize (bd_src b) | None => 0 end.
Definition tgt_size (u : DynamicPartitionUpdate) : Z :=
  match block_difference u with Some b => GetSparseImageSize (bd_tgt b) | None => 0 end.

(** [None]: the group does not exist; 0: no size limit. *)
Record DynamicGroupUpdate := mkGroupUpdate { gu_src_size : option Z; gu_tgt_size : option Z }.

Definition set_src_group (g : string) (u : DynamicPartitionUpdate) : DynamicPartitionUpdate :=
  mkPartitionUpdate (Some g) (tgt_group u) (progress u) (block_difference u).
Definition set_tgt_group (g : string) (u : DynamicPartitionUpdate) : DynamicPartitionUpdate :=
  mkPartitionUpdate (src_group u) (Some g) (progress u) (block_difference u).
Definition set_progress (x : option py_float) (u : DynamicPartitionUpdate) : DynamicPartitionUpdate :=
  mkPartitionUpdate (src_group u) (tgt_group u) x (block_difference u).

Abbreviation updates := (list (string * DynamicPartitionUpdate)).
Abbreviation group_updates := (list (string * DynamicGroupUpdate)).

(** A line of [dynamic_partitions_op_list]. *)
Inductive Op :=
| RemoveAllGroups
| Remove (p : string)
| Move (p g : string)
| Resize (p : string) (n : Z)
| RemoveGroup (g : string)
| ResizeGroup (g : string) (n : Z)
| AddGroup (g : string) (n : Z)
| Add (p g : string)
| Comment (text : string).

Definition op_line (o : Op) : string :=
  match o with
  | RemoveAllGroups => "remove_all_groups"
  | Remove p => "remove " +:+ p
  | Move p g => "move " +:+ p +:+ " " +:+ g
  | Resize p n => "resize " +:+ p +:+ " " +:+ py_str n
  | RemoveGroup g => "remove_group " +:+ g
  | ResizeGroup g n => "resize_group " +:+ g +:+ " " +:+ py_str n
  | AddGroup g n => "add_group " +:+ g +:+ " " +:+ py_str n
  | Add p g => "add " +:+ p +:+ " " +:+ g
  | Comment text => "# " +:+ text
  end.

(** Truth of an optional name. *)
Definition opt_true (o : option string) : bool := match o with Some s => str_true s | None => false end.

(** ** [_Compute], loop by loop *)

Definition from_to (what name : string) (a b : Z) : Op :=
  Comment (what +:+ name +:+ " from " +:+ py_str a +:+ " to " +:+ py_str b).

Definition remove_ops (pu : string * DynamicPartitionUpdate) : list Op :=
  let '(p, u) := pu in if opt_true (src_group u) && negb (opt_true (tgt_group u)) then [Remove p] else [].

(** The names are different texts, or one of them is missing. *)
Definition moves (u : DynamicPartitionUpdate) : bool :=
  opt_true (src_group u) && opt_true (tgt_group u) && negb (bool_decide (src_group u = tgt_group u)).

Definition move_out_ops (pu : string * DynamicPartitionUpdate) : list Op :=
  let '(p, u) := pu in
  if moves u then [Comment ("Move partition " +:+ p +:+ " from " +:+ default "" (src_group u) +:+ " to default"); Move p "default"] else [].

Definition shrinks (u : DynamicPartitionUpdate) : bool :=
  negb (src_size u =? 0) && negb (tgt_size u =? 0) && (tgt_size u <? src_size u).

Definition shrink_ops (pu : string * DynamicPartitionUpdate) : list Op :=
  let '(p, u) := pu in
  if shrinks u then [from_to "Shrink partition " p (src_size u) (tgt_size u); Resize p (tgt_size u)] else [].

Definition shrink_group_ops (gu : string * DynamicGroupUpdate) : list Op :=
  let '(g, u) := gu in
  match gu_src_size u, gu_tgt_size u with
  | Some a, None => [RemoveGroup g]
  | Some a, Some b => if b <? a then [from_to "Shrink group " g a b; ResizeGroup g b] else []
  | None, _ => []
  end.

Definition grow_group_ops (gu : string * DynamicGroupUpdate) : list Op :=
  let '(g, u) := gu in
  match gu_src_size u, gu_tgt_size u with
  | None, Some b => [Comment ("Add group " +:+ g +:+ " with maximum size " +:+ py_str b); AddGroup g b]
  | Some a, Some b => if a <? b then [from_to "Grow group " g a b; ResizeGroup g b] else []
  | _, None => []
  end.

Definition add_ops (pu : string * DynamicPartitionUpdate) : list Op :=
  let '(p, u) := pu in
  match tgt_group u with
  | Some g => if str_true g && negb (opt_true (src_group u)) then [Comment ("Add partition " +:+ p +:+ " to group " +:+ g); Add p g] else []
  | None => []
  end.

Definition grow_ops (pu : string * DynamicPartitionUpdate) : list Op :=
  let '(p, u) := pu in
  if negb (tgt_size u =? 0) && (src_size u <? tgt_size u)
  then [from_to "Grow partition " p (src_size u) (tgt_size u); Resize p (tgt_size u)] else [].

Definition move_in_ops (pu : string * DynamicPartitionUpdate) : list Op :=
  let '(p, u) := pu in
  if moves u then [Comment ("Move partition " +:+ p +:+ " from default to " +:+ default "" (tgt_group u)); Move p (default "" (tgt_group u))] else [].

Definition Compute_ops (remove_all_before_apply : bool) (ps : updates) (gs : group_updates) : list Op :=
  (if remove_all_before_apply
   then [Comment "Remove all existing dynamic partitions and groups before applying full OTA"; RemoveAllGroups] else []) ++
  flat_map remove_ops ps ++ flat_map move_out_ops ps ++ flat_map shrink_ops ps ++
  flat_map shrink_group_ops gs ++ flat_map grow_group_ops gs ++
  flat_map add_ops ps ++ flat_map grow_ops ps ++ flat_map move_in_ops ps.

(** * The constructor *)

Abbreviation info_dict := (gmap string string).

Definition get_split (info : info_dict) (key : string) : result (list string) := shlex_split (strip (default "" (info !! key))).
Definition partition_list_key (g : string) : string := "super_" +:+ g +:+ "_partition_list".
Definition group_size_key (g : string) : string := "super_" +:+ g +:+ "_group_size".
Definition group_size (info : info_dict) (g : string) : result Z := py_int (strip (default "0" (info !! group_size_key g))).

Record Difference := mkDifference { df_remove_all : bool; df_partitions : updates; df_groups : group_updates; df_op_list : list Op }.

(** [for g in groups: for p in ...: assert p in updates; updates[p].group = g]. *)
Definition assign_groups (set_group : string -> DynamicPartitionUpdate -> DynamicPartitionUpdate) (info : info_dict)
    (groups : list string) (ps : updates) : result updates :=
  foldM (fun ps g =>
           let! names := get_split info (partition_list_key g) in
           foldM (fun ps p => assert! od_mem p ps in Ok (od_update p (set_group g) ps)) ps names) ps groups.

Definition same_names (a b : list string) : bool := bool_decide (list_to_set a =@{gset string} list_to_set b).

(** The partitions with a non-zero size are those of [dynamic_partition_list]. *)
Definition check_dynamic (info : info_dict) (sz : DynamicPartitionUpdate -> Z) (ps : updates) : result unit :=
  let! names := get_split info "dynamic_partition_list" in
  assert! same_names (map fst (filter (fun pu => sz pu.2 <> 0) ps)) names in Ok tt.

Definition diff_dict (block_diffs : list BlockDifference) : list (string * BlockDifference) :=
  fold_left (fun d e => od_set (bd_partition e) e d) block_diffs [].

Definition initial_updates (dict : list (string * BlockDifference)) (progress_dict : list (string * py_float)) : updates :=
  fold_left (fun ps '(p, x) => od_update p (set_progress (Some x)) ps) progress_dict
    (map (fun '(p, e) => (p, mkPartitionUpdate None None None (Some e))) dict).

Definition target_groups (info : info_dict) (groups : list string) : result group_updates :=
  foldM (fun gs g => let! n := group_size info g in Ok (od_set g (mkGroupUpdate None (Some n)) gs)) [] groups.

Definition source_groups (info : info_dict) (groups : list string) (gs : group_updates) : result group_updates :=
  foldM (fun gs g =>
           let gs := if od_mem g gs then gs else od_set g (mkGroupUpdate None None) gs in
           let! n := group_size info g in
           Ok (od_update g (fun u => mkGroupUpdate (Some n) (gu_tgt_size u)) gs)) gs groups.

Definition new_Difference (info : info_dict) (block_diffs : list BlockDifference) (progress_dict : list (string * py_float))
    (source_info : option info_dict) : result Difference :=
  let remove_all := match source_info with None => true | Some _ => false end in
  let src_info : info_dict := default ∅ source_info in
  let dict := diff_dict block_diffs in
  assert! Nat.eqb (length dict) (length block_diffs) in
  let ps := initial_updates dict progress_dict in
  let! tgt_groups := get_split info "super_partition_groups" in
  let! src_groups := get_split src_info "super_partition_groups" in
  let! ps := assign_groups set_tgt_group info tgt_groups ps in
  let! ps := assign_groups set_src_group src_info src_groups ps in
  let! _ := check_dynamic info tgt_size ps in
  let! _ := check_dynamic src_info src_size ps in
  let! gs := target_groups info tgt_groups in
  let! gs := source_groups src_info src_groups gs in
  Ok (mkDifference remove_all ps gs (Compute_ops remove_all ps gs)).

(** * [WriteScript] *)

(** What the edify script does, in order; patching is [BlockDifference.WriteScript]. *)
Inductive ScriptStep :=
| ScriptComment (text : string)
| PatchPartition (p : string) (progress : option py_float) (write_verify_script : bool)
| PackOpList (lines : list string)
| UpdateDynamicPartitions
| VerifyPartition (p : string)
| UnmapPartition (p : string).

Definition patch_steps (pu : string * DynamicPartitionUpdate) (verify : bool) : list ScriptStep :=
  [ScriptComment ("Patch partition " +:+ pu.1); PatchPartition pu.1 (progress pu.2) verify].

Definition WriteScript (d : Difference) (write_verify_script : bool) : list ScriptStep :=
  [ScriptComment "--- Start patching dynamic partitions ---"] ++
  flat_map (fun pu => if shrinks pu.2 then patch_steps pu false else []) (df_partitions d) ++
  [PackOpList (map op_line (df_op_list d)); ScriptComment "Update dynamic partition metadata"; UpdateDynamicPartitions] ++
  (if write_verify_script
   then flat_map (fun pu => if shrinks pu.2 then [VerifyPartition pu.1; UnmapPartition pu.1] else []) (df_partitions d) else []) ++
  flat_map (fun pu =>
    if negb (tgt_size pu.2 =? 0) && (src_size pu.2 <=? tgt_size pu.2)
    then patch_steps pu write_verify_script ++ (if write_verify_script then [UnmapPartition pu.1] else []) else []) (df_partitions d) ++
  [ScriptComment "--- End patching dynamic partitions ---"].
