(* ===== verification/DynPartFacts.v ===== *)
(** Dynamic partitions: an abstract super partition with its groups, what each
    operation of the list does to it, and the states the loops of [_Compute]
    lead through. *)

From S2P Require Export DynPart.

#[local] Open Scope string_scope.
#[local] Open Scope list_scope.
#[local] Open Scope Z_scope.

(** * The super partition *)

(** Partitions with their group and size, and groups with their limit (0: none).
    The group [default] always exists and has no limit. *)
Record Super := mkSuper { sp_parts : gmap string (string * Z); sp_groups : gmap string Z }.

Definition in_group (g : string) (v : string * Z) : Z := if decide (v.1 = g) then v.2 else 0.
Definition total (f : string * Z -> Z) (m : gmap string (string * Z)) : Z := map_fold (fun _ v acc => f v + acc) 0 m.
Definition group_total (g : string) (m : gmap string (string * Z)) : Z := total (in_group g) m.

(** No group is over its limit and everything fits in [capacity]. *)
Definition fits (capacity : Z) (s : Super) : Prop :=
  map_Forall (fun g limit => limit <> 0 -> group_total g (sp_parts s) <= limit) (sp_groups s) /\ total snd (sp_parts s) <= capacity.

#[export] Instance fits_dec capacity s : Decision (fits capacity s).
Proof. unfold fits. apply _. Defined.

Definition known_group (g : string) (s : Super) : Prop := g = "default" \/ is_Some (sp_groups s !! g).
#[export] Instance known_group_dec g s : Decision (known_group g s).
Proof. unfold known_group. apply _. Defined.

Definition put_part (p g : string) (n : Z) (s : Super) : Super := mkSuper (<[p := (g, n)]> (sp_parts s)) (sp_groups s).
Definition put_group (g : string) (n : Z) (s : Super) : Super := mkSuper (sp_parts s) (<[g := n]> (sp_groups s)).

(** What the updater is asked to do; [None] is a request it cannot fulfil. *)
Definition perform (o : Op) (s : Super) : option Super :=
  match o with
  | RemoveAllGroups => Some (mkSuper ∅ ∅)
  | Remove p => _ ← sp_parts s !! p; Some (mkSuper (delete p (sp_parts s)) (sp_groups s))
  | Move p g => v ← sp_parts s !! p; if decide (known_group g s) then Some (put_part p g v.2 s) else None
  | Resize p n => v ← sp_parts s !! p; Some (put_part p v.1 n s)
  | RemoveGroup g =>
      _ ← sp_groups s !! g;
      if decide (map_Forall (fun _ v => v.1 <> g) (sp_parts s)) then Some (mkSuper (sp_parts s) (delete g (sp_groups s))) else None
  | ResizeGroup g n => _ ← sp_groups s !! g; Some (put_group g n s)
  | AddGroup g n => if decide (known_group g s) then None else Some (put_group g n s)
  | Add p g => if decide (sp_parts s !! p = None /\ known_group g s) then Some (put_part p g 0 s) else None
  | Comment _ => Some s
  end.

(** An operation that leaves a group over its limit, or too much in all, fails. *)
Definition exec (capacity : Z) (s : Super) (o : Op) : option Super :=
  s' ← perform o s; if decide (fits capacity s') then Some s' else None.

Fixpoint exec_all (capacity : Z) (s : Super) (ops : list Op) : option Super :=
  match ops with
  | [] => Some s
  | o :: ops => s' ← exec capacity s o; exec_all capacity s' ops
  end.

Lemma exec_all_app capacity s o1 o2 s1 s2 : exec_all capacity s o1 = Some s1 -> exec_all capacity s1 o2 = Some s2 ->
  exec_all capacity s (o1 ++ o2) = Some s2.
Proof.
  revert s. induction o1 as [|o o1 IH]; intros s H1 H2; simpl in *; [by injection H1 as ->|].
  destruct (exec capacity s o) as [s'|]; [|done]. by apply IH.
Qed.

Lemma exec_perform capacity s o s' : perform o s = Some s' -> fits capacity s' -> exec capacity s o = Some s'.
Proof. intros H Hf. unfold exec. rewrite H. simpl. by rewrite decide_True. Qed.

Lemma perform_move p g v s : sp_parts s !! p = Some v -> known_group g s -> perform (Move p g) s = Some (put_part p g v.2 s).
Proof. intros Hp Hg. cbn [perform]. rewrite Hp. cbn. by rewrite decide_True. Qed.

Lemma perform_resize p n v s : sp_parts s !! p = Some v -> perform (Resize p n) s = Some (put_part p v.1 n s).
Proof. intros Hp. cbn [perform]. by rewrite Hp. Qed.

Lemma perform_add p g s : sp_parts s !! p = None -> known_group g s -> perform (Add p g) s = Some (put_part p g 0 s).
Proof. intros Hp Hg. cbn [perform]. by rewrite decide_True. Qed.

Lemma perform_add_group g n s : ~ known_group g s -> perform (AddGroup g n) s = Some (put_group g n s).
Proof. intros Hg. cbn [perform]. by rewrite decide_False. Qed.

Lemma perform_remove_group g L s : sp_groups s !! g = Some L -> map_Forall (fun _ v => v.1 <> g) (sp_parts s) ->
  perform (RemoveGroup g) s = Some (mkSuper (sp_parts s) (delete g (sp_groups s))).
Proof. intros Hg Hf. cbn [perform]. rewrite Hg. cbn. by rewrite decide_True. Qed.

(** * Totals *)

Lemma total_insert f p v m : m !! p = None -> total f (<[p := v]> m) = f v + total f m.
Proof. intros H. unfold total. rewrite map_fold_insert_L; [done| |done]. intros. lia. Qed.

Lemma total_delete f p v m : m !! p = Some v -> total f m = f v + total f (delete p m).
Proof. intros H. unfold total. rewrite <- (insert_delete_id m p v H) at 1. apply total_insert, lookup_delete_eq. Qed.

(** A map that has less everywhere has a smaller total. *)
Lemma total_mono f1 f2 m1 m2 : (forall p v, m2 !! p = Some v -> 0 <= f2 v) ->
  (forall p v, m1 !! p = Some v -> f1 v <= 0 \/ exists v', m2 !! p = Some v' /\ f1 v <= f2 v') -> total f1 m1 <= total f2 m2.
Proof.
  revert m2. induction m1 as [|p v m1 Hp IH] using map_ind; intros m2 H2 H1.
  - unfold total at 1. rewrite map_fold_empty. revert H2. clear. induction m2 as [|p v m2 Hp IH] using map_ind; intros H2.
    + unfold total. by rewrite map_fold_empty.
    + rewrite total_insert by done. pose proof (H2 p v (lookup_insert_eq _ _ _)).
      assert (0 <= total f2 m2); [|lia]. apply IH. intros q w Hq. apply (H2 q). rewrite lookup_insert_ne; [done|]. by intros ->; rewrite Hp in Hq.
  - rewrite total_insert by done. destruct (H1 p v (lookup_insert_eq _ _ _)) as [Hv|(v' & Hv' & Hle)].
    + assert (total f1 m1 <= total f2 m2); [|lia]. apply IH; [done|]. intros q w Hq. apply H1.
      rewrite lookup_insert_ne; [done|]. by intros ->; rewrite Hp in Hq.
    + rewrite (total_delete f2 p v' m2 Hv'). assert (total f1 m1 <= total f2 (delete p m2)); [|lia]. apply IH.
      * intros q w [_ Hq]%lookup_delete_Some. by apply (H2 q).
      * intros q w Hq. assert (p <> q) by (by intros ->; rewrite Hp in Hq).
        destruct (H1 q w) as [?|(w' & Hw' & ?)]; [by rewrite lookup_insert_ne|by left|right]. exists w'. by rewrite lookup_delete_ne.
Qed.

(** * Loops that change one entry at a time *)

Section phase.
Context {U V : Type} (capacity : Z) (l : list (string * U)) (mk : gmap string V -> Super).
Context (f f' : U -> option V) (ops_of : string * U -> list Op) (Hnd : NoDup (od_keys l)).

(** The table of a function of the updates. *)
Definition table (f : U -> option V) : gmap string V := list_to_map (omap (fun ku => v ← f ku.2; Some (ku.1, v)) l).

Lemma table_lookup g k v : table g !! k = Some v <-> exists u, (k, u) ∈ l /\ g u = Some v.
Proof.
  assert (NoDup (omap (fun ku => v ← g ku.2; Some (ku.1, v)) l).*1) as Hn.
  { revert Hnd. unfold od_keys. clear. induction l as [|[k u] l' IH]; simpl; intros H; [constructor|].
    apply NoDup_cons in H as [Hk H]. destruct (g u) as [v|]; simpl; [|by apply IH]. constructor; [|by apply IH].
    intros ([k' v'] & Hk' & ([k2 u2] & Hin & Heq)%list_elem_of_omap)%list_elem_of_fmap. simpl in *. subst k'.
    destruct (g u2); simpl in Heq; [|done]. injection Heq as <- _. apply Hk. by apply (list_elem_of_fmap_2 fst _ (k2, u2)). }
  unfold table. rewrite <- elem_of_list_to_map by done. rewrite list_elem_of_omap. split.
  - intros ([k' u] & Hin & Heq). simpl in Heq. destruct (g u) eqn:E; simpl in Heq; [|done]. injection Heq as <- <-. eauto.
  - intros (u & Hin & Hu). exists (k, u). simpl. by rewrite Hu.
Qed.

(** Entries before and after the change. *)
Definition mixed (m : gmap string V) : Prop := forall k v, m !! k = Some v -> exists u, (k, u) ∈ l /\ (f u = Some v \/ f' u = Some v).
Definition set_entry (k : string) (o : option V) (m : gmap string V) : gmap string V := partial_alter (fun _ => o) k m.

Context (Hfits : forall m, mixed m -> fits capacity (mk m)).
Context (Hops : forall k u m, (k, u) ∈ l -> mixed m -> m !! k = f u ->
  (ops_of (k, u) = [] /\ f' u = f u) \/
  (exists c o, ops_of (k, u) = c ++ [o] /\ (c = [] \/ exists t, c = [Comment t]) /\ perform o (mk m) = Some (mk (set_entry k (f' u) m)))).

Lemma entry_ok k u m : (k, u) ∈ l -> mixed m -> m !! k = f u -> mixed (set_entry k (f' u) m) /\
  exec_all capacity (mk m) (ops_of (k, u)) = Some (mk (set_entry k (f' u) m)).
Proof.
  intros Hin Hm Hk. assert (mixed (set_entry k (f' u) m)) as Hm'.
  { intros q v. unfold set_entry. rewrite lookup_partial_alter. case_decide; [subst q; intros ?; exists u; auto|apply Hm]. }
  split; [done|]. destruct (Hops k u m Hin Hm Hk) as [[-> Heq]|(c & o & -> & Hc & Hp)].
  - simpl. do 2 f_equal. apply map_eq. intros q. unfold set_entry. rewrite lookup_partial_alter. case_decide; [subst q|done]. by rewrite Heq.
  - apply (exec_all_app _ _ _ _ (mk m)).
    + destruct Hc as [->|[t ->]]; [done|]. simpl. rewrite (exec_perform capacity (mk m) (Comment t) (mk m)); [done|done|by apply Hfits].
    + simpl. rewrite (exec_perform _ _ _ _ Hp); [done|by apply Hfits].
Qed.

Lemma phase_ok : exec_all capacity (mk (table f)) (flat_map ops_of l) = Some (mk (table f')).
Proof.
  assert (forall pre post m, l = pre ++ post ->
    (forall k u, (k, u) ∈ pre -> m !! k = f' u) -> (forall k u, (k, u) ∈ post -> m !! k = f u) -> mixed m ->
    exec_all capacity (mk m) (flat_map ops_of post) = Some (mk (table f'))) as Hgen.
  { intros pre post. revert pre. induction post as [|[k u] post IH]; intros pre m Hl Hpre Hpost Hm.
    - rewrite app_nil_r in Hl. subst pre. simpl. do 2 f_equal. apply map_eq. intros k.
      apply option_eq. intros v. rewrite table_lookup. split.
      + intros Hv. destruct (Hm k v Hv) as (u & Hu & _). exists u. split; [done|]. by rewrite <- (Hpre k u).
      + intros (u & Hu & Hv). by rewrite (Hpre k u).
    - simpl. assert ((k, u) ∈ l) as Hin by (rewrite Hl, elem_of_app, elem_of_cons; auto).
      assert (m !! k = f u) as Hk by (apply Hpost; left).
      destruct (entry_ok k u m Hin Hm Hk) as [Hm' He]. eapply exec_all_app; [exact He|].
      assert (k ∉ od_keys pre /\ k ∉ od_keys post) as [Hk1 Hk2].
      { rewrite Hl in Hnd. unfold od_keys in Hnd. rewrite map_app in Hnd. simpl in Hnd. apply NoDup_app in Hnd as (_ & H1 & H2).
        split; [intros ?; by apply (H1 k); [|left]|by apply NoDup_cons in H2 as [? _]]. }
      apply (IH (pre ++ [(k, u)])); [by rewrite <- app_assoc| | |done].
      + intros q w [Hq|Hq%list_elem_of_singleton]%elem_of_app; unfold set_entry; rewrite lookup_partial_alter.
        * case_decide; [subst q|by apply Hpre]. exfalso. apply Hk1. by apply (list_elem_of_fmap_2 fst _ (k, w)).
        * injection Hq as -> ->. by rewrite decide_True.
      + intros q w Hq. unfold set_entry. rewrite lookup_partial_alter. case_decide; [subst q|by apply Hpost; right].
        exfalso. apply Hk2. by apply (list_elem_of_fmap_2 fst _ (k, w)). }
  apply (Hgen []); [done|by intros k u ?%elem_of_nil| |].
  - intros k u Hin. destruct (f u) as [v|] eqn:E; [apply table_lookup; eauto|].
    destruct (table f !! k) as [v|] eqn:E2; [|done]. apply table_lookup in E2 as (u2 & Hu2 & Hv).
    assert (u2 = u) as ->; [|congruence]. pose proof (od_get_elem k u l Hnd Hin). pose proof (od_get_elem k u2 l Hnd Hu2). congruence.
  - intros k v (u & Hu & Hv)%table_lookup. eauto.
Qed.
End phase.

(** * The loops of [_Compute] *)

(** Tables whose groups are within their limits. *)
Record super_ok (capacity : Z) (s : Super) : Prop := {
  so_fits : fits capacity s;
  so_group : forall p g n, sp_parts s !! p = Some (g, n) -> is_Some (sp_groups s !! g) /\ 0 < n;
  so_default : sp_groups s !! "default" = None /\ sp_groups s !! "" = None
}.

(** The updates describe the two tables. *)
Record describes (ps : updates) (gs : group_updates) (S T : Super) : Prop := {
  de_parts : NoDup (od_keys ps);
  de_groups : NoDup (od_keys gs);
  de_src : forall p g n, sp_parts S !! p = Some (g, n) <-> exists u, (p, u) ∈ ps /\ src_group u = Some g /\ src_size u = n;
  de_tgt : forall p g n, sp_parts T !! p = Some (g, n) <-> exists u, (p, u) ∈ ps /\ tgt_group u = Some g /\ tgt_size u = n;
  de_src_none : forall p u, (p, u) ∈ ps -> src_group u = None -> src_size u = 0;
  de_tgt_none : forall p u, (p, u) ∈ ps -> tgt_group u = None -> tgt_size u = 0;
  de_gsrc : forall g n, sp_groups S !! g = Some n <-> exists u, (g, u) ∈ gs /\ gu_src_size u = Some n;
  de_gtgt : forall g n, sp_groups T !! g = Some n <-> exists u, (g, u) ∈ gs /\ gu_tgt_size u = Some n
}.

Section compute.
Context (capacity : Z) (ps : updates) (gs : group_updates) (S T : Super).
Context (HS : super_ok capacity S) (HT : super_ok capacity T) (Hd : describes ps gs S T).

(** Every partition is in a group where [B] has at least its size, or in
    [default]. *)
Definition under (B : Super) (m : gmap string (string * Z)) : Prop := forall p g n, m !! p = Some (g, n) ->
  exists g' n', sp_parts B !! p = Some (g', n') /\ n <= n' /\ (g = "default" \/ g = g').

Lemma under_fits B m G : super_ok capacity B -> under B m ->
  (forall g L, G !! g = Some L -> g <> "default" /\ (L <> 0 -> group_total g (sp_parts B) <= L)) -> fits capacity (mkSuper m G).
Proof.
  intros [[_ Hcap] HB _] Hu HG. split; simpl.
  - intros g L Hg HL. destruct (HG g L Hg) as [Hdef Hlim]. specialize (Hlim HL). etrans; [|exact Hlim].
    apply total_mono.
    + intros p [g' n'] Hp. unfold in_group. case_decide; simpl; [|lia]. destruct (HB p g' n' Hp). lia.
    + intros p [g1 n1] Hp. unfold in_group at 1. simpl. case_decide as Hg1; [subst g1|left; lia].
      destruct (Hu p g n1 Hp) as (g' & n' & Hp' & Hle & [?|<-]); [done|]. right. exists (g, n'). split; [done|].
      unfold in_group. by rewrite !decide_True by done.
  - etrans; [|exact Hcap]. apply total_mono.
    + intros p [g' n'] Hp. destruct (HB p g' n' Hp). simpl. lia.
    + intros p [g1 n1] Hp. destruct (Hu p g1 n1 Hp) as (g' & n' & Hp' & Hle & _). right. by exists (g', n').
Qed.

Lemma own_limits B g L : super_ok capacity B -> sp_groups B !! g = Some L -> g <> "default" /\ (L <> 0 -> group_total g (sp_parts B) <= L).
Proof.
  intros HB Hg. destruct (so_default _ _ HB) as [Hdef _]. destruct (so_fits _ _ HB) as [Hl _].
  split; [intros ->; congruence|]. by apply (Hl g).
Qed.

(** ** The state of a partition after each loop *)

Definition st0 (u : DynamicPartitionUpdate) : option (string * Z) := g ← src_group u; Some (g, src_size u).
Definition st1 (u : DynamicPartitionUpdate) : option (string * Z) := _ ← tgt_group u; st0 u.
Definition st2 (u : DynamicPartitionUpdate) : option (string * Z) :=
  b ← tgt_group u; a ← src_group u; Some (if decide (a = b) then a else "default", src_size u).
Definition st3 (u : DynamicPartitionUpdate) : option (string * Z) :=
  b ← tgt_group u; a ← src_group u; Some (if decide (a = b) then a else "default", Z.min (src_size u) (tgt_size u)).
Definition st4 (u : DynamicPartitionUpdate) : option (string * Z) :=
  b ← tgt_group u; match src_group u with
                   | Some a => Some (if decide (a = b) then a else "default", Z.min (src_size u) (tgt_size u))
                   | None => Some (b, 0)
                   end.
Definition st5 (u : DynamicPartitionUpdate) : option (string * Z) :=
  b ← tgt_group u; match src_group u with
                   | Some a => Some (if decide (a = b) then a else "default", tgt_size u)
                   | None => Some (b, tgt_size u)
                   end.
Definition st6 (u : DynamicPartitionUpdate) : option (string * Z) := b ← tgt_group u; Some (b, tgt_size u).

Lemma update_facts p u : (p, u) ∈ ps ->
  match src_group u with
  | Some g => sp_parts S !! p = Some (g, src_size u) /\ 0 < src_size u /\ is_Some (sp_groups S !! g) /\ g <> "default" /\ str_true g = true
  | None => src_size u = 0
  end /\
  match tgt_group u with
  | Some g => sp_parts T !! p = Some (g, tgt_size u) /\ 0 < tgt_size u /\ is_Some (sp_groups T !! g) /\ g <> "default" /\ str_true g = true
  | None => tgt_size u = 0
  end.
Proof.
  intros Hin. split.
  - destruct (src_group u) as [g|] eqn:E; [|by eapply de_src_none]. assert (sp_parts S !! p = Some (g, src_size u)) as Hp by (apply Hd; eauto).
    destruct (so_group _ _ HS _ _ _ Hp) as [Hg Hn]. destruct (so_default _ _ HS) as [H1 H2]. split_and!; [done..| |].
    + intros ->. rewrite H1 in Hg. by destruct Hg.
    + destruct g; [|done]. rewrite H2 in Hg. by destruct Hg.
  - destruct (tgt_group u) as [g|] eqn:E; [|by eapply de_tgt_none]. assert (sp_parts T !! p = Some (g, tgt_size u)) as Hp by (apply Hd; eauto).
    destruct (so_group _ _ HT _ _ _ Hp) as [Hg Hn]. destruct (so_default _ _ HT) as [H1 H2]. split_and!; [done..| |].
    + intros ->. rewrite H1 in Hg. by destruct Hg.
    + destruct g; [|done]. rewrite H2 in Hg. by destruct Hg.
Qed.

Lemma table_src : sp_parts S = table ps st0.
Proof.
  apply map_eq. intros p. apply option_eq. intros [g n]. rewrite (de_src _ _ _ _ Hd), table_lookup by apply Hd. unfold st0.
  split; intros (u & Hu & H); exists u; (split; [done|]); destruct (src_group u); simpl in *; naive_solver.
Qed.

Lemma table_tgt : table ps st6 = sp_parts T.
Proof.
  apply map_eq. intros p. apply option_eq. intros [g n]. rewrite (de_tgt _ _ _ _ Hd), table_lookup by apply Hd. unfold st6.
  split; intros (u & Hu & H); exists u; (split; [done|]); destruct (tgt_group u); simpl in *; naive_solver.
Qed.

(** Mixtures of two states that are both below a table. *)
Lemma mixed_under B f f' m :
  (forall p u g n, (p, u) ∈ ps -> f u = Some (g, n) \/ f' u = Some (g, n) ->
     exists g' n', sp_parts B !! p = Some (g', n') /\ n <= n' /\ (g = "default" \/ g = g')) ->
  mixed ps f f' m -> under B m.
Proof. intros H Hm p g n Hp. destruct (Hm p (g, n) Hp) as (u & Hu & Hf). by eapply H. Qed.

(** Splits on the groups of an update and uses what is known of it. *)
Ltac update_cases u Hin :=
  destruct (update_facts _ u Hin) as [Hs Ht];
  destruct (src_group u) as [a|] eqn:Ea, (tgt_group u) as [b|] eqn:Eb; simpl in *.

(** The source bounds the first three loops. *)
Lemma source_phase f f' ops_of :
  (forall p u, (p, u) ∈ ps -> forall g n, f u = Some (g, n) \/ f' u = Some (g, n) ->
     exists a, src_group u = Some a /\ n <= src_size u /\ (g = "default" \/ g = a)) ->
  (forall p u m, (p, u) ∈ ps -> m !! p = f u ->
    (ops_of (p, u) = [] /\ f' u = f u) \/
    (exists c o, ops_of (p, u) = c ++ [o] /\ (c = [] \/ exists t, c = [Comment t]) /\
       perform o (mkSuper m (sp_groups S)) = Some (mkSuper (set_entry p (f' u) m) (sp_groups S)))) ->
  exec_all capacity (mkSuper (table ps f) (sp_groups S)) (flat_map ops_of ps) = Some (mkSuper (table ps f') (sp_groups S)).
Proof.
  intros Hb Hops. apply (phase_ok capacity ps (fun m => mkSuper m (sp_groups S)) f f' ops_of (de_parts _ _ _ _ Hd)).
  - intros m Hm. apply (under_fits S); [done| |intros g L; by apply own_limits].
    apply (mixed_under _ f f'); [|done]. intros p u g n Hin Hf. destruct (Hb p u Hin g n Hf) as (a & Ha & Hn & Hg).
    destruct (update_facts p u Hin) as [Hs _]. rewrite Ha in Hs. destruct Hs as [Hs _]. by exists a, (src_size u).
  - intros p u m Hin _ Hm. by apply Hops.
Qed.

(** The target bounds the last three. *)
Lemma target_phase f f' ops_of :
  (forall p u, (p, u) ∈ ps -> forall g n, f u = Some (g, n) \/ f' u = Some (g, n) ->
     exists b, tgt_group u = Some b /\ n <= tgt_size u /\ (g = "default" \/ g = b)) ->
  (forall p u m, (p, u) ∈ ps -> m !! p = f u ->
    (ops_of (p, u) = [] /\ f' u = f u) \/
    (exists c o, ops_of (p, u) = c ++ [o] /\ (c = [] \/ exists t, c = [Comment t]) /\
       perform o (mkSuper m (sp_groups T)) = Some (mkSuper (set_entry p (f' u) m) (sp_groups T)))) ->
  exec_all capacity (mkSuper (table ps f) (sp_groups T)) (flat_map ops_of ps) = Some (mkSuper (table ps f') (sp_groups T)).
Proof.
  intros Hb Hops. apply (phase_ok capacity ps (fun m => mkSuper m (sp_groups T)) f f' ops_of (de_parts _ _ _ _ Hd)).
  - intros m Hm. apply (under_fits T); [done| |intros g L; by apply own_limits].
    apply (mixed_under _ f f'); [|done]. intros p u g n Hin Hf. destruct (Hb p u Hin g n Hf) as (b & Hb' & Hn & Hg).
    destruct (update_facts p u Hin) as [_ Ht]. rewrite Hb' in Ht. destruct Ht as [Ht _]. by exists b, (tgt_size u).
  - intros p u m Hin _ Hm. by apply Hops.
Qed.
(** ** Loop by loop *)

Lemma set_entry_insert {V} (p : string) (v : V) m : set_entry p (Some v) m = <[p := v]> m.
Proof. done. Qed.

Lemma set_entry_delete {V} (p : string) (m : gmap string V) : set_entry p None m = delete p m.
Proof. done. Qed.

(** Each case of a loop: nothing to do, or one request that changes the entry. *)
Ltac in_bounds := intros [[=]|[=]]; subst; eexists; (split; [reflexivity|split; [lia|auto]]).
Ltac nothing := left; split; [by rewrite ?andb_false_r|done].
Ltac request t := right; eexists t, _; split; [reflexivity|split; [auto|]].

Lemma remove_loop : exec_all capacity S (flat_map remove_ops ps) = Some (mkSuper (table ps st1) (sp_groups S)).
Proof.
  replace S with (mkSuper (table ps st0) (sp_groups S)) at 1 by (rewrite <- table_src; by destruct S).
  apply source_phase.
  - intros p u Hin g n. unfold st1, st0. update_cases u Hin; in_bounds.
  - intros p u m Hin. unfold remove_ops, st1, st0. update_cases u Hin; intros Hm.
    + destruct Hs as (? & ? & ? & ? & ->). destruct Ht as (? & ? & ? & ? & ->). nothing.
    + destruct Hs as (? & ? & ? & ? & ->). request (@nil Op). simpl. by rewrite Hm.
    + nothing.
    + nothing.
Qed.

Lemma move_out_loop : exec_all capacity (mkSuper (table ps st1) (sp_groups S)) (flat_map move_out_ops ps) =
  Some (mkSuper (table ps st2) (sp_groups S)).
Proof.
  apply source_phase.
  - intros p u Hin g n. unfold st1, st2, st0. update_cases u Hin; try case_decide; in_bounds.
  - intros p u m Hin. unfold move_out_ops, moves, st1, st2, st0. update_cases u Hin; intros Hm; [|nothing..].
    destruct Hs as (? & ? & ? & ? & ->). destruct Ht as (? & ? & ? & ? & ->). simpl. case_decide as Hab.
    + subst b. rewrite bool_decide_eq_true_2 by done. nothing.
    + rewrite bool_decide_eq_false_2 by congruence. simpl.
      right. eexists [_], _. split; [reflexivity|]. split; [eauto|].
      erewrite perform_move; [|exact Hm|by left]. done.
Qed.

Lemma shrink_loop : exec_all capacity (mkSuper (table ps st2) (sp_groups S)) (flat_map shrink_ops ps) =
  Some (mkSuper (table ps st3) (sp_groups S)).
Proof.
  apply source_phase.
  - intros p u Hin g n. unfold st2, st3. update_cases u Hin; try case_decide; in_bounds.
  - intros p u m Hin. unfold shrink_ops, shrinks, st2, st3. update_cases u Hin; intros Hm.
    + destruct Hs as (_ & Hs & _). destruct Ht as (_ & Ht & _).
      destruct (Z.eqb_spec (src_size u) 0); [lia|]. destruct (Z.eqb_spec (tgt_size u) 0); [lia|]. simpl.
      destruct (Z.ltb_spec (tgt_size u) (src_size u)).
      * right. eexists [_], _. split; [reflexivity|]. split; [unfold from_to; eauto|].
        erewrite perform_resize; [|exact Hm]. by rewrite Z.min_r by lia.
      * rewrite Z.min_l by lia. nothing.
    + rewrite Ht, andb_false_r. nothing.
    + rewrite Hs. nothing.
    + rewrite Hs. nothing.
Qed.

(** The partitions between the two halves are below both tables. *)
Lemma middle_under : under S (table ps st3) /\ under T (table ps st3).
Proof.
  split; intros p g n (u & Hin & Hu)%table_lookup; try apply Hd; unfold st3 in Hu; update_cases u Hin; try done;
    injection Hu as <- <-; destruct Hs as (Hs & ? & _); destruct Ht as (Ht & ? & _); [exists a, (src_size u)|exists b, (tgt_size u)];
    (split_and!; [done|lia|case_decide; subst; auto]).
Qed.

(** Groups: first those that go or shrink, then those that come or grow. *)
Definition gr1 (u : DynamicGroupUpdate) : option Z :=
  a ← gu_src_size u; b ← gu_tgt_size u; Some (Z.min a b).

Lemma group_limits f f' G : (forall g u L, (g, u) ∈ gs -> f u = Some L \/ f' u = Some L -> gu_src_size u = Some L \/ gu_tgt_size u = Some L) ->
  mixed gs f f' G -> fits capacity (mkSuper (table ps st3) G).
Proof.
  intros H Hm. destruct middle_under as [H1 H2].
  assert (forall g L, G !! g = Some L -> sp_groups S !! g = Some L \/ sp_groups T !! g = Some L) as HG.
  { intros g L Hg. destruct (Hm g L Hg) as (u & Hin & Hu). destruct (H g u L Hin Hu); [left; apply Hd|right; apply Hd]; eauto. }
  pose proof (under_fits S (table ps st3) (sp_groups S) HS H1 (fun g L => own_limits S g L HS)) as [F1 Hcap].
  pose proof (under_fits T (table ps st3) (sp_groups T) HT H2 (fun g L => own_limits T g L HT)) as [F2 _].
  split; [|done]. intros g L Hg. destruct (HG g L Hg) as [?|?]; [by apply (F1 g L)|by apply (F2 g L)].
Qed.

Lemma groups_src : sp_groups S = table gs gu_src_size.
Proof. apply map_eq. intros g. apply option_eq. intros n. by rewrite (de_gsrc _ _ _ _ Hd), table_lookup by apply Hd. Qed.
Lemma groups_tgt : table gs gu_tgt_size = sp_groups T.
Proof. apply map_eq. intros g. apply option_eq. intros n. by rewrite (de_gtgt _ _ _ _ Hd), table_lookup by apply Hd. Qed.

Lemma shrink_groups_loop : exec_all capacity (mkSuper (table ps st3) (sp_groups S)) (flat_map shrink_group_ops gs) =
  Some (mkSuper (table ps st3) (table gs gr1)).
Proof.
  rewrite groups_src. apply (phase_ok capacity gs (fun G => mkSuper (table ps st3) G)); [apply Hd| |].
  - intros G. apply group_limits. intros g u L Hin. unfold gr1. destruct (gu_src_size u) as [a|], (gu_tgt_size u) as [b|]; simpl; try naive_solver.
    intros [[= <-]|[= <-]]; [by left|]. destruct (Z.min_spec a b) as [[_ ->]|[_ ->]]; auto.
  - intros g u G Hin HG. unfold shrink_group_ops, gr1. destruct (gu_src_size u) as [c|] eqn:Ec, (gu_tgt_size u) as [d|] eqn:Ed; intros Hg; simpl.
    + destruct (Z.ltb_spec d c).
      * right. eexists [_], _. split; [reflexivity|]. split; [unfold from_to; eauto|]. simpl. rewrite Hg. simpl. by rewrite Z.min_r by lia.
      * rewrite Z.min_l by lia. nothing.
    + request (@nil Op). apply (perform_remove_group _ c); [done|].
      intros p [g' n] (w & Hw & Hst)%table_lookup; [|apply Hd]. simpl. intros ->. unfold st3 in Hst.
      assert (sp_groups T !! g = None) as HgT.
      { destruct (sp_groups T !! g) as [L|] eqn:E; [|done]. apply (de_gtgt _ _ _ _ Hd) in E as (u' & Hu' & HL).
        pose proof (od_get_elem g u gs (de_groups _ _ _ _ Hd) Hin). pose proof (od_get_elem g u' gs (de_groups _ _ _ _ Hd) Hu'). congruence. }
      assert (g <> "default") as Hgd.
      { intros ->. assert (sp_groups S !! "default" = Some c) by (apply Hd; eauto). destruct (so_default _ _ HS). congruence. }
      update_cases w Hw; try done. injection Hst as Hg' _. destruct Ht as (_ & _ & [L HL] & _). case_decide; congruence.
    + nothing.
    + nothing.
Qed.

Lemma grow_groups_loop : exec_all capacity (mkSuper (table ps st3) (table gs gr1)) (flat_map grow_group_ops gs) =
  Some (mkSuper (table ps st3) (sp_groups T)).
Proof.
  rewrite <- groups_tgt. apply (phase_ok capacity gs (fun G => mkSuper (table ps st3) G)); [apply Hd| |].
  - intros G. apply group_limits. intros g u L Hin. unfold gr1. destruct (gu_src_size u) as [a|], (gu_tgt_size u) as [b|]; simpl; try naive_solver.
    intros [[= <-]|[= <-]]; [|by right]. destruct (Z.min_spec a b) as [[_ ->]|[_ ->]]; auto.
  - intros g u G Hin HG. unfold grow_group_ops, gr1. destruct (gu_src_size u) as [c|] eqn:Ec, (gu_tgt_size u) as [d|] eqn:Ed; intros Hg; simpl in *.
    + destruct (Z.ltb_spec c d).
      * right. eexists [_], _. split; [reflexivity|]. split; [unfold from_to; eauto|]. simpl. by rewrite Hg.
      * rewrite Z.min_r by lia. nothing.
    + nothing.
    + right. eexists [_], _. split; [reflexivity|]. split; [eauto|]. apply perform_add_group. intros [->|[L HL]]; simpl in *; [|congruence].
      assert (sp_groups T !! "default" = Some d) by (apply Hd; eauto). destruct (so_default _ _ HT). congruence.
    + nothing.
Qed.

Lemma add_loop : exec_all capacity (mkSuper (table ps st3) (sp_groups T)) (flat_map add_ops ps) =
  Some (mkSuper (table ps st4) (sp_groups T)).
Proof.
  apply target_phase.
  - intros p u Hin g n. unfold st3, st4. update_cases u Hin; try case_decide; in_bounds.
  - intros p u m Hin. unfold add_ops, st3, st4. update_cases u Hin; intros Hm.
    + destruct Hs as (? & ? & ? & ? & ->). nothing.
    + nothing.
    + destruct Ht as (? & ? & ? & ? & ->). right. eexists [_], _. split; [reflexivity|]. split; [eauto|].
      apply perform_add; [exact Hm|by right].
    + nothing.
Qed.

Lemma grow_loop : exec_all capacity (mkSuper (table ps st4) (sp_groups T)) (flat_map grow_ops ps) =
  Some (mkSuper (table ps st5) (sp_groups T)).
Proof.
  apply target_phase.
  - intros p u Hin g n. unfold st4, st5. update_cases u Hin; try case_decide; in_bounds.
  - intros p u m Hin. unfold grow_ops, st4, st5. update_cases u Hin; intros Hm.
    + destruct Ht as (_ & Ht & _). destruct (Z.eqb_spec (tgt_size u) 0); [lia|]. simpl. destruct (Z.ltb_spec (src_size u) (tgt_size u)).
      * right. eexists [_], _. split; [reflexivity|]. split; [unfold from_to; eauto|]. erewrite perform_resize; [|exact Hm]. done.
      * rewrite Z.min_r by lia. nothing.
    + rewrite Ht. nothing.
    + destruct Ht as (_ & Ht & _). destruct (Z.eqb_spec (tgt_size u) 0); [lia|]. destruct (Z.ltb_spec (src_size u) (tgt_size u)); [|lia].
      right. eexists [_], _. split; [reflexivity|]. split; [unfold from_to; eauto|]. erewrite perform_resize; [|exact Hm]. done.
    + rewrite Ht. nothing.
Qed.

Lemma move_in_loop : exec_all capacity (mkSuper (table ps st5) (sp_groups T)) (flat_map move_in_ops ps) = Some T.
Proof.
  replace T with (mkSuper (table ps st6) (sp_groups T)) at 2 by (rewrite table_tgt; by destruct T).
  apply target_phase.
  - intros p u Hin g n. unfold st5, st6. update_cases u Hin; try case_decide; in_bounds.
  - intros p u m Hin. unfold move_in_ops, moves, st5, st6. update_cases u Hin; intros Hm; [|nothing..].
    destruct Hs as (? & ? & ? & ? & ->). destruct Ht as (? & ? & ? & ? & ->). simpl. case_decide as Hab.
    + subst b. rewrite bool_decide_eq_true_2 by done. nothing.
    + rewrite bool_decide_eq_false_2 by congruence. simpl.
      right. eexists [_], _. split; [reflexivity|]. split; [eauto|]. erewrite perform_move; [|exact Hm|by right]. done.
Qed.

(** The operations lead from the source table to that of the target, and no
    step asks for more room than there is. *)
Lemma Compute_ops_ok : exec_all capacity S (Compute_ops false ps gs) = Some T.
Proof.
  unfold Compute_ops. simpl.
  eapply exec_all_app; [exact remove_loop|]. eapply exec_all_app; [exact move_out_loop|].
  eapply exec_all_app; [exact shrink_loop|]. eapply exec_all_app; [exact shrink_groups_loop|].
  eapply exec_all_app; [exact grow_groups_loop|]. eapply exec_all_app; [exact add_loop|].
  eapply exec_all_app; [exact grow_loop|exact move_in_loop].
Qed.
End compute.
