(* ===== verification/DynPartProps.v ===== *)
(** The theorem about dynamic partitions: what the info dictionaries say of the
    two builds, and that the operations lead from one to the other. *)

From S2P Require Export DynPartFacts.

#[local] Open Scope string_scope.
#[local] Open Scope list_scope.
#[local] Open Scope Z_scope.

(** * What a dictionary says of a build *)

(** The groups with their limits, and the partitions of their lists with the
    given sizes. *)
Definition layout (info : info_dict) (size_of : string -> Z) : result Super :=
  let! groups := get_split info "super_partition_groups" in
  let! limits := foldM (fun m g => let! n := group_size info g in Ok (<[g := n]> m)) ∅ groups in
  let! parts := foldM (fun m g =>
                         let! names := get_split info (partition_list_key g) in
                         Ok (fold_left (fun m p => <[p := (g, size_of p)]> m) names m)) ∅ groups in
  Ok (mkSuper parts limits).

(** The sizes of the images of the block differences. *)
Definition image_size (image : BlockDifference -> option Image) (block_diffs : list BlockDifference) (p : string) : Z :=
  match od_get p (diff_dict block_diffs) with Some e => GetSparseImageSize (image e) | None => 0 end.

(** The dynamic partitions are those of the groups. *)
Definition listed (info : info_dict) (s : Super) : Prop :=
  exists names, get_split info "dynamic_partition_list" = Ok names /\ forall p, p ∈ names <-> is_Some (sp_parts s !! p).

(** * The constructor *)

Section constructor.
Context (dict : list (string * BlockDifference)) (Hdict : NoDup (od_keys dict)).

(** Updates with the groups that two tables give. *)
Record grouped (ps : updates) (tm sm : gmap string (string * Z)) : Prop := {
  gp_keys : od_keys ps = od_keys dict;
  gp_get : forall p u, od_get p ps = Some u -> block_difference u = od_get p dict /\ tgt_group u = fst <$> tm !! p /\ src_group u = fst <$> sm !! p
}.

Lemma initial_grouped progress_dict : grouped (initial_updates dict progress_dict) ∅ ∅.
Proof.
  unfold initial_updates.
  assert (grouped (map (fun '(p, e) => (p, mkPartitionUpdate None None None (Some e))) dict) ∅ ∅) as H.
  { split.
    - unfold od_keys. rewrite map_map. apply map_ext. by intros [].
    - intros p u. rewrite !lookup_empty. clear Hdict. induction dict as [|[k e] d IH]; simpl; [done|]. case_decide; [by intros [= <-]|apply IH]. }
  revert H. generalize (map (fun '(p, e) => (p, mkPartitionUpdate None None None (Some e))) dict) as ps.
  induction progress_dict as [|[k x] l IH]; intros ps [Hk Hg]; simpl; [by split|]. apply IH. split; [by rewrite od_keys_update|].
  intros p u. rewrite od_get_update. case_decide; [|apply Hg]. destruct (od_get p ps) as [w|] eqn:E; [|done]. intros [= <-]. by apply (Hg p w).
Qed.

(** One table grows with the assignments of groups; the other stays. *)
Lemma assign_names_ok (tgt : bool) (size_of : string -> Z) g names ps ps' tm sm :
  foldM (fun ps p => assert! od_mem p ps in Ok (od_update p ((if tgt then set_tgt_group else set_src_group) g) ps)) ps names = Ok ps' ->
  grouped ps tm sm ->
  (forall p, p ∈ names -> p ∈ od_keys dict) /\
  grouped ps' (if tgt then fold_left (fun m p => <[p := (g, size_of p)]> m) names tm else tm)
              (if tgt then sm else fold_left (fun m p => <[p := (g, size_of p)]> m) names sm).
Proof.
  revert ps tm sm. induction names as [|p names IH]; intros ps tm sm H Hg; simpl in *.
  - injection H as <-. split; [by intros p ?%elem_of_nil|by destruct tgt].
  - destruct (od_mem p ps) eqn:E; [|done]. unfold od_mem in E. apply bool_decide_eq_true in E.
    assert (grouped (od_update p ((if tgt then set_tgt_group else set_src_group) g) ps)
      (if tgt then <[p := (g, size_of p)]> tm else tm) (if tgt then sm else <[p := (g, size_of p)]> sm)) as Hg'.
    { destruct Hg as [Hk Hg]. split; [by rewrite od_keys_update|]. intros q u. rewrite od_get_update. case_decide as Hq.
      - subst q. destruct (od_get p ps) as [w|] eqn:Ew; [|done]. intros [= <-]. destruct (Hg p w Ew) as (H1 & H2 & H3).
        destruct tgt; simpl; rewrite lookup_insert_eq; done.
      - intros Hu. destruct (Hg q u Hu) as (H1 & H2 & H3). destruct tgt; rewrite lookup_insert_ne by done; done. }
    destruct (IH _ _ _ H Hg') as [H1 H2]. split.
    + intros q [->|?]%elem_of_cons; [by rewrite <- (gp_keys _ _ _ Hg)|by apply H1].
    + by destruct tgt.
Qed.
(** A table with the given sizes for partitions that have a difference. *)
Definition sized (size_of : string -> Z) (m : gmap string (string * Z)) : Prop :=
  forall p g n, m !! p = Some (g, n) -> n = size_of p /\ p ∈ od_keys dict.

Definition table_step (info : info_dict) (size_of : string -> Z) (m : gmap string (string * Z)) (g : string) : result (gmap string (string * Z)) :=
  let! names := get_split info (partition_list_key g) in
  Ok (fold_left (fun m p => <[p := (g, size_of p)]> m) names m).

Lemma insert_names_sized size_of g names m : (forall p, p ∈ names -> p ∈ od_keys dict) -> sized size_of m ->
  sized size_of (fold_left (fun m p => <[p := (g, size_of p)]> m) names m).
Proof.
  revert m. induction names as [|p names IH]; intros m Hin Hm; simpl; [done|]. apply IH; [intros q Hq; apply Hin; by right|].
  intros q g' n [[<- [= <- <-]]|[_ Hq]]%lookup_insert_Some; [|by apply (Hm q g')]. split; [done|]. apply Hin. by left.
Qed.

Lemma assign_groups_ok (tgt : bool) info size_of groups ps ps' tm sm :
  assign_groups (if tgt then set_tgt_group else set_src_group) info groups ps = Ok ps' -> grouped ps tm sm ->
  sized size_of (if tgt then tm else sm) ->
  exists m, foldM (table_step info size_of) (if tgt then tm else sm) groups = Ok m /\ sized size_of m /\
    grouped ps' (if tgt then m else tm) (if tgt then sm else m).
Proof.
  revert ps tm sm. induction groups as [|g groups IH]; intros ps tm sm H Hg Hs; cbn [assign_groups foldM] in *.
  - injection H as <-. eexists. split; [done|]. split; [done|]. by destruct tgt.
  - unfold assign_groups in H. cbn [foldM] in H. unfold table_step at 1. destruct (get_split info (partition_list_key g)) as [names|]; [|done].
    destruct (foldM _ ps names) as [ps1|] eqn:E; [|done]. destruct (assign_names_ok tgt size_of _ _ _ _ _ _ E Hg) as [Hn Hg1].
    destruct (IH _ _ _ H Hg1) as (m & Hm & Hsm & Hgm).
    + destruct tgt; by apply insert_names_sized.
    + exists m. destruct tgt; done.
Qed.

(** ** Groups *)

Definition limit_step (info : info_dict) (m : gmap string Z) (g : string) : result (gmap string Z) :=
  let! n := group_size info g in Ok (<[g := n]> m).

Definition group_entry (tm sm : gmap string Z) (g : string) : option DynamicGroupUpdate :=
  match sm !! g, tm !! g with None, None => None | a, b => Some (mkGroupUpdate a b) end.

(** The group updates join the two tables of limits. *)
Definition joined (gs : group_updates) (tm sm : gmap string Z) : Prop :=
  NoDup (od_keys gs) /\ forall g, od_get g gs = group_entry tm sm g.

Lemma target_groups_ok info groups gs : target_groups info groups = Ok gs ->
  exists tm, foldM (limit_step info) ∅ groups = Ok tm /\ joined gs tm ∅.
Proof.
  unfold target_groups. enough (forall gs0 tm, joined gs0 tm ∅ ->
    foldM (fun gs g => let! n := group_size info g in Ok (od_set g (mkGroupUpdate None (Some n)) gs)) gs0 groups = Ok gs ->
    exists tm', foldM (limit_step info) tm groups = Ok tm' /\ joined gs tm' ∅) as Hgen by (apply Hgen; split; [constructor|done]).
  induction groups as [|g groups IH]; intros gs0 tm Hj H; cbn [foldM] in *; [injection H as <-; by exists tm|].
  unfold limit_step at 1. destruct (group_size info g) as [n|]; [|done]. apply (IH _ (<[g := n]> tm)) in H; [done|].
  destruct Hj as [Hn Hj]. split; [by apply od_keys_set_NoDup|]. intros j. rewrite od_get_set, Hj. unfold group_entry.
  rewrite lookup_empty. destruct (decide (j = g)) as [->|]; [by rewrite lookup_insert_eq|by rewrite lookup_insert_ne].
Qed.

Lemma source_groups_ok info groups gs gs' tm sm : source_groups info groups gs = Ok gs' -> joined gs tm sm ->
  exists sm', foldM (limit_step info) sm groups = Ok sm' /\ joined gs' tm sm'.
Proof.
  unfold source_groups. revert gs sm. induction groups as [|g groups IH]; intros gs sm H Hj; cbn [foldM] in *; [injection H as <-; by exists sm|].
  unfold limit_step at 1. destruct (group_size info g) as [n|]; [|done]. apply (IH _ (<[g := n]> sm)) in H; [done|].
  destruct Hj as [Hn Hj]. set (gs1 := if od_mem g gs then gs else od_set g (mkGroupUpdate None None) gs).
  assert (NoDup (od_keys gs1)) as Hn1 by (unfold gs1; destruct (od_mem g gs); [done|by apply od_keys_set_NoDup]).
  split; [by rewrite od_keys_update|]. intros j. rewrite od_get_update. unfold group_entry.
  assert (forall k, od_get k gs1 = if decide (k = g) then Some (mkGroupUpdate (sm !! g) (tm !! g)) else group_entry tm sm k) as Hgs1.
  { intros k. unfold gs1, od_mem. destruct (bool_decide_reflect (g ∈ od_keys gs)) as [Hin|Hin].
    - rewrite Hj. case_decide; [subst k|done]. apply od_get_is_Some in Hin as [v Hv]. rewrite Hj in Hv. unfold group_entry in *.
      by destruct (sm !! g), (tm !! g).
    - rewrite od_get_set, Hj. case_decide; [subst k|done]. apply od_get_None in Hin. rewrite Hj in Hin. unfold group_entry in Hin.
      by destruct (sm !! g), (tm !! g). }
  rewrite Hgs1. case_decide; [subst j|]; [by rewrite lookup_insert_eq|]. by rewrite lookup_insert_ne.
Qed.
End constructor.

(** The difference object describes the two layouts. *)
Lemma check_dynamic_ok info sz ps s : check_dynamic info sz ps = Ok tt -> NoDup (od_keys ps) -> listed info s ->
  forall p u, (p, u) ∈ ps -> sz u <> 0 <-> is_Some (sp_parts s !! p).
Proof.
  unfold check_dynamic. intros H Hn (names & Hnames & Hl) p u Hin. rewrite Hnames in H. unfold same_names in H.
  destruct (bool_decide_reflect (list_to_set (map fst (filter (fun pu => sz pu.2 <> 0) ps)) =@{gset string} list_to_set names)) as [Heq|]; [|done].
  rewrite <- Hl. assert (p ∈ (list_to_set names : gset string) <-> p ∈ names) as <- by apply elem_of_list_to_set. rewrite <- Heq.
  rewrite elem_of_list_to_set, list_elem_of_fmap. split.
  - intros Hu. exists (p, u). split; [done|]. by apply list_elem_of_filter.
  - intros ([q w] & Hq & [Hw Hqw]%list_elem_of_filter). simpl in *. subst q. apply od_get_in in Hin; [|done]. apply od_get_in in Hqw; [|done]. congruence.
Qed.

Lemma od_keys_diff_dict block_diffs : NoDup (od_keys (diff_dict block_diffs)).
Proof.
  unfold diff_dict. assert (NoDup (od_keys ([] : list (string * BlockDifference)))) as H by constructor. revert H.
  generalize ([] : list (string * BlockDifference)) as d. induction block_diffs as [|e l IH]; intros d H; simpl; [done|].
  by apply IH, od_keys_set_NoDup.
Qed.

(** One side of the updates, and the table of that side. *)
Lemma side_parts dict ps (grp : DynamicPartitionUpdate -> option string) sz m size_of : NoDup (od_keys ps) ->
  sized dict size_of m -> od_keys ps = od_keys dict -> (forall p u, od_get p ps = Some u -> grp u = fst <$> m !! p) ->
  (forall p u, (p, u) ∈ ps -> sz u = size_of p) ->
  forall p g n, m !! p = Some (g, n) <-> exists u, (p, u) ∈ ps /\ grp u = Some g /\ sz u = n.
Proof.
  intros Hnd Hm Hk Hg Hsz p g n. split.
  - intros Hp. destruct (Hm p g n Hp) as [-> Hin]. rewrite <- Hk in Hin. apply od_get_is_Some in Hin as [u Hu].
    exists u. assert ((p, u) ∈ ps) as Hpu by (by apply od_get_in). split; [done|]. by rewrite (Hg p u Hu), Hp, (Hsz p u Hpu).
  - intros (u & Hpu & Hs & Hn). apply od_get_in in Hpu as Hu; [|done]. rewrite (Hg p u Hu) in Hs.
    destruct (m !! p) as [[g' n']|] eqn:E; [|done]. simpl in Hs. injection Hs as ->. destruct (Hm p g n' E) as [-> _].
    by rewrite <- (Hsz p u Hpu), Hn.
Qed.

Lemma side_none info ps (grp : DynamicPartitionUpdate -> option string) sz s : NoDup (od_keys ps) -> check_dynamic info sz ps = Ok tt ->
  listed info s -> (forall p u, od_get p ps = Some u -> grp u = fst <$> sp_parts s !! p) ->
  forall p u, (p, u) ∈ ps -> grp u = None -> sz u = 0.
Proof.
  intros Hnd Hc Hl Hg p u Hpu Hs. destruct (decide (sz u = 0)) as [?|Hne]; [done|]. apply od_get_in in Hpu as Hu; [|done].
  rewrite (Hg p u Hu) in Hs. apply (check_dynamic_ok _ _ _ _ Hc Hnd Hl p u Hpu) in Hne as [v Hv]. by rewrite Hv in Hs.
Qed.

Lemma joined_sides gs tm sm : joined gs tm sm ->
  (forall g n, sm !! g = Some n <-> exists u, (g, u) ∈ gs /\ gu_src_size u = Some n) /\
  (forall g n, tm !! g = Some n <-> exists u, (g, u) ∈ gs /\ gu_tgt_size u = Some n).
Proof.
  intros [Hn Hj]. split; intros g n; (split; [intros Hg|intros (u & Hu%od_get_in & Hg); [|done]; rewrite Hj in Hu; unfold group_entry in Hu;
    destruct (sm !! g), (tm !! g); simplify_eq/=; done]).
  - exists (mkGroupUpdate (Some n) (tm !! g)). split; [apply od_get_in; [done|]|done]. rewrite Hj. unfold group_entry. by rewrite Hg.
  - exists (mkGroupUpdate (sm !! g) (Some n)). split; [apply od_get_in; [done|]|done]. rewrite Hj. unfold group_entry. rewrite Hg. by destruct (sm !! g).
Qed.

Lemma new_Difference_ok info block_diffs progress_dict source d capacity S T :
  new_Difference info block_diffs progress_dict source = Ok d ->
  layout info (image_size bd_tgt block_diffs) = Ok T -> layout (default ∅ source) (image_size bd_src block_diffs) = Ok S ->
  super_ok capacity T -> super_ok capacity S -> listed info T -> listed (default ∅ source) S ->
  describes (df_partitions d) (df_groups d) S T /\
  d = mkDifference (match source with None => true | Some _ => false end) (df_partitions d) (df_groups d)
        (Compute_ops (match source with None => true | Some _ => false end) (df_partitions d) (df_groups d)).
Proof.
  intros H HT HS HTok HSok HTl HSl. unfold new_Difference in H. cbv zeta in H. set (dict := diff_dict block_diffs) in *.
  pose proof (od_keys_diff_dict block_diffs) as Hdict. fold dict in Hdict.
  destruct (Nat.eqb _ _); [|done]. unfold layout in HT, HS.
  destruct (get_split info "super_partition_groups") as [tg|]; [|done].
  destruct (get_split (default ∅ source) "super_partition_groups") as [sg|]; [|done].
  destruct (assign_groups set_tgt_group info tg _) as [ps1|] eqn:E1; [|done].
  destruct (assign_groups set_src_group _ sg ps1) as [ps|] eqn:E2; [|done].
  destruct (check_dynamic info tgt_size ps) as [[]|] eqn:C1; [|done]. destruct (check_dynamic _ src_size ps) as [[]|] eqn:C2; [|done].
  destruct (target_groups info tg) as [gs1|] eqn:G1; [|done]. destruct (source_groups _ sg gs1) as [gs|] eqn:G2; [|done].
  injection H as <-. cbn [df_partitions df_groups].
  destruct (assign_groups_ok dict true info (image_size bd_tgt block_diffs) tg _ _ ∅ ∅ E1 (initial_grouped dict progress_dict)) as (tm & Htm & Htms & Hg1);
    [by intros p g n Hp; rewrite lookup_empty in Hp|].
  destruct (assign_groups_ok dict false _ (image_size bd_src block_diffs) sg _ _ tm ∅ E2 Hg1) as (sm & Hsm & Hsms & [Hk Hg]);
    [by intros p g n Hp; rewrite lookup_empty in Hp|].
  destruct (target_groups_ok _ _ _ G1) as (tl & Htl & Hj1). destruct (source_groups_ok _ _ _ _ _ _ G2 Hj1) as (sl & Hsl & [Hjn Hj]).
  unfold limit_step, table_step in *. rewrite Htl, Htm in HT. injection HT as <-. rewrite Hsl, Hsm in HS. injection HS as <-. cbn [sp_parts sp_groups] in *.
  assert (NoDup (od_keys ps)) as Hnd by (by rewrite Hk).
  assert (forall p u, (p, u) ∈ ps -> tgt_size u = image_size bd_tgt block_diffs p /\ src_size u = image_size bd_src block_diffs p) as Hsz.
  { intros p u Hu%od_get_in; [|done]. destruct (Hg p u Hu) as (Hb & _). unfold tgt_size, src_size, image_size. fold dict. rewrite Hb.
    by destruct (od_get p dict). }
  split; [|done]. destruct (joined_sides gs tl sl (conj Hjn Hj)) as [Hs Ht]. split; [done|done|..|exact Hs|exact Ht].
  - apply (side_parts dict ps src_group src_size sm _ Hnd Hsms Hk); [intros p u; apply Hg|intros p u; apply Hsz].
  - apply (side_parts dict ps tgt_group tgt_size tm _ Hnd Htms Hk); [intros p u; apply Hg|intros p u; apply Hsz].
  - apply (side_none _ _ src_group _ _ Hnd C2 HSl). intros p u. apply Hg.
  - apply (side_none _ _ tgt_group _ _ Hnd C1 HTl). intros p u. apply Hg.
Qed.

(** * The text of the operations *)

Definition is_word (s : string) : Prop := str_true s = true /\ str_forallb (fun c => negb (is_space c)) s = true.

(** A reader of the lines of the operation list. *)
Definition parse_line (s : string) : option Op :=
  match split_ws s with
  | name :: args =>
      if String.eqb name "#" then Some (Comment (str_drop 2 s))
      else match args with
           | [] => if String.eqb name "remove_all_groups" then Some RemoveAllGroups else None
           | [a] => if String.eqb name "remove" then Some (Remove a) else if String.eqb name "remove_group" then Some (RemoveGroup a) else None
           | [a; b] =>
               if String.eqb name "move" then Some (Move a b)
               else if String.eqb name "add" then Some (Add a b)
               else match py_int b with
                    | Ok n => if String.eqb name "resize" then Some (Resize a n)
                              else if String.eqb name "resize_group" then Some (ResizeGroup a n)
                              else if String.eqb name "add_group" then Some (AddGroup a n) else None
                    | Raise _ => None
                    end
           | _ => None
           end
  | [] => None
  end.

Definition op_ok (o : Op) : Prop :=
  match o with
  | RemoveAllGroups | Comment _ => True
  | Remove a | RemoveGroup a => is_word a
  | Move a b | Add a b => is_word a /\ is_word b
  | Resize a n | ResizeGroup a n | AddGroup a n => is_word a /\ 0 <= n
  end.

Lemma is_word_str n : 0 <= n -> is_word (py_str n).
Proof. intros H. destruct (py_str_token n H) as (? & _ & _ & ?). by split. Qed.

Lemma parse_words name l : is_word name -> Forall is_word l -> split_ws (str_join " " (name :: l)) = name :: l.
Proof. intros H1 H2. apply split_ws_join. by constructor. Qed.

Lemma parse_line_ok o : op_ok o -> parse_line (op_line o) = Some o.
Proof.
  assert (forall name, is_word name -> forall a, is_word a -> split_ws (name +:+ " " +:+ a) = [name; a]) as H2.
  { intros name Hn a Ha. apply (parse_words name [a]); [done|]. by apply Forall_singleton. }
  assert (forall name, is_word name -> forall a b, is_word a -> is_word b -> split_ws (name +:+ " " +:+ a +:+ " " +:+ b) = [name; a; b]) as H3.
  { intros name Hn a b Ha Hb. apply (parse_words name [a; b]); [done|]. by rewrite !Forall_cons, Forall_nil. }
  unfold parse_line. destruct o as [|p|p g|p n|g|g n|g n|p g|t]; cbn [op_ok]; intros H; [done|..].
  - change (op_line (Remove p)) with ("remove" +:+ " " +:+ p). by rewrite H2.
  - destruct H. change (op_line (Move p g)) with ("move" +:+ " " +:+ p +:+ " " +:+ g). by rewrite H3.
  - destruct H. change (op_line (Resize p n)) with ("resize" +:+ " " +:+ p +:+ " " +:+ py_str n).
    rewrite H3 by (done || by apply is_word_str). cbn -[py_str py_int]. by rewrite py_int_str.
  - change (op_line (RemoveGroup g)) with ("remove_group" +:+ " " +:+ g). by rewrite H2.
  - destruct H. change (op_line (ResizeGroup g n)) with ("resize_group" +:+ " " +:+ g +:+ " " +:+ py_str n).
    rewrite H3 by (done || by apply is_word_str). cbn -[py_str py_int]. by rewrite py_int_str.
  - destruct H. change (op_line (AddGroup g n)) with ("add_group" +:+ " " +:+ g +:+ " " +:+ py_str n).
    rewrite H3 by (done || by apply is_word_str). cbn -[py_str py_int]. by rewrite py_int_str.
  - destruct H. change (op_line (Add p g)) with ("add" +:+ " " +:+ p +:+ " " +:+ g). by rewrite H3.
  - cbn -[split_ws_aux]. unfold split_ws. cbn. by destruct (split_ws_aux t) as [w ws]; destruct (str_true w).
Qed.

Lemma limit_nonneg capacity s g L : super_ok capacity s -> sp_groups s !! g = Some L -> 0 <= L.
Proof.
  intros [[Hl _] Hn _] Hg. destruct (decide (L = 0)); [lia|]. etrans; [|by apply (Hl g)].
  change 0 with (total snd ∅). apply total_mono; [|by intros p v Hv; rewrite lookup_empty in Hv].
  intros p [g' n'] Hp. unfold in_group. case_decide; simpl; [|lia]. destruct (Hn p g' n' Hp). lia.
Qed.

(** A loop makes operations that can be read back when each entry does. *)
Lemma ops_words {U} (l : list (string * U)) (ops_of : string * U -> list Op) :
  (forall k u, (k, u) ∈ l -> Forall op_ok (ops_of (k, u))) -> Forall op_ok (flat_map ops_of l).
Proof.
  induction l as [|[k u] l IH]; intros H; [constructor|]. apply Forall_app. split; [apply H; by left|].
  apply IH. intros j w Hj. apply H. by right.
Qed.

(** A comment and a request. *)
Ltac two_ops := apply Forall_cons; split; [exact I|apply Forall_singleton].

(** The operations have the names of the tables, and sizes. *)
Lemma Compute_ops_words capacity ps gs S T remove_all : super_ok capacity S -> super_ok capacity T -> describes ps gs S T ->
  (forall p, p ∈ od_keys ps -> is_word p) -> (forall g, g ∈ od_keys gs -> is_word g) ->
  Forall op_ok (Compute_ops remove_all ps gs).
Proof.
  intros HS HT Hd Hps Hgs. pose proof (update_facts capacity ps gs S T HS HT Hd) as Hu.
  assert (forall g n, sp_groups S !! g = Some n \/ sp_groups T !! g = Some n -> is_word g) as Hg.
  { intros g n [(u & Hin & _)%(de_gsrc _ _ _ _ Hd)|(u & Hin & _)%(de_gtgt _ _ _ _ Hd)]; apply Hgs; by apply (list_elem_of_fmap_2 fst _ (g, u)). }
  assert (forall p u, (p, u) ∈ ps -> is_word p) as Hp by (intros p u Hin; apply Hps; by apply (list_elem_of_fmap_2 fst _ (p, u))).
  assert (forall p u, (p, u) ∈ ps -> (forall b, tgt_group u = Some b -> is_word b) /\ 0 <= tgt_size u) as Ht.
  { intros p u Hin. destruct (Hu p u Hin) as [_ Ht]. split.
    - intros b Hb. rewrite Hb in Ht. destruct Ht as (_ & _ & [L HL] & _). by apply (Hg b L); right.
    - destruct (tgt_group u); lia. }
  assert (forall g u n, (g, u) ∈ gs -> gu_tgt_size u = Some n -> 0 <= n) as Hn.
  { intros g u n Hin Hn. apply (limit_nonneg capacity T g); [done|]. apply (de_gtgt _ _ _ _ Hd). eauto. }
  unfold Compute_ops. rewrite !Forall_app. split_and!; [by destruct remove_all; repeat constructor|apply ops_words; intros k u Hin..].
  - unfold remove_ops. destruct (_ && _); [|constructor]. apply Forall_singleton. by eapply Hp.
  - unfold move_out_ops. destruct (moves u); [|constructor]. two_ops. split; [by eapply Hp|done].
  - unfold shrink_ops. destruct (shrinks u); [|constructor]. two_ops. split; [by eapply Hp|by eapply Ht].
  - unfold shrink_group_ops. destruct (gu_src_size u) as [a|] eqn:Ea; [|constructor]. assert (is_word k) as Hk by (apply (Hg k a); left; apply Hd; eauto).
    destruct (gu_tgt_size u) as [b|] eqn:Eb; [|by apply Forall_singleton]. destruct (b <? a); [|constructor].
    two_ops. split; [done|by eapply Hn].
  - unfold grow_group_ops. destruct (gu_tgt_size u) as [b|] eqn:Eb; [|destruct (gu_src_size u); constructor].
    assert (is_word k) as Hk by (apply (Hg k b); right; apply Hd; eauto). pose proof (Hn k u b Hin Eb).
    destruct (gu_src_size u) as [a|]; [destruct (a <? b); [|constructor]|]; (two_ops; by split).
  - unfold add_ops. destruct (tgt_group u) as [b|] eqn:Eb; [|constructor]. destruct (_ && _); [|constructor].
    two_ops. split; [by eapply Hp|by eapply Ht].
  - unfold grow_ops. destruct (_ && _); [|constructor]. two_ops. split; [by eapply Hp|by eapply Ht].
  - unfold move_in_ops. destruct (moves u) eqn:Em; [|constructor]. two_ops. split; [by eapply Hp|].
    unfold moves in Em. destruct (tgt_group u) as [b|] eqn:Eb; [by eapply Ht|]. by rewrite andb_false_r in Em.
Qed.

(** * The script *)

Definition patched (steps : list ScriptStep) : list string :=
  omap (fun s => match s with PatchPartition p _ _ => Some p | _ => None end) steps.

Lemma patched_app a b : patched (a ++ b) = patched a ++ patched b.
Proof. apply omap_app. Qed.

Lemma patched_loop (c : DynamicPartitionUpdate -> bool) verify tail (ps : updates) :
  (forall pu, patched (tail pu) = []) ->
  patched (flat_map (fun pu => if c pu.2 then patch_steps pu verify ++ tail pu else []) ps) = map fst (filter (fun pu => c pu.2 = true) ps).
Proof.
  intros Ht. induction ps as [|[p u] ps IH]; [done|]. cbn [flat_map]. rewrite patched_app, IH, filter_cons.
  destruct (c (p, u).2) eqn:E; [|by rewrite decide_False].
  rewrite decide_True by done. by rewrite patched_app, Ht.
Qed.

(** Shrinking partitions are patched before the metadata are updated, the
    others after. *)
Definition grows (u : DynamicPartitionUpdate) : bool := negb (tgt_size u =? 0) && (src_size u <=? tgt_size u).

Definition steps_before (d : Difference) : list ScriptStep :=
  [ScriptComment "--- Start patching dynamic partitions ---"] ++
  flat_map (fun pu => if shrinks pu.2 then patch_steps pu false else []) (df_partitions d) ++
  [PackOpList (map op_line (df_op_list d)); ScriptComment "Update dynamic partition metadata"].

Definition steps_after (d : Difference) (verify : bool) : list ScriptStep :=
  (if verify then flat_map (fun pu => if shrinks pu.2 then [VerifyPartition pu.1; UnmapPartition pu.1] else []) (df_partitions d) else []) ++
  flat_map (fun pu => if grows pu.2 then patch_steps pu verify ++ (if verify then [UnmapPartition pu.1] else []) else []) (df_partitions d) ++
  [ScriptComment "--- End patching dynamic partitions ---"].

Lemma WriteScript_split d verify : exists before after,
  WriteScript d verify = before ++ [UpdateDynamicPartitions] ++ after /\
  PackOpList (map op_line (df_op_list d)) ∈ before /\
  patched before = map fst (filter (fun pu => shrinks pu.2 = true) (df_partitions d)) /\
  patched after = map fst (filter (fun pu => grows pu.2 = true) (df_partitions d)).
Proof.
  exists (steps_before d), (steps_after d verify). unfold steps_before, steps_after.
  split; [unfold WriteScript; by rewrite <- !app_assoc|]. split_and!.
  - rewrite !elem_of_app, !elem_of_cons. auto.
  - rewrite !patched_app. etrans; [|exact (patched_loop shrinks false (fun _ => []) (df_partitions d) (fun _ => eq_refl))].
    cbn [patched omap list_omap app]. rewrite app_nil_r. apply (f_equal patched), flat_map_ext. intros pu. by rewrite app_nil_r.
  - rewrite !patched_app. etrans; [|exact (patched_loop grows verify (fun pu => if verify then [UnmapPartition pu.1] else []) (df_partitions d)
      ltac:(by destruct verify))].
    replace (patched (if verify then _ else [])) with (@nil string); [cbn [app]; by rewrite app_nil_r|].
    destruct verify; [|done]. induction (df_partitions d) as [|pu l IH]; [done|]. cbn [flat_map]. rewrite patched_app, <- IH. by destruct (shrinks pu.2).
Qed.

(** * The update of dynamic partitions *)

(** The states an update may start from: the source build, or anything that
    fits when there is no source. *)
Definition starts_from (capacity : Z) (source : option info_dict) (S start : Super) : Prop :=
  match source with Some _ => start = S | None => fits capacity start end.

Lemma elem_of_shrinking capacity ps gs S T p : super_ok capacity S -> super_ok capacity T -> describes ps gs S T ->
  p ∈ map fst (filter (fun pu => shrinks pu.2 = true) ps) <->
  exists g n g' n', sp_parts S !! p = Some (g, n) /\ sp_parts T !! p = Some (g', n') /\ n' < n.
Proof.
  intros HS HT Hd. pose proof (update_facts capacity ps gs S T HS HT Hd) as Hu. rewrite list_elem_of_fmap. split.
  - intros ([q u] & -> & [Hs Hin]%list_elem_of_filter). cbn [fst snd] in *. destruct (Hu q u Hin) as [H1 H2]. unfold shrinks in Hs. bool_prop.
    destruct (src_group u) as [a|]; [|lia]. destruct (tgt_group u) as [b|]; [|lia]. destruct H1 as [H1 _], H2 as [H2 _]. by exists a, (src_size u), b, (tgt_size u).
  - intros (g & n & g' & n' & HpS & HpT & Hlt). apply (de_src _ _ _ _ Hd) in HpS as (u & Hin & Hg & <-).
    apply (de_tgt _ _ _ _ Hd) in HpT as (u' & Hin' & Hg' & <-). assert (u' = u) as ->.
    { pose proof (od_get_elem p u ps (de_parts _ _ _ _ Hd) Hin). pose proof (od_get_elem p u' ps (de_parts _ _ _ _ Hd) Hin'). congruence. }
    exists (p, u). split; [done|]. apply list_elem_of_filter. split; [|done]. destruct (Hu p u Hin) as [H1 H2]. rewrite Hg in H1. rewrite Hg' in H2.
    unfold shrinks. cbn [snd]. rewrite !andb_true_iff, !negb_true_iff, !Z.eqb_neq, Z.ltb_lt. lia.
Qed.

Lemma shrinking_or_growing capacity ps gs S T : super_ok capacity S -> super_ok capacity T -> describes ps gs S T ->
  map fst (filter (fun pu => shrinks pu.2 = true) ps) ++ map fst (filter (fun pu => grows pu.2 = true) ps) ≡ₚ
  map fst (filter (fun pu => tgt_size pu.2 <> 0) ps).
Proof.
  intros HS HT Hd. pose proof (update_facts capacity ps gs S T HS HT Hd) as Hu. rewrite <- map_app. apply Permutation_map.
  assert (forall pu, pu ∈ ps -> (tgt_size pu.2 <> 0 <-> shrinks pu.2 = true \/ grows pu.2 = true) /\ ~ (shrinks pu.2 = true /\ grows pu.2 = true)) as H.
  { intros [p u] Hin. destruct (Hu p u Hin) as [H1 H2]. cbn [snd]. unfold shrinks, grows. rewrite !andb_true_iff, !negb_true_iff, !Z.eqb_neq, Z.ltb_lt, Z.leb_le.
    destruct (src_group u), (tgt_group u); lia. }
  clear Hu Hd. induction ps as [|pu l IH]; [done|]. rewrite !filter_cons.
  destruct (H pu) as [H1 H2]; [by left|]. specialize (IH (fun q Hq => H q (proj2 (elem_of_cons _ _ _) (or_intror Hq)))).
  repeat case_decide; try tauto; cbn [app]; rewrite <- ?IH; try done.
  - by rewrite Permutation_middle.
Qed.

(** C15: when the info dictionaries say of both builds where their dynamic
    partitions are (within the limits of the groups and the size of super), the
    operations of the list lead from the source build to the target build: each
    can be performed in turn, no group is ever over its limit nor super over
    its size, and groups, partitions and sizes end up as the target has them;
    without a source, from whatever is on the device.  The lines read back as
    these operations, and the script patches every target partition once, the
    shrinking ones before the metadata are updated and the others after. *)
Theorem dynamic_partitions_reach_target info block_diffs progress_dict source d capacity S T start :
  new_Difference info block_diffs progress_dict source = Ok d ->
  layout info (image_size bd_tgt block_diffs) = Ok T -> layout (default ∅ source) (image_size bd_src block_diffs) = Ok S ->
  super_ok capacity T -> super_ok capacity S -> listed info T -> listed (default ∅ source) S ->
  starts_from capacity source S start ->
  exec_all capacity start (df_op_list d) = Some T /\
  (Forall is_word (od_keys (df_partitions d)) -> Forall is_word (od_keys (df_groups d)) ->
     map parse_line (map op_line (df_op_list d)) = map Some (df_op_list d)) /\
  (forall verify, exists before after,
     WriteScript d verify = before ++ [UpdateDynamicPartitions] ++ after /\
     PackOpList (map op_line (df_op_list d)) ∈ before /\
     NoDup (patched before ++ patched after) /\
     (forall p, p ∈ patched before ++ patched after <-> is_Some (sp_parts T !! p)) /\
     (forall p, p ∈ patched before <->
        exists g n g' n', sp_parts S !! p = Some (g, n) /\ sp_parts T !! p = Some (g', n') /\ n' < n)).
Proof.
  intros H HT HS HTok HSok HTl HSl Hst.
  destruct (new_Difference_ok _ _ _ _ _ _ _ _ H HT HS HTok HSok HTl HSl) as [Hd Heq].
  assert (df_op_list d = Compute_ops (match source with None => true | Some _ => false end) (df_partitions d) (df_groups d)) as Hops by (by rewrite Heq).
  split_and!.
  - rewrite Hops. pose proof (Compute_ops_ok capacity _ _ S T HSok HTok Hd) as Hc. destruct source as [si|]; [by rewrite Hst|].
    cbn [starts_from] in Hst. unfold Compute_ops in *. cbn [app] in *. vm_compute in HS. injection HS as HS.
    cbn [exec_all]. rewrite (exec_perform capacity start (Comment _) start) by done. cbn [mbind option_bind exec_all].
    rewrite (exec_perform capacity start RemoveAllGroups S); [done|by rewrite <- HS|apply HSok].
  - intros Hw1 Hw2. rewrite map_map. apply map_ext_in. intros o Ho%list_elem_of_In. apply parse_line_ok.
    assert (Forall op_ok (df_op_list d)) as Hf; [|by apply (proj1 (list.Forall_forall _ _) Hf)].
    rewrite Hops. eapply Compute_ops_words; [exact HSok|exact HTok|done|by apply list.Forall_forall|by apply list.Forall_forall].
  - intros verify. destruct (WriteScript_split d verify) as (before & after & Hw & Hp & Hb & Ha). exists before, after. rewrite Hb, Ha.
    pose proof (shrinking_or_growing _ _ _ _ _ HSok HTok Hd) as Hperm. split_and!; [done|done|..].
    + rewrite Hperm. eapply sublist_NoDup; [exact (de_parts _ _ _ _ Hd)|]. unfold od_keys. apply (fmap_sublist fst), sublist_filter.
    + intros p. rewrite Hperm, list_elem_of_fmap. split.
      * intros ([q u] & -> & [Hn Hin]%list_elem_of_filter). cbn [fst snd] in *.
        destruct (update_facts _ _ _ _ _ HSok HTok Hd q u Hin) as [_ Ht]. destruct (tgt_group u); [|done]. destruct Ht as [-> _]. by eexists.
      * intros [[g n] Hn]. apply (so_group _ _ HTok) in Hn as Hpos. apply (de_tgt _ _ _ _ Hd) in Hn as (u & Hin & _ & Hu).
        exists (p, u). split; [done|]. apply list_elem_of_filter. cbn [snd]. split; [lia|done].
    + intros p. by apply (elem_of_shrinking capacity _ (df_groups d)).
Qed.

(** ** An example: [system] grows and moves to another group, [vendor] shrinks,
    [odm] goes and [product] comes *)

Definition ex_part_image (blocks : Z) : Image := mkImage 4096 blocks empty empty empty [] (fun _ => "") (fun _ => "").
Definition ex_diff (p : string) (tgt src : option Z) : BlockDifference :=
  mkBlockDifference p (ex_part_image <$> tgt) (ex_part_image <$> src).
Definition ex_diffs : list BlockDifference :=
  [ex_diff "system" (Some 6) (Some 4); ex_diff "vendor" (Some 2) (Some 5); ex_diff "odm" None (Some 1); ex_diff "product" (Some 3) None].

Definition ex_target_info : info_dict := list_to_map
  [("super_partition_groups", "main extra"); ("super_main_group_size", "20480"); ("super_extra_group_size", "32768");
   ("super_main_partition_list", "vendor product"); ("super_extra_partition_list", "system");
   ("dynamic_partition_list", "system vendor product")].
Definition ex_source_info : info_dict := list_to_map
  [("super_partition_groups", "main"); ("super_main_group_size", "40960"); ("super_main_partition_list", "system vendor odm");
   ("dynamic_partition_list", "system vendor odm")].

Definition ex_S : Super := mkSuper (list_to_map [("system", ("main", 16384)); ("vendor", ("main", 20480)); ("odm", ("main", 4096))])
  (list_to_map [("main", 40960)]).
Definition ex_T : Super := mkSuper (list_to_map [("vendor", ("main", 8192)); ("product", ("main", 12288)); ("system", ("extra", 24576))])
  (list_to_map [("main", 20480); ("extra", 32768)]).

(** The conditions on a table, decided. *)
Definition super_okb (capacity : Z) (s : Super) : bool :=
  bool_decide (fits capacity s) &&
  bool_decide (map_Forall (fun _ v => is_Some (sp_groups s !! v.1) /\ 0 < v.2) (sp_parts s)) &&
  bool_decide (sp_groups s !! "default" = None /\ sp_groups s !! "" = None).

Lemma super_okb_ok capacity s : super_okb capacity s = true -> super_ok capacity s.
Proof.
  unfold super_okb. rewrite !andb_true_iff, !bool_decide_eq_true. intros [[H1 H2] H3]. split; [done| |done].
  intros p g n Hp. exact (H2 p (g, n) Hp).
Qed.

Lemma listed_ok info s names : get_split info "dynamic_partition_list" = Ok names ->
  bool_decide (list_to_set names =@{gset string} dom (sp_parts s)) = true -> listed info s.
Proof.
  intros Hn Hd%bool_decide_eq_true. exists names. split; [done|]. intros p. rewrite <- (elem_of_dom (sp_parts s)), <- Hd. by rewrite elem_of_list_to_set.
Qed.

Definition ex_difference : result Difference := new_Difference ex_target_info ex_diffs [] (Some ex_source_info).

Lemma dynamic_partitions_reach_target_witness : exists d, ex_difference = Ok d /\
  List.filter (fun o => match o with Comment _ => false | _ => true end) (df_op_list d) =
    [Remove "odm"; Move "system" "default"; Resize "vendor" 8192; ResizeGroup "main" 20480; AddGroup "extra" 32768;
     Add "product" "main"; Resize "system" 24576; Resize "product" 12288; Move "system" "extra"] /\
  exec_all 65536 ex_S (df_op_list d) = Some ex_T /\
  (Forall is_word (od_keys (df_partitions d)) -> Forall is_word (od_keys (df_groups d)) ->
     map parse_line (map op_line (df_op_list d)) = map Some (df_op_list d)) /\
  (forall verify, exists before after,
     WriteScript d verify = before ++ [UpdateDynamicPartitions] ++ after /\
     PackOpList (map op_line (df_op_list d)) ∈ before /\
     NoDup (patched before ++ patched after) /\
     (forall p, p ∈ patched before ++ patched after <-> is_Some (sp_parts ex_T !! p)) /\
     (forall p, p ∈ patched before <->
        exists g n g' n', sp_parts ex_S !! p = Some (g, n) /\ sp_parts ex_T !! p = Some (g', n') /\ n' < n)).
Proof.
  destruct ex_difference as [d|e] eqn:E; [|by vm_compute in E]. exists d. split; [done|].
  split; [vm_compute in E; by injection E as <-|].
  apply (dynamic_partitions_reach_target ex_target_info ex_diffs [] (Some ex_source_info) d 65536 ex_S ex_T ex_S E).
  - by vm_compute.
  - by vm_compute.
  - apply super_okb_ok. by vm_compute.
  - apply super_okb_ok. by vm_compute.
  - apply (listed_ok _ _ ["system"; "vendor"; "product"]); by vm_compute.
  - apply (listed_ok _ _ ["system"; "vendor"; "odm"]); by vm_compute.
  - done.
Defined.
