(* ===== verification/PartitionProps.v ===== *)
(** releasetools/common.py: the build properties of a partition
    ([PartitionBuildProps]) and the recovery fstab ([LoadRecoveryFSTab]).  The
    contents of the target files are a map from entry names to texts; unpacking
    the ramdisk of a boot image, which other programs do, is a parameter. *)

From stdpp Require Export gmap strings.
From S2P Require Export PyStr PyColl.

#[local] Open Scope string_scope.
#[local] Open Scope list_scope.
#[local] Open Scope Z_scope.

(** * More operations on texts *)

(** [s.replace(p, r)] for a text [p] that is not empty: [skip] characters of an
    occurrence are still to be passed over. *)
Fixpoint str_replace_go (p r : string) (skip : nat) (s : string) : string :=
  match s with
  | "" => ""
  | String c s' =>
      match skip with
      | S k => str_replace_go p r k s'
      | O => if starts_with p s then r +:+ str_replace_go p r (String.length p - 1) s'
             else String c (str_replace_go p r 0 s')
      end
  end.
Definition str_replace (p r s : string) : string := str_replace_go p r 0 s.

(** [s.replace(p, r, 1)]. *)
Definition str_replace_once (p r s : string) : string :=
  match split_once p s with Some (a, b) => a +:+ r +:+ b | None => s end.

(** * Dictionaries in files *)

Abbreviation dict := (list (string * string)).

(** Neither empty nor a comment, without the white space around. *)
Definition significant (line : string) : option string :=
  let line := strip line in
  if negb (str_true line) || starts_with "#" line then None else Some line.

Definition LoadDictionaryFromLines (lines : list string) : dict :=
  fold_left (fun d line =>
               match significant line with
               | Some line => match split_once "=" line with Some (name, value) => od_set name value d | None => d end
               | None => d
               end) lines [].

(** [d.update(e)]. *)
Definition od_merge {V} (d e : list (string * V)) : list (string * V) := fold_left (fun d '(k, v) => od_set k v d) e d.

(** * Build properties of a partition *)

(** The entries of the target files; [None] stands for the path "unknown",
    which is neither a zip file nor a directory. *)
Abbreviation InputFile := (option (gmap string string)).

Definition ReadFromInputFile (input : InputFile) (fn : string) : result string :=
  match input with
  | Some files => of_option KeyError (files !! fn)
  | None => Raise ValueError
  end.

Record PartitionBuildProps := mkBuildProps {
  input_file : InputFile;
  partition : string;
  props_allow_override : list string;
  build_props : dict;
  prop_overrides : list string;
  placeholder_values : dict
}.

Definition new_BuildProps (input : InputFile) (name : string) (placeholders : dict) : PartitionBuildProps :=
  mkBuildProps input name
    (map (fun x => "ro.product." +:+ name +:+ x) [".brand"; ".name"; ".device"]) [] [] placeholders.

Definition FromDictionary (name : string) (props : dict) : PartitionBuildProps :=
  let p := new_BuildProps None name [] in
  mkBuildProps (input_file p) (partition p) (props_allow_override p) props (prop_overrides p) (placeholder_values p).

(** The pattern [^/name/.*\.prop$], for a name without special characters. *)
Definition import_path_ok (name path : string) : bool :=
  starts_with ("/" +:+ name +:+ "/") path && ends_with ".prop" (str_drop (String.length name + 2) path).

Definition fill_placeholders (values : dict) (path : string) : string :=
  fold_left (fun path '(prop, value) => str_replace ("${" +:+ prop +:+ "}") value path) values path.

Definition _ImportParser (p : PartitionBuildProps) (line : string) : result dict :=
  match split_ws line with
  | [tok; path] =>
      if negb (String.eqb tok "import") then Raise ValueError
      else if negb (import_path_ok (partition p) path) then Ok []
      else
        let path := fill_placeholders (placeholder_values p) path in
        if contains "$" path then Ok []
        else
          let path := str_replace ("/" +:+ partition p) (str_upper (partition p)) path in
          let! data := ReadFromInputFile (input_file p) path in
          let d := LoadDictionaryFromLines (split_char newline data) in
          Ok (filter (fun kv => kv.1 ∈ props_allow_override p) d)
  | [tok; _; _] => if negb (String.eqb tok "import") then Raise ValueError else Ok []
  | _ => Raise ValueError
  end.

Definition set_props (p : PartitionBuildProps) (props : dict) (overrides : list string) : PartitionBuildProps :=
  mkBuildProps (input_file p) (partition p) (props_allow_override p) props overrides (placeholder_values p).

Definition load_prop_line (p : PartitionBuildProps) (line : string) : result PartitionBuildProps :=
  match significant line with
  | None => Ok p
  | Some line =>
      if starts_with "import" line then
        let! overrides := _ImportParser p line in
        if existsb (fun k => bool_decide (k ∈ prop_overrides p)) (od_keys overrides) then Raise ValueError
        else Ok (set_props p (od_merge (build_props p) overrides) (prop_overrides p ++ od_keys overrides))
      else
        match split_once "=" line with
        | Some (name, value) =>
            if bool_decide (name ∈ prop_overrides p) then Raise ValueError
            else Ok (set_props p (od_set name value (build_props p)) (prop_overrides p))
        | None => Ok p
        end
  end.

Definition _LoadBuildProp (p : PartitionBuildProps) (data : string) : result PartitionBuildProps :=
  foldM load_prop_line p (split_char newline data).

Definition FromBuildPropFile (name content : string) : result PartitionBuildProps :=
  _LoadBuildProp (new_BuildProps None name []) content.

Definition GetProp (p : PartitionBuildProps) (prop : string) : option string := od_get prop (build_props p).

(** ** Reading the file of a partition *)

Inductive RamdiskFormat := LZ4 | GZ.

Definition _ReadPartitionPropFile (input : InputFile) (name : string) : result string :=
  match ReadFromInputFile input (str_upper name +:+ "/etc/build.prop") with
  | Raise KeyError =>
      match ReadFromInputFile input (str_upper name +:+ "/build.prop") with
      | Raise KeyError => Ok ""
      | r => r
      end
  | r => r
  end.

Section boot.

(** The build.prop found in the ramdisk of a boot image, if any. *)
Variable GetBootImageBuildProp : string -> RamdiskFormat -> result (option string).

Definition _ReadBootPropFile (input : InputFile) (name : string) (ramdisk_format : RamdiskFormat) : result string :=
  match ReadFromInputFile input ("IMAGES/" +:+ name +:+ ".img") with
  | Raise KeyError => Ok ""
  | Raise e => Raise e
  | Ok boot_img => let! o := GetBootImageBuildProp boot_img ramdisk_format in Ok (default "" o)
  end.

Definition FromInputFile (input : InputFile) (name : string) (placeholders : dict) (ramdisk_format : RamdiskFormat) :
    result PartitionBuildProps :=
  let! data :=
    if bool_decide (name ∈ ["boot"; "init_boot"]) then _ReadBootPropFile input name ramdisk_format
    else _ReadPartitionPropFile input name in
  _LoadBuildProp (new_BuildProps input name placeholders) data.

End boot.

(** * recovery.fstab *)

Record FstabPartition := mkFstab {
  fs_mount_point : string; fs_type : string; fs_device : string;
  fs_length : Z; fs_context : option string; fs_slotselect : bool
}.

(** The options of the last field: the length and the slot selection. *)
Definition fstab_option (acc : Z * bool) (i : string) : result (Z * bool) :=
  let '(length, slotselect) := acc in
  if starts_with "length=" i then let! n := py_int (str_drop 7 i) in Ok (n, slotselect)
  else if String.eqb i "slotselect" then Ok (length, true)
  else Ok acc.

Definition fstab_context (mount_flags : string) : option string :=
  fold_left (fun context i => if starts_with "context=" i then Some i else context) (split_char "," mount_flags) None.

Definition fstab_line (d : list (string * FstabPartition)) (line : string) : result (list (string * FstabPartition)) :=
  match significant line with
  | None => Ok d
  | Some line =>
      match split_ws line with
      | [src; mount_point; type; mount_flags; options] =>
          if contains "voldmanaged=" options then Ok d
          else
            let! (length, slotselect) := foldM fstab_option (0, false) (split_char "," options) in
            Ok (od_set mount_point (mkFstab mount_point type src length (fstab_context mount_flags) slotselect) d)
      | _ => Raise ValueError
      end
  end.

Definition LoadRecoveryFSTab (input : InputFile) (fstab_version : Z) (path : string) : result (list (string * FstabPartition)) :=
  let! data := match ReadFromInputFile input path with Raise KeyError => Ok "" | r => r end in
  assert! fstab_version =? 2 in
  foldM fstab_line [] (split_char newline data).
