(* ===== verification/BuildInfo.v ===== *)
(** releasetools/common.py: the properties of a build ([BuildInfo]) and the
    info dict of the target files ([LoadInfoDict]); ota_utils.py: the builds a
    device may find itself in at run time ([ComputeRuntimeBuildInfos]). *)

From S2P Require Export PyText PartitionProps.

#[local] Open Scope string_scope.
#[local] Open Scope list_scope.
#[local] Open Scope Z_scope.

(** * [float(text)] *)

(** What [float(text)] reads: a decimal [m * 10^e], an infinity or no number. *)
Inductive float_text := FDecimal (m e : Z) | FInf (negative : bool) | FNan.

(** Digits, possibly none, with their value and number. *)
Definition float_digits (s : string) : option (Z * Z) :=
  match s with
  | "" => Some (0, 0)
  | _ => (fun v => (v, str_len (str_replace "_" "" s))) <$> parse_digits 10 0 false false s
  end.

Definition sign_rest (s : string) : bool * string :=
  match s with
  | String "-" s' => (true, s')
  | String "+" s' => (false, s')
  | _ => (false, s)
  end.

Definition float_exponent (s : string) : option Z :=
  let '(neg, d) := sign_rest s in
  (fun v => if (neg : bool) then - v else v) <$> parse_digits 10 0 false false d.

Definition float_decimal (neg : bool) (s : string) : option float_text :=
  let '(mant, ex) := match split_once "e" s with Some (a, b) => (a, float_exponent b) | None => (s, Some 0) end in
  let '(i, f) := match split_once "." mant with Some (a, b) => (a, b) | None => (mant, "") end in
  if String.eqb (i +:+ f) "" then None
  else match float_digits i, float_digits f, ex with
       | Some (iv, _), Some (fv, n), Some e =>
           let m := iv * 10 ^ n + fv in Some (FDecimal (if neg then - m else m) (e - n))
       | _, _, _ => None
       end.

Definition py_float_text (text : string) : result float_text :=
  let '(neg, s) := sign_rest (str_lower (strip text)) in
  if String.eqb s "inf" || String.eqb s "infinity" then Ok (FInf neg)
  else if String.eqb s "nan" then Ok FNan
  else of_option ValueError (float_decimal neg s).

(** [float(text) < 10]: the decimals from [10 - 2^-50] on are rounded to 10. *)
Definition float_text_lt_10 (x : float_text) : bool :=
  match x with
  | FDecimal m e =>
      if 0 <=? e then m * 10 ^ e * 2 ^ 50 <? 10 * 2 ^ 50 - 1
      else m * 2 ^ 50 <? (10 * 2 ^ 50 - 1) * 10 ^ (- e)
  | FInf negative => negative
  | FNan => false
  end.

(** * Properties of a build *)

Definition PARTITIONS_WITH_CARE_MAP : list string :=
  ["system"; "vendor"; "product"; "system_ext"; "odm"; "vendor_dlkm"; "odm_dlkm"; "system_dlkm"].
Definition PARTITIONS_WITH_BUILD_PROP : list string := PARTITIONS_WITH_CARE_MAP ++ ["boot"; "init_boot"].

(** A value of an info dict. *)
Inductive InfoValue :=
| IStr (s : string)
| IInt (n : Z)
| IList (l : list string)
| IFstab (o : option (list (string * FstabPartition)))
| IProps (p : PartitionBuildProps).
Abbreviation InfoDict := (gmap string InfoValue).

(** [bool(value)]. *)
Definition info_true (v : InfoValue) : bool :=
  match v with
  | IStr s => str_true s
  | IInt n => negb (n =? 0)
  | IList l => bool_decide (l <> [])
  | IFstab (Some l) => negb (Nat.eqb (length l) 0)
  | IFstab None => false
  | IProps _ => true
  end.

(** [info_dict.get(key) == s]. *)
Definition info_is (info : InfoDict) (key s : string) : bool :=
  match info !! key with Some (IStr v) => String.eqb v s | _ => false end.

(** A text of the dictionary, where an operation on texts follows. *)
Definition info_text (info : InfoDict) (key : string) : result (option string) :=
  match info !! key with
  | None | Some (IFstab None) => Ok None
  | Some (IStr v) => Ok (Some v)
  | Some _ => Raise TypeError
  end.

(** [try: m except ExternalError: k]. *)
Definition except_external {A} (m k : result A) : result A :=
  match m with Raise ExternalError => k | r => r end.

(** Neither [None] nor the empty text. *)
Definition text_true (o : option string) : bool := match o with Some s => str_true s | None => false end.

(** What the methods use of a [BuildInfo]; the constructor calls them before
    the other fields exist. *)
Record BuildBase := mkBase {
  bi_info : InfoDict;
  bi_oem_dicts : list dict;
  bi_use_legacy_id : bool;
  bi_oem_props : option string
}.

Definition _RO_PRODUCT_RESOLVE_PROPS : list string :=
  ["ro.product.brand"; "ro.product.device"; "ro.product.manufacturer"; "ro.product.model"; "ro.product.name"].
Definition SOURCE_ORDER_CURRENT : list string := ["product"; "odm"; "vendor"; "system_ext"; "system"].
Definition SOURCE_ORDER_ANDROID_10 : list string := ["product"; "product_services"; "odm"; "vendor"; "system"].
Definition SOURCE_ORDER_LEGACY : list string := [].
Definition _VBMETA_DIGEST_SIZE_USED : nat := 8.

Definition prop_file (partition : option string) : string :=
  match partition with Some p => if str_true p then p +:+ ".build.prop" else "build.prop" | None => "build.prop" end.

Definition _GetRawBuildProp (b : BuildBase) (prop : string) (partition : option string) : result (option string) :=
  match bi_info b !! prop_file partition with
  | None => Ok None
  | Some (IProps p) => Ok (GetProp p prop)
  | Some v => if info_true v then Raise AttributeError else Ok None
  end.

Definition is_resolve_prop (prop : string) : bool := bool_decide (prop ∈ _RO_PRODUCT_RESOLVE_PROPS).

(** The name of a property in the file of a partition. *)
Definition partition_prop (prop partition : string) : string :=
  let prop_partition := if bool_decide (partition ∈ ["boot"; "init_boot"]) then "bootimage" else partition in
  if is_resolve_prop prop then str_replace "ro.product" ("ro.product." +:+ prop_partition) prop
  else str_replace "ro." ("ro." +:+ prop_partition +:+ ".") prop.

Definition GetPartitionBuildProp (b : BuildBase) (prop partition : string) : result string :=
  let! v := _GetRawBuildProp b (partition_prop prop partition) (Some partition) in
  of_option ExternalError v.

Definition _GetRoProductPropsDefaultSourceOrder (b : BuildBase) : result (list string) :=
  let! codename := _GetRawBuildProp b "ro.build.version.codename" None in
  if bool_decide (codename = Some "REL") then
    let! version := _GetRawBuildProp b "ro.build.version.release" None in
    match version with
    | None => Raise TypeError
    | Some v =>
        if String.eqb v "10" then Ok SOURCE_ORDER_ANDROID_10
        else
          let lt_10 := match py_float_text v with Ok x => float_text_lt_10 x | Raise _ => true end in
          Ok (if lt_10 then SOURCE_ORDER_LEGACY else SOURCE_ORDER_CURRENT)
    end
  else Ok SOURCE_ORDER_CURRENT.

(** The first source of the order that has a value for the property. *)
Fixpoint resolve_from (b : BuildBase) (prop : string) (order : list string) : result string :=
  match order with
  | [] => Raise ExternalError
  | source :: rest =>
      let! v := _GetRawBuildProp b (str_replace_once "ro.product" ("ro.product." +:+ source) prop) (Some source) in
      match v with
      | Some s => if str_true s then Ok s else resolve_from b prop rest
      | None => resolve_from b prop rest
      end
  end.

Definition _ResolveRoProductBuildProp (b : BuildBase) (prop : string) : result string :=
  let! v := _GetRawBuildProp b prop None in
  if text_true v then Ok (default "" v)
  else
    let! default_order := _GetRoProductPropsDefaultSourceOrder b in
    let! order_val := _GetRawBuildProp b "ro.product.property_source_order" None in
    let order := if text_true order_val then split_char "," (default "" order_val) else default_order in
    if existsb (fun x => negb (bool_decide (x ∈ default_order))) order then Raise ExternalError
    else resolve_from b prop order.

(** [GetBuildProp] for a property that is neither resolved nor the build id. *)
Definition plain_build_prop (b : BuildBase) (prop : string) : result string :=
  let! v := _GetRawBuildProp b prop None in of_option ExternalError v.

Definition _GetBuildId (b : BuildBase) : result string :=
  let! build_id := _GetRawBuildProp b "ro.build.id" None in
  if text_true build_id then Ok (default "" build_id)
  else
    let! legacy := plain_build_prop b "ro.build.legacy.id" in
    if negb (str_true legacy) then Raise ExternalError
    else if bi_use_legacy_id b then Ok legacy
    else if negb (info_is (bi_info b) "avb_enable" "true") then Raise ExternalError
    else
      let! digest := info_text (bi_info b) "vbmeta_digest" in
      if negb (text_true digest) then Raise ExternalError
      else if Nat.ltb (String.length (default "" digest)) _VBMETA_DIGEST_SIZE_USED then Raise ExternalError
      else Ok (legacy +:+ "." +:+ String.substring 0 _VBMETA_DIGEST_SIZE_USED (default "" digest)).

Definition GetBuildProp (b : BuildBase) (prop : string) : result string :=
  if is_resolve_prop prop then _ResolveRoProductBuildProp b prop
  else if String.eqb prop "ro.build.id" then _GetBuildId b
  else plain_build_prop b prop.

Definition _GetPlatformVersion (b : BuildBase) : result string :=
  let! version_sdk := GetBuildProp b "ro.build.version.sdk" in
  let! sdk := py_int version_sdk in
  if 30 <=? sdk then
    except_external (GetBuildProp b "ro.build.version.release_or_codename") (GetBuildProp b "ro.build.version.release")
  else GetBuildProp b "ro.build.version.release".

Definition _GetPartitionPlatformVersion (b : BuildBase) (partition : string) : result string :=
  except_external (GetPartitionBuildProp b "ro.build.version.release_or_codename" partition)
    (GetPartitionBuildProp b "ro.build.version.release" partition).

Definition GetOemProperty (b : BuildBase) (key : string) : result string :=
  match bi_oem_props b with
  | Some props =>
      if contains key props then
        match bi_oem_dicts b with d :: _ => of_option KeyError (od_get key d) | [] => Raise TypeError end
      else GetBuildProp b key
  | None => GetBuildProp b key
  end.

(** * Fingerprints *)

Definition fingerprint_text (brand name device version id incremental type tags : string) : string :=
  brand +:+ "/" +:+ name +:+ "/" +:+ device +:+ ":" +:+ version +:+ "/" +:+ id +:+ "/" +:+ incremental +:+ ":" +:+ type +:+ "/" +:+ tags.

Definition CalculatePartitionFingerprint (b : BuildBase) (partition : string) : result string :=
  except_external (GetPartitionBuildProp b "ro.build.fingerprint" partition)
    (let! brand := GetPartitionBuildProp b "ro.product.brand" partition in
     let! name := GetPartitionBuildProp b "ro.product.name" partition in
     let! device := GetPartitionBuildProp b "ro.product.device" partition in
     let! version := _GetPartitionPlatformVersion b partition in
     let! id := GetPartitionBuildProp b "ro.build.id" partition in
     let! incremental := GetPartitionBuildProp b "ro.build.version.incremental" partition in
     let! type := GetPartitionBuildProp b "ro.build.type" partition in
     let! tags := GetPartitionBuildProp b "ro.build.tags" partition in
     Ok (fingerprint_text brand name device version id incremental type tags)).

Definition CalculateFingerprint (b : BuildBase) : result string :=
  match bi_oem_props b with
  | None =>
      except_external (GetBuildProp b "ro.build.fingerprint")
        (let! brand := GetBuildProp b "ro.product.brand" in
         let! name := GetBuildProp b "ro.product.name" in
         let! device := GetBuildProp b "ro.product.device" in
         let! version := _GetPlatformVersion b in
         let! id := GetBuildProp b "ro.build.id" in
         let! incremental := GetBuildProp b "ro.build.version.incremental" in
         let! type := GetBuildProp b "ro.build.type" in
         let! tags := GetBuildProp b "ro.build.tags" in
         Ok (fingerprint_text brand name device version id incremental type tags))
  | Some _ =>
      let! brand := GetOemProperty b "ro.product.brand" in
      let! name := GetOemProperty b "ro.product.name" in
      let! device := GetOemProperty b "ro.product.device" in
      let! thumbprint := GetBuildProp b "ro.build.thumbprint" in
      Ok (brand +:+ "/" +:+ name +:+ "/" +:+ device +:+ ":" +:+ thumbprint)
  end.

(** No space and no character beyond ASCII. *)
Definition fingerprint_char (c : ascii) : bool := negb (Ascii.eqb c " ") && (code c <=? 127).
Definition check_fingerprint (fingerprint : string) : result unit :=
  if str_forallb fingerprint_char fingerprint then Ok tt else Raise ValueError.

Definition partition_fingerprint (b : BuildBase) (fps : dict) (partition : string) : result dict :=
  except_external
    (let! fingerprint := CalculatePartitionFingerprint b partition in
     let! _ := check_fingerprint fingerprint in
     Ok (od_set partition fingerprint fps))
    (Ok fps).

(** * The constructor, and what uses its fields *)

Record BuildInfo := mkBuildInfo {
  bi_base : BuildBase;
  is_ab : bool;
  partition_fingerprints : dict;
  device : string;
  fingerprint : string
}.

Definition new_BuildInfo (info : InfoDict) (oem_dicts : list dict) (use_legacy_id : bool) : result BuildInfo :=
  let! oem_props :=
    match oem_dicts with [] => Ok None | _ :: _ => info_text info "oem_fingerprint_properties" end in
  let b := mkBase info oem_dicts use_legacy_id oem_props in
  let! fps := foldM (partition_fingerprint b) [] PARTITIONS_WITH_BUILD_PROP in
  let fps := match od_get "system" fps with Some fp => od_set "system_other" fp fps | None => fps end in
  let! device := GetOemProperty b "ro.product.device" in
  let! fingerprint := CalculateFingerprint b in
  let! _ := check_fingerprint fingerprint in
  Ok (mkBuildInfo b (info_is info "ab_update" "true") fps device fingerprint).

Definition GetPartitionFingerprint (bi : BuildInfo) (partition : string) : option string :=
  od_get partition (partition_fingerprints bi).

(** Commands of the updater script. *)
Inductive OemCommand :=
| Mount (point : string) (options : option string)
| AssertDevice (device : string)
| AssertOemProperty (name : string) (values : list string) (oem_no_mount : bool).

Definition WriteMountOemScript (bi : BuildInfo) : result (list OemCommand) :=
  assert! bool_decide (bi_oem_props (bi_base bi) <> None) in
  let! options := info_text (bi_info (bi_base bi)) "recovery_mount_options" in
  Ok [Mount "/oem" options].

Definition assert_oem_property (bi : BuildInfo) (oem_no_mount : bool) (script : list OemCommand) (prop : string) :
    result (list OemCommand) :=
  match omap (od_get prop) (bi_oem_dicts (bi_base bi)) with
  | [] => Raise ExternalError
  | values => Ok (script ++ [AssertOemProperty prop values oem_no_mount])
  end.

Definition WriteDeviceAssertions (bi : BuildInfo) (oem_no_mount : bool) : result (list OemCommand) :=
  if negb (text_true (bi_oem_props (bi_base bi))) then Ok [AssertDevice (device bi)]
  else match bi_oem_dicts (bi_base bi) with
       | [] => Raise ExternalError
       | _ => foldM (assert_oem_property bi oem_no_mount) [] (split_ws (default "" (bi_oem_props (bi_base bi))))
       end.

(** ** Other properties *)

(** [info_dict.get(key)] as build properties, when it is true. *)
Definition info_props (info : InfoDict) (key : string) : result (option PartitionBuildProps) :=
  match info !! key with
  | None => Ok None
  | Some (IProps p) => Ok (Some p)
  | Some v => if info_true v then Raise AttributeError else Ok None
  end.

(** [system_prop and system_prop.GetProp(prop) == value], as a condition. *)
Definition prop_is (info : InfoDict) (key prop value : string) : result bool :=
  let! o := info_props info key in
  Ok match o with Some p => bool_decide (GetProp p prop = Some value) | None => false end.

Definition is_vabc (bi : BuildInfo) : bool := info_is (bi_info (bi_base bi)) "virtual_ab_compression" "true".
Definition is_android_r (bi : BuildInfo) : result bool :=
  prop_is (bi_info (bi_base bi)) "system.build.prop" "ro.build.version.release" "11".
Definition is_release_key (bi : BuildInfo) : result bool :=
  prop_is (bi_info (bi_base bi)) "build.prop" "ro.build.tags" "release-key".
Definition is_vabc_xor (bi : BuildInfo) : result bool :=
  prop_is (bi_info (bi_base bi)) "vendor.build.prop" "ro.virtual_ab.compression.xor.enabled" "true".
Definition vendor_suppressed_vabc (bi : BuildInfo) : result bool :=
  let! o := info_props (bi_info (bi_base bi)) "vendor.build.prop" in
  Ok match o with
     | Some p => match GetProp p "ro.vendor.build.dont_use_vabc" with Some v => String.eqb (str_lower v) "true" | None => false end
     | None => false
     end.

Definition vendor_api_level (bi : BuildInfo) : result Z :=
  let! o := info_props (bi_info (bi_base bi)) "vendor.build.prop" in
  Ok match o with
     | None => -1
     | Some p =>
         let level prop := match GetProp p prop with
                           | Some v => match py_int v with Ok n => Some n | Raise _ => None end
                           | None => None
                           end in
         match level "ro.board.first_api_level" with
         | Some n => n
         | None => default (-1) (level "ro.product.first_api_level")
         end
     end.

(** * The info dict *)

Definition DoesInputFileContain (input : InputFile) (fn : string) : result bool :=
  match input with
  | Some files => Ok (bool_decide (is_Some (files !! fn)))
  | None => Raise ValueError
  end.

Definition fstab_version (info : InfoDict) : result Z :=
  match info !! "fstab_version" with
  | Some (IInt n) => Ok n
  | Some _ => Raise AssertionError
  | None => Raise KeyError
  end.

(** The table of the recovery in [dir], at its place since Q or before. *)
Definition fstab_in (info : InfoDict) (input : InputFile) (dir : string) : result (option (list (string * FstabPartition))) :=
  let! new_place := DoesInputFileContain input (dir +:+ "/RAMDISK/system/etc/recovery.fstab") in
  let path := if (new_place : bool) then dir +:+ "/RAMDISK/system/etc/recovery.fstab" else dir +:+ "/RAMDISK/etc/recovery.fstab" in
  let! version := fstab_version info in
  let! d := LoadRecoveryFSTab input version path in
  Ok (Some d).

Definition _FindAndLoadRecoveryFstab (info : InfoDict) (input : InputFile) : result (option (list (string * FstabPartition))) :=
  if info_is info "ab_update" "true" && negb (info_is info "allow_non_ab" "true") then Ok None
  else if negb (info_is info "no_recovery" "true") then fstab_in info input "RECOVERY"
  else if info_is info "recovery_as_boot" "true" then fstab_in info input "BOOT"
  else Ok None.

Definition GetRamdiskFormat (info : InfoDict) : RamdiskFormat := if info_is info "lz4_ramdisks" "true" then LZ4 else GZ.

(** [makeint(key)]: [d[key] = int(d[key], 0)]. *)
Definition makeint (info : InfoDict) (key : string) : result InfoDict :=
  match info !! key with
  | None => Ok info
  | Some (IStr s) => let! n := py_int_base 0 s in Ok (<[key := IInt n]> info)
  | Some _ => Raise TypeError
  end.

Definition int_keys : list string :=
  ["recovery_api_version"; "blocksize"; "system_size"; "vendor_size"; "userdata_size"; "cache_size"; "recovery_size"; "fstab_version"].
Definition REPACK_PARTITIONS : list string :=
  ["system"; "vendor"; "system_ext"; "product"; "odm"; "vendor_dlkm"; "odm_dlkm"; "system_dlkm"].

Section input.

(** The ramdisk of a boot image, [sha256(text).hexdigest()], [os.path.exists]. *)
Variable GetBootImageBuildProp : string -> RamdiskFormat -> result (option string).
Variable sha256_hex : string -> string.
Variable path_exists : string -> bool.

(** ** Repacking: files of the output directory become those under META *)

Definition redirect_fc (dir : string) (d : dict) (key : string) : result dict :=
  if ends_with "selinux_fc" key then
    let fc_config := path_join (path_join dir "META") (path_basename (default "" (od_get key d))) in
    assert! path_exists fc_config in Ok (od_set key fc_config d)
  else Ok d.

Definition redirect_base_fs (dir : string) (d : dict) (part_name : string) : dict :=
  let key := part_name +:+ "_base_fs_file" in
  match od_get key d with
  | None => d
  | Some v =>
      let file := path_join (path_join dir "META") (path_basename v) in
      if path_exists file then od_set key file d else od_remove key d
  end.

Definition redirect_file (dir : string) (d : dict) (prop filename : string) : dict :=
  match od_get prop d with
  | None => d
  | Some _ =>
      let file := path_join dir ("META/" +:+ filename) in
      if path_exists file then od_set prop file d else od_remove prop d
  end.

Definition repack_dict (dir : string) (d : dict) : result dict :=
  let! d := foldM (redirect_fc dir) d (od_keys d) in
  let d := od_set "root_dir" (path_join dir "ROOT") d in
  let d := od_set "root_fs_config" (path_join (path_join dir "META") "root_filesystem_config.txt") d in
  let d := fold_left (redirect_base_fs dir) REPACK_PARTITIONS d in
  let d := redirect_file dir d "erofs_default_compress_hints" "erofs_default_compress_hints.txt" in
  Ok (fold_left (fun d part => redirect_file dir d (part +:+ "_erofs_compress_hints") (part +:+ "_erofs_compress_hints.txt"))
        REPACK_PARTITIONS d).

(** ** [LoadInfoDict] *)

Definition boot_images (info : InfoDict) : string :=
  match info !! "boot_images" with Some (IStr s) => s | _ => "boot.img" end.

Definition load_props (input : InputFile) (ramdisk_format : RamdiskFormat) (placeholders : dict) (info : InfoDict) (partition : string) :
    result InfoDict :=
  let! p := FromInputFile GetBootImageBuildProp input partition placeholders ramdisk_format in
  Ok (<[partition +:+ ".build.prop" := IProps p]> info).

Definition set_build_prop (info : InfoDict) : result InfoDict :=
  let! p := of_option KeyError (info !! "system.build.prop") in Ok (<["build.prop" := p]> info).

Definition set_default (key value : string) (info : InfoDict) : InfoDict :=
  match info !! key with Some _ => info | None => <[key := IStr value]> info end.

Definition load_avb (input : InputFile) (info : InfoDict) : result InfoDict :=
  if negb (info_is info "avb_enable" "true") then Ok info
  else
    let! bi := new_BuildInfo info [] true in
    let info := if str_true (fingerprint bi) then
                  set_default "avb_salt" (sha256_hex (fingerprint bi)) (set_default "fingerprint" (fingerprint bi) info)
                else info in
    match ReadFromInputFile input "META/vbmeta_digest.txt" with
    | Ok s => Ok (<["vbmeta_digest" := IStr (rstrip s)]> info)
    | Raise KeyError => Ok info
    | Raise e => Raise e
    end.

(** [repacking]: the directory of the files, when they are to be repacked. *)
Definition LoadInfoDict (input : InputFile) (repacking : option string) : result InfoDict :=
  let! misc_info := match ReadFromInputFile input "META/misc_info.txt" with Raise KeyError => Raise ValueError | r => r end in
  let d := LoadDictionaryFromLines (split_char newline misc_info) in
  if negb (od_mem "recovery_api_version" d) then Raise ValueError
  else if negb (od_mem "fstab_version" d) then Raise ValueError
  else
    let! d := match repacking with Some dir => repack_dict dir d | None => Ok d end in
    let info : InfoDict := list_to_map (map (fun '(k, v) => (k, IStr v)) d) in
    let! info := foldM makeint info int_keys in
    let! info := foldM makeint info (map (str_replace ".img" "_size") (split_ws (boot_images info))) in
    let! fstab := _FindAndLoadRecoveryFstab info input in
    let info := <["fstab" := IFstab fstab]> info in
    let! info := foldM (load_props input (GetRamdiskFormat info) []) info PARTITIONS_WITH_BUILD_PROP in
    let! info := set_build_prop info in
    let! info := load_avb input info in
    match ReadFromInputFile input "META/ab_partitions.txt" with
    | Ok s => Ok (<["ab_partitions" := IList (split_char newline s)]> info)
    | Raise KeyError => Ok info
    | Raise e => Raise e
    end.

(** * Builds at run time *)

(** [itertools.product]. *)
Fixpoint product {A} (value_list : list (list A)) : list (list A) :=
  match value_list with
  | [] => [[]]
  | values :: rest => flat_map (fun v => map (cons v) (product rest)) values
  end.

Definition reload_props (placeholders : dict) (info : InfoDict) (partition : string) : result InfoDict :=
  match info !! (partition +:+ ".build.prop") with
  | None => Raise KeyError
  | Some (IProps p) => load_props (input_file p) (GetRamdiskFormat info) placeholders info partition
  | Some _ => Raise AttributeError
  end.

Definition runtime_build_info (default_build_info : BuildInfo) (placeholders : dict) : result BuildInfo :=
  let! info := foldM (reload_props placeholders) (bi_info (bi_base default_build_info)) PARTITIONS_WITH_BUILD_PROP in
  let! info := set_build_prop info in
  new_BuildInfo info (bi_oem_dicts (bi_base default_build_info)) false.

(** The builds are objects without an equality of their own, so the set has one
    element for each of them. *)
Definition ComputeRuntimeBuildInfos (default_build_info : BuildInfo) (boot_variable_values : list (string * list string)) :
    result (list BuildInfo) :=
  match boot_variable_values with
  | [] => Ok [default_build_info]
  | _ =>
      let keys := map fst boot_variable_values in
      let combinations := map (zip keys) (product (map snd boot_variable_values)) in
      let! infos := mapM (runtime_build_info default_build_info) combinations in
      Ok (default_build_info :: infos)
  end.

Definition CalculateRuntimeDevicesAndFingerprints (default_build_info : BuildInfo)
    (boot_variable_values : list (string * list string)) : result (gset string * gset string) :=
  let! infos := ComputeRuntimeBuildInfos default_build_info boot_variable_values in
  Ok (list_to_set (map device infos), list_to_set (map fingerprint infos)).

End input.
