(* ===== verification/RuntimeFacts.v ===== *)
(** Facts about the build properties of partitions: a file is a sequence of
    assignments and imports; placeholders change nothing but the brand, name and
    device of a partition, so the builds that a device may be at run time agree on
    everything else. *)

From S2P Require Export BuildInfo.

#[local] Open Scope string_scope.
#[local] Open Scope list_scope.
#[local] Open Scope Z_scope.

(** * Dictionaries *)

Lemma od_keys_NoDup_fold {V A} (f : A -> option (string * V)) l d : NoDup (od_keys d) ->
  NoDup (od_keys (fold_left (fun d x => match f x with Some (k, v) => od_set k v d | None => d end) l d)).
Proof.
  revert d. induction l as [|x l IH]; intros d Hd; [done|]. cbn [fold_left]. apply IH.
  destruct (f x) as [[k v]|]; [by apply od_keys_set_NoDup | done].
Qed.

Lemma LoadDictionary_NoDup lines : NoDup (od_keys (LoadDictionaryFromLines lines)).
Proof.
  unfold LoadDictionaryFromLines.
  assert (H := od_keys_NoDup_fold (fun line => match significant line with Some l => split_once "=" l | None => None end) lines []
                 (NoDup_nil_2 (A := string))).
  match goal with |- NoDup (od_keys ?a) => match type of H with NoDup (od_keys ?b) => replace a with b; [done|] end end.
  clear H. generalize (@nil (string * string)). induction lines as [|x l IH]; intros d; [done|]. cbn [fold_left]. rewrite <- IH.
  destruct (significant x); done.
Qed.

Lemma od_keys_filter_NoDup (d : dict) (l : list string) : NoDup (od_keys d) -> NoDup (od_keys (filter (fun kv : string * string => kv.1 ∈ l) d)).
Proof.
  unfold od_keys. induction d as [|[k v] d IH]; intros Hd; [done|]. inversion Hd as [|? ? Hk Hd']; subst.
  rewrite filter_cons. destruct (decide _); [|by apply IH]. cbn [map fst]. constructor; [|by apply IH].
  intros (kv & -> & Hin)%list_elem_of_fmap. apply list_elem_of_filter in Hin as [_ Hin]. apply Hk, list_elem_of_fmap. eauto.
Qed.

Lemma od_get_filter (d : dict) (l : list string) k : od_get k (filter (fun kv : string * string => kv.1 ∈ l) d) = if decide (k ∈ l) then od_get k d else None.
Proof.
  induction d as [|[j v] d IH]; [by destruct (decide _)|]. rewrite filter_cons. cbn [od_get fst].
  destruct (decide (j ∈ l)) as [Hj|Hj]; cbn [od_get].
  - destruct (decide (k = j)) as [->|]; [by destruct (decide (j ∈ l)) | done].
  - rewrite IH. destruct (decide (k ∈ l)); [|done]. by destruct (decide (k = j)) as [->|].
Qed.

(** [d.update(e)] takes what [e] has first. *)
Lemma od_get_merge {V} (e d : list (string * V)) k : NoDup (od_keys e) ->
  od_get k (od_merge d e) = match od_get k e with Some v => Some v | None => od_get k d end.
Proof.
  unfold od_merge. revert d. induction e as [|[j v] e IH]; intros d He; [done|]. cbn [fold_left]. inversion He as [|? ? Hj He']; subst.
  rewrite IH; [|done]. rewrite od_get_set. cbn [od_get]. destruct (decide (k = j)) as [->|]; [|done].
  by rewrite (proj2 (od_get_None j e) Hj).
Qed.

(** * A file as a sequence of events *)

Inductive prop_event := EImport (d : dict) | ESet (name value : string).

Definition line_event (p : PartitionBuildProps) (line : string) : result (option prop_event) :=
  match significant line with
  | None => Ok None
  | Some line =>
      if starts_with "import" line then let! d := _ImportParser p line in Ok (Some (EImport d))
      else Ok ((fun nv => ESet nv.1 nv.2) <$> split_once "=" line)
  end.

Definition file_events (p : PartitionBuildProps) (data : string) : result (list prop_event) :=
  let! l := mapM (line_event p) (split_char newline data) in Ok (omap id l).

Definition event_dict (e : prop_event) : dict := match e with EImport d => d | ESet n v => [(n, v)] end.

(** What the last event about [k] gives it. *)
Definition last_write (k : string) (evs : list prop_event) : option string :=
  fold_left (fun o e => match od_get k (event_dict e) with Some v => Some v | None => o end) evs None.

Definition imported (evs : list prop_event) (k : string) : Prop := exists d, EImport d ∈ evs /\ k ∈ od_keys d.

(** A property is imported, and then imported again or assigned. *)
Definition import_conflict (evs : list prop_event) : Prop :=
  exists before e after k, evs = before ++ e :: after /\ imported before k /\ k ∈ od_keys (event_dict e).

Definition apply_event (p : PartitionBuildProps) (e : prop_event) : result PartitionBuildProps :=
  if existsb (fun k => bool_decide (k ∈ prop_overrides p)) (od_keys (event_dict e)) then Raise ValueError
  else Ok (set_props p (od_merge (build_props p) (event_dict e))
             (prop_overrides p ++ match e with EImport d => od_keys d | ESet _ _ => [] end)).

Lemma load_prop_line_event p line :
  load_prop_line p line = let! o := line_event p line in match o with Some e => apply_event p e | None => Ok p end.
Proof.
  unfold load_prop_line, line_event. destruct (significant line) as [l|]; [|done]. destruct (starts_with "import" l).
  - by destruct (_ImportParser p l).
  - destruct (split_once "=" l) as [[n v]|]; [|done]. unfold apply_event; cbn. rewrite orb_false_r, app_nil_r. done.
Qed.

Lemma line_event_set_props p props ov line : line_event (set_props p props ov) line = line_event p line.
Proof. done. Qed.

Lemma apply_event_shape p e q : apply_event p e = Ok q -> exists props ov, q = set_props p props ov.
Proof. unfold apply_event. intros H. inv_ok. eauto. Qed.

Lemma load_events p0 props ov lines evs : mapM (line_event p0) lines = Ok evs ->
  foldM load_prop_line (set_props p0 props ov) lines = foldM apply_event (set_props p0 props ov) (omap id evs).
Proof.
  revert props ov evs. induction lines as [|line lines IH]; intros props ov evs H; cbn [mapM] in H; inv_ok; [reflexivity|].
  cbn [foldM]. rewrite load_prop_line_event, line_event_set_props.
  match goal with H : line_event p0 line = Ok ?o |- _ => rewrite H; rename o into o1 end.
  destruct o1 as [e|]; cbn [omap list_omap id]; [|by apply IH]. cbn [foldM].
  destruct (apply_event _ e) as [q|] eqn:Eq; [|done].
  apply apply_event_shape in Eq as (props' & ov' & ->). by apply (IH props' ov').
Qed.

(** ** Running the events *)

Lemma last_write_snoc k evs e :
  last_write k (evs ++ [e]) = match od_get k (event_dict e) with Some v => Some v | None => last_write k evs end.
Proof. unfold last_write. by rewrite fold_left_app. Qed.

Lemma imported_snoc evs e k : imported (evs ++ [e]) k <-> imported evs k \/ match e with EImport d => k ∈ od_keys d | ESet _ _ => False end.
Proof.
  unfold imported. split.
  - intros (d & Hd & Hk). apply elem_of_app in Hd as [Hd|Hd]; [left; eauto|]. apply list_elem_of_singleton in Hd as <-. by right.
  - intros [(d & Hd & Hk)|H].
    + exists d. split; [apply elem_of_app; by left | done].
    + destruct e as [d|]; [|done]. exists d. split; [apply elem_of_app; right; by apply list_elem_of_singleton | done].
Qed.

Lemma import_conflict_snoc evs e : import_conflict (evs ++ [e]) <-> import_conflict evs \/ exists k, imported evs k /\ k ∈ od_keys (event_dict e).
Proof.
  split.
  - intros (b & e' & a & k & Heq & Hi & Hk). destruct a as [|x a] using rev_ind.
    + apply app_inj_tail in Heq as [-> ->]. right. eauto.
    + rewrite app_comm_cons, app_assoc in Heq. apply app_inj_tail in Heq as [-> ->]. left. by exists b, e', a, k.
  - intros [(b & e' & a & k & -> & Hi & Hk)|(k & Hi & Hk)].
    + exists b, e', (a ++ [e]), k. by rewrite <- app_assoc.
    + by exists evs, e, [], k.
Qed.

Definition events_ok (evs : list prop_event) : Prop := Forall (fun e => NoDup (od_keys (event_dict e))) evs.

Lemma import_fresh p d : existsb (fun k => bool_decide (k ∈ prop_overrides p)) d = true <-> exists k, k ∈ prop_overrides p /\ k ∈ d.
Proof.
  rewrite existsb_exists. split.
  - intros (k & Hk & Hb). apply bool_decide_eq_true in Hb. exists k. split; [done | by apply list_elem_of_In].
  - intros (k & Hk & Hd). exists k. split; [by apply list_elem_of_In | by apply bool_decide_eq_true].
Qed.

Lemma apply_events_raise p evs ex : foldM apply_event p evs = Raise ex -> ex = ValueError.
Proof.
  revert p. induction evs as [|e evs IH]; intros p H; [done|]. cbn [foldM] in H.
  destruct (apply_event p e) as [q|x] eqn:E; [by apply (IH q)|]. unfold apply_event in E. destruct (existsb _ _); congruence.
Qed.

(** The events that do not import_conflict are carried out in order. *)
Lemma apply_events_ok p0 evs : prop_overrides p0 = [] -> build_props p0 = [] -> events_ok evs -> ~ import_conflict evs ->
  exists p, foldM apply_event p0 evs = Ok p /\ (forall k, GetProp p k = last_write k evs) /\
            (forall k, k ∈ prop_overrides p <-> imported evs k).
Proof.
  intros Ho Hb. induction evs as [|e evs IH] using rev_ind; intros Hok Hc.
  - exists p0. split_and!; [done| |].
    + intros k. unfold GetProp. by rewrite Hb.
    + intros k. rewrite Ho. split; [by intros ?%not_elem_of_nil | by intros (d & ?%not_elem_of_nil & _)].
  - apply Forall_app in Hok as [Hok He]. rewrite Forall_singleton in He.
    destruct IH as (p & Hp & Hget & Hov); [done | intros Hn; apply Hc, import_conflict_snoc; by left |].
    rewrite foldM_app, Hp. cbn [foldM]. unfold apply_event.
    destruct (existsb _ _) eqn:Ex.
    { apply import_fresh in Ex as (k & Hk & Hd). exfalso. apply Hc, import_conflict_snoc. right. exists k. by rewrite <- Hov. }
    eexists. split; [done|]. split; intros k.
    + unfold GetProp. cbn [set_props build_props]. rewrite (od_get_merge _ _ _ He), last_write_snoc, <- Hget. done.
    + cbn [set_props prop_overrides]. rewrite elem_of_app, imported_snoc, Hov. by destruct e; [|rewrite elem_of_nil].
Qed.

Lemma apply_events_conflict p0 evs : prop_overrides p0 = [] -> build_props p0 = [] -> events_ok evs -> import_conflict evs ->
  foldM apply_event p0 evs = Raise ValueError.
Proof.
  intros Ho Hb. induction evs as [|e evs IH] using rev_ind; intros Hok Hc.
  - destruct Hc as (b & e & a & k & Heq & _). by destruct b.
  - apply Forall_app in Hok as [Hok He]. rewrite foldM_app.
    apply import_conflict_snoc in Hc. destruct (foldM apply_event p0 evs) as [p|ex] eqn:Ep.
    + destruct Hc as [Hc|(k & Hi & Hk)]; [by discriminate (IH Hok Hc)|].
      assert (Hn : ~ import_conflict evs) by (intros Hn; by discriminate (IH Hok Hn)).
      destruct (apply_events_ok p0 evs Ho Hb Hok Hn) as (p' & Hp' & _ & Hov). rewrite Ep in Hp'. injection Hp' as <-.
      cbn [foldM]. unfold apply_event. replace (existsb _ _) with true; [done|].
      symmetry. apply import_fresh. exists k. by rewrite Hov.
    + by rewrite (apply_events_raise _ _ _ Ep).
Qed.

(** ** The imports of a file *)

Lemma import_dict p line d : _ImportParser p line = Ok d ->
  NoDup (od_keys d) /\ forall k, k ∈ od_keys d -> k ∈ props_allow_override p.
Proof.
  assert (H0 : NoDup (od_keys (@nil (string * string))) /\ forall k, k ∈ od_keys (@nil (string * string)) -> k ∈ props_allow_override p).
  { split; [constructor | by intros k ?%not_elem_of_nil]. }
  unfold _ImportParser. intros H. destruct (split_ws line) as [|t [|path [|x [|]]]]; try done; repeat case_match; simplify_eq; try exact H0.
  split; [apply od_keys_filter_NoDup, LoadDictionary_NoDup|].
  intros k (kv & -> & Hin)%list_elem_of_fmap. by apply list_elem_of_filter in Hin as [? _].
Qed.

Lemma file_events_ok p data evs : file_events p data = Ok evs ->
  events_ok evs /\ forall d k, EImport d ∈ evs -> k ∈ od_keys d -> k ∈ props_allow_override p.
Proof.
  unfold file_events. intros H. inv_ok. match goal with H : mapM _ _ = Ok ?l |- _ => rename l into os; revert os H end.
  induction (split_char newline data) as [|line lines IH]; intros os H; cbn [mapM] in H; inv_ok.
  { split; [constructor | by intros ? ? ?%not_elem_of_nil]. }
  destruct (IH _ eq_refl) as [Ha Hb].
  match goal with H : line_event p line = Ok ?o |- _ => rename H into Hl; destruct o as [e|]; cbn [omap list_omap id]; [|by split] end.
  assert (He : NoDup (od_keys (event_dict e)) /\ forall d k, EImport d = e -> k ∈ od_keys d -> k ∈ props_allow_override p).
  { unfold line_event in Hl. destruct (significant line) as [l|]; [|done]. destruct (starts_with "import" l).
    - inv_ok. match goal with H : _ImportParser _ _ = Ok _ |- _ => apply import_dict in H as [? Hk] end.
      split; [done | intros d' k [= ->]; apply Hk].
    - destruct (split_once "=" l) as [[n v]|]; cbn in Hl; [|done]. injection Hl as <-. split; [apply NoDup_singleton | done]. }
  destruct He as [He1 He2]. split; [by constructor|]. intros d k [Hd|Hd]%elem_of_cons Hk; [by apply (He2 d) | by apply (Hb d)].
Qed.

Lemma last_write_import evs d k v : ~ import_conflict evs -> events_ok evs -> EImport d ∈ evs -> od_get k d = Some v -> last_write k evs = Some v.
Proof.
  induction evs as [|e evs IH] using rev_ind; intros Hc Hok Hd Hk; [by apply not_elem_of_nil in Hd|].
  apply Forall_app in Hok as [Hok He]. rewrite last_write_snoc. apply elem_of_app in Hd as [Hd|Hd].
  - destruct (od_get k (event_dict e)) as [w|] eqn:Ew.
    + exfalso. apply Hc, import_conflict_snoc. right. exists k. split; [exists d; split; [done|] |]; by eapply od_get_Some_key.
    + apply IH; try done. intros Hn. apply Hc, import_conflict_snoc. by left.
  - apply list_elem_of_singleton in Hd as <-. cbn [event_dict]. by rewrite Hk.
Qed.

(** * Build properties that agree *)

Definition product_props (name : string) : list string := map (fun x => "ro.product." +:+ name +:+ x) [".brand"; ".name"; ".device"].

(** The same, up to the properties that an import may override. *)
Definition agree (p p' : PartitionBuildProps) : Prop :=
  props_allow_override p' = props_allow_override p /\
  forall k, k ∉ props_allow_override p -> GetProp p' k = GetProp p k.

Lemma load_prop_line_allow p line q : load_prop_line p line = Ok q ->
  props_allow_override q = props_allow_override p /\ input_file q = input_file p.
Proof.
  rewrite load_prop_line_event. intros H. destruct (line_event p line) as [[e|]|]; simplify_eq; [|done].
  by apply apply_event_shape in H as (? & ? & ->).
Qed.

Lemma load_prop_line_agree p p' line q q' : agree p p' -> load_prop_line p line = Ok q -> load_prop_line p' line = Ok q' -> agree q q'.
Proof.
  intros [Ha Hg] Hq Hq'. pose proof (load_prop_line_allow _ _ _ Hq) as [Hq1 _]. pose proof (load_prop_line_allow _ _ _ Hq') as [Hq1' _].
  split; [by rewrite Hq1, Hq1'|]. rewrite Hq1. intros k Hk. specialize (Hg k Hk).
  unfold load_prop_line in Hq, Hq'. destruct (significant line) as [l|]; [|by simplify_eq].
  destruct (starts_with "import" l).
  - destruct (_ImportParser p l) as [d|] eqn:Ed; [|done]. destruct (_ImportParser p' l) as [d'|] eqn:Ed'; [|done].
    apply import_dict in Ed as [Hn Hd]. apply import_dict in Ed' as [Hn' Hd'].
    case_match; [done|]. case_match; [done|]. simplify_eq. unfold GetProp. cbn [set_props build_props].
    rewrite !od_get_merge by done.
    rewrite (proj2 (od_get_None k d)) by (intros Hin; by apply Hk, Hd).
    rewrite (proj2 (od_get_None k d')) by (intros Hin; apply Hk; rewrite <- Ha; by apply Hd'). done.
  - destruct (split_once "=" l) as [[n v]|]; [|by simplify_eq].
    case_match; [done|]. case_match; [done|]. simplify_eq. unfold GetProp. cbn [set_props build_props].
    rewrite !od_get_set. by destruct (decide _).
Qed.

Lemma load_lines_agree p p' lines q q' : agree p p' -> foldM load_prop_line p lines = Ok q -> foldM load_prop_line p' lines = Ok q' -> agree q q'.
Proof.
  revert p p'. induction lines as [|l lines IH]; intros p p' Hp Hq Hq'; cbn [foldM] in Hq, Hq'; [by simplify_eq|].
  destruct (load_prop_line p l) as [r|] eqn:Er; [|done]. destruct (load_prop_line p' l) as [r'|] eqn:Er'; [|done].
  by apply (IH r r'); [apply (load_prop_line_agree p p' l) | |].
Qed.

Lemma load_lines_keep p lines q : foldM load_prop_line p lines = Ok q ->
  props_allow_override q = props_allow_override p /\ input_file q = input_file p.
Proof.
  intros H. apply (foldM_ind (fun _ q => props_allow_override q = props_allow_override p /\ input_file q = input_file p)) in H; try done.
  intros ? l ? r r' _ [Ha Hi] Hr. apply load_prop_line_allow in Hr as [-> ->]. by split.
Qed.

Section runtime.
Variable boot_prop : string -> RamdiskFormat -> result (option string).
Variable sha256_hex : string -> string.
Variable path_exists : string -> bool.

Lemma FromInputFile_agree input name ph ph' fmt p p' :
  FromInputFile boot_prop input name ph fmt = Ok p -> FromInputFile boot_prop input name ph' fmt = Ok p' -> agree p p'.
Proof.
  unfold FromInputFile, _LoadBuildProp. intros H H'. destruct (if bool_decide _ then _ else _) as [data|]; [|done].
  by eapply load_lines_agree; [|exact H | exact H'].
Qed.

Lemma FromInputFile_keep input name ph fmt p : FromInputFile boot_prop input name ph fmt = Ok p ->
  props_allow_override p = product_props name /\ input_file p = input.
Proof. unfold FromInputFile, _LoadBuildProp. intros H. destruct (if bool_decide _ then _ else _); [|done]. by apply load_lines_keep in H. Qed.

(** * Info dicts that agree *)

Definition value_agree (o o' : option InfoValue) : Prop :=
  o' = o \/ exists name p p', o = Some (IProps p) /\ o' = Some (IProps p') /\ agree p p' /\ props_allow_override p = product_props name.
Definition info_agree (i i' : InfoDict) : Prop := forall key, value_agree (i !! key) (i' !! key).

(** No import overrides [prop]. *)
Definition stable (prop : string) : Prop := forall name, prop ∉ product_props name.

Lemma info_is_agree i i' key s : info_agree i i' -> info_is i' key s = info_is i key s.
Proof. intros H. unfold info_is. destruct (H key) as [->|(n & p & p' & -> & -> & _)]; done. Qed.

Lemma info_text_agree i i' key : info_agree i i' -> info_text i' key = info_text i key.
Proof. intros H. unfold info_text. destruct (H key) as [->|(n & p & p' & -> & -> & _)]; done. Qed.

Definition base_agree (b b' : BuildBase) : Prop :=
  info_agree (bi_info b) (bi_info b') /\ bi_oem_dicts b' = bi_oem_dicts b /\
  bi_use_legacy_id b' = bi_use_legacy_id b /\ bi_oem_props b' = bi_oem_props b.

Lemma raw_agree b b' prop part : base_agree b b' -> stable prop -> _GetRawBuildProp b' prop part = _GetRawBuildProp b prop part.
Proof.
  intros [H _] Hs. unfold _GetRawBuildProp. destruct (H (prop_file part)) as [->|(n & p & p' & -> & -> & [_ Hg] & Hn)]; [done|].
  rewrite Hg; [done|]. rewrite Hn. apply Hs.
Qed.

Lemma plain_agree b b' prop : base_agree b b' -> stable prop -> plain_build_prop b' prop = plain_build_prop b prop.
Proof. intros H Hs. unfold plain_build_prop. by rewrite (raw_agree b b'). Qed.

Lemma stable_build prop : starts_with "ro.build." prop = true -> stable prop.
Proof. intros H name (x & -> & _)%list_elem_of_fmap. done. Qed.

Lemma build_id_agree b b' : base_agree b b' -> _GetBuildId b' = _GetBuildId b.
Proof.
  intros H. unfold _GetBuildId. rewrite (raw_agree b b' "ro.build.id" None H (stable_build "ro.build.id" eq_refl)).
  rewrite (plain_agree b b' "ro.build.legacy.id" H (stable_build "ro.build.legacy.id" eq_refl)).
  destruct H as (Hi & _ & -> & _). by rewrite (info_is_agree _ _ _ _ Hi), (info_text_agree _ _ _ Hi).
Qed.

Lemma get_agree b b' prop : base_agree b b' -> starts_with "ro.build." prop = true -> GetBuildProp b' prop = GetBuildProp b prop.
Proof.
  intros H Hs. unfold GetBuildProp. replace (is_resolve_prop prop) with false.
  - rewrite (build_id_agree b b' H), (plain_agree b b' _ H (stable_build _ Hs)). done.
  - symmetry. apply bool_decide_eq_false. unfold _RO_PRODUCT_RESOLVE_PROPS. rewrite !elem_of_cons, elem_of_nil. intros Hin.
    repeat destruct Hin as [->|Hin]; try done.
Qed.

Lemma version_agree b b' : base_agree b b' -> _GetPlatformVersion b' = _GetPlatformVersion b.
Proof. intros H. unfold _GetPlatformVersion. by rewrite !(get_agree b b' _ H) by done. Qed.

(** ** Fingerprints *)

(** The device, and what the fingerprint of a build says of it. *)
Definition product_part (b : BuildBase) (fp rest : string) : Prop :=
  exists brand name device, GetOemProperty b "ro.product.brand" = Ok brand /\ GetOemProperty b "ro.product.name" = Ok name /\
    GetOemProperty b "ro.product.device" = Ok device /\ fp = brand +:+ "/" +:+ name +:+ "/" +:+ device +:+ ":" +:+ rest.

(** The fingerprint of a build comes from its file or is put together. *)
Lemma fingerprint_cases b b' fp fp' : base_agree b b' -> CalculateFingerprint b = Ok fp -> CalculateFingerprint b' = Ok fp' ->
  (fp' = fp /\ bi_oem_props b = None /\ GetBuildProp b "ro.build.fingerprint" = Ok fp) \/
  exists rest, product_part b fp rest /\ product_part b' fp' rest.
Proof.
  intros H. pose proof H as (Hi & Hd & Hl & Ho). unfold CalculateFingerprint. rewrite Ho.
  destruct (bi_oem_props b) as [props|] eqn:Eo.
  - rewrite (get_agree b b' "ro.build.thumbprint" H) by done. intros E E'. inv_ok. right.
    eexists. split; unfold product_part; eauto 10.
  - rewrite (get_agree b b' "ro.build.fingerprint" H), (get_agree b b' "ro.build.id" H), (get_agree b b' "ro.build.version.incremental" H),
      (get_agree b b' "ro.build.type" H), (get_agree b b' "ro.build.tags" H), (version_agree b b' H) by done.
    destruct (GetBuildProp b "ro.build.fingerprint") as [f|e] eqn:Ef; cbn [except_external].
    + intros [= ->] [= ->]. by left.
    + destruct e; try done. intros E E'. inv_ok. right. unfold product_part, GetOemProperty, fingerprint_text. rewrite Ho, Eo.
      eexists. split; eauto 10.
Qed.

(** * The info dict of a build *)

Definition props_key (part : string) : string := part +:+ ".build.prop".

Lemma props_key_inj a b : props_key a = props_key b -> a = b.
Proof.
  unfold props_key. revert b. induction a as [|c a IH]; intros [|d b] H; try done.
  - apply (f_equal str_len) in H. rewrite !str_len_app in H. pose proof (str_len_nonneg b). unfold str_len in *. cbn in *. lia.
  - apply (f_equal str_len) in H. rewrite !str_len_app in H. pose proof (str_len_nonneg a). unfold str_len in *. cbn in *. lia.
  - cbn in H. injection H as -> H. f_equal. by apply IH.
Qed.

Lemma props_keys_other key : forallb (fun part => negb (String.eqb (props_key part) key)) PARTITIONS_WITH_BUILD_PROP = true ->
  forall part, part ∈ PARTITIONS_WITH_BUILD_PROP -> props_key part <> key.
Proof.
  intros H part Hin. rewrite forallb_forall in H. specialize (H part (proj1 (list_elem_of_In _ _) Hin)). intros Heq.
  by rewrite <- Heq, String.eqb_refl in H.
Qed.

(** Every partition has the properties of its file. *)
Definition loaded (input : InputFile) (ph : dict) (fmt : RamdiskFormat) (info : InfoDict) (parts : list string) : Prop :=
  forall part, part ∈ parts -> exists p, info !! props_key part = Some (IProps p) /\ FromInputFile boot_prop input part ph fmt = Ok p.

Lemma loaded_insert input ph fmt info parts key v : (forall part, part ∈ parts -> props_key part <> key) ->
  loaded input ph fmt info parts -> loaded input ph fmt (<[key := v]> info) parts.
Proof. intros Hk H part Hp. destruct (H part Hp) as (p & Hl & Hf). exists p. by rewrite lookup_insert_ne by (symmetry; by apply Hk). Qed.

Lemma loaded_fold input ph fmt info info' parts : foldM (load_props boot_prop input fmt ph) info parts = Ok info' -> loaded input ph fmt info' parts.
Proof.
  intros H. apply (foldM_ind (fun pre i => loaded input ph fmt i pre)) in H; [done | by intros part ?%not_elem_of_nil |].
  intros pre part post i i' _ Hi Hstep part' Hin. unfold load_props in Hstep. inv_ok.
  destruct (decide (part' = part)) as [->|Hne]; [eexists; split; [apply lookup_insert_eq | done]|].
  apply elem_of_app in Hin as [Hin|Hin]; [|by apply list_elem_of_singleton in Hin].
  destruct (Hi part' Hin) as (p & Hl & Hf). exists p. rewrite lookup_insert_ne; [done|]. intros Heq. by apply Hne, props_key_inj.
Qed.

Lemma load_props_other input fmt ph info info' parts key : foldM (load_props boot_prop input fmt ph) info parts = Ok info' ->
  (forall part, part ∈ parts -> props_key part <> key) -> info' !! key = info !! key.
Proof.
  intros H Hk. apply (foldM_ind (fun _ i => i !! key = info !! key)) in H; [done..|].
  intros pre part post i i' -> Hi Hstep. unfold load_props in Hstep. inv_ok. rewrite lookup_insert_ne; [done|].
  apply (Hk part). apply elem_of_app. right. apply elem_of_cons. by left.
Qed.

(** What the rest of the code needs of an info dict. *)
Definition info_loaded (input : InputFile) (info : InfoDict) : Prop :=
  loaded input [] (GetRamdiskFormat info) info PARTITIONS_WITH_BUILD_PROP /\ info !! "build.prop" = info !! "system.build.prop".

Lemma info_loaded_insert input info key v :
  forallb (fun k => negb (String.eqb k key)) ("lz4_ramdisks" :: "build.prop" :: map props_key PARTITIONS_WITH_BUILD_PROP) = true ->
  info_loaded input info -> info_loaded input (<[key := v]> info).
Proof.
  intros Hk [Hl Hb]. rewrite forallb_forall in Hk.
  assert (Hne : forall k, k ∈ "lz4_ramdisks" :: "build.prop" :: map props_key PARTITIONS_WITH_BUILD_PROP -> key <> k).
  { intros k Hin ->. specialize (Hk k (proj1 (list_elem_of_In _ _) Hin)). by rewrite String.eqb_refl in Hk. }
  assert (Hf : GetRamdiskFormat (<[key := v]> info) = GetRamdiskFormat info).
  { unfold GetRamdiskFormat, info_is. rewrite lookup_insert_ne; [done|]. apply Hne. by left. }
  split.
  - rewrite Hf. apply loaded_insert; [|done]. intros part Hp Heq. apply (Hne (props_key part)); [|done].
    do 2 right. by apply list_elem_of_fmap_2.
  - rewrite !lookup_insert_ne; [done| |]; apply Hne; [|by right; left]. do 2 right. apply (list_elem_of_fmap_2 props_key _ "system"). by left.
Qed.

Lemma load_avb_loaded input info info' : load_avb sha256_hex input info = Ok info' -> info_loaded input info -> info_loaded input info'.
Proof.
  assert (Hd : forall key v i, forallb (fun k => negb (String.eqb k key)) ("lz4_ramdisks" :: "build.prop" :: map props_key PARTITIONS_WITH_BUILD_PROP) = true ->
                 info_loaded input i -> info_loaded input (set_default key v i)).
  { intros key v i Hk Hi. unfold set_default. destruct (i !! key); [done | by apply info_loaded_insert]. }
  unfold load_avb. intros H Hi. repeat case_match; simplify_eq; try done; try (by apply info_loaded_insert);
    first [apply info_loaded_insert; [done|] | idtac]; do 2 (apply Hd; [done|]); done.
Qed.

Lemma LoadInfoDict_loaded input repacking info : LoadInfoDict boot_prop sha256_hex path_exists input repacking = Ok info -> info_loaded input info.
Proof.
  unfold LoadInfoDict. intros H. destruct (match ReadFromInputFile input "META/misc_info.txt" with Raise KeyError => _ | r => r end); [|done].
  case_match; [done|]. case_match; [done|]. destruct (match repacking with Some _ => _ | None => _ end) as [d|]; [|done].
  destruct (foldM makeint _ int_keys) as [i1|]; [|done]. destruct (foldM makeint i1 _) as [i2|]; [|done].
  destruct (_FindAndLoadRecoveryFstab i2 input) as [fs|]; [|done].
  destruct (foldM (load_props _ _ _ _) _ _) as [i3|] eqn:E3; [|done].
  destruct (set_build_prop i3) as [i4|] eqn:E4; [|done]. destruct (load_avb sha256_hex input i4) as [i5|] eqn:E5; [|done].
  assert (H5 : info_loaded input i5).
  { apply (load_avb_loaded input i4); [done|]. unfold set_build_prop in E4. inv_ok.
    match goal with H : of_option _ _ = Ok ?v |- _ => rename v into sys, H into Es end.
    assert (Hf : GetRamdiskFormat (<["build.prop" := sys]> i3) = GetRamdiskFormat (<["fstab" := IFstab fs]> i2)).
    { unfold GetRamdiskFormat, info_is. rewrite lookup_insert_ne by done.
      rewrite (load_props_other _ _ _ _ _ _ "lz4_ramdisks" E3); [done|]. by apply props_keys_other. }
    split.
    - rewrite Hf. apply loaded_insert; [by apply props_keys_other | by apply loaded_fold in E3].
    - rewrite lookup_insert_eq, lookup_insert_ne by done. by destruct (i3 !! "system.build.prop"); simplify_eq/=. }
  repeat case_match; simplify_eq; [by apply info_loaded_insert | done].
Qed.

(** * Builds at run time *)

Lemma agree_trans p q r : agree p q -> agree q r -> agree p r.
Proof. intros [Ha Hg] [Ha' Hg']. split; [by rewrite Ha'|]. intros k Hk. rewrite Hg', Hg; [done..|]. by rewrite Ha. Qed.

(** The info dict while the properties are loaded again. *)
Definition reloaded (input : InputFile) (ph : dict) (info0 info : InfoDict) (parts : list string) : Prop :=
  info_agree info0 info /\ info !! "build.prop" = info0 !! "build.prop" /\
  (forall part, part ∈ PARTITIONS_WITH_BUILD_PROP -> exists p, info !! props_key part = Some (IProps p) /\ input_file p = input) /\
  loaded input ph (GetRamdiskFormat info0) info parts.

Lemma ramdisk_agree i i' : info_agree i i' -> GetRamdiskFormat i' = GetRamdiskFormat i.
Proof. intros H. unfold GetRamdiskFormat. by rewrite (info_is_agree i i'). Qed.

Lemma reload_step input ph info0 info info' pre part : info_loaded input info0 -> part ∈ PARTITIONS_WITH_BUILD_PROP ->
  reloaded input ph info0 info pre -> reload_props boot_prop ph info part = Ok info' -> reloaded input ph info0 info' (pre ++ [part]).
Proof.
  intros [Hl0 _] Hpart (Ha & Hb & Hin & Hl) Hstep. unfold reload_props in Hstep.
  destruct (Hin part Hpart) as (p & Hp & Hpi). unfold props_key in Hp. rewrite Hp in Hstep. unfold load_props in Hstep. inv_ok.
  rewrite (ramdisk_agree _ _ Ha) in *.
  match goal with H : FromInputFile _ _ _ _ _ = Ok ?x |- _ => rename x into q, H into Eq end.
  destruct (FromInputFile_keep _ _ _ _ _ Eq) as [Hqa Hqi]. split_and!.
  - intros key. destruct (decide (key = props_key part)) as [->|Hk]; [|rewrite lookup_insert_ne by done; apply Ha].
    unfold props_key. rewrite lookup_insert_eq. destruct (Hl0 part Hpart) as (p0 & Hp0 & Hf0). right. exists part, p0, q.
    split_and!; [done..| |by apply FromInputFile_keep in Hf0 as [? _]]. by eapply FromInputFile_agree.
  - rewrite lookup_insert_ne; [done|]. by apply (props_keys_other "build.prop").
  - intros part' Hp'. destruct (decide (part' = part)) as [->|Hne]; [eexists; split; [apply lookup_insert_eq | done]|].
    destruct (Hin part' Hp') as (p' & Hl' & Hi'). exists p'. rewrite lookup_insert_ne; [done|]. intros Heq. by apply Hne, props_key_inj.
  - intros part' Hp'. destruct (decide (part' = part)) as [->|Hne]; [eexists; split; [apply lookup_insert_eq | done]|].
    apply elem_of_app in Hp' as [Hp'|Hp']; [|by apply list_elem_of_singleton in Hp'].
    destruct (Hl part' Hp') as (p' & Hl' & Hi'). exists p'. rewrite lookup_insert_ne; [done|]. intros Heq. by apply Hne, props_key_inj.
Qed.

Lemma reload_all input ph info0 info : info_loaded input info0 ->
  foldM (reload_props boot_prop ph) info0 PARTITIONS_WITH_BUILD_PROP = Ok info -> reloaded input ph info0 info PARTITIONS_WITH_BUILD_PROP.
Proof.
  intros H0 H. apply (foldM_ind (fun pre i => reloaded input ph info0 i pre)) in H; [done| |].
  - split_and!; [by left | done | | by intros part ?%not_elem_of_nil].
    intros part Hp. destruct (proj1 H0 part Hp) as (p & Hl & Hf). exists p. split; [done|]. by apply FromInputFile_keep in Hf as [_ ?].
  - intros pre part post i i' Heq Hi Hstep. apply (reload_step input ph info0 i); [done| |done..].
    rewrite Heq. apply elem_of_app. right. by left.
Qed.

Lemma set_build_prop_agree input ph info0 info info' : info_loaded input info0 -> reloaded input ph info0 info PARTITIONS_WITH_BUILD_PROP ->
  set_build_prop info = Ok info' -> info_agree info0 info' /\ loaded input ph (GetRamdiskFormat info0) info' PARTITIONS_WITH_BUILD_PROP.
Proof.
  intros [_ Hb0] (Ha & Hb & _ & Hl) H. unfold set_build_prop in H. inv_ok.
  match goal with H : of_option _ _ = Ok ?v |- _ => rename v into sys, H into Es end.
  destruct (info !! "system.build.prop") as [s|] eqn:Es'; simplify_eq/=. split.
  - intros key. destruct (decide (key = "build.prop")) as [->|Hk]; [|rewrite lookup_insert_ne by done; apply Ha].
    rewrite lookup_insert_eq, Hb0, <- Es'. apply Ha.
  - apply loaded_insert; [by apply props_keys_other | done].
Qed.

(** What the constructor stores. *)
Lemma new_BuildInfo_base info oem legacy bi : new_BuildInfo info oem legacy = Ok bi ->
  bi_info (bi_base bi) = info /\ bi_oem_dicts (bi_base bi) = oem /\ bi_use_legacy_id (bi_base bi) = legacy /\
  match oem with [] => Ok None | _ :: _ => info_text info "oem_fingerprint_properties" end = Ok (bi_oem_props (bi_base bi)) /\
  CalculateFingerprint (bi_base bi) = Ok (fingerprint bi) /\ GetOemProperty (bi_base bi) "ro.product.device" = Ok (device bi).
Proof.
  unfold new_BuildInfo. intros H. destruct (match oem with [] => _ | _ => _ end) as [o|] eqn:Eo; [|done].
  destruct (foldM _ _ _) as [fps|]; [|done]. destruct (GetOemProperty _ _) as [d|] eqn:Ed; [|done].
  destruct (CalculateFingerprint _) as [fp|] eqn:Ef; [|done]. destruct (check_fingerprint fp); [|done]. by injection H as <-.
Qed.

Lemma runtime_agree input bi ph bi' : info_loaded input (bi_info (bi_base bi)) ->
  (exists legacy, new_BuildInfo (bi_info (bi_base bi)) (bi_oem_dicts (bi_base bi)) legacy = Ok bi) ->
  bi_use_legacy_id (bi_base bi) = false -> runtime_build_info boot_prop bi ph = Ok bi' ->
  base_agree (bi_base bi) (bi_base bi') /\
  loaded input ph (GetRamdiskFormat (bi_info (bi_base bi))) (bi_info (bi_base bi')) PARTITIONS_WITH_BUILD_PROP.
Proof.
  intros Hl [legacy Hn] Hleg H. unfold runtime_build_info in H.
  destruct (foldM _ _ _) as [i|] eqn:Ei; [|done]. destruct (set_build_prop i) as [i'|] eqn:Ei'; [|done].
  apply (reload_all input) in Ei; [|done]. destruct (set_build_prop_agree _ _ _ _ _ Hl Ei Ei') as [Ha Hld].
  apply new_BuildInfo_base in H as (Hi & Ho & Hu & Hp & _). apply new_BuildInfo_base in Hn as (_ & _ & _ & Hp0 & _).
  unfold base_agree. rewrite Hi, Ho, Hu, Hleg. split_and!; try done.
  destruct (bi_oem_dicts (bi_base bi)); [congruence|]. rewrite (info_text_agree _ _ _ Ha) in Hp. congruence.
Qed.

Lemma length_product {A} (ls : list (list A)) : length (product ls) = foldr Nat.mul 1%nat (map length ls).
Proof.
  induction ls as [|l ls IH]; [done|]. cbn [product map foldr]. rewrite <- IH. generalize (product ls). intros r. clear.
  induction l as [|x l IH]; [done|]. cbn [flat_map length]. rewrite length_app, length_map, IH. lia.
Qed.

(** Every choice of a value for each list is a combination. *)
Lemma elem_of_product {A} (ls : list (list A)) c : c ∈ product ls <-> Forall2 (fun v l => v ∈ l) c ls.
Proof.
  revert c. induction ls as [|l ls IH]; intros c; cbn [product].
  - rewrite list_elem_of_singleton. split; [intros ->; constructor | by inversion 1].
  - rewrite list_elem_of_In, in_flat_map. setoid_rewrite in_map_iff. split.
    + intros (v & Hv & c' & <- & Hc). constructor; [by apply list_elem_of_In | by apply IH, list_elem_of_In].
    + inversion 1 as [|v ? c' ? Hv Hc]; subst. exists v. split; [by apply list_elem_of_In|]. exists c'. split; [done|]. by apply list_elem_of_In, IH.
Qed.

End runtime.
