(* ===== verification/BuildInfoProps.v ===== *)
(** Correctness of the build properties of a partition and of a build. *)

From S2P Require Export RuntimeFacts.

#[local] Open Scope string_scope.
#[local] Open Scope list_scope.
#[local] Open Scope Z_scope.

(** * What the constructor guarantees *)

Definition valid_fingerprint (fp : string) : Prop := str_forallb fingerprint_char fp = true.

Lemma check_fingerprint_ok fp u : check_fingerprint fp = Ok u -> valid_fingerprint fp.
Proof. unfold check_fingerprint, valid_fingerprint. by destruct (str_forallb _ fp). Qed.

(** What is recorded for the partitions: a valid fingerprint, computed. *)
Definition recorded (b : BuildBase) (fps : dict) : Prop :=
  forall part fp, od_get part fps = Some fp -> valid_fingerprint fp /\ CalculatePartitionFingerprint b part = Ok fp.

Lemma partition_fingerprint_recorded b fps part fps' : recorded b fps -> partition_fingerprint b fps part = Ok fps' -> recorded b fps'.
Proof.
  intros Hr. unfold partition_fingerprint. destruct (CalculatePartitionFingerprint b part) as [fp|e] eqn:Ec.
  - destruct (check_fingerprint fp) as [u|e] eqn:Ek; cbn [except_external].
    + intros [= <-] p f. rewrite od_get_set. destruct (decide (p = part)) as [->|]; [|by apply Hr].
      intros [= <-]. split; [by eapply check_fingerprint_ok | done].
    + unfold check_fingerprint in Ek. by destruct (str_forallb _ _); simplify_eq/=.
  - cbn [except_external]. destruct e; intros; simplify_eq; try done.
Qed.

Lemma new_BuildInfo_valid info oem legacy bi : new_BuildInfo info oem legacy = Ok bi ->
  valid_fingerprint (fingerprint bi) /\
  forall part fp, GetPartitionFingerprint bi part = Some fp ->
    valid_fingerprint fp /\
    CalculatePartitionFingerprint (bi_base bi) (if String.eqb part "system_other" then "system" else part) = Ok fp.
Proof.
  unfold new_BuildInfo. intros H. destruct (match oem with [] => _ | _ => _ end) as [o|] eqn:Eo; [|done].
  destruct (foldM _ _ _) as [fps|] eqn:Ef; [|done]. destruct (GetOemProperty _ _) as [d|] eqn:Ed; [|done].
  destruct (CalculateFingerprint _) as [fp|] eqn:Ec; [|done]. destruct (check_fingerprint fp) eqn:Ek; [|done]. injection H as <-.
  split; [by eapply check_fingerprint_ok|].
  apply (foldM_ind (fun pre fps => recorded (mkBase info oem legacy o) fps /\ (od_get "system_other" fps = None))) in Ef as [Hr Hno].
  - unfold GetPartitionFingerprint. cbn [partition_fingerprints bi_base]. intros part f.
    destruct (od_get "system" fps) as [sys|] eqn:Es; [rewrite od_get_set|]; destruct (String.eqb_spec part "system_other") as [->|Hne];
      rewrite ?decide_True, ?decide_False by done; try (by apply Hr); try congruence.
    intros [= <-]. by apply Hr.
  - split; [by intros ? ? ?|done].
  - intros pre part post t t' Heq [Hr Hno] Hs. split; [by eapply partition_fingerprint_recorded|].
    unfold partition_fingerprint in Hs. destruct (let! _ := CalculatePartitionFingerprint _ part in _) as [q|e] eqn:Eq; cbn [except_external] in Hs.
    + simplify_eq. inv_ok. rewrite od_get_set, decide_False; [done|]. intros <-.
      assert (Hin : "system_other" ∈ PARTITIONS_WITH_BUILD_PROP) by (rewrite Heq; apply elem_of_app; right; by left).
      by apply (bool_decide_eq_true_2 _) in Hin.
    + destruct e; by simplify_eq.
Qed.

(** * Theorems *)

Section runtime.
Variable boot_prop : string -> RamdiskFormat -> result (option string).
Variable sha256_hex : string -> string.
Variable path_exists : string -> bool.

(** C16: [PartitionBuildProps._LoadBuildProp].  A property file is a sequence of
    assignments and imports; it is refused exactly when a property that an
    import has overridden is imported or assigned again, and otherwise every
    property has the value of the last line about it, the overridden properties
    are the imported ones and keep the value imported, and only the brand, name
    and device of the partition can be overridden. *)
Theorem build_props_loaded input name placeholders data evs :
  let p0 := new_BuildProps input name placeholders in
  file_events p0 data = Ok evs ->
  (import_conflict evs -> _LoadBuildProp p0 data = Raise ValueError) /\
  (~ import_conflict evs -> exists p, _LoadBuildProp p0 data = Ok p /\
     (forall k, GetProp p k = last_write k evs) /\
     (forall k, k ∈ prop_overrides p <-> imported evs k) /\
     forall d k v, EImport d ∈ evs -> od_get k d = Some v -> GetProp p k = Some v /\ k ∈ product_props name).
Proof.
  intros p0 H. pose proof (file_events_ok _ _ _ H) as [Hok Hallow]. unfold file_events in H. inv_ok.
  match goal with H : mapM _ _ = Ok _ |- _ => pose proof (load_events p0 [] [] _ _ H) as Hl end.
  change (set_props p0 [] []) with p0 in Hl. unfold _LoadBuildProp. rewrite Hl. split.
  - by apply apply_events_conflict.
  - intros Hc. destruct (apply_events_ok p0 _ eq_refl eq_refl Hok Hc) as (p & Hp & Hg & Ho). exists p. split_and!; [done..|].
    intros d k v Hd Hk. rewrite Hg. split; [by eapply last_write_import|]. apply (Hallow d); [done | by eapply od_get_Some_key].
Qed.

(** C17: [ComputeRuntimeBuildInfos].  The builds a device may be at run time are
    the default one and one for each choice of the boot variables, with the
    property files read under that choice; all their fingerprints are legal, and
    they differ from the default build in no property but the brands, names and
    devices: the fingerprint is that of the default build, or has the same
    version, build and type after another device. *)
Theorem runtime_builds_vary_in_device input repacking info oem bi vars bis :
  LoadInfoDict boot_prop sha256_hex path_exists input repacking = Ok info ->
  new_BuildInfo info oem false = Ok bi ->
  ComputeRuntimeBuildInfos boot_prop bi vars = Ok bis ->
  (vars <> [] -> length bis = S (foldr Nat.mul 1%nat (map (fun kv => length kv.2) vars)) /\
     forall choice, Forall2 (fun v kv => v ∈ kv.2) choice vars -> exists bi', bi' ∈ bis /\
       loaded boot_prop input (zip (map fst vars) choice) (GetRamdiskFormat info) (bi_info (bi_base bi')) PARTITIONS_WITH_BUILD_PROP) /\
  Forall (fun bi' =>
    valid_fingerprint (fingerprint bi') /\
    (forall part fp, GetPartitionFingerprint bi' part = Some fp -> valid_fingerprint fp) /\
    (forall prop part, stable prop -> _GetRawBuildProp (bi_base bi') prop part = _GetRawBuildProp (bi_base bi) prop part) /\
    ((fingerprint bi' = fingerprint bi /\ GetBuildProp (bi_base bi) "ro.build.fingerprint" = Ok (fingerprint bi)) \/
     exists rest, product_part (bi_base bi) (fingerprint bi) rest /\ product_part (bi_base bi') (fingerprint bi') rest)) bis.
Proof.
  intros Hload Hnew Hrun. apply LoadInfoDict_loaded in Hload.
  pose proof (new_BuildInfo_base _ _ _ _ Hnew) as (Hi & Ho & Hu & _ & Hfp & _).
  assert (Hne : forall ph bi', runtime_build_info boot_prop bi ph = Ok bi' ->
                  base_agree (bi_base bi) (bi_base bi') /\
                  loaded boot_prop input ph (GetRamdiskFormat info) (bi_info (bi_base bi')) PARTITIONS_WITH_BUILD_PROP).
  { intros ph bi' H. rewrite <- Hi. apply runtime_agree; [by rewrite Hi | exists false; by rewrite Hi, Ho | done..]. }
  assert (Hself : base_agree (bi_base bi) (bi_base bi)) by (split_and!; [by left | done..]).
  assert (Hgood : forall bi', (exists i o l, new_BuildInfo i o l = Ok bi') -> base_agree (bi_base bi) (bi_base bi') ->
    valid_fingerprint (fingerprint bi') /\
    (forall part fp, GetPartitionFingerprint bi' part = Some fp -> valid_fingerprint fp) /\
    (forall prop part, stable prop -> _GetRawBuildProp (bi_base bi') prop part = _GetRawBuildProp (bi_base bi) prop part) /\
    ((fingerprint bi' = fingerprint bi /\ GetBuildProp (bi_base bi) "ro.build.fingerprint" = Ok (fingerprint bi)) \/
     exists rest, product_part (bi_base bi) (fingerprint bi) rest /\ product_part (bi_base bi') (fingerprint bi') rest)).
  { intros bi' (i & o & l & Hb) Ha. pose proof (new_BuildInfo_valid _ _ _ _ Hb) as [Hv Hp].
    pose proof (new_BuildInfo_base _ _ _ _ Hb) as (_ & _ & _ & _ & Hfp' & _). split_and!; [done| | |].
    - intros part fp Hg. by destruct (Hp part fp Hg).
    - intros prop part Hs. by apply raw_agree.
    - destruct (fingerprint_cases _ _ _ _ Ha Hfp Hfp') as [(? & _ & ?)|?]; [by left | by right]. }
  unfold ComputeRuntimeBuildInfos in Hrun. destruct vars as [|v vars].
  - injection Hrun as <-. split; [done|]. constructor; [|constructor]. apply Hgood; [by exists info, oem, false | done].
  - inv_ok. match goal with H : mapM _ _ = Ok _ |- _ => rename H into Hm end. apply mapM_Forall2 in Hm.
    split; [intros _; split|].
    + cbn [length]. rewrite <- (Forall2_length _ _ _ Hm), length_map, length_product. do 2 f_equal. by rewrite map_map.
    + intros choice Hc. assert (Hin : zip (map fst (v :: vars)) choice ∈ map (zip (map fst (v :: vars))) (product (map snd (v :: vars)))).
      { apply list_elem_of_fmap_2, elem_of_product, Forall2_fmap_r. done. }
      destruct (Forall2_in_l _ _ _ _ Hm Hin) as (bi' & Hb & Hr). exists bi'. split; [by right | by apply Hne].
    + constructor; [apply Hgood; [eauto | done]|].
      apply Forall_forall. intros bi' Hb. destruct (Forall2_in_r _ _ _ _ Hm Hb) as (ph & _ & Hr).
      apply Hgood; [|by eapply Hne]. unfold runtime_build_info in Hr.
      destruct (foldM _ _ _) as [i|]; [|done]. destruct (set_build_prop i) as [i'|]; [|done]. eauto.
Qed.

End runtime.

(** * Witnesses *)

Definition no_ramdisk (boot_img : string) (fmt : RamdiskFormat) : result (option string) := Ok None.

Definition text_lines (l : list string) : string := str_join "" (map (fun s => s +:+ String newline "") l).

Definition example_files : gmap string string :=
  list_to_map [
    ("META/misc_info.txt", text_lines ["recovery_api_version=3"; "fstab_version=2"; "ab_update=true"]);
    ("SYSTEM/build.prop", text_lines
       ["ro.build.version.sdk=30"; "ro.build.version.release_or_codename=11"; "ro.build.id=RQ1"; "ro.build.version.incremental=77";
        "ro.build.type=user"; "ro.build.tags=release-keys"; "ro.product.manufacturer=acme"]);
    ("PRODUCT/build.prop", text_lines
       ["# sku"; "ro.product.product.brand=acme"; "ro.product.product.name=base"; "ro.product.product.device=dev";
        "import /product/etc/${ro.boot.sku}.prop"]);
    ("PRODUCT/etc/std.prop", text_lines ["ro.product.product.name=std"; "ro.product.product.model=ignored"]);
    ("PRODUCT/etc/pro.prop", text_lines ["ro.product.product.name=pro"; "ro.product.product.device=devpro"])].

Definition example_vars : list (string * list string) := [("ro.boot.sku", ["std"; "pro"])].

Definition ok_or {A} (d : A) (r : result A) : A := match r with Ok a => a | Raise _ => d end.
Lemma ok_or_ok {A} (d : A) (r : result A) : is_ok r = true -> r = Ok (ok_or d r).
Proof. by destruct r. Qed.
Definition example_info : InfoDict := ok_or ∅ (LoadInfoDict no_ramdisk (fun s => s) (fun _ => false) (Some example_files) None).
Definition example_build : result BuildInfo := new_BuildInfo example_info [] false.
Definition no_build : BuildInfo := mkBuildInfo (mkBase ∅ [] false None) false [] "" "".
Definition example_bi : BuildInfo := ok_or no_build example_build.
Definition example_runtime : result (list BuildInfo) := ComputeRuntimeBuildInfos no_ramdisk example_bi example_vars.

Example example_fingerprints : map fingerprint (ok_or [] example_runtime) =
  ["acme/base/dev:11/RQ1/77:user/release-keys"; "acme/std/dev:11/RQ1/77:user/release-keys"; "acme/pro/devpro:11/RQ1/77:user/release-keys"].
Proof. vm_compute. reflexivity. Qed.

Definition example_bis : list BuildInfo := ok_or [] example_runtime.

Definition product_data : string := default "" (example_files !! "PRODUCT/build.prop").
Definition product_pro : PartitionBuildProps := new_BuildProps (Some example_files) "product" [("ro.boot.sku", "pro")].
Definition product_events : list prop_event := ok_or [] (file_events product_pro product_data).

Lemma build_props_loaded_witness :
  file_events product_pro product_data = Ok product_events /\
  exists p, _LoadBuildProp product_pro product_data = Ok p /\ (forall k, GetProp p k = last_write k product_events).
Proof.
  assert (Hev : file_events product_pro product_data = Ok product_events) by (vm_compute; reflexivity).
  split; [exact Hev|].
  destruct (build_props_loaded (Some example_files) "product" [("ro.boot.sku", "pro")] product_data product_events Hev) as [Hbad Hok].
  assert (Hn : ~ import_conflict product_events) by (intros Hc; specialize (Hbad Hc); vm_compute in Hbad; discriminate).
  destruct (Hok Hn) as (p & Hp & Hg & _). exists p. split; assumption.
Defined.

Lemma runtime_builds_vary_in_device_witness :
  new_BuildInfo example_info [] false = Ok example_bi /\
  ComputeRuntimeBuildInfos no_ramdisk example_bi example_vars = Ok example_bis /\ length example_bis = 3%nat.
Proof.
  assert (Hl : LoadInfoDict no_ramdisk (fun s => s) (fun _ => false) (Some example_files) None = Ok example_info)
    by (apply ok_or_ok; vm_compute; reflexivity).
  assert (Hb : new_BuildInfo example_info [] false = Ok example_bi) by (apply ok_or_ok; vm_compute; reflexivity).
  assert (Hr : ComputeRuntimeBuildInfos no_ramdisk example_bi example_vars = Ok example_bis) by (apply ok_or_ok; vm_compute; reflexivity).
  split; [exact Hb|]. split; [exact Hr|].
  destruct (runtime_builds_vary_in_device no_ramdisk (fun s => s) (fun _ => false) (Some example_files) None example_info []
              example_bi example_vars example_bis Hl Hb Hr) as [[Hlen _] _]; [discriminate | exact Hlen].
Defined.

(** * A path of which only the first directory names the partition *)

(** Every occurrence of the partition's name is replaced in an import path, not
    only its mount point: the file that holds the override is not found. *)
Lemma import_path_all_replaced :
  _ImportParser (new_BuildProps (Some (<["VENDOR/etc/vendor_sku.prop" := "ro.product.vendor.name=x"]> example_files)) "vendor" [])
    "import /vendor/etc/vendor_sku.prop" = Raise KeyError.
Proof. vm_compute. reflexivity. Qed.

(** The properties to take from the OEM file are found in a text: a longer name
    in it stands for every name it contains. *)
Lemma oem_property_by_substring b (d : dict) : bi_oem_dicts b = [d] -> bi_oem_props b = Some "ro.product.device_alias" ->
  od_get "ro.product.device" d = None -> GetOemProperty b "ro.product.device" = Raise KeyError.
Proof. intros Hd Hp Hn. unfold GetOemProperty. rewrite Hp, Hd. cbn. by rewrite Hn. Qed.

(** A released build without a version ends in an error that is not handled. *)
Lemma released_without_version : new_BuildInfo
    (<["build.prop" := IProps (FromDictionary "system" [("ro.build.version.codename", "REL"); ("ro.build.fingerprint", "f")])]> ∅) [] false
  = Raise TypeError.
Proof. vm_compute. reflexivity. Qed.
