(* ===== verification/PartitionSizes.v ===== *)
(** releasetools/check_partition_sizes.py: the sizes of the partitions against
    the limits of their groups and of the super partition.  The values of the
    info dict are texts, or integers; the bytes of image files are read through
    a parameter. *)

From stdpp Require Export gmap strings.
From S2P Require Export PyStr SparseImg.

#[local] Open Scope string_scope.
#[local] Open Scope list_scope.
#[local] Open Scope Z_scope.

Inductive SizeValue := SText (s : string) | SNum (n : Z).
Abbreviation size_info := (gmap string SizeValue).

(** [int(value)]. *)
Definition value_int (v : SizeValue) : result Z := match v with SText s => py_int s | SNum n => Ok n end.

(** [value.strip().split()]. *)
Definition value_names (v : SizeValue) : result (list string) :=
  match v with SText s => Ok (split_ws (strip s)) | SNum _ => Raise AttributeError end.

(** [d.get(key) == s] and [key in d]. *)
Definition value_is (d : size_info) (key s : string) : bool :=
  match d !! key with Some (SText t) => String.eqb t s | _ => false end.
Definition has_key (d : size_info) (key : string) : bool := bool_decide (is_Some (d !! key)).
(** [d[key]]. *)
Definition dict_get (d : size_info) (key : string) : result SizeValue := of_option KeyError (d !! key).

(** * Expressions *)

Record Expression := mkExpression { ex_expr : string; ex_value : Z }.

(** A number, or a text that shows how the value comes about. *)
Definition number (n : Z) : Expression := mkExpression (py_str n) n.
Definition sum_of (sizes : list Z) : Expression := mkExpression (str_join "+" (map py_str sizes)) (sumZ sizes).
Definition read_number (v : SizeValue) : result Expression :=
  let! n := value_int v in Ok (mkExpression (match v with SText s => s | SNum n => py_str n end) n).

(** The warnings logged, with the two sides of the comparison. *)
Abbreviation warnings := (list (Expression * Expression)).

Definition CheckLe (a b : Expression) : result unit := if ex_value a <=? ex_value b then Ok tt else Raise RuntimeError.
Definition CheckLe_warn (a b : Expression) : warnings := if ex_value a <=? ex_value b then [] else [(a, b)].
Definition CheckLt (a b : Expression) : result unit := if ex_value a <? ex_value b then Ok tt else Raise RuntimeError.
Definition CheckEq (a b : Expression) : result unit := if ex_value a =? ex_value b then Ok tt else Raise RuntimeError.

(** * Kinds of devices *)

Inductive DeviceType := NoSlots | AB | VAB.
Definition DeviceType_Get (d : size_info) : DeviceType :=
  if negb (value_is d "ab_update" "true") then NoSlots
  else if value_is d "virtual_ab" "true" then VAB else AB.

Inductive Dap := NoDap | DAP.
Definition Dap_Get (d : size_info) : Dap := if value_is d "use_dynamic_partitions" "true" then DAP else NoDap.

(** * The checker *)

Definition group_size_of (g : string) : string := "super_" +:+ g +:+ "_group_size".
Definition partition_list_of (g : string) : string := "super_" +:+ g +:+ "_partition_list".

(** [__init__]: the limits that are not given follow from the size. *)
Definition set_limit (key : string) (limit : Z -> Z) (d : size_info) : result size_info :=
  if has_key d key then Ok d
  else let! v := dict_get d "super_partition_size" in let! n := value_int v in Ok (<[key := SNum (limit n)]> d).

Definition new_SizeChecker (d : size_info) : result size_info :=
  if has_key d "super_partition_size" then
    let! d := set_limit "super_partition_warn_limit" (fun n => n * 95 / 100) d in
    set_limit "super_partition_error_limit" (fun n => n) d
  else Ok d.

Section checker.
Variable read_file : string -> result bytes.
Variable d : size_info.

Definition _ReadSizeOfPartition (name : string) : result Z :=
  match d !! (name +:+ "_image_size") with
  | Some v => value_int v
  | None =>
      let! v := dict_get d (name +:+ "_image") in
      match v with SText path => let! content := read_file path in GetImagePartitionSize content | SNum _ => Raise TypeError end
  end.

Definition _RoundPartitionSize (size : Z) : result Z :=
  match d !! "super_partition_alignment" with
  | None => Ok size
  | Some (SText _) => Raise TypeError
  | Some (SNum alignment) =>
      if alignment =? 0 then Raise ZeroDivisionError else Ok ((size + alignment - 1) / alignment * alignment)
  end.

Definition rounded_size (p : string) : result Z := let! n := _ReadSizeOfPartition p in _RoundPartitionSize n.

Definition _CheckSuperPartitionSize : result unit :=
  let! devices := match d !! "super_block_devices" with Some v => value_names v | None => Ok [] end in
  let! size_list := mapM (fun b => match d !! ("super_" +:+ b +:+ "_device_size") with Some v => value_int v | None => Ok 0 end) devices in
  let! v := dict_get d "super_partition_size" in
  let! super_partition_size := read_number v in
  CheckEq (sum_of size_list) super_partition_size.

Definition opt_check (a : Expression) (limit : option Expression) : result unit :=
  match limit with Some b => CheckLe a b | None => Ok tt end.

Definition _CheckSumOfPartitionSizes (max_size : Expression) (partition_names : list string)
    (warn_size error_size : option Expression) : result warnings :=
  let! partition_size_list := mapM rounded_size partition_names in
  let sum_size := sum_of partition_size_list in
  let! _ := CheckLe sum_size max_size in
  let! _ := opt_check sum_size error_size in
  Ok match warn_size with Some w => CheckLe_warn sum_size w | None => [] end.

Definition _NumDeviceTypesInSuper : result Z :=
  match Dap_Get d with
  | NoDap => Raise RuntimeError
  | DAP => Ok match DeviceType_Get d with AB => 2 | VAB => 1 | NoSlots => 1 end
  end.

(** [int(d[key])], and [Expression(int(d[key]) // num_slots)]. *)
Definition int_of (key : string) : result Z := let! v := dict_get d key in value_int v.
Definition limit_of (key : string) (num_slots : Z) : result Expression :=
  let! n := int_of key in Ok (number (n / num_slots)).
(** [d[key].strip().split()]. *)
Definition names_at (key : string) : result (list string) := let! v := dict_get d key in value_names v.

Definition all_in_super : result (list string) :=
  let! partitions_in_super := names_at "dynamic_partition_list" in
  Ok (partitions_in_super ++
      match DeviceType_Get d with
      | VAB => if has_key d "system_other_image" || has_key d "system_other_image_size" then ["system_other"] else []
      | _ => []
      end).

Definition check_super (num_slots : Z) : result warnings :=
  if has_key d "super_partition_size" && has_key d "dynamic_partition_list" then
    let! max_size := limit_of "super_partition_size" num_slots in
    let! warn_limit := limit_of "super_partition_warn_limit" num_slots in
    let! error_limit := limit_of "super_partition_error_limit" num_slots in
    let! partitions_in_super := all_in_super in
    _CheckSumOfPartitionSizes max_size partitions_in_super (Some warn_limit) (Some error_limit)
  else Ok [].

Definition check_group (log : warnings) (group : string) : result warnings :=
  if has_key d (group_size_of group) && has_key d (partition_list_of group) then
    let! group_size := int_of (group_size_of group) in
    let! names := names_at (partition_list_of group) in
    let! w := _CheckSumOfPartitionSizes (number group_size) names None None in
    Ok (log ++ w)
  else Ok log.

Definition minimal_metadata_size : Z := 1024 * 1024.

Definition group_size_or_0 (group : string) : result Z :=
  match d !! group_size_of group with Some v => value_int v | None => Ok 0 end.

Definition check_group_sum (num_slots : Z) (groups : list string) : result warnings :=
  if has_key d "super_partition_size" then
    let! group_size_list := mapM group_size_or_0 groups in
    let! max_size := limit_of "super_partition_size" num_slots in
    let! _ := CheckLt (sum_of group_size_list) max_size in
    Ok (CheckLe_warn (sum_of (group_size_list ++ [minimal_metadata_size])) max_size)
  else Ok [].

Definition super_groups : result (list string) :=
  match d !! "super_partition_groups" with Some v => value_names v | None => Ok [] end.

Definition _CheckAllPartitionSizes : result warnings :=
  let! num_slots := _NumDeviceTypesInSuper in
  let! w := check_super num_slots in
  let! groups := super_groups in
  let! w := foldM check_group w groups in
  let! w' := check_group_sum num_slots groups in
  Ok (w ++ w').

End checker.

Definition Run := _CheckAllPartitionSizes.

(** [CheckPartitionSizes] of a dictionary. *)
Definition CheckPartitionSizes (read_file : string -> result bytes) (d : size_info) : result warnings :=
  let! d := new_SizeChecker d in Run read_file d.
