(* ===== verification/PartitionSizesProps.v ===== *)
(** What the check of the partition sizes decides. *)

From S2P Require Export PartitionSizes.

#[local] Open Scope string_scope.
#[local] Open Scope list_scope.
#[local] Open Scope Z_scope.

(** * The super partition that a dictionary describes_super *)

Record Group := mkGroup { g_name : string; g_size : option Z; g_names : option (list string) }.

(** The slots that share the partition; its size with the limits for warnings
    and errors; the partitions in it; its groups; the space of a partition. *)
Record SuperPartition := mkSuper {
  sp_slots : Z;
  sp_super : option (Z * Z * Z);
  sp_all : option (list string);
  sp_groups : list Group;
  sp_space : string -> Z
}.

Section decides.
Variable read_file : string -> result bytes.

Definition known {A} (d : size_info) (key : string) (read : result A) (o : option A) : Prop :=
  match o with Some x => has_key d key = true /\ read = Ok x | None => has_key d key = false end.

Definition space_known (d : size_info) (sp : SuperPartition) (names : list string) : Prop :=
  forall p, p ∈ names -> rounded_size read_file d p = Ok (sp_space sp p).

Definition group_known (d : size_info) (sp : SuperPartition) (g : Group) : Prop :=
  known d (group_size_of (g_name g)) (int_of d (group_size_of (g_name g))) (g_size g) /\
  known d (partition_list_of (g_name g)) (names_at d (partition_list_of (g_name g))) (g_names g) /\
  space_known d sp (default [] (g_names g)).

Record describes_super (d : size_info) (sp : SuperPartition) : Prop := {
  de_slots : _NumDeviceTypesInSuper d = Ok (sp_slots sp);
  de_super : known d "super_partition_size" (int_of d "super_partition_size") ((fun x => x.1.1) <$> sp_super sp);
  de_warn : from_option (fun x => int_of d "super_partition_warn_limit" = Ok x.1.2) True (sp_super sp);
  de_error : from_option (fun x => int_of d "super_partition_error_limit" = Ok x.2) True (sp_super sp);
  de_all : known d "dynamic_partition_list" (all_in_super d) (sp_all sp);
  de_space : space_known d sp (default [] (sp_all sp));
  de_groups : super_groups d = Ok (map g_name (sp_groups sp));
  de_group : Forall (group_known d sp) (sp_groups sp)
}.

(** ** What sizes_fit *)

Definition space (sp : SuperPartition) (names : list string) : Z := sumZ (map (sp_space sp) names).

(** All slots with all their partitions. *)
Definition super_fits (sp : SuperPartition) : bool :=
  match sp_super sp, sp_all sp with
  | Some (size, _, error), Some names =>
      (sp_slots sp * space sp names <=? size) && (sp_slots sp * space sp names <=? error)
  | _, _ => true
  end.

Definition group_fits (sp : SuperPartition) (g : Group) : bool :=
  match g_size g, g_names g with Some size, Some names => space sp names <=? size | _, _ => true end.

Definition groups_total (sp : SuperPartition) : Z := sumZ (map (fun g => default 0 (g_size g)) (sp_groups sp)).

(** All slots with all groups, and at least one byte to spare in each. *)
Definition groups_fit (sp : SuperPartition) : bool :=
  match sp_super sp with Some (size, _, _) => sp_slots sp * (groups_total sp + 1) <=? size | None => true end.

Definition sizes_fit (sp : SuperPartition) : bool := super_fits sp && forallb (group_fits sp) (sp_groups sp) && groups_fit sp.

(** Below the limit for warnings, and with room for the metadata. *)
Definition super_quiet (sp : SuperPartition) : bool :=
  match sp_super sp, sp_all sp with
  | Some (_, warn, _), Some names => sp_slots sp * space sp names <=? warn
  | _, _ => true
  end.
Definition groups_quiet (sp : SuperPartition) : bool :=
  match sp_super sp with
  | Some (size, _, _) => sp_slots sp * (groups_total sp + minimal_metadata_size) <=? size
  | None => true
  end.

(** * The checks, one by one *)

Lemma slots_pos d n : _NumDeviceTypesInSuper d = Ok n -> 1 <= n.
Proof. unfold _NumDeviceTypesInSuper. destruct (Dap_Get d); [done|]. intros [= <-]. by destruct (DeviceType_Get d). Qed.

(** A floor of a share is reached when all the shares are. *)
Lemma le_div a b n : 1 <= n -> (a <=? b / n) = (n * a <=? b).
Proof. intros Hn. apply eq_iff_eq_true. rewrite !Z.leb_le. split; intros H; [|by apply Z.div_le_lower_bound; lia]. pose proof (Z.mul_div_le b n). nia. Qed.

Lemma space_read d sp names : space_known d sp names -> mapM (rounded_size read_file d) names = Ok (map (sp_space sp) names).
Proof. intros H. apply mapM_ok. intros p Hp. by apply H. Qed.

Lemma check_super_decides d sp : describes_super d sp ->
  if super_fits sp then exists w, check_super read_file d (sp_slots sp) = Ok w /\ (w = [] <-> super_quiet sp = true)
  else check_super read_file d (sp_slots sp) = Raise RuntimeError.
Proof.
  intros [Hs Hsup Hw He Hall Hsp _ _]. apply slots_pos in Hs. unfold super_fits, super_quiet, check_super, limit_of.
  destruct (sp_super sp) as [[[size warn] error]|]; cbn in Hsup, Hw, He.
  2: { rewrite Hsup. eexists. split; done. }
  destruct (sp_all sp) as [names|]; cbn in Hall, Hsp.
  2: { rewrite Hall, andb_false_r. eexists. split; done. }
  destruct Hsup as [-> ->], Hall as [-> ->]. rewrite Hw, He. cbn [andb]. unfold _CheckSumOfPartitionSizes.
  rewrite (space_read d sp) by done. unfold opt_check, CheckLe, CheckLe_warn, sum_of, number. cbn [ex_value].
  change (sumZ (map (sp_space sp) names)) with (space sp names). rewrite !le_div by done.
  destruct (_ * _ <=? size) eqn:E1, (_ * _ <=? error) eqn:E2; cbn [andb]; try done.
  eexists. split; [done|]. by destruct (_ <=? warn).
Qed.

Lemma check_groups_decides d sp gs w0 : Forall (group_known d sp) gs ->
  if forallb (group_fits sp) gs then foldM (check_group read_file d) w0 (map g_name gs) = Ok w0
  else foldM (check_group read_file d) w0 (map g_name gs) = Raise RuntimeError.
Proof.
  induction gs as [|g gs IH]; intros H; [done|]. inversion H as [|? ? Hg Hgs]; subst. specialize (IH Hgs).
  cbn [forallb map foldM]. assert (Hstep : check_group read_file d w0 (g_name g) = if group_fits sp g then Ok w0 else Raise RuntimeError).
  { destruct Hg as (H1 & H2 & H3). unfold check_group, group_fits.
    destruct (g_size g) as [size|]; cbn [known] in H1; [destruct H1 as [-> ->] | by rewrite H1].
    destruct (g_names g) as [names|]; cbn [known default] in H2, H3; [destruct H2 as [-> ->] | by rewrite H2].
    cbn [andb]. unfold _CheckSumOfPartitionSizes. rewrite (space_read d sp) by done.
    unfold opt_check, CheckLe, sum_of, number. cbn [ex_value]. change (sumZ (map (sp_space sp) names)) with (space sp names).
    destruct (_ <=? size); [by rewrite app_nil_r | done]. }
  rewrite Hstep. by destruct (group_fits sp g).
Qed.

Lemma check_group_sum_decides d sp : describes_super d sp ->
  if groups_fit sp then exists w, check_group_sum d (sp_slots sp) (map g_name (sp_groups sp)) = Ok w /\ (w = [] <-> groups_quiet sp = true)
  else check_group_sum d (sp_slots sp) (map g_name (sp_groups sp)) = Raise RuntimeError.
Proof.
  intros [Hs Hsup _ _ _ _ _ Hg]. apply slots_pos in Hs. unfold groups_fit, groups_quiet, check_group_sum, limit_of.
  destruct (sp_super sp) as [[[size warn] error]|]; cbn in Hsup; [|rewrite Hsup; by eexists].
  destruct Hsup as [-> ->].
  assert (Hm : mapM (group_size_or_0 d) (map g_name (sp_groups sp)) = Ok (map (fun g => default 0 (g_size g)) (sp_groups sp))).
  { induction Hg as [|g gs [H1 _] _ IH]; [done|]. cbn [map mapM]. rewrite IH. unfold group_size_or_0.
    unfold known, int_of, dict_get, has_key in H1. set (key := group_size_of (g_name g)) in *. clearbody key.
    destruct (g_size g) as [n|].
    - destruct H1 as [[v Hv]%bool_decide_eq_true H1]. rewrite Hv in H1 |- *. cbn [of_option] in H1. by rewrite H1.
    - apply bool_decide_eq_false in H1. destruct (d !! key) as [v|]; [by destruct H1; eauto | done]. }
  rewrite Hm. unfold CheckLt, CheckLe_warn, sum_of, number. cbn [ex_value]. rewrite sumZ_app. cbn [sumZ foldr]. rewrite Z.add_0_r.
  change (sumZ (map _ (sp_groups sp))) with (groups_total sp).
  replace (groups_total sp <? size / sp_slots sp) with (groups_total sp + 1 <=? size / sp_slots sp) by (apply eq_iff_eq_true; rewrite Z.leb_le, Z.ltb_lt; lia).
  rewrite !le_div by done. destruct (_ <=? size); [|done]. eexists. split; [done|]. by destruct (_ <=? size).
Qed.

(** * Rounding *)

Lemma rounded_bounds d p n a : _ReadSizeOfPartition read_file d p = Ok n -> d !! "super_partition_alignment" = Some (SNum a) -> 0 < a ->
  exists k, rounded_size read_file d p = Ok (k * a) /\ n <= k * a < n + a.
Proof.
  intros Hn Ha Hp. unfold rounded_size. rewrite Hn. unfold _RoundPartitionSize. rewrite Ha.
  replace (a =? 0) with false by (symmetry; apply Z.eqb_neq; lia). exists ((n + a - 1) / a). split; [done|].
  pose proof (Z.div_mod (n + a - 1) a). pose proof (Z.mod_pos_bound (n + a - 1) a). nia.
Qed.

(** * Theorems *)

(** C18: [CheckPartitionSizes].  Where the sizes can be read, the check passes
    exactly when, for every slot of the device, the partitions fit in the super
    partition and below the error limit, those of each group in the group, and
    the groups in the super partition with a byte to spare; otherwise it raises
    a RuntimeError.  It warns of nothing exactly when the warning limit is kept
    and the metadata has room too.  Sizes are rounded up to the alignment by
    less than one unit. *)
Theorem partition_sizes_decided d0 d sp : new_SizeChecker d0 = Ok d -> describes_super d sp ->
  (if sizes_fit sp
   then exists w, CheckPartitionSizes read_file d0 = Ok w /\ (w = [] <-> super_quiet sp && groups_quiet sp = true)
   else CheckPartitionSizes read_file d0 = Raise RuntimeError) /\
  forall p n a, _ReadSizeOfPartition read_file d p = Ok n -> d !! "super_partition_alignment" = Some (SNum a) -> 0 < a ->
    exists k, rounded_size read_file d p = Ok (k * a) /\ n <= k * a < n + a.
Proof.
  intros H0 H. split; [|intros; by apply rounded_bounds].
  unfold CheckPartitionSizes, Run, _CheckAllPartitionSizes. rewrite H0, (de_slots _ _ H), (de_groups _ _ H). unfold sizes_fit.
  pose proof (check_super_decides d sp H) as H1. destruct (super_fits sp); cbn [andb]; [destruct H1 as (w1 & -> & Hw1) | by rewrite H1].
  pose proof (check_groups_decides d sp (sp_groups sp) w1 (de_group _ _ H)) as H2.
  destruct (forallb (group_fits sp) (sp_groups sp)); cbn [andb]; rewrite H2; [|done].
  pose proof (check_group_sum_decides d sp H) as H3. destruct (groups_fit sp); [destruct H3 as (w3 & -> & Hw3) | by rewrite H3].
  eexists. split; [done|]. rewrite app_nil, andb_true_iff. tauto.
Qed.

(** The alignment that the build writes is a text, and the check of any
    partition ends in a TypeError. *)
Lemma alignment_text_fails d p n s : _ReadSizeOfPartition read_file d p = Ok n ->
  d !! "super_partition_alignment" = Some (SText s) -> rounded_size read_file d p = Raise TypeError.
Proof. intros Hn Ha. unfold rounded_size. rewrite Hn. unfold _RoundPartitionSize. by rewrite Ha. Qed.

End decides.

(** * Witness *)

(** An A/B device with two groups, sizes aligned to 4096 bytes. *)
Definition ab_device : size_info :=
  list_to_map [
    ("use_dynamic_partitions", SText "true"); ("ab_update", SText "true");
    ("super_partition_size", SText "8388608"); ("super_partition_alignment", SNum 4096);
    ("dynamic_partition_list", SText "system vendor"); ("super_partition_groups", SText "main other");
    ("super_main_group_size", SText "3000000"); ("super_main_partition_list", SText "system vendor");
    ("super_other_group_size", SText "100000");
    ("system_image_size", SText "2000001"); ("vendor_image_size", SText "900000")].

Definition no_file (path : string) : result bytes := Raise FileNotFoundError.

Definition ab_super : SuperPartition :=
  mkSuper 2 (Some (8388608, 7969177, 8388608)) (Some ["system"; "vendor"])
    [mkGroup "main" (Some 3000000) (Some ["system"; "vendor"]); mkGroup "other" (Some 100000) None]
    (fun p => if String.eqb p "system" then 2002944 else 901120).

Definition ab_checked : size_info :=
  <["super_partition_error_limit" := SNum 8388608]> (<["super_partition_warn_limit" := SNum 7969177]> ab_device).

Lemma partition_sizes_decided_witness :
  new_SizeChecker ab_device = Ok ab_checked /\ describes_super no_file ab_checked ab_super /\ sizes_fit ab_super = true /\
  CheckPartitionSizes no_file ab_device = Ok [].
Proof.
  assert (H0 : new_SizeChecker ab_device = Ok ab_checked) by (vm_compute; reflexivity).
  assert (Hsp : space_known no_file ab_checked ab_super ["system"; "vendor"]).
  { intros p Hp. apply elem_of_cons in Hp as [->|Hp]; [vm_compute; reflexivity|].
    apply list_elem_of_singleton in Hp as ->. vm_compute. reflexivity. }
  assert (Hd : describes_super no_file ab_checked ab_super).
  { split; try (vm_compute; reflexivity); try (split; vm_compute; reflexivity); [exact Hsp|].
    constructor; [split; [split; vm_compute; reflexivity | split; [split; vm_compute; reflexivity | exact Hsp]]|].
    constructor; [|constructor]. split; [split; vm_compute; reflexivity | split; [vm_compute; reflexivity|]].
    intros p Hp. by apply not_elem_of_nil in Hp. }
  split; [exact H0|]. split; [exact Hd|]. split; [reflexivity|].
  destruct (partition_sizes_decided no_file ab_device ab_checked ab_super H0 Hd) as [H _].
  destruct H as (w & Hw & Hquiet). rewrite Hw. f_equal. apply Hquiet. vm_compute. reflexivity.
Defined.
