(* ===== verification/PropertyFiles.v ===== *)
(** releasetools/ota_utils.py: the property files of an OTA package, texts that
    say where its entries are ([PropertyFiles] and its subclasses, also in
    non_ab_ota.py), and the passes of [FinalizeMetadata] over a package.  A zip
    file is its bytes with the list of its entries, as zipfile reads it;
    deleting, writing and signing entries, which other programs do, are
    parameters. *)

From S2P Require Export PyFile BuildInfo.

#[local] Open Scope string_scope.
#[local] Open Scope list_scope.
#[local] Open Scope Z_scope.

(** * Zip files *)

Record ZipInfo := mkZipInfo { zi_filename : string; zi_header_offset : Z; zi_file_size : Z }.
Record ZipFile := mkZip { zf_data : bytes; zf_infos : list ZipInfo }.

Definition namelist (z : ZipFile) : list string := map zi_filename (zf_infos z).

(** [getinfo]: the last entry of that name. *)
Definition getinfo (z : ZipFile) (name : string) : result ZipInfo :=
  of_option KeyError (List.find (fun i => String.eqb (zi_filename i) name) (rev (zf_infos z))).

Definition sizeFileHeader : Z := 30.

(** The last two fields of [struct.unpack(structFileHeader, data)]: the lengths
    of the name and of the extra fields. *)
Definition unpack_file_header (data : bytes) : result (Z * Z) :=
  if blen data =? sizeFileHeader then Ok (field data 26 2, field data 28 2) else Raise StructError.

Definition GetZipEntryOffset (z : ZipFile) (i : ZipInfo) : result (Z * Z) :=
  let '(data, _) := f_read sizeFileHeader (f_seek (zi_header_offset i) (mkFile (zf_data z) 0)) in
  let! (filename_len, extra_len) := unpack_file_header data in
  Ok (zi_header_offset i + sizeFileHeader + (filename_len + extra_len), zi_file_size i).

(** * Property files *)

Definition METADATA_NAME : string := "META-INF/com/android/metadata".
Definition METADATA_PROTO_NAME : string := "META-INF/com/android/metadata.pb".

Record PropertyFiles := mkPropertyFiles {
  pf_name : string;
  required : list string;
  optional_files : list string;
  _GetPrecomputed : ZipFile -> result (list string)
}.

Definition entry_token (name : string) (offset size : Z) : string := name +:+ ":" +:+ py_str offset +:+ ":" +:+ py_str size.

Definition ComputeEntryOffsetSize (z : ZipFile) (name : string) : result string :=
  let! info := getinfo z name in
  let! (offset, size) := GetZipEntryOffset z info in
  Ok (entry_token (path_basename name) offset size).

(** [' ' * n]. *)
Definition blanks (n : Z) : string := str_join "" (replicate (Z.to_nat n) " ").

Definition present (z : ZipFile) (names : list string) : list string := filter (fun n => n ∈ namelist z) names.

Definition metadata_tokens (z : ZipFile) (reserve_space : bool) : result (list string) :=
  if reserve_space then Ok ["metadata:" +:+ blanks 15; "metadata.pb:" +:+ blanks 15]
  else mapM (ComputeEntryOffsetSize z) (METADATA_NAME :: present z [METADATA_PROTO_NAME]).

Definition GetPropertyFilesString (pf : PropertyFiles) (z : ZipFile) (reserve_space : bool) : result string :=
  let! precomputed := _GetPrecomputed pf z in
  let! tokens := mapM (ComputeEntryOffsetSize z) (required pf ++ present z (optional_files pf)) in
  let! metadata := metadata_tokens z reserve_space in
  Ok (str_join "," (precomputed ++ tokens ++ metadata)).

Definition ComputeString (pf : PropertyFiles) (z : ZipFile) : result string := GetPropertyFilesString pf z true.

Definition Finalize (pf : PropertyFiles) (z : ZipFile) (reserved_length : Z) : result string :=
  let! result := GetPropertyFilesString pf z false in
  if reserved_length <? str_len result then Raise InsufficientSpaceException
  else Ok (result +:+ blanks (reserved_length - str_len result)).

Definition Verify (pf : PropertyFiles) (z : ZipFile) (expected : string) : result unit :=
  let! actual := GetPropertyFilesString pf z false in
  assert! String.eqb actual expected in Ok tt.

(** ** The payload of an A/B update *)

(** A big-endian number. *)
Definition be (b : bytes) : Z := fold_left (fun acc x => acc * 256 + x) b 0.

(** [struct.unpack("!IQQL", data)]. *)
Definition unpack_payload_header (data : bytes) : result (Z * Z * Z * Z) :=
  if blen data =? 24 then Ok (be (py_slice data 0 4), be (py_slice data 4 12), be (py_slice data 12 20), be (py_slice data 20 24))
  else Raise StructError.

Definition CrAU : Z := 0x43724155.

Definition _GetPayloadMetadataOffsetAndSize (z : ZipFile) : result (Z * Z) :=
  let! payload_info := getinfo z "payload.bin" in
  let! (payload_offset, payload_size) := GetZipEntryOffset z payload_info in
  let '(header_bin, _) := f_read 24 (f_seek payload_offset (mkFile (zf_data z) 0)) in
  let! (magic, _, manifest_size, metadata_signature_size) := unpack_payload_header header_bin in
  assert! magic =? CrAU in
  let metadata_total := 24 + manifest_size + metadata_signature_size in
  assert! metadata_total <=? payload_size in
  Ok (payload_offset, metadata_total).

Definition payload_metadata_token (z : ZipFile) : result (list string) :=
  let! (offset, size) := _GetPayloadMetadataOffsetAndSize z in Ok [entry_token "payload_metadata.bin" offset size].

Definition no_precomputed (z : ZipFile) : result (list string) := Ok [].

Definition streaming_required : list string := ["payload.bin"; "payload_properties.txt"].
Definition streaming_optional : list string := ["apex_info.pb"; "care_map.pb"; "care_map.txt"; "compatibility.zip"].

Definition StreamingPropertyFiles : PropertyFiles :=
  mkPropertyFiles "ota-streaming-property-files" streaming_required streaming_optional no_precomputed.
Definition AbOtaPropertyFiles : PropertyFiles :=
  mkPropertyFiles "ota-property-files" streaming_required streaming_optional payload_metadata_token.
Definition NonAbOtaPropertyFiles : PropertyFiles := mkPropertyFiles "ota-property-files" [] [] no_precomputed.

(** * [FinalizeMetadata] *)

Section finalize.

(** Replacing the metadata entries of a package by those of a dictionary of
    property files, and signing a package. *)
Variable replace_metadata : dict -> ZipFile -> ZipFile.
Variable SignOutput : ZipFile -> ZipFile.

(** No signing without a key. *)
Definition sign (no_signing : bool) (z : ZipFile) : ZipFile := if no_signing then z else SignOutput z.

Definition ComputeAllPropertyFiles (no_signing : bool) (pfs : list PropertyFiles) (input : ZipFile) (metadata : dict) :
    result (ZipFile * dict) :=
  let! metadata := foldM (fun m pf => let! s := ComputeString pf input in Ok (od_set (pf_name pf) s m)) metadata pfs in
  Ok (sign no_signing (replace_metadata metadata input), metadata).

Definition FinalizeAllPropertyFiles (pfs : list PropertyFiles) (prelim : ZipFile) (metadata : dict) : result dict :=
  foldM (fun m pf =>
           let! s := Finalize pf prelim (str_len (default "" (od_get (pf_name pf) m))) in
           Ok (od_set (pf_name pf) s m)) metadata pfs.

(** The two passes, done again on the package they gave when the space reserved
    was not enough. *)
Definition compute_and_finalize (no_signing : bool) (pfs : list PropertyFiles) (input : ZipFile) (metadata : dict) :
    result (ZipFile * dict) :=
  let! (prelim, m) := ComputeAllPropertyFiles no_signing pfs input metadata in
  match FinalizeAllPropertyFiles pfs prelim m with
  | Ok m => Ok (prelim, m)
  | Raise InsufficientSpaceException =>
      let! (prelim, m) := ComputeAllPropertyFiles no_signing pfs prelim m in
      let! m := FinalizeAllPropertyFiles pfs prelim m in
      Ok (prelim, m)
  | Raise e => Raise e
  end.

(** The output package and the property files written in it. *)
Definition FinalizeMetadata (no_signing : bool) (pfs : list PropertyFiles) (input : ZipFile) (metadata : dict) :
    result (ZipFile * dict) :=
  let! (prelim, m) := compute_and_finalize no_signing pfs input metadata in
  let output := sign no_signing (replace_metadata m prelim) in
  let! _ := foldM (fun (_ : unit) pf => Verify pf output (strip (default "" (od_get (pf_name pf) m)))) tt pfs in
  Ok (output, m).

End finalize.
