(* ===== verification/PropertyFilesProps.v ===== *)
(** Property files: their tokens read back, what they need of a package is where its
    entries are, and what those of a finished package say. *)

From S2P Require Export PropertyFiles.

#[local] Open Scope string_scope.
#[local] Open Scope list_scope.
#[local] Open Scope Z_scope.

(** * Tokens *)

(** A character that neither ends a field, a token nor the text. *)
Definition token_char (c : ascii) : bool := negb (is_space c) && negb (Ascii.eqb c ":") && negb (Ascii.eqb c ",").
Definition clean (s : string) : bool := str_forallb token_char s.

Definition file_entry := (string * Z * Z)%type.
Definition token (e : file_entry) : string := let '(n, o, s) := e in entry_token n o s.
Definition file_entry_ok (e : file_entry) : Prop := let '(n, o, s) := e in clean n = true /\ 0 <= o /\ 0 <= s.

(** What an updater reads. *)
Definition parse_file_token (s : string) : result file_entry :=
  match split_char ":" s with
  | [n; a; b] => let! o := py_int a in let! s := py_int b in Ok (n, o, s)
  | _ => Raise ValueError
  end.
Definition parse_property_files (s : string) : result (list file_entry) := mapM parse_file_token (split_char "," (strip s)).

Lemma clean_py_str n : 0 <= n -> clean (py_str n) = true.
Proof.
  intros Hn. eapply str_forallb_impl; [|by apply py_str_digits]. intros c. destruct c as [[] [] [] [] [] [] [] []]; by vm_compute.
Qed.

Lemma clean_no_char c s : token_char c = false -> clean s = true -> has_char c s = false.
Proof.
  intros Hc Hs. rewrite has_char_forallb. apply negb_false_iff. eapply str_forallb_impl; [|exact Hs].
  intros d Hd. destruct (Ascii.eqb_spec d c) as [->|]; [congruence | done].
Qed.

Lemma parse_entry_token e : file_entry_ok e -> parse_file_token (token e) = Ok e.
Proof.
  destruct e as [[n o] s]. intros (Hn & Ho & Hs). unfold parse_file_token, token, entry_token.
  change (split_char ":" _) with (split_char ":" (n +:+ String ":" (py_str o +:+ String ":" (py_str s)))).
  rewrite split_char_app by (by apply clean_no_char).
  rewrite split_char_app by (apply clean_no_char; [done | by apply clean_py_str]).
  rewrite split_char_none by (apply clean_no_char; [done | by apply clean_py_str]).
  by rewrite !py_int_str.
Qed.

Definition nospace (s : string) : bool := str_forallb (fun c => negb (is_space c)) s.

Lemma nospace_token e : file_entry_ok e -> nospace (token e) = true /\ has_char "," (token e) = false.
Proof.
  destruct e as [[n o] s]. intros (Hn & Ho & Hs). unfold token, entry_token, nospace.
  assert (Hns : forall t, clean t = true -> str_forallb (fun c => negb (is_space c)) t = true).
  { intros t Ht. eapply str_forallb_impl; [|exact Ht]. intros c Hc. unfold token_char in Hc. by destruct (is_space c). }
  pose proof (clean_py_str o Ho). pose proof (clean_py_str s Hs).
  rewrite !str_forallb_app, !has_char_app, (Hns n), (Hns (py_str o)), (Hns (py_str s)), (clean_no_char "," n),
    (clean_no_char "," (py_str o)), (clean_no_char "," (py_str s)) by done. by split.
Qed.

Lemma nospace_join (l : list string) : Forall (fun s => nospace s = true) l -> nospace (str_join "," l) = true.
Proof.
  induction 1 as [|x l Hx Hl IH]; [done|]. destruct l as [|y l]; [done|].
  change (str_join "," (x :: y :: l)) with (x +:+ "," +:+ str_join "," (y :: l)). unfold nospace in *.
  by rewrite !str_forallb_app, Hx, IH.
Qed.

(** Padding does not matter to a text without white space. *)
Lemma rstrip_blank s : str_forallb is_space s = true -> rstrip s = "".
Proof. induction s as [|c s IH]; simpl; [done|]. intros [-> Hs]%andb_true_iff. by rewrite IH. Qed.

Lemma rstrip_app_nospace s t : str_true s = true -> nospace s = true -> rstrip (s +:+ t) = s +:+ rstrip t.
Proof.
  induction s as [|c s IH]; [done|]. intros _ H. unfold nospace in H. cbn [str_forallb] in H. apply andb_true_iff in H as [Hc Hs].
  change (String c s +:+ t) with (String c (s +:+ t)). cbn [rstrip]. destruct (is_space c); [done|]. cbn [andb].
  destruct s as [|d s]; [done|]. by rewrite IH.
Qed.

Lemma spaces_blank n : str_forallb is_space (blanks n) = true.
Proof. unfold blanks. induction (Z.to_nat n) as [|k IH]; [done|]. cbn [replicate]. rewrite str_concat_cons. exact IH. Qed.

Lemma str_len_spaces n : 0 <= n -> str_len (blanks n) = n.
Proof.
  intros Hn. unfold blanks. rewrite <- (Z2Nat.id n) at 2 by done. induction (Z.to_nat n) as [|k IH]; [done|].
  cbn [replicate]. rewrite str_concat_cons, str_len_app, IH. change (str_len " ") with 1. lia.
Qed.

Lemma strip_padded s n : nospace s = true -> strip (s +:+ blanks n) = s.
Proof.
  intros H. unfold strip. destruct s as [|c s].
  - change ("" +:+ ?t) with t. pose proof (spaces_blank n) as Hb. revert Hb.
    induction (blanks n) as [|c t IH]; [done|]. cbn [str_forallb lstrip]. intros [-> Ht]%andb_true_iff. by apply IH.
  - change (String c s +:+ ?t) with (String c (s +:+ t)). cbn [lstrip]. pose proof H as H'. unfold nospace in H'. cbn [str_forallb] in H'.
    apply andb_true_iff in H' as [Hc _]. destruct (is_space c); [done|].
    change (String c (s +:+ ?t)) with (String c s +:+ t). rewrite rstrip_app_nospace, rstrip_blank by (done || apply spaces_blank).
    apply str_app_nil_r.
Qed.

Lemma parse_joined (es : list file_entry) n : es <> [] -> Forall file_entry_ok es ->
  nospace (str_join "," (map token es)) = true /\ parse_property_files (str_join "," (map token es) +:+ blanks n) = Ok es.
Proof.
  intros Hne Hes. assert (Hns : nospace (str_join "," (map token es)) = true).
  { apply nospace_join, Forall_map. eapply Forall_impl; [exact Hes|]. intros e He. by apply nospace_token. }
  split; [done|]. unfold parse_property_files. rewrite strip_padded by done.
  rewrite split_char_join; [|by destruct es|apply Forall_map; eapply Forall_impl; [exact Hes|]; intros e He; by apply nospace_token].
  clear Hne Hns. induction Hes as [|e es He Hes IH]; [done|]. cbn [map mapM]. by rewrite parse_entry_token, IH.
Qed.

(** * Entries of a package *)

Definition position (z : ZipFile) (name : string) : result (Z * Z) := let! i := getinfo z name in GetZipEntryOffset z i.

Definition zip_ok (z : ZipFile) : Prop :=
  bytes_ok (zf_data z) /\ Forall (fun i => 0 <= zi_header_offset i /\ 0 <= zi_file_size i) (zf_infos z).

Lemma getinfo_in z name i : getinfo z name = Ok i -> i ∈ zf_infos z /\ zi_filename i = name.
Proof.
  unfold getinfo. intros H. destruct (List.find _ _) as [j|] eqn:E; [|done]. injection H as ->.
  apply find_some in E as [Hin Hn]. split; [|by apply String.eqb_eq]. by apply list_elem_of_In, in_rev.
Qed.

Lemma position_nonneg z name o s : zip_ok z -> position z name = Ok (o, s) -> 0 <= o /\ 0 <= s.
Proof.
  intros [Hb Hi] H. unfold position in H. destruct (getinfo z name) as [i|] eqn:E; [|done].
  apply getinfo_in in E as [Hin _]. rewrite Forall_forall in Hi. destruct (Hi i Hin) as [Ho Hs].
  unfold GetZipEntryOffset, unpack_file_header, f_read, f_seek in H. cbn [f_data f_pos] in H.
  destruct (_ =? _); [|done]. injection H as <- <-. split; [|done].
  pose proof (field_nonneg (py_slice (zf_data z) (zi_header_offset i) (zi_header_offset i + sizeFileHeader)) 26 2 (slice_bytes_ok _ _ _ Hb)).
  pose proof (field_nonneg (py_slice (zf_data z) (zi_header_offset i) (zi_header_offset i + sizeFileHeader)) 28 2 (slice_bytes_ok _ _ _ Hb)).
  unfold sizeFileHeader in *. lia.
Qed.

(** A stored entry: its header, name, extra fields and content. *)
Definition stored (z : ZipFile) (name : string) (content : bytes) : Prop :=
  exists i pre header nm extra post, getinfo z name = Ok i /\ zf_data z = pre ++ header ++ nm ++ extra ++ content ++ post /\
    blen pre = zi_header_offset i /\ blen header = sizeFileHeader /\
    field header 26 2 = blen nm /\ field header 28 2 = blen extra /\ zi_file_size i = blen content.

Lemma py_slice_mid {A} (a b c : list A) : py_slice (a ++ b ++ c) (Z.of_nat (length a)) (Z.of_nat (length a) + Z.of_nat (length b)) = b.
Proof.
  rewrite py_slice_app_r by lia. unfold py_slice. rewrite Z.sub_diag, Z.add_simpl_l. cbn. rewrite drop_0.
  replace (Z.to_nat _) with (length b) by lia. by rewrite take_app_length.
Qed.

(** The position of a stored entry delimits its content. *)
Lemma stored_position z name content : stored z name content ->
  exists o, position z name = Ok (o, blen content) /\ py_slice (zf_data z) o (o + blen content) = content.
Proof.
  intros (i & pre & header & nm & extra & post & Hi & Hd & Hp & Hh & Hn & He & Hs). unfold position. rewrite Hi.
  unfold GetZipEntryOffset, f_read, f_seek, unpack_file_header. cbn [f_data f_pos].
  assert (Hsl : py_slice (zf_data z) (zi_header_offset i) (zi_header_offset i + sizeFileHeader) = header).
  { rewrite Hd, <- Hp, <- Hh. apply py_slice_mid. }
  rewrite Hsl, Hh, Z.eqb_refl, Hn, He, Hs. eexists. split; [done|].
  rewrite Hd, !app_assoc. rewrite <- (app_assoc _ content post).
  replace (zi_header_offset i + sizeFileHeader + (blen nm + blen extra)) with (blen (((pre ++ header) ++ nm) ++ extra)) at 1 2.
  - apply py_slice_mid.
  - unfold blen in *. rewrite !length_app. lia.
Qed.

(** * Packages with the same layout *)

Definition is_metadata (name : string) : bool := String.eqb name METADATA_NAME || String.eqb name METADATA_PROTO_NAME.

(** The same entries at the same positions, with the same content but for the
    metadata. *)
Definition same_layout (z z' : ZipFile) : Prop :=
  (forall name, name ∈ namelist z' <-> name ∈ namelist z) /\
  (forall name, position z' name = position z name) /\
  (forall name o s, is_metadata name = false -> position z name = Ok (o, s) ->
     py_slice (zf_data z') o (o + s) = py_slice (zf_data z) o (o + s)).

Lemma slice_prefix (d d' : bytes) o n s : 0 <= o -> 0 <= n <= s -> py_slice d' o (o + s) = py_slice d o (o + s) ->
  py_slice d' o (o + n) = py_slice d o (o + n).
Proof.
  intros Ho Hn H. unfold py_slice in *. apply (f_equal (take (Z.to_nat n))) in H. rewrite !take_take in H.
  replace (Z.to_nat n `min` Z.to_nat (o + s - o))%nat with (Z.to_nat (o + n - o)) in H by lia. exact H.
Qed.

(** * What the three kinds of property files have in common *)

Class StandardFiles (pf : PropertyFiles) : Type := {
  precomputed : ZipFile -> result (list file_entry);
  precomputed_tokens z : _GetPrecomputed pf z = let! es := precomputed z in Ok (map token es);
  precomputed_ok z es : zip_ok z -> precomputed z = Ok es -> Forall file_entry_ok es;
  precomputed_layout z z' es : zip_ok z -> same_layout z z' -> precomputed z = Ok es -> precomputed z' = Ok es;
  names_clean : forallb (fun n => clean (path_basename n)) (required pf ++ optional_files pf) = true
}.

Lemma be_nonneg b : bytes_ok b -> 0 <= be b.
Proof.
  unfold be. intros H. assert (forall acc, 0 <= acc -> 0 <= fold_left (fun acc x => acc * 256 + x) b acc) as Hg; [|by apply Hg].
  induction H as [|x b Hx Hb IH]; intros acc Hacc; [done|]. cbn [fold_left]. apply IH. lia.
Qed.

Lemma payload_metadata_spec z o n : zip_ok z -> _GetPayloadMetadataOffsetAndSize z = Ok (o, n) ->
  exists size, position z "payload.bin" = Ok (o, size) /\ 24 <= n <= size.
Proof.
  intros Hz H. unfold _GetPayloadMetadataOffsetAndSize in H. unfold position. destruct (getinfo z "payload.bin") as [i|]; [|done].
  destruct (GetZipEntryOffset z i) as [[po ps]|]; [|done]. unfold f_read in H. cbn [f_seek f_data f_pos] in H.
  set (h := py_slice (zf_data z) po (po + 24)) in *. unfold unpack_payload_header in H. destruct (blen h =? 24); [|done].
  destruct (_ =? CrAU); [|done]. destruct (_ <=? ps) eqn:E; [|done]. injection H as <- <-. exists ps. split; [done|].
  apply Z.leb_le in E. assert (Hh : bytes_ok h) by (apply slice_bytes_ok, Hz).
  pose proof (be_nonneg _ (slice_bytes_ok h 12 20 Hh)). pose proof (be_nonneg _ (slice_bytes_ok h 20 24 Hh)). lia.
Qed.

#[export] Instance StreamingFiles_standard : StandardFiles StreamingPropertyFiles.
Proof. by refine {| precomputed := fun z => Ok [] |}; try done; intros z es _ [= <-]; constructor. Defined.

#[export] Instance NonAbOtaFiles_standard : StandardFiles NonAbOtaPropertyFiles.
Proof. by refine {| precomputed := fun z => Ok [] |}; try done; intros z es _ [= <-]; constructor. Defined.

Definition payload_metadata_entries (z : ZipFile) : result (list file_entry) :=
  let! (o, n) := _GetPayloadMetadataOffsetAndSize z in Ok [("payload_metadata.bin", o, n)].

Lemma payload_metadata_layout z z' es : zip_ok z -> same_layout z z' ->
  payload_metadata_entries z = Ok es -> payload_metadata_entries z' = Ok es.
Proof.
  intros Hz (_ & Hpos & Hdata) H. unfold payload_metadata_entries in *.
  destruct (_GetPayloadMetadataOffsetAndSize z) as [[o n]|] eqn:E; [|done]. rewrite <- H.
  destruct (payload_metadata_spec z o n Hz E) as (size & Hp & Hn).
  pose proof (position_nonneg _ _ _ _ Hz Hp) as [Ho _]. pose proof (Hdata "payload.bin" o size eq_refl Hp) as Hd.
  pose proof (Hpos "payload.bin") as Hp'. rewrite Hp in Hp'.
  assert (E' : _GetPayloadMetadataOffsetAndSize z' = Ok (o, n)); [|by rewrite E'].
  revert E. unfold _GetPayloadMetadataOffsetAndSize. unfold position in Hp, Hp'.
  destruct (getinfo z "payload.bin") as [i|]; [|done]. destruct (getinfo z' "payload.bin") as [i'|]; [|done].
  rewrite Hp, Hp'. unfold f_read. cbn [f_seek f_data f_pos].
  rewrite (slice_prefix (zf_data z) (zf_data z') o 24 size) by (done || lia). done.
Qed.

#[export] Instance AbOtaFiles_standard : StandardFiles AbOtaPropertyFiles.
Proof.
  refine {| precomputed := payload_metadata_entries |}.
  - intros z. cbn. unfold payload_metadata_token, payload_metadata_entries. by destruct (_GetPayloadMetadataOffsetAndSize z) as [[]|].
  - intros z es Hz H. unfold payload_metadata_entries in H. destruct (_GetPayloadMetadataOffsetAndSize z) as [[o n]|] eqn:E; [|done].
    injection H as <-. destruct (payload_metadata_spec z o n Hz E) as (size & Hp & Hn).
    pose proof (position_nonneg _ _ _ _ Hz Hp). constructor; [|constructor]. split; [done | lia].
  - exact payload_metadata_layout.
  - reflexivity.
Defined.

(** * The entries of a text *)

Definition entry_of (z : ZipFile) (name : string) : result file_entry :=
  let! (o, s) := position z name in Ok (path_basename name, o, s).

Definition file_names (pf : PropertyFiles) (z : ZipFile) : list string :=
  required pf ++ present z (optional_files pf) ++ METADATA_NAME :: present z [METADATA_PROTO_NAME].

Definition all_entries (pf : PropertyFiles) `{StandardFiles pf} (z : ZipFile) : result (list file_entry) :=
  let! pre := precomputed z in let! es := mapM (entry_of z) (file_names pf z) in Ok (pre ++ es).

Lemma mapM_app {A B} (f : A -> result B) l1 l2 : mapM f (l1 ++ l2) = let! a := mapM f l1 in let! b := mapM f l2 in Ok (a ++ b).
Proof.
  induction l1 as [|x l1 IH]; [by cbn; destruct (mapM f l2)|]. cbn [app mapM]. rewrite IH.
  destruct (f x); [|done]. destruct (mapM f l1); [|done]. by destruct (mapM f l2).
Qed.

Lemma tokens_entries z names : mapM (ComputeEntryOffsetSize z) names = let! es := mapM (entry_of z) names in Ok (map token es).
Proof.
  induction names as [|n names IH]; [done|]. cbn [mapM]. rewrite IH. destruct (mapM (entry_of z) names); unfold ComputeEntryOffsetSize, entry_of, position;
    (destruct (getinfo z n) as [i|]; [|done]); by destruct (GetZipEntryOffset z i) as [[o s]|].
Qed.

Lemma string_entries pf `{StandardFiles pf} z :
  GetPropertyFilesString pf z false = let! es := all_entries pf z in Ok (str_join "," (map token es)).
Proof.
  unfold GetPropertyFilesString, all_entries, file_names, metadata_tokens. rewrite precomputed_tokens.
  destruct (precomputed z) as [pre|]; [|done]. rewrite !tokens_entries, (app_assoc (required pf)), (mapM_app _ (required pf ++ _)).
  destruct (mapM _ (required pf ++ _)) as [a|]; [|done]. destruct (mapM _ (METADATA_NAME :: _)) as [b|]; [|done].
  by rewrite !map_app.
Qed.

Lemma entry_of_ok z name e : zip_ok z -> clean (path_basename name) = true -> entry_of z name = Ok e -> file_entry_ok e.
Proof.
  intros Hz Hc H. unfold entry_of in H. destruct (position z name) as [[o s]|] eqn:E; [|done]. injection H as <-.
  by pose proof (position_nonneg _ _ _ _ Hz E).
Qed.

Lemma all_entries_ok pf `{StandardFiles pf} z es : zip_ok z -> all_entries pf z = Ok es -> es <> [] /\ Forall file_entry_ok es.
Proof.
  intros Hz H'. unfold all_entries in H'. destruct (precomputed z) as [pre|] eqn:Ep; [|done].
  destruct (mapM _ _) as [l|] eqn:El; [|done]. injection H' as <-. apply mapM_Forall2 in El. split.
  - apply Forall2_length in El. unfold file_names in El. rewrite !length_app in El. cbn [length] in El.
    destruct pre, l; cbn in *; try done; lia.
  - apply Forall_app. split; [by eapply precomputed_ok|]. apply Forall_forall. intros e He.
    destruct (Forall2_in_r _ _ _ _ El He) as (n & Hn & Hne). eapply entry_of_ok; [done| |exact Hne].
    pose proof (@names_clean pf _) as Hc. rewrite forallb_app, andb_true_iff, !forallb_forall in Hc. destruct Hc as [Hr Ho].
    unfold file_names in Hn. rewrite !elem_of_app, elem_of_cons in Hn. destruct Hn as [Hn|[Hn|[->|Hn]]].
    + by apply Hr, list_elem_of_In.
    + apply list_elem_of_filter in Hn as [_ Hn]. by apply Ho, list_elem_of_In.
    + reflexivity.
    + apply list_elem_of_filter in Hn as [_ Hn]. apply list_elem_of_singleton in Hn as ->. reflexivity.
Qed.

Lemma present_layout z z' names : same_layout z z' -> present z' names = present z names.
Proof. intros [Hn _]. apply list_filter_iff. intros n. apply Hn. Qed.

Lemma all_entries_layout pf `{StandardFiles pf} z z' es : zip_ok z -> same_layout z z' -> all_entries pf z = Ok es -> all_entries pf z' = Ok es.
Proof.
  intros Hz Hl H'. unfold all_entries in *. destruct (precomputed z) as [pre|] eqn:Ep; [|done].
  rewrite (precomputed_layout z z' pre) by done. unfold file_names in *. rewrite !(present_layout z z') by done.
  rewrite <- H'. f_equal. revert H'. generalize (required pf ++ present z (optional_files pf) ++ METADATA_NAME :: present z [METADATA_PROTO_NAME]).
  intros l _. assert (Hm : mapM (entry_of z') l = mapM (entry_of z) l); [|by rewrite Hm].
  destruct Hl as (_ & Hpos & _). induction l as [|n l IH]; [done|]. cbn [mapM]. unfold entry_of at 1 3. by rewrite Hpos, IH.
Qed.

(** ** How long they are *)

Definition joined_len (l : list string) : Z := sumZ (map (fun s => str_len s + 1) l).

Lemma str_len_joined l : l <> [] -> str_len (str_join "," l) = joined_len l - 1.
Proof.
  induction l as [|x l IH]; [done|]. intros _. destruct l as [|y l]; [unfold joined_len; cbn [map sumZ foldr str_join]; lia|].
  change (str_join "," (x :: y :: l)) with (x +:+ "," +:+ str_join "," (y :: l)).
  rewrite !str_len_app, IH by done. change (str_len ",") with 1. unfold joined_len. cbn [map sumZ foldr]. lia.
Qed.

Lemma pretty_N_go_len k x s : (x < 10 ^ N.of_nat k)%N -> (String.length (pretty_N_go x s) <= k + String.length s)%nat.
Proof.
  revert x s. induction k as [|k IH]; intros x s Hx.
  - replace x with 0%N by (cbn in Hx; lia). by rewrite pretty_N_go_0.
  - destruct (decide (x = 0%N)) as [->|Hx0]; [rewrite pretty_N_go_0; lia|]. rewrite pretty_N_go_step by lia.
    etransitivity; [apply IH|cbn [String.length]; lia]. rewrite Nat2N.inj_succ, N.pow_succ_r in Hx by lia.
    by apply N.Div0.div_lt_upper_bound.
Qed.

(** A number below [10^k] has at most [k] digits. *)
Lemma str_len_py_str n k : 0 <= n < 10 ^ k -> 1 <= k -> str_len (py_str n) <= k.
Proof.
  intros Hn Hk. unfold py_str. destruct n as [|p|p]; [cbn; unfold str_len; cbn; lia| |lia].
  change (str_len (pretty_N_go (Npos p) "") <= k). unfold str_len.
  pose proof (pretty_N_go_len (Z.to_nat k) (Npos p) "") as H. cbn [String.length] in H.
  assert (Npos p < 10 ^ N.of_nat (Z.to_nat k))%N; [|lia].
  apply N2Z.inj_lt. rewrite N2Z.inj_pow, nat_N_Z, Z2Nat.id by lia. lia.
Qed.

(** The tokens before those of the metadata. *)
Definition front (pf : PropertyFiles) (z : ZipFile) : result (list string) :=
  let! pre := _GetPrecomputed pf z in
  let! tokens := mapM (ComputeEntryOffsetSize z) (required pf ++ present z (optional_files pf)) in
  Ok (pre ++ tokens).

Definition small_entry (z : ZipFile) (name : string) : Prop :=
  forall o n, position z name = Ok (o, n) -> 0 <= o < 10 ^ 10 /\ 0 <= n < 10 ^ 4.

Lemma small_token z name s : small_entry z name -> ComputeEntryOffsetSize z name = Ok s ->
  str_len s <= str_len (path_basename name) + 16.
Proof.
  intros Hs H. unfold ComputeEntryOffsetSize in H. unfold small_entry, position in Hs. destruct (getinfo z name) as [i|]; [|done].
  destruct (GetZipEntryOffset z i) as [[o n]|]; [|done]. injection H as <-. destruct (Hs o n eq_refl) as [Ho Hn].
  unfold entry_token. rewrite !str_len_app. change (str_len ":") with 1.
  pose proof (str_len_py_str o 10 Ho ltac:(lia)). pose proof (str_len_py_str n 4 Hn ltac:(lia)). lia.
Qed.

(** The 15 characters reserved for an offset and a size are enough. *)
Lemma reserved_space_enough pf z z' s s' l l' : GetPropertyFilesString pf z true = Ok s -> GetPropertyFilesString pf z' false = Ok s' ->
  front pf z = Ok l -> front pf z' = Ok l' -> joined_len l' <= joined_len l ->
  small_entry z' METADATA_NAME -> small_entry z' METADATA_PROTO_NAME -> str_len s' <= str_len s.
Proof.
  unfold GetPropertyFilesString, front. intros H H' Hl Hl' Hle Hm Hp.
  destruct (_GetPrecomputed pf z) as [pre|]; [|done]. destruct (mapM _ (required pf ++ present z _)) as [t|]; [|done].
  destruct (_GetPrecomputed pf z') as [pre'|]; [|done]. destruct (mapM _ (required pf ++ present z' _)) as [t'|]; [|done].
  injection Hl as <-. injection Hl' as <-. injection H as <-. unfold metadata_tokens in H'. cbn [mapM] in H'.
  destruct (ComputeEntryOffsetSize z' METADATA_NAME) as [m|] eqn:Em; [|done]. apply (small_token _ _ _ Hm) in Em.
  change (str_len (path_basename METADATA_NAME)) with 8 in Em.
  destruct (mapM _ (present z' [METADATA_PROTO_NAME])) as [ps|] eqn:Eps; [|done]. injection H' as <-.
  assert (Hps : joined_len ps <= 28).
  { unfold present in Eps. rewrite filter_cons, filter_nil in Eps. destruct (decide _); cbn [mapM] in Eps; [|injection Eps as <-; cbn; lia].
    destruct (ComputeEntryOffsetSize z' METADATA_PROTO_NAME) as [p|] eqn:E; [|done]. injection Eps as <-.
    apply (small_token _ _ _ Hp) in E. change (str_len (path_basename METADATA_PROTO_NAME)) with 11 in E.
    unfold joined_len. cbn [map sumZ foldr]. lia. }
  rewrite !str_len_joined by (intros Heq; apply (f_equal length) in Heq; rewrite !length_app in Heq; cbn in Heq; lia).
  unfold joined_len in *. rewrite !app_assoc, !(map_app _ (_ ++ _)), !sumZ_app. cbn [map sumZ foldr].
  assert (Hsp : str_len ("metadata:" +:+ blanks 15) = 24) by reflexivity.
  assert (Hsp' : str_len ("metadata.pb:" +:+ blanks 15) = 27) by reflexivity.
  cbn [String.append] in Hsp, Hsp'. rewrite Hsp, Hsp'. change (foldr Z.add 0 ?l) with (sumZ l). lia.
Qed.

(** * [FinalizeMetadata] *)

Section finalize.
Variable replace_metadata : dict -> ZipFile -> ZipFile.
Variable SignOutput : ZipFile -> ZipFile.

(** A package with new metadata, signed if wanted. *)
Definition finish (no_signing : bool) (m : dict) (z : ZipFile) : ZipFile := sign SignOutput no_signing (replace_metadata m z).

Definition same_lengths (m m' : dict) : Prop :=
  forall k, (k ∈ od_keys m' <-> k ∈ od_keys m) /\ str_len (default "" (od_get k m')) = str_len (default "" (od_get k m)).

(** The tools give well-formed packages, and keep the layout of a package they
    have made when its metadata gets texts of the same lengths. *)
Hypothesis tools_zip_ok : forall no_signing m z, zip_ok (finish no_signing m z).
Hypothesis tools_keep_layout : forall no_signing m m' z, same_lengths m m' ->
  same_layout (finish no_signing m z) (finish no_signing m' (finish no_signing m z)).

(** The text of [pf] is that of the package, padded. *)
Definition padded_text (z : ZipFile) (m : dict) (pf : PropertyFiles) : Prop :=
  exists r k, GetPropertyFilesString pf z false = Ok r /\ od_get (pf_name pf) m = Some (r +:+ blanks k).

Lemma finalize_all pfs prelim m m' : NoDup (map pf_name pfs) -> (forall pf, pf ∈ pfs -> pf_name pf ∈ od_keys m) ->
  FinalizeAllPropertyFiles pfs prelim m = Ok m' ->
  same_lengths m m' /\ forall pf, pf ∈ pfs -> padded_text prelim m' pf.
Proof.
  intros Hnd Hin H. apply (foldM_ind (fun pre t => same_lengths m t /\ forall pf, pf ∈ pre -> padded_text prelim t pf)) in H; [done| |].
  - split; [done | by intros pf ?%not_elem_of_nil].
  - intros pre pf post t t' Heq [Hs Hp] Hstep. destruct (Finalize _ _ _) as [s|] eqn:Ef; [|done]. injection Hstep as <-.
    unfold Finalize in Ef. destruct (GetPropertyFilesString pf prelim false) as [r|] eqn:Er; [|done].
    destruct (_ <? _) eqn:El; [done|]. injection Ef as <-. apply Z.ltb_ge in El.
    assert (Hpf : pf_name pf ∈ od_keys m) by (apply Hin; rewrite Heq; apply elem_of_app; right; by left).
    split.
    + intros k. destruct (Hs k) as [Hk1 Hk2]. rewrite od_keys_set, od_get_set. split.
      * rewrite Hk1. split; [intros [->|?]; done | by right].
      * destruct (decide (k = pf_name pf)) as [->|]; [|done]. simpl (default "" (Some _)). rewrite str_len_app, str_len_spaces by lia.
        unfold id in *. lia.
    + intros pf' Hpf'. unfold padded_text. apply elem_of_app in Hpf' as [Hpf'|Hpf'].
      * destruct (Hp pf' Hpf') as (r' & k' & Hr' & Hk'). exists r', k'. split; [done|]. rewrite od_get_set, decide_False; [done|].
        intros Hn. rewrite Heq, map_app in Hnd. apply NoDup_app in Hnd as (_ & Hnd & _). cbn [map] in Hnd.
        apply (Hnd (pf_name pf')); [by apply list_elem_of_fmap_2 | rewrite Hn; by left].
      * apply list_elem_of_singleton in Hpf' as ->. exists r. eexists. split; [done|]. by rewrite od_get_set, decide_True.
Qed.

Lemma compute_all no_signing pfs input md prelim m : ComputeAllPropertyFiles replace_metadata SignOutput no_signing pfs input md = Ok (prelim, m) ->
  prelim = finish no_signing m input /\ forall pf, pf ∈ pfs -> pf_name pf ∈ od_keys m.
Proof.
  unfold ComputeAllPropertyFiles. intros H. destruct (foldM _ _ _) as [t|] eqn:E; [|done]. injection H as <- <-. split; [done|].
  apply (foldM_ind (fun pre t => forall pf, pf ∈ pre -> pf_name pf ∈ od_keys t) _ _ _ _ E); [by intros pf ?%not_elem_of_nil|].
  intros pre x post u u' _ Hu Hstep pf Hpf. inv_ok. apply od_keys_set. apply elem_of_app in Hpf as [Hpf|Hpf]; [right; by apply Hu|].
  apply list_elem_of_singleton in Hpf as ->. by left.
Qed.

Lemma passes_spec no_signing pfs input md prelim m : NoDup (map pf_name pfs) ->
  compute_and_finalize replace_metadata SignOutput no_signing pfs input md = Ok (prelim, m) ->
  exists z m1, prelim = finish no_signing m1 z /\ same_lengths m1 m /\ forall pf, pf ∈ pfs -> padded_text prelim m pf.
Proof.
  intros Hnd H. unfold compute_and_finalize in H.
  destruct (ComputeAllPropertyFiles _ _ _ _ _ _) as [[p1 m1]|] eqn:E1; [|done]. apply compute_all in E1 as [-> Hk1].
  destruct (FinalizeAllPropertyFiles _ _ m1) as [mf|e] eqn:Ef.
  - injection H as <- <-. apply finalize_all in Ef as [Hs Hp]; [|done..]. by exists input, m1.
  - destruct e; try done. destruct (ComputeAllPropertyFiles _ _ _ _ (finish _ _ _) _) as [[p2 m2]|] eqn:E2; [|done].
    apply compute_all in E2 as [-> Hk2]. destruct (FinalizeAllPropertyFiles _ _ m2) as [mf|] eqn:Ef2; [|done].
    injection H as <- <-. apply finalize_all in Ef2 as [Hs Hp]; [|done..]. by eexists _, m2.
Qed.

(** C19: [FinalizeMetadata].  Whenever the two passes succeed, the finished
    package passes its verification; the text of each kind of property files,
    as written in the metadata, reads back as a list with one element per entry,
    and an entry of the package is found in it, with the bytes of its content at
    the offset and of the size given; the payload metadata starts the payload
    and lies within it.  The space reserved by the first pass is enough for
    metadata at an offset of at most 10 digits and a size of at most 4, when the
    tokens of the other entries do not get longer. *)
Theorem finalized_package_verified no_signing pfs input md prelim m :
  Forall (fun pf => pf ∈ [StreamingPropertyFiles; AbOtaPropertyFiles; NonAbOtaPropertyFiles]) pfs -> NoDup (map pf_name pfs) ->
  compute_and_finalize replace_metadata SignOutput no_signing pfs input md = Ok (prelim, m) ->
  (exists out, FinalizeMetadata replace_metadata SignOutput no_signing pfs input md = Ok (out, m) /\
     forall pf, pf ∈ pfs -> exists text es, od_get (pf_name pf) m = Some text /\ parse_property_files text = Ok es /\
       (forall name content, name ∈ file_names pf out -> stored out name content ->
          exists o, (path_basename name, o, blen content) ∈ es /\ py_slice (zf_data out) o (o + blen content) = content) /\
       (pf = AbOtaPropertyFiles -> exists o n size, ("payload_metadata.bin", o, n) ∈ es /\
          position out "payload.bin" = Ok (o, size) /\ 24 <= n <= size)) /\
  (forall pf z z' s s' l l', GetPropertyFilesString pf z true = Ok s -> GetPropertyFilesString pf z' false = Ok s' ->
     front pf z = Ok l -> front pf z' = Ok l' -> joined_len l' <= joined_len l ->
     small_entry z' METADATA_NAME -> small_entry z' METADATA_PROTO_NAME -> str_len s' <= str_len s).
Proof.
  intros Hstd Hnd H. split; [|intros pf z z' s s' l l'; apply reserved_space_enough].
  pose proof (passes_spec _ _ _ _ _ _ Hnd H) as (z & m1 & -> & Hlen & Hpad). pose proof (tools_zip_ok no_signing m1 z) as Hz.
  pose proof (tools_keep_layout no_signing m1 m z Hlen) as Hlay.
  set (out := finish no_signing m (finish no_signing m1 z)) in *.
  assert (Htext : forall pf, pf ∈ pfs -> exists (_ : StandardFiles pf) es k, all_entries pf out = Ok es /\ Forall file_entry_ok es /\ es <> [] /\
            od_get (pf_name pf) m = Some (str_join "," (map token es) +:+ blanks k)).
  { intros pf Hpf. destruct (Hpad pf Hpf) as (r & k & Hr & Hk). rewrite Forall_forall in Hstd.
    assert (Hs : exists _ : StandardFiles pf, True).
    { specialize (Hstd pf Hpf). rewrite !elem_of_cons, elem_of_nil in Hstd. destruct Hstd as [->|[->|[->|[]]]].
      - by exists StreamingFiles_standard.
      - by exists AbOtaFiles_standard.
      - by exists NonAbOtaFiles_standard. }
    destruct Hs as [Hs _]. exists Hs. rewrite (string_entries pf) in Hr. destruct (all_entries pf _) as [es|] eqn:Ee; [|done].
    injection Hr as <-. exists es, k. destruct (all_entries_ok pf _ es Hz Ee). split; [by eapply all_entries_layout | done]. }
  exists out. split.
  - unfold FinalizeMetadata. rewrite H. fold (finish no_signing m (finish no_signing m1 z)). fold out.
    assert (Hv : forall pf, pf ∈ pfs -> Verify pf out (strip (default "" (od_get (pf_name pf) m))) = Ok tt).
    { intros pf Hpf. destruct (Htext pf Hpf) as (Hs & es & k & He & Hok & Hne & Hk). rewrite Hk. unfold Verify.
      rewrite (string_entries pf), He. simpl (default "" (Some _)). rewrite strip_padded by (by apply parse_joined).
      by rewrite String.eqb_refl. }
    clear -Hv. induction pfs as [|pf pfs IH]; [done|]. cbn [foldM]. rewrite Hv by (by left). apply IH. intros pf' Hpf'. apply Hv. by right.
  - intros pf Hpf. destruct (Htext pf Hpf) as (Hs & es & k & He & Hok & Hne & Hk). eexists _, es. split; [exact Hk|].
    split; [by apply parse_joined|]. unfold all_entries in He. destruct (precomputed out) as [pre|] eqn:Ep; [|done].
    destruct (mapM (entry_of out) _) as [l|] eqn:El; [|done]. injection He as <-. split.
    + intros name content Hn Hst. destruct (stored_position _ _ _ Hst) as (o & Hp & Hsl). exists o. split; [|done].
      apply mapM_Forall2 in El. destruct (Forall2_in_l _ _ _ _ El Hn) as (e & He & Hen). unfold entry_of in Hen. rewrite Hp in Hen.
      injection Hen as <-. apply elem_of_app. by right.
    + intros ->. pose proof (@precomputed_tokens _ Hs out) as Ht. rewrite Ep in Ht. cbn in Ht. unfold payload_metadata_token in Ht.
      destruct (_GetPayloadMetadataOffsetAndSize out) as [[o n]|] eqn:Eo; [|done].
      destruct (payload_metadata_spec out o n) as (size & Hp & Hb); [apply tools_zip_ok | done |].
      exists o, n, size. split; [|done]. apply elem_of_app. left. destruct pre as [|e [|]]; try done.
      apply list_elem_of_singleton.
      assert (Hoe : file_entry_ok e) by (apply Forall_app in Hok as [Hok _]; by inversion Hok).
      assert (Hop : file_entry_ok ("payload_metadata.bin", o, n)) by (pose proof (position_nonneg _ _ _ _ (tools_zip_ok _ _ _) Hp); split; [done | lia]).
      injection Ht as Ht. apply parse_entry_token in Hoe, Hop. cbn [token] in Hop. rewrite Ht, Hoe in Hop. by injection Hop as <-.
Qed.

End finalize.

(** * Witness *)

(** A package of a payload, its properties and metadata of [n] bytes. *)
Definition name_bytes (s : string) : bytes := map code (String.list_ascii_of_string s).
Definition local_entry (name : string) (content : bytes) : bytes :=
  replicate 26 0 ++ [str_len name; 0; 0; 0] ++ name_bytes name ++ content.

Definition example_payload : bytes :=
  [67; 114; 65; 85] ++ [0; 0; 0; 0; 0; 0; 0; 2] ++ [0; 0; 0; 0; 0; 0; 0; 3] ++ [0; 0; 0; 2] ++ [1; 2; 3] ++ [4; 5] ++ [6; 7; 8; 9].
Definition example_properties : bytes := name_bytes "FILE_SIZE=33".

Definition payload_entries : bytes := local_entry "payload.bin" example_payload ++ local_entry "payload_properties.txt" example_properties.
Definition payload_infos : list ZipInfo := [mkZipInfo "payload.bin" 0 33; mkZipInfo "payload_properties.txt" 74 12].

Definition package_input : ZipFile := mkZip payload_entries payload_infos.
Definition package (n : nat) : ZipFile :=
  mkZip (payload_entries ++ local_entry METADATA_NAME (replicate n 0)) (payload_infos ++ [mkZipInfo METADATA_NAME 138 (Z.of_nat n)]).

Definition example_replace (m : dict) (z : ZipFile) : ZipFile :=
  package (Z.to_nat (str_len (default "" (od_get "ota-property-files" m)))).

Lemma package_ok n : zip_ok (package n).
Proof.
  split.
  - unfold package, bytes_ok, local_entry. cbn [zf_data]. rewrite !Forall_app. split_and!; try (apply Forall_replicate; lia).
    all: repeat constructor; vm_compute; congruence.
  - cbn [package zf_infos payload_infos app]. repeat constructor; cbn; lia.
Qed.

Lemma same_layout_refl z : same_layout z z.
Proof. by split_and!. Qed.

Lemma example_layout ns m m' z : same_lengths m m' ->
  same_layout (finish example_replace (fun z => z) ns m z) (finish example_replace (fun z => z) ns m' (finish example_replace (fun z => z) ns m z)).
Proof.
  intros H. unfold finish, sign, example_replace. destruct (H "ota-property-files") as [_ ->]. destruct ns; apply same_layout_refl.
Qed.

Lemma example_zip_ok ns m z : zip_ok (finish example_replace (fun z => z) ns m z).
Proof. destruct ns; apply package_ok. Qed.

Definition ota_files : list PropertyFiles := [AbOtaPropertyFiles; StreamingPropertyFiles].
Definition finalized : result (ZipFile * dict) := compute_and_finalize example_replace (fun z => z) false ota_files package_input [].
Definition finalized_zip : ZipFile := match finalized with Ok (z, _) => z | Raise _ => package_input end.
Definition finalized_dict : dict := match finalized with Ok (_, m) => m | Raise _ => [] end.

Example finalized_text : od_get "ota-property-files" finalized_dict =
  Some "payload_metadata.bin:41:29,payload.bin:41:33,payload_properties.txt:126:12,metadata:197:127                                    ".
Proof. vm_compute. reflexivity. Qed.

Lemma finalized_package_verified_witness :
  compute_and_finalize example_replace (fun z => z) false ota_files package_input [] = Ok (finalized_zip, finalized_dict) /\
  exists out, FinalizeMetadata example_replace (fun z => z) false ota_files package_input [] = Ok (out, finalized_dict).
Proof.
  assert (Hf : compute_and_finalize example_replace (fun z => z) false ota_files package_input [] = Ok (finalized_zip, finalized_dict)).
  { assert (Hok : is_ok finalized = true) by (vm_compute; reflexivity). unfold finalized_zip, finalized_dict.
    fold finalized. destruct finalized as [[z m]|e]; [reflexivity | discriminate]. }
  split; [exact Hf|].
  destruct (finalized_package_verified example_replace (fun z => z)
              example_zip_ok example_layout
              false ota_files package_input [] finalized_zip finalized_dict) as [(out & Hout & _) _].
  - repeat constructor; apply bool_decide_unpack || (rewrite !elem_of_cons; tauto).
  - cbn. apply NoDup_cons. split; [rewrite list_elem_of_singleton; discriminate | apply NoDup_singleton].
  - exact Hf.
  - exists out. exact Hout.
Defined.
