(* ===== verification/OtaMetadata.v ===== *)
(** releasetools/ota_utils.py: the metadata of an OTA package
    ([GetPackageMetadata], with the states of the device before and after the
    update and the detection of downgrades) and its legacy text
    ([BuildLegacyOtaMetadata], [WriteMetadata]).  A message of
    ota_metadata.proto is a record; the ranges of its number fields are not
    checked. *)

From S2P Require Export BuildInfo.

#[local] Open Scope string_scope.
#[local] Open Scope list_scope.
#[local] Open Scope Z_scope.

(** * Messages and options *)

Record PartitionState := mkPartitionState {
  ps_partition_name : string; ps_device : list string; ps_build : list string; ps_version : string
}.

Record DeviceState := mkDeviceState {
  ds_device : list string;
  ds_build : list string;
  ds_build_incremental : string;
  ds_timestamp : Z;
  ds_sdk_level : string;
  ds_security_patch_level : string;
  ds_partition_state : list PartitionState
}.

Definition no_state : DeviceState := mkDeviceState [] [] "" 0 "" "" [].

Inductive OtaType := UNKNOWN | OtaAB | BLOCK.

Record OtaMetadata := mkMetadata {
  md_type : OtaType;
  md_wipe : bool;
  md_downgrade : bool;
  md_property_files : dict;
  md_precondition : DeviceState;
  md_postcondition : DeviceState;
  md_required_cache : Z;
  md_spl_downgrade : bool
}.

(** [boot_variable_file]: the text of the file, when the option is given. *)
Record Options := mkOptions {
  force_non_ab : bool;
  wipe_user_data : bool;
  opt_downgrade : bool;
  opt_spl_downgrade : bool;
  incremental_source : bool;
  boot_variable_file : option string
}.

(** * Texts and sets *)

(** [sorted(set)]. *)
Definition sorted_set (s : gset string) : list string := sort_by String.leb (elements s).

Definition read_boot_variables (content : string) : list (string * list string) :=
  map (fun '(key, values) => (key, map strip (split_char "," values))) (LoadDictionaryFromLines (splitlines content)).

Definition boot_variables (opts : Options) : list (string * list string) :=
  match boot_variable_file opts with Some content => read_boot_variables content | None => [] end.

(** [set(info_dict.get("ab_partitions"))]. *)
Definition ab_partition_set (info : InfoDict) : result (list string) :=
  match info !! "ab_partitions" with Some (IList l) => Ok l | _ => Raise TypeError end.

(** [sorted(set(PARTITIONS_WITH_BUILD_PROP) & ab_partitions)]. *)
Definition common_partitions (ab : list string) : list string :=
  sorted_set (list_to_set PARTITIONS_WITH_BUILD_PROP ∩ list_to_set ab).

(** The properties of a partition, if there are any. *)
Definition has_props (info : InfoDict) (partition : string) : result bool :=
  let! o := info_props info (partition +:+ ".build.prop") in
  Ok match o with Some p => negb (Nat.eqb (length (build_props p)) 0) | None => false end.

Section metadata.
Variable GetBootImageBuildProp : string -> RamdiskFormat -> result (option string).

(** * The state of a device *)

Definition partition_state (build_info : BuildInfo) (runtime : list BuildInfo) (partition : string) : result PartitionState :=
  let! devices := mapM (fun bi => GetPartitionBuildProp (bi_base bi) "ro.product.device" partition) runtime in
  let! fingerprints := mapM (fun bi => of_option TypeError (GetPartitionFingerprint bi partition)) runtime in
  let! version := GetPartitionBuildProp (bi_base build_info) "ro.build.date.utc" partition in
  Ok (mkPartitionState partition (sorted_set (list_to_set devices)) (sorted_set (list_to_set fingerprints)) version).

Definition add_partition_state (build_info : BuildInfo) (runtime : list BuildInfo) (states : list PartitionState) (partition : string) :
    result (list PartitionState) :=
  let! has := has_props (bi_info (bi_base build_info)) partition in
  if (has : bool) then let! s := partition_state build_info runtime partition in Ok (states ++ [s]) else Ok states.

Definition UpdatePartitionStates (build_info : BuildInfo) (boot_variable_values : list (string * list string)) :
    result (list PartitionState) :=
  if negb (is_ab build_info) then Ok []
  else
    let! runtime := ComputeRuntimeBuildInfos GetBootImageBuildProp build_info boot_variable_values in
    assert! bool_decide (is_Some (bi_info (bi_base build_info) !! "ab_partitions")) in
    let! ab_partitions := ab_partition_set (bi_info (bi_base build_info)) in
    foldM (add_partition_state build_info runtime) [] (common_partitions ab_partitions).

Definition UpdateDeviceState (build_info : BuildInfo) (boot_variable_values : list (string * list string)) (is_post_build : bool) :
    result DeviceState :=
  let! (devices, fingerprints) := CalculateRuntimeDevicesAndFingerprints GetBootImageBuildProp build_info boot_variable_values in
  let! build_incremental := GetBuildProp (bi_base build_info) "ro.build.version.incremental" in
  let! states := UpdatePartitionStates build_info boot_variable_values in
  let state := mkDeviceState (sorted_set devices) (sorted_set fingerprints) build_incremental in
  if is_post_build then
    let! sdk_level := GetBuildProp (bi_base build_info) "ro.build.version.sdk" in
    let! security_patch := GetBuildProp (bi_base build_info) "ro.build.version.security_patch" in
    let! utc := GetBuildProp (bi_base build_info) "ro.build.date.utc" in
    let! timestamp := py_int utc in
    Ok (state timestamp sdk_level security_patch states)
  else Ok (state 0 "" "" states).

(** * Downgrades *)

(** What is older in the target, and what is not. *)
Record DowngradeLog := mkLog { log_downgrades : list string; log_upgrades : list string }.

Definition log_timestamps (log : DowngradeLog) (name post pre : string) : result DowngradeLog :=
  let! p := py_int post in
  let! q := py_int pre in
  Ok (if p <? q then mkLog (log_downgrades log ++ [name]) (log_upgrades log)
      else mkLog (log_downgrades log) (log_upgrades log ++ [name])).

Definition compare_partition (target source : BuildInfo) (log : DowngradeLog) (partition : string) : result DowngradeLog :=
  let! in_source := has_props (bi_info (bi_base source)) partition in
  if negb in_source then Ok log
  else
    let! in_target := has_props (bi_info (bi_base target)) partition in
    if negb in_target then Ok log
    else
      let! post := GetPartitionBuildProp (bi_base target) "ro.build.date.utc" partition in
      let! pre := GetPartitionBuildProp (bi_base source) "ro.build.date.utc" partition in
      log_timestamps log partition post pre.

Definition compare_timestamps (target source : BuildInfo) : result DowngradeLog :=
  let! post := GetBuildProp (bi_base target) "ro.build.date.utc" in
  let! pre := GetBuildProp (bi_base source) "ro.build.date.utc" in
  let! log := log_timestamps (mkLog [] []) "ro.build.date.utc" post pre in
  if is_ab source then
    let! ab_partitions := ab_partition_set (bi_info (bi_base source)) in
    foldM (compare_partition target source) log (common_partitions ab_partitions)
  else Ok log.

Definition set_downgrade (m : OtaMetadata) (downgrade spl : bool) : OtaMetadata :=
  mkMetadata (md_type m) (md_wipe m) downgrade (md_property_files m) (md_precondition m) (md_postcondition m) (md_required_cache m) spl.

Definition HandleDowngradeMetadata (opts : Options) (m : OtaMetadata) (target source : BuildInfo) : result OtaMetadata :=
  assert! incremental_source opts in
  let! log := compare_timestamps target source in
  let spl := if opt_spl_downgrade opts then true else md_spl_downgrade m in
  if opt_downgrade opts then
    match log_downgrades log with
    | [] => Raise RuntimeError
    | _ => Ok (set_downgrade m true spl)
    end
  else
    match log_downgrades log with
    | [] => Ok (set_downgrade m (md_downgrade m) spl)
    | _ => Raise RuntimeError
    end.

(** * The metadata of a package *)

Definition GetPackageMetadata (opts : Options) (target : BuildInfo) (source : option BuildInfo) : result OtaMetadata :=
  let vars := boot_variables opts in
  let! post := UpdateDeviceState target vars true in
  let type := if is_ab target && negb (force_non_ab opts) then OtaAB else BLOCK in
  match source with
  | Some s =>
      let! pre := UpdateDeviceState s vars false in
      HandleDowngradeMetadata opts (mkMetadata type (wipe_user_data opts) false [] pre post 0 false) target s
  | None =>
      let pre := mkDeviceState (ds_device post) [] "" 0 "" "" [] in
      Ok (mkMetadata type (wipe_user_data opts) false [] pre post 0 false)
  end.

(** [metadata.property_files[name] = text], for each name. *)
Definition set_property_files (m : OtaMetadata) (files : dict) : OtaMetadata :=
  mkMetadata (md_type m) (md_wipe m) (md_downgrade m) files (md_precondition m) (md_postcondition m) (md_required_cache m) (md_spl_downgrade m).

End metadata.

(** * The legacy text *)

Definition separator : string := "|".

Definition BuildLegacyOtaMetadata (m : OtaMetadata) : dict :=
  let d := match md_type m with OtaAB => [("ota-type", "AB")] | BLOCK => [("ota-type", "BLOCK")] | UNKNOWN => [] end in
  let d := if md_wipe m then od_set "ota-wipe" "yes" d else d in
  let d := if md_downgrade m then od_set "ota-downgrade" "yes" d else d in
  let d := od_set "ota-required-cache" (py_str (md_required_cache m)) d in
  let post := md_postcondition m in
  let d := od_set "post-build" (str_join separator (ds_build post)) d in
  let d := od_set "post-build-incremental" (ds_build_incremental post) d in
  let d := od_set "post-sdk-level" (ds_sdk_level post) d in
  let d := od_set "post-security-patch-level" (ds_security_patch_level post) d in
  let d := od_set "post-timestamp" (py_str (ds_timestamp post)) d in
  let pre := md_precondition m in
  let d := od_set "pre-device" (str_join separator (ds_device pre)) d in
  let d := match ds_build pre with
           | [] => d
           | _ => od_set "pre-build-incremental" (ds_build_incremental pre) (od_set "pre-build" (str_join separator (ds_build pre)) d)
           end in
  let d := if md_spl_downgrade m then od_set "spl-downgrade" "yes" d else d in
  od_merge d (md_property_files m).

(** [sorted(d.items())], for a dictionary. *)
Definition sorted_items (d : dict) : dict := sort_by (fun a b => String.leb a.1 b.1) d.

Definition metadata_line (kv : string * string) : string := kv.1 +:+ "=" +:+ kv.2 +:+ String newline "".

Definition legacy_metadata (m : OtaMetadata) : string := str_join "" (map metadata_line (sorted_items (BuildLegacyOtaMetadata m))).

(** [WriteMetadata] in a package: the text of the message, which protobuf
    makes, and the legacy text. *)
Definition WriteMetadata (SerializeToString : OtaMetadata -> string) (m : OtaMetadata) : dict :=
  [("META-INF/com/android/metadata.pb", SerializeToString m); ("META-INF/com/android/metadata", legacy_metadata m)].
