(* ===== verification/OtaMetadataProps.v ===== *)
(** What the metadata of an OTA package says of the builds it is made from. *)

From S2P Require Export OtaMetadata BuildInfoProps.

#[local] Open Scope string_scope.
#[local] Open Scope list_scope.
#[local] Open Scope Z_scope.

(** * Sorted sets *)

Definition sorted_strictly (l : list string) : Prop := StronglySorted (fun a b => String.leb a b = true) l /\ NoDup l.

Lemma elem_of_sorted_set s x : x ∈ sorted_set s <-> x ∈ s.
Proof. unfold sorted_set. by rewrite elem_of_sort_by, elem_of_elements. Qed.

Lemma sorted_set_sorted s : sorted_strictly (sorted_set s).
Proof.
  split; [apply sort_by_sorted; [apply string_leb_total | apply string_leb_trans]|].
  unfold sorted_set. rewrite sort_by_perm. apply NoDup_elements.
Qed.

(** * The states of a device *)

Section metadata.
Variable boot_prop : string -> RamdiskFormat -> result (option string).

(** A state lists the devices and fingerprints of the builds at run time. *)
Definition lists_builds (state : DeviceState) (bis : list BuildInfo) : Prop :=
  sorted_strictly (ds_device state) /\ sorted_strictly (ds_build state) /\
  (forall d, d ∈ ds_device state <-> exists bi, bi ∈ bis /\ device bi = d) /\
  (forall fp, fp ∈ ds_build state <-> exists bi, bi ∈ bis /\ fingerprint bi = fp).

(** The partitions of the state have properties, and list theirs. *)
Definition lists_partitions (state : DeviceState) (bi : BuildInfo) (bis : list BuildInfo) : Prop :=
  Forall (fun ps => ps_partition_name ps ∈ PARTITIONS_WITH_BUILD_PROP /\
    has_props (bi_info (bi_base bi)) (ps_partition_name ps) = Ok true /\
    GetPartitionBuildProp (bi_base bi) "ro.build.date.utc" (ps_partition_name ps) = Ok (ps_version ps) /\
    (forall fp, fp ∈ ps_build ps <-> exists b, b ∈ bis /\ GetPartitionFingerprint b (ps_partition_name ps) = Some fp) /\
    (forall d, d ∈ ps_device ps <-> exists b, b ∈ bis /\ GetPartitionBuildProp (bi_base b) "ro.product.device" (ps_partition_name ps) = Ok d))
    (ds_partition_state state).

Lemma elem_of_mapM {A} (f : A -> result string) l l' x : mapM f l = Ok l' ->
  x ∈ sorted_set (list_to_set l') <-> exists a, a ∈ l /\ f a = Ok x.
Proof.
  intros H%mapM_Forall2. rewrite elem_of_sorted_set, elem_of_list_to_set. split.
  - intros Hx. by destruct (Forall2_in_r _ _ _ _ H Hx) as (a & Ha & Hf); eauto.
  - intros (a & Ha & Hf). destruct (Forall2_in_l _ _ _ _ H Ha) as (y & Hy & Hf'). congruence.
Qed.

Lemma of_option_Ok {A} e (o : option A) x : of_option e o = Ok x <-> o = Some x.
Proof. destruct o; cbn; split; congruence. Qed.

Lemma partition_states_listed bi vars states bis : ComputeRuntimeBuildInfos boot_prop bi vars = Ok bis ->
  UpdatePartitionStates boot_prop bi vars = Ok states -> forall state, ds_partition_state state = states -> lists_partitions state bi bis.
Proof.
  intros Hbis H state Hst. unfold lists_partitions. rewrite Hst. clear Hst. unfold UpdatePartitionStates in H.
  destruct (negb (is_ab bi)); [injection H as <-; constructor|]. rewrite Hbis in H.
  destruct (bool_decide _); [|done]. destruct (ab_partition_set _) as [ab|]; [|done].
  set (good := fun ps => _) in |- *.
  apply (foldM_ind (fun _ sts => Forall good sts) _ _ _ _ H); [constructor|].
  intros pre part post t t' Heq Ht Hstep. unfold add_partition_state in Hstep.
  destruct (has_props _ part) as [[]|] eqn:Ehas; [| |done]; [|by injection Hstep as <-].
  destruct (partition_state bi bis part) as [ps|] eqn:Eps; [|done]. injection Hstep as <-. apply Forall_app. split; [done|].
  constructor; [|constructor]. unfold partition_state in Eps.
  destruct (mapM _ bis) as [devs|] eqn:Ed; [|done]. destruct (mapM _ bis) as [fps|] eqn:Ef in Eps; [|done].
  destruct (GetPartitionBuildProp _ _ part) as [v|] eqn:Ev; [|done]. injection Eps as <-.
  unfold good. cbn [ps_partition_name ps_build ps_device ps_version]. split_and!; [|done..| |].
  - assert (Hin : part ∈ common_partitions ab) by (rewrite Heq; apply elem_of_app; right; by left).
    unfold common_partitions in Hin. rewrite elem_of_sorted_set, elem_of_intersection, !elem_of_list_to_set in Hin. apply Hin.
  - intros fp. rewrite (elem_of_mapM _ _ _ _ Ef). by setoid_rewrite of_option_Ok.
  - intros d. by rewrite (elem_of_mapM _ _ _ _ Ed).
Qed.

Lemma device_state_listed bi vars is_post state : UpdateDeviceState boot_prop bi vars is_post = Ok state ->
  exists bis, ComputeRuntimeBuildInfos boot_prop bi vars = Ok bis /\ lists_builds state bis /\ lists_partitions state bi bis.
Proof.
  unfold UpdateDeviceState, CalculateRuntimeDevicesAndFingerprints. intros H.
  destruct (ComputeRuntimeBuildInfos boot_prop bi vars) as [bis|] eqn:Ebis; [|done]. exists bis. split; [done|].
  destruct (GetBuildProp _ "ro.build.version.incremental") as [inc|]; [|done].
  destruct (UpdatePartitionStates _ _ _) as [states|] eqn:Es; [|done].
  assert (Hst : ds_partition_state state = states /\ ds_device state = sorted_set (list_to_set (map device bis)) /\
                ds_build state = sorted_set (list_to_set (map fingerprint bis))).
  { destruct is_post; [|by injection H as <-]. repeat (case_match; [|done]). by injection H as <-. }
  destruct Hst as (Hs & Hd & Hb). split; [|by eapply partition_states_listed].
  unfold lists_builds. rewrite Hd, Hb. split_and!; [apply sorted_set_sorted..| |]; intros x;
    rewrite elem_of_sorted_set, elem_of_list_to_set, list_elem_of_fmap; split; intros (b & H1 & H2); eauto.
Qed.

(** * Downgrades *)

(** The times at which the same thing was built, in the target and the source. *)
Inductive stamps (target source : BuildInfo) : string -> Z -> Z -> Prop :=
| build_stamps post pre p q :
    GetBuildProp (bi_base target) "ro.build.date.utc" = Ok post -> GetBuildProp (bi_base source) "ro.build.date.utc" = Ok pre ->
    py_int post = Ok p -> py_int pre = Ok q -> stamps target source "ro.build.date.utc" p q
| partition_stamps ab part post pre p q :
    is_ab source = true -> ab_partition_set (bi_info (bi_base source)) = Ok ab ->
    part ∈ PARTITIONS_WITH_BUILD_PROP -> part ∈ ab ->
    has_props (bi_info (bi_base source)) part = Ok true -> has_props (bi_info (bi_base target)) part = Ok true ->
    GetPartitionBuildProp (bi_base target) "ro.build.date.utc" part = Ok post ->
    GetPartitionBuildProp (bi_base source) "ro.build.date.utc" part = Ok pre ->
    py_int post = Ok p -> py_int pre = Ok q -> stamps target source part p q.

Definition older (target source : BuildInfo) (name : string) : Prop := exists p q, stamps target source name p q /\ p < q.

Lemma date_not_partition : "ro.build.date.utc" ∉ PARTITIONS_WITH_BUILD_PROP.
Proof. intros H. by apply (bool_decide_eq_true_2 _) in H. Qed.

Lemma log_timestamps_spec log name post pre log' : log_timestamps log name post pre = Ok log' ->
  exists p q, py_int post = Ok p /\ py_int pre = Ok q /\
    forall n, n ∈ log_downgrades log' <-> n ∈ log_downgrades log \/ n = name /\ p < q.
Proof.
  unfold log_timestamps. intros H. destruct (py_int post) as [p|]; [|done]. destruct (py_int pre) as [q|]; [|done].
  exists p, q. split_and!; [done..|]. intros n. injection H as <-. destruct (Z.ltb_spec p q); cbn [log_downgrades].
  - rewrite elem_of_app, list_elem_of_singleton. tauto.
  - split; [by left|]. intros [|[_ ?]]; [done | lia].
Qed.

Lemma common_partition ab part : part ∈ common_partitions ab <-> part ∈ PARTITIONS_WITH_BUILD_PROP /\ part ∈ ab.
Proof. unfold common_partitions. by rewrite elem_of_sorted_set, elem_of_intersection, !elem_of_list_to_set. Qed.

Lemma compare_partition_spec target source log part log' ab :
  is_ab source = true -> ab_partition_set (bi_info (bi_base source)) = Ok ab -> part ∈ common_partitions ab ->
  compare_partition target source log part = Ok log' ->
  forall n, n ∈ log_downgrades log' <-> n ∈ log_downgrades log \/ n = part /\ older target source part.
Proof.
  intros Hab Hset [Hp Hin]%common_partition H n. unfold compare_partition in H.
  assert (Hnb : part <> "ro.build.date.utc") by (intros ->; by apply date_not_partition).
  destruct (has_props _ part) as [[]|] eqn:Es; [| |done]; cbn [negb] in H.
  2: { injection H as <-. split; [by left|]. intros [|[_ (p & q & Hst & _)]]; [done|]. inversion Hst; simplify_eq. congruence. }
  destruct (has_props (bi_info (bi_base target)) part) as [[]|] eqn:Et; [| |done]; cbn [negb] in H.
  2: { injection H as <-. split; [by left|]. intros [|[_ (p & q & Hst & _)]]; [done|]. inversion Hst; simplify_eq. congruence. }
  destruct (GetPartitionBuildProp (bi_base target) _ part) as [post|] eqn:Epost; [|done].
  destruct (GetPartitionBuildProp (bi_base source) _ part) as [pre|] eqn:Epre; [|done].
  apply log_timestamps_spec in H as (p & q & Hpost & Hpre & Hn). rewrite Hn. split; (intros [|[-> Hlt]]; [by left|right; split; [done|]]).
  - exists p, q. split; [|done]. by eapply partition_stamps.
  - destruct Hlt as (p' & q' & Hst & Hlt). inversion Hst; simplify_eq. congruence.
Qed.

Lemma compare_timestamps_spec target source log : compare_timestamps target source = Ok log ->
  forall n, n ∈ log_downgrades log <-> older target source n.
Proof.
  unfold compare_timestamps. intros H.
  destruct (GetBuildProp (bi_base target) _) as [post|] eqn:Epost; [|done].
  destruct (GetBuildProp (bi_base source) _) as [pre|] eqn:Epre; [|done].
  destruct (log_timestamps _ _ post pre) as [log0|] eqn:El; [|done].
  apply log_timestamps_spec in El as (p & q & Hp & Hq & H0). cbn [log_downgrades] in H0.
  assert (Hbuild : forall n, n ∈ log_downgrades log0 <-> n = "ro.build.date.utc" /\ older target source n).
  { intros n. rewrite H0, elem_of_nil. split.
    - intros [[]|[-> Hlt]]. split; [done|]. exists p, q. split; [by eapply build_stamps | done].
    - intros [-> (p' & q' & Hst & Hlt)]. right. split; [done|]. inversion Hst; simplify_eq; [congruence|].
      by destruct date_not_partition. }
  destruct (is_ab source) eqn:Eab.
  - destruct (ab_partition_set _) as [ab|] eqn:Eset; [|done].
    assert (Hfold : forall n, n ∈ log_downgrades log <-> n ∈ log_downgrades log0 \/ n ∈ common_partitions ab /\ older target source n).
    { apply (foldM_ind (fun done l => forall n, n ∈ log_downgrades l <-> n ∈ log_downgrades log0 \/ n ∈ done /\ older target source n) _ _ _ _ H).
      - intros n. rewrite elem_of_nil. tauto.
      - intros l1 part l2 t t' Heq Ht Hstep n.
        rewrite (compare_partition_spec target source t part t' ab Eab Eset) by (done || (rewrite Heq; apply elem_of_app; right; by left)).
        rewrite Ht, elem_of_app, list_elem_of_singleton. split; [intros [[?|[? ?]]|[-> ?]]; tauto | intros [?|[[?| ->] ?]]; tauto]. }
    intros n. rewrite Hfold, Hbuild. split; [tauto|]. intros Ho. pose proof Ho as (p' & q' & Hst & _). inversion Hst; simplify_eq.
    + by left.
    + right. match goal with H1 : ab_partition_set ?i = Ok _, H2 : ab_partition_set ?i = Ok _ |- _ => rewrite H1 in H2; injection H2 as -> end. rewrite common_partition. by split_and!.
  - injection H as <-. intros n. rewrite Hbuild. split; [tauto|]. intros Ho. split; [|done].
    destruct Ho as (p' & q' & Hst & _). inversion Hst; simplify_eq; [done | congruence].
Qed.

(** * The legacy text *)

(** A dictionary whose lines can be told apart. *)
Definition legible (d : dict) : Prop :=
  Forall (fun kv => has_char newline (kv.1 +:+ "=" +:+ kv.2) = false /\ has_char "=" kv.1 = false) d.

Definition read_legacy (text : string) : dict := omap (split_once "=") (split_char newline text).

Lemma split_once_eq k v : has_char "=" k = false -> split_once "=" (k +:+ String "=" v) = Some (k, v).
Proof.
  induction k as [|c k IH]; intros H; [by destruct v|]. cbn [has_char] in H. apply orb_false_iff in H as [Hc Hk].
  change (String c k +:+ ?t) with (String c (k +:+ t)). cbn [split_once]. rewrite (IH Hk).
  unfold starts_with. cbn [String.prefix]. destruct (ascii_dec "=" c) as [<-|]; [done|]. done.
Qed.

Lemma read_legacy_lines d : legible d -> read_legacy (str_join "" (map metadata_line d)) = d.
Proof.
  intros H. unfold read_legacy. replace (map metadata_line d) with (map end_line (map (fun kv => kv.1 +:+ "=" +:+ kv.2) d)).
  - rewrite split_lines.
    + rewrite omap_app. cbn. rewrite app_nil_r. induction H as [|[k v] d [_ Hk] Hd IH]; [done|].
      cbn [map omap list_omap fst snd]. rewrite split_once_eq by done. f_equal. exact IH.
    + apply Forall_map. eapply Forall_impl; [exact H|]. by intros kv [? _].
  - rewrite map_map. apply map_ext. intros [k v]. unfold end_line, metadata_line. cbn [fst snd]. by rewrite !str_app_assoc.
Qed.

Lemma sorted_items_perm d : sorted_items d ≡ₚ d.
Proof. apply sort_by_perm. Qed.

Lemma read_legacy_metadata m : legible (BuildLegacyOtaMetadata m) -> read_legacy (legacy_metadata m) = sorted_items (BuildLegacyOtaMetadata m).
Proof. intros H. apply read_legacy_lines. unfold legible. by rewrite sorted_items_perm. Qed.

(** ** What the dictionary says *)

Lemma od_merge_NoDup (e d : dict) : NoDup (od_keys d) -> NoDup (od_keys (od_merge d e)).
Proof. unfold od_merge. revert d. induction e as [|[k v] e IH]; intros d Hd; [done|]. cbn [fold_left]. by apply IH, od_keys_set_NoDup. Qed.

Lemma legacy_NoDup m : NoDup (od_keys (BuildLegacyOtaMetadata m)).
Proof.
  unfold BuildLegacyOtaMetadata. apply od_merge_NoDup.
  assert (Hif : forall (b : bool) k v (d : dict), NoDup (od_keys d) -> NoDup (od_keys (if b then od_set k v d else d))).
  { intros [] k v d Hd; [by apply od_keys_set_NoDup | done]. }
  apply Hif. destruct (ds_build _); repeat apply od_keys_set_NoDup; apply Hif, Hif; destruct (md_type m); repeat constructor; by apply not_elem_of_nil.
Qed.

Definition file_keys : list string := ["ota-property-files"; "ota-streaming-property-files"].

Lemma od_get_merge_other (e d : dict) k : k ∉ od_keys e -> od_get k (od_merge d e) = od_get k d.
Proof.
  unfold od_merge. revert d. induction e as [|[j v] e IH]; intros d Hk; [done|]. cbn [fold_left]. cbn [od_keys map fst] in Hk.
  rewrite not_elem_of_cons in Hk. destruct Hk as [Hj Hk]. rewrite IH by done. rewrite od_get_set. by rewrite decide_False.
Qed.

Lemma od_get_if k j v (b : bool) (d : dict) : j <> k -> od_get k (if b then od_set j v d else d) = od_get k d.
Proof. intros H. destruct b; [|done]. by rewrite od_get_set, decide_False. Qed.

(** The text names the devices, builds and flags of the message. *)
Lemma legacy_entries m : (forall k, k ∈ od_keys (md_property_files m) -> k ∈ file_keys) ->
  let d := BuildLegacyOtaMetadata m in
  od_get "post-build" d = Some (str_join separator (ds_build (md_postcondition m))) /\
  od_get "pre-device" d = Some (str_join separator (ds_device (md_precondition m))) /\
  od_get "ota-downgrade" d = (if md_downgrade m then Some "yes" else None) /\
  od_get "spl-downgrade" d = (if md_spl_downgrade m then Some "yes" else None).
Proof.
  intros Hk d. subst d. unfold BuildLegacyOtaMetadata.
  assert (Hn : forall k, bool_decide (k ∈ file_keys) = false -> k ∉ od_keys (md_property_files m)).
  { intros k Hf Hin. apply bool_decide_eq_false in Hf. by apply Hf, Hk. }
  rewrite !od_get_merge_other by (by apply Hn).
  split_and!; destruct (md_spl_downgrade m), (ds_build (md_precondition m)), (md_downgrade m), (md_wipe m), (md_type m);
    repeat (rewrite od_get_set; case_decide; try done).
Qed.

Lemma sorted_items_sorted d : NoDup (od_keys d) -> sorted_strictly (od_keys (sorted_items d)).
Proof.
  intros Hd. split.
  - assert (H : StronglySorted (fun a b : string * string => String.leb a.1 b.1 = true) (sorted_items d)).
    { apply (sort_by_sorted (fun a b : string * string => String.leb a.1 b.1)).
      - intros a b. apply string_leb_total.
      - intros a b c. apply string_leb_trans. }
    induction H as [|x l Hs IH Hx]; [constructor|]. cbn [od_keys map]. constructor; [exact IH|]. by apply Forall_map.
  - unfold od_keys. by rewrite (Permutation_map fst (sorted_items_perm d)).
Qed.

(** * Theorem *)

(** C20: [GetPackageMetadata] and [BuildLegacyOtaMetadata].  The metadata lists,
    sorted and once each, the devices and fingerprints of the builds a device
    may be at run time, and those of each partition with properties; an
    incremental package is marked as a downgrade exactly when that was asked
    for, which succeeds only when something in the target was built before its
    counterpart in the source, and an unmarked one only when nothing was.  The
    legacy text is sorted and reads back as the dictionary, whose entries name
    the builds after, the devices before, and the flags. *)
Theorem package_metadata_correct opts target source m : GetPackageMetadata boot_prop opts target source = Ok m ->
  (exists bis, ComputeRuntimeBuildInfos boot_prop target (boot_variables opts) = Ok bis /\
     lists_builds (md_postcondition m) bis /\ lists_partitions (md_postcondition m) target bis) /\
  match source with
  | None => md_downgrade m = false /\ ds_device (md_precondition m) = ds_device (md_postcondition m) /\ ds_build (md_precondition m) = []
  | Some s =>
      (exists bis, ComputeRuntimeBuildInfos boot_prop s (boot_variables opts) = Ok bis /\
         lists_builds (md_precondition m) bis /\ lists_partitions (md_precondition m) s bis) /\
      incremental_source opts = true /\ md_downgrade m = opt_downgrade opts /\
      (if md_downgrade m then exists name, older target s name else forall name, ~ older target s name)
  end /\
  forall files, (forall k, k ∈ od_keys files -> k ∈ file_keys) ->
    let d := BuildLegacyOtaMetadata (set_property_files m files) in
    legible d ->
    read_legacy (legacy_metadata (set_property_files m files)) = sorted_items d /\ sorted_items d ≡ₚ d /\
    sorted_strictly (od_keys (sorted_items d)) /\
    od_get "post-build" d = Some (str_join separator (ds_build (md_postcondition m))) /\
    od_get "pre-device" d = Some (str_join separator (ds_device (md_precondition m))) /\
    od_get "ota-downgrade" d = (if md_downgrade m then Some "yes" else None) /\
    od_get "spl-downgrade" d = (if md_spl_downgrade m then Some "yes" else None).
Proof.
  intros H. unfold GetPackageMetadata in H.
  destruct (UpdateDeviceState boot_prop target (boot_variables opts) true) as [post|] eqn:Epost; [|done].
  apply device_state_listed in Epost.
  assert (Hlegacy : forall files, (forall k, k ∈ od_keys files -> k ∈ file_keys) ->
    let d := BuildLegacyOtaMetadata (set_property_files m files) in legible d ->
    read_legacy (legacy_metadata (set_property_files m files)) = sorted_items d /\ sorted_items d ≡ₚ d /\
    sorted_strictly (od_keys (sorted_items d)) /\
    od_get "post-build" d = Some (str_join separator (ds_build (md_postcondition m))) /\
    od_get "pre-device" d = Some (str_join separator (ds_device (md_precondition m))) /\
    od_get "ota-downgrade" d = (if md_downgrade m then Some "yes" else None) /\
    od_get "spl-downgrade" d = (if md_spl_downgrade m then Some "yes" else None)).
  { intros files Hk d Hd. split; [by apply read_legacy_metadata|]. split; [apply sorted_items_perm|].
    split; [apply sorted_items_sorted, legacy_NoDup|]. by apply (legacy_entries (set_property_files m files)). }
  destruct source as [s|].
  - destruct (UpdateDeviceState boot_prop s _ false) as [pre|] eqn:Epre; [|done]. apply device_state_listed in Epre.
    unfold HandleDowngradeMetadata in H. destruct (incremental_source opts); [|done].
    destruct (compare_timestamps target s) as [log|] eqn:El; [|done]. pose proof (compare_timestamps_spec _ _ _ El) as Hlog.
    destruct (opt_downgrade opts) eqn:Eo, (log_downgrades log) as [|n l]; try done; injection H as <-.
    + split; [exact Epost|]. split; [|exact Hlegacy]. split; [exact Epre|]. split_and!; [done..|].
      exists n. apply Hlog. by left.
    + split; [exact Epost|]. split; [|exact Hlegacy]. split; [exact Epre|]. split_and!; [done..|].
      intros name Hn. apply Hlog in Hn. by apply not_elem_of_nil in Hn.
  - injection H as <-. split; [exact Epost|]. split; [done | exact Hlegacy].
Qed.

End metadata.

(** * Witness *)

(** An A/B build of a given time. *)
Definition dated_files (utc : string) : gmap string string :=
  list_to_map [
    ("META/misc_info.txt", text_lines ["recovery_api_version=3"; "fstab_version=2"; "ab_update=true"]);
    ("META/ab_partitions.txt", "system" +:+ String newline "product");
    ("SYSTEM/build.prop", text_lines
       ["ro.build.fingerprint=acme/std/dev:14/RQ1/77:user/release-keys"; "ro.product.device=dev"; "ro.build.version.incremental=77";
        "ro.build.version.sdk=34"; "ro.build.version.security_patch=2024-01-05"; "ro.build.date.utc=" +:+ utc;
        "ro.system.build.date.utc=" +:+ utc; "ro.system.build.fingerprint=acme/std/dev:14/RQ1/77:user/release-keys";
        "ro.product.system.device=dev"])].

Definition dated_build (utc : string) : BuildInfo :=
  ok_or no_build (let! info := LoadInfoDict no_ramdisk (fun s => s) (fun _ => false) (Some (dated_files utc)) None in new_BuildInfo info [] false).

Definition incremental_options (downgrade : bool) : Options := mkOptions false false downgrade false true None.
Definition no_metadata : OtaMetadata := mkMetadata UNKNOWN false false [] no_state no_state 0 false.
Definition example_metadata : OtaMetadata :=
  ok_or no_metadata (GetPackageMetadata no_ramdisk (incremental_options false) (dated_build "200") (Some (dated_build "100"))).

Example downgrade_refused :
  GetPackageMetadata no_ramdisk (incremental_options false) (dated_build "100") (Some (dated_build "200")) = Raise RuntimeError.
Proof. vm_compute. reflexivity. Qed.

Lemma package_metadata_correct_witness :
  GetPackageMetadata no_ramdisk (incremental_options false) (dated_build "200") (Some (dated_build "100")) = Ok example_metadata /\
  legible (BuildLegacyOtaMetadata (set_property_files example_metadata [("ota-property-files", "metadata:69:379  ")])) /\
  (forall name, ~ older (dated_build "200") (dated_build "100") name) /\
  read_legacy (legacy_metadata (set_property_files example_metadata [("ota-property-files", "metadata:69:379  ")])) =
  sorted_items (BuildLegacyOtaMetadata (set_property_files example_metadata [("ota-property-files", "metadata:69:379  ")])).
Proof.
  assert (H : GetPackageMetadata no_ramdisk (incremental_options false) (dated_build "200") (Some (dated_build "100")) = Ok example_metadata)
    by (apply ok_or_ok; vm_compute; reflexivity).
  assert (Hl : legible (BuildLegacyOtaMetadata (set_property_files example_metadata [("ota-property-files", "metadata:69:379  ")]))).
  { apply (bool_decide_unpack _). vm_compute. exact I. }
  split; [exact H|]. split; [exact Hl|].
  destruct (package_metadata_correct no_ramdisk (incremental_options false) (dated_build "200") (Some (dated_build "100")) example_metadata H)
    as (_ & (_ & _ & Hd & Ho) & Hleg). rewrite Hd in Ho. split; [exact Ho|].
  destruct (Hleg [("ota-property-files", "metadata:69:379  ")]) as [Hr _]; [|exact Hl | exact Hr].
  intros k Hk. apply list_elem_of_singleton in Hk as ->. left.
Defined.
