(* ===== verification/FloatFacts.v ===== *)
(** Bounds on the results of the float operations of PyFloat.v: a finite result
    is below 2^1024, has the sign of the operands, and is off by a relative error
    of at most 2^-52. *)

From Stdlib Require Import SpecFloat.
From S2P Require Export PyFloat.

#[local] Open Scope Z_scope.
#[local] Arguments Z.pow : simpl never.

(** * Digits and shifts *)

Lemma digits2_spec m : 2 ^ (Zdigits2 (Zpos m) - 1) <= Zpos m < 2 ^ Zdigits2 (Zpos m).
Proof.
  cbn [Zdigits2]. induction m as [m IH|m IH|]; cbn [digits2_pos]; [| |by compute].
  - rewrite Pos2Z.inj_succ. replace (Z.succ (Zpos (digits2_pos m)) - 1) with (Z.succ (Zpos (digits2_pos m) - 1)) by lia.
    rewrite !Z.pow_succ_r by lia. lia.
  - rewrite Pos2Z.inj_succ. replace (Z.succ (Zpos (digits2_pos m)) - 1) with (Z.succ (Zpos (digits2_pos m) - 1)) by lia.
    rewrite !Z.pow_succ_r by lia. lia.
Qed.

Lemma digits2_pos_bound m : 1 <= Zdigits2 (Zpos m).
Proof. cbn. lia. Qed.

(** A number below a power of two has no more digits than its exponent. *)
Lemma digits2_le m k : Zpos m < 2 ^ k -> Zdigits2 (Zpos m) <= k.
Proof.
  intros H. destruct (Z.lt_ge_cases k (Zdigits2 (Zpos m))); [|done].
  assert (2 ^ k <= 2 ^ (Zdigits2 (Zpos m) - 1)).
  { destruct (Z.lt_ge_cases k 0); [rewrite (Z.pow_neg_r 2 k) in H by done; lia|]. apply Z.pow_le_mono_r; lia. }
  pose proof (digits2_spec m). lia.
Qed.

Lemma shr_1_m r : 0 <= shr_m r -> shr_m (shr_1 r) = shr_m r / 2.
Proof. destruct r as [[|[p|p|]|p] b c]; cbn; intros H; try done; try lia.
  - rewrite Pos2Z.inj_xI. apply Z.div_unique with 1; lia.
  - rewrite Pos2Z.inj_xO. apply Z.div_unique with 0; lia.
Qed.

Lemma pow_xO p : 2 ^ Zpos p~0 = 2 ^ Zpos p * 2 ^ Zpos p.
Proof. rewrite <- Z.pow_add_r by lia. f_equal. lia. Qed.

Lemma pow_xI p : 2 ^ Zpos p~1 = 2 * (2 ^ Zpos p * 2 ^ Zpos p).
Proof. rewrite <- Z.pow_add_r, <- Z.pow_succ_r by lia. f_equal. lia. Qed.

Lemma iter_shr_m p r : 0 <= shr_m r -> shr_m (SpecFloat.iter_pos shr_1 p r) = shr_m r / 2 ^ Zpos p.
Proof.
  assert (forall q, 0 < 2 ^ Zpos q) as Hpow by (intros q; apply Z.pow_pos_nonneg; lia).
  assert (forall x q, 0 <= x -> 0 <= x / 2 ^ Zpos q) as Hdiv by (intros; apply Z.div_pos; auto).
  revert r. induction p as [p IH|p IH|]; intros r Hr; cbn [SpecFloat.iter_pos].
  - assert (0 <= shr_m (shr_1 r)) as H1 by (rewrite shr_1_m by done; apply Z.div_pos; lia).
    rewrite IH by (rewrite IH by done; auto). rewrite IH, shr_1_m, pow_xI by done.
    rewrite !Z.div_div by (specialize (Hpow p); nia). done.
  - rewrite IH by (rewrite IH by done; auto). rewrite IH, pow_xO by done. rewrite Z.div_div by (specialize (Hpow p); lia). done.
  - rewrite shr_1_m by done. done.
Qed.

Lemma record_of_loc_m m l : shr_m (shr_record_of_loc m l) = m.
Proof. by destruct l as [|[]]. Qed.

(** Where a mantissa goes when it is cut to 53 bits: the number of bits lost. *)
Definition cut (m e : Z) : Z := Z.max 0 (fexp prec emax (Zdigits2 m + e) - e).

Lemma shr_fexp_spec m e l r e' : 0 <= m -> shr_fexp prec emax m e l = (r, e') ->
  shr_m r = m / 2 ^ cut m e /\ e' = e + cut m e.
Proof.
  intros Hm H. unfold shr_fexp, shr, cut in *. destruct (fexp prec emax (Zdigits2 m + e) - e) as [|p|p]; simplify_eq.
  - rewrite record_of_loc_m. change (Z.max 0 0) with 0. rewrite Z.pow_0_r, Z.div_1_r. lia.
  - rewrite iter_shr_m by (by rewrite record_of_loc_m). rewrite record_of_loc_m. by change (Z.max 0 (Zpos p)) with (Zpos p).
  - rewrite record_of_loc_m. change (Z.max 0 (Zneg p)) with 0. rewrite Z.pow_0_r, Z.div_1_r. lia.
Qed.

(** The cut leaves at most 53 bits. *)
Lemma cut_small m e : 0 <= m -> 0 <= m / 2 ^ cut m e < 2 ^ 53.
Proof.
  intros Hm. assert (0 < 2 ^ cut m e) by (apply Z.pow_pos_nonneg; unfold cut; lia).
  split; [by apply Z.div_pos|]. destruct m as [|p|p]; [rewrite Z.div_0_l by lia; by compute| |lia].
  apply Z.div_lt_upper_bound; [done|]. rewrite <- Z.pow_add_r by (unfold cut; lia).
  pose proof (digits2_spec p) as [_ Hp]. eapply Z.lt_le_trans; [exact Hp|]. apply Z.pow_le_mono_r; [lia|].
  unfold cut, fexp, prec. lia.
Qed.

(** What is lost is less than one part in 2^52, unless the exponent is at its minimum. *)
Lemma cut_near p e : emin prec emax + 53 <= Zdigits2 (Zpos p) + e ->
  Zpos p * (2 ^ 52 - 1) <= Zpos p / 2 ^ cut (Zpos p) e * 2 ^ cut (Zpos p) e * 2 ^ 52.
Proof.
  intros He. set (n := cut (Zpos p) e). assert (0 <= n) as Hn by (unfold n, cut; lia).
  assert (0 < 2 ^ n) as Hp by (by apply Z.pow_pos_nonneg).
  pose proof (Z.div_mod (Zpos p) (2 ^ n) ltac:(lia)) as Hd. pose proof (Z.mod_pos_bound (Zpos p) (2 ^ n) Hp) as Hr.
  destruct (Z.eq_dec n 0) as [E|E]; [rewrite E, Z.pow_0_r, Z.div_1_r; lia|].
  assert (n = Zdigits2 (Zpos p) - 53) as En by (unfold n, cut, fexp, prec in *; lia).
  pose proof (digits2_spec p) as [Hlo _]. replace (Zdigits2 (Zpos p) - 1) with (52 + n) in Hlo by lia.
  rewrite Z.pow_add_r in Hlo by lia. nia.
Qed.

Lemma round_even_range m l : m <= round_nearest_even m l <= m + 1.
Proof. destruct l as [|[]]; cbn; try lia. destruct (Z.even m); lia. Qed.

(** Rounding up makes at most one bit more, and that one is a zero. *)
Lemma recut_exact q e : Zpos q <= 2 ^ 53 -> emin prec emax <= e ->
  0 <= cut (Zpos q) e <= 1 /\ Zpos q = Zpos q / 2 ^ cut (Zpos q) e * 2 ^ cut (Zpos q) e.
Proof.
  intros Hq He. assert (Zdigits2 (Zpos q) <= 54) as Hd by (apply digits2_le; assert (2 ^ 54 = 2 * 2 ^ 53) by done; lia).
  assert (0 <= cut (Zpos q) e <= 1) as Hc by (unfold cut, fexp, prec in *; lia). split; [done|].
  destruct (Z.eq_dec (cut (Zpos q) e) 0) as [->|Hne]; [rewrite Z.pow_0_r, Z.div_1_r; lia|].
  replace (cut (Zpos q) e) with 1 by lia. destruct (Z.eq_dec (Zpos q) (2 ^ 53)) as [->|Hlt]; [by compute|].
  assert (Zdigits2 (Zpos q) <= 53) by (apply digits2_le; lia). exfalso. unfold cut, fexp, prec in *. lia.
Qed.

(** * Rounding *)

(** A finite result has the sign asked for and fits the format; a result is never a nan. *)
Lemma round_aux_bounded s m e l : 0 <= m ->
  match binary_round_aux prec emax s m e l with
  | S754_finite s' m' e' => s' = s /\ Zpos m' < 2 ^ 53 /\ e' <= 971
  | S754_zero _ | S754_infinity _ => True
  | S754_nan => False
  end.
Proof.
  intros Hm. unfold binary_round_aux. destruct (shr_fexp prec emax m e l) as [r1 e1] eqn:E1.
  apply shr_fexp_spec in E1 as [H1 He1]; [|done]. pose proof (cut_small m e Hm) as Hc. rewrite <- H1 in Hc.
  pose proof (round_even_range (shr_m r1) (loc_of_shr_record r1)) as Hr.
  set (m1 := round_nearest_even _ _) in *. destruct (shr_fexp prec emax m1 e1 loc_Exact) as [r2 e2] eqn:E2.
  apply shr_fexp_spec in E2 as [H2 He2]; [|lia]. pose proof (cut_small m1 e1 ltac:(lia)) as Hc2. rewrite <- H2 in Hc2.
  destruct (shr_m r2) as [|p|p]; [done| |lia]. destruct (Z.leb_spec e2 (emax - prec)) as [Hle|]; [|done].
  split; [done|]. unfold emax, prec in Hle. lia.
Qed.

(** A number far from both ends of the range is rounded to a finite one, below it
    by less than one part in 2^52 if at all. *)
Lemma round_aux_near s p e b : emin prec emax + 53 <= Zdigits2 (Zpos p) + e <= b -> b <= 900 ->
  exists m' e', binary_round_aux prec emax s (Zpos p) e loc_Exact = S754_finite s m' e' /\
    e <= e' <= Z.max 0 b + 2 /\ Zpos p * (2 ^ 52 - 1) <= Zpos m' * 2 ^ (e' - e) * 2 ^ 52.
Proof.
  intros He Hb. unfold binary_round_aux. destruct (shr_fexp prec emax (Zpos p) e loc_Exact) as [r1 e1] eqn:E1.
  apply shr_fexp_spec in E1 as [H1 He1]; [|done]. pose proof (cut_small (Zpos p) e ltac:(lia)) as Hc. rewrite <- H1 in Hc.
  pose proof (cut_near p e ltac:(lia)) as Hn. rewrite <- H1 in Hn.
  assert (0 <= cut (Zpos p) e) as Hc0 by (unfold cut; lia). assert (e1 <= Z.max 0 b + 1 /\ (emin prec emax <= e1 \/ e1 = e)) as He1'.
  { pose proof (digits2_pos_bound p). unfold cut, fexp, prec, emax, emin in *. lia. }
  set (c := cut (Zpos p) e) in *.
  pose proof (round_even_range (shr_m r1) (loc_of_shr_record r1)) as Hr. set (m1 := round_nearest_even _ _) in *.
  assert (0 < 2 ^ c) as Hpc by (by apply Z.pow_pos_nonneg). assert (0 < m1) as Hm1 by nia.
  destruct m1 as [|q|q] eqn:Em; [done| |done]. assert (Zpos q <= 2 ^ 53) as Hq by lia.
  assert (shr_m r1 <= Zpos q) as Hle by lia. clear Em Hr.
  destruct (shr_fexp prec emax (Zpos q) e1 loc_Exact) as [r2 e2] eqn:E2. apply shr_fexp_spec in E2 as [H2 He2]; [|done].
  assert (Zpos q = shr_m r2 * 2 ^ (e2 - e1) /\ e1 <= e2 <= e1 + 1) as [Hx He3].
  { destruct (recut_exact q e1 Hq) as [Hcut Hx]; [unfold c, cut, fexp, prec, emax, emin in *; lia|].
    rewrite H2, He2. split; [|lia]. by replace (e1 + cut (Zpos q) e1 - e1) with (cut (Zpos q) e1) by lia. }
  assert (0 < 2 ^ (e2 - e1)) by (apply Z.pow_pos_nonneg; lia).
  destruct (shr_m r2) as [|k|k]; [lia| |lia]. destruct (Z.leb_spec e2 (emax - prec)); [|unfold emax, prec in *; lia].
  exists k, e2. split; [done|]. split; [lia|]. replace (e2 - e) with (c + (e2 - e1)) by lia. rewrite Z.pow_add_r by lia.
  replace (Zpos k * (2 ^ c * 2 ^ (e2 - e1))) with (Zpos q * 2 ^ c) by (rewrite Hx; ring).
  etrans; [exact Hn|]. apply Z.mul_le_mono_nonneg_r; [done|]. apply Z.mul_le_mono_nonneg_r; lia.
Qed.

(** * The operations *)

Lemma SFdiv_core_nonneg a ea b eb : 0 <= (SFdiv_core_binary prec emax (Zpos a) ea (Zpos b) eb).1.1.
Proof.
  unfold SFdiv_core_binary. destruct (Z.div_eucl _ _) as [q r] eqn:E. cbn.
  replace q with (fst (Z.div_eucl (match ea - eb - Z.min (fexp prec emax (Zdigits2 (Zpos a) + ea - (Zdigits2 (Zpos b) + eb))) (ea - eb) with
    | Z0 => Zpos a | Zpos _ => Z.shiftl (Zpos a) (ea - eb - Z.min (fexp prec emax (Zdigits2 (Zpos a) + ea - (Zdigits2 (Zpos b) + eb))) (ea - eb)) | Zneg _ => 0 end) (Zpos b))) by (by rewrite E).
  apply (Z.div_pos _ (Zpos b)); [|lia]. case_match; [lia| |lia]. apply Z.shiftl_nonneg. lia.
Qed.

(** A finite quotient is that of finite numbers; its sign is theirs. *)
Lemma SFdiv_finite a b s m e : SFdiv prec emax a b = S754_finite s m e ->
  (exists sa ma ea sb mb eb, a = S754_finite sa ma ea /\ b = S754_finite sb mb eb /\ s = xorb sa sb) /\ Zpos m < 2 ^ 53 /\ e <= 971.
Proof.
  intros H. destruct a as [|sa'| |sa ma ea], b as [|sb'| |sb mb eb]; try discriminate H.
  cbn [SFdiv] in H. pose proof (SFdiv_core_nonneg ma ea mb eb) as Hq.
  destruct (SFdiv_core_binary prec emax (Zpos ma) ea (Zpos mb) eb) as [[q e'] l]. cbn in Hq.
  pose proof (round_aux_bounded (xorb sa sb) q e' l Hq) as Hb. rewrite H in Hb. destruct Hb as (-> & ? & ?). naive_solver.
Qed.

Lemma float_div_finite a b s m e : float_div a b = Ok (S754_finite s m e) ->
  (exists sa ma ea sb mb eb, a = S754_finite sa ma ea /\ b = S754_finite sb mb eb /\ s = xorb sa sb) /\ Zpos m < 2 ^ 53 /\ e <= 971.
Proof. intros H. apply SFdiv_finite. destruct b; cbn in H; try done; by injection H. Qed.

Lemma binary_round_sign s p e s' m e' : binary_round prec emax s p e = S754_finite s' m e' -> s' = s.
Proof.
  unfold binary_round. destruct (shl_align p e _) as [q eq]. intros H.
  pose proof (round_aux_bounded s (Zpos q) eq loc_Exact ltac:(lia)) as Hb. rewrite H in Hb. tauto.
Qed.

(** A positive integer becomes a number without a sign. *)
Lemma float_of_Z_sign z s m e : 0 < z -> float_of_Z z = Ok (S754_finite s m e) -> s = false.
Proof.
  intros Hz H. destruct z as [|p|p]; [lia| |lia]. unfold float_of_Z in H. cbn [binary_normalize] in H.
  destruct (binary_round prec emax false p 0) eqn:E; try done. injection H as <- <- <-. by apply binary_round_sign in E.
Qed.

(** [int(x)] is below 2^1024, and not negative for a number without a sign. *)
Lemma float_trunc_lt s m e z : Zpos m < 2 ^ 53 -> e <= 971 -> float_trunc (S754_finite s m e) = Ok z -> z < 2 ^ 1024.
Proof.
  intros Hm He. cbn [float_trunc]. assert (2 ^ 1024 = 2 ^ 53 * 2 ^ 971) as -> by (by rewrite <- Z.pow_add_r by lia).
  assert (0 < 2 ^ 971) by (apply Z.pow_pos_nonneg; lia).
  destruct (Z.leb_spec 0 e) as [H0|H0]; intros [= <-].
  - assert (0 < 2 ^ e <= 2 ^ 971) by (split; [apply Z.pow_pos_nonneg|apply Z.pow_le_mono_r]; lia).
    destruct s; cbn [float_num]; nia.
  - assert (0 < 2 ^ (- e)) by (apply Z.pow_pos_nonneg; lia).
    assert (Z.quot (float_num s m) (2 ^ (- e)) <= Zpos m); [|nia].
    destruct s; cbn [float_num]; [rewrite <- Pos2Z.opp_pos, Z.quot_opp_l by lia|]; pose proof (Z.quot_pos (Zpos m) (2 ^ (- e)) ltac:(lia) ltac:(lia)); [lia|].
    apply Z.quot_le_upper_bound; [lia|nia].
Qed.

Lemma float_trunc_nonneg m e z : float_trunc (S754_finite false m e) = Ok z -> 0 <= z.
Proof.
  cbn [float_trunc]. destruct (Z.leb_spec 0 e); intros [= <-]; cbn [float_num].
  - assert (0 < 2 ^ e) by (by apply Z.pow_pos_nonneg). nia.
  - apply Z.quot_pos; [lia|]. apply Z.pow_pos_nonneg; lia.
Qed.

Lemma iter_xO p d : Zpos (Pos.iter xO p d) = Zpos p * 2 ^ Zpos d /\ Zdigits2 (Zpos (Pos.iter xO p d)) = Zdigits2 (Zpos p) + Zpos d.
Proof.
  induction d as [|d [IH1 IH2]] using Pos.peano_ind; [split; [cbn; rewrite Z.pow_1_r; lia|cbn; lia]|].
  rewrite Pos.iter_succ. rewrite Pos2Z.inj_succ, Z.pow_succ_r by lia. cbn [Zdigits2 digits2_pos] in *. split; lia.
Qed.

(** Widening a mantissa to 53 bits does not change its value. *)
Lemma shl_align_value p q eq : 1 <= Zdigits2 (Zpos p) -> shl_align p 0 (fexp prec emax (Zdigits2 (Zpos p) + 0)) = (q, eq) ->
  Zpos q = Zpos p * 2 ^ (- eq) /\ -53 <= eq <= 0 /\ Zdigits2 (Zpos q) = Zdigits2 (Zpos p) - eq.
Proof.
  intros Hd. assert (-52 <= fexp prec emax (Zdigits2 (Zpos p) + 0)) as Hf by (unfold fexp, prec; lia).
  revert Hf. generalize (fexp prec emax (Zdigits2 (Zpos p) + 0)). intros D Hf.
  unfold shl_align. destruct (D - 0) as [|k|k] eqn:Ek; intros [= <- <-]; [rewrite Z.pow_0_r; lia..|].
  destruct (iter_xO p k) as [-> ->]. replace D with (Zneg k) by lia. change (- Zneg k) with (Zpos k). lia.
Qed.

(** An integer in range becomes a float that is at most one part in 2^52 below it. *)
Lemma float_of_Z_near z : 0 < z < 2 ^ 300 -> exists m e, float_of_Z z = Ok (S754_finite false m e) /\
  -53 <= e <= 302 /\ Zpos m < 2 ^ 53 /\ z * (2 ^ 52 - 1) * 2 ^ 53 <= Zpos m * 2 ^ (e + 53) * 2 ^ 52.
Proof.
  intros Hz. destruct z as [|p|p]; [lia| |lia]. unfold float_of_Z. cbn [binary_normalize]. unfold binary_round.
  change (Zpos (digits2_pos p)) with (Zdigits2 (Zpos p)).
  assert (1 <= Zdigits2 (Zpos p) <= 300) as Hd by (pose proof (digits2_le p 300 ltac:(lia)); pose proof (digits2_pos_bound p); lia).
  destruct (shl_align p 0 (fexp prec emax (Zdigits2 (Zpos p) + 0))) as [q eq] eqn:Es.
  apply shl_align_value in Es as (Hq & Heq & Hdq); [|lia].
  destruct (round_aux_near false q eq 300) as (m & e & Er & He & Hn); [unfold emin, prec, emax; lia|done|].
  pose proof (round_aux_bounded false (Zpos q) eq loc_Exact ltac:(lia)) as Hb. rewrite Er in Hb |- *.
  exists m, e. split; [done|]. split; [lia|]. split; [tauto|]. rewrite Hq in Hn.
  replace (e + 53) with ((e - eq) + (eq + 53)) by lia. rewrite Z.pow_add_r by lia.
  replace (2 ^ 53) with (2 ^ (- eq) * 2 ^ (eq + 53)) by (rewrite <- Z.pow_add_r by lia; f_equal; lia).
  assert (0 < 2 ^ (eq + 53)) by (apply Z.pow_pos_nonneg; lia).
  apply (Z.mul_le_mono_nonneg_r _ _ (2 ^ (eq + 53))) in Hn; [|lia]. etrans; [etrans; [|exact Hn]|]; apply Z.eq_le_incl; ring.
Qed.


(** Truncation leaves at least [k] of a number that is at least [k]. *)
Lemma float_trunc_ge m e k c : 0 <= c -> 0 <= e + c -> k * 2 ^ c <= Zpos m * 2 ^ (e + c) ->
  exists n, float_trunc (S754_finite false m e) = Ok n /\ k <= n.
Proof.
  intros Hc He Hk. cbn [float_trunc float_num]. eexists. split; [done|]. assert (0 < 2 ^ c) by (by apply Z.pow_pos_nonneg).
  destruct (Z.leb_spec 0 e).
  - rewrite Z.pow_add_r in Hk by lia. assert (0 < 2 ^ e) by (by apply Z.pow_pos_nonneg). nia.
  - assert (0 < 2 ^ (- e)) by (apply Z.pow_pos_nonneg; lia). assert (0 < 2 ^ (e + c)) by (by apply Z.pow_pos_nonneg).
    replace (2 ^ c) with (2 ^ (- e) * 2 ^ (e + c)) in Hk by (rewrite <- Z.pow_add_r by lia; f_equal; lia).
    destruct (Z.lt_ge_cases k 0); [pose proof (Z.quot_pos (Zpos m) (2 ^ (- e)) ltac:(lia) ltac:(lia)); lia|].
    apply Z.quot_le_lower_bound; [done|]. nia.
Qed.

(** [int(z * c)] for a positive float [c], with both roundings against it. *)
Lemma float_mul_trunc z mc ec k : 0 < z < 2 ^ 300 -> Zpos mc < 2 ^ 53 -> -100 <= ec <= 0 ->
  k * 2 ^ 104 * 2 ^ (- ec) <= z * (2 ^ 52 - 1) * (2 ^ 52 - 1) * Zpos mc ->
  exists f n, float_of_Z z = Ok f /\ float_trunc (float_mul f (S754_finite false mc ec)) = Ok n /\ k <= n.
Proof.
  intros Hz Hmc Hec Hk. destruct (float_of_Z_near z Hz) as (m & e & Hf & He & Hm & Hn). exists (S754_finite false m e).
  unfold float_mul. cbn [SFmul xorb].
  assert (1 <= Zdigits2 (Zpos (m * mc)) <= 106) as Hd.
  { split; [apply digits2_pos_bound|]. apply digits2_le. rewrite Pos2Z.inj_mul. replace (2 ^ 106) with (2 ^ 53 * 2 ^ 53) by done. nia. }
  destruct (round_aux_near false (m * mc) (e + ec) 408) as (m2 & e2 & -> & He2 & Hn2); [unfold emin, prec, emax; lia|done|].
  destruct (float_trunc_ge m2 e2 k (53 - ec)) as (n & Hn' & Hkn); [lia..| |eauto].
  rewrite Pos2Z.inj_mul in Hn2. replace (53 - ec) with (- ec + 53) by lia. rewrite Z.pow_add_r by lia.
  replace (e2 + (- ec + 53)) with ((e2 - (e + ec)) + (e + 53)) by lia. rewrite Z.pow_add_r by lia.
  assert (0 < 2 ^ (e + 53)) as Hp by (apply Z.pow_pos_nonneg; lia).
  apply (Z.mul_le_mono_pos_r _ _ (2 ^ 104)); [done|].
  apply (Z.mul_le_mono_nonneg_r _ _ (2 ^ 53)) in Hk; [|done].
  apply (Z.mul_le_mono_nonneg_r _ _ ((2 ^ 52 - 1) * Zpos mc)) in Hn; [|lia].
  apply (Z.mul_le_mono_nonneg_r _ _ (2 ^ (e + 53) * 2 ^ 52)) in Hn2; [|lia].
  replace (2 ^ 104) with (2 ^ 52 * 2 ^ 52) in Hk |- * by done. lia.
Qed.
