(* ===== verification/HostTools.v ===== *)
(** Computations of tools that run other programs: they change the state of the
    host (files, processes), return a value or raise, and keep the state when
    they raise.  The programs and the file system are the operations of a class;
    [run_and_check_output] and the rest of common.py's wrappers are built on
    them. *)

From S2P Require Export PyText PyFile.

#[local] Open Scope string_scope.
#[local] Open Scope list_scope.
#[local] Open Scope Z_scope.

(** * Computations *)

Definition io (W A : Type) : Type := W -> result A * W.

Definition io_ret {W A} (a : A) : io W A := fun w => (Ok a, w).
Definition io_raise {W A} (e : exn) : io W A := fun w => (Raise e, w).
(** A step that does not touch the host. *)
Definition io_pure {W A} (r : result A) : io W A := fun w => (r, w).
Definition io_bind {W A B} (m : io W A) (k : A -> io W B) : io W B := fun w =>
  match m w with (Ok a, w') => k a w' | (Raise e, w') => (Raise e, w') end.

Notation "'let*' p ':=' m 'in' k" :=
  (io_bind m (fun x__ => match x__ with p => k end))
  (at level 10, p pattern, m at level 100, k at level 200,
   format "'[v' 'let*'  p  ':='  m  'in' '/' k ']'") : py_scope.

(** [try: m finally: f]. *)
Definition io_finally {W A} (m : io W A) (f : io W unit) : io W A := fun w =>
  let '(r, w1) := m w in
  match f w1 with (Ok _, w2) => (r, w2) | (Raise e, w2) => (Raise e, w2) end.

(** [try: m except: h; raise]. *)
Definition io_on_error {W A} (m : io W A) (h : io W unit) : io W A := fun w =>
  match m w with
  | (Ok a, w1) => (Ok a, w1)
  | (Raise e, w1) => match h w1 with (Ok _, w2) => (Raise e, w2) | (Raise e', w2) => (Raise e', w2) end
  end.

(** A computation on a part of a larger state. *)
Definition io_zoom {S T A} (get : S -> T) (set : T -> S -> S) (m : io T A) : io S A := fun s =>
  let '(r, t) := m (get s) in (r, set t s).

Definition io_when {W} (b : bool) (m : io W unit) : io W unit := if b then m else io_ret tt.

(** * The host *)

(** What the tools ask of the host.  [run_process] returns the exit status and the
    output (standard output and error together). *)
Class Host (W : Type) := {
  run_process : list string -> io W (Z * string);
  path_exists : string -> W -> bool;
  remove_file : string -> io W unit;
  rename_file : string -> string -> io W unit;
  make_temp_dir : io W string;
  make_temp_file : string -> string -> io W string;
  remove_tree : string -> bool -> io W unit;
  copy_tree : string -> string -> io W unit;
  read_lines : string -> io W (list string);
  write_lines : string -> list string -> io W unit;
  read_bytes : string -> io W bytes
}.

(** [RunAndCheckOutput] of common.py. *)
Definition RunAndCheckOutput {W} `{Host W} (args : list string) : io W string :=
  let* (status, output) := run_process args in
  if status =? 0 then io_ret output else io_raise ExternalError.

(** [RoundUpTo4K]. *)
Definition RoundUpTo4K (value : Z) : Z := let rounded_up := value + 4095 in rounded_up - rounded_up mod 4096.

(** * Laws *)

Section laws.
Context {W A : Type}.

Lemma io_bind_ret {B} (a : A) (k : A -> io W B) w : io_bind (io_ret a) k w = k a w.
Proof. done. Qed.

Lemma io_bind_assoc {B C} (m : io W A) (k : A -> io W B) (h : B -> io W C) w :
  io_bind (io_bind m k) h w = io_bind m (fun a => io_bind (k a) h) w.
Proof. unfold io_bind. by destruct (m w) as [[a|e] w']. Qed.

(** The run of the first half decides how the whole goes on. *)
Lemma io_bind_run {B} (m : io W A) (k : A -> io W B) w a w1 : m w = (Ok a, w1) -> io_bind m k w = k a w1.
Proof. unfold io_bind. by intros ->. Qed.

(** A run that returns went through both halves. *)
Lemma io_bind_ok {B} (m : io W A) (k : A -> io W B) w b w' :
  io_bind m k w = (Ok b, w') -> exists a w1, m w = (Ok a, w1) /\ k a w1 = (Ok b, w').
Proof. unfold io_bind. destruct (m w) as [[a|e] w1]; [eauto|done]. Qed.

Lemma io_pure_ok (r : result A) (w : W) a w' : io_pure r w = (Ok a, w') -> r = Ok a /\ w' = w.
Proof. by intros [= -> ->]. Qed.

Lemma io_finally_ok (m : io W A) f w a w' : io_finally m f w = (Ok a, w') -> exists w1, m w = (Ok a, w1).
Proof. unfold io_finally. destruct (m w) as [r w1]. destruct (f w1) as [[]]; intros [=]; subst; eauto. Qed.
End laws.

Lemma io_zoom_ok {S T A} (get : S -> T) (set : T -> S -> S) (m : io T A) s a s' :
  io_zoom get set m s = (Ok a, s') -> exists t, m (get s) = (Ok a, t) /\ s' = set t s.
Proof. unfold io_zoom. destruct (m (get s)) as [r t]. intros [= -> <-]. eauto. Qed.

Lemma RoundUpTo4K_spec n : RoundUpTo4K n mod 4096 = 0 /\ n <= RoundUpTo4K n < n + 4096.
Proof.
  unfold RoundUpTo4K. pose proof (Z.mod_pos_bound (n + 4095) 4096 ltac:(lia)). split; [|lia].
  pose proof (Z.div_mod (n + 4095) 4096 ltac:(lia)).
  replace (n + 4095 - (n + 4095) mod 4096) with (0 + (n + 4095) / 4096 * 4096) by lia. by rewrite Z.mod_add.
Qed.

(** One step of a run that returned. *)
Tactic Notation "step" hyp(H) simple_intropattern(x) simple_intropattern(s1) simple_intropattern(E) :=
  apply io_bind_ok in H as (x & s1 & E & H).

(** Takes a run that returned apart. *)
Ltac io_ok :=
  repeat match goal with
  | H : io_bind _ _ _ = (Ok _, _) |- _ => apply io_bind_ok in H as (? & ? & ? & ?); cbv beta iota in *
  | H : io_pure _ _ = (Ok _, _) |- _ => apply io_pure_ok in H as [? ?]; subst
  | H : io_ret _ _ = (Ok _, _) |- _ => unfold io_ret in H; simplify_eq
  | H : io_raise _ _ = (Ok _, _) |- _ => discriminate H
  | H : (match ?x with (_, _) => _ end) _ = (Ok _, _) |- _ => destruct x
  end.
