(* ===== verification/Verity.v ===== *)
(** releasetools/verity_utils.py: the builder that adds the metadata of Verified
    Boot to an image ([VerifiedBootVersion2VerityImageBuilder]) and finds the
    smallest partition that holds an image of a given size.  avbtool is a
    program of the host. *)

From stdpp Require Export gmap strings.
From S2P Require Export PyFloat HostTools.

#[local] Open Scope string_scope.
#[local] Open Scope list_scope.
#[local] Open Scope Z_scope.

Definition VERITY_BLOCK_SIZE : Z := 4096.

(** * Properties of an image *)

(** The values of a property dictionary: texts, or integers the tools store. *)
Inductive PropValue := PText (s : string) | PNumber (n : Z).
Abbreviation image_props := (gmap string PropValue).

Definition prop_eq (d : image_props) (key value : string) : bool :=
  match d !! key with Some (PText s) => String.eqb s value | _ => false end.
Definition prop_in (d : image_props) (key : string) : bool := bool_decide (is_Some (d !! key)).
(** [d[key]], and a value that must be a text. *)
Definition prop_at (d : image_props) (key : string) : result PropValue := of_option KeyError (d !! key).
Definition as_text (e : exn) (v : PropValue) : result string := match v with PText s => Ok s | PNumber _ => Raise e end.
Definition text_at (d : image_props) (key : string) : result string := let! v := prop_at d key in as_text TypeError v.
(** [int(v)] and [str(v)]. *)
Definition prop_int (v : PropValue) : result Z := match v with PText s => py_int s | PNumber n => Ok n end.
Definition prop_text (v : PropValue) : string := match v with PText s => s | PNumber n => py_str n end.
Definition prop_true (v : PropValue) : bool := match v with PText s => str_true s | PNumber n => negb (n =? 0) end.
(** [d.get(key)] as a text, if it is there. *)
Definition opt_text (d : image_props) (key : string) : result (option string) :=
  match d !! key with None => Ok None | Some v => let! s := as_text TypeError v in Ok (Some s) end.

(** * The search for a partition size *)

(** [int(image_size / (max_image_size / float(partition_size)))]. *)
Definition estimate (image_size max_image_size partition_size : Z) : result Z :=
  let! p := float_of_Z partition_size in
  let! m := float_of_Z max_image_size in
  let! image_ratio := float_div m p in
  let! i := float_of_Z image_size in
  let! q := float_div i image_ratio in
  float_trunc q.

Definition blocks_below (n : Z) : Z := n / VERITY_BLOCK_SIZE * VERITY_BLOCK_SIZE.

Section search.
Context {S : Type} (size_calculator : Z -> io S Z) (image_size : Z).

(** The loop that lowers [lo]: [max_image_size] is that of [lo]. *)
Fixpoint lower (fuel : nat) (delta lo max_image_size : Z) : io S Z :=
  match fuel with
  | O => io_raise OutOfFuel
  | Datatypes.S fuel =>
      if image_size <? max_image_size then
        let* e := io_pure (estimate image_size max_image_size lo) in
        let lo := blocks_below e - delta in
        let* max_image_size := size_calculator lo in
        lower fuel (delta * 2) lo max_image_size
      else io_ret lo
  end.

(** The loop that raises [hi]. *)
Fixpoint raise_hi (fuel : nat) (delta hi max_image_size : Z) : io S Z :=
  match fuel with
  | O => io_raise OutOfFuel
  | Datatypes.S fuel =>
      if max_image_size <? image_size then
        let* e := io_pure (estimate image_size max_image_size hi) in
        let hi := blocks_below e + delta in
        let* max_image_size := size_calculator hi in
        raise_hi fuel (delta * 2) hi max_image_size
      else io_ret hi
  end.

Fixpoint bisect (fuel : nat) (lo hi partition_size : Z) : io S Z :=
  match fuel with
  | O => io_raise OutOfFuel
  | Datatypes.S fuel =>
      if lo <? hi then
        let mid := (lo + hi) / (2 * VERITY_BLOCK_SIZE) * VERITY_BLOCK_SIZE in
        let* max_image_size := size_calculator mid in
        if image_size <=? max_image_size then
          bisect fuel lo mid (if mid <? partition_size then mid else partition_size)
        else bisect fuel (mid + VERITY_BLOCK_SIZE) hi partition_size
      else io_ret partition_size
  end.

Definition MinPartitionSize (fuel : nat) : io S Z :=
  let* max_image_size := size_calculator image_size in
  let* e := io_pure (estimate image_size max_image_size image_size) in
  let lo := blocks_below e - VERITY_BLOCK_SIZE in
  let* max_image_size := size_calculator lo in
  let* lo := lower fuel VERITY_BLOCK_SIZE lo max_image_size in
  let hi := lo + VERITY_BLOCK_SIZE in
  let* max_image_size := size_calculator hi in
  let* hi := raise_hi fuel VERITY_BLOCK_SIZE hi max_image_size in
  bisect fuel lo hi hi.
End search.

(** * Builders *)

(** [VerityImageBuilder]. *)
Class VerityImageBuilder (W B : Type) := {
  CalculateMaxImageSize : option Z -> io (B * W) Z;
  CalculateDynamicPartitionSize : Z -> io (B * W) Z;
  PadSparseImage : string -> io (B * W) unit;
  Build : string -> io (B * W) unit
}.

Definition AVB_HASH_FOOTER : Z := 1.
Definition AVB_HASHTREE_FOOTER : Z := 2.

(** [VerifiedBootVersion2VerityImageBuilder]. *)
Record V2Builder := mkV2Builder {
  vb_partition_name : string;
  vb_partition_size : option PropValue;
  vb_footer_type : Z;
  vb_avbtool : string;
  vb_key_path : option string;
  vb_algorithm : option string;
  vb_salt : string;
  vb_signing_args : string;
  vb_image_size : option Z
}.

Definition set_vb_partition_size (p : Z) (b : V2Builder) : V2Builder :=
  mkV2Builder (vb_partition_name b) (Some (PNumber p)) (vb_footer_type b) (vb_avbtool b) (vb_key_path b) (vb_algorithm b) (vb_salt b)
    (vb_signing_args b) (vb_image_size b).
Definition set_vb_image_size (n : Z) (b : V2Builder) : V2Builder :=
  mkV2Builder (vb_partition_name b) (vb_partition_size b) (vb_footer_type b) (vb_avbtool b) (vb_key_path b) (vb_algorithm b) (vb_salt b)
    (vb_signing_args b) (Some n).

Section builder.
Context {W : Type} `{Host W}.
(** [OPTIONS.search_path]. *)
Variable search_path : option string.
Variable sha256_hex : string -> string.
(** The fuel of the search for a partition size. *)
Variable fuel : nat.

Definition ResolveBinaryPath (path : string) : io W string := fun w =>
  if path_exists path w then (Ok path, w)
  else match search_path with
       | Some dir =>
           let new_path := path_join dir path in
           if str_true dir && path_exists new_path w then (Ok new_path, w) else (Raise ExternalError, w)
       | None => (Raise ExternalError, w)
       end.

(** [ResolveAVBSigningPathArgs] of the path of a key, which may be absent. *)
Definition ResolveAVBSigningPathArgs (path : option string) : io W (option string) :=
  match path with
  | Some p => if str_true p then let* q := ResolveBinaryPath p in io_ret (Some q) else io_ret (Some p)
  | None => io_ret None
  end.

Definition new_V2Builder (partition_name : string) (partition_size : option PropValue) (footer_type : Z) (avbtool : string)
    (key_path algorithm : option string) (salt signing_args : string) : io W V2Builder :=
  let* key_path := ResolveAVBSigningPathArgs key_path in
  io_ret (mkV2Builder partition_name partition_size footer_type avbtool key_path algorithm salt signing_args None).

Definition verity_partition_size (prop_dict : image_props) : result (option PropValue) :=
  match prop_dict !! "partition_size" with
  | None => Ok None
  | Some v => if prop_true v then let! n := prop_int v in Ok (Some (PNumber n)) else Ok (Some v)
  end.

(** The salt, by default from the fingerprint. *)
Definition verity_salt (prop_dict : image_props) : result PropValue :=
  match prop_dict !! "avb_salt" with
  | Some v => Ok v
  | None =>
      match prop_dict !! "fingerprint" with
      | None => Ok (PText (sha256_hex ""))
      | Some (PText s) => Ok (PText (sha256_hex s))
      | Some (PNumber _) => Raise AttributeError
      end
  end.

Definition CreateVerityImageBuilder (prop_dict : image_props) : io W (option V2Builder) :=
  let* partition_size := io_pure (verity_partition_size prop_dict) in
  let* salt := io_pure (verity_salt prop_dict) in
  if prop_eq prop_dict "avb_hash_enable" "true" || prop_eq prop_dict "avb_hashtree_enable" "true" then
    let '(footer_type, args_key) :=
      if prop_eq prop_dict "avb_hash_enable" "true" then (AVB_HASH_FOOTER, "avb_add_hash_footer_args")
      else (AVB_HASHTREE_FOOTER, "avb_add_hashtree_footer_args") in
    let* partition_name := io_pure (text_at prop_dict "partition_name") in
    let* avbtool := io_pure (text_at prop_dict "avb_avbtool") in
    let* signing_args := io_pure (text_at prop_dict args_key) in
    let* key_path := io_pure (opt_text prop_dict "avb_key_path") in
    let* algorithm := io_pure (opt_text prop_dict "avb_algorithm") in
    let* salt := io_pure (as_text TypeError salt) in
    let* b := new_V2Builder partition_name partition_size footer_type avbtool key_path algorithm salt signing_args in
    io_ret (Some b)
  else io_ret None.

(** The command of avbtool for the kind of footer. *)
Definition add_footer (b : V2Builder) : string :=
  if vb_footer_type b =? AVB_HASH_FOOTER then "add_hash_footer" else "add_hashtree_footer".

Definition on_host {A} (m : io W A) : io (V2Builder * W) A := io_zoom snd (fun w s => (s.1, w)) m.

(** What avbtool says the largest image is in a partition of a size. *)
Definition avb_max_image_size (b : V2Builder) (partition_size : Z) : io W Z :=
  let* args := io_pure (shlex_split (vb_signing_args b)) in
  let* (status, output) :=
    run_process (vb_avbtool b :: add_footer b :: "--partition_size" :: py_str partition_size :: "--calc_max_image_size" :: args) in
  if negb (status =? 0) then io_raise BuildVerityImageError
  else
    let* image_size := io_pure (py_int output) in
    if image_size <=? 0 then io_raise BuildVerityImageError else io_ret image_size.

(** [partition_size], by default that of the builder; [None] and texts do not compare with 0. *)
Definition size_or_own (b : V2Builder) (partition_size : option Z) : result Z :=
  match partition_size with
  | Some p => Ok p
  | None => match vb_partition_size b with Some (PNumber p) => Ok p | _ => Raise TypeError end
  end.

Definition V2_CalculateMaxImageSize (partition_size : option Z) : io (V2Builder * W) Z := fun s =>
  let b := s.1 in
  (let* p := io_pure (size_or_own b partition_size) in
   if 0 <? p then
     let* image_size := on_host (avb_max_image_size b p) in
     fun s => (Ok image_size, (set_vb_image_size image_size s.1, s.2))
   else io_raise AssertionError) s.

(** [CalculateMinPartitionSize] with the size calculator of the builder. *)
Definition CalculateMinPartitionSize (image_size : Z) : io (V2Builder * W) Z :=
  MinPartitionSize (fun p => V2_CalculateMaxImageSize (Some p)) image_size fuel.

Definition V2_CalculateDynamicPartitionSize (image_size : Z) : io (V2Builder * W) Z :=
  let* p := CalculateMinPartitionSize image_size in
  fun s => (Ok p, (set_vb_partition_size p s.1, s.2)).

Definition V2_Build (out_file : string) : io (V2Builder * W) unit := fun s =>
  let b := s.1 in
  (let* args := io_pure (shlex_split (vb_signing_args b)) in
   let key := match vb_key_path b, vb_algorithm b with
              | Some k, Some a => if str_true k && str_true a then ["--key"; k; "--algorithm"; a] else []
              | _, _ => []
              end in
   let salt := if str_true (vb_salt b) then ["--salt"; vb_salt b] else [] in
   let size := match vb_partition_size b with Some v => prop_text v | None => "None" end in
   let* (status, _) := on_host (run_process
     ([vb_avbtool b; add_footer b; "--partition_size"; size; "--partition_name"; vb_partition_name b; "--image"; out_file]
      ++ key ++ salt ++ args)) in
   if status =? 0 then io_ret tt else io_raise BuildVerityImageError) s.

#[export] Instance V2_builder : VerityImageBuilder W V2Builder := {
  CalculateMaxImageSize := V2_CalculateMaxImageSize;
  CalculateDynamicPartitionSize := V2_CalculateDynamicPartitionSize;
  PadSparseImage := fun _ => io_ret tt;
  Build := V2_Build
}.

(** [GetDiskUsage]. *)
Definition GetDiskUsage (path : string) : io W Z :=
  let* output := RunAndCheckOutput ["du"; "-b"; "-k"; "-s"; path] in
  let* first := io_pure (of_option IndexError (hd_error (split_ws output))) in
  let* n := io_pure (py_int first) in
  io_ret (n * 1024).
End builder.

Definition MAX_VBMETA_SIZE : Z := 64 * 1024.
Definition MAX_FOOTER_SIZE : Z := 4096.
