(* ===== verification/VerityProps.v ===== *)
(** The search for a partition size: what each of its loops does, for a size
    calculator whose answers depend on the size only; the partition found is the
    smallest that holds the image, for an avbtool whose answers also grow with it. *)

From Stdlib Require Import SpecFloat.
From S2P Require Export FloatFacts Verity.

#[local] Open Scope string_scope.
#[local] Open Scope list_scope.
#[local] Open Scope Z_scope.
#[local] Arguments Z.pow : simpl never.
#[local] Arguments Z.mul : simpl never.

(** * The estimates *)

(** What float arithmetic may raise. *)
Definition float_error (e : exn) : Prop := e = OverflowError \/ e = ZeroDivisionError \/ e = ValueError.

Lemma float_of_Z_error z e : float_of_Z z = Raise e -> float_error e.
Proof. unfold float_of_Z, float_error. destruct (binary_normalize _ _ _ _ _); intros [= <-]; auto. Qed.
Lemma float_div_error a b e : float_div a b = Raise e -> float_error e.
Proof. unfold float_div, float_error. destruct b; intros [= <-]; auto. Qed.
Lemma float_trunc_error a e : float_trunc a = Raise e -> float_error e.
Proof. unfold float_trunc, float_error. destruct a; intros [= <-]; auto. Qed.

Lemma estimate_error i m p e : estimate i m p = Raise e -> float_error e.
Proof.
  unfold estimate. intros H.
  repeat (match goal with H : context [match ?x with Ok _ => _ | Raise _ => _ end] |- _ => destruct x eqn:? end; simplify_eq;
    eauto using float_of_Z_error, float_div_error, float_trunc_error).
Qed.

(** An estimate is below 2^1024, and never negative. *)
Lemma estimate_bounds i m p e : 0 < i -> 0 < m -> 0 < p -> estimate i m p = Ok e -> 0 <= e < 2 ^ 1024.
Proof.
  unfold estimate. intros Hi Hm Hp H. inv_ok. rename a into fp, a0 into fm, a1 into ratio, a2 into fi, a3 into q.
  destruct q as [s|s| |s mq eq]; try discriminate H; [injection H as <-; split; [done|by apply Z.pow_pos_nonneg]|].
  pose proof (float_div_finite _ _ _ _ _ E3) as ((si & mi & ei & sr & mr & er & -> & -> & ->) & Hmq & Heq).
  pose proof (float_div_finite _ _ _ _ _ E1) as ((sm & mm & em & sp & mp & ep & -> & -> & ->) & _).
  apply float_of_Z_sign in E, E0, E2; [|done..]. subst. cbn [xorb] in H.
  split; [by eapply float_trunc_nonneg|by eapply float_trunc_lt].
Qed.

Lemma blocks_below_spec n : 0 <= n -> blocks_below n mod 4096 = 0 /\ 0 <= blocks_below n <= n.
Proof.
  intros Hn. unfold blocks_below, VERITY_BLOCK_SIZE. split; [by apply Z.mod_mul|].
  pose proof (Z.div_mod n 4096 ltac:(lia)). pose proof (Z.mod_pos_bound n 4096 ltac:(lia)). pose proof (Z.div_pos n 4096 Hn ltac:(lia)). lia.
Qed.

Lemma mod_4096_add a b : a mod 4096 = 0 -> b mod 4096 = 0 -> (a + b) mod 4096 = 0.
Proof. intros Ha Hb. rewrite Z.add_mod, Ha, Hb by lia. done. Qed.
Lemma mod_4096_sub a b : a mod 4096 = 0 -> b mod 4096 = 0 -> (a - b) mod 4096 = 0.
Proof. intros Ha Hb. rewrite Zminus_mod, Ha, Hb. done. Qed.

(** * The loops *)

(** A larger partition holds larger images. *)
Definition monotone (f : Z -> result Z) : Prop := forall p q m n, f p = Ok m -> f q = Ok n -> p <= q -> m <= n.

Section loops.
Context {S : Type} (calc : Z -> io S Z) (inv : S -> Prop) (f : Z -> result Z) (image_size : Z).
(** The calculator gives [f] and keeps the invariant of the state. *)
Hypothesis calc_f : forall p s, inv s -> (calc p s).1 = f p /\ inv (calc p s).2.
Hypothesis f_pos : forall p m, f p = Ok m -> 0 < p /\ 0 < m.
Hypothesis image_pos : 0 < image_size.

(** The result of a loop that calls the calculator: a value with a property, or an
    exception of the calculator or of float arithmetic. *)
Definition calc_result {A} (P : A -> Prop) (x : result A * S) : Prop :=
  inv x.2 /\ match x.1 with Ok a => P a | Raise e => (exists q, f q = Raise e) \/ float_error e end.

Lemma calc_bind {A} (P : A -> Prop) p (k : Z -> io S A) s : inv s ->
  (forall m s', f p = Ok m -> inv s' -> calc_result P (k m s')) -> calc_result P (io_bind (calc p) k s).
Proof.
  intros Hs Hk. unfold io_bind. destruct (calc_f p s Hs) as [Hf Hi]. destruct (calc p s) as [[m|e] s']; cbn in *; [by apply Hk|].
  split; [done|]. cbn. eauto.
Qed.

Lemma estimate_bind {A} (P : A -> Prop) m p (k : Z -> io S A) s : inv s ->
  (forall e, estimate image_size m p = Ok e -> calc_result P (k e s)) -> calc_result P (io_bind (io_pure (estimate image_size m p)) k s).
Proof.
  intros Hs Hk. unfold io_bind, io_pure. destruct (estimate image_size m p) as [e|e] eqn:E; [by apply Hk|].
  split; [done|]. cbn. eauto using estimate_error.
Qed.

Lemma calc_result_bind {A B} (P : A -> Prop) (Q : B -> Prop) (m : io S A) (k : A -> io S B) s :
  calc_result P (m s) -> (forall a s', P a -> inv s' -> calc_result Q (k a s')) -> calc_result Q (io_bind m k s).
Proof. unfold io_bind, calc_result. destruct (m s) as [[a|e] s']; cbn; intros [Hi Ha] Hk; [by apply Hk|done]. Qed.

(** [lo] falls by more than the power of two in [delta], so it falls below zero, where
    the calculator raises, if the loop does not end before. *)
Definition low_enough (lo : Z) : Prop := lo mod 4096 = 0 /\ lo < 2 ^ 1024 /\ exists m, f lo = Ok m /\ m <= image_size.

Lemma lower_spec fuel j lo m s : 0 <= j -> 1014 <= Z.of_nat fuel + j -> (j = 0 \/ lo < 2 ^ 1024 - 2 ^ (j + 11)) ->
  lo mod 4096 = 0 -> lo < 2 ^ 1024 -> f lo = Ok m -> inv s ->
  calc_result low_enough (lower calc image_size fuel (4096 * 2 ^ j) lo m s).
Proof.
  revert j lo m s. induction fuel as [|fuel IH]; intros j lo m s Hj Hfuel Hlo Hmod Hlt Hf Hs; cbn [lower].
  - exfalso. destruct Hlo as [->|Hlo]; [lia|]. pose proof (f_pos _ _ Hf) as [? _].
    assert (2 ^ 1024 <= 2 ^ (j + 11)) by (apply Z.pow_le_mono_r; lia). lia.
  - destruct (Z.ltb_spec image_size m) as [Hm|Hm].
    + apply estimate_bind; [done|]. intros e He. pose proof (f_pos _ _ Hf) as [Hlo0 Hm0].
      apply estimate_bounds in He; [|done..]. destruct (blocks_below_spec e ltac:(lia)) as [Hb Hbe].
      assert (0 < 2 ^ j) as Hp by (by apply Z.pow_pos_nonneg).
      apply calc_bind; [done|]. intros m' s' Hf' Hs'. replace (4096 * 2 ^ j * 2) with (4096 * 2 ^ (j + 1)) by (rewrite Z.pow_add_r by lia; lia).
      apply IH; try done; try lia.
      * right. replace (j + 1 + 11) with (j + 12) by lia. rewrite Z.pow_add_r by lia. change (2 ^ 12) with 4096. lia.
      * apply mod_4096_sub; [done|]. rewrite Z.mul_comm. by apply Z.mod_mul.
    + split; [done|]. cbn. unfold low_enough. eauto.
Qed.

(** [hi] grows by at least the power of two in [delta]. *)
Definition high_enough (k : Z) (hi : Z) : Prop :=
  hi mod 4096 = 0 /\ hi < 2 ^ (1037 + k) /\ exists m, f hi = Ok m /\ image_size <= m.

Lemma raise_hi_spec k fuel j hi m s : 0 <= k -> (forall p n, 2 ^ k <= p -> f p = Ok n -> image_size <= n) ->
  0 <= j <= k -> k + 1 < Z.of_nat fuel + j -> (j = 0 \/ 2 ^ (j + 11) <= hi) ->
  hi mod 4096 = 0 -> hi < 2 ^ (1037 + k) -> f hi = Ok m -> inv s ->
  calc_result (high_enough k) (raise_hi calc image_size fuel (4096 * 2 ^ j) hi m s).
Proof.
  intros Hk Hreach. revert j hi m s. induction fuel as [|fuel IH]; intros j hi m s Hj Hfuel Hhi Hmod Hlt Hf Hs; cbn [raise_hi]; [lia|].
  destruct (Z.ltb_spec m image_size) as [Hm|Hm].
  - apply estimate_bind; [done|]. intros e He. pose proof (f_pos _ _ Hf) as [Hhi0 Hm0].
    apply estimate_bounds in He; [|done..]. destruct (blocks_below_spec e ltac:(lia)) as [Hb Hbe].
    assert (0 < 2 ^ j <= 2 ^ k) as Hp by (split; [apply Z.pow_pos_nonneg|apply Z.pow_le_mono_r]; lia).
    assert (2 ^ (1037 + k) = 2 ^ 1024 * 8192 * 2 ^ k) as Hbig.
    { rewrite Z.pow_add_r by lia. by replace (2 ^ 1037) with (2 ^ 1024 * 8192) by done. }
    assert (0 < 2 ^ 1024) as H24 by (by apply Z.pow_pos_nonneg).
    assert ((4096 * 2 ^ j) mod 4096 = 0) as Hmd by (rewrite Z.mul_comm; by apply Z.mod_mul).
    apply calc_bind; [done|]. intros m' s' Hf' Hs'. replace (4096 * 2 ^ j * 2) with (4096 * 2 ^ (j + 1)) by (rewrite Z.pow_add_r by lia; lia).
    assert (blocks_below e + 4096 * 2 ^ j < 2 ^ (1037 + k)) by (rewrite Hbig; nia).
    assert (2 ^ (j + 12) = 4096 * 2 ^ j) as Hj12 by (rewrite Z.pow_add_r by lia; change (2 ^ 12) with 4096; lia).
    destruct (Z.eq_dec j k) as [->|Hne].
    + destruct fuel as [|fuel]; [lia|]. cbn [raise_hi].
      assert (image_size <= m') as Hm' by (apply (Hreach (blocks_below e + 4096 * 2 ^ k)); [lia|done]).
      destruct (Z.ltb_spec m' image_size); [lia|]. split; [done|]. cbn. split; [by apply mod_4096_add|]. eauto.
    + apply IH; try done; try lia; [|by apply mod_4096_add]. right. replace (j + 1 + 11) with (j + 12) by lia. lia.
  - split; [done|]. cbn. unfold high_enough. eauto.
Qed.

(** The middle of an interval of whole blocks. *)
Lemma middle a b : (a * 4096 + b * 4096) / (2 * 4096) * 4096 = (a + b) / 2 * 4096.
Proof. rewrite <- Z.mul_add_distr_r. rewrite Z.div_mul_cancel_r by lia. done. Qed.

(** [p] holds the image; among the whole blocks from [lo0] on it is the least. *)
Definition least_from (lo0 : Z) (p : Z) : Prop :=
  p mod 4096 = 0 /\ (exists m, f p = Ok m /\ image_size <= m) /\
  (monotone f -> forall q v, q mod 4096 = 0 -> lo0 <= q < p -> f q = Ok v -> v < image_size).

Lemma bisect_spec fuel n lo0 a b m s : (n < fuel)%nat -> b - a < 2 ^ Z.of_nat n -> f (b * 4096) = Ok m -> image_size <= m ->
  (monotone f -> forall q v, q mod 4096 = 0 -> lo0 <= q < Z.min (a * 4096) (b * 4096) -> f q = Ok v -> v < image_size) -> inv s ->
  calc_result (least_from lo0) (bisect calc image_size fuel (a * 4096) (b * 4096) (b * 4096) s).
Proof.
  revert n a b m s. induction fuel as [|fuel IH]; intros n a b m s Hn Hab Hf Hm Hlow Hs; [lia|]. cbn [bisect]. unfold VERITY_BLOCK_SIZE.
  destruct (Z.ltb_spec (a * 4096) (b * 4096)) as [Hlt|Hge].
  - destruct n as [|n]; [change (2 ^ Z.of_nat 0) with 1 in Hab; lia|].
    rewrite Nat2Z.inj_succ, Z.pow_succ_r in Hab by lia. rewrite middle. set (mid := (a + b) / 2).
    assert (a <= mid < b) as Hmid by (unfold mid; split; [apply Z.div_le_lower_bound|apply Z.div_lt_upper_bound]; lia).
    assert (2 * mid <= a + b < 2 * mid + 2) as Hmid2.
    { unfold mid. pose proof (Z.div_mod (a + b) 2 ltac:(lia)). pose proof (Z.mod_pos_bound (a + b) 2 ltac:(lia)). lia. }
    apply calc_bind; [done|]. intros m' s' Hf' Hs'. destruct (Z.leb_spec image_size m').
    + destruct (Z.ltb_spec (mid * 4096) (b * 4096)); [|lia]. eapply (IH n); [lia|lia|done|done| |done]. intros Hmono q v Hq Hql. apply Hlow; [done..|lia].
    + replace (mid * 4096 + 4096) with ((mid + 1) * 4096) by lia. eapply (IH n); [lia|lia|done|done| |done].
      intros f_mono q v Hq Hql Hv. assert (q <= mid * 4096).
      { pose proof (Z.div_mod q 4096 ltac:(lia)). lia. }
      pose proof (f_mono _ _ _ _ Hv Hf' ltac:(lia)). lia.
  - split; [done|]. cbn. split; [by apply Z.mod_mul|]. split; [eauto|]. intros f_mono q v Hq Hql. apply Hlow; [done..|lia].
Qed.
End loops.

(** * The search *)

(** [p] is a number of whole blocks and holds the image; where larger partitions hold
    larger images a smaller number of whole blocks does not hold it, unless both hold
    an image of exactly this size. *)
Definition holds_tightly (f : Z -> result Z) (image_size p : Z) : Prop :=
  p mod 4096 = 0 /\ exists m, f p = Ok m /\ image_size <= m /\
  (monotone f -> forall q v, q mod 4096 = 0 -> q < p -> f q = Ok v -> v < image_size \/ v = image_size /\ m = image_size).

Lemma least_holds_tightly f image_size lo p :
  low_enough f image_size lo -> least_from f image_size lo p -> holds_tightly f image_size p.
Proof.
  intros (Hlo & _ & ml & Hfl & Hml) (Hp & (m & Hf & Hm) & Hleast). split; [done|]. exists m. split; [done|]. split; [done|].
  intros Hmono q v Hq Hqp Hv. destruct (Z.lt_ge_cases q lo) as [Hql|Hql]; [|left; by apply (Hleast Hmono q)].
  pose proof (Hmono _ _ _ _ Hv Hfl ltac:(lia)). destruct (Z.lt_ge_cases v image_size); [by left|right].
  split; [lia|]. destruct (Z.lt_ge_cases lo p) as [Hlp|Hlp].
  - pose proof (Hleast Hmono lo ml Hlo ltac:(lia) Hfl). lia.
  - pose proof (Hmono _ _ _ _ Hf Hfl Hlp). lia.
Qed.

Section min_size.
Context {S : Type} (calc : Z -> io S Z) (inv : S -> Prop) (f : Z -> result Z) (image_size k : Z) (fuel : nat).
Context (calc_f : forall p s, inv s -> (calc p s).1 = f p /\ inv (calc p s).2).
Context (f_pos : forall p m, f p = Ok m -> 0 < p /\ 0 < m).
Context (image_pos : 0 < image_size).
Context (k_pos : 0 <= k) (f_reach : forall p n, 2 ^ k <= p -> f p = Ok n -> image_size <= n).
Context (enough : 1040 + k <= Z.of_nat fuel).

Lemma MinPartitionSize_spec s : inv s ->
  calc_result inv f (holds_tightly f image_size) (MinPartitionSize calc image_size fuel s).
Proof.
  intros Hs. unfold MinPartitionSize.
  apply calc_bind with (f := f); [done..|]. intros m0 s0 Hf0 Hs0. pose proof (f_pos _ _ Hf0) as [_ Hm0].
  apply estimate_bind; [done|]. intros e He. apply estimate_bounds in He; [|done..].
  destruct (blocks_below_spec e ltac:(lia)) as [Hb Hbe]. unfold VERITY_BLOCK_SIZE.
  apply calc_bind with (f := f); [done..|]. intros m1 s1 Hf1 Hs1.
  eapply calc_result_bind; [apply (lower_spec calc inv f image_size calc_f f_pos image_pos fuel 0 _ m1 s1); try done; try lia; by apply mod_4096_sub|].
  intros lo s2 Hlo Hs2. pose proof Hlo as (Hlom & Hlolt & ml & Hfl & Hml).
  apply calc_bind with (f := f); [done..|]. intros m2 s3 Hf2 Hs3.
  assert (2 ^ 1024 * 8192 <= 2 ^ (1037 + k)) as Hbig.
  { replace (2 ^ 1024 * 8192) with (2 ^ 1037) by done. apply Z.pow_le_mono_r; lia. }
  assert (4096 <= 2 ^ 1024) by (by apply Z.leb_le).
  eapply calc_result_bind; [apply (raise_hi_spec calc inv f image_size calc_f f_pos image_pos k fuel 0 _ m2 s3); try done; try lia; by apply mod_4096_add|].
  intros hi s4 (Him & Hilt & mh & Hfh & Hmh) Hs4. pose proof (f_pos _ _ Hfl) as [? _]. pose proof (f_pos _ _ Hfh) as [? _].
  assert (lo = lo / 4096 * 4096) as El by (pose proof (Z.div_mod lo 4096 ltac:(lia)); lia).
  assert (hi = hi / 4096 * 4096) as Eh by (pose proof (Z.div_mod hi 4096 ltac:(lia)); lia).
  assert (calc_result inv f (least_from f image_size lo) (bisect calc image_size fuel lo hi hi s4)) as Hbis.
  { rewrite El at 2. rewrite Eh. eapply (bisect_spec calc inv f image_size calc_f fuel (Z.to_nat (1025 + k))); [lia| |by rewrite <- Eh|done| |done].
    - rewrite Z2Nat.id by lia. assert (2 ^ (1037 + k) = 2 ^ (1025 + k) * 4096) as Ep.
      { replace (1037 + k) with (1025 + k + 12) by lia. by rewrite Z.pow_add_r by lia. } lia.
    - intros _ q v _ Hq. lia. }
  destruct Hbis as [Hi Hr]. split; [done|]. destruct (bisect _ _ _ _ _ _ _) as [[p|e'] s']; cbn in *; [|done].
  by eapply least_holds_tightly.
Qed.
End min_size.

(** A calculator of the shape of avbtool's: 68 KiB and a hash tree are at the end of
    the partition.  The tree of 128 blocks is one block, that of 129 is three. *)
Fixpoint hash_tree (levels : nat) (size : Z) : Z :=
  match levels with
  | O => 0
  | S levels =>
      if size <=? 4096 then 0
      else let level_size := ((size + 4095) / 4096 * 32 + 4095) / 4096 * 4096 in level_size + hash_tree levels level_size
  end.
Definition tree_max_size (p : Z) : result Z := Ok (p - 69632 - hash_tree 8 p).

(** Such a calculator is not monotone, and the search then misses the smallest
    partition: it answers 129 blocks where 128 hold more than the image. *)
Example min_partition_size_not_least :
  (MinPartitionSize (fun p => io_pure (tree_max_size p)) (109 * 4096) 100 tt).1 = Ok (129 * 4096) /\
  tree_max_size (128 * 4096) = Ok (110 * 4096).
Proof. by vm_compute. Qed.

(** * The builder *)

(** What the calls of avbtool depend on. *)
Definition same_tool (b b' : V2Builder) : Prop :=
  vb_avbtool b = vb_avbtool b' /\ vb_footer_type b = vb_footer_type b' /\ vb_signing_args b = vb_signing_args b'.

(** The largest image in a partition, as the builder asks for it. *)
Definition max_image (avb : Z -> result Z) (p : Z) : result Z := if 0 <? p then avb p else Raise AssertionError.

Section builder.
Context {W : Type} `{Host W}.

Lemma avb_same_tool b b' p (w : W) : same_tool b b' -> avb_max_image_size b p w = avb_max_image_size b' p w.
Proof. intros (H1 & H2 & H3). unfold avb_max_image_size, add_footer. by rewrite H1, H2, H3. Qed.

Lemma avb_positive b p (w : W) m : (avb_max_image_size b p w).1 = Ok m -> 0 < m.
Proof.
  unfold avb_max_image_size, io_bind, io_pure, io_ret, io_raise. destruct (shlex_split _); [|done].
  destruct (run_process _ w) as [[[status output]|e] w']; [|done]. cbn. destruct (negb (status =? 0)); [done|].
  destruct (py_int output) as [n|]; [|done]. destruct (Z.leb_spec n 0); cbn; [done|]. intros [= <-]. lia.
Qed.

Section tool.
Context (b0 : V2Builder) (avb : Z -> result Z).
(** avbtool's answers depend on the size of the partition only. *)
Context (avb_answers : forall p (w : W), 0 < p -> (avb_max_image_size b0 p w).1 = avb p).

Definition tool_state (s : V2Builder * W) : Prop := same_tool s.1 b0.

Lemma max_image_size_run p (s : V2Builder * W) : tool_state s ->
  (V2_CalculateMaxImageSize (Some p) s).1 = max_image avb p /\ tool_state (V2_CalculateMaxImageSize (Some p) s).2 /\
  vb_partition_size (V2_CalculateMaxImageSize (Some p) s).2.1 = vb_partition_size s.1.
Proof.
  destruct s as [b w]. intros Hs. unfold V2_CalculateMaxImageSize, max_image, io_bind, io_pure, io_raise, on_host, io_zoom. cbn -[avb_max_image_size].
  destruct (Z.ltb_spec 0 p) as [Hp|]; [|done]. rewrite <- (avb_answers p w Hp), <- (avb_same_tool b b0) by done.
  change ((b, w).2) with w. by destruct (avb_max_image_size b p w) as [[m|e] w'].
Qed.

Lemma max_image_pos (w : W) p m : max_image avb p = Ok m -> 0 < p /\ 0 < m.
Proof.
  unfold max_image. destruct (Z.ltb_spec 0 p) as [Hp|]; [|done]. rewrite <- (avb_answers p w Hp). intros Hm. split; [done|].
  by eapply avb_positive.
Qed.
End tool.
End builder.

(** C21: For a dynamic partition [CalculateDynamicPartitionSize] gives the builder a
    partition size of whole blocks whose largest image, by avbtool, is at least as
    large as the image, and it is the smallest such size where avbtool's answers grow
    with the partition.  The search ends: it raises only what avbtool or float
    arithmetic raises, and never runs out of steps, if avbtool says that partitions
    from some size on are large enough. *)
Theorem dynamic_partition_size_found {W} `{Host W} (b : V2Builder) (w : W) (avb : Z -> result Z) (image_size k : Z) (fuel : nat) :
  (forall p w', 0 < p -> (avb_max_image_size b p w').1 = avb p) ->
  0 < image_size -> 0 <= k -> (forall p n, 2 ^ k <= p -> avb p = Ok n -> image_size <= n) -> 1040 + k <= Z.of_nat fuel ->
  match V2_CalculateDynamicPartitionSize fuel image_size (b, w) with
  | (Ok p, s') =>
      holds_tightly (max_image avb) image_size p /\ vb_partition_size s'.1 = Some (PNumber p) /\
      (V2_CalculateMaxImageSize None s').1 = avb p
  | (Raise e, _) => (exists q, max_image avb q = Raise e) \/ float_error e
  end.
Proof.
  intros Havb Himg Hk Hreach Hfuel. unfold V2_CalculateDynamicPartitionSize, CalculateMinPartitionSize.
  pose proof (MinPartitionSize_spec (fun p => V2_CalculateMaxImageSize (Some p)) (tool_state b) (max_image avb) image_size k fuel) as Hmin.
  assert (calc_result (tool_state b) (max_image avb) (holds_tightly (max_image avb) image_size)
            (MinPartitionSize (fun p => V2_CalculateMaxImageSize (Some p)) image_size fuel (b, w))) as [Hs Hr].
  { apply Hmin; try done.
    - intros p s Hs. destruct (max_image_size_run b avb Havb p s Hs) as (? & ? & _). done.
    - intros p m. by apply (max_image_pos b avb Havb w).
    - intros p n Hp. unfold max_image. destruct (Z.ltb_spec 0 p); [by apply Hreach|].
      assert (0 < 2 ^ k) by (by apply Z.pow_pos_nonneg). lia. }
  unfold io_bind. destruct (MinPartitionSize _ _ _ _) as [[p|e] [b' w']]; cbn -[V2_CalculateMaxImageSize] in Hs, Hr |- *; [|done].
  split; [done|]. split; [done|]. destruct Hr as (_ & m & Hm & _). unfold max_image in Hm. destruct (Z.ltb_spec 0 p) as [Hp|]; [|done].
  pose proof (max_image_size_run b avb Havb p (set_vb_partition_size p b', w') Hs) as (H1 & _).
  unfold max_image in H1. rewrite (proj2 (Z.ltb_lt 0 p) Hp) in H1. exact H1.
Qed.

(** An avbtool that keeps 68 KiB, and nothing else on the host. *)
Definition footer_tool (args : list string) : Z * string :=
  match args with
  | [_; _; _; p; _] =>
      match py_int p with
      | Ok n => if 69632 <? n then (0, py_str (n - 69632)) else (1, "")
      | Raise _ => (1, "")
      end
  | _ => (1, "")
  end.

Definition footer_host : Host unit := {|
  run_process := fun args => io_ret (footer_tool args);
  path_exists := fun _ _ => true;
  remove_file := fun _ => io_ret tt;
  rename_file := fun _ _ => io_ret tt;
  make_temp_dir := io_ret "/tmp/dir";
  make_temp_file := fun _ _ => io_ret "/tmp/file";
  remove_tree := fun _ _ => io_ret tt;
  copy_tree := fun _ _ => io_ret tt;
  read_lines := fun _ => io_ret [];
  write_lines := fun _ _ => io_ret tt;
  read_bytes := fun _ => io_ret []
|}.

Definition system_builder : V2Builder :=
  mkV2Builder "system" None AVB_HASHTREE_FOOTER "avbtool" None None "00" "" None.

Definition footer_max_size (p : Z) : result Z := if 69632 <? p then Ok (p - 69632) else Raise BuildVerityImageError.

(** Its answers depend on the size only, on any host that has it. *)
Lemma footer_answers {W} `{Host W} p (w : W) :
  (forall args w, run_process ("avbtool" :: args) w = (Ok (footer_tool ("avbtool" :: args)), w)) ->
  0 < p -> (avb_max_image_size system_builder p w).1 = footer_max_size p.
Proof.
  intros Hrun Hp. unfold avb_max_image_size, io_bind, io_pure. cbn [shlex_split shlex_go system_builder vb_signing_args push_token].
  rewrite Hrun. unfold footer_max_size. cbn [footer_tool app]. rewrite py_int_str by lia.
  destruct (Z.ltb_spec 69632 p); cbn [negb Z.eqb fst]; [|done]. rewrite py_int_str by lia.
  by destruct (Z.leb_spec (p - 69632) 0); [lia|].
Qed.

Lemma footer_reach k limit p n : limit + 69632 <= 2 ^ k -> 2 ^ k <= p -> footer_max_size p = Ok n -> limit <= n.
Proof. unfold footer_max_size. intros Hl Hp. destruct (69632 <? p); intros [= <-]. lia. Qed.

Lemma dynamic_partition_size_found_witness :
  let r := @V2_CalculateDynamicPartitionSize unit footer_host 1100 (1024 * 1024) (system_builder, tt) in
  r.1 = Ok (1024 * 1024 + 69632) /\ vb_partition_size r.2.1 = Some (PNumber (1024 * 1024 + 69632)).
Proof.
  pose proof (@dynamic_partition_size_found unit footer_host system_builder tt footer_max_size (1024 * 1024) 30 1100) as Ht.
  assert ((@V2_CalculateDynamicPartitionSize unit footer_host 1100 (1024 * 1024) (system_builder, tt)).1 = Ok (1024 * 1024 + 69632)) as Hok
    by (vm_compute; reflexivity).
  split; [exact Hok|].
  destruct (@V2_CalculateDynamicPartitionSize unit footer_host 1100 (1024 * 1024) (system_builder, tt)) as [r s']. cbn [fst] in Hok. subst r.
  apply Ht; [|lia|lia| |lia].
  - intros n w' Hn. apply footer_answers; [reflexivity|exact Hn].
  - intros n m. apply footer_reach. vm_compute. discriminate.
Defined.
