(* ===== verification/ImageProp.v ===== *)
(** releasetools/build_image.py: the properties of one image from the global
    dictionary of a build ([ImagePropFromGlobalDict]) and back
    ([GlobalDictFromImageProp]). *)

From S2P Require Export PyColl PyRegex Verity.

#[local] Open Scope string_scope.
#[local] Open Scope list_scope.
#[local] Open Scope Z_scope.

(** The global dictionary, in order.  The entry "build.prop" is not a text but an
    object with a method [GetProp]; it is kept apart. *)
Record GlobDict := mkGlobDict {
  glob_entries : list (string * PropValue);
  glob_build_prop : option (string -> option string)
}.

Definition glob_get (g : GlobDict) (key : string) : option PropValue := od_get key (glob_entries g).
Definition glob_set (key : string) (v : PropValue) (g : GlobDict) : GlobDict :=
  mkGlobDict (od_set key v (glob_entries g)) (glob_build_prop g).

(** 2009-01-01 00:00:00 UTC. *)
Definition FIXED_FILE_TIMESTAMP : Z := 1230768000.

(** * Fingerprint and timestamp *)

(** [\w+] from the start of a text: the rest after the longest run. *)
Fixpoint skip_word (s : string) : string :=
  match s with String c s' => if is_word_char c then skip_word s' else s | "" => "" end.

(** What follows [^com\.android\.build\.\w+\.fingerprint:]. *)
Definition match_fingerprint (arg : string) : option string :=
  let prefix := "com.android.build." in
  if starts_with prefix arg then
    let rest := str_drop (String.length prefix) arg in
    let rest' := skip_word rest in
    let suffix := ".fingerprint:" in
    if negb (String.eqb rest rest') && starts_with suffix rest' then Some (str_drop (String.length suffix) rest') else None
  else None.

Fixpoint first_fingerprint (args : list string) : option string :=
  match args with
  | [] => None
  | arg :: args => match match_fingerprint arg with Some f => Some f | None => first_fingerprint args end
  end.

Definition is_footer_args (key : string) : bool :=
  ends_with "_add_hashtree_footer_args" key || ends_with "_add_hash_footer_args" key.

Fixpoint find_fingerprint (entries : list (string * PropValue)) : result (option string) :=
  match entries with
  | [] => Ok None
  | (key, val) :: entries =>
      if is_footer_args key then
        let! text := as_text AttributeError val in
        let! args := shlex_split text in
        match first_fingerprint args with
        | Some f => Ok (Some f)
        | None => find_fingerprint entries
        end
      else find_fingerprint entries
  end.

Definition TryParseFingerprint (g : GlobDict) : result GlobDict :=
  let! o := find_fingerprint (glob_entries g) in
  Ok match o with Some f => glob_set "fingerprint" (PText f) g | None => g end.

Definition TryParseFingerprintAndTimestamp (g : GlobDict) : result GlobDict :=
  let! g := TryParseFingerprint g in
  let g := match glob_get g "use_fixed_timestamp" with
           | Some _ => glob_set "timestamp" (PNumber FIXED_FILE_TIMESTAMP) g
           | None => g
           end in
  Ok match glob_build_prop g with
     | Some get_prop =>
         match get_prop "ro.build.date.utc" with
         | Some t => if str_true t then glob_set "timestamp" (PText t) g else g
         | None => g
         end
     | None => g
     end.

(** * Properties of an image *)

(** [str.format] of a text with one place. *)
Definition str_format (template x : string) : string :=
  match split_once "{}" template with Some (a, b) => a +:+ x +:+ b | None => template end.

(** [copy_prop]: whether the source is there. *)
Definition copy_prop (g : GlobDict) (src_p dest_p : string) (d : image_props) : bool * image_props :=
  match glob_get g src_p with
  | Some v => (true, <[dest_p := PText (prop_text v)]> d)
  | None => (false, d)
  end.
Definition copy_prop_ (g : GlobDict) (d : image_props) (row : string * string) : image_props :=
  (copy_prop g row.1 row.2 d).2.

Definition common_props : list string :=
  ["extfs_sparse_flag"; "erofs_default_compressor"; "erofs_default_compress_hints"; "erofs_pcluster_size";
   "erofs_blocksize"; "erofs_share_dup_blocks"; "erofs_sparse_flag"; "erofs_use_legacy_compression";
   "squashfs_sparse_flag"; "system_f2fs_compress"; "system_f2fs_sldc_flags"; "f2fs_sparse_flag"; "f2fs_blocksize";
   "skip_fsck"; "ext_mkuserimg"; "avb_enable"; "avb_avbtool"; "use_dynamic_partition_size"; "fingerprint"; "timestamp"].

Definition ro_mount_points : list string :=
  ["odm"; "odm_dlkm"; "oem"; "product"; "system"; "system_dlkm"; "system_ext"; "system_other"; "vendor"; "vendor_dlkm"].

(** (readonly, specific prop, general prop). *)
Definition fmt_props : list (bool * string * string) :=
  [(false, "fs_type", "fs_type");
   (false, "{}_fs_type", "fs_type");
   (false, "{}_selinux_fc", "selinux_fc");
   (false, "{}_size", "partition_size");
   (true, "avb_{}_add_hashtree_footer_args", "avb_add_hashtree_footer_args");
   (true, "avb_{}_algorithm", "avb_algorithm");
   (true, "avb_{}_hashtree_enable", "avb_hashtree_enable");
   (true, "avb_{}_key_path", "avb_key_path");
   (true, "avb_{}_salt", "avb_salt");
   (true, "erofs_use_legacy_compression", "erofs_use_legacy_compression");
   (true, "ext4_share_dup_blocks", "ext4_share_dup_blocks");
   (true, "{}_base_fs_file", "base_fs_file");
   (true, "{}_disable_sparse", "disable_sparse");
   (true, "{}_erofs_compressor", "erofs_compressor");
   (true, "{}_erofs_compress_hints", "erofs_compress_hints");
   (true, "{}_erofs_pcluster_size", "erofs_pcluster_size");
   (true, "{}_erofs_blocksize", "erofs_blocksize");
   (true, "{}_erofs_share_dup_blocks", "erofs_share_dup_blocks");
   (true, "{}_extfs_inode_count", "extfs_inode_count");
   (true, "{}_f2fs_compress", "f2fs_compress");
   (true, "{}_f2fs_sldc_flags", "f2fs_sldc_flags");
   (true, "{}_f2fs_blocksize", "f2fs_block_size");
   (true, "{}_reserved_size", "partition_reserved_size");
   (true, "{}_squashfs_block_size", "squashfs_block_size");
   (true, "{}_squashfs_compressor", "squashfs_compressor");
   (true, "{}_squashfs_compressor_opt", "squashfs_compressor_opt");
   (true, "{}_squashfs_disable_4k_align", "squashfs_disable_4k_align");
   (true, "{}_verity_block_device", "verity_block_device")].

Definition in_list (x : string) (l : list string) : bool := bool_decide (x ∈ l).
Definition mount_prefix (mount_point : string) : string := if String.eqb mount_point "data" then "userdata" else mount_point.

(** One round of the loop over [fmt_props]. *)
Definition fmt_step (g : GlobDict) (mount_point : string) (d : image_props) (row : bool * string * string) : image_props :=
  let '(readonly, src_prop, dest_prop) := row in
  if readonly && negb (in_list mount_point ro_mount_points) then d
  else if String.eqb src_prop "fs_type" && negb (in_list mount_point ["system"; "system_other"; "data"; "oem"]) then d
  else
    let d := if String.eqb mount_point "system_other" && negb (String.eqb dest_prop "partition_size")
             then copy_prop_ g d (str_format src_prop "system", dest_prop) else d in
    copy_prop_ g d (str_format src_prop (mount_prefix mount_point), dest_prop).

Definition copy_or_0 (g : GlobDict) (src_p dest_p : string) (d : image_props) : image_props :=
  let '(found, d) := copy_prop g src_p dest_p d in if found then d else <[dest_p := PText "0"]> d.

Definition ro_defaults (g : GlobDict) (mount_point : string) (d : image_props) : image_props :=
  if in_list mount_point ro_mount_points then
    let d := copy_or_0 g (mount_prefix mount_point +:+ "_journal_size") "journal_size" d in
    let d := copy_or_0 g (mount_prefix mount_point +:+ "_extfs_rsv_pct") "extfs_rsv_pct" d in
    <["ro_mount_point" := PText "1"]> d
  else d.

Definition partition_extras (mount_point : string) : list (string * string) :=
  if String.eqb mount_point "system" then
    [("system_headroom", "partition_headroom"); ("root_dir", "root_dir"); ("root_fs_config", "root_fs_config")]
  else if String.eqb mount_point "data" then
    [("flash_logical_block_size", "flash_logical_block_size"); ("flash_erase_block_size", "flash_erase_block_size");
     ("needs_casefold", "needs_casefold"); ("needs_projid", "needs_projid"); ("needs_compress", "needs_compress")]
  else [].

Definition ImagePropFromGlobalDict (g : GlobDict) (mount_point : string) : result (image_props * GlobDict) :=
  let! g := TryParseFingerprintAndTimestamp g in
  let d := fold_left (copy_prop_ g) (map (fun p => (p, p)) common_props) ∅ in
  let d := fold_left (fmt_step g mount_point) fmt_props d in
  let d := ro_defaults g mount_point d in
  let d := <["mount_point" := PText mount_point]> d in
  let d := fold_left (copy_prop_ g) (partition_extras mount_point) d in
  Ok (<["partition_name" := PText mount_point]> d, g).

(** * Back to a global dictionary *)

Definition size_key (mount_point : string) : option string :=
  if in_list mount_point ["system"; "system_other"; "vendor"; "odm"; "vendor_dlkm"; "odm_dlkm"; "system_dlkm"; "product"; "system_ext"]
  then Some (mount_point +:+ "_size") else None.

Definition GlobalDictFromImageProp (image_prop : image_props) (mount_point : string) : image_props :=
  match size_key mount_point, image_prop !! "partition_size" with
  | Some key, Some v => {[key := v]}
  | _, _ => ∅
  end.

(** [LoadGlobalDict] of the lines of a file. *)
Definition load_global_line (d : list (string * PropValue)) (line : string) : result (list (string * PropValue)) :=
  let line := strip line in
  if negb (str_true line) || starts_with "#" line then Ok d
  else match split_once "=" line with
       | Some (k, v) => Ok (od_set k (PText v) d)
       | None => Raise ValueError
       end.
Definition LoadGlobalDict (content : string) : result (list (string * PropValue)) := foldM load_global_line [] (readlines content).

(** The mount point of an image by the name of its file, in [main]. *)
Definition mount_point_of (image_filename : string) : result string :=
  match od_get image_filename
    [("system.img", "system"); ("system_other.img", "system_other"); ("userdata.img", "data"); ("cache.img", "cache");
     ("vendor.img", "vendor"); ("odm.img", "odm"); ("vendor_dlkm.img", "vendor_dlkm"); ("odm_dlkm.img", "odm_dlkm");
     ("system_dlkm.img", "system_dlkm"); ("oem.img", "oem"); ("product.img", "product"); ("system_ext.img", "system_ext")] with
  | Some m => Ok m
  | None => if contains "vbmeta" image_filename then Ok "vbmeta" else Raise (SystemExit 1)
  end.
