(* ===== verification/ImagePropProps.v ===== *)
(** The properties of an image are what a table of sources says: of the entries of
    the global dictionary that may set a property the last one present does. *)

From S2P Require Export ImageProp.

#[local] Open Scope string_scope.
#[local] Open Scope list_scope.
#[local] Open Scope Z_scope.

(** * The table *)

(** The copies, source and destination, of one row and of all of them, in order. *)
Definition row_copies (mount_point : string) (row : bool * string * string) : list (string * string) :=
  let '(readonly, src, dest) := row in
  if readonly && negb (in_list mount_point ro_mount_points) then []
  else if String.eqb src "fs_type" && negb (in_list mount_point ["system"; "system_other"; "data"; "oem"]) then []
  else (if String.eqb mount_point "system_other" && negb (String.eqb dest "partition_size")
        then [(str_format src "system", dest)] else [])
       ++ [(str_format src (mount_prefix mount_point), dest)].

Definition copies (mount_point : string) : list (string * string) :=
  map (fun p => (p, p)) common_props ++ flat_map (row_copies mount_point) fmt_props.

(** The value a list of copies leaves for a property. *)
Definition last_source (g : GlobDict) (l : list (string * string)) (key : string) : option PropValue :=
  last (omap (fun '(src, dest) => if decide (dest = key) then glob_get g src else None) l).

Definition as_str (o : option PropValue) : option PropValue := (fun v => PText (prop_text v)) <$> o.

Lemma last_source_app g l1 l2 key :
  last_source g (l1 ++ l2) key = match last_source g l2 key with Some v => Some v | None => last_source g l1 key end.
Proof. unfold last_source. rewrite omap_app, last_app. done. Qed.

Lemma copy_prop_lookup g src dest d key :
  (copy_prop g src dest d).2 !! key = match (if decide (dest = key) then glob_get g src else None) with Some v => Some (PText (prop_text v)) | None => d !! key end.
Proof.
  unfold copy_prop. destruct (glob_get g src) as [v|]; cbn; case_decide; simplify_map_eq; done.
Qed.

Lemma fold_copies g l d key :
  fold_left (copy_prop_ g) l d !! key = match as_str (last_source g l key) with Some v => Some v | None => d !! key end.
Proof.
  revert d. induction l as [|[src dest] l IH]; intros d; [done|]. cbn [fold_left]. rewrite IH. unfold copy_prop_ at 1. cbn [fst snd].
  change ((src, dest) :: l) with ([(src, dest)] ++ l). rewrite last_source_app. destruct (last_source g l key); [done|]. cbn [as_str fmap option_fmap option_map].
  rewrite copy_prop_lookup. unfold last_source. cbn. by case_decide; [destruct (glob_get g src)|].
Qed.

Lemma fold_fmt g mp rows d : fold_left (fmt_step g mp) rows d = fold_left (copy_prop_ g) (flat_map (row_copies mp) rows) d.
Proof.
  revert d. induction rows as [|[[ro src] dest] rows IH]; intros d; [done|]. cbn [fold_left flat_map]. rewrite IH, fold_left_app. f_equal.
  unfold fmt_step, row_copies. destruct (_ && _); [done|]. destruct (_ && _); [done|]. by destruct (_ && _).
Qed.

(** What no row is for comes from the common properties, by its own name. *)
Lemma last_source_common g mp key : key ∈ common_props -> key ∉ map snd fmt_props ->
  last_source g (copies mp) key = glob_get g key.
Proof.
  intros Hc Hr. unfold copies. rewrite last_source_app.
  assert (last_source g (flat_map (row_copies mp) fmt_props) key = None) as ->.
  { revert Hr. generalize fmt_props. intros rows Hr. induction rows as [|[[ro src] dest] rows IH]; [done|].
    cbn [map snd] in Hr. apply not_elem_of_cons in Hr as [Hne Hr]. cbn [flat_map]. rewrite last_source_app, IH by done. cbn [row_copies].
    destruct (_ && _); [done|]. destruct (_ && _); [done|]. unfold last_source.
    destruct (_ && _); cbn; by repeat (rewrite decide_False by congruence). }
  assert (NoDup common_props) as Hn by (by apply (bool_decide_unpack (NoDup common_props)); vm_compute). revert Hc Hn. generalize common_props. intros l Hc Hn.
  apply list_elem_of_split in Hc as (l1 & l2 & ->). apply NoDup_app in Hn as (_ & H1 & H2). apply NoDup_cons in H2 as [H2 _].
  assert (forall k, key ∉ k -> last_source g (map (fun p => (p, p)) k) key = None) as Hnone.
  { induction k as [|x k IH]; intros Hk; [done|]. apply not_elem_of_cons in Hk as [Hx Hk]. change (map _ (x :: k)) with ([(x, x)] ++ map (fun p => (p, p)) k).
    rewrite last_source_app, IH by done. unfold last_source. cbn. by rewrite decide_False by congruence. }
  rewrite map_app. cbn [map]. rewrite last_source_app. change ((key, key) :: ?r) with ([(key, key)] ++ r). rewrite last_source_app, Hnone by done.
  rewrite (Hnone l1) by (intros Hk; apply (H1 key Hk); left). unfold last_source. cbn. rewrite decide_True by done. by destruct (glob_get g key).
Qed.

Lemma Ok_pair_inj {A B} (a a' : A) (b b' : B) : Ok (a, b) = Ok (a', b') -> a = a' /\ b = b'.
Proof. by intros [= -> ->]. Qed.

(** * The global dictionary *)

Lemma timestamp_only_changes g g' key : TryParseFingerprintAndTimestamp g = Ok g' -> key <> "fingerprint" -> key <> "timestamp" ->
  glob_get g' key = glob_get g key.
Proof.
  unfold TryParseFingerprintAndTimestamp, TryParseFingerprint. intros H Hf Ht. destruct (find_fingerprint _) as [o|]; [|done]. cbn zeta in H.
  injection H as <-. assert (forall k v h, k <> key -> glob_get (glob_set k v h) key = glob_get h key) as Hset.
  { intros k v h Hk. unfold glob_get, glob_set. cbn. rewrite od_get_set. by rewrite decide_False by congruence. }
  assert (forall h : GlobDict, glob_get (match glob_build_prop h with
     | Some get_prop => match get_prop "ro.build.date.utc" with Some t => if str_true t then glob_set "timestamp" (PText t) h else h | None => h end
     | None => h end) key = glob_get h key) as H1.
  { intros h. destruct (glob_build_prop h) as [get_prop|]; [|done]. destruct (get_prop _) as [t|]; [|done]. destruct (str_true t); [by apply Hset|done]. }
  rewrite H1. transitivity (glob_get (match o with Some f => glob_set "fingerprint" (PText f) g | None => g end) key).
  - destruct (glob_get _ "use_fixed_timestamp"); [by apply Hset|done].
  - destruct o; [by apply Hset|done].
Qed.

(** Properties that do not come from the table alone. *)
Definition own_props (mount_point : string) : list string :=
  ["mount_point"; "partition_name"; "journal_size"; "extfs_rsv_pct"; "ro_mount_point"] ++ map snd (partition_extras mount_point).

Lemma copy_or_0_lookup g src dest d key : copy_or_0 g src dest d !! key =
  if decide (dest = key) then Some (PText (default "0" (prop_text <$> glob_get g src))) else d !! key.
Proof. unfold copy_or_0, copy_prop. destruct (glob_get g src); cbn; case_decide; simplify_map_eq; done. Qed.

Lemma ro_defaults_lookup g mp d key : ro_defaults g mp d !! key =
  if in_list mp ro_mount_points then
    if decide ("ro_mount_point" = key) then Some (PText "1")
    else if decide ("extfs_rsv_pct" = key) then Some (PText (default "0" (prop_text <$> glob_get g (mount_prefix mp +:+ "_extfs_rsv_pct"))))
    else if decide ("journal_size" = key) then Some (PText (default "0" (prop_text <$> glob_get g (mount_prefix mp +:+ "_journal_size"))))
    else d !! key
  else d !! key.
Proof.
  unfold ro_defaults. destruct (in_list mp ro_mount_points); [|done]. cbn zeta. case_decide as E; [by rewrite <- E, lookup_insert_eq|].
  rewrite lookup_insert_ne by done. by rewrite !copy_or_0_lookup.
Qed.

(** The last part of the function leaves what the table gave alone. *)
Lemma extras_other g mp d key : key ∉ map snd (partition_extras mp) -> fold_left (copy_prop_ g) (partition_extras mp) d !! key = d !! key.
Proof.
  intros Hk. rewrite fold_copies. assert (last_source g (partition_extras mp) key = None) as ->; [|done].
  revert Hk. generalize (partition_extras mp). intros l. induction l as [|[s t] l IH]; intros Hk; [done|].
  cbn [map snd] in Hk. apply not_elem_of_cons in Hk as [Hx Hk]. change ((s, t) :: l) with ([(s, t)] ++ l). rewrite last_source_app, IH by done.
  unfold last_source. cbn. by rewrite decide_False by congruence.
Qed.

Lemma extras_not_own mp key : key ∈ ["mount_point"; "partition_name"; "journal_size"; "extfs_rsv_pct"; "ro_mount_point"; "partition_size"; "f2fs_blocksize"] ->
  key ∉ map snd (partition_extras mp).
Proof.
  intros Hk. assert (forall l : list string, bool_decide (Forall (fun k => k ∉ l) ["mount_point"; "partition_name"; "journal_size"; "extfs_rsv_pct";
    "ro_mount_point"; "partition_size"; "f2fs_blocksize"]) = true -> key ∉ l) as Hl.
  { intros l Hl%bool_decide_eq_true. by eapply Forall_forall in Hl. }
  unfold partition_extras. destruct (String.eqb mp "system"); [|destruct (String.eqb mp "data")]; apply Hl; by vm_compute.
Qed.

Lemma partition_size_source g mp key : size_key mp = Some key -> last_source g (copies mp) "partition_size" = glob_get g key.
Proof.
  unfold size_key, in_list, last_source. generalize (glob_get g). intros get. case_bool_decide as Hmp; [|done]. intros [= <-].
  repeat (apply elem_of_cons in Hmp as [->|Hmp]; [vm_compute; by destruct (get _)|]). by apply elem_of_nil in Hmp.
Qed.

Lemma size_key_other mp key : size_key mp = Some key -> key <> "fingerprint" /\ key <> "timestamp".
Proof.
  unfold size_key, in_list. case_bool_decide as Hmp; [|done]. intros [= <-].
  repeat (apply elem_of_cons in Hmp as [->|Hmp]; [done|]). by apply elem_of_nil in Hmp.
Qed.

Lemma ro_prefix h g mp : mp ∈ ro_mount_points ->
  (forall key, key <> "fingerprint" -> key <> "timestamp" -> glob_get h key = glob_get g key) ->
  glob_get h (mount_prefix mp +:+ "_journal_size") = glob_get g (mp +:+ "_journal_size") /\
  glob_get h (mount_prefix mp +:+ "_extfs_rsv_pct") = glob_get g (mp +:+ "_extfs_rsv_pct").
Proof.
  intros Hmp Hg. repeat (apply elem_of_cons in Hmp as [->|Hmp]; [by rewrite <- !Hg by done|]). by apply elem_of_nil in Hmp.
Qed.

Lemma extras_lookup g mp d src dest : (src, dest) ∈ partition_extras mp -> glob_get g src <> None ->
  (<["partition_name" := PText mp]> (fold_left (copy_prop_ g) (partition_extras mp) d)) !! dest = as_str (glob_get g src).
Proof.
  intros Hrow Hsrc. assert (dest <> "partition_name" /\ last_source g (partition_extras mp) dest = glob_get g src) as [Hn Hl].
  { unfold last_source. revert Hrow. generalize (glob_get g). intros get. unfold partition_extras.
    destruct (String.eqb mp "system"); [|destruct (String.eqb mp "data")]; intros Hrow; [..|by apply elem_of_nil in Hrow];
      repeat (apply elem_of_cons in Hrow as [[= -> ->]|Hrow]; [split; [done|vm_compute; by destruct (get _)]|]); by apply elem_of_nil in Hrow. }
  rewrite lookup_insert_ne, fold_copies, Hl by done. by destruct (glob_get g src).
Qed.

(** A property that no part sets on its own comes from the table. *)
Lemma prop_table_lookup g mp d g' key : ImagePropFromGlobalDict g mp = Ok (d, g') -> key ∉ own_props mp ->
  TryParseFingerprintAndTimestamp g = Ok g' /\ d !! key = as_str (last_source g' (copies mp) key).
Proof.
  unfold ImagePropFromGlobalDict. intros H Hk. destruct (TryParseFingerprintAndTimestamp g) as [h|] eqn:Eh; [|done]. cbn zeta in H.
  apply Ok_pair_inj in H as [<- <-]. split; [done|]. rewrite fold_fmt, <- fold_left_app. fold (copies mp).
  unfold own_props in Hk. rewrite not_elem_of_app, !not_elem_of_cons in Hk. destruct Hk as [(H1 & H2 & H3 & H4 & H5 & _) H6].
  rewrite lookup_insert_ne, extras_other, lookup_insert_ne, ro_defaults_lookup by congruence.
  repeat rewrite decide_False by congruence. rewrite fold_copies, lookup_empty.
  destruct (in_list _ _); by destruct (last_source h (copies mp) key).
Qed.

Lemma f2fs_blocksize_copied g mp d g' : ImagePropFromGlobalDict g mp = Ok (d, g') -> d !! "f2fs_blocksize" = as_str (glob_get g "f2fs_blocksize").
Proof.
  intros H. destruct (prop_table_lookup g mp d g' "f2fs_blocksize" H) as [Hg ->].
  - unfold own_props. rewrite not_elem_of_app. split; [by apply (bool_decide_unpack (_ ∉ _)); vm_compute|].
    apply extras_not_own. by apply (bool_decide_unpack (_ ∈ _)); vm_compute.
  - rewrite last_source_common by (by apply (bool_decide_unpack _); vm_compute).
    by rewrite (timestamp_only_changes g g' "f2fs_blocksize" Hg).
Qed.

(** C22: The properties of the image of a mount point are those of a table of sources:
    every property that is not set on its own has the value of the last source that
    the global dictionary has, so a source of the partition overrides a generic
    one; the journal and the reserved blocks of read-only partitions are 0 by
    default, the mount point and the name are as given, the further properties of
    "system" and "data" are copied.  The size goes back to the global dictionary
    under the name it came from.  The global dictionary changes in its fingerprint
    and timestamp only. *)
Theorem image_props_from_table g mount_point d g' :
  ImagePropFromGlobalDict g mount_point = Ok (d, g') ->
  (forall key, key ∉ own_props mount_point -> d !! key = as_str (last_source g' (copies mount_point) key)) /\
  (forall src dest, (src, dest) ∈ partition_extras mount_point -> glob_get g' src <> None -> d !! dest = as_str (glob_get g' src)) /\
  (mount_point ∈ ro_mount_points ->
     d !! "journal_size" = Some (PText (default "0" (prop_text <$> glob_get g (mount_point +:+ "_journal_size")))) /\
     d !! "extfs_rsv_pct" = Some (PText (default "0" (prop_text <$> glob_get g (mount_point +:+ "_extfs_rsv_pct")))) /\
     d !! "ro_mount_point" = Some (PText "1")) /\
  d !! "mount_point" = Some (PText mount_point) /\ d !! "partition_name" = Some (PText mount_point) /\
  (forall key, size_key mount_point = Some key ->
     GlobalDictFromImageProp d mount_point = match glob_get g key with Some v => {[key := PText (prop_text v)]} | None => ∅ end) /\
  (forall key, key <> "fingerprint" -> key <> "timestamp" -> glob_get g' key = glob_get g key).
Proof.
  intros H. pose proof (fun key Hk => proj2 (prop_table_lookup g mount_point d g' key H Hk)) as Htable. revert H.
  unfold ImagePropFromGlobalDict. intros H. destruct (TryParseFingerprintAndTimestamp g) as [h|] eqn:Eh; [|done]. cbn zeta in H.
  apply Ok_pair_inj in H as [Hd <-]. rewrite fold_fmt, <- fold_left_app in Hd. fold (copies mount_point) in Hd.
  assert (forall key, fold_left (copy_prop_ h) (copies mount_point) ∅ !! key = as_str (last_source h (copies mount_point) key)) as Hd0.
  { intros key. rewrite fold_copies, lookup_empty. by destruct (last_source h (copies mount_point) key). }
  revert Hd Hd0. generalize (fold_left (copy_prop_ h) (copies mount_point) ∅). intros d0 Hd Hd0.
  assert (forall key, key <> "partition_name" -> key ∉ map snd (partition_extras mount_point) ->
    d !! key = if decide ("mount_point" = key) then Some (PText mount_point) else ro_defaults h mount_point d0 !! key) as Hlook.
  { intros key Hn He. subst d. rewrite lookup_insert_ne, extras_other by done. case_decide as E; [by rewrite <- E, lookup_insert_eq|]. by rewrite lookup_insert_ne. }
  pose proof (fun key => timestamp_only_changes g h key Eh) as Hg.
  assert (forall key, key ∈ ["mount_point"; "journal_size"; "extfs_rsv_pct"; "ro_mount_point"; "partition_size"] -> key <> "partition_name") as Hne.
  { intros key Hk ->. revert Hk. by apply (bool_decide_unpack (_ ∉ _)). }
  split_and!.
  - intros key Hk. by apply Htable.
  - intros src dest Hrow Hsrc. subst d. by apply extras_lookup.
  - intros Hro. assert (in_list mount_point ro_mount_points = true) as Hin by (by apply bool_decide_eq_true).
    destruct (ro_prefix h g mount_point Hro Hg) as [<- <-].
    rewrite !Hlook by (apply Hne || apply extras_not_own; apply (bool_decide_unpack (_ ∈ _)); by vm_compute).
    rewrite !ro_defaults_lookup, Hin. done.
  - rewrite Hlook by (apply Hne || apply extras_not_own; apply (bool_decide_unpack (_ ∈ _)); by vm_compute). done.
  - subst d. by rewrite lookup_insert_eq.
  - intros key Hk. unfold GlobalDictFromImageProp. rewrite Hk.
    rewrite Hlook by (apply Hne || apply extras_not_own; apply (bool_decide_unpack (_ ∈ _)); by vm_compute).
    rewrite decide_False, ro_defaults_lookup by done. rewrite !decide_False by done.
    rewrite Hd0, (partition_size_source h mount_point key) by done. rewrite Hg by (by eapply size_key_other).
    destruct (in_list _ _), (glob_get g key); done.
  - done.
Qed.

(** The global dictionary of a build with a read-only vendor partition. *)
Definition vendor_glob : GlobDict := mkGlobDict
  [("fs_type", PText "ext4"); ("vendor_fs_type", PText "f2fs"); ("vendor_size", PText "1048576"); ("f2fs_blocksize", PText "4096");
   ("vendor_f2fs_blocksize", PText "16384"); ("use_fixed_timestamp", PText "true");
   ("avb_vendor_add_hashtree_footer_args", PText "--prop com.android.build.vendor.fingerprint:acme/v1")] None.

Lemma image_props_from_table_witness :
  exists d g', ImagePropFromGlobalDict vendor_glob "vendor" = Ok (d, g') /\
    d !! "fs_type" = Some (PText "f2fs") /\ d !! "fingerprint" = Some (PText "acme/v1") /\ d !! "f2fs_blocksize" = Some (PText "4096") /\
    GlobalDictFromImageProp d "vendor" = {["vendor_size" := PText "1048576"]}.
Proof.
  assert (is_ok (ImagePropFromGlobalDict vendor_glob "vendor") = true) as Hok by (vm_compute; reflexivity).
  destruct (ImagePropFromGlobalDict vendor_glob "vendor") as [[d g']|e] eqn:E; [|discriminate Hok]. clear Hok.
  exists d, g'. pose proof (image_props_from_table vendor_glob "vendor" d g' E) as (Ht & _ & _ & _ & _ & Hs & _).
  assert (g' = (glob_set "timestamp" (PNumber FIXED_FILE_TIMESTAMP) (glob_set "fingerprint" (PText "acme/v1") vendor_glob))) as ->.
  { assert (match ImagePropFromGlobalDict vendor_glob "vendor" with Ok p => glob_entries p.2 | Raise _ => [] end = glob_entries g') as H1 by (rewrite E; reflexivity).
    assert (match ImagePropFromGlobalDict vendor_glob "vendor" with Ok p => glob_build_prop p.2 | Raise _ => None end = glob_build_prop g') as H2 by (rewrite E; reflexivity).
    vm_compute in H1, H2. destruct g' as [en bp]. cbn [glob_entries glob_build_prop] in H1, H2. subst. vm_compute. reflexivity. }
  split; [exact eq_refl|]. split_and!.
  - rewrite Ht by (apply (bool_decide_unpack (_ ∉ _)); vm_compute; exact I). vm_compute. reflexivity.
  - rewrite Ht by (apply (bool_decide_unpack (_ ∉ _)); vm_compute; exact I). vm_compute. reflexivity.
  - rewrite Ht by (apply (bool_decide_unpack (_ ∉ _)); vm_compute; exact I). vm_compute. reflexivity.
  - rewrite (Hs "vendor_size") by (vm_compute; reflexivity). vm_compute. reflexivity.
Defined.
