(* ===== verification/BuildImage.v ===== *)
(** releasetools/build_image.py: building the image of a partition — the command
    of the file system's tool ([BuildImageMkfs]), the size of the image and of its
    partition ([BuildImage]), the partitions of a vbmeta image.  mkfs, fsck, du,
    simg2img and the others are programs of the host. *)

From S2P Require Export SparseImg ImageProp.

#[local] Open Scope string_scope.
#[local] Open Scope list_scope.
#[local] Open Scope Z_scope.

Definition BYTES_IN_MB : Z := 1024 * 1024.

(** [d.get(key, default)] where a text is expected, and as a number. *)
Definition fs_type_of (d : image_props) : result string :=
  match d !! "fs_type" with None => Ok "" | Some v => as_text AttributeError v end.
Definition get_int (d : image_props) (key : string) (default_ : Z) : result Z :=
  match d !! key with Some v => prop_int v | None => Ok default_ end.

(** * Sizes *)

(** The float 1.1. *)
Definition float_1_1 : py_float := float_lit 4953959590107546 (-52).

Definition CalculateSizeAndReserved (d : image_props) (size : Z) : result Z :=
  let! fs_type := fs_type_of d in
  let! partition_headroom := get_int d "partition_headroom" 0 in
  let! reserved_size := get_int d "partition_reserved_size" (BYTES_IN_MB * 16) in
  let! reserved_size := if String.eqb fs_type "erofs" then get_int d "partition_reserved_size" 0 else Ok reserved_size in
  if String.eqb fs_type "erofs" && (reserved_size =? 0) then Ok (Z.max (size * 1003 / 1000) (256 * 1024))
  else
    let reserved_size := if starts_with "ext4" fs_type && (reserved_size <? partition_headroom) then partition_headroom else reserved_size in
    let! f := float_of_Z size in
    let! n := float_trunc (float_mul f float_1_1) in
    Ok (n + reserved_size).

(** What the tools print about a file system. *)
Abbreviation fs_info := (list (string * string)).
Definition info_int (fs_dict : fs_info) (key default_ : string) : result Z := py_int (default default_ (od_get key fs_dict)).

(** The size of an ext image after the first pass, of [size] bytes. *)
Definition ext_size (d : image_props) (fs_type : string) (fs_dict : fs_info) (size : Z) : result Z :=
  let! block_size := info_int fs_dict "Block size" "4096" in
  let! free_blocks := info_int fs_dict "Free blocks" "0" in
  let free_size := free_blocks * block_size in
  let! reserved_size := get_int d "partition_reserved_size" 0 in
  let! partition_headroom := info_int fs_dict "partition_headroom" "0" in
  let reserved_size := if starts_with "ext4" fs_type && (reserved_size <? partition_headroom) then partition_headroom else reserved_size in
  if free_size <=? reserved_size then Ok size
  else
    let size := size - free_size + reserved_size in
    let size := if reserved_size =? 0 then size * 1003 / 1000 else size in
    let size := Z.max size (256 * 1024) in
    Ok (if block_size <=? 4096 then RoundUpTo4K size else (size + block_size - 1) / block_size * block_size).

(** The number of inodes: those in use, and .2% or 1 more. *)
Definition ext_inodes (extfs_inode_count : string) (fs_dict : fs_info) : result Z :=
  let! inodes := info_int fs_dict "Inode count" extfs_inode_count in
  let! free := info_int fs_dict "Free inodes" "0" in
  let inodes := inodes - free in
  Ok (inodes + Z.max (inodes * 2 / 1000) 1).

Definition f2fs_size (fs_dict : fs_info) : result Z :=
  let! block_count := info_int fs_dict "block_count" "0" in
  let! log_blocksize := info_int fs_dict "log_blocksize" "12" in
  if log_blocksize <? 0 then Raise ValueError else Ok (Z.shiftl block_count log_blocksize).

(** * Headroom *)

Fixpoint span_digits (s : string) : string * string :=
  match s with
  | String c s' => if is_digit c then let '(a, b) := span_digits s' in (String c a, b) else ("", s)
  | "" => ("", "")
  end.

(** [ (?P<used_blocks>[0-9]+)/(?P<total_blocks>[0-9]+) blocks] at the start of a text. *)
Definition match_blocks (s : string) : option (string * string) :=
  match s with
  | String " " s1 =>
      let '(used, s2) := span_digits s1 in
      match s2 with
      | String "/" s3 =>
          let '(total, s4) := span_digits s3 in
          if str_true used && str_true total && starts_with " blocks" s4 then Some (used, total) else None
      | _ => None
      end
  | _ => None
  end.

(** [.*] is greedy: the last place where the rest matches. *)
Fixpoint last_blocks (s : string) : option (string * string) :=
  match s with
  | "" => None
  | String _ s' => match last_blocks s' with Some r => Some r | None => match_blocks s end
  end.

Definition ext4fs_stats (line : string) : option (string * string) :=
  let prefix := "Created filesystem with " in
  if starts_with prefix line then last_blocks (str_drop (String.length prefix) line) else None.

(** The output of mke2fs may be missing. *)
Definition CheckHeadroom (ext4fs_output : option string) (d : image_props) : result unit :=
  match ext4fs_output with
  | None => Raise AssertionError
  | Some output =>
      let! fs_type := fs_type_of d in
      assert! starts_with "ext4" fs_type in
      assert! prop_in d "partition_headroom" in
      assert! prop_in d "mount_point" in
      let last_line := List.last (split_char newline (strip output)) "" in
      let! (used, total) := of_option AttributeError (ext4fs_stats last_line) in
      let! used_blocks := py_int used in
      let! total_blocks := py_int total in
      let! headroom := get_int d "partition_headroom" 0 in
      let headroom_blocks := headroom / VERITY_BLOCK_SIZE in
      if total_blocks - headroom_blocks <? used_blocks then Raise BuildImageError else Ok tt
  end.

(** * Commands *)

Abbreviation command := (list PropValue).

(** [if key in prop_dict: build_command.extend([flag, prop_dict[key]])]. *)
Definition opt_arg (d : image_props) (key flag : string) : command :=
  match d !! key with Some v => [PText flag; v] | None => [] end.
Definition opt_str_arg (d : image_props) (key flag : string) : command :=
  match d !! key with Some v => [PText flag; PText (prop_text v)] | None => [] end.
Definition opt_given (o : option string) (flag : string) : command :=
  match o with Some s => if str_true s then [PText flag; PText s] else [] | None => [] end.
Definition if_arg (b : bool) (args : list string) : command := if b then map PText args else [].
Definition prop_on (d : image_props) (key : string) : bool := match d !! key with Some v => prop_true v | None => false end.
Definition one_arg (d : image_props) (key : string) : command := match d !! key with Some v => [v] | None => [] end.

Section commands.
Variables (in_dir out_file : string) (target_out fs_config : option string) (d : image_props).

Definition disable_sparse : bool := prop_in d "disable_sparse".
Definition sparse (flag : string) : bool := prop_in d flag && negb disable_sparse.

(** The ext command up to and after the base file system. *)
Definition ext_command_head (fs_type : string) : result command :=
  let! mkuserimg := prop_at d "ext_mkuserimg" in
  let! mount_point := prop_at d "mount_point" in
  let! image_size := prop_at d "image_size" in
  Ok ([mkuserimg] ++ (if sparse "extfs_sparse_flag" then one_arg d "extfs_sparse_flag" else [])
      ++ [PText in_dir; PText out_file; PText fs_type; mount_point; image_size]
      ++ opt_arg d "journal_size" "-j" ++ opt_str_arg d "timestamp" "-T"
      ++ opt_given fs_config "-C" ++ opt_given target_out "-D" ++ opt_arg d "block_list" "-B").

Definition ext_command_tail : result command :=
  let! mount_point := prop_at d "mount_point" in
  let! mkuserimg := text_at d "ext_mkuserimg" in
  let mke2fs := String.eqb (path_basename mkuserimg) "mkuserimg_mke2fs" in
  Ok ([PText "-L"; mount_point]
      ++ opt_arg d "extfs_inode_count" "-i" ++ opt_arg d "extfs_rsv_pct" "-M"
      ++ opt_arg d "flash_erase_block_size" "-e" ++ opt_arg d "flash_logical_block_size" "-o"
      ++ (if mke2fs then opt_arg d "uuid" "-U" ++ opt_arg d "hash_seed" "-S" else [])
      ++ if_arg (prop_eq d "ext4_share_dup_blocks" "true") ["-c"]
      ++ if_arg true ["--inode_size"; if prop_on d "needs_projid" then "512" else "256"]
      ++ one_arg d "selinux_fc").

(** A specific value, or a default one. *)
Definition specific_or (key default_key : string) : option PropValue :=
  match d !! key with Some v => Some v | None => d !! default_key end.

Definition erofs_compressor_args : command :=
  match specific_or "erofs_compressor" "erofs_default_compressor" with
  | Some v => if prop_true v && negb (match v with PText s => String.eqb s "none" | PNumber _ => false end) then [PText "-z"; v] else []
  | None => []
  end.
Definition erofs_hints_args : command :=
  match specific_or "erofs_compress_hints" "erofs_default_compress_hints" with
  | Some v => if prop_true v then [PText "--compress-hints"; v] else []
  | None => []
  end.

Definition erofs_command : result command :=
  let! mount_point := prop_at d "mount_point" in
  Ok ([PText "mkfs.erofs"] ++ erofs_compressor_args ++ erofs_hints_args
      ++ [PText "-b"; default (PText "4096") (d !! "erofs_blocksize")]
      ++ [PText "--mount-point"; mount_point]
      ++ opt_given target_out "--product-out" ++ opt_given fs_config "--fs-config-file"
      ++ opt_arg d "selinux_fc" "--file-contexts" ++ opt_str_arg d "timestamp" "-T" ++ opt_arg d "uuid" "-U"
      ++ opt_arg d "block_list" "--block-list-file" ++ opt_arg d "erofs_pcluster_size" "-C"
      ++ if_arg (prop_in d "erofs_share_dup_blocks") ["--chunksize"; "4096"]
      ++ if_arg (prop_in d "erofs_use_legacy_compression") ["-E"; "legacy-compress"]
      ++ [PText out_file; PText in_dir]).

Definition squash_command : result command :=
  let! mount_point := prop_at d "mount_point" in
  Ok ([PText "mksquashfsimage"; PText in_dir; PText out_file]
      ++ (if sparse "squashfs_sparse_flag" then one_arg d "squashfs_sparse_flag" else [])
      ++ [PText "-m"; mount_point] ++ opt_given target_out "-d" ++ opt_given fs_config "-C"
      ++ opt_arg d "selinux_fc" "-c" ++ opt_arg d "block_list" "-B" ++ opt_arg d "squashfs_block_size" "-b"
      ++ opt_arg d "squashfs_compressor" "-z" ++ opt_arg d "squashfs_compressor_opt" "-zo"
      ++ if_arg (prop_eq d "squashfs_disable_4k_align" "true") ["-a"]).

Definition f2fs_sldc_args : result command :=
  if prop_eq d "f2fs_compress" "true" then
    match d !! "f2fs_sldc_flags" with
    | None => Ok [PText "--sldc"; PText "0"]
    | Some v =>
        let! flags := as_text AttributeError v in
        let sldc_flags := split_ws flags in
        Ok (PText "--sldc" :: PText (py_str (Z.of_nat (length sldc_flags))) :: map PText sldc_flags)
    end
  else Ok [].

Definition f2fs_command : result command :=
  let! image_size := prop_at d "image_size" in
  let! mount_point := prop_at d "mount_point" in
  let! sldc := f2fs_sldc_args in
  Ok ([PText "mkf2fsuserimg"; PText out_file; image_size]
      ++ (if sparse "f2fs_sparse_flag" then one_arg d "f2fs_sparse_flag" else [])
      ++ opt_given fs_config "-C" ++ [PText "-f"; PText in_dir] ++ opt_given target_out "-D"
      ++ opt_arg d "selinux_fc" "-s" ++ [PText "-t"; mount_point] ++ opt_str_arg d "timestamp" "-T"
      ++ opt_arg d "block_list" "-B" ++ [PText "-L"; mount_point]
      ++ if_arg (prop_on d "needs_projid") ["--prjquota"] ++ if_arg (prop_on d "needs_casefold") ["--casefold"]
      ++ if_arg (prop_on d "needs_compress" || prop_eq d "f2fs_compress" "true") ["--compression"]
      ++ if_arg (prop_in d "ro_mount_point") ["--readonly"]
      ++ sldc ++ [PText "-b"; default (PText "4096") (d !! "f2fs_blocksize")]).
End commands.

(** * Effects *)

(** The property dictionary, which the build updates, with the directory kept from a
    first pass; and the host. *)
Record bstate (W : Type) := mkBState {
  bs_props : image_props;
  bs_first_pass : option (string * option string);
  bs_host : W
}.
Arguments mkBState {W}.
Arguments bs_props {W}.
Arguments bs_first_pass {W}.
Arguments bs_host {W}.

Section build.
Context {W B : Type} `{Host W} `{VerityImageBuilder W B}.
Variable create_verity_image_builder : image_props -> io W (option B).
(** [uuid.uuid5(uuid.NAMESPACE_URL, seed)]. *)
Variable uuid5 : string -> string.

Definition props_now : io (bstate W) image_props := fun s => (Ok (bs_props s), s).
Definition set_prop (key : string) (v : PropValue) : io (bstate W) unit := fun s =>
  (Ok tt, mkBState (<[key := v]> (bs_props s)) (bs_first_pass s) (bs_host s)).
Definition host {A} (m : io W A) : io (bstate W) A :=
  io_zoom bs_host (fun w s => mkBState (bs_props s) (bs_first_pass s) w) m.
Definition exists_ (path : string) : io W bool := fun w => (Ok (path_exists path w), w).
(** A method of the builder, with the builder after it. *)
Definition on_builder {A} (b : B) (m : io (B * W) A) : io (bstate W) (A * B) := fun s =>
  let '(r, (b', w)) := m (b, bs_host s) in
  (match r with Ok a => Ok (a, b') | Raise e => Raise e end, mkBState (bs_props s) (bs_first_pass s) w).

(** A command may only hold texts. *)
Definition run_build_command (args : command) : io W string :=
  let* args := io_pure (mapM (as_text TypeError) args) in RunAndCheckOutput args.

Definition UnsparseImage (sparse_image_path : string) (replace : bool) : io W string :=
  let unsparse_image_path := path_join (path_dirname sparse_image_path) ("unsparse_" +:+ path_basename sparse_image_path) in
  let* there := exists_ unsparse_image_path in
  if there && negb replace then io_ret unsparse_image_path
  else
    let* _ := io_when there (remove_file unsparse_image_path) in
    let* _ := io_on_error (RunAndCheckOutput ["simg2img"; sparse_image_path; unsparse_image_path]) (remove_file unsparse_image_path) in
    io_ret unsparse_image_path.

Definition GetInodeUsage (path : string) : io W Z :=
  let* output := RunAndCheckOutput ["find"; path; "-print"] in
  let inodes := Z.of_nat (length (split_char newline output)) - 1 in
  io_ret (inodes + Z.max (inodes * 6 / 100) 12).

Definition characteristic (fs_dict : fs_info) (line : string) : fs_info :=
  match split_char ":" line with
  | [key; value] => od_set (strip key) (strip value) fs_dict
  | _ => fs_dict
  end.

Definition GetFilesystemCharacteristics (fs_type image_path : string) (sparse_image : bool) : io W fs_info :=
  let* path := if sparse_image then UnsparseImage image_path false else io_ret image_path in
  let run :=
    if starts_with "ext" fs_type then RunAndCheckOutput ["tune2fs"; "-l"; path]
    else if starts_with "f2fs" fs_type then RunAndCheckOutput ["fsck.f2fs"; "-l"; path]
    else io_raise UnboundLocalError in
  let* output := io_finally run (io_when sparse_image (remove_file path)) in
  io_ret (fold_left characteristic (splitlines output) []).

Definition ConvertBlockMapToBaseFs (block_map_file : PropValue) : io W string :=
  let* base_fs_file := make_temp_file "script_gen_" ".base_fs" in
  let* _ := run_build_command [PText "blk_alloc_to_base_fs"; block_map_file; PText base_fs_file] in
  io_ret base_fs_file.

Definition merge_fs_config (fs_config : string) (root_fs_config : option string) : io W string :=
  let* merged := make_temp_file "merged_fs_config" ".txt" in
  let* root := match root_fs_config with Some f => read_lines f | None => io_ret [] end in
  let* own := read_lines fs_config in
  let* _ := write_lines merged (root ++ own) in
  io_ret merged.

Definition SetUpInDirAndFsConfig (origin_in : string) : io (bstate W) (string * option string) :=
  let* d := props_now in
  let* fs_config := io_pure (opt_text d "fs_config") in
  let* _ := io_pure (prop_at d "mount_point") in
  if prop_eq d "mount_point" "system_other" then
    let* _ := set_prop "mount_point" (PText "system") in io_ret (origin_in, fs_config)
  else if negb (prop_eq d "mount_point" "system") then io_ret (origin_in, fs_config)
  else
    fun s => match bs_first_pass s with
    | Some p => (let* _ := set_prop "mount_point" (PText "/") in io_ret p) s
    | None =>
        (let* in_dir := host make_temp_dir in
         let* root_dir := io_pure (opt_text d "root_dir") in
         let* _ := match root_dir with
                   | Some dir => if str_true dir then host (let* _ := remove_tree in_dir false in copy_tree dir in_dir) else io_ret tt
                   | None => io_ret tt
                   end in
         let in_dir_system := path_join in_dir "system" in
         let* _ := host (remove_tree in_dir_system true) in
         let* _ := host (copy_tree origin_in in_dir_system) in
         let* _ := set_prop "mount_point" (PText "/") in
         let* root_fs_config := io_pure (opt_text d "root_fs_config") in
         let* fs_config := match fs_config with
                           | Some c => if str_true c then let* m := host (merge_fs_config c root_fs_config) in io_ret (Some m) else io_ret (Some c)
                           | None => io_ret None
                           end in
         fun s => (Ok (in_dir, fs_config), mkBState (bs_props s) (Some (in_dir, fs_config)) (bs_host s))) s
    end.

Definition RunE2fsck (out_file : string) : io W unit :=
  let* unsparse_image := UnsparseImage out_file false in
  let* _ := io_finally (RunAndCheckOutput ["e2fsck"; "-f"; "-n"; unsparse_image]) (remove_file unsparse_image) in
  io_ret tt.

Definition RunErofsFsck (out_file : string) : io W unit :=
  let* _ := RunAndCheckOutput ["fsck.erofs"; "--extract"; out_file] in io_ret tt.

(** The command, whether fsck runs after it, and whether the image is made sparse. *)
Definition mkfs_command (in_dir : string) (d : image_props) (out_file : string) (target_out fs_config : option string)
    : io W (command * option (string -> io W unit) * bool) :=
  let* fs_type := io_pure (fs_type_of d) in
  if starts_with "ext" fs_type then
    let* head := io_pure (ext_command_head in_dir out_file target_out fs_config d fs_type) in
    let* base := match d !! "base_fs_file" with
                 | Some f => let* base_fs_file := ConvertBlockMapToBaseFs f in io_ret [PText "-d"; PText base_fs_file]
                 | None => io_ret []
                 end in
    let* tail := io_pure (ext_command_tail d) in
    io_ret (head ++ base ++ tail, if sparse d "extfs_sparse_flag" then Some RunE2fsck else None, false)
  else if starts_with "erofs" fs_type then
    let* c := io_pure (erofs_command in_dir out_file target_out fs_config d) in
    io_ret (c, Some RunErofsFsck, sparse d "erofs_sparse_flag")
  else if starts_with "squash" fs_type then
    let* c := io_pure (squash_command in_dir out_file target_out fs_config d) in io_ret (c, None, false)
  else if starts_with "f2fs" fs_type then
    let* c := io_pure (f2fs_command in_dir out_file target_out fs_config d) in io_ret (c, None, false)
  else io_raise BuildImageError.

(** What is said about a failure: du may fail as it likes, the numbers are read. *)
Definition explain_failure (in_dir : string) (d : image_props) : io W unit :=
  let* _ := fun w => (Ok tt, (GetDiskUsage in_dir w).2) in
  let* _ := io_pure (get_int d "partition_reserved_size" 0) in
  match d !! "image_size", d !! "partition_size" with
  | Some i, Some p => let* _ := io_pure (prop_int i) in let* _ := io_pure (prop_int p) in io_ret tt
  | _, _ => io_ret tt
  end.

Definition BuildImageMkfs (in_dir : string) (d : image_props) (out_file : string) (target_out fs_config : option string) : io W string :=
  let* (build_command, run_fsck, manual_sparse) := mkfs_command in_dir d out_file target_out fs_config in
  let* mkfs_output := io_on_error (run_build_command build_command) (explain_failure in_dir d) in
  let* _ := match run_fsck with
            | Some fsck => io_when (negb (prop_eq d "skip_fsck" "true")) (fsck out_file)
            | None => io_ret tt
            end in
  let* _ := io_when manual_sparse
    (let temp_file := out_file +:+ ".sparse" in
     let* _ := RunAndCheckOutput ["img2simg"; out_file; temp_file] in
     rename_file temp_file out_file) in
  io_ret mkfs_output.

(** [BuildImageMkfs] with the properties as they are. *)
Definition mkfs (in_dir out_file : string) (target_out fs_config : option string) : io (bstate W) string :=
  let* d := props_now in host (BuildImageMkfs in_dir d out_file target_out fs_config).

Definition SetUUIDIfNotExist : io (bstate W) unit :=
  let* d := props_now in
  let* what := io_pure (text_at d "mount_point") in
  let* fingerprint := io_pure (opt_text d "fingerprint") in
  let uuid_seed := what +:+ "-" +:+ default "" fingerprint in
  let* _ := set_prop "uuid" (PText (uuid5 uuid_seed)) in
  set_prop "hash_seed" (PText (uuid5 ("hash_seed-" +:+ uuid_seed))).

(** * The size of an image whose partition has none *)

Section one_image.
Variables (in_dir out_file : string) (target_out fs_config : option string).

(** What du says: of the finished image for erofs, otherwise of the directory. *)
Definition tree_size (fs_type : string) : io (bstate W) (Z * option string) :=
  if starts_with "erofs" fs_type then
    let* mkfs_output := mkfs in_dir out_file target_out fs_config in
    let* d := props_now in
    let* size :=
      if sparse d "erofs_sparse_flag" then
        host (let* image_path := UnsparseImage out_file false in
              let* size := GetDiskUsage image_path in
              let* _ := remove_file image_path in
              io_ret size)
      else host (GetDiskUsage out_file) in
    io_ret (size, Some mkfs_output)
  else let* size := host (GetDiskUsage in_dir) in io_ret (size, None).

Definition set_sizes (size : Z) : io (bstate W) unit :=
  let* _ := set_prop "partition_size" (PText (py_str size)) in set_prop "image_size" (PText (py_str size)).

(** The pass that builds the image once, to look at it. *)
Definition first_pass (fs_type : string) (sparse_flag : string) : io (bstate W) fs_info :=
  let* _ := mkfs in_dir out_file target_out fs_config in
  let* d := props_now in
  host (let* fs_dict := GetFilesystemCharacteristics fs_type out_file (sparse d sparse_flag) in
        let* _ := remove_file out_file in
        io_ret fs_dict).

(** The trial image of [size] bytes, and what the tools say about it. *)
Definition ext_trial (fs_type : string) (size : Z) : io (bstate W) fs_info :=
  let* _ := set_sizes size in
  let* d := props_now in
  let* _ := if prop_in d "extfs_inode_count" then io_ret tt
            else let* n := host (GetInodeUsage in_dir) in set_prop "extfs_inode_count" (PText (py_str n)) in
  first_pass fs_type "extfs_sparse_flag".

Definition ext_pass (fs_type : string) (size : Z) : io (bstate W) Z :=
  let* fs_dict := ext_trial fs_type size in
  let* d := props_now in
  let* size := io_pure (ext_size d fs_type fs_dict size) in
  let* extfs_inode_count := io_pure (prop_at d "extfs_inode_count") in
  let* inodes := io_pure (ext_inodes (prop_text extfs_inode_count) fs_dict) in
  let* _ := set_prop "extfs_inode_count" (PText (py_str inodes)) in
  let* _ := set_prop "partition_size" (PText (py_str size)) in
  io_ret size.

Definition f2fs_trial (fs_type : string) (size : Z) : io (bstate W) fs_info :=
  let* _ := set_sizes size in first_pass fs_type "f2fs_sparse_flag".

Definition f2fs_pass (fs_type : string) (size : Z) : io (bstate W) Z :=
  let* fs_dict := f2fs_trial fs_type size in
  let* size := io_pure (f2fs_size fs_dict) in
  let* _ := set_prop "partition_size" (PText (py_str size)) in
  io_ret size.

(** The estimate of the size, then that of a trial image, in bytes. *)
Definition content_size (fs_type : string) : io (bstate W) (Z * option string) :=
  let* (size, mkfs_output) := tree_size fs_type in
  let* d := props_now in
  let* size := io_pure (CalculateSizeAndReserved d size) in
  let size := RoundUpTo4K size in
  let* size :=
    if starts_with "ext" fs_type then ext_pass fs_type size
    else if starts_with "f2fs" fs_type && prop_eq d "f2fs_compress" "true" then f2fs_pass fs_type size
    else io_ret size in
  io_ret (size, mkfs_output).

Definition dynamic_size (fs_type : string) (builder : option B) : io (bstate W) (option B * option string) :=
  let* (size, mkfs_output) := content_size fs_type in
  let* (size, builder) := match builder with
    | Some b => let* (n, b) := on_builder b (CalculateDynamicPartitionSize size) in io_ret (n, Some b)
    | None => io_ret (size, None)
    end in
  let* _ := set_prop "partition_size" (PText (py_str size)) in
  io_ret (builder, mkfs_output).

(** The sizes of the partition and of the image in it. *)
Definition plan_sizes (fs_type : string) (builder : option B) : io (bstate W) (option B * option string) :=
  let* d := props_now in
  let* (builder, mkfs_output) :=
    if prop_eq d "use_dynamic_partition_size" "true" && negb (prop_in d "partition_size") then dynamic_size fs_type builder
    else io_ret (builder, None) in
  let* d := props_now in
  let* partition_size := io_pure (prop_at d "partition_size") in
  let* _ := set_prop "image_size" partition_size in
  match builder with
  | Some b =>
      let* (max_image_size, b) := on_builder b (CalculateMaxImageSize None) in
      let* _ := set_prop "image_size" (PText (py_str max_image_size)) in
      io_ret (Some b, mkfs_output)
  | None => io_ret (None, mkfs_output)
  end.
End one_image.

Definition spans_partition (fs_type : string) (d : image_props) : bool :=
  negb (starts_with "squash" fs_type || starts_with "erofs" fs_type
        || (starts_with "f2fs" fs_type && prop_eq d "f2fs_compress" "true")).

Definition BuildImage (in_dir out_file : string) (target_out : option string) : io (bstate W) unit :=
  let* (in_dir, fs_config) := SetUpInDirAndFsConfig in_dir in
  let* _ := SetUUIDIfNotExist in
  let* d := props_now in
  let* fs_type := io_pure (fs_type_of d) in
  let fs_spans_partition := spans_partition fs_type d in
  let* builder := host (create_verity_image_builder d) in
  let* (builder, mkfs_output) := plan_sizes in_dir out_file target_out fs_config fs_type builder in
  let* mkfs_output := match mkfs_output with
    | Some o => if str_true o then io_ret o else mkfs in_dir out_file target_out fs_config
    | None => mkfs in_dir out_file target_out fs_config
    end in
  let* content := host (read_bytes out_file) in
  let* size := io_pure (GetImagePartitionSize content) in
  let* _ := set_prop "image_size" (PNumber size) in
  let* d := props_now in
  let* _ := if prop_in d "partition_headroom" && starts_with "ext4" fs_type then io_pure (CheckHeadroom (Some mkfs_output) d) else io_ret tt in
  match builder with
  | Some b =>
      let* (_, b) := if negb fs_spans_partition then on_builder b (PadSparseImage out_file) else io_ret (tt, b) in
      let* _ := on_builder b (Build out_file) in
      io_ret tt
  | None => io_ret tt
  end.
End build.
