(* ===== verification/BuildImageProps.v ===== *)
(** The sizes planned for an image and its partition leave room for the files, for
    any builder for Verified Boot that keeps its promise; what the command for f2fs
    does with the block size. *)

From Stdlib Require Import SpecFloat.
From S2P Require Export VerityProps ImagePropProps BuildImage.

#[local] Open Scope string_scope.
#[local] Open Scope list_scope.
#[local] Open Scope Z_scope.

(** * The estimate *)

Lemma float_1_1_value : float_1_1 = S754_finite false 4953959590107546 (-52).
Proof. by vm_compute. Qed.

(** [int(size * 1.1)] is at least [size], in floats too. *)
Lemma ten_percent_more n f m : 0 <= n < 2 ^ 300 -> float_of_Z n = Ok f -> float_trunc (float_mul f float_1_1) = Ok m -> n <= m.
Proof.
  intros Hn Hf Hm. destruct (Z.eq_dec n 0) as [->|Hne]; [injection Hf as <-; by injection Hm as <-|].
  destruct (float_mul_trunc n 4953959590107546 (-52) n) as (f' & m' & Hf' & Hm' & Hle); [lia|by apply Z.ltb_lt|lia| |].
  - replace (n * 2 ^ 104 * 2 ^ (- -52)) with (n * (2 ^ 104 * 2 ^ 52)) by (change (- -52) with 52; ring).
    replace (n * (2 ^ 52 - 1) * (2 ^ 52 - 1) * 4953959590107546) with (n * ((2 ^ 52 - 1) * (2 ^ 52 - 1) * 4953959590107546)) by ring.
    apply Z.mul_le_mono_nonneg_l; [lia|]. by apply Z.leb_le.
  - rewrite float_1_1_value in Hm. congruence.
Qed.

(** The space reserved, at most, besides the files. *)
Definition reserved_of (d : image_props) : result Z := get_int d "partition_reserved_size" 0.

Lemma size_and_reserved d n m r : 0 <= n < 2 ^ 300 -> reserved_of d = Ok r -> 0 <= r ->
  CalculateSizeAndReserved d n = Ok m -> n + r <= m.
Proof.
  unfold CalculateSizeAndReserved, reserved_of. intros Hn Hr Hr0 H. destruct (fs_type_of d) as [t|]; [|done].
  destruct (get_int d "partition_headroom" 0) as [h|]; [|done].
  destruct (get_int d "partition_reserved_size" (BYTES_IN_MB * 16)) as [r0|] eqn:E0; [|done].
  assert (r <= r0) as Hr0'.
  { unfold get_int in Hr, E0. destruct (d !! "partition_reserved_size"); [rewrite Hr in E0; by injection E0 as ->|]. injection Hr as <-. by injection E0 as <-. }
  rewrite Hr in H. destruct (String.eqb t "erofs"); cbn [andb] in H.
  - destruct (Z.eqb_spec r 0) as [->|_].
    + injection H as <-. pose proof (Z.div_le_lower_bound (n * 1003) 1000 n ltac:(lia) ltac:(lia)). lia.
    + destruct (float_of_Z n) as [f|] eqn:Ef; [|done]. destruct (float_trunc _) as [k|] eqn:Ek; [|done]. injection H as <-.
      pose proof (ten_percent_more _ _ _ Hn Ef Ek). destruct (starts_with "ext4" t && (r <? h)) eqn:E; [bool_prop|]; lia.
  - destruct (float_of_Z n) as [f|] eqn:Ef; [|done]. destruct (float_trunc _) as [k|] eqn:Ek; [|done]. injection H as <-.
    pose proof (ten_percent_more _ _ _ Hn Ef Ek). destruct (starts_with "ext4" t && (r0 <? h)) eqn:E; [bool_prop|]; lia.
Qed.

(** What an ext image of [trial] bytes with [free] free blocks of [bs] bytes is
    shrunk to when [r] bytes are reserved: it stays as it is when no more than the
    reserve is free; otherwise what is in use and the reserve, with a margin of 0.3%
    if nothing is reserved and a smallest size, is rounded up to whole blocks. *)
Definition shrunk_to (r trial bs free size : Z) : Prop :=
  if free * bs <=? r then size = trial
  else
    let needed := if r =? 0 then (trial - free * bs) * 1003 / 1000 else trial - free * bs + r in
    Z.max needed (256 * 1024) <= size < Z.max needed (256 * 1024) + Z.max 4096 bs /\ size mod Z.max 4096 bs = 0.

(** An image that is shrunk has room for what is in use and the reserve. *)
Lemma shrunk_to_room r trial bs free size : 0 <= r -> free * bs <= trial -> shrunk_to r trial bs free size ->
  Z.min trial (trial - free * bs + r) <= size.
Proof.
  unfold shrunk_to. intros Hr Hf. destruct (Z.leb_spec (free * bs) r); [lia|]. intros [[H1 _] _].
  destruct (Z.eqb_spec r 0) as [->|]; [|lia].
  pose proof (Z.div_le_lower_bound ((trial - free * bs) * 1003) 1000 (trial - free * bs) ltac:(lia) ltac:(lia)). lia.
Qed.

(** The space reserved in an ext image, with the headroom the tools report. *)
Definition ext_reserve (fs_type : string) (r headroom : Z) : Z := if starts_with "ext4" fs_type then Z.max r headroom else r.

Lemma ext_size_shrunk d t fs_dict trial m r : reserved_of d = Ok r -> ext_size d t fs_dict trial = Ok m ->
  exists bs free h, info_int fs_dict "Block size" "4096" = Ok bs /\ info_int fs_dict "Free blocks" "0" = Ok free /\
    info_int fs_dict "partition_headroom" "0" = Ok h /\ shrunk_to (ext_reserve t r h) trial bs free m.
Proof.
  unfold ext_size, reserved_of. intros Hr H. destruct (info_int fs_dict "Block size" "4096") as [bs|]; [|done].
  destruct (info_int fs_dict "Free blocks" "0") as [free|]; [|done]. rewrite Hr in H.
  destruct (info_int fs_dict "partition_headroom" "0") as [h|]; [|done]. exists bs, free, h. split_and!; [done..|].
  assert ((if starts_with "ext4" t && (r <? h) then h else r) = ext_reserve t r h) as E.
  { unfold ext_reserve. destruct (starts_with "ext4" t); simpl; zcases. }
  cbv zeta in H. rewrite E in H. unfold shrunk_to. set (r' := ext_reserve t r h) in *.
  destruct (free * bs <=? r'); [by injection H as ->|]. cbv zeta.
  assert ((if r' =? 0 then (trial - free * bs + r') * 1003 / 1000 else trial - free * bs + r') =
          (if r' =? 0 then (trial - free * bs) * 1003 / 1000 else trial - free * bs + r')) as E2.
  { destruct (Z.eqb_spec r' 0) as [E3|]; [|done]. by rewrite E3, Z.add_0_r. }
  rewrite E2 in H. set (needed := Z.max _ _) in *. injection H as <-. destruct (Z.leb_spec bs 4096).
  - destruct (RoundUpTo4K_spec needed) as [H4 Hup]. rewrite Z.max_l by lia. split; [lia|done].
  - rewrite Z.max_r by lia. pose proof (Z.div_mod (needed + bs - 1) bs ltac:(lia)). pose proof (Z.mod_pos_bound (needed + bs - 1) bs ltac:(lia)).
    split; [lia|]. by apply Z_mod_mult.
Qed.

(** * Builders that keep their promise *)

(** What [BuildImage] relies on: after a partition size is computed for an image of a
    size, up to a limit, the largest image is at least as large. *)
Class VerityLaws (W B : Type) `{VerityImageBuilder W B} (good : B -> Prop) (limit : Z) : Prop := {
  partition_holds_image : forall b size w p b' w', good b -> 0 < size <= limit ->
    CalculateDynamicPartitionSize size (b, w) = (Ok p, (b', w')) ->
    p mod 4096 = 0 /\ exists m, size <= m /\ forall w2, (CalculateMaxImageSize None (b', w2)).1 = Ok m
}.

Section V2.
Context {W : Type} `{Host W} (b0 : V2Builder) (avb : Z -> result Z) (limit k : Z) (fuel : nat).
Context (avb_answers : forall p (w : W), 0 < p -> (avb_max_image_size b0 p w).1 = avb p).
Context (k_pos : 0 <= k) (avb_reach : forall p n, 2 ^ k <= p -> avb p = Ok n -> limit <= n) (enough : 1040 + k <= Z.of_nat fuel).

(** The builder for Verified Boot 2.0 does. *)
#[export] Instance V2_laws : @VerityLaws W V2Builder (V2_builder fuel) (fun b => same_tool b b0) limit.
Proof.
  constructor. intros b size w p b' w' Hb Hsize Hrun. cbn [CalculateDynamicPartitionSize CalculateMaxImageSize V2_builder] in *.
  unfold V2_CalculateDynamicPartitionSize, CalculateMinPartitionSize in Hrun. apply io_bind_ok in Hrun as (q & [b1 w1] & Hm & Hk).
  injection Hk as -> <- <-.
  destruct (MinPartitionSize_spec (fun p => V2_CalculateMaxImageSize (Some p)) (tool_state b0) (max_image avb) size k fuel) with (s := (b, w)) as [Hs Hr]; try done; try lia.
  - intros q s Hs. destruct (max_image_size_run b0 avb avb_answers q s Hs) as (? & ? & _). done.
  - intros q n. by apply (max_image_pos b0 avb avb_answers w).
  - intros q n Hq. unfold max_image. destruct (0 <? q); [|done]. intros Hn. pose proof (avb_reach q n Hq Hn). lia.
  - rewrite Hm in Hs, Hr. destruct Hr as (Hp & m & Hfm & Hle & _). split; [done|]. exists m. split; [done|]. intros w2.
    rewrite <- Hfm. exact (proj1 (max_image_size_run b0 avb avb_answers p (set_vb_partition_size p b1, w2) Hs)).
Qed.
End V2.

(** * The plan *)

Section plan.
Context {W B : Type} `{Host W} `{VerityImageBuilder W B}.
Variables (in_dir out_file : string) (target_out fs_config : option string).

(** The size of the contents, after du reported [n] bytes of files and left the state
    [s1].  The first image tried has the estimated size, in whole blocks, which has
    room for the files and for the [r] bytes reserved.  An ext image is built with it
    and shrunk by what the tools then say is free in that image; a compressed f2fs
    image gets the size the tools say it has. *)
Definition has_room (fs_type : string) (s1 : bstate W) (r n size : Z) : Prop :=
  exists est, CalculateSizeAndReserved (bs_props s1) n = Ok est /\
  let trial := RoundUpTo4K est in
  (0 <= n < 2 ^ 300 -> n + r <= trial) /\ trial mod 4096 = 0 /\
  if starts_with "ext" fs_type then
    exists fs_dict s2 bs free h, ext_trial in_dir out_file target_out fs_config fs_type trial s1 = (Ok fs_dict, s2) /\
      info_int fs_dict "Block size" "4096" = Ok bs /\ info_int fs_dict "Free blocks" "0" = Ok free /\
      info_int fs_dict "partition_headroom" "0" = Ok h /\ shrunk_to (ext_reserve fs_type r h) trial bs free size /\
      (free * bs <= trial -> Z.min trial (trial - free * bs + r) <= size)
  else if starts_with "f2fs" fs_type && prop_eq (bs_props s1) "f2fs_compress" "true" then
    exists fs_dict s2 blocks log, f2fs_trial in_dir out_file target_out fs_config fs_type trial s1 = (Ok fs_dict, s2) /\
      info_int fs_dict "block_count" "0" = Ok blocks /\ info_int fs_dict "log_blocksize" "12" = Ok log /\
      0 <= log /\ size = blocks * 2 ^ log
  else size = trial.

Lemma host_props {A} (m : io W A) (s s' : bstate W) r : host m s = (r, s') -> bs_props s' = bs_props s.
Proof. unfold host, io_zoom. destruct (m (bs_host s)). by intros [= <- <-]. Qed.

Lemma mkfs_props (s s' : bstate W) r : mkfs in_dir out_file target_out fs_config s = (r, s') -> bs_props s' = bs_props s.
Proof. unfold mkfs, io_bind, props_now. apply host_props. Qed.

Lemma on_builder_ok {A} (b : B) (m : io (B * W) A) (s s' : bstate W) a b' : on_builder b m s = (Ok (a, b'), s') ->
  m (b, bs_host s) = (Ok a, (b', bs_host s')) /\ bs_props s' = bs_props s.
Proof. unfold on_builder. destruct (m (b, bs_host s)) as [[x|e] [b1 w1]]; [|done]. by intros [= -> -> <-]. Qed.

Lemma tree_size_run fs_type (s s' : bstate W) n o : tree_size in_dir out_file target_out fs_config fs_type s = (Ok (n, o), s') ->
  bs_props s' = bs_props s /\ exists path w w', GetDiskUsage path w = (Ok n, w').
Proof.
  unfold tree_size. destruct (starts_with "erofs" fs_type); intros Hrun.
  - step Hrun o1 s1 Hm. step Hrun d s2 Hd. injection Hd as <- <-. step Hrun n1 s3 Hn. injection Hrun as -> _ <-.
    rewrite <- (mkfs_props _ _ _ Hm). destruct (sparse _ _); (split; [by eapply host_props|]); apply io_zoom_ok in Hn as (t & Hn & _); [|eauto].
    step Hn p w1 Hp. step Hn n2 w2 Hn2. step Hn u w3 Hu. injection Hn as -> _. eauto.
  - step Hrun n1 s3 Hn. injection Hrun as -> _ <-. split; [by eapply host_props|]. apply io_zoom_ok in Hn as (t & Hn & _). eauto.
Qed.

Lemma first_pass_props fs_type flag (s s' : bstate W) r : first_pass in_dir out_file target_out fs_config fs_type flag s = (Ok r, s') -> bs_props s' = bs_props s.
Proof.
  unfold first_pass. intros Hrun. step Hrun o s1 Hm. step Hrun d s2 Hd. injection Hd as <- <-. apply host_props in Hrun.
  rewrite Hrun. by eapply mkfs_props.
Qed.

(** The properties the passes leave alone. *)
Definition same_reserved (d d' : image_props) : Prop := d' !! "partition_reserved_size" = d !! "partition_reserved_size".

Lemma set_sizes_props size (s s' : bstate W) u : set_sizes size s = (Ok u, s') -> same_reserved (bs_props s) (bs_props s').
Proof. unfold set_sizes, io_bind, set_prop, same_reserved. intros [= <- <-]. cbn. by rewrite !lookup_insert_ne. Qed.

Lemma ext_trial_props fs_type trial (s s' : bstate W) fs_dict :
  ext_trial in_dir out_file target_out fs_config fs_type trial s = (Ok fs_dict, s') -> same_reserved (bs_props s) (bs_props s').
Proof.
  unfold ext_trial. intros Hrun. step Hrun u s1 H1. apply set_sizes_props in H1. step Hrun d s2 Hd. injection Hd as <- <-.
  step Hrun u2 s3 H2. apply first_pass_props in Hrun. unfold same_reserved in *. rewrite Hrun, <- H1.
  destruct (prop_in _ _); [by injection H2 as _ <-|]. step H2 n s4 Hn. apply host_props in Hn. injection H2 as _ <-. cbn.
  by rewrite lookup_insert_ne, Hn.
Qed.

Lemma ext_pass_run fs_type trial (s s' : bstate W) size r : reserved_of (bs_props s) = Ok r ->
  ext_pass in_dir out_file target_out fs_config fs_type trial s = (Ok size, s') ->
  exists fs_dict s2 bs free h, ext_trial in_dir out_file target_out fs_config fs_type trial s = (Ok fs_dict, s2) /\
    info_int fs_dict "Block size" "4096" = Ok bs /\ info_int fs_dict "Free blocks" "0" = Ok free /\
    info_int fs_dict "partition_headroom" "0" = Ok h /\ shrunk_to (ext_reserve fs_type r h) trial bs free size.
Proof.
  unfold ext_pass. intros Hr Hrun. step Hrun fs_dict s2 H1. pose proof (ext_trial_props _ _ _ _ _ H1) as Hres.
  step Hrun d s3 Hd. injection Hd as <- <-. step Hrun size' s4 H2. apply io_pure_ok in H2 as [H2 ->].
  step Hrun c s5 H3. apply io_pure_ok in H3 as [_ ->]. step Hrun i s6 H4. apply io_pure_ok in H4 as [_ ->].
  step Hrun u1 s7 H5. step Hrun u2 s8 H6. injection Hrun as -> _.
  assert (reserved_of (bs_props s2) = Ok r) as Hr2.
  { rewrite <- Hr. unfold reserved_of, get_int. unfold same_reserved in Hres. by rewrite Hres. }
  destruct (ext_size_shrunk _ _ _ _ _ _ Hr2 H2) as (bs & free & h & ? & ? & ? & ?). exists fs_dict, s2, bs, free, h. done.
Qed.

Lemma f2fs_pass_run fs_type trial (s s' : bstate W) size : f2fs_pass in_dir out_file target_out fs_config fs_type trial s = (Ok size, s') ->
  exists fs_dict s2 blocks log, f2fs_trial in_dir out_file target_out fs_config fs_type trial s = (Ok fs_dict, s2) /\
    info_int fs_dict "block_count" "0" = Ok blocks /\ info_int fs_dict "log_blocksize" "12" = Ok log /\
    0 <= log /\ size = blocks * 2 ^ log.
Proof.
  unfold f2fs_pass. intros Hrun. step Hrun fs_dict s2 H1. step Hrun sz s3 H2. apply io_pure_ok in H2 as [H2 ->].
  step Hrun u s4 H3. injection Hrun as -> _. unfold f2fs_size in H2.
  destruct (info_int fs_dict "block_count" "0") as [blocks|] eqn:E1; [|done]. destruct (info_int fs_dict "log_blocksize" "12") as [log|] eqn:E2; [|done].
  destruct (Z.ltb_spec log 0); [done|]. injection H2 as <-. exists fs_dict, s2, blocks, log. rewrite Z.shiftl_mul_pow2 by done. done.
Qed.

Lemma content_size_room fs_type (s s' : bstate W) size o r : reserved_of (bs_props s) = Ok r -> 0 <= r ->
  content_size in_dir out_file target_out fs_config fs_type s = (Ok (size, o), s') ->
  exists n s1, tree_size in_dir out_file target_out fs_config fs_type s = (Ok (n, o), s1) /\
    (exists path w w', GetDiskUsage path w = (Ok n, w')) /\ has_room fs_type s1 r n size.
Proof.
  unfold content_size. intros Hr Hr0 Hrun. step Hrun [n o'] s1 Ht. pose proof Ht as Ht0. apply tree_size_run in Ht as [Ht Hdu].
  step Hrun d s2 Hd. injection Hd as <- <-. step Hrun est s3 He. apply io_pure_ok in He as [He ->].
  step Hrun size' s4 Hs. injection Hrun as -> -> _. exists n, s1. split; [done|]. split; [done|]. exists est. split; [done|].
  rewrite <- Ht in Hr. destruct (RoundUpTo4K_spec est) as [H4 Hup].
  split; [intros Hn; pose proof (size_and_reserved _ _ _ _ Hn Hr Hr0 He); lia|]. split; [done|].
  destruct (starts_with "ext" fs_type); [|destruct (starts_with "f2fs" fs_type && _)].
  - destruct (ext_pass_run _ _ _ _ _ _ Hr Hs) as (fs_dict & s5 & bs & free & h & H1 & H2 & H3 & H5 & H6).
    exists fs_dict, s5, bs, free, h. split_and!; try done. intros Hf.
    assert (r <= ext_reserve fs_type r h) by (unfold ext_reserve; destruct (starts_with _ _); lia).
    assert (0 <= ext_reserve fs_type r h) as Hr1 by lia. pose proof (shrunk_to_room _ _ _ _ _ Hr1 Hf H6). lia.
  - by apply f2fs_pass_run in Hs.
  - injection Hs as -> _. done.
Qed.
End plan.

(** C23: Where a partition has no size of its own, its size and that of the image are
    planned around the files: the first image tried has the estimated size in whole
    blocks, which holds du's number of bytes and the space reserved; an ext image is
    shrunk by what tune2fs says is free in that first image, the reserve and its
    headroom kept, and never below what is in use and the reserve; a compressed f2fs
    image gets the size that fsck reports for it; others keep the first size.
    Without Verified Boot image and partition get that size, and with it the
    partition is whole blocks and its largest image is at least as large.  A size
    that is given is kept. *)
Theorem image_sizes_planned {W B} `{Host W} `{VerityImageBuilder W B} (good : B -> Prop) (limit : Z) `{!VerityLaws W B good limit}
    in_dir out_file target_out fs_config fs_type builder (s s' : bstate W) builder' o r :
  reserved_of (bs_props s) = Ok r -> 0 <= r ->
  plan_sizes in_dir out_file target_out fs_config fs_type builder s = (Ok (builder', o), s') ->
  if prop_eq (bs_props s) "use_dynamic_partition_size" "true" && negb (prop_in (bs_props s) "partition_size") then
    exists n size s1 o', tree_size in_dir out_file target_out fs_config fs_type s = (Ok (n, o'), s1) /\
      (exists path w w', GetDiskUsage path w = (Ok n, w')) /\ has_room in_dir out_file target_out fs_config fs_type s1 r n size /\
      match builder with
      | None => bs_props s' !! "partition_size" = Some (PText (py_str size)) /\ bs_props s' !! "image_size" = Some (PText (py_str size))
      | Some b => good b -> 0 < size <= limit ->
          exists p m, bs_props s' !! "partition_size" = Some (PText (py_str p)) /\ bs_props s' !! "image_size" = Some (PText (py_str m)) /\
            p mod 4096 = 0 /\ size <= m
      end
  else bs_props s' !! "partition_size" = bs_props s !! "partition_size".
Proof.
  intros Hr Hr0. unfold plan_sizes. intros Hrun. step Hrun d s1 Hd. injection Hd as <- <-. step Hrun [b1 o1] s2 Hdyn.
  step Hrun d s3 Hd. injection Hd as <- <-. step Hrun ps s4 Hps. apply io_pure_ok in Hps as [Hps ->]. step Hrun u s5 H5.
  unfold prop_at in Hps. destruct (bs_props s2 !! "partition_size") as [v|] eqn:Ev; [|done]. injection Hps as ->.
  injection H5 as _ <-.
  assert (bs_props s' !! "partition_size" = Some ps /\
    match b1 with
    | None => bs_props s' !! "image_size" = Some ps
    | Some b => exists m w w', (CalculateMaxImageSize None (b, w)).1 = Ok m /\ (CalculateMaxImageSize None (b, w)).2.2 = w' /\ bs_props s' !! "image_size" = Some (PText (py_str m))
    end) as [Hp Hi].
  { destruct b1 as [b|].
    - step Hrun [m b2] s6 H6. apply on_builder_ok in H6 as [H6 H6p]. cbn in H6, H6p. step Hrun u2 s7 H7. injection H7 as _ <-. injection Hrun as _ _ <-. cbn.
      rewrite H6p, lookup_insert_ne, lookup_insert_ne, lookup_insert_eq by done. split; [done|]. exists m, (bs_host s2), (bs_host s6).
      by rewrite H6.
    - injection Hrun as _ _ <-. cbn. by rewrite lookup_insert_ne, lookup_insert_eq by done. }
  destruct (prop_eq _ _ _ && _); [|injection Hdyn as _ _ ->; by rewrite Hp, Ev].
  unfold dynamic_size in Hdyn. step Hdyn [size o2] s6 Hc. eapply content_size_room in Hc as (n & s0 & Htree & Hdu & Hroom); [|done..].
  exists n, size, s0, o2. split; [done|]. split; [done|]. split; [done|]. step Hdyn [p b2] s7 Hvb. step Hdyn u2 s8 H8. injection H8 as _ <-. injection Hdyn as -> _ <-.
  cbn in Ev. rewrite lookup_insert_eq in Ev. injection Ev as <-.
  destruct builder as [b|].
  - step Hvb [q b3] s9 H9. injection Hvb as -> <- <-. apply on_builder_ok in H9 as [H9 _]. intros Hg Hsz.
    destruct (partition_holds_image _ _ _ _ _ _ Hg Hsz H9) as (Hmod & m & Hle & Hmax).
    destruct Hi as (m' & w & w' & Hm' & _ & Hi). rewrite Hmax in Hm'. injection Hm' as ->. exists p. eauto.
  - injection Hvb as -> <- <-. done.
Qed.

(** A host with du, avbtool and nothing else. *)
Definition du_host : Host unit := {|
  run_process := fun args => io_ret (match args with "du" :: _ => (0, "1024 dir") | _ => footer_tool args end);
  path_exists := fun _ _ => true;
  remove_file := fun _ => io_ret tt;
  rename_file := fun _ _ => io_ret tt;
  make_temp_dir := io_ret "/tmp/dir";
  make_temp_file := fun _ _ => io_ret "/tmp/file";
  remove_tree := fun _ _ => io_ret tt;
  copy_tree := fun _ _ => io_ret tt;
  read_lines := fun _ => io_ret [];
  write_lines := fun _ _ => io_ret tt;
  read_bytes := fun _ => io_ret []
|}.

Definition squash_props : image_props :=
  <["use_dynamic_partition_size" := PText "true"]> (<["fs_type" := PText "squashfs"]> (<["partition_reserved_size" := PText "4096"]> ∅)).

Definition planned_squash :=
  @plan_sizes unit V2Builder du_host (@V2_builder unit du_host 1100) "dir" "out.img" None None "squashfs" (Some system_builder) (mkBState squash_props None tt).

(** A host where tune2fs reports ten free blocks in the trial image. *)
Definition tune2fs_output : string :=
  "Inode count:              100" +:+ String newline "Block size:               4096" +:+ String newline "Free blocks:              10".

Definition ext_host : Host unit := {|
  run_process := fun args => io_ret (match args with "du" :: _ => (0, "1024 dir") | "tune2fs" :: _ => (0, tune2fs_output) | _ => (0, "") end);
  path_exists := fun _ _ => true;
  remove_file := fun _ => io_ret tt;
  rename_file := fun _ _ => io_ret tt;
  make_temp_dir := io_ret "/tmp/dir";
  make_temp_file := fun _ _ => io_ret "/tmp/file";
  remove_tree := fun _ _ => io_ret tt;
  copy_tree := fun _ _ => io_ret tt;
  read_lines := fun _ => io_ret [];
  write_lines := fun _ _ => io_ret tt;
  read_bytes := fun _ => io_ret []
|}.

Definition ext_props : image_props :=
  <["ext_mkuserimg" := PText "mkuserimg_mke2fs"]> (<["mount_point" := PText "system"]>
    (<["use_dynamic_partition_size" := PText "true"]> (<["fs_type" := PText "ext4"]> (<["partition_reserved_size" := PText "4096"]> ∅)))).

Definition planned_ext :=
  @plan_sizes unit V2Builder ext_host (@V2_builder unit ext_host 1100) "dir" "out.img" None None "ext4" None (mkBState ext_props None tt).

(** A squashfs image with Verified Boot; an ext4 image, which is shrunk from 283 to
    274 blocks: ten were free, and the reserve of one is kept. *)
Lemma image_sizes_planned_witness :
  (is_ok planned_squash.1 = true /\ exists p m, bs_props planned_squash.2 !! "partition_size" = Some (PText (py_str p)) /\
    bs_props planned_squash.2 !! "image_size" = Some (PText (py_str m)) /\ p mod 4096 = 0 /\ 1024 * 1024 + 4096 <= m) /\
  is_ok planned_ext.1 = true /\ exists size, bs_props planned_ext.2 !! "image_size" = Some (PText (py_str size)) /\
    283 * 4096 - 10 * 4096 + 4096 <= size.
Proof.
  split.
  - assert (is_ok planned_squash.1 = true) as Hok by (vm_compute; reflexivity). split; [exact Hok|].
    assert (@VerityLaws unit V2Builder (@V2_builder unit du_host 1100) (fun b => same_tool b system_builder) (2 ^ 29)) as Hlaws.
    { apply (@V2_laws unit du_host system_builder footer_max_size (2 ^ 29) 30 1100); [|lia| |lia].
      - intros n w Hn. apply footer_answers; [reflexivity|exact Hn].
      - intros n m. apply footer_reach. vm_compute. discriminate. }
    destruct planned_squash as [[[b' o]|e] s'] eqn:E; [|discriminate Hok].
    pose proof (@image_sizes_planned unit V2Builder du_host (@V2_builder unit du_host 1100) (fun b => same_tool b system_builder) (2 ^ 29) Hlaws
      "dir" "out.img" None None "squashfs" (Some system_builder) (mkBState squash_props None tt) s' b' o 4096) as Ht.
    destruct Ht as (n & size & s1 & o' & Hc & _ & (est & He & _ & _ & Hsize) & Hb); [vm_compute; reflexivity|lia|exact E|].
    apply (f_equal fst) in Hc as Hn. vm_compute in Hn. injection Hn as Hn _.
    apply (f_equal snd) in Hc as Hs1. vm_compute in Hs1. subst n s1. vm_compute in He. injection He as <-.
    vm_compute in Hsize. subst size.
    destruct Hb as (p & m & Hp & Hm & Hmod & Hle); [repeat split|lia|]. exists p, m. repeat split; [exact Hp|exact Hm|exact Hmod|lia].
  - assert (is_ok planned_ext.1 = true) as Hok by (vm_compute; reflexivity). split; [exact Hok|].
    assert (@VerityLaws unit V2Builder (@V2_builder unit ext_host 1100) (fun _ => False) 0) as Hlaws by (constructor; intros ? ? ? ? ? ? []).
    destruct planned_ext as [[[b' o]|e] s'] eqn:E; [|discriminate Hok].
    pose proof (@image_sizes_planned unit V2Builder ext_host (@V2_builder unit ext_host 1100) (fun _ => False) 0 Hlaws
      "dir" "out.img" None None "ext4" None (mkBState ext_props None tt) s' b' o 4096) as Ht.
    destruct Ht as (n & size & s1 & o' & Hc & _ & (est & He & _ & _ & fs_dict & s2 & bs & free & h & Htr & Hbs & Hfree & Hh & _ & Hsize) & Hb & Hi);
      [vm_compute; reflexivity|lia|exact E|].
    exists size. split; [exact Hi|]. apply (f_equal fst) in Hc as Hn. vm_compute in Hn. injection Hn as Hn _.
    apply (f_equal snd) in Hc as Hs1. vm_compute in Hs1. subst n s1. vm_compute in He. injection He as <-.
    apply (f_equal fst) in Htr. vm_compute in Htr. injection Htr as <-. vm_compute in Hbs, Hfree. injection Hbs as <-. injection Hfree as <-.
    etransitivity; [|apply Hsize; vm_compute; discriminate]. vm_compute. discriminate.
Defined.

(** * Two properties that have no effect *)

Lemma Ok_inj {A} (a b : A) : Ok a = Ok b -> a = b.
Proof. by intros [=]. Qed.

(** The headroom of a partition does not enter the size of its ext image: it is looked
    for in the output of tune2fs. *)
Lemma ext_size_ignores_headroom d t fs_dict size v :
  ext_size (<["partition_headroom" := v]> d) t fs_dict size = ext_size d t fs_dict size.
Proof. unfold ext_size, get_int. by rewrite lookup_insert_ne. Qed.

(** The command for f2fs never has the block size of the partition: it is copied under
    another name, and the command reads the generic one. *)
Lemma f2fs_block_size_generic g mount_point d g' v in_dir out_file target_out fs_config c :
  ImagePropFromGlobalDict g mount_point = Ok (d, g') ->
  f2fs_command in_dir out_file target_out fs_config (<["image_size" := v]> d) = Ok c ->
  exists pre, c = pre ++ [PText "-b"; default (PText "4096") (as_str (glob_get g "f2fs_blocksize"))].
Proof.
  intros Hg Hc. unfold f2fs_command in Hc. destruct (prop_at _ "image_size"); [|done]. destruct (prop_at _ "mount_point"); [|done].
  destruct (f2fs_sldc_args _); [|done]. apply Ok_inj in Hc as <-.
  rewrite (lookup_insert_ne d "image_size" "f2fs_blocksize") by done. rewrite (f2fs_blocksize_copied g mount_point d g' Hg).
  rewrite !app_assoc. by eexists.
Qed.
