(* ===== verification/VBMeta.v ===== *)
(** vbmeta images: releasetools/common.py ([BuildVBMeta] and the arguments of avbtool
    for the partitions of a vbmeta image) and build_image.py (the partitions of a
    vbmeta image by its name, the files copied for an image). *)

From S2P Require Export PyColl Verity.

#[local] Open Scope string_scope.
#[local] Open Scope list_scope.
#[local] Open Scope Z_scope.

Definition AVB_PARTITIONS : list string :=
  ["boot"; "init_boot"; "dtbo"; "odm"; "product"; "pvmfw"; "recovery"; "system"; "system_ext"; "vendor"; "vendor_boot";
   "vendor_kernel_boot"; "vendor_dlkm"; "odm_dlkm"; "system_dlkm"].
Definition AVB_VBMETA_PARTITIONS : list string := ["vbmeta_system"; "vbmeta_vendor"].

(** The info dict, of texts. *)
Abbreviation avb_info := (gmap string string).
Definition avb_get (info : avb_info) (key : string) : option string :=
  match info !! key with Some s => if str_true s then Some s else None | None => None end.
Definition info_words (info : avb_info) (key : string) : list string := split_ws (strip (default "" (info !! key))).

(** * Arguments of avbtool *)

Record AvbChainedPartitionArg := mkChained { ch_partition : string; rollback_index_location : Z; pubkey_path : string }.

(** [to_string]. *)
Definition chained_string (c : AvbChainedPartitionArg) : string :=
  ch_partition c +:+ ":" +:+ py_str (rollback_index_location c) +:+ ":" +:+ pubkey_path c.

(** [--include_descriptors_from_image image], or [--chain_partition arg]. *)
Inductive AvbPartitionArg := IncludeImage (image : string) | ChainPartition (arg : AvbChainedPartitionArg).

Definition key_path_of (info : avb_info) (partition : string) : option string := avb_get info ("avb_" +:+ partition +:+ "_key_path").

Section resolve.
(** The locations in use; the loop that looks for one that is not. *)
Fixpoint unused_location (fuel : nat) (used : list Z) (loc : Z) : result Z :=
  match fuel with
  | O => Raise OutOfFuel
  | S fuel => if bool_decide (loc ∈ used) then unused_location fuel used (loc + 1) else Ok loc
  end.

Definition resolve_step (resolve : bool) (st : list Z * list AvbChainedPartitionArg) (c : AvbChainedPartitionArg)
    : result (list Z * list AvbChainedPartitionArg) :=
  let '(used, out) := st in
  let! loc := if resolve then unused_location (S (length used)) used (rollback_index_location c) else Ok (rollback_index_location c) in
  Ok (loc :: used, out ++ [mkChained (ch_partition c) loc (pubkey_path c)]).

Definition resolve_locations (resolve : bool) (l : list AvbChainedPartitionArg) : result (list AvbChainedPartitionArg) :=
  let! (_, out) := foldM (resolve_step resolve) ([], []) l in Ok out.
End resolve.

Definition images_of (l : list AvbPartitionArg) : list string :=
  omap (fun a => match a with IncludeImage i => Some i | ChainPartition _ => None end) l.
Definition chains_of (l : list AvbPartitionArg) : list AvbChainedPartitionArg :=
  omap (fun a => match a with IncludeImage _ => None | ChainPartition c => Some c end) l.

Definition include_args (image : string) : list string := ["--include_descriptors_from_image"; image].
Definition chain_args (c : AvbChainedPartitionArg) : list string := ["--chain_partition"; chained_string c].

(** Partitions in the order of their names. *)
Definition sorted_partitions (d : list (string * string)) : list (string * string) :=
  sort_by (fun a b => String.leb a.1 b.1) d.

Section avb.
Context {W : Type} `{Host W}.
(** [OPTIONS.info_dict], [OPTIONS.search_path] and [OPTIONS.input_tmp]. *)
Variables (info : avb_info) (search_path : option string) (input_tmp : string).

Definition ExtractAvbPublicKey (avbtool key : string) : io W string :=
  let* output := make_temp_file "avb-" ".avbpubkey" in
  let* _ := RunAndCheckOutput [avbtool; "extract_public_key"; "--key"; key; "--output"; output] in
  io_ret output.

Definition GetAvbChainedPartitionArg (partition key : string) : io W AvbChainedPartitionArg :=
  let* key := ResolveAVBSigningPathArgs search_path (Some key) in
  let* avbtool := io_pure (of_option KeyError (info !! "avb_avbtool")) in
  let* pubkey_path := ExtractAvbPublicKey avbtool (default "" key) in
  let* location := io_pure (of_option KeyError (info !! ("avb_" +:+ partition +:+ "_rollback_index_location"))) in
  let* location := io_pure (py_int location) in
  io_ret (mkChained partition location pubkey_path).

(** No argument for the recovery of a device without A/B updates. *)
Definition GetAvbPartitionArg (item : string * string) : io W (option AvbPartitionArg) :=
  let '(partition, image) := item in
  match key_path_of info partition with
  | None => io_ret (Some (IncludeImage image))
  | Some key =>
      if negb (bool_decide (info !! "ab_update" = Some "true")) && String.eqb partition "recovery" then io_ret None
      else let* c := GetAvbChainedPartitionArg partition key in io_ret (Some (ChainPartition c))
  end.

Fixpoint collect_args (l : list (string * string)) : io W (list (option AvbPartitionArg)) :=
  match l with
  | [] => io_ret []
  | item :: l =>
      let* a := GetAvbPartitionArg item in
      let* rest := collect_args l in
      io_ret (a :: rest)
  end.

Definition GetAvbPartitionsArg (partitions : list (string * string)) (resolve : bool) : io W (list string) :=
  let* found := collect_args (sorted_partitions partitions) in
  let valid_args := omap id found in
  let* chained := io_pure (resolve_locations resolve (chains_of valid_args)) in
  io_ret (flat_map include_args (images_of valid_args) ++ flat_map chain_args chained).

(** * The image *)

Definition AppendAVBSigningArgs (partition : string) : io W (list string) :=
  let* key_path := ResolveAVBSigningPathArgs search_path (info !! ("avb_" +:+ partition +:+ "_key_path")) in
  let key := match key_path, info !! ("avb_" +:+ partition +:+ "_algorithm") with
             | Some k, Some a => if str_true k && str_true a then ["--key"; k; "--algorithm"; a] else []
             | _, _ => []
             end in
  let salt := match avb_get info "avb_salt" with
              | Some s => if starts_with "vbmeta" partition then [] else ["--salt"; s]
              | None => []
              end in
  io_ret (key ++ salt).

(** The partitions of the image, which must be known and there. *)
Definition known_partition (partition : string) : bool :=
  let custom := info_words info "avb_custom_images_partition_list" in
  let custom_vbmeta := map (fun p => "vbmeta_" +:+ p) (info_words info "avb_custom_vbmeta_images_partition_list") in
  bool_decide (partition ∈ AVB_PARTITIONS ++ AVB_VBMETA_PARTITIONS ++ custom_vbmeta ++ custom).

Fixpoint needed_images (needed : list string) (l : list (string * string)) : io W (list (string * string)) :=
  match l with
  | [] => io_ret []
  | (partition, path) :: l =>
      if bool_decide (partition ∈ needed) then
        fun w =>
          if negb (known_partition partition) then (Raise AssertionError, w)
          else if negb (path_exists path w) then (Raise AssertionError, w)
          else (let* rest := needed_images needed l in io_ret ((partition, path) :: rest)) w
      else needed_images needed l
  end.

(** An image named in the arguments that is not there is looked for in the target
    files. *)
Definition find_image (image : string) : io W string := fun w =>
  if path_exists image w then (Ok image, w)
  else
    let alt dir_name := path_join (path_join input_tmp dir_name) (path_basename image) in
    match filter (fun dir_name => path_exists (alt dir_name) w = true) ["IMAGES"; "RADIO"; "PREBUILT_IMAGES"] with
    | dir_name :: _ => (Ok (alt dir_name), w)
    | [] => (Raise AssertionError, w)
    end.

(** The argument after each [--include_descriptors_from_image]; the loop goes over a
    copy of the arguments, all but the last, and replaces in the original. *)
Fixpoint find_images (original : list string) (index : nat) (split_args : list string) : io W (list string) :=
  match original with
  | arg :: ((_ :: _) as rest) =>
      if String.eqb arg "--include_descriptors_from_image" then
        let* image := find_image (nth (S index) split_args "") in
        find_images rest (S index) (<[S index := image]> split_args)
      else find_images rest (S index) split_args
  | _ => io_ret split_args
  end.

(** [ResolveAVBSigningPathArgs] of a list: the path of the first signing helper. *)
Fixpoint resolve_helper (split_args : list string) : io W (list string) :=
  match split_args with
  | arg :: ((path :: rest) as rest') =>
      if String.eqb arg "--signing_helper" then let* p := ResolveBinaryPath search_path path in io_ret (arg :: p :: rest)
      else let* r := resolve_helper rest' in io_ret (arg :: r)
  | _ => io_ret split_args
  end.

Definition extra_args (name : string) : io W (list string) :=
  match info !! ("avb_" +:+ name +:+ "_args") with
  | Some args =>
      if str_true (strip args) then
        let* split_args := io_pure (shlex_split args) in
        let* split_args := find_images split_args 0 split_args in
        resolve_helper split_args
      else io_ret []
  | None => io_ret []
  end.

Definition BuildVBMeta (image_path : string) (partitions : list (string * string)) (name : string) (needed_partitions : list string)
    (resolve : bool) : io W unit :=
  let* avbtool := io_pure (of_option KeyError (info !! "avb_avbtool")) in
  let* signing := AppendAVBSigningArgs name in
  let* avb_partitions := needed_images needed_partitions (sorted_partitions partitions) in
  let* args := GetAvbPartitionsArg avb_partitions resolve in
  let* extra := extra_args name in
  let* _ := RunAndCheckOutput ([avbtool; "make_vbmeta_image"; "--output"; image_path] ++ signing ++ args ++ extra) in
  io_ret tt.
End avb.

(** * build_image.py *)

(** [s.rstrip(chars)]: the characters of a set are cut from the end. *)
Fixpoint rstrip_chars (chars s : string) : string :=
  match s with
  | "" => ""
  | String c s' =>
      let t := rstrip_chars chars s' in
      if has_char c chars && String.eqb t "" then "" else String c t
  end.

Definition vbmeta_name (output_path : string) : string := rstrip_chars ".img" (path_basename output_path).

Definition without (l cut : list string) : list string := filter (fun x => x ∉ cut) l.

(** The partitions of a vbmeta image, by its name. *)
Definition vbmeta_partitions (glob_dict : avb_info) (name : string) : list string :=
  let vbmeta_system := strip (default "" (glob_dict !! "avb_vbmeta_system")) in
  let vbmeta_vendor := strip (default "" (glob_dict !! "avb_vbmeta_vendor")) in
  if contains "vbmeta_system" name then split_ws vbmeta_system
  else if contains "vbmeta_vendor" name then split_ws vbmeta_vendor
  else
    let l := AVB_PARTITIONS in
    let l := if str_true vbmeta_system then without l (split_ws vbmeta_system) ++ ["vbmeta_system"] else l in
    if str_true vbmeta_vendor then without l (split_ws vbmeta_vendor) ++ ["vbmeta_vendor"] else l.

(** [BuildVBMeta] of build_image.py: the images of the partitions that are there. *)
Definition BuildVBMetaImage {W} `{Host W} (search_path : option string) (input_tmp in_dir : string) (glob_dict : avb_info) (output_path : string)
    : io W unit := fun w =>
  let name := vbmeta_name output_path in
  let parts := vbmeta_partitions glob_dict name in
  let path part := path_join in_dir (part +:+ ".img") in
  let partitions := fold_left (fun d part => od_set part (path part) d) (filter (fun part => path_exists (path part) w = true) parts) [] in
  BuildVBMeta glob_dict search_path input_tmp output_path partitions name parts false w.
