(* ===== verification/VBMetaProps.v ===== *)
(** The arguments for the partitions of a vbmeta image describe every partition as its
    configuration says, and conflicting rollback index locations are resolved. *)

From S2P Require Export VBMeta.

#[local] Open Scope string_scope.
#[local] Open Scope list_scope.
#[local] Open Scope Z_scope.

(** * Locations *)

(** The loop stops at the least location that is not in use. *)
Lemma unused_location_spec fuel used loc :
  (exists i, 0 <= i < Z.of_nat fuel /\ loc + i ∉ used) ->
  exists i, unused_location fuel used loc = Ok (loc + i) /\ 0 <= i /\ loc + i ∉ used /\ forall j, 0 <= j < i -> loc + j ∈ used.
Proof.
  revert loc. induction fuel as [|fuel IH]; intros loc (i & Hi & Hn); [lia|]. cbn [unused_location]. case_bool_decide as Hloc.
  - destruct (Z.eq_dec i 0) as [->|Hi0]; [by rewrite Z.add_0_r in Hn|].
    destruct (IH (loc + 1)) as (k & -> & Hk & Hkn & Hall); [exists (i - 1); split; [lia|by replace (loc + 1 + (i - 1)) with (loc + i) by lia]|].
    exists (k + 1). replace (loc + (k + 1)) with (loc + 1 + k) by lia. split; [done|]. split; [lia|]. split; [done|].
    intros j Hj. destruct (Z.eq_dec j 0) as [->|Hj0]; [by rewrite Z.add_0_r|].
    replace (loc + j) with (loc + 1 + (j - 1)) by lia. apply Hall. lia.
  - exists 0. rewrite Z.add_0_r. repeat split; [lia|done|intros; lia].
Qed.

(** One more location than there are in use: one of them is free. *)
Lemma some_unused used loc : exists i, 0 <= i < Z.of_nat (S (length used)) /\ loc + i ∉ used.
Proof.
  destruct (decide (Exists (fun x => x ∉ used) (seqZ loc (Z.of_nat (S (length used)))))) as [He|He].
  - apply Exists_exists in He as (x & Hx & Hn). apply elem_of_seqZ in Hx. exists (x - loc). split; [lia|]. by replace (loc + (x - loc)) with x by lia.
  - exfalso. assert (seqZ loc (Z.of_nat (S (length used))) ⊆ used) as Hsub.
    { intros x Hx. destruct (decide (x ∈ used)) as [|Hn]; [done|]. destruct He. apply Exists_exists. eauto. }
    apply (NoDup_submseteq _ _ (NoDup_seqZ _ _)) in Hsub. apply submseteq_length in Hsub. rewrite length_seqZ in Hsub. lia.
Qed.

(** The least location from [loc] on that is not in [used]. *)
Definition least_unused (used : list Z) (loc n : Z) : Prop := loc <= n /\ n ∉ used /\ forall j, loc <= j < n -> j ∈ used.

Lemma unused_location_least used loc : exists n, unused_location (S (length used)) used loc = Ok n /\ least_unused used loc n.
Proof.
  destruct (unused_location_spec (S (length used)) used loc (some_unused used loc)) as (i & -> & Hi & Hn & Hall). exists (loc + i).
  split; [done|]. split; [lia|]. split; [done|]. intros j Hj. replace j with (loc + (j - loc)) by lia. apply Hall. lia.
Qed.

(** The chained partitions after resolution: the same partitions and keys; the location
    is the configured one or, if conflicts are resolved, the least from there on that
    no earlier partition has. *)
Inductive relocated (resolve : bool) : list Z -> list AvbChainedPartitionArg -> list AvbChainedPartitionArg -> Prop :=
| relocated_nil used : relocated resolve used [] []
| relocated_cons used c l n out :
    (if resolve then least_unused used (rollback_index_location c) n else n = rollback_index_location c) ->
    relocated resolve (n :: used) l out ->
    relocated resolve used (c :: l) (mkChained (ch_partition c) n (pubkey_path c) :: out).

Lemma resolve_fold resolve l used out : exists used' l',
  foldM (resolve_step resolve) (used, out) l = Ok (used', out ++ l') /\ relocated resolve used l l'.
Proof.
  revert used out. induction l as [|c l IH]; intros used out; [exists used, []; split; [by rewrite app_nil_r|constructor]|].
  assert (exists n, (if resolve then unused_location (S (length used)) used (rollback_index_location c) else Ok (rollback_index_location c)) = Ok n /\
    if resolve then least_unused used (rollback_index_location c) n else n = rollback_index_location c) as (n & Hn & Hc).
  { destruct resolve; [apply unused_location_least|eauto]. }
  destruct (IH (n :: used) (out ++ [mkChained (ch_partition c) n (pubkey_path c)])) as (used' & l' & Hl & Hr).
  exists used', (mkChained (ch_partition c) n (pubkey_path c) :: l'). split; [|by constructor].
  cbn [foldM]. unfold resolve_step at 1. rewrite Hn, Hl. by rewrite <- app_assoc.
Qed.

Lemma resolve_locations_total resolve l : exists out, resolve_locations resolve l = Ok out /\ relocated resolve [] l out.
Proof. unfold resolve_locations. destruct (resolve_fold resolve l [] []) as (u & l' & -> & Hr). eauto. Qed.

Lemma relocated_nodup used l out : relocated true used l out ->
  NoDup (map rollback_index_location out) /\ forall n, n ∈ map rollback_index_location out -> n ∉ used.
Proof.
  induction 1 as [used|used c l n out (Hle & Hn & _) Hr [IH1 IH2]]; [by split; [constructor|intros n ?%elem_of_nil]|]. cbn [map rollback_index_location]. split.
  - constructor; [|done]. intros Hin. apply IH2 in Hin. apply Hin. left.
  - intros m [->|Hm]%elem_of_cons; [done|]. intros Hu. apply (IH2 m Hm). by right.
Qed.

Lemma relocated_false used l out : relocated false used l out -> out = l.
Proof. induction 1 as [|used c l n out -> Hr IH]; [done|]. rewrite IH. by destruct c. Qed.

(** Nothing changes where there is no conflict. *)
Lemma relocated_no_conflict used l out : relocated true used l out ->
  NoDup (map rollback_index_location l) -> (forall n, n ∈ map rollback_index_location l -> n ∉ used) -> out = l.
Proof.
  induction 1 as [|used c l n out (Hle & Hn & Hall) Hr IH]; [done|]. cbn [map]. intros [Hc Hd]%NoDup_cons Hu.
  assert (n = rollback_index_location c) as ->.
  { destruct (Z.eq_dec n (rollback_index_location c)) as [|Hne]; [done|]. destruct (Hu (rollback_index_location c)); [left|]. apply Hall. lia. }
  rewrite IH; [by destruct c|done|]. intros m Hm [->|Hmu]%elem_of_cons; [done|]. apply (Hu m); [by right|done].
Qed.

(** * The arguments *)

(** What the configuration says of a partition. *)
Definition described (info : avb_info) (item : string * string) (a : option AvbPartitionArg) : Prop :=
  match a with
  | Some (IncludeImage image) => image = item.2 /\ key_path_of info item.1 = None
  | Some (ChainPartition c) =>
      ch_partition c = item.1 /\ key_path_of info item.1 <> None /\
      exists s, info !! ("avb_" +:+ item.1 +:+ "_rollback_index_location") = Some s /\ py_int s = Ok (rollback_index_location c)
  | None => item.1 = "recovery" /\ key_path_of info item.1 <> None /\ info !! "ab_update" <> Some "true"
  end.

Section avb.
Context {W : Type} `{Host W} (info : avb_info) (search_path : option string).

Lemma chained_described partition key (w w' : W) c : GetAvbChainedPartitionArg info search_path partition key w = (Ok c, w') ->
  ch_partition c = partition /\
  exists s, info !! ("avb_" +:+ partition +:+ "_rollback_index_location") = Some s /\ py_int s = Ok (rollback_index_location c).
Proof.
  unfold GetAvbChainedPartitionArg. intros Hrun. apply io_bind_ok in Hrun as (k & w1 & _ & Hrun). apply io_bind_ok in Hrun as (tool & w2 & _ & Hrun).
  apply io_bind_ok in Hrun as (pub & w3 & _ & Hrun). apply io_bind_ok in Hrun as (s & w4 & Hs & Hrun). apply io_bind_ok in Hrun as (n & w5 & Hn & Hrun).
  apply io_pure_ok in Hs as [Hs _], Hn as [Hn _]. injection Hrun as <- _. split; [done|]. exists s. split; [|done].
  destruct (info !! _); [by injection Hs as ->|done].
Qed.

Lemma GetAvbPartitionArg_described item (w w' : W) a : GetAvbPartitionArg info search_path item w = (Ok a, w') -> described info item a.
Proof.
  destruct item as [p image]. unfold GetAvbPartitionArg. destruct (key_path_of info p) as [key|] eqn:Ek; [|by intros [= <- <-]].
  case_bool_decide as Hab; cbn [negb andb]; [|destruct (String.eqb_spec p "recovery") as [->|]; [intros [= <- <-]; cbn; by rewrite Ek|]].
  all: intros Hrun; apply io_bind_ok in Hrun as (c & w1 & Hc & Hrun); injection Hrun as <- <-;
    destruct (chained_described _ _ _ _ _ Hc) as [? ?]; cbn; by rewrite Ek.
Qed.

Lemma collect_args_described l (w w' : W) found : collect_args info search_path l w = (Ok found, w') -> Forall2 (described info) l found.
Proof.
  revert w found. induction l as [|item l IH]; intros w found Hrun; [injection Hrun as <- <-; constructor|]. cbn [collect_args] in Hrun.
  apply io_bind_ok in Hrun as (a & w1 & Ha & Hrun). apply io_bind_ok in Hrun as (rest & w2 & Hr & Hrun). injection Hrun as <- <-.
  constructor; [by eapply GetAvbPartitionArg_described|by eapply IH].
Qed.
End avb.

(** C24: The arguments for a vbmeta image describe every partition once, in the order of
    the names: a partition without a key is included by its image, a partition with a
    key is chained at its configured rollback index location, and only the recovery
    of a device without A/B updates is left out.  If conflicts are to be resolved, the
    chained partitions get different locations, each the least from the configured
    one on that no earlier partition has, and nothing changes where there is no
    conflict; otherwise the locations are as configured. *)
Theorem avb_partitions_described {W} `{Host W} info search_path partitions resolve (w w' : W) args :
  GetAvbPartitionsArg info search_path partitions resolve w = (Ok args, w') ->
  exists found chained,
    Forall2 (described info) (sorted_partitions partitions) found /\
    args = flat_map include_args (images_of (omap id found)) ++ flat_map chain_args chained /\
    relocated resolve [] (chains_of (omap id found)) chained /\
    (if resolve then
       NoDup (map rollback_index_location chained) /\
       (NoDup (map rollback_index_location (chains_of (omap id found))) -> chained = chains_of (omap id found))
     else chained = chains_of (omap id found)).
Proof.
  unfold GetAvbPartitionsArg. intros Hrun. apply io_bind_ok in Hrun as (found & w1 & Hf & Hrun).
  destruct (resolve_locations_total resolve (chains_of (omap id found))) as (chained & Hc & Hr). rewrite Hc in Hrun. injection Hrun as <- <-.
  exists found, chained. split; [by eapply collect_args_described|]. split; [done|]. split; [done|]. destruct resolve.
  - split; [by eapply relocated_nodup|]. intros Hn. eapply relocated_no_conflict; [done..|]. by intros n _ ?%elem_of_nil.
  - by eapply relocated_false.
Qed.

(** A host on which every command succeeds. *)
Definition quiet_host : Host unit := {|
  run_process := fun _ => io_ret (0, "");
  path_exists := fun _ _ => true;
  remove_file := fun _ => io_ret tt;
  rename_file := fun _ _ => io_ret tt;
  make_temp_dir := io_ret "/tmp/dir";
  make_temp_file := fun _ _ => io_ret "/tmp/key";
  remove_tree := fun _ _ => io_ret tt;
  copy_tree := fun _ _ => io_ret tt;
  read_lines := fun _ => io_ret [];
  write_lines := fun _ _ => io_ret tt;
  read_bytes := fun _ => io_ret []
|}.

Definition two_chains : avb_info :=
  <["avb_avbtool" := "avbtool"]> (<["avb_system_key_path" := "k"]> (<["avb_vendor_key_path" := "k"]>
  (<["avb_system_rollback_index_location" := "1"]> (<["avb_vendor_rollback_index_location" := "1"]> ∅)))).

Lemma avb_partitions_described_witness :
  exists args, (@GetAvbPartitionsArg unit quiet_host two_chains None [("vendor", "v.img"); ("system", "s.img"); ("odm", "o.img")] true tt).1 = Ok args /\
    args = ["--include_descriptors_from_image"; "o.img"; "--chain_partition"; "system:1:/tmp/key"; "--chain_partition"; "vendor:2:/tmp/key"] /\
    exists images chained, args = flat_map include_args images ++ flat_map chain_args chained /\ NoDup (map rollback_index_location chained).
Proof.
  destruct (@GetAvbPartitionsArg unit quiet_host two_chains None [("vendor", "v.img"); ("system", "s.img"); ("odm", "o.img")] true tt) as [[args|e] w'] eqn:E;
    [|vm_compute in E; discriminate E].
  exists args. pose proof (@avb_partitions_described unit quiet_host two_chains None _ true tt w' args E) as (found & chained & Hd & Ha & _ & Hn & _).
  split; [reflexivity|]. split; [apply (f_equal fst) in E; vm_compute in E; injection E as <-; reflexivity|]. eauto.
Defined.

(** [rstrip] takes a set of characters: it also takes the last letter of
    "vbmeta_system", so this image gets the partitions of the top-level one. *)
Example vbmeta_system_misnamed :
  vbmeta_name "out/vbmeta_system.img" = "vbmeta_syste" /\
  vbmeta_partitions {["avb_vbmeta_system" := "system product"]} (vbmeta_name "out/vbmeta_system.img") =
    without AVB_PARTITIONS ["system"; "product"] ++ ["vbmeta_system"] /\
  vbmeta_partitions {["avb_vbmeta_system" := "system product"]} "vbmeta_system" = ["system"; "product"].
Proof. by vm_compute. Qed.
