(* ===== verification/SignKeys.v ===== *)
(** The keys the signing of target files works with: common.py's [ReadApkCerts], and
    from sign_target_files_apks.py the keys of APKs and APEXes ([GetApkCerts],
    [ReadApexKeysInfo], [GetApexKeys]), the mapping of keys and the check that every
    package has one. *)

From S2P Require Export PyText PyRegex PartitionProps.

#[local] Open Scope string_scope.
#[local] Open Scope list_scope.
#[local] Open Scope Z_scope.

(** * Target files *)

(** An entry of a zip file; the link flag is in its external attributes. *)
Record ZipEntry := mkZipEntry { filename : string; is_link : bool; entry_data : string }.
Abbreviation tf_zip := (list ZipEntry).

Definition zip_names (z : tf_zip) : list string := map filename z.
(** [getinfo(name)]: the last entry of the name. *)
Definition zip_entry (z : tf_zip) (name : string) : option ZipEntry := list_find (fun e => filename e = name) (rev z) ≫= fun p => Some p.2.
Definition zip_read (z : tf_zip) (name : string) : result string := of_option KeyError (entry_data <$> zip_entry z name).

(** * Options *)

Record SignOptions := mkSignOptions {
  extra_apks : dict;
  extra_apex_payload_keys : dict;
  skip_apks_with_path_prefix : list string;
  key_map : dict;
  replace_ota_keys : bool;
  remove_avb_public_keys : option (list string);
  tag_changes : list string;
  avb_keys : dict;
  avb_algorithms : dict;
  avb_extra_args : dict;
  allow_gsi_debug_sepolicy : bool;
  override_apk_keys : option string;
  override_apex_keys : option string;
  public_key_suffix : string;
  private_key_suffix : string
}.

Definition default_options : SignOptions :=
  mkSignOptions [] [] [] [] false None ["-test-keys"; "-dev-keys"; "+release-keys"] [] [] [] false None None ".x509.pem" ".pk8".

Definition set_key_map (m : dict) (o : SignOptions) : SignOptions :=
  mkSignOptions (extra_apks o) (extra_apex_payload_keys o) (skip_apks_with_path_prefix o) m (replace_ota_keys o)
    (remove_avb_public_keys o) (tag_changes o) (avb_keys o) (avb_algorithms o) (avb_extra_args o) (allow_gsi_debug_sepolicy o)
    (override_apk_keys o) (override_apex_keys o) (public_key_suffix o) (private_key_suffix o).

(** [d.get(k, k)]. *)
Definition mapped (m : dict) (k : string) : string := default k (od_get k m).

Definition SPECIAL_CERT_STRINGS : list string := ["PRESIGNED"; "EXTERNAL"].
Definition special (k : string) : bool := bool_decide (k ∈ SPECIAL_CERT_STRINGS).

(** [s[:-n]]. *)
Definition str_cut_end (n : nat) (s : string) : string :=
  match n with O => "" | _ => String.substring 0 (String.length s - n) s end.

(** The names of two halves of a key differ in their suffixes only. *)
Definition CompareKeys (pubkey pubkey_suffix privkey privkey_suffix : string) : bool :=
  ends_with pubkey_suffix pubkey && ends_with privkey_suffix privkey &&
  String.eqb (str_cut_end (String.length pubkey_suffix) pubkey) (str_cut_end (String.length privkey_suffix) privkey).

(** * Keys of APKs *)

(** A double quote. *)
Definition dquote : string := String "034" "".

(** One attribute after white space, or none: the shortest value in quotes. *)
Definition re_attr (name : string) : pat (option string) :=
  re_opt (let% _ := re_some is_space in let% _ := re_lit (name +:+ "=" +:+ dquote) in
          let% v := re_few re_dot in let% _ := re_lit dquote in re_ret v).
(** A leading field: the longest value in quotes, and white space. *)
Definition re_field (name : string) : pat string :=
  let% _ := re_lit (name +:+ "=" +:+ dquote) in let% v := re_many re_dot in
  let% _ := re_lit dquote in let% _ := re_some is_space in re_ret v.

Record ApkCertsLine := mkApkCertsLine { acl_name : string; acl_cert : string; acl_privkey : string; acl_compressed : option string }.

Definition apkcerts_line : pat ApkCertsLine :=
  let% name := re_field "name" in
  let% cert := re_field "certificate" in
  let% _ := re_lit ("private_key=" +:+ dquote) in
  let% privkey := re_few re_dot in
  let% _ := re_lit dquote in
  let% compressed := re_attr "compressed" in
  let% _ := re_attr "partition" in
  let% _ := re_end in
  re_ret (mkApkCertsLine name cert privkey compressed).

(** The lines of a file that a pattern recognizes. *)
Definition matched_lines {A} (p : pat A) (data : string) : list A :=
  omap (fun line => let line := strip line in if str_true line then re_match p line else None) (split_char newline data).

(** The keys of the payload and the container, and the tool that signs the payload. *)
Record ApexKeys := mkApexKeys { payload_key : string; container_key : string; sign_tool : option string }.
Abbreviation apex_keys_info := (list (string * ApexKeys)).

Section options.
Context (o : SignOptions).

(** The key a line names: its certificate without the suffix. *)
Definition apk_cert (l : ApkCertsLine) : result string :=
  if special (acl_cert l) && negb (str_true (acl_privkey l)) then Ok (acl_cert l)
  else if CompareKeys (acl_cert l) (public_key_suffix o) (acl_privkey l) (private_key_suffix o)
  then Ok (str_cut_end (String.length (public_key_suffix o)) (acl_cert l))
  else Raise ValueError.

Definition installed_files (z : tf_zip) : list string := filter (fun b => str_true b = true) (map path_basename (zip_names z)).

(** The extension of compressed packages, which must be one for all those installed. *)
Definition compressed_step (installed : list string) (ext : option string) (l : ApkCertsLine) : result (option string) :=
  match acl_compressed l with
  | Some this => if str_true this && bool_decide (acl_name l +:+ "." +:+ this ∈ installed) then
      match ext with
      | Some e => if String.eqb this e then Ok ext else Raise ValueError
      | None => Ok (Some this)
      end else Ok ext
  | None => Ok ext
  end.

Definition apkcerts_step (installed : list string) (st : dict * option string) (l : ApkCertsLine) : result (dict * option string) :=
  let! cert := apk_cert l in
  let! ext := compressed_step installed st.2 l in
  Ok (od_set (acl_name l) cert st.1, ext).

Definition ReadApkCerts (z : tf_zip) : result (dict * option string) :=
  let! data := zip_read z "META/apkcerts.txt" in
  let! (certmap, ext) := foldM (apkcerts_step (installed_files z)) ([], None) (matched_lines apkcerts_line data) in
  Ok (certmap, (fun e => "." +:+ e) <$> ext).

(** [remaining_apks.discard(apk)]. *)
Definition discard (x : string) (s : list string) : list string := filter (fun y => y <> x) s.

Definition remap_cert (st : dict * list string) (item : string * string) : dict * list string :=
  let '(certmap, remaining) := st in let '(apk, cert) := item in
  match od_get cert (key_map o) with
  | Some key => (od_set apk key certmap, discard apk remaining)
  | None => if String.eqb cert "PRESIGNED" then (certmap, discard apk remaining) else (certmap, remaining)
  end.

(** The key given on the command line; an empty one stands for PRESIGNED. *)
Definition given_key (key : string) : string := if str_true key then key else "PRESIGNED".

Definition extra_cert (st : dict * list string) (item : string * string) : dict * list string :=
  let '(certmap, remaining) := st in let '(apk, cert) := item in
  (od_set apk (mapped (key_map o) (given_key cert)) certmap, discard apk remaining).

Definition GetApkCerts (certmap : dict) : result dict :=
  let '(certmap, remaining_apks) := match override_apk_keys o with
    | Some key => (map (fun '(apk, _) => (apk, key)) certmap, [])
    | None => (certmap, od_keys certmap)
    end in
  let st := foldl remap_cert (certmap, remaining_apks) certmap in
  let '(certmap, remaining_apks) := foldl extra_cert st (extra_apks o) in
  foldM (fun m apk => od_del apk m) certmap remaining_apks.

(** * Keys of APEXes *)

Record ApexKeysLine := mkApexKeysLine {
  akl_name : string;
  akl_payload_private_key : string;
  akl_container_cert : string;
  akl_container_private_key : string;
  akl_sign_tool : option string
}.

Definition apexkeys_line : pat ApexKeysLine :=
  let% name := re_field "name" in
  let% _ := re_field "public_key" in
  let% payload := re_field "private_key" in
  let% cert := re_field "container_certificate" in
  let% _ := re_lit ("container_private_key=" +:+ dquote) in
  let% privkey := re_few re_dot in
  let% _ := re_lit dquote in
  let% _ := re_attr "partition" in
  let% tool := re_attr "sign_tool" in
  let% _ := re_end in
  re_ret (mkApexKeysLine name payload cert privkey tool).

Definition container_of (l : ApexKeysLine) : result string :=
  if String.eqb (akl_container_cert l) "PRESIGNED" && String.eqb (akl_container_private_key l) "PRESIGNED" then Ok "PRESIGNED"
  else if CompareKeys (akl_container_cert l) (public_key_suffix o) (akl_container_private_key l) (private_key_suffix o)
  then Ok (str_cut_end (String.length (public_key_suffix o)) (akl_container_cert l))
  else Raise ValueError.

Definition apexkeys_step (keys : apex_keys_info) (l : ApexKeysLine) : result apex_keys_info :=
  let! container := container_of l in
  Ok (od_set (akl_name l) (mkApexKeys (akl_payload_private_key l) container (akl_sign_tool l)) keys).

Definition ReadApexKeysInfo (z : tf_zip) : result apex_keys_info :=
  let! data := zip_read z "META/apexkeys.txt" in
  foldM apexkeys_step [] (matched_lines apexkeys_line data).

Definition set_payload (key : string) (k : ApexKeys) : ApexKeys := mkApexKeys key (container_key k) (sign_tool k).
Definition set_container (key : string) (k : ApexKeys) : ApexKeys := mkApexKeys (payload_key k) key (sign_tool k).
(** [for apex in keys_info: keys_info[apex] = f(keys_info[apex])]. *)
Definition for_all_apexes (f : ApexKeys -> ApexKeys) (keys_info : apex_keys_info) : apex_keys_info :=
  map (fun '(apex, k) => (apex, f k)) keys_info.

(** A PRESIGNED container makes the payload PRESIGNED, unless a key was given for it. *)
Definition presign_step (item : string * ApexKeys) : result (string * ApexKeys) :=
  let '(apex, k) := item in
  if negb (String.eqb (container_key k) "PRESIGNED") then Ok item
  else
    assert! match od_get apex (extra_apex_payload_keys o) with Some payload_override => String.eqb payload_override "" | None => true end in
    Ok (apex, mkApexKeys "PRESIGNED" "PRESIGNED" None).

Definition GetApexKeys (keys_info : apex_keys_info) (key_map : dict) : result apex_keys_info :=
  let keys_info := match override_apex_keys o with
    | Some key => for_all_apexes (set_payload key) keys_info | None => keys_info end in
  let keys_info := match override_apk_keys o with
    | Some key => for_all_apexes (set_container (mapped key_map key)) keys_info | None => keys_info end in
  let keys_info := foldl (fun d '(apex, key) => od_update apex (set_payload (given_key key)) d) keys_info (extra_apex_payload_keys o) in
  let keys_info := for_all_apexes (fun k => set_container (mapped key_map (container_key k)) k) keys_info in
  let keys_info := foldl (fun d '(apex, key) => od_update apex (set_container (mapped key_map (given_key key))) d) keys_info (extra_apks o) in
  mapM presign_step keys_info.

(** * Files *)

Definition IsApexFile (filename : string) : bool := ends_with ".apex" filename || ends_with ".capex" filename.

Definition GetApexFilename (filename : string) : string :=
  let name := path_basename filename in
  if ends_with ".capex" name then str_replace ".capex" ".apex" name else name.

(** [(is_apk, is_compressed, should_be_skipped)]. *)
Definition GetApkFileInfo (filename : string) (compressed_extension : option string) (skipped_prefixes : list string)
  : result (bool * bool * bool) :=
  assert! match compressed_extension with None => true | Some ext => starts_with "." ext end in
  let compressed := match compressed_extension with Some ext => str_true ext && ends_with (".apk" +:+ ext) filename | None => false end in
  if negb (ends_with ".apk" filename || compressed) then Ok (false, false, false)
  else Ok (true, compressed, existsb (fun p => starts_with p filename) skipped_prefixes).

(** The name under which the key of an APK is listed. *)
Definition apk_name (filename : string) (compressed_extension : option string) (is_compressed : bool) : string :=
  let name := path_basename filename in
  match compressed_extension with
  | Some ext => if is_compressed then str_cut_end (String.length ext) name else name
  | None => name
  end.

(** The name a file needs a key for, if it does. *)
Definition needed_key (compressed_extension : option string) (f : string) : result (option string) :=
  if IsApexFile f then Ok (Some (GetApexFilename f))
  else
    let! (is_apk, is_compressed, should_be_skipped) := GetApkFileInfo f compressed_extension (skip_apks_with_path_prefix o) in
    if negb is_apk || should_be_skipped then Ok None
    else Ok (Some (apk_name f compressed_extension is_compressed)).

Definition unknown_step (known_keys : list string) (compressed_extension : option string) (unknown_files : list string) (f : string)
  : result (list string) :=
  let! need := needed_key compressed_extension f in
  match need with
  | Some name => Ok (if bool_decide (name ∈ known_keys) then unknown_files else unknown_files ++ [name])
  | None => Ok unknown_files
  end.

Definition invalid_step (apex_keys : apex_keys_info) (invalid_apexes : list string) (f : string) : result (list string) :=
  if negb (IsApexFile f) then Ok invalid_apexes
  else
    let name := GetApexFilename f in
    let! k := of_option KeyError (od_get name apex_keys) in
    Ok (if (special (payload_key k) && negb (special (container_key k))) || (negb (special (payload_key k)) && special (container_key k))
        then invalid_apexes ++ [name] else invalid_apexes).

Definition CheckApkAndApexKeysAvailable (z : tf_zip) (known_keys : list string) (compressed_extension : option string)
    (apex_keys : apex_keys_info) : result unit :=
  let! unknown_files := foldM (unknown_step known_keys compressed_extension) [] (zip_names z) in
  assert! bool_decide (unknown_files = []) in
  if bool_decide (apex_keys = []) then Ok tt
  else
    let! invalid_apexes := foldM (invalid_step apex_keys) [] (zip_names z) in
    assert! bool_decide (invalid_apexes = []) in Ok tt.
End options.

(** * Mapping of keys *)

(** The options -d and -k, in the order of the command line; -k is cut at its first equals sign. *)
Inductive KeyMapping := DefaultMapping (dir : string) | NamedMapping (parts : list string).

Definition default_dev_key : string := "build/make/target/product/security/testkey".

Definition default_mappings (devkeydir d : string) : dict :=
  map (fun '(src, dst) => (devkeydir +:+ "/" +:+ src, d +:+ "/" +:+ dst))
    [("testkey", "releasekey"); ("devkey", "releasekey"); ("media", "media"); ("shared", "shared"); ("platform", "platform");
     ("networkstack", "networkstack"); ("sdk_sandbox", "sdk_sandbox"); ("bluetooth", "bluetooth"); ("gmscompat_lib", "gmscompat_lib");
     ("nfc", "nfc")].

Definition key_mapping_step (dev_certificate : option string) (m : dict) (opt : KeyMapping) : result dict :=
  match opt with
  | DefaultMapping d => Ok (od_merge m (default_mappings (path_dirname (default default_dev_key dev_certificate)) d))
  | NamedMapping [s; d] => Ok (od_set s d m)
  | NamedMapping _ => Raise ValueError
  end.

Definition BuildKeyMap (o : SignOptions) (dev_certificate : option string) (key_mapping_options : list KeyMapping) : result SignOptions :=
  let! m := foldM (key_mapping_step dev_certificate) (key_map o) key_mapping_options in
  Ok (set_key_map m o).

(** * The keys for a run *)

Record SigningKeys := mkSigningKeys { sk_apk_keys : dict; sk_apex_keys : apex_keys_info; sk_compressed_extension : option string }.

(** The steps of [main] that find and check the keys. *)
Definition signing_keys (o : SignOptions) (z : tf_zip) : result SigningKeys :=
  let! (certmap, compressed_extension) := ReadApkCerts o z in
  let! apk_keys := GetApkCerts o certmap in
  let! keys_info := ReadApexKeysInfo o z in
  let! apex_keys := GetApexKeys o keys_info apk_keys in
  let! _ := CheckApkAndApexKeysAvailable o z (od_keys apk_keys ++ od_keys apex_keys) compressed_extension apex_keys in
  Ok (mkSigningKeys apk_keys apex_keys compressed_extension).
