(* ===== verification/SignKeysProps.v ===== *)
(** What the steps that find the keys of packages compute, entry by entry; what the
    keys found for a run are, when a run is refused, and that the mapping of keys does
    not reach the containers of APEXes. *)

From S2P Require Export SignKeys.

#[local] Open Scope string_scope.
#[local] Open Scope list_scope.
#[local] Open Scope Z_scope.

#[local] Arguments od_keys : simpl never.
#[local] Arguments remap_cert : simpl never.
#[local] Arguments od_set : simpl never.

Lemma elem_of_discard x y s : y ∈ discard x s <-> y <> x /\ y ∈ s.
Proof. unfold discard. by rewrite list_elem_of_filter. Qed.
Lemma NoDup_discard x s : NoDup s -> NoDup (discard x s).
Proof. apply NoDup_filter. Qed.

(** * Dictionaries *)

Lemma od_get_map {K V W} `{EqDecision K} (f : V -> W) (k : K) (d : list (K * V)) :
  od_get k (map (fun '(a, v) => (a, f v)) d) = f <$> od_get k d.
Proof. induction d as [|[a v] d IH]; simpl; [done|]. by case_decide. Qed.
Lemma od_keys_map {K V W} (f : V -> W) (d : list (K * V)) : od_keys (map (fun '(a, v) => (a, f v)) d) = od_keys d.
Proof. unfold od_keys. rewrite map_map. apply map_ext. by intros []. Qed.

(** A loop that updates the entries a table names. *)
Lemma od_get_updates {V A} (f : A -> V -> V) (l : list (string * A)) (d : list (string * V)) k :
  NoDup (od_keys l) ->
  od_get k (foldl (fun d '(key, a) => od_update key (f a) d) d l) = match od_get k l with Some a => f a <$> od_get k d | None => od_get k d end.
Proof.
  revert d. induction l as [|[j a] l IH]; intros d Hl; simpl; [done|]. apply NoDup_cons in Hl as [Hj Hl]. rewrite (IH _ Hl), od_get_update.
  case_decide as E; [subst; apply od_get_None in Hj; cbn in Hj; by rewrite Hj|done].
Qed.
Lemma od_keys_updates {V A} (f : A -> V -> V) (l : list (string * A)) (d : list (string * V)) :
  od_keys (foldl (fun d '(key, a) => od_update key (f a) d) d l) = od_keys d.
Proof. revert d. induction l as [|[j a] l IH]; intros d; simpl; [done|]. by rewrite IH, od_keys_update. Qed.

(** Two dictionaries of the same keys that agree everywhere are equal. *)
Lemma od_ext {V} (d e : list (string * V)) : NoDup (od_keys d) -> od_keys d = od_keys e -> (forall k, od_get k d = od_get k e) -> d = e.
Proof.
  revert e. induction d as [|[k v] d IH]; intros [|[j w] e] Hn Hk Hg; [done|done|done|]. injection Hk as <- Hk.
  apply NoDup_cons in Hn as [Hkd Hn]. assert (k ∉ od_keys d) as Hkd' by exact Hkd. assert (od_keys d = od_keys e) as Hk' by exact Hk. f_equal.
  - specialize (Hg k). cbn in Hg. rewrite !decide_True in Hg by done. by injection Hg as ->.
  - apply IH; [done|done|]. intros x. specialize (Hg x). cbn in Hg. case_decide as E; [|done]. subst.
    pose proof Hkd' as Hke. rewrite Hk' in Hke. apply od_get_None in Hkd', Hke. congruence.
Qed.

(** Deleting keys that are there. *)
Lemma del_keys {V} (ks : list string) (m : list (string * V)) :
  NoDup ks -> NoDup (od_keys m) -> (forall k, k ∈ ks -> k ∈ od_keys m) ->
  exists m', foldM (fun m k => od_del k m) m ks = Ok m' /\ NoDup (od_keys m') /\
  forall k, od_get k m' = if decide (k ∈ ks) then None else od_get k m.
Proof.
  revert m. induction ks as [|k ks IH]; intros m Hks Hm Hin.
  - exists m. split; [done|]. split; [done|]. intros k. by case_decide as H; [apply elem_of_nil in H|].
  - apply NoDup_cons in Hks as [Hk Hks]. destruct (od_pop_ok k m) as (v & _ & Hpop); [apply Hin; by left|].
    destruct (od_keys_remove k m Hm) as [Hm' Hkeys]. destruct (IH (od_remove k m)) as (m' & Hf & Hn & Hg); [done|done| |].
    { intros j Hj. apply Hkeys. split; [by intros ->|apply Hin; by right]. }
    exists m'. split; [cbn; unfold od_del; by rewrite Hpop|]. split; [done|]. intros j. rewrite Hg, (od_get_remove k j m Hm).
    repeat case_decide; subst; try done; exfalso; set_solver.
Qed.

(** * Keys of APKs *)

Section apks.
Context (o : SignOptions).

Definition remapped (c : string) : bool := od_mem c (key_map o) || String.eqb c "PRESIGNED".

Lemma remap_fold (l : dict) (m : dict) (rem : list string) :
  NoDup (od_keys l) -> NoDup (od_keys m) -> NoDup rem -> (forall k, k ∈ rem -> k ∈ od_keys m) ->
  let '(m', rem') := foldl (remap_cert o) (m, rem) l in
  NoDup (od_keys m') /\ NoDup rem' /\ (forall k, k ∈ rem' -> k ∈ od_keys m') /\
  (forall k, od_get k m' = match od_get k l with Some c => match od_get c (key_map o) with Some key => Some key | None => od_get k m end | None => od_get k m end) /\
  (forall k, k ∈ rem' <-> k ∈ rem /\ match od_get k l with Some c => remapped c = false | None => True end).
Proof.
  revert m rem. induction l as [|[apk cert] l IH]; intros m rem Hl Hm Hr Hrm; simpl; [naive_solver|].
  apply NoDup_cons in Hl as [Ha Hl]. apply od_get_None in Ha.
  set (st := remap_cert o (m, rem) (apk, cert)) in *.
  assert (NoDup (od_keys st.1) /\ NoDup st.2 /\ (forall k, k ∈ st.2 -> k ∈ od_keys st.1) /\
          (forall k, od_get k st.1 = if decide (k = apk) then match od_get cert (key_map o) with Some key => Some key | None => od_get k m end else od_get k m) /\
          (forall k, k ∈ st.2 <-> k ∈ rem /\ (k = apk -> remapped cert = false))) as (Hm1 & Hr1 & Hrm1 & Hg1 & Hd1).
  { unfold st, remap_cert, remapped, od_mem. destruct (od_get cert (key_map o)) as [key|] eqn:Ek.
    - rewrite bool_decide_true by (by eapply od_get_Some_key). cbn. split; [by apply od_keys_set_NoDup|]. split; [by apply NoDup_discard|].
      split; [intros k [_ ?]%elem_of_discard; rewrite od_keys_set; auto|]. split; [intros k; by rewrite od_get_set|].
      intros k. rewrite elem_of_discard. naive_solver.
    - rewrite bool_decide_false by (by apply od_get_None). cbn. destruct (String.eqb cert "PRESIGNED") eqn:Ep; cbn.
      + split; [done|]. split; [by apply NoDup_discard|]. split; [intros k [_ ?]%elem_of_discard; auto|].
        split; [intros k; by case_decide|]. intros k. rewrite elem_of_discard. naive_solver.
      + split; [done|]. split; [done|]. split; [done|]. split; [intros k; by case_decide|]. naive_solver. }
  destruct st as [m1 rem1]. cbn in *. specialize (IH m1 rem1 Hl Hm1 Hr1 Hrm1). destruct (foldl _ (m1, rem1) l) as [m' rem'].
  destruct IH as (? & ? & ? & Hg & Hd). split; [done|]. split; [done|]. split; [done|]. split; intros k.
  - rewrite Hg, Hg1. case_decide; [subst; by rewrite Ha|done].
  - rewrite Hd, Hd1. case_decide; [subst; rewrite Ha; naive_solver|]. destruct (od_get k l); naive_solver.
Qed.

Lemma extra_fold (l : dict) (m : dict) (rem : list string) :
  NoDup (od_keys l) -> NoDup (od_keys m) -> NoDup rem -> (forall k, k ∈ rem -> k ∈ od_keys m) ->
  let '(m', rem') := foldl (extra_cert o) (m, rem) l in
  NoDup (od_keys m') /\ NoDup rem' /\ (forall k, k ∈ rem' -> k ∈ od_keys m') /\
  (forall k, od_get k m' = match od_get k l with Some key => Some (mapped (key_map o) (given_key key)) | None => od_get k m end) /\
  (forall k, k ∈ rem' <-> k ∈ rem /\ k ∉ od_keys l).
Proof.
  revert m rem. induction l as [|[apk cert] l IH]; intros m rem Hl Hm Hr Hrm; simpl; [set_solver|].
  apply NoDup_cons in Hl as [Ha Hl]. specialize (IH (od_set apk (mapped (key_map o) (given_key cert)) m) (discard apk rem) Hl
    (od_keys_set_NoDup _ _ _ Hm) (NoDup_discard _ _ Hr)). destruct (foldl _ _ l) as [m' rem'].
  destruct IH as (? & ? & ? & Hg & Hd); [intros k [_ ?]%elem_of_discard; rewrite od_keys_set; auto|].
  split; [done|]. split; [done|]. split; [done|]. split; intros k.
  - rewrite Hg, od_get_set. apply od_get_None in Ha. cbn in Ha. case_decide; [subst; by rewrite Ha|done].
  - rewrite Hd, elem_of_discard. unfold od_keys. cbn. rewrite not_elem_of_cons. naive_solver.
Qed.

(** The key an APK is signed with, if any: from the command line, or the certificate
    of the file where it is mapped to a key or stands for no signing. *)
Definition apk_key (certmap : dict) (apk : string) : option string :=
  match od_get apk (extra_apks o) with
  | Some key => Some (mapped (key_map o) (given_key key))
  | None =>
      match od_get apk certmap, override_apk_keys o with
      | None, _ => None
      | Some _, Some key => Some (mapped (key_map o) key)
      | Some cert, None => match od_get cert (key_map o) with
                           | Some key => Some key
                           | None => if String.eqb cert "PRESIGNED" then Some cert else None
                           end
      end
  end.

Lemma GetApkCerts_spec (certmap : dict) : NoDup (od_keys certmap) -> NoDup (od_keys (extra_apks o)) ->
  exists m, GetApkCerts o certmap = Ok m /\ NoDup (od_keys m) /\ forall apk, od_get apk m = apk_key certmap apk.
Proof.
  intros Hc He. unfold GetApkCerts.
  set (st := match override_apk_keys o with Some key => (map (fun '(apk, _) => (apk, key)) certmap, []) | None => (certmap, od_keys certmap) end).
  assert (Hst : od_keys st.1 = od_keys certmap /\ NoDup st.2 /\ forall k, k ∈ st.2 -> k ∈ od_keys st.1).
  { unfold st. destruct (override_apk_keys o) as [key|]; cbn; [|by split; [|split]].
    split; [apply (od_keys_map (fun _ => key))|]. split; [constructor|by intros k ?%elem_of_nil]. }
  assert (Hget : forall k, od_get k st.1 = match override_apk_keys o with Some key => (fun _ => key) <$> od_get k certmap | None => od_get k certmap end).
  { intros k. unfold st. destruct (override_apk_keys o) as [key|]; cbn; [apply (od_get_map (fun _ => key))|done]. }
  assert (Hrem : forall k, k ∈ st.2 <-> override_apk_keys o = None /\ k ∈ od_keys certmap).
  { intros k. unfold st. destruct (override_apk_keys o); cbn; [rewrite elem_of_nil|]; naive_solver. }
  clearbody st. destruct st as [m0 rem0]. cbn in *. destruct Hst as (Hk0 & Hr0 & Hin0).
  pose proof (remap_fold m0 m0 rem0) as H1. rewrite Hk0 in H1 at 1 2. specialize (H1 Hc Hc Hr0 Hin0).
  destruct (foldl (remap_cert o) (m0, rem0) m0) as [m1 rem1]. destruct H1 as (Hn1 & Hr1 & Hin1 & Hg1 & Hd1).
  pose proof (extra_fold (extra_apks o) m1 rem1 He Hn1 Hr1 Hin1) as H2.
  destruct (foldl (extra_cert o) (m1, rem1) (extra_apks o)) as [m2 rem2]. destruct H2 as (Hn2 & Hr2 & Hin2 & Hg2 & Hd2).
  destruct (del_keys rem2 m2 Hr2 Hn2 Hin2) as (m & Hm & Hn & Hg). exists m. split; [done|]. split; [done|].
  intros apk. rewrite Hg. unfold apk_key. destruct (od_get apk (extra_apks o)) as [key|] eqn:Ee.
  - rewrite decide_False; [by rewrite Hg2, Ee|]. intros [_ H]%Hd2. apply od_get_None in H. congruence.
  - assert (apk ∈ rem2 <-> apk ∈ rem1) as Hiff by (rewrite Hd2; apply od_get_None in Ee; naive_solver).
    assert (od_get apk m2 = od_get apk m1) as -> by (by rewrite Hg2, Ee). rewrite Hg1, Hget.
    specialize (Hd1 apk). rewrite Hrem, Hget in Hd1.
    destruct (od_get apk certmap) as [cert|] eqn:Ec, (override_apk_keys o) as [key|]; cbn in *.
    + rewrite decide_False by naive_solver. unfold mapped. by destruct (od_get key (key_map o)).
    + unfold remapped, od_mem in Hd1. apply od_get_Some_key in Ec. destruct (od_get cert (key_map o)) as [key|] eqn:Ek.
      * apply od_get_Some_key in Ek. rewrite bool_decide_true in Hd1 by done. rewrite decide_False by naive_solver. done.
      * apply od_get_None in Ek. rewrite bool_decide_false in Hd1 by done. cbn in Hd1.
        destruct (String.eqb cert "PRESIGNED"); [rewrite decide_False by naive_solver|rewrite decide_True by naive_solver]; done.
    + by rewrite decide_False by naive_solver.
    + apply od_get_None in Ec. by rewrite decide_False by naive_solver.
Qed.
End apks.

(** * Keys of APEXes *)

Lemma od_get_map_key {V W} (f : string -> V -> W) (k : string) (d : list (string * V)) :
  od_get k (map (fun '(a, v) => (a, f a v)) d) = f k <$> od_get k d.
Proof. induction d as [|[a v] d IH]; simpl; [done|]. case_decide; [by subst|done]. Qed.
Lemma od_keys_map_key {V W} (f : string -> V -> W) (d : list (string * V)) : od_keys (map (fun '(a, v) => (a, f a v)) d) = od_keys d.
Proof. unfold od_keys. rewrite map_map. apply map_ext. by intros []. Qed.

Section apexes.
Context (o : SignOptions) (km : dict).

Definition apex_payload (apex : string) (k : ApexKeys) : string :=
  match od_get apex (extra_apex_payload_keys o) with
  | Some key => given_key key
  | None => default (payload_key k) (override_apex_keys o)
  end.
Definition apex_container (apex : string) (k : ApexKeys) : string :=
  match od_get apex (extra_apks o) with
  | Some key => mapped km (given_key key)
  | None => mapped km (match override_apk_keys o with Some key => mapped km key | None => container_key k end)
  end.

(** The keys an APEX is signed with: a PRESIGNED container leaves all of it as it is. *)
Definition apex_final (apex : string) (k : ApexKeys) : ApexKeys :=
  if String.eqb (apex_container apex k) "PRESIGNED" then mkApexKeys "PRESIGNED" "PRESIGNED" None
  else mkApexKeys (apex_payload apex k) (apex_container apex k) (sign_tool k).

(** A key was given for the payload of an APEX with a PRESIGNED container. *)
Definition apex_conflict (apex : string) (k : ApexKeys) : bool :=
  String.eqb (apex_container apex k) "PRESIGNED" &&
  match od_get apex (extra_apex_payload_keys o) with Some key => str_true key | None => false end.

Lemma presign_entry apex k :
  presign_step o (apex, mkApexKeys (apex_payload apex k) (apex_container apex k) (sign_tool k)) =
  if apex_conflict apex k then Raise AssertionError else Ok (apex, apex_final apex k).
Proof.
  unfold presign_step, apex_conflict, apex_final. cbn. destruct (String.eqb (apex_container apex k) "PRESIGNED"); cbn; [|done].
  destruct (od_get apex (extra_apex_payload_keys o)) as [[|c s]|]; done.
Qed.

Lemma presign_entries (info : apex_keys_info) :
  mapM (presign_step o) (map (fun '(apex, k) => (apex, mkApexKeys (apex_payload apex k) (apex_container apex k) (sign_tool k))) info) =
  if existsb (fun '(apex, k) => apex_conflict apex k) info then Raise AssertionError
  else Ok (map (fun '(apex, k) => (apex, apex_final apex k)) info).
Proof.
  induction info as [|[apex k] info IH]; [done|]. cbn [map mapM existsb]. rewrite presign_entry. destruct (apex_conflict apex k); [done|]. cbn.
  rewrite IH. by destruct (existsb _ info).
Qed.

Lemma GetApexKeys_spec (info : apex_keys_info) :
  NoDup (od_keys info) -> NoDup (od_keys (extra_apks o)) -> NoDup (od_keys (extra_apex_payload_keys o)) ->
  GetApexKeys o info km =
  if existsb (fun '(apex, k) => apex_conflict apex k) info then Raise AssertionError
  else Ok (map (fun '(apex, k) => (apex, apex_final apex k)) info).
Proof.
  intros Hi He Hp. rewrite <- presign_entries. unfold GetApexKeys. f_equal.
  apply od_ext.
  - unfold for_all_apexes. rewrite od_keys_updates, od_keys_map, od_keys_updates.
    destruct (override_apk_keys o), (override_apex_keys o); by rewrite ?od_keys_map.
  - unfold for_all_apexes. rewrite od_keys_updates, od_keys_map, od_keys_updates, (od_keys_map_key (fun apex k => _)).
    destruct (override_apk_keys o), (override_apex_keys o); by rewrite ?od_keys_map.
  - intros apex. rewrite (od_get_updates (fun key => set_container (mapped km (given_key key))) _ _ _ He).
    unfold for_all_apexes. rewrite od_get_map, (od_get_updates (fun key => set_payload (given_key key)) _ _ _ Hp), (od_get_map_key (fun apex k => _)).
    unfold apex_payload, apex_container.
    destruct (override_apk_keys o), (override_apex_keys o), (od_get apex (extra_apks o)), (od_get apex (extra_apex_payload_keys o));
      rewrite ?od_get_map; destruct (od_get apex info) as [[]|]; done.
Qed.
End apexes.

(** * The check *)

Section check.
Context (o : SignOptions) (ext : option string).

Lemma unknown_spec (known l acc : list string) :
  foldM (unknown_step o known ext) acc l = Ok [] <->
  acc = [] /\ forall f, f ∈ l -> exists need, needed_key o ext f = Ok need /\ forall name, need = Some name -> name ∈ known.
Proof.
  revert acc. induction l as [|f l IH]; intros acc; cbn; [split; [intros [= ->]; split; [done|by intros f ?%elem_of_nil]|by intros [-> _]]|].
  unfold unknown_step at 1. destruct (needed_key o ext f) as [[name|]|e] eqn:E; cbn.
  - rewrite IH. case_bool_decide as Hn; split.
    + intros [-> H]. split; [done|]. intros g [->|Hg]%elem_of_cons; [|auto]. exists (Some name). split; [done|]. by intros ? [= <-].
    + intros [-> H]. split; [done|]. intros g Hg. apply H. by right.
    + intros [H _]. by destruct acc.
    + intros [-> H]. destruct (H f) as (need & E' & Hk); [by left|]. rewrite E in E'. injection E' as <-. by specialize (Hk name eq_refl).
  - rewrite IH. split; intros [-> H]; (split; [done|]).
    + intros g [->|Hg]%elem_of_cons; [by exists None|auto].
    + intros g Hg. apply H. by right.
  - split; [done|]. intros [_ H]. destruct (H f) as (need & E' & _); [by left|]. congruence.
Qed.

(** Either both keys of an APEX stand for no signing, or none does. *)
Definition keys_agree (k : ApexKeys) : Prop := special (payload_key k) = special (container_key k).

Lemma invalid_spec (apex_keys : apex_keys_info) (l acc : list string) :
  foldM (invalid_step apex_keys) acc l = Ok [] <->
  acc = [] /\ forall f, f ∈ l -> IsApexFile f = true -> exists k, od_get (GetApexFilename f) apex_keys = Some k /\ keys_agree k.
Proof.
  revert acc. induction l as [|f l IH]; intros acc; cbn; [split; [intros [= ->]; split; [done|by intros f ?%elem_of_nil]|by intros [-> _]]|].
  unfold invalid_step at 1. destruct (IsApexFile f) eqn:Ef; cbn.
  - destruct (od_get (GetApexFilename f) apex_keys) as [k|] eqn:E; cbn.
    + rewrite IH. unfold keys_agree.
      destruct (special (payload_key k)) eqn:Ep, (special (container_key k)) eqn:Ec; cbn; split; intros [Ha H]; subst;
        try (by destruct acc); try (destruct (H f) as (k' & Hk' & Hs); [by left|done|]; congruence);
        (split; [done|]); try (intros g Hg; apply H; by right); intros g [->|Hg]%elem_of_cons; auto; intros _; exists k; by rewrite Ep, Ec.
    + split; [done|]. intros [_ H]. destruct (H f) as (k' & Hk' & _); [by left|done|]. congruence.
  - rewrite IH. split; intros [-> H]; (split; [done|]).
    + intros g [->|Hg]%elem_of_cons; [congruence|auto].
    + intros g Hg. apply H. by right.
Qed.

Lemma CheckApkAndApexKeysAvailable_spec (z : tf_zip) (known : list string) (apex_keys : apex_keys_info) :
  CheckApkAndApexKeysAvailable o z known ext apex_keys = Ok tt <->
  (forall f, f ∈ zip_names z -> exists need, needed_key o ext f = Ok need /\ forall name, need = Some name -> name ∈ known) /\
  (apex_keys = [] \/ forall f, f ∈ zip_names z -> IsApexFile f = true -> exists k, od_get (GetApexFilename f) apex_keys = Some k /\ keys_agree k).
Proof.
  unfold CheckApkAndApexKeysAvailable. pose proof (unknown_spec known (zip_names z) []) as Hu.
  destruct (foldM (unknown_step o known ext) [] (zip_names z)) as [u|e]; [|split; [done|]; intros [H _]; exfalso; assert (@Raise (list string) e = Ok []) by (by apply Hu); done].
  case_bool_decide as Eu; cbn; [|split; [done|]; intros [H _]; destruct Eu; assert (@Ok (list string) u = Ok []) as [=] by (by apply Hu); done].
  subst u. case_bool_decide as Ea; [subst; split; [intros _; split; [by apply Hu|by left]|done]|].
  pose proof (invalid_spec apex_keys (zip_names z) []) as Hi.
  destruct (foldM (invalid_step apex_keys) [] (zip_names z)) as [u|e]; [|split; [done|]; intros [_ [H|H]]; [done|exfalso; assert (@Raise (list string) e = Ok []) by (by apply Hi); done]].
  case_bool_decide as Ei; cbn.
  - subst. split; [intros _; split; [by apply Hu|right; by apply Hi]|done].
  - split; [done|]. intros [_ [H|H]]; [done|]. destruct Ei. assert (@Ok (list string) u = Ok []) as [=] by (by apply Hi). done.
Qed.
End check.

(** What is read has one entry per name. *)
Lemma apkcerts_NoDup o inst l st st' : NoDup (od_keys st.1) -> foldM (apkcerts_step o inst) st l = Ok st' -> NoDup (od_keys st'.1).
Proof.
  intros Hn Hf. apply (foldM_ind (fun _ s => NoDup (od_keys s.1)) _ _ _ _ Hf Hn).
  intros pre x post s s' _ Hs. unfold apkcerts_step. destruct (apk_cert o x); cbn; [|done]. destruct (compressed_step inst s.2 x); cbn; [|done].
  intros [= <-]. by apply od_keys_set_NoDup.
Qed.
Lemma apexkeys_NoDup o l st st' : NoDup (od_keys st) -> foldM (apexkeys_step o) st l = Ok st' -> NoDup (od_keys st').
Proof.
  intros Hn Hf. apply (foldM_ind (fun _ s => NoDup (od_keys s)) _ _ _ _ Hf Hn).
  intros pre x post s s' _ Hs. unfold apexkeys_step. destruct (container_of o x); cbn; [|done]. intros [= <-]. by apply od_keys_set_NoDup.
Qed.

Lemma ReadApkCerts_NoDup o z m ext : ReadApkCerts o z = Ok (m, ext) -> NoDup (od_keys m).
Proof.
  unfold ReadApkCerts. destruct (zip_read z _) as [data|]; cbn; [|done]. destruct (foldM _ _ _) as [[m' e]|] eqn:Hf; cbn; [|done].
  intros [= <- _]. apply (apkcerts_NoDup _ _ _ _ (m', e)) in Hf; [done|constructor].
Qed.
Lemma ReadApexKeysInfo_NoDup o z info : ReadApexKeysInfo o z = Ok info -> NoDup (od_keys info).
Proof. unfold ReadApexKeysInfo. destruct (zip_read z _) as [data|]; cbn; [|done]. intros Hf. apply (apexkeys_NoDup _ _ [] _ (NoDup_nil_2) Hf). Qed.

(** Options are dictionaries. *)
Definition sign_options_ok (o : SignOptions) : Prop := NoDup (od_keys (extra_apks o)) /\ NoDup (od_keys (extra_apex_payload_keys o)).

(** Every file that is signed later has a key under its name. *)
Definition files_have_keys (o : SignOptions) (z : tf_zip) (ext : option string) (apk_keys : dict) (apex_keys : apex_keys_info) : Prop :=
  forall f, f ∈ zip_names z ->
  if IsApexFile f
  then if bool_decide (apex_keys = []) then GetApexFilename f ∈ od_keys apk_keys
       else exists k, od_get (GetApexFilename f) apex_keys = Some k /\ keys_agree k
  else exists is_apk is_compressed skipped, GetApkFileInfo f ext (skip_apks_with_path_prefix o) = Ok (is_apk, is_compressed, skipped) /\
       (is_apk = true -> skipped = false ->
        apk_name f ext is_compressed ∈ od_keys apk_keys \/ apk_name f ext is_compressed ∈ od_keys apex_keys).

Lemma check_files o z ext apk_keys apex_keys :
  CheckApkAndApexKeysAvailable o z (od_keys apk_keys ++ od_keys apex_keys) ext apex_keys = Ok tt <->
  files_have_keys o z ext apk_keys apex_keys.
Proof.
  rewrite CheckApkAndApexKeysAvailable_spec. unfold files_have_keys, needed_key. split.
  - intros [Hn Ha] f Hf. specialize (Hn f Hf). destruct (IsApexFile f) eqn:Ef.
    + case_bool_decide as E.
      * subst. destruct Hn as (need & [= <-] & Hk). specialize (Hk _ eq_refl). by rewrite app_nil_r in Hk.
      * destruct Ha as [?|Ha]; [done|]. by apply Ha.
    + destruct Hn as (need & Hi & Hk). destruct (GetApkFileInfo f ext _) as [[[is_apk c] sk]|]; [|done]. exists is_apk, c, sk.
      split; [done|]. intros -> ->. injection Hi as <-. by apply elem_of_app, (Hk _ eq_refl).
  - intros H. split.
    + intros f Hf. specialize (H f Hf). destruct (IsApexFile f) eqn:Ef.
      * eexists. split; [done|]. intros name [= <-]. apply elem_of_app. case_bool_decide; [by left|right].
        destruct H as (k & Hk & _). by eapply od_get_Some_key.
      * destruct H as (is_apk & c & sk & -> & H). destruct is_apk, sk; cbn; eexists; (split; [done|]); try done.
        intros name [= <-]. by apply elem_of_app, H.
    + destruct (decide (apex_keys = [])) as [?|Hne]; [by left|right]. intros f Hf Ef. specialize (H f Hf). rewrite Ef in H.
      by rewrite bool_decide_false in H.
Qed.

(** C26: The keys of a run are those the options and the two lists of certificates give:
    an APK gets the key of the command line, or else the key its certificate is mapped
    to (by name, or all at once by the override), or stays PRESIGNED, and a
    certificate that is neither mapped nor PRESIGNED gives no key, so that no package is
    signed with a test key by omission; an APEX gets its payload and container keys
    with a PRESIGNED container making the payload PRESIGNED.  The run goes on exactly
    when no payload key was given for an APEX with a PRESIGNED container and every APK
    that is not skipped and every APEX has its keys, both or none of an APEX's for
    signing; otherwise it ends with an exception before anything is signed. *)
Theorem signing_keys_decided (o : SignOptions) (z : tf_zip) (certmap : dict) (ext : option string) (info : apex_keys_info) :
  sign_options_ok o -> ReadApkCerts o z = Ok (certmap, ext) -> ReadApexKeysInfo o z = Ok info ->
  exists apk_keys,
    (forall apk, od_get apk apk_keys = apk_key o certmap apk) /\
    let apex_keys := map (fun '(apex, k) => (apex, apex_final o apk_keys apex k)) info in
    (signing_keys o z = Ok (mkSigningKeys apk_keys apex_keys ext) <->
       (forall apex k, (apex, k) ∈ info -> apex_conflict o apk_keys apex k = false) /\ files_have_keys o z ext apk_keys apex_keys) /\
    (forall k, signing_keys o z = Ok k -> k = mkSigningKeys apk_keys apex_keys ext).
Proof.
  intros [He Hp] Hr Hx. destruct (GetApkCerts_spec o certmap) as (apk_keys & Hm & Hn & Hg); [by eapply ReadApkCerts_NoDup|done|].
  exists apk_keys. split; [done|]. cbv zeta. pose proof (ReadApexKeysInfo_NoDup _ _ _ Hx) as Hi.
  unfold signing_keys. rewrite Hr, Hm, Hx, (GetApexKeys_spec _ _ _ Hi He Hp). destruct (existsb _ info) eqn:Ec.
  - split; [|done]. split; [done|]. intros [H _]. apply existsb_exists in Ec as ([apex k] & Hin%list_elem_of_In & Hc).
    by rewrite (H _ _ Hin) in Hc.
  - rewrite <- check_files. set (r := CheckApkAndApexKeysAvailable _ _ _ _ _). split.
    + split.
      * destruct r as [[]|]; [|done]. intros _. split; [|done]. intros apex k Hin. apply not_true_iff_false. intros Hc.
        apply not_true_iff_false in Ec. apply Ec. apply existsb_exists. exists (apex, k). split; [by apply list_elem_of_In|done].
      * by intros [_ ->].
    + intros k. by destruct r as [[]|]; [intros [= <-]|].
Qed.

(** The keys a container may get before they are mapped. *)
Definition container_candidates (o : SignOptions) (info : apex_keys_info) : list string :=
  map (fun '(_, k) => container_key k) info ++ map (fun '(_, key) => given_key key) (extra_apks o) ++
  match override_apk_keys o with Some key => [key] | None => [] end.

Lemma mapped_fresh m k : k ∉ od_keys m -> mapped m k = k.
Proof. intros H. unfold mapped. apply od_get_None in H. by rewrite H. Qed.

Lemma apex_container_plain o km info apex k :
  (apex, k) ∈ info -> (forall key, key ∈ container_candidates o info -> key ∉ od_keys km) ->
  apex_container o km apex k =
  match od_get apex (extra_apks o) with Some key => given_key key | None => default (container_key k) (override_apk_keys o) end.
Proof.
  intros Hin Hc. assert (forall key, key ∈ container_candidates o info -> mapped km key = key) as Hm by (intros key Hk; by apply mapped_fresh, Hc).
  unfold apex_container, container_candidates in *. destruct (od_get apex (extra_apks o)) as [key|] eqn:E.
  - apply Hm. apply elem_of_app. right. apply elem_of_app. left. apply list_elem_of_fmap. exists (apex, key). split; [done|by apply od_get_In].
  - destruct (override_apk_keys o) as [key|]; cbn.
    + assert (mapped km key = key) as Hkey by (apply Hm; set_solver). by rewrite !Hkey.
    + apply Hm, elem_of_app. left. apply list_elem_of_fmap. by exists (apex, k).
Qed.

(** C28: The keys of APEXes are the same whatever the mapping of keys: the run looks
    containers up in the keys of APKs, which are by file name, so that a container
    signed with a test key stays so although the options -d and -k map the key. *)
Theorem apex_keys_ignore_mappings (o : SignOptions) (z : tf_zip) (m : dict) (k k' : SigningKeys) (info : apex_keys_info) :
  sign_options_ok o -> signing_keys o z = Ok k -> signing_keys (set_key_map m o) z = Ok k' -> ReadApexKeysInfo o z = Ok info ->
  (forall key, key ∈ container_candidates o info -> key ∉ od_keys (sk_apk_keys k) /\ key ∉ od_keys (sk_apk_keys k')) ->
  sk_apex_keys k = sk_apex_keys k'.
Proof.
  intros [He Hp] Hk Hk' Hx Hc. unfold signing_keys in Hk, Hk'.
  change (ReadApkCerts (set_key_map m o) z) with (ReadApkCerts o z) in Hk'. change (ReadApexKeysInfo (set_key_map m o) z) with (ReadApexKeysInfo o z) in Hk'.
  destruct (ReadApkCerts o z) as [[certmap ext]|]; [|done]. rewrite Hx in Hk, Hk'.
  destruct (GetApkCerts o certmap) as [m1|]; [|done]. destruct (GetApkCerts (set_key_map m o) certmap) as [m2|]; [|done].
  pose proof (ReadApexKeysInfo_NoDup _ _ _ Hx) as Hi.
  rewrite (GetApexKeys_spec _ _ _ Hi He Hp) in Hk. rewrite (GetApexKeys_spec (set_key_map m o) _ _ Hi He Hp) in Hk'.
  destruct (existsb _ info); [done|]. destruct (existsb _ info); [done|].
  destruct (CheckApkAndApexKeysAvailable _ _ _ _ _) as [[]|]; [|done]. destruct (CheckApkAndApexKeysAvailable _ _ _ _ _) as [[]|]; [|done].
  injection Hk as <-. injection Hk' as <-. cbn in *. apply map_ext_in. intros [apex ak] Hin%list_elem_of_In. f_equal.
  unfold apex_final. rewrite (apex_container_plain (set_key_map m o) m2 info), (apex_container_plain o m1 info);
    [done|done|intros key Hkey; by apply Hc|done|intros key Hkey; by apply Hc].
Qed.

(** * Witnesses *)

Definition sample_apkcerts : string :=
  str_join (String newline "")
    ["name=" +:+ dquote +:+ "Foo.apk" +:+ dquote +:+ " certificate=" +:+ dquote +:+ "sec/testkey.x509.pem" +:+ dquote +:+
       " private_key=" +:+ dquote +:+ "sec/testkey.pk8" +:+ dquote +:+ " compressed=" +:+ dquote +:+ "gz" +:+ dquote;
     "name=" +:+ dquote +:+ "Pre.apk" +:+ dquote +:+ " certificate=" +:+ dquote +:+ "PRESIGNED" +:+ dquote +:+
       " private_key=" +:+ dquote +:+ dquote].
Definition sample_apexkeys : string :=
  "name=" +:+ dquote +:+ "com.a.apex" +:+ dquote +:+ " public_key=" +:+ dquote +:+ "a.pub" +:+ dquote +:+ " private_key=" +:+ dquote +:+
  "a.pem" +:+ dquote +:+ " container_certificate=" +:+ dquote +:+ "sec/testkey.x509.pem" +:+ dquote +:+ " container_private_key=" +:+
  dquote +:+ "sec/testkey.pk8" +:+ dquote.
Definition sample_zip : tf_zip :=
  [mkZipEntry "META/apkcerts.txt" false sample_apkcerts; mkZipEntry "META/apexkeys.txt" false sample_apexkeys;
   mkZipEntry "SYSTEM/app/Foo.apk.gz" false "foo"; mkZipEntry "SYSTEM/apex/com.a.capex" false "a"; mkZipEntry "PRODUCT/app/Pre.apk" false "pre"].

(** The options -d vendor, and one mapping with -k. *)
Definition sample_options (opts : list KeyMapping) : SignOptions :=
  match BuildKeyMap default_options (Some "sec/testkey") opts with Ok o => o | Raise _ => default_options end.

Lemma signing_keys_decided_witness :
  sign_options_ok (sample_options [DefaultMapping "vendor"]) /\ is_ok (signing_keys (sample_options [DefaultMapping "vendor"]) sample_zip) = true /\
  is_ok (signing_keys default_options sample_zip) = false /\
  exists apk_keys, forall apk, od_get apk apk_keys =
    apk_key (sample_options [DefaultMapping "vendor"]) [("Foo.apk", "sec/testkey"); ("Pre.apk", "PRESIGNED")] apk.
Proof.
  split; [split; apply NoDup_nil_2|]. split; [by vm_compute|]. split; [by vm_compute|].
  destruct (signing_keys_decided (sample_options [DefaultMapping "vendor"]) sample_zip [("Foo.apk", "sec/testkey"); ("Pre.apk", "PRESIGNED")]
    (Some ".gz") [("com.a.apex", mkApexKeys "a.pem" "sec/testkey" None)]) as (apk_keys & H & _);
    [split; apply NoDup_nil_2|by vm_compute|by vm_compute|].
  by exists apk_keys.
Defined.

Lemma apex_keys_ignore_mappings_witness :
  let o := sample_options [NamedMapping ["sec/testkey"; "vendor/other"]] in
  let o' := sample_options [DefaultMapping "vendor"] in
  exists k k', signing_keys o sample_zip = Ok k /\ signing_keys o' sample_zip = Ok k' /\ sk_apk_keys k <> sk_apk_keys k' /\
  sk_apex_keys k = sk_apex_keys k' /\ sk_apex_keys k = [("com.a.apex", mkApexKeys "a.pem" "sec/testkey" None)].
Proof.
  cbv zeta. set (o := sample_options _). set (o' := sample_options _).
  eexists (mkSigningKeys [("Foo.apk", "vendor/other"); ("Pre.apk", "PRESIGNED")] _ _), (mkSigningKeys [("Foo.apk", "vendor/releasekey"); ("Pre.apk", "PRESIGNED")] _ _).
  split; [vm_compute; done|]. split; [vm_compute; done|]. split; [done|]. split; [|done].
  apply (apex_keys_ignore_mappings o sample_zip (key_map o') _ _ [("com.a.apex", mkApexKeys "a.pem" "sec/testkey" None)]).
  - split; apply NoDup_nil_2.
  - by vm_compute.
  - by vm_compute.
  - by vm_compute.
  - intros key Hk. assert (key = "sec/testkey") as -> by (by apply list_elem_of_singleton in Hk). split; apply (bool_decide_unpack (_ ∉ _)); by vm_compute.
Defined.
