(* ===== verification/SignText.v ===== *)
(** The texts that the signing of target files rewrites, from
    sign_target_files_apks.py: build tags in property files and in arguments of
    avbtool, keys of Verified Boot in the info dict, misc_info.txt, the keys that verify
    OTA packages, the API levels. *)

From S2P Require Export SignKeys BuildInfo.

#[local] Open Scope string_scope.
#[local] Open Scope list_scope.
#[local] Open Scope Z_scope.

(** * Tags *)

Definition IsBuildPropFile (f : string) : bool :=
  bool_decide (f ∈ ["SYSTEM/etc/prop.default"; "BOOT/RAMDISK/prop.default"; "RECOVERY/RAMDISK/prop.default";
    "VENDOR_BOOT/RAMDISK/default.prop"; "VENDOR_BOOT/RAMDISK/prop.default"; "ROOT/default.prop"; "RECOVERY/RAMDISK/default.prop"]) ||
  ends_with "build.prop" f || ends_with "/default.prop" f || ends_with "/prop.default" f.

Definition tag_change (tags : list string) (ch : string) : result (list string) :=
  match ch with
  | "" => Raise IndexError
  | String c tag =>
      Ok (if Ascii.eqb c "-" then discard tag tags
          else if Ascii.eqb c "+" then (if bool_decide (tag ∈ tags) then tags else tags ++ [tag]) else tags)
  end.

(** The set of the tags, changed, as a sorted list. *)
Definition EditTags (o : SignOptions) (tags : string) : result string :=
  let! tags := foldM tag_change (remove_dups (split_char "," tags)) (tag_changes o) in
  Ok (str_join "," (sort_by String.leb tags)).

(** [pieces[-1] = EditTags(pieces[-1])]. *)
Definition edit_last (o : SignOptions) (pieces : list string) : result (list string) :=
  match last pieces with
  | None => Raise IndexError
  | Some piece => let! piece := EditTags o piece in Ok (removelast pieces ++ [piece])
  end.

(** The kinds of properties that hold tags. *)
Inductive TagKind := FingerprintTags | DescriptionTags | PlainTags | DisplayTags | NoTags.

Definition tag_kind (key : string) : TagKind :=
  if starts_with "ro." key && (ends_with ".build.fingerprint" key || ends_with ".build.thumbprint" key) then FingerprintTags
  else if String.eqb key "ro.bootimage.build.fingerprint" then FingerprintTags
  else if String.eqb key "ro.build.description" then DescriptionTags
  else if starts_with "ro." key && ends_with ".build.tags" key then PlainTags
  else if String.eqb key "ro.build.display.id" then DisplayTags
  else NoTags.

Definition rewrite_value (o : SignOptions) (key value : string) : result string :=
  match tag_kind key with
  | FingerprintTags => let! pieces := edit_last o (split_char "/" value) in Ok (str_join "/" pieces)
  | DescriptionTags =>
      let pieces := split_ws value in
      let! piece := of_option IndexError (last pieces) in
      assert! ends_with "-keys" piece in
      let! pieces := edit_last o pieces in Ok (str_join " " pieces)
  | PlainTags => EditTags o value
  | DisplayTags =>
      let words := split_ws value in
      let words := if (1 <? Z.of_nat (length words)) && match last words with Some w => ends_with "-keys" w | None => false end
                   then removelast words else words in
      Ok (str_join " " words)
  | NoTags => Ok value
  end.

(** The key and the value of a line that is neither empty nor a comment. *)
Definition prop_assignment (line : string) : option (string * string) := significant line ≫= split_once "=".

Definition rewrite_line (o : SignOptions) (line : string) : result string :=
  match prop_assignment line with
  | Some (key, value) => let! value := rewrite_value o key value in Ok (key +:+ "=" +:+ value)
  | None => Ok (strip line)
  end.

Definition RewriteProps (o : SignOptions) (data : string) : result string :=
  let! output := mapM (rewrite_line o) (split_char newline data) in
  Ok (str_join (String newline "") output +:+ String newline "").

(** * Verified Boot *)

Definition AVB_FOOTER_ARGS_BY_PARTITION : dict :=
  [("boot", "avb_boot_add_hash_footer_args"); ("init_boot", "avb_init_boot_add_hash_footer_args");
   ("dtbo", "avb_dtbo_add_hash_footer_args"); ("product", "avb_product_add_hashtree_footer_args");
   ("recovery", "avb_recovery_add_hash_footer_args"); ("system", "avb_system_add_hashtree_footer_args");
   ("system_dlkm", "avb_system_dlkm_add_hashtree_footer_args"); ("system_ext", "avb_system_ext_add_hashtree_footer_args");
   ("system_other", "avb_system_other_add_hashtree_footer_args"); ("odm", "avb_odm_add_hashtree_footer_args");
   ("odm_dlkm", "avb_odm_dlkm_add_hashtree_footer_args"); ("pvmfw", "avb_pvmfw_add_hash_footer_args");
   ("vendor", "avb_vendor_add_hashtree_footer_args"); ("vendor_boot", "avb_vendor_boot_add_hash_footer_args");
   ("vendor_kernel_boot", "avb_vendor_kernel_boot_add_hash_footer_args"); ("vendor_dlkm", "avb_vendor_dlkm_add_hashtree_footer_args");
   ("vbmeta", "avb_vbmeta_args"); ("vbmeta_system", "avb_vbmeta_system_args"); ("vbmeta_vendor", "avb_vbmeta_vendor_args")].

Section options.
Context (o : SignOptions).

Definition footer_args_key (partition : string) : string :=
  default ("avb_" +:+ partition +:+ "_add_hashtree_footer_args") (od_get partition AVB_FOOTER_ARGS_BY_PARTITION).

Definition given (d : dict) (key : string) : option string := od_get key d ≫= fun v => if str_true v then Some v else None.

Definition ReplaceAvbPartitionSigningKey (misc_info : InfoDict) (partition : string) : result InfoDict :=
  match given (avb_keys o) partition with
  | None => Ok misc_info
  | Some key =>
      match given (avb_algorithms o) partition with
      | None => Raise AssertionError
      | Some algorithm =>
          let misc_info := <["avb_" +:+ partition +:+ "_key_path" := IStr key]>
                           (<["avb_" +:+ partition +:+ "_algorithm" := IStr algorithm]> misc_info) in
          match given (avb_extra_args o) partition with
          | None => Ok misc_info
          | Some extra_args =>
              let args_key := footer_args_key partition in
              let! old := match misc_info !! args_key with None => Ok "" | Some (IStr s) => Ok s | Some _ => Raise TypeError end in
              Ok (<[args_key := IStr (old +:+ " " +:+ extra_args)]> misc_info)
          end
      end
  end.

Definition ReplaceAvbSigningKeys (misc_info : InfoDict) : result InfoDict :=
  let! misc_info := foldM ReplaceAvbPartitionSigningKey misc_info (od_keys AVB_FOOTER_ARGS_BY_PARTITION) in
  let! custom := match misc_info !! "avb_custom_images_partition_list" with
    | None => Ok "" | Some (IStr s) => Ok s | Some _ => Raise AttributeError end in
  foldM ReplaceAvbPartitionSigningKey misc_info (split_ws (strip custom)).

(** A word of the arguments, rewritten if it gives the fingerprint of the partition:
    [token.rsplit('/', 1)] must give two parts. *)
Definition rewrite_token (partition : string) (token : string) : result string :=
  if negb (starts_with ("com.android.build." +:+ partition +:+ ".fingerprint") token) then Ok token
  else
    let pieces := split_char "/" token in
    if (length pieces <? 2)%nat then Raise ValueError
    else let! pieces := edit_last o pieces in Ok (str_join "/" pieces).

Definition rewrite_avb_args (misc_info : InfoDict) (item : string * string) : result InfoDict :=
  let '(partition, args_key) := item in
  match misc_info !! args_key with
  | Some (IStr args) =>
      let! tokens := mapM (rewrite_token partition) (split_ws args) in
      if existsb (starts_with ("com.android.build." +:+ partition +:+ ".fingerprint")) (split_ws args)
      then Ok (<[args_key := IStr (str_join " " tokens)]> misc_info) else Ok misc_info
  | Some v => if info_true v then Raise AttributeError else Ok misc_info
  | None => Ok misc_info
  end.

Definition RewriteAvbProps (misc_info : InfoDict) : result InfoDict := foldM rewrite_avb_args misc_info AVB_FOOTER_ARGS_BY_PARTITION.

(** * misc_info.txt *)

(** ['%s' % value], with the text of a value that is neither a text nor a number. *)
Definition format_value (object_text : InfoValue -> string) (v : InfoValue) : string :=
  match v with IStr s => s | IInt n => py_str n | _ => object_text v end.

Definition sorted_info (misc_info : InfoDict) : list (string * InfoValue) :=
  sort_by (fun a b => String.leb a.1 b.1) (map_to_list misc_info).

(** Only the keys of the old file are written back. *)
Definition misc_info_text (object_text : InfoValue -> string) (misc_info : InfoDict) (old : string) : string :=
  let misc_info_old := LoadDictionaryFromLines (split_char newline old) in
  str_join (String newline "")
    (map (fun '(key, v) => key +:+ "=" +:+ format_value object_text v)
       (filter (fun item => item.1 ∈ od_keys misc_info_old) (sorted_info misc_info))).

(** * Keys that verify OTA packages *)

Definition key_file (k : string) : string := mapped (key_map o) k +:+ ".x509.pem".

(** The stem of a key: what precedes the last [.x509.pem], which must end the text. *)
Definition ota_key_stem (k : string) : result string :=
  if ends_with ".x509.pem" k then Ok (str_cut_end (String.length ".x509.pem") k) else Raise ExternalError.

Definition info_keys (misc_info : InfoDict) (key : string) : result (list string) :=
  match misc_info !! key with
  | None => Ok []
  | Some (IStr s) => Ok (map key_file (split_ws s))
  | Some v => if info_true v then Raise AttributeError else Ok []
  end.

(** The keys of otacerts.zip and those that are for recovery only. *)
Record OtaKeys := mkOtaKeys { mapped_keys : list string; extra_ota_keys : list string; extra_recovery_keys : list string }.

Definition ota_keys (is_file : string -> bool) (otakeys_txt : result string) (misc_info : InfoDict) : result (OtaKeys * InfoDict) :=
  let! keylist := match otakeys_txt with Ok s => Ok (split_ws s) | Raise KeyError => Raise ExternalError | Raise e => Raise e end in
  let! extra_ota := info_keys misc_info "extra_ota_keys" in
  if negb (forallb is_file extra_ota) then Raise ExternalError else
  let! extra_recovery := info_keys misc_info "extra_recovery_keys" in
  if negb (forallb is_file extra_recovery) then Raise ExternalError else
  let! stems := mapM ota_key_stem keylist in
  let! (keys, misc_info) := match stems with
    | _ :: _ => Ok (map key_file stems, misc_info)
    | [] =>
        let! devkey := match misc_info !! "default_system_dev_certificate" with
          | None => Ok default_dev_key | Some (IStr s) => Ok s | Some _ => Raise TypeError end in
        let mapped_devkey := mapped (key_map o) devkey in
        Ok ([mapped_devkey +:+ ".x509.pem"],
            if String.eqb mapped_devkey devkey then misc_info else <["default_system_dev_certificate" := IStr mapped_devkey]> misc_info)
    end in
  if negb (forallb is_file keys) then Raise ExternalError
  else Ok (mkOtaKeys keys extra_ota extra_recovery, misc_info).

(** The keys that go into the archive at a path. *)
Definition otacerts_keys (k : OtaKeys) (f : string) : list string :=
  mapped_keys k ++ if starts_with "BOOT/" f || starts_with "RECOVERY/" f || starts_with "VENDOR_BOOT/" f
                   then extra_recovery_keys k else extra_ota_keys k.
End options.

(** * API levels *)

(** The assignments of a property file, keys without the white space around. *)
Definition prop_assignments (data : string) : list (string * string) :=
  omap (fun line => (fun kv => (strip kv.1, kv.2)) <$> prop_assignment line) (split_char newline data).

Definition api_level_step (name : string) (st : option Z * option string) (kv : string * string) : result (option Z * option string) :=
  let '(api_level, text) := st in let '(key, value) := kv in
  if String.eqb key "ro.build.version.sdk" then let! n := py_int (strip value) in Ok (Some n, text)
  else if String.eqb key name then Ok (api_level, Some (strip value))
  else Ok (api_level, text).

(** The API level and another property, which must both be there. *)
Definition api_level_and (name : string) (data : string) : result (Z * string) :=
  let! (api_level, text) := foldM (api_level_step name) (None, None) (prop_assignments data) in
  let! api_level := of_option ValueError api_level in
  let! text := of_option ValueError text in
  Ok (api_level, text).

Definition GetApiLevelAndCodename (z : tf_zip) : result (Z * string) :=
  let! data := zip_read z "SYSTEM/build.prop" in api_level_and "ro.build.version.codename" data.

Definition GetCodenameToApiLevelMap (z : tf_zip) : result (list (string * Z)) :=
  let! data := zip_read z "SYSTEM/build.prop" in
  let! (api_level, codenames) := api_level_and "ro.build.version.all_codenames" data in
  Ok (foldl (fun d codename => let codename := strip codename in if str_true codename then od_set codename api_level d else d)
        [] (split_char "," codenames)).
