(* ===== verification/SignTextProps.v ===== *)
(** What the rewriting of a property file changes: the tags, and nothing else. *)

From S2P Require Export SignText.

#[local] Open Scope string_scope.
#[local] Open Scope list_scope.
#[local] Open Scope Z_scope.

(** * Characters of the parts of a text *)

Section chars.
Context (f : ascii -> bool).
Abbreviation ok := (fun s => str_forallb f s = true).

Lemma lstrip_chars s : ok s -> ok (lstrip s).
Proof. induction s as [|c s IH]; cbn; [done|]. intros H. destruct (is_space c); [|done]. apply andb_true_iff in H as [_ H]. auto. Qed.
Lemma rstrip_chars_ok s : ok s -> ok (rstrip s).
Proof.
  induction s as [|c s IH]; cbn; [done|]. intros [Hc Hs]%andb_true_iff. destruct (_ && _); [done|]. cbn. rewrite Hc. by apply IH.
Qed.
Lemma strip_chars_ok s : ok s -> ok (strip s).
Proof. intros H. by apply rstrip_chars_ok, lstrip_chars. Qed.

Lemma str_drop_chars n s : ok s -> ok (str_drop n s).
Proof. revert s. induction n as [|n IH]; intros [|c s]; cbn; try done. intros [_ H]%andb_true_iff. by apply IH. Qed.

Lemma split_once_chars sep s a b : split_once sep s = Some (a, b) -> ok s -> ok a /\ ok b.
Proof.
  revert a b. induction s as [|c s IH]; intros a b; cbn [split_once].
  - destruct (starts_with sep ""); [|done]. intros [= <- <-] H. split; [done|]. by destruct (String.length sep).
  - destruct (starts_with sep (String c s)); [intros [= <- <-] H; split; [done|by apply str_drop_chars]|].
    destruct (split_once sep s) as [[a' b']|] eqn:E; [|done]. intros [= <- <-] H. cbn in H. apply andb_true_iff in H as [Hc Hs].
    destruct (IH _ _ eq_refl Hs) as [Ha Hb]. split; [|done]. cbn. by rewrite Hc.
Qed.

Lemma split_char_chars c s : ok s -> Forall ok (split_char c s).
Proof.
  induction s as [|d s IH]; cbn; [by repeat constructor|]. intros [Hd Hs]%andb_true_iff. specialize (IH Hs).
  destruct (Ascii.eqb d c); [by constructor|]. destruct (split_char c s) as [|t ts]; [constructor; [|done]; cbn; by rewrite Hd|].
  inversion_clear IH. constructor; [|done]. cbn. by rewrite Hd.
Qed.

Lemma split_ws_chars s : ok s -> Forall ok (split_ws s).
Proof.
  intros H. assert (ok (split_ws_aux s).1 /\ Forall ok (split_ws_aux s).2) as [H1 H2].
  { induction s as [|d s IH]; cbn; [split; [done|constructor]|]. cbn in H. apply andb_true_iff in H as [Hd Hs]. destruct (IH Hs) as [H1 H2].
    destruct (split_ws_aux s) as [t ts]. cbn in *. destruct (is_space d); cbn.
    - split; [done|]. destruct (str_true t); [by constructor|done].
    - by rewrite Hd. }
  unfold split_ws. destruct (split_ws_aux s) as [t ts]. cbn in *. destruct (str_true t); [by constructor|done].
Qed.

Lemma str_join_chars sep l : ok sep -> Forall ok l -> ok (str_join sep l).
Proof.
  intros Hs. induction 1 as [|x l Hx Hl IH]; [done|]. destruct l as [|y l]; [done|].
  change (str_join sep (x :: y :: l)) with (x +:+ sep +:+ str_join sep (y :: l)). rewrite !str_forallb_app, Hx, Hs. exact IH.
Qed.
End chars.

(** Every part between separators is free of the separator. *)
Lemma split_char_free c s : Forall (fun t => has_char c t = false) (split_char c s).
Proof.
  induction s as [|d s IH]; cbn; [by repeat constructor|]. destruct (Ascii.eqb d c) eqn:E; [by constructor|].
  destruct (split_char c s) as [|t ts]; [constructor; [|done]; cbn; by rewrite E|]. inversion_clear IH. constructor; [|done]. cbn. by rewrite E.
Qed.

Definition free (c : ascii) (d : ascii) : bool := negb (Ascii.eqb d c).
Lemma has_char_free c s : has_char c s = false <-> str_forallb (free c) s = true.
Proof. rewrite has_char_forallb, negb_false_iff. done. Qed.

(** * Tags *)

(** Whether the changes leave a tag in the set: the last change that names it decides. *)
Definition tag_kept (changes : list string) (tag : string) (present : bool) : bool :=
  foldl (fun b ch => match ch with
                     | "" => b
                     | String c t => if String.eqb t tag then (if Ascii.eqb c "-" then false else if Ascii.eqb c "+" then true else b) else b
                     end) present changes.

(** The text of the changed set: sorted, each tag once. *)
Definition tags_edited (o : SignOptions) (tags tags' : string) : Prop :=
  exists l, tags' = str_join "," l /\ StronglySorted (fun a b => String.leb a b = true) l /\ NoDup l /\
  forall tag, tag ∈ l <-> tag_kept (tag_changes o) tag (bool_decide (tag ∈ split_char "," tags)) = true.

Lemma tag_change_fold (changes tags : list string) : Forall (fun ch => ch <> "") changes -> NoDup tags ->
  exists l, foldM tag_change tags changes = Ok l /\ NoDup l /\
  forall tag, tag ∈ l <-> tag_kept changes tag (bool_decide (tag ∈ tags)) = true.
Proof.
  intros Hc. revert tags. induction Hc as [|ch changes Hch Hc IH]; intros tags Hn.
  - exists tags. split; [done|]. split; [done|]. intros tag. cbn. by rewrite bool_decide_eq_true.
  - destruct ch as [|c t]; [done|]. cbn [foldM tag_change].
    set (tags1 := if Ascii.eqb c "-" then _ else _).
    assert (NoDup tags1 /\ forall tag, tag ∈ tags1 <-> (if String.eqb t tag then (if Ascii.eqb c "-" then false else if Ascii.eqb c "+" then true
              else bool_decide (tag ∈ tags)) else bool_decide (tag ∈ tags)) = true) as [Hn1 H1].
    { unfold tags1. destruct (Ascii.eqb c "-"); [|destruct (Ascii.eqb c "+")].
      - split; [by apply NoDup_filter|]. intros tag. unfold discard. rewrite list_elem_of_filter.
        destruct (String.eqb_spec t tag); rewrite ?bool_decide_eq_true; naive_solver.
      - case_bool_decide.
        + split; [done|]. intros tag. destruct (String.eqb_spec t tag); rewrite ?bool_decide_eq_true; naive_solver.
        + split; [apply NoDup_app; split; [done|]; split; [by intros x Hx ->%list_elem_of_singleton|apply NoDup_singleton]|].
          intros tag. rewrite elem_of_app, list_elem_of_singleton. destruct (String.eqb_spec t tag); rewrite ?bool_decide_eq_true; naive_solver.
      - split; [done|]. intros tag. destruct (String.eqb t tag); by rewrite bool_decide_eq_true. }
    destruct (IH tags1 Hn1) as (l & Hl & Hnl & Hg). exists l. split; [done|]. split; [done|]. intros tag. rewrite Hg.
    unfold tag_kept. cbn [foldl]. f_equiv. f_equal. apply eq_bool_prop_intro. rewrite bool_decide_spec, H1, <- Is_true_true. done.
Qed.

Lemma EditTags_spec o tags : Forall (fun ch => ch <> "") (tag_changes o) ->
  exists tags', EditTags o tags = Ok tags' /\ tags_edited o tags tags'.
Proof.
  intros Hc. unfold EditTags. destruct (tag_change_fold (tag_changes o) (remove_dups (split_char "," tags)) Hc) as (l & -> & Hn & Hg);
    [apply NoDup_remove_dups|]. eexists. split; [done|]. exists (sort_by String.leb l). split; [done|].
  split; [apply sort_by_sorted; [apply string_leb_total|apply string_leb_trans]|]. split; [by rewrite sort_by_perm|].
  intros tag. rewrite elem_of_sort_by, Hg. f_equiv. f_equal. apply bool_decide_ext. apply elem_of_remove_dups.
Qed.

(** Changed tags have the characters of the tags and of the changes. *)
Lemma tag_kept_false changes tag : tag_kept changes tag false = true -> exists c, String c tag ∈ changes.
Proof.
  unfold tag_kept. assert (forall b, foldl (fun b ch => match ch with
    | "" => b
    | String c t => if String.eqb t tag then (if Ascii.eqb c "-" then false else if Ascii.eqb c "+" then true else b) else b
    end) b changes = true -> b = true \/ exists c, String c tag ∈ changes) as H; [|intros Hk; by destruct (H _ Hk)].
  induction changes as [|ch changes IH]; intros b; cbn; [auto|]. intros Hk. destruct (IH _ Hk) as [Hb|[c Hc]]; [|right; exists c; by right].
  destruct ch as [|c t]; [auto|]. destruct (String.eqb_spec t tag) as [->|]; [right; exists c; by left|auto].
Qed.

Lemma tags_edited_chars f o tags tags' : f ","%char = true ->
  Forall (fun ch => str_forallb f ch = true) (tag_changes o) -> str_forallb f tags = true -> tags_edited o tags tags' -> str_forallb f tags' = true.
Proof.
  intros Hf Hc Ht (l & -> & _ & _ & Hl). apply str_join_chars; [cbn; by rewrite Hf|]. apply Forall_forall. intros tag Htag%Hl.
  case_bool_decide as Hin.
  - by apply (proj1 (Forall_forall _ _) (split_char_chars f "," tags Ht)).
  - destruct (tag_kept_false _ _ Htag) as [c Hch]. apply (proj1 (Forall_forall _ _) Hc) in Hch. cbn in Hch. by apply andb_true_iff in Hch as [_ ?].
Qed.

(** * Values *)

Definition changes_ok (o : SignOptions) : Prop :=
  Forall (fun ch => ch <> "" /\ has_char newline ch = false /\ has_char "/" ch = false) (tag_changes o).

(** What becomes of the value of a property: its tags are changed and the rest is left. *)
Definition value_edited (o : SignOptions) (key v v' : string) : Prop :=
  match tag_kind key with
  | NoTags => v' = v
  | PlainTags => tags_edited o v v'
  | FingerprintTags => exists p t t', split_char "/" v = p ++ [t] /\ split_char "/" v' = p ++ [t'] /\ tags_edited o t t'
  | DescriptionTags => exists p t t', split_ws v = p ++ [t] /\ v' = str_join " " (p ++ [t']) /\ tags_edited o t t'
  | DisplayTags =>
      v' = str_join " " (split_ws v) \/
      exists p t, split_ws v = p ++ [t] /\ p <> [] /\ ends_with "-keys" t = true /\ v' = str_join " " p
  end.

(** A description must end in a word for the keys. *)
Definition value_bad (key v : string) : Prop :=
  tag_kind key = DescriptionTags /\ forall p t, split_ws v = p ++ [t] -> ends_with "-keys" t = false.

Lemma list_snoc {A} (l : list A) : l = [] \/ exists p t, l = p ++ [t].
Proof. destruct l as [|x l _] using rev_ind; eauto. Qed.

Section lines.
Context (o : SignOptions) (Hok : changes_ok o).

Lemma changes_nonempty : Forall (fun ch => ch <> "") (tag_changes o).
Proof. eapply Forall_impl; [exact Hok|]. by intros ? (? & _). Qed.
Lemma changes_free c : c = newline \/ c = "/"%char -> Forall (fun ch => str_forallb (free c) ch = true) (tag_changes o).
Proof. intros Hc. eapply Forall_impl; [exact Hok|]. intros ch (_ & Hn & Hs). apply has_char_free. by destruct Hc as [->| ->]. Qed.

Lemma edit_last_spec p t : exists t', edit_last o (p ++ [t]) = Ok (p ++ [t']) /\ tags_edited o t t'.
Proof.
  unfold edit_last. rewrite last_snoc. destruct (EditTags_spec o t changes_nonempty) as (t' & -> & Ht'). exists t'. split; [|done].
  by rewrite List.removelast_last.
Qed.

Lemma tags_edited_free c t t' : c = newline \/ c = "/"%char -> has_char c t = false -> tags_edited o t t' -> has_char c t' = false.
Proof.
  intros Hc Ht He. apply has_char_free. eapply tags_edited_chars; [|by apply changes_free|by apply has_char_free|exact He].
  by destruct Hc as [->| ->].
Qed.

Lemma rewrite_value_spec key v : has_char newline v = false ->
  match rewrite_value o key v with
  | Ok v' => value_edited o key v v' /\ has_char newline v' = false
  | Raise _ => value_bad key v
  end.
Proof.
  intros Hv. apply has_char_free in Hv. unfold rewrite_value, value_edited, value_bad. destruct (tag_kind key).
  - destruct (list_snoc (split_char "/" v)) as [E|(p & t & E)].
    { exfalso. revert E. clear. destruct v as [|c s]; cbn; [done|]. destruct (Ascii.eqb c "/"); [done|]. by destruct (split_char "/" s). }
    rewrite E. destruct (edit_last_spec p t) as (t' & -> & Ht').
    pose proof (split_char_free "/" v) as Hfree. pose proof (split_char_chars (free newline) "/" v Hv) as Hnl. rewrite E in Hfree, Hnl.
    apply Forall_app in Hfree as [Hp [Ht _]%Forall_cons]. apply Forall_app in Hnl as [Hpn [Htn _]%Forall_cons].
    assert (has_char "/" t' = false) as Ht'f by (eapply tags_edited_free; [by right|done|done]).
    assert (has_char newline t' = false) as Ht'n by (eapply tags_edited_free; [by left|by apply has_char_free|done]).
    split.
    + exists p, t, t'. split; [done|]. split; [|done]. change "/" with (String "/" ""). apply split_char_join; [by destruct p|].
      apply Forall_app. split; [done|]. by repeat constructor.
    + apply has_char_free, str_join_chars; [done|]. apply Forall_app. split; [done|]. repeat constructor. by apply has_char_free.
  - destruct (list_snoc (split_ws v)) as [E|(p & t & E)]; rewrite E.
    { cbn. split; [done|]. intros p t H. by destruct p. }
    rewrite last_snoc. cbn. destruct (ends_with "-keys" t) eqn:Et; cbn.
    + destruct (edit_last_spec p t) as (t' & -> & Ht'). pose proof (split_ws_chars (free newline) v Hv) as Hnl. rewrite E in Hnl.
      apply Forall_app in Hnl as [Hpn [Htn _]%Forall_cons]. split; [by exists p, t, t'|].
      apply has_char_free, str_join_chars; [done|]. apply Forall_app. split; [done|]. repeat constructor.
      apply has_char_free. eapply tags_edited_free; [by left|by apply has_char_free|done].
    + split; [done|]. intros p' t' [_ [= <-]]%app_inj_2; done.
  - destruct (EditTags_spec o v changes_nonempty) as (v' & -> & He). split; [done|].
    eapply tags_edited_free; [by left|by apply has_char_free|done].
  - pose proof (split_ws_chars (free newline) v Hv) as Hnl. set (words := split_ws v) in *. destruct (_ && _) eqn:Eb.
    + apply andb_true_iff in Eb as [Hlen Hl]. apply Z.ltb_lt in Hlen. destruct (list_snoc words) as [E|(p & t & E)]; rewrite E in *; [done|].
      rewrite last_snoc in Hl. rewrite length_app in Hlen. cbn in Hlen. rewrite List.removelast_last. apply Forall_app in Hnl as [Hpn _].
      split; [|by apply has_char_free, str_join_chars]. right. exists p, t. split; [done|]. split; [by intros ->|done].
    + split; [by left|]. by apply has_char_free, str_join_chars.
  - split; [done|]. by apply has_char_free.
Qed.

(** * Lines *)

Definition line_edited (line line' : string) : Prop :=
  match prop_assignment line with
  | Some (key, v) => exists v', line' = key +:+ "=" +:+ v' /\ value_edited o key v v'
  | None => line' = strip line
  end.

Lemma significant_chars f line s : str_forallb f line = true -> significant line = Some s -> str_forallb f s = true.
Proof. unfold significant. intros H. destruct (_ || _); [done|]. intros [= <-]. by apply strip_chars_ok. Qed.

Lemma rewrite_line_spec line : has_char newline line = false ->
  match rewrite_line o line with
  | Ok line' => line_edited line line' /\ has_char newline line' = false
  | Raise _ => exists key v, prop_assignment line = Some (key, v) /\ value_bad key v
  end.
Proof.
  intros Hl. apply has_char_free in Hl. unfold rewrite_line, line_edited. destruct (prop_assignment line) as [[key v]|] eqn:Ea.
  - unfold prop_assignment in Ea. destruct (significant line) as [s|] eqn:Es; [|done]. cbn in Ea. apply significant_chars with (f := free newline) in Es; [|done].
    destruct (split_once_chars (free newline) _ _ _ _ Ea Es) as [Hk Hv]. pose proof (rewrite_value_spec key v (proj2 (has_char_free _ _) Hv)) as H.
    destruct (rewrite_value o key v) as [v'|e]; [|by exists key, v]. destruct H as [He Hn]. split; [by exists v'|].
    rewrite !has_char_app. apply has_char_free in Hk. by rewrite Hk, Hn.
  - split; [done|]. by apply has_char_free, strip_chars_ok.
Qed.
End lines.

(** C27: Rewriting a property file changes tags only: each line of the result comes from the
    line of the input at its place; a line that is not an assignment is kept (without
    the white space around it), an assignment keeps its key, and of its value only the
    tags of the five kinds of properties change, where a tag is in the result exactly
    if the last change that names it adds it, or none names it and it was there; the
    tags are sorted and each is there once.  The rewriting fails only on a
    description that does not end in a word for the keys. *)
Theorem rewrite_props_edits_tags (o : SignOptions) (data : string) : changes_ok o ->
  match RewriteProps o data with
  | Ok out => exists lines', split_char newline out = lines' ++ [""] /\ Forall2 (line_edited o) (split_char newline data) lines'
  | Raise _ => exists line key v, line ∈ split_char newline data /\ prop_assignment line = Some (key, v) /\ value_bad key v
  end.
Proof.
  intros Hok. unfold RewriteProps. pose proof (split_char_free newline data) as Hfree.
  assert (split_char newline data <> []) as Hne by (destruct data as [|c s]; cbn; [done|]; destruct (Ascii.eqb c newline); [done|]; by destruct (split_char newline s)).
  assert (match mapM (rewrite_line o) (split_char newline data) with
          | Ok l' => Forall2 (line_edited o) (split_char newline data) l' /\ Forall (fun t => has_char newline t = false) l'
          | Raise _ => exists line key v, line ∈ split_char newline data /\ prop_assignment line = Some (key, v) /\ value_bad key v end) as H.
  { clear Hne. induction Hfree as [|line lines Hl Hls IH]; [by split|]. cbn [mapM]. pose proof (rewrite_line_spec o Hok line Hl) as Hline.
    destruct (rewrite_line o line) as [line'|]; [|destruct Hline as (key & v & Hx); exists line, key, v; split; [by left|done]].
    destruct Hline as [He Hn]. destruct (mapM _ lines) as [l'|].
    - destruct IH as [IH1 IH2]. by split; constructor.
    - destruct IH as (line2 & key & v & Hin & Hx). exists line2, key, v. split; [by right|done]. }
  destruct (mapM _ _) as [l'|]; [|done]. destruct H as [H2 Hn]. exists l'. split; [|done].
  assert (str_join (String newline "") l' +:+ String newline "" = str_join (String newline "") (l' ++ [""])) as ->.
  { apply Forall2_length in H2. destruct l' as [|x l']; [by destruct (split_char newline data)|]. clear. revert x.
    induction l' as [|y l' IH]; intros x; [done|]. cbn [str_join app]. rewrite !str_app_assoc. cbn [str_join app] in IH. by rewrite IH. }
  apply split_char_join; [by destruct l'|]. apply Forall_app. split; [done|]. by repeat constructor.
Qed.

Lemma rewrite_props_edits_tags_witness :
  let data := str_join (String newline "") ["ro.build.fingerprint=a/b:user/test-keys,dev-keys"; "ro.build.version=1"] in
  changes_ok default_options /\
  (exists lines', split_char newline (str_join (String newline "") ["ro.build.fingerprint=a/b:user/release-keys"; "ro.build.version=1"; ""]) = lines' ++ [""] /\
     Forall2 (line_edited default_options) (split_char newline data) lines') /\
  forall tags tags', tags_edited default_options tags tags' -> exists l, tags' = str_join "," l /\ "release-keys" ∈ l /\ "test-keys" ∉ l /\ "dev-keys" ∉ l.
Proof.
  cbv zeta. assert (changes_ok default_options) as Hok by (by repeat constructor). split; [done|]. split.
  - pose proof (rewrite_props_edits_tags default_options
      (str_join (String newline "") ["ro.build.fingerprint=a/b:user/test-keys,dev-keys"; "ro.build.version=1"]) Hok) as H.
    assert (RewriteProps default_options (str_join (String newline "") ["ro.build.fingerprint=a/b:user/test-keys,dev-keys"; "ro.build.version=1"]) =
            Ok (str_join (String newline "") ["ro.build.fingerprint=a/b:user/release-keys"; "ro.build.version=1"; ""])) as E by (by vm_compute).
    rewrite E in H. exact H.
  - intros tags tags' (l & -> & _ & _ & Hl). exists l. split; [done|]. rewrite !Hl. vm_compute tag_kept. done.
Defined.
