(* ===== verification/SignAvb.v ===== *)
(** sign_target_files_apks.py: the output of [avbtool info_image] as a tree
    ([ParseAvbInfo]), and the footer of a signed image with another key
    ([ReplaceKeyInAvbHashtreeFooter]), whose check compares the old digest with itself. *)

From S2P Require Export HostTools SignText.

#[local] Open Scope string_scope.
#[local] Open Scope list_scope.
#[local] Open Scope Z_scope.

(** * The tree *)

Inductive AvbValue :=
| AText (s : string)
| ADict (d : list (string * AvbValue))
| AList (l : list AvbValue).

(** The groups of [line_matcher]: white space, key, value. *)
Definition line_matcher : pat (string * string * string) :=
  let% indent := re_many is_space in
  let% key := re_some (re_not ":") in
  let% _ := re_lit ":" in
  let% _ := re_many is_space in
  let% value := re_many re_dot in
  let% _ := re_end in
  re_ret (indent, key, value).

Definition prop_matcher : pat (string * string) :=
  let% key := re_some re_dot in
  let% _ := re_one is_space in
  let% _ := re_lit "->" in
  let% _ := re_one is_space in
  let% _ := re_lit "'" in
  let% value := re_some re_dot in
  let% _ := re_lit "'" in
  re_ret (key, value).

(** A container under construction: its indentation, what it holds so far, and the key
    under which it goes into the container below.  The stack is never empty: the
    indentation of the outermost one is -1. *)
Record AvbFrame := mkFrame { fr_indent : Z; fr_value : AvbValue; fr_key : string }.

(** [cur_info[key] = value] and [cur_info.append({key: value})]. *)
Definition set_item (cur_info : AvbValue) (key : string) (v : AvbValue) : result AvbValue :=
  match cur_info with ADict d => Ok (ADict (od_set key v d)) | AList _ | AText _ => Raise TypeError end.
Definition append_item (cur_info : AvbValue) (key : string) (v : AvbValue) : result AvbValue :=
  match cur_info with AList l => Ok (AList (l ++ [ADict [(key, v)]])) | ADict _ | AText _ => Raise AttributeError end.

(** A container is put into the one below when it leaves the stack; lists go under keys
    of dictionaries, dictionaries into lists, as [open_frame] has checked. *)
Definition attach (parent : AvbValue) (f : AvbFrame) : AvbValue :=
  match fr_value f, parent with
  | AList _, ADict d => ADict (od_set (fr_key f) (fr_value f) d)
  | ADict _, AList l => AList (l ++ [ADict [(fr_key f, fr_value f)]])
  | _, _ => parent
  end.

Fixpoint pop_frames (indent : Z) (top : AvbFrame) (below : list AvbFrame) : AvbFrame * list AvbFrame :=
  match below with
  | parent :: below' =>
      if indent <=? fr_indent top then pop_frames indent (mkFrame (fr_indent parent) (attach (fr_value parent) top) (fr_key parent)) below'
      else (top, below)
  | [] => (top, [])
  end.

Definition set_value (f : AvbFrame) (v : AvbValue) : AvbFrame := mkFrame (fr_indent f) v (fr_key f).

(** The container a line without a value opens, where it can go. *)
Definition open_frame (top : AvbFrame) (indent : Z) (key : string) : result AvbFrame :=
  if String.eqb key "Descriptors"
  then let! _ := set_item (fr_value top) key (AList []) in Ok (mkFrame indent (AList []) key)
  else let! _ := append_item (fr_value top) key (ADict []) in Ok (mkFrame indent (ADict []) key).

Definition avb_line_step (st : AvbFrame * list AvbFrame) (line : string) : result (AvbFrame * list AvbFrame) :=
  match re_match line_matcher line with
  | None => Ok st
  | Some (spaces, key, value) =>
      let indent := str_len spaces in
      let key := strip key in
      let value := strip value in
      let '(top, below) := pop_frames indent st.1 st.2 in
      if String.eqb value "" then let! f := open_frame top indent key in Ok (f, top :: below)
      else if String.eqb key "Prop" then
        match re_match prop_matcher value with
        | None => Raise ValueError
        | Some (k, v) => let! cur_info := append_item (fr_value top) key (ADict [(k, AText v)]) in Ok (set_value top cur_info, below)
        end
      else let! cur_info := set_item (fr_value top) key (AText value) in Ok (set_value top cur_info, below)
  end.

Definition ParseAvbInfo (info_raw : string) : result AvbValue :=
  let! (top, below) := foldM avb_line_step (mkFrame (-1) (ADict []) "", []) (split_char newline info_raw) in
  Ok (fr_value (pop_frames (-1) top below).1).

(** * Replacing the key of a footer *)

Definition avb_get_item (v : AvbValue) (key : string) : result (option AvbValue) :=
  match v with ADict d => Ok (od_get key d) | _ => Raise AttributeError end.

(** [==]: dictionaries are equal whatever the order. *)
Fixpoint avb_eqb (a b : AvbValue) : bool :=
  match a, b with
  | AText s, AText t => String.eqb s t
  | ADict d, ADict e =>
      Nat.eqb (length d) (length e) && forallb (fun '(k, v) => match od_get k e with Some w => avb_eqb v w | None => false end) d
  | AList l, AList m =>
      (fix go l m := match l, m with [], [] => true | v :: l, w :: m => avb_eqb v w && go l m | _, _ => false end) l m
  | _, _ => false
  end.
Definition opt_avb_eqb (a b : option AvbValue) : bool :=
  match a, b with Some v, Some w => avb_eqb v w | None, None => true | _, _ => false end.

(** The values of a key in the dictionaries of a list. *)
Definition items_of (key : string) (l : list AvbValue) : list AvbValue :=
  omap (fun x => match x with ADict d => od_get key d | _ => None end) l.

(** The list the descriptors are filtered from; the filter keeps no character of a text. *)
Definition descriptors (info : AvbValue) : result (list AvbValue) :=
  let! o := avb_get_item info "Descriptors" in
  match o with Some (AList l) => Ok l | Some (AText _) => Ok [] | _ => Raise TypeError end.

Definition GetAvbHashtreeDescriptor (info : AvbValue) : result AvbValue :=
  let! l := descriptors info in
  match items_of "Hashtree descriptor" l with [d] => Ok d | _ => Raise ValueError end.

(** An argument of a command must be a text. *)
Definition text_arg (v : result (option AvbValue)) : result string :=
  let! o := v in match o with Some (AText s) => Ok s | _ => Raise TypeError end.

Definition remove_suffix (suffix s : string) : string :=
  if ends_with suffix s then String.substring 0 (String.length s - String.length suffix) s else s.

Definition prop_args (v : AvbValue) : result (list string) :=
  match v with
  | ADict [(k, AText t)] => Ok ["--prop"; k +:+ ":" +:+ t]
  | ADict [_] => Raise TypeError
  | ADict _ => Raise ValueError
  | _ => Raise AttributeError
  end.

(** The command, from what [info_image] says of the image. *)
Definition footer_command (avbtool image : string) (new_key new_algorithm : option string) (info hashtree : AvbValue) : result (list string) :=
  let! image_size := avb_get_item info "Image size" in
  let! image_size := match image_size with Some (AText s) => Ok s | _ => Raise AttributeError end in
  let! l := descriptors info in
  let! props := mapM prop_args (items_of "Prop" l) in
  let! new_key := of_option TypeError new_key in
  let! new_algorithm := of_option TypeError new_algorithm in
  let! partition := text_arg (avb_get_item hashtree "Partition Name") in
  let! hash_algorithm := text_arg (avb_get_item hashtree "Hash Algorithm") in
  let! salt := text_arg (avb_get_item hashtree "Salt") in
  Ok ([avbtool; "add_hashtree_footer"; "--key"; new_key; "--algorithm"; new_algorithm; "--partition_name"; partition;
       "--partition_size"; remove_suffix " bytes" image_size; "--hash_algorithm"; hash_algorithm; "--salt"; salt;
       "--do_not_generate_fec"; "--image"; image] ++ concat props).

Definition GetAvbInfo {W} `{Host W} (avbtool image : string) : io W AvbValue :=
  let* info_raw := RunAndCheckOutput [avbtool; "info_image"; "--image"; image] in
  io_pure (ParseAvbInfo info_raw).

(** The descriptor said to be the new one is looked up in the old info, as the code does. *)
Definition ReplaceKeyInAvbHashtreeFooter {W} `{Host W} (image : string) (new_key new_algorithm : option string) (misc_info : InfoDict) : io W unit :=
  let* avbtool := io_pure (let! o := info_text misc_info "avb_avbtool" in of_option KeyError o) in
  let* info := GetAvbInfo avbtool image in
  let* hashtree_descriptor := io_pure (GetAvbHashtreeDescriptor info) in
  let* cmd := io_pure (footer_command avbtool image new_key new_algorithm info hashtree_descriptor) in
  let* _ := RunAndCheckOutput cmd in
  let* new_info := GetAvbInfo avbtool image in
  let* new_hashtree_descriptor := io_pure (GetAvbHashtreeDescriptor info) in
  let* root_digest := io_pure (avb_get_item hashtree_descriptor "Root Digest") in
  let* new_root_digest := io_pure (avb_get_item new_hashtree_descriptor "Root Digest") in
  if opt_avb_eqb root_digest new_root_digest then io_ret tt else io_raise AssertionError.

(** Whatever the second run of [info_image] reports of the image, the replacement of the key
    returns: a root digest that has changed is not noticed. *)
Theorem root_digest_unchecked {W} `{Host W} (image avbtool : string) (new_key new_algorithm : option string) (misc_info : InfoDict)
    (info new_info : AvbValue) (d : list (string * AvbValue)) (cmd : list string) (out : string) (w w1 w2 w3 : W) :
  info_text misc_info "avb_avbtool" = Ok (Some avbtool) ->
  GetAvbInfo avbtool image w = (Ok info, w1) ->
  GetAvbHashtreeDescriptor info = Ok (ADict d) ->
  (forall v, od_get "Root Digest" d = Some v -> exists s, v = AText s) ->
  footer_command avbtool image new_key new_algorithm info (ADict d) = Ok cmd ->
  RunAndCheckOutput cmd w1 = (Ok out, w2) ->
  GetAvbInfo avbtool image w2 = (Ok new_info, w3) ->
  ReplaceKeyInAvbHashtreeFooter image new_key new_algorithm misc_info w = (Ok tt, w3).
Proof.
  intros Htool Hinfo Hd Hroot Hcmd Hrun Hnew. unfold ReplaceKeyInAvbHashtreeFooter. rewrite Htool.
  rewrite (io_bind_run _ _ w avbtool w eq_refl). cbv beta. rewrite (io_bind_run _ _ _ _ _ Hinfo). cbv beta.
  rewrite Hd, (io_bind_run _ _ w1 (ADict d) w1 eq_refl). cbv beta. rewrite Hcmd, (io_bind_run _ _ w1 cmd w1 eq_refl). cbv beta.
  rewrite (io_bind_run _ _ _ _ _ Hrun). cbv beta. rewrite (io_bind_run _ _ _ _ _ Hnew). cbv beta.
  rewrite (io_bind_run _ _ w3 (ADict d) w3 eq_refl). cbv beta.
  unfold io_bind, io_pure. cbn [avb_get_item].
  unfold opt_avb_eqb. destruct (od_get "Root Digest" d) as [v|] eqn:E; [|done]. destruct (Hroot v eq_refl) as [s ->]. cbn. by rewrite String.eqb_refl.
Qed.

(** The output of [avbtool info_image] for a small image. *)
Example info_image_parsed :
  ParseAvbInfo (str_join (String newline "")
    ["Image size:               1359872 bytes"; "Descriptors:"; "    Hashtree descriptor:"; "      Partition Name:        vendor";
     "      Root Digest:           aa"; "    Prop: a -> 'b'"]) =
  Ok (ADict [("Image size", AText "1359872 bytes");
             ("Descriptors", AList [ADict [("Hashtree descriptor", ADict [("Partition Name", AText "vendor"); ("Root Digest", AText "aa")])];
                                    ADict [("Prop", ADict [("a", AText "b")])]])]).
Proof. vm_compute. reflexivity. Qed.
