(* ===== verification/SignFiles.v ===== *)
(** sign_target_files_apks.py: what becomes of every entry of the target files
    ([ProcessTargetFiles]), and the run from the options to the signed files ([main],
    up to the images that add_img_to_target_files builds). *)

From S2P Require Export SignAvb VBMeta.

#[local] Open Scope string_scope.
#[local] Open Scope list_scope.
#[local] Open Scope Z_scope.

(** * Programs and formats *)

(** A partition in the manifest of a payload, and whether it is an update of an old one. *)
Record PayloadManifest := mkManifest { max_timestamp : Z; manifest_partitions : list (string * bool) }.

(** The host of a signing run: files, compression, the tools that sign, the readers of
    certificates, XML and payloads, the tools that build images. *)
Class SigningHost (W : Type) := {
  signing_host :: Host W;
  is_file : string -> W -> bool;
  read_data : string -> io W string;
  write_data : string -> string -> io W unit;
  gunzip : string -> result string;
  gzip : string -> string;
  zip_of_files : list string -> io W string;
  (** [SignFile]: data, key, password, the minimal API level, the levels of code names. *)
  SignFile : string -> string -> option string -> option Z -> list (string * Z) -> io W string;
  (** [apex_utils.SignApex]: avbtool, data, keys of payload and container, passwords, keys of
      APKs, levels of code names, arguments, signing tool. *)
  SignApex : string -> string -> string -> string -> list (string * option string) -> dict -> list (string * Z) ->
             option string -> option string -> io W string;
  (** [PasswordManager().GetPasswords]. *)
  ask_passwords : list string -> io W (list (string * option string));
  (** The certificate in a file, in hexadecimal; [None] when the file cannot be read. *)
  certificate16 : string -> io W (option string);
  (** The signatures of the signers in an XML document. *)
  signer_signatures : string -> result (list string);
  (** The entry payload.bin of a package, and the manifest of a payload. *)
  package_payload : string -> result (option string);
  payload_manifest : string -> result PayloadManifest;
  ota_from_raw_img : list string -> io W unit;
  SignOtaPackage : string -> string -> io W unit;
  (** The public key in microdroid_vbmeta.img of an APEX, if it has the image. *)
  microdroid_vbmeta_key : string -> string -> io W (option string);
  bootable_image : InfoDict -> io W (option string);
  dtbo_entries : io W (list ZipEntry)
}.

(** The options that name the signer of packages. *)
Record OtaSigningOptions := mkOtaSigningOptions {
  package_key : option string;
  ota_payload_signer : option string;
  ota_payload_signer_args : list string;
  ota_search_path : option string;
  payload_signer_maximum_signature_size : option string
}.

(** The key of packages, unless given, is that of the build. *)
Definition sign_package_key (ota : OtaSigningOptions) (dev_certificate : option string) : OtaSigningOptions :=
  mkOtaSigningOptions (Some (default (default default_dev_key dev_certificate) (package_key ota))) (ota_payload_signer ota)
    (ota_payload_signer_args ota) (ota_search_path ota) (payload_signer_maximum_signature_size ota).

(** * Texts *)

Definition word_at (o : option ascii) : bool := match o with Some c => is_word_char c | None => false end.
Definition head_char (s : string) : option ascii := match s with String c _ => Some c | "" => None end.
Fixpoint last_char (d : option ascii) (s : string) : option ascii := match s with "" => d | String c s' => last_char (Some c) s' end.

(** [re.subn] of a whole word, whatever the case: [prev] is the character before, [skip]
    characters of a match are still to be passed over. *)
Fixpoint replace_word (old new : string) (prev : option ascii) (skip : nat) (s : string) : string :=
  match skip, s with
  | Datatypes.S k, String c s' => replace_word old new (Some c) k s'
  | _, _ =>
      let here := xorb (word_at prev) (word_at (head_char s)) && starts_with (str_lower old) (str_lower s) &&
                  xorb (word_at (last_char prev (String.substring 0 (String.length old) s))) (word_at (head_char (str_drop (String.length old) s))) in
      match s with
      | "" => if here then new else ""
      | String c s' =>
          if here && negb (String.eqb old "") then new +:+ replace_word old new (Some c) (String.length old - 1) s'
          else (if here then new else "") +:+ String c (replace_word old new (Some c) 0 s')
      end
  end.

(** [shlex.quote] and [shlex.join]. *)
Definition shell_safe (c : ascii) : bool := is_word_char c || has_char c "@%+=:,./-".
Definition squote : string := String "039" "".
Definition shlex_quote (s : string) : string :=
  if String.eqb s "" then squote +:+ squote
  else if str_forallb shell_safe s then s
  else squote +:+ str_replace squote (squote +:+ dquote +:+ squote +:+ dquote +:+ squote) s +:+ squote.
Definition shlex_join (l : list string) : string := str_join " " (map shlex_quote l).

Definition opt_flag (flag : string) (v : option string) : list string := match v with Some s => if str_true s then [flag; s] else [] | None => [] end.

Section signing.
Context {W : Type} `{SigningHost W} (o : SignOptions) (ota : OtaSigningOptions).

Definition with_temp_file {A} (f : string -> io W A) : io W A :=
  let* name := make_temp_file "" "" in io_finally (f name) (remove_file name).

(** * Single files *)

Definition SignApk (data keyname : string) (pw : option string) (platform_api_level : Z) (codenames : list (string * Z))
    (is_compressed : bool) : io W string :=
  let* unsigned := io_pure (if is_compressed then gunzip data else Ok data) in
  let* signed := SignFile unsigned keyname pw (if 23 <? platform_api_level then None else Some 1) codenames in
  io_ret (if is_compressed then gzip signed else signed).

(** One mapping of keys, where both certificates can be read. *)
Definition replace_cert (data : string) (item : string * string) : io W string :=
  let* old16 := certificate16 (item.1 +:+ ".x509.pem") in
  match old16 with
  | None => io_ret data
  | Some old16 =>
      let* new16 := certificate16 (item.2 +:+ ".x509.pem") in
      io_ret (match new16 with None => data | Some new16 => replace_word old16 new16 None 0 data end)
  end.
Fixpoint replace_certs (data : string) (l : dict) : io W string :=
  match l with [] => io_ret data | item :: l => let* data := replace_cert data item in replace_certs data l end.
Definition ReplaceCerts (data : string) : io W string :=
  let* data := replace_certs data (key_map o) in
  let* signatures := io_pure (signer_signatures data) in
  if bool_decide (NoDup signatures) then io_ret data else io_raise AssertionError.

Definition GetOtaSigningArgs : list string :=
  opt_flag "--package_key" (package_key ota) ++
  match ota_payload_signer ota with Some s => if str_true s then ["--payload_signer=" +:+ s] else [] | None => [] end ++
  match ota_payload_signer_args ota with [] => [] | l => ["--payload_signer_args=" +:+ shlex_join l] end ++
  opt_flag "--search_path" (ota_search_path ota) ++
  opt_flag "--payload_signer_maximum_signature_size" (payload_signer_maximum_signature_size ota) ++
  opt_flag "--private_key_suffix" (Some (private_key_suffix o)).

(** The payload of a package; a link leads to another entry of the target files. *)
Fixpoint IsEntryOtaPackage (fuel : nat) (z : tf_zip) (f : string) : result bool :=
  match fuel with
  | O => Raise OutOfFuel
  | Datatypes.S fuel =>
      let! e := of_option KeyError (zip_entry z f) in
      if is_link e then IsEntryOtaPackage fuel z (path_join (path_dirname f) (entry_data e))
      else let! payload := package_payload (entry_data e) in
           Ok (match payload with Some p => starts_with "CrAU" p | None => false end)
  end.

Definition boot_ota_images (unzip_dir : string) (is_4k incremental has_dtbo : bool) : io W (option (string * string)) := fun w =>
  let image name := path_join (path_join unzip_dir "IMAGES") name in
  let pair own other := if path_exists other w then (if is_4k then other +:+ ":" +:+ own else own +:+ ":" +:+ other) else own in
  if negb (path_exists (image "boot.img") w) then (Ok None, w)
  else if has_dtbo && negb (path_exists (image "dtbo.img") w) then (Raise ValueError, w)
  else if incremental then (Ok (Some (pair (image "boot.img") (image "boot_16k.img"), pair (image "dtbo.img") (image "dtbo_16k.img"))), w)
  else (Ok (Some (image "boot.img", image "dtbo.img")), w).

Definition RegenerateBootOTA (z : tf_zip) (f input_ota input_tmp : string) : io W unit :=
  let* data := io_pure (zip_read z f) in
  let* manifest := io_pure (payload_manifest data) in
  let is_incremental := existsb snd (manifest_partitions manifest) in
  let partitions := map fst (manifest_partitions manifest) in
  if negb (starts_with "VENDOR/boot_otas/" f || starts_with "SYSTEM/boot_otas/" f) then io_ret tt
  else
    let is_4k_boot_ota := bool_decide (f ∈ ["VENDOR/boot_otas/boot_ota_4k.zip"; "SYSTEM/boot_otas/boot_ota_4k.zip"]) in
    if negb is_4k_boot_ota && negb is_incremental then io_ret tt
    else
      let has_dtbo := bool_decide ("dtbo" ∈ partitions) in
      let* images := boot_ota_images input_tmp is_4k_boot_ota is_incremental has_dtbo in
      match images with
      | None => io_ret tt
      | Some (signed_boot_image, signed_dtbo_image) =>
          ota_from_raw_img
            (["ota_from_raw_img"; "--max_timestamp"; py_str (max_timestamp manifest); "--output"; input_ota] ++ GetOtaSigningArgs ++
             (if has_dtbo then ["--partition_name"; "boot,dtbo"; signed_boot_image; signed_dtbo_image]
              else ["--partition_name"; "boot"; signed_boot_image]))
      end.

Definition ResignDesktopTrusty (image new_key new_algorithm : string) (misc_info : InfoDict) (extra_args : option string) : io W unit :=
  let* avbtool := io_pure (let! v := info_text misc_info "avb_avbtool" in of_option KeyError v) in
  let* words := io_pure (match extra_args with Some s => shlex_split s | None => Raise ValueError end) in
  let* _ := RunAndCheckOutput (["desktop_trusty_signing_tool"; "--avbtool"; avbtool; "--key"; new_key; "--algorithm"; new_algorithm;
                                "--elf-file"; image] ++ words) in
  io_ret tt.

(** * Passwords *)

(** Which keys have a password: an empty one is known, others are asked for; a file that
    openssl cannot read has none. *)
Inductive KeyProtection := NoPassword | EmptyPassword | NeedsPassword.

Definition key_protection (k : string) : io W KeyProtection :=
  if special k then io_ret NoPassword
  else
    let* (status, _) := run_process ["openssl"; "pkcs8"; "-in"; k +:+ private_key_suffix o; "-inform"; "DER"; "-nocrypt"] in
    if status =? 0 then io_ret NoPassword
    else
      let* (status, stderr) := run_process ["openssl"; "pkcs8"; "-in"; k +:+ private_key_suffix o; "-inform"; "DER"; "-passin"; "pass:"] in
      io_ret (if status =? 0 then EmptyPassword else if starts_with "Error decrypting key" stderr then NeedsPassword else NoPassword).

Fixpoint key_protections (l : list string) : io W (list (string * KeyProtection)) :=
  match l with
  | [] => io_ret []
  | k :: l => let* p := key_protection k in let* rest := key_protections l in io_ret ((k, p) :: rest)
  end.

Definition GetKeyPasswords (keylist : list string) : io W (list (string * option string)) :=
  let* l := key_protections (sort_by String.leb (remove_dups keylist)) in
  let empty := omap (fun '(k, p) => match p with EmptyPassword => Some (k, Some "") | _ => None end) l in
  let need := omap (fun '(k, p) => match p with NeedsPassword => Some k | _ => None end) l in
  let no := omap (fun '(k, p) => match p with NoPassword => Some (k, None) | _ => None end) l in
  let* asked := ask_passwords need in
  io_ret (od_merge (od_merge empty asked) no).

(** * Entries *)

Section run.
Context (z : tf_zip) (misc_info : InfoDict) (apk_keys : dict) (apex_keys : apex_keys_info)
  (key_passwords : list (string * option string)) (platform_api_level : Z) (codenames : list (string * Z))
  (compressed_extension : option string) (input_tmp : string).

Definition avbtool : io W string := io_pure (let! v := info_text misc_info "avb_avbtool" in of_option KeyError v).

(** The entry with other data, and a new entry made from a file. *)
Definition with_data (e : ZipEntry) (data : string) : ZipEntry := mkZipEntry (filename e) (is_link e) data.
Definition from_file (f data : string) : ZipEntry := mkZipEntry f false data.

Definition sign_apk_entry (e : ZipEntry) (data : string) (is_compressed : bool) : io W (list ZipEntry) :=
  let name := apk_name (filename e) compressed_extension is_compressed in
  let* key := io_pure (of_option KeyError (od_get name apk_keys)) in
  if special key then io_ret [with_data e data]
  else
    let* pw := io_pure (of_option KeyError (od_get key key_passwords)) in
    let* signed_data := SignApk data key pw platform_api_level codenames is_compressed in
    io_ret [with_data e signed_data].

Definition sign_apex_entry (e : ZipEntry) (data : string) : io W (list ZipEntry) :=
  let* k := io_pure (of_option KeyError (od_get (GetApexFilename (filename e)) apex_keys)) in
  if special (payload_key k) || special (container_key k) then io_ret [with_data e data]
  else
    let* tool := avbtool in
    let* signed_apex := SignApex tool data (payload_key k) (container_key k) key_passwords apk_keys codenames
                          (od_get "apex" (avb_extra_args o)) (sign_tool k) in
    io_ret [from_file (filename e) signed_apex].

Definition resign_ota_entry (e : ZipEntry) : io W (list ZipEntry) :=
  with_temp_file (fun input_ota => with_temp_file (fun output_ota =>
    let* _ := RegenerateBootOTA z (filename e) input_ota input_tmp in
    let* _ := SignOtaPackage input_ota output_ota in
    let* data := read_data output_ota in
    io_ret [from_file (filename e) data])).

Definition virt_apex_re : pat unit :=
  let% _ := re_many re_dot in
  let% _ := re_lit "com." in
  let% _ := re_opt (let% _ := re_some (re_not ".") in re_lit ".") in
  let% _ := re_lit "android.virt.apex" in
  re_end.
Definition virt_apex_path : option string :=
  head (filter (fun f => IsApexFile f = true /\ re_match virt_apex_re f = Some tt) (zip_names z)).

Definition embedded_key_path : string := "PREBUILT_IMAGES/pvmfw_embedded.avbpubkey".

Definition virt_apex_key (path : string) : io W (option string) :=
  let* k := io_pure (of_option KeyError (od_get (GetApexFilename path) apex_keys)) in
  if String.eqb (payload_key k) "PRESIGNED" then
    with_temp_file (fun virt_apex =>
      let* data := io_pure (zip_read z path) in
      let* _ := write_data virt_apex data in
      let* tool := avbtool in
      microdroid_vbmeta_key virt_apex tool)
  else
    let* tool := avbtool in
    let* new_pubkey_path := ExtractAvbPublicKey tool (payload_key k) in
    let* key := read_data new_pubkey_path in
    io_ret (Some key).

(** The key in the image is replaced where it is first found, by one of the same length. *)
Definition replace_pvmfw_key (e : ZipEntry) (data new_pubkey : string) : result (list ZipEntry) :=
  let! pubkey_info := of_option KeyError (zip_entry z embedded_key_path) in
  let! old_pubkey := zip_read z embedded_key_path in
  if negb (Nat.eqb (String.length old_pubkey) (String.length new_pubkey)) then Raise ExternalError
  else match split_once old_pubkey data with
       | None => Raise ExternalError
       | Some (before, after) => Ok [with_data e (before +:+ new_pubkey +:+ after); with_data pubkey_info new_pubkey]
       end.

Definition pvmfw_entry (e : ZipEntry) (data : string) : io W (list ZipEntry) :=
  match virt_apex_path with
  | None => io_ret [with_data e data]
  | Some path =>
      let* new_pubkey := virt_apex_key path in
      match new_pubkey with
      | Some key => if str_true key then io_pure (replace_pvmfw_key e data key) else io_ret [with_data e data]
      | None => io_ret [with_data e data]
      end
  end.

Definition system_other_entry (e : ZipEntry) : io W (list ZipEntry) :=
  match given (avb_keys o) "system_other" with
  | None => io_ret []
  | Some signing_key =>
      let* tool := avbtool in
      let* public_key := ExtractAvbPublicKey tool signing_key in
      let* data := read_data public_key in
      io_ret [from_file (filename e) data]
  end.

(** An image in a temporary file, changed in place. *)
Definition resigned_entry (e : ZipEntry) (data : string) (sign : string -> io W unit) : io W (list ZipEntry) :=
  with_temp_file (fun image =>
    let* _ := write_data image data in
    let* _ := sign image in
    let* data := read_data image in
    io_ret [from_file (filename e) data]).

(** Copied unless the output has an entry of the name. *)
Definition copy_entry (out : list ZipEntry) (e : ZipEntry) (data : string) : io W (list ZipEntry) :=
  io_ret (if bool_decide (filename e ∈ zip_names out) then [] else [with_data e data]).

Definition removed_key (f : string) : option bool :=
  match remove_avb_public_keys o with
  | Some ((_ :: _) as keys) =>
      if starts_with "BOOT/RAMDISK/avb/" f || starts_with "BOOT/RAMDISK/first_stage_ramdisk/avb/" f
      then Some (existsb (fun k => ends_with k f) keys) else None
  | _ => None
  end.

Definition recovery_files : list string :=
  ["SYSTEM/recovery-from-boot.p"; "VENDOR/recovery-from-boot.p"; "SYSTEM/etc/recovery.img"; "VENDOR/etc/recovery.img";
   "SYSTEM/bin/install-recovery.sh"; "VENDOR/bin/install-recovery.sh"].

(** The entries that are neither packages nor rewritten texts, in the order of the tests. *)
Definition process_other (out : list ZipEntry) (e : ZipEntry) (data : string) : io W (list ZipEntry) :=
  let f := filename e in
  if replace_ota_keys o && ends_with "/otacerts.zip" f then io_ret []
  else if String.eqb f "META/misc_info.txt" then io_ret []
  else
  match removed_key f with
  | Some true => io_ret []
  | Some false => io_ret [with_data e data]
  | None =>
      if bool_decide (f ∈ ["META/vbmeta_digest.txt"; "META/care_map.pb"; "META/care_map.txt"; "META/apex_info.pb"]) then io_ret []
      else if bool_decide (f ∈ ["PRODUCT/etc/security/avb/system_other.avbpubkey"; "SYSTEM/product/etc/security/avb/system_other.avbpubkey"])
      then system_other_entry e
      else if String.eqb f "PREBUILT_IMAGES/pvmfw.img" then pvmfw_entry e data
      else if String.eqb f embedded_key_path then io_ret []
      else if String.eqb f "VENDOR/firmware/ap-ec-fw.zip" then
        io_ret [with_data e (match zip_read z "SIGNED_PREBUILTS/ap-ec-fw-signed.zip" with Ok d => d | Raise _ => data end)]
      else if String.eqb f "SIGNED_PREBUILTS/ap-ec-fw-signed.zip" then io_ret []
      else if bool_decide (f ∈ ["BOOT/RAMDISK/force_debuggable"; "BOOT/RAMDISK/first_stage_ramdisk/force_debuggable"])
      then io_raise ExternalError
      else if bool_decide (f ∈ ["SYSTEM_EXT/etc/selinux/userdebug_plat_sepolicy.cil"; "SYSTEM/system_ext/etc/selinux/userdebug_plat_sepolicy.cil"])
      then if allow_gsi_debug_sepolicy o then io_ret [with_data e data] else io_raise ExternalError
      else if String.eqb f "VENDOR/etc/avf/microdroid/microdroid_vendor.img" then
        resigned_entry e data (fun image =>
          ReplaceKeyInAvbHashtreeFooter image (od_get "vendor" (avb_keys o)) (od_get "vendor" (avb_algorithms o)) misc_info)
      else if String.eqb f "SYSTEM_EXT/etc/vm/trusty_vm/desktop_trusty_signed.elf" then
        let* desktop_key := io_pure (of_option KeyError (od_get "com.google.android.virt.apex" (extra_apex_payload_keys o))) in
        let desktop_algorithm := default "SHA256_RSA4096" (od_get "desktop_trusty" (avb_algorithms o)) in
        resigned_entry e data (fun image =>
          ResignDesktopTrusty image desktop_key desktop_algorithm misc_info (od_get "apex" (avb_extra_args o)))
      else copy_entry out e data
  end.

(** What an entry adds to the output. *)
Definition process_entry (out : list ZipEntry) (e : ZipEntry) : io W (list ZipEntry) :=
  let f := filename e in
  if starts_with "IMAGES/" f || (starts_with "OTA/" f && ends_with ".img" f) then io_ret []
  else
    let* (is_apk, is_compressed, should_be_skipped) :=
      io_pure (GetApkFileInfo f compressed_extension (skip_apks_with_path_prefix o)) in
    let* data := io_pure (zip_read z f) in
    if is_apk && should_be_skipped then io_ret [with_data e data]
    else if is_apk then sign_apk_entry e data is_compressed
    else if IsApexFile f then sign_apex_entry e data
    else
      let* is_ota := io_pure (if ends_with ".zip" f then IsEntryOtaPackage (S (length z)) z f else Ok false) in
      if is_ota then resign_ota_entry e
      else if IsBuildPropFile f then
        let* new_data := io_pure (if is_link e then Ok data else RewriteProps o data) in
        io_ret [with_data e new_data]
      else if ends_with "mac_permissions.xml" f then
        let* new_data := ReplaceCerts data in io_ret [with_data e new_data]
      else if bool_decide (f ∈ recovery_files) then io_ret []
      else process_other out e data.

Fixpoint process_entries (out : list ZipEntry) (l : list ZipEntry) : io W (list ZipEntry) :=
  match l with
  | [] => io_ret out
  | e :: l => let* new := process_entry out e in process_entries (out ++ new) l
  end.
End run.

(** * The whole run *)

Definition RegenerateKernelPartitions (misc_info : InfoDict) : io W (list ZipEntry) :=
  let* boot_image := bootable_image misc_info in
  let boot := match boot_image with Some d => [from_file "IMAGES/boot.img" d] | None => [] end in
  if info_is misc_info "has_dtbo" "true" then let* dtbo := dtbo_entries in io_ret (boot ++ dtbo) else io_ret boot.

Fixpoint write_otacerts (k : OtaKeys) (l : list string) : io W (list ZipEntry) :=
  match l with
  | [] => io_ret []
  | f :: l =>
      let* data := zip_of_files (otacerts_keys k f) in
      let* rest := write_otacerts k l in
      io_ret (from_file f data :: rest)
  end.

Definition ReplaceOtaKeys (z : tf_zip) (misc_info : InfoDict) : io W (list ZipEntry * InfoDict) :=
  let* (keys, misc_info) := fun w => (ota_keys o (fun f => is_file f w) (zip_read z "META/otakeys.txt") misc_info, w) in
  let* entries := write_otacerts keys (filter (fun f => ends_with "/otacerts.zip" f = true) (zip_names z)) in
  io_ret (entries, misc_info).

Definition ProcessTargetFiles (object_text : InfoValue -> string) (z : tf_zip) (misc_info : InfoDict) (apk_keys : dict) (apex_keys : apex_keys_info)
    (key_passwords : list (string * option string)) (platform_api_level : Z) (codenames : list (string * Z))
    (compressed_extension : option string) (input_tmp : string) : io W (list ZipEntry * InfoDict) :=
  let* _ := io_pure (mapM (fun f => GetApkFileInfo f compressed_extension []) (zip_names z)) in
  let* misc_info := io_pure (ReplaceAvbSigningKeys o misc_info) in
  let* misc_info := io_pure (if info_is misc_info "avb_enable" "true" then RewriteAvbProps o misc_info else Ok misc_info) in
  let* out := RegenerateKernelPartitions misc_info in
  let* out := process_entries z misc_info apk_keys apex_keys key_passwords platform_api_level codenames compressed_extension input_tmp out z in
  let* (otacerts, misc_info) := if replace_ota_keys o then ReplaceOtaKeys z misc_info else io_ret ([], misc_info) in
  let* old := io_pure (zip_read z "META/misc_info.txt") in
  io_ret (out ++ otacerts ++ [from_file "META/misc_info.txt" (misc_info_text object_text misc_info old)], misc_info).
End signing.

(** The contents of the target files, as [LoadInfoDict] reads them. *)
Definition zip_contents (z : tf_zip) : InputFile := Some (list_to_map (map (fun e => (filename e, entry_data e)) (rev z))).

(** The arguments for add_img_to_target_files; the recovery patch is rebuilt if a file
    of it was there. *)
Definition image_args (z : tf_zip) (output : string) : list string :=
  ["--is_signing"; "--add_missing"; "--verbose"] ++
  (if existsb (fun f => bool_decide (f ∈ recovery_files)) (zip_names z) then ["--rebuild_recovery"] else []) ++ [output].

Record SignedFiles := mkSignedFiles { sf_entries : list ZipEntry; sf_misc_info : InfoDict; sf_image_args : list string }.

(** The keys whose passwords are asked for: those of packages and, with them, the tools
    that sign APEXes. *)
Definition keys_to_unlock (keys : SigningKeys) : list string :=
  map snd (sk_apk_keys keys) ++
  flat_map (fun '(_, k) => [payload_key k; container_key k] ++ option_list (sign_tool k)) (sk_apex_keys keys).

(** [main], from the options read to the files signed. *)
Section main.
Context {W : Type} `{SigningHost W}.
Context (GetBootImageBuildProp : string -> RamdiskFormat -> result (option string)) (sha256_hex : string -> string)
  (object_text : InfoValue -> string).

Definition sign_target_files (o : SignOptions) (ota : OtaSigningOptions) (key_mapping_options : list KeyMapping)
    (input_tmp output : string) (z : tf_zip) : io W SignedFiles :=
  let* misc_info := fun w => (LoadInfoDict GetBootImageBuildProp sha256_hex (fun p => path_exists p w) (zip_contents z) None, w) in
  let* dev_certificate := io_pure (info_text misc_info "default_system_dev_certificate") in
  let* o := io_pure (BuildKeyMap o dev_certificate key_mapping_options) in
  let* keys := io_pure (signing_keys o z) in
  let* key_passwords := GetKeyPasswords o (keys_to_unlock keys) in
  let* (platform_api_level, _) := io_pure (GetApiLevelAndCodename z) in
  let* codenames := io_pure (GetCodenameToApiLevelMap z) in
  let* (entries, misc_info) := ProcessTargetFiles o (sign_package_key ota dev_certificate) object_text z misc_info (sk_apk_keys keys)
    (sk_apex_keys keys) key_passwords platform_api_level codenames (sk_compressed_extension keys) input_tmp in
  io_ret (mkSignedFiles entries misc_info (image_args z output)).
End main.
