(* ===== verification/SignFilesProps.v ===== *)
(** What a signed package holds: every package is signed with its key or kept, texts have
    their tags edited, nothing debuggable goes in. *)

From S2P Require Export SignKeysProps SignTextProps SignFiles.

#[local] Open Scope string_scope.
#[local] Open Scope list_scope.
#[local] Open Scope Z_scope.

Lemma io_bind_raise {W A B} (e : exn) (k : A -> io W B) : io_bind (io_raise e) k = io_raise e.
Proof. done. Qed.

Lemma bind_ok {A B} (m : result A) (k : A -> result B) b : (let! a := m in k a) = Ok b -> exists a, m = Ok a /\ k a = Ok b.
Proof. destruct m; [eauto|done]. Qed.

Lemma with_temp_file_ok {W A} `{SigningHost W} (f : string -> io W A) w a w' :
  with_temp_file f w = (Ok a, w') -> exists name w1 w2, f name w1 = (Ok a, w2).
Proof. unfold with_temp_file. intros Hr. io_ok. apply io_finally_ok in H1 as [w2 Hf]. eauto. Qed.

Section run.
Context {W : Type} `{SigningHost W} (o : SignOptions) (ota : OtaSigningOptions).
Context (z : tf_zip) (misc_info : InfoDict) (apk_keys : dict) (apex_keys : apex_keys_info)
  (key_passwords : list (string * option string)) (platform_api_level : Z) (codenames : list (string * Z))
  (ext : option string) (input_tmp : string).
Abbreviation process := (process_entry o ota z misc_info apk_keys apex_keys key_passwords platform_api_level codenames ext input_tmp).

(** [signed] is what the signing tool made of [data], unpacked and packed again if it is compressed. *)
Definition apk_signed (key : string) (is_compressed : bool) (data signed : string) : Prop :=
  exists pw w, od_get key key_passwords = Some pw /\ fst (SignApk data key pw platform_api_level codenames is_compressed w) = Ok signed.

Definition apex_signed (k : ApexKeys) (data signed : string) : Prop :=
  exists tool w, info_text misc_info "avb_avbtool" = Ok (Some tool) /\
  fst (SignApex tool data (payload_key k) (container_key k) key_passwords apk_keys codenames (od_get "apex" (avb_extra_args o)) (sign_tool k) w) = Ok signed.

(** Files that are made anew when the images are built. *)
Definition image_file (f : string) : bool := starts_with "IMAGES/" f || (starts_with "OTA/" f && ends_with ".img" f).

(** Policies for debugging. *)
Definition policy_files : list string :=
  ["SYSTEM_EXT/etc/selinux/userdebug_plat_sepolicy.cil"; "SYSTEM/system_ext/etc/selinux/userdebug_plat_sepolicy.cil"].

(** Files that must not be in a package that is signed. *)
Definition debug_files : list string :=
  ["BOOT/RAMDISK/force_debuggable"; "BOOT/RAMDISK/first_stage_ramdisk/force_debuggable"] ++
  if allow_gsi_debug_sepolicy o then [] else policy_files.

Definition system_other_keys : list string :=
  ["PRODUCT/etc/security/avb/system_other.avbpubkey"; "SYSTEM/product/etc/security/avb/system_other.avbpubkey"].

(** Entries that are left out: files of the recovery patch, digests and care maps that
    no longer hold, keys that are replaced or removed, misc_info.txt, which is written
    at the end. *)
Definition left_out (f : string) : bool :=
  bool_decide (f ∈ recovery_files) ||
  bool_decide (f ∈ ["META/misc_info.txt"; "META/vbmeta_digest.txt"; "META/care_map.pb"; "META/care_map.txt"; "META/apex_info.pb";
                    embedded_key_path; "SIGNED_PREBUILTS/ap-ec-fw-signed.zip"]) ||
  (replace_ota_keys o && ends_with "/otacerts.zip" f) ||
  ((starts_with "BOOT/RAMDISK/avb/" f || starts_with "BOOT/RAMDISK/first_stage_ramdisk/avb/" f) &&
   existsb (fun k => ends_with k f) (default [] (remove_avb_public_keys o))).

(** An OTA package is regenerated if it has to be, and signed. *)
Definition package_resigned (f : string) (new : list ZipEntry) : Prop :=
  exists input_ota output_ota w1 w2 w3 w4 data,
    RegenerateBootOTA o ota z f input_ota input_tmp w1 = (Ok tt, w2) /\ SignOtaPackage input_ota output_ota w2 = (Ok tt, w3) /\
    read_data output_ota w3 = (Ok data, w4) /\ new = [from_file f data].

(** An image is written to a file, signed there, and read back. *)
Definition image_resigned (sign : string -> io W unit) (f data : string) (new : list ZipEntry) : Prop :=
  exists image w1 w2 w3 w4 data',
    write_data image data w1 = (Ok tt, w2) /\ sign image w2 = (Ok tt, w3) /\
    read_data image w3 = (Ok data', w4) /\ new = [from_file f data'].

(** The public half of a key is written. *)
Definition public_key_written (key f : string) (new : list ZipEntry) : Prop :=
  exists tool path w1 w2 w3 data, info_text misc_info "avb_avbtool" = Ok (Some tool) /\
    ExtractAvbPublicKey tool key w1 = (Ok path, w2) /\ read_data path w2 = (Ok data, w3) /\ new = [from_file f data].

(** pvmfw.img has the key of the APEX for virtual machines put in the place of the one
    it embeds, which is of the same length; without such an APEX, or if it has no key, it
    is copied. *)
Definition pvmfw_written (e : ZipEntry) (data : string) (new : list ZipEntry) : Prop :=
  match virt_apex_path z with
  | None => new = [with_data e data]
  | Some path =>
      exists key w1 w2, virt_apex_key z misc_info apex_keys path w1 = (Ok key, w2) /\
      if str_true (default "" key) then
        exists info before after, zip_entry z embedded_key_path = Some info /\ str_len (entry_data info) = str_len (default "" key) /\
          data = before +:+ entry_data info +:+ after /\
          new = [with_data e (before +:+ default "" key +:+ after); with_data info (default "" key)]
      else new = [with_data e data]
  end.

(** Files that are copied even if the output has an entry of the name: keys of the
    ramdisk that are kept while others are removed, policies for debugging that are
    allowed. *)
Definition always_copied (f : string) : bool :=
  (match remove_avb_public_keys o with Some (_ :: _) => true | _ => false end &&
   (starts_with "BOOT/RAMDISK/avb/" f || starts_with "BOOT/RAMDISK/first_stage_ramdisk/avb/" f)) ||
  bool_decide (f ∈ policy_files).

(** What the other entries add to the output, which has [out] so far: those that are
    not mentioned are copied, unless the output has an entry of the name. *)
Definition rest_written (out : list ZipEntry) (e : ZipEntry) (data : string) (new : list ZipEntry) : Prop :=
  let f := filename e in
  if left_out f then new = []
  else if bool_decide (f ∈ system_other_keys) then
    match given (avb_keys o) "system_other" with None => new = [] | Some key => public_key_written key f new end
  else if String.eqb f "PREBUILT_IMAGES/pvmfw.img" then pvmfw_written e data new
  else if String.eqb f "VENDOR/firmware/ap-ec-fw.zip" then
    new = [with_data e (default data (entry_data <$> zip_entry z "SIGNED_PREBUILTS/ap-ec-fw-signed.zip"))]
  else if String.eqb f "VENDOR/etc/avf/microdroid/microdroid_vendor.img" then
    image_resigned (fun image =>
      ReplaceKeyInAvbHashtreeFooter image (od_get "vendor" (avb_keys o)) (od_get "vendor" (avb_algorithms o)) misc_info) f data new
  else if String.eqb f "SYSTEM_EXT/etc/vm/trusty_vm/desktop_trusty_signed.elf" then
    exists key, od_get "com.google.android.virt.apex" (extra_apex_payload_keys o) = Some key /\
    image_resigned (fun image =>
      ResignDesktopTrusty image key (default "SHA256_RSA4096" (od_get "desktop_trusty" (avb_algorithms o))) misc_info
        (od_get "apex" (avb_extra_args o))) f data new
  else new = if bool_decide (f ∈ zip_names out) && negb (always_copied f) then [] else [with_data e data].

(** What an entry that is no APK or APEX adds to the output. *)
Definition other_written (out : list ZipEntry) (e : ZipEntry) (data : string) (new : list ZipEntry) : Prop :=
  let f := filename e in
  (f ∉ debug_files) /\
  exists is_ota, (if ends_with ".zip" f then IsEntryOtaPackage (Datatypes.S (length z)) z f else Ok false) = Ok is_ota /\
  if is_ota then package_resigned f new
  else if IsBuildPropFile f then exists data', (if is_link e then Ok data else RewriteProps o data) = Ok data' /\ new = [with_data e data']
  else if ends_with "mac_permissions.xml" f then exists w1 w2 data', ReplaceCerts o data w1 = (Ok data', w2) /\ new = [with_data e data']
  else rest_written out e data new.

(** What the entry [e] adds to the output, which has [out] so far. *)
Definition entry_written (out : list ZipEntry) (e : ZipEntry) (new : list ZipEntry) : Prop :=
  let f := filename e in
  if image_file f then new = []
  else exists is_apk is_compressed skipped data,
    GetApkFileInfo f ext (skip_apks_with_path_prefix o) = Ok (is_apk, is_compressed, skipped) /\ zip_read z f = Ok data /\
    if is_apk then
      if skipped then new = [with_data e data]
      else exists key signed, od_get (apk_name f ext is_compressed) apk_keys = Some key /\ new = [with_data e signed] /\
           if special key then signed = data else apk_signed key is_compressed data signed
    else if IsApexFile f then
      exists k, od_get (GetApexFilename f) apex_keys = Some k /\
      if special (payload_key k) || special (container_key k) then new = [with_data e data]
      else exists signed, new = [from_file f signed] /\ apex_signed k data signed
    else other_written out e data new.

(** The entries in turn. *)
Fixpoint entries_written (out : list ZipEntry) (l : list ZipEntry) (news : list (list ZipEntry)) : Prop :=
  match l, news with
  | [], [] => True
  | e :: l, new :: news => entry_written out e new /\ entries_written (out ++ new) l news
  | _, _ => False
  end.

Lemma ends_with_app p s : ends_with p s = true -> exists q, s = q +:+ p.
Proof.
  induction s as [|c s IH]; cbn.
  - intros [E|?]%orb_true_iff; [|done]. apply String.eqb_eq in E as ->. by exists "".
  - intros [E|E]%orb_true_iff; [apply String.eqb_eq in E as ->; by exists ""|]. destruct (IH E) as [q ->]. by exists (String c q).
Qed.

(** ** The branches *)

Lemma resigned_entry_written e data sign w new w' : resigned_entry e data sign w = (Ok new, w') -> image_resigned sign (filename e) data new.
Proof.
  unfold resigned_entry. intros (image & w1 & w2 & Hr)%with_temp_file_ok. step Hr [] w3 H1. step Hr [] w4 H2. step Hr data' w5 H3.
  injection Hr as <- _. exists image, w1, w3, w4, w5, data'. done.
Qed.

Lemma resign_ota_entry_written e w new w' : resign_ota_entry o ota z input_tmp e w = (Ok new, w') -> package_resigned (filename e) new.
Proof.
  unfold resign_ota_entry. intros (name & w1 & w2 & (name2 & w3 & w4 & Hr)%with_temp_file_ok)%with_temp_file_ok.
  step Hr [] w5 H1. step Hr [] w6 H2. step Hr data w7 H3. injection Hr as <- _. exists name, name2, w3, w5, w6, w7, data. done.
Qed.

Lemma starts_with_split p s : starts_with p s = true -> s = p +:+ str_drop (String.length p) s.
Proof.
  revert s. induction p as [|c p IH]; intros s; [by destruct s|]. destruct s as [|d s]; [done|]. unfold starts_with. cbn [String.prefix].
  destruct (ascii_dec c d) as [->|]; [|done]. intros E. cbn [String.length str_drop]. exact (f_equal (String d) (IH s E)).
Qed.

Lemma split_once_split sep s a b : split_once sep s = Some (a, b) -> s = a +:+ sep +:+ b.
Proof.
  revert a b. induction s as [|c s IH]; intros a b; cbn [split_once].
  - destruct (starts_with sep "") eqn:E; [|done]. intros [= <- <-]. exact (starts_with_split _ _ E).
  - destruct (starts_with sep (String c s)) eqn:E; [intros [= <- <-]; exact (starts_with_split _ _ E)|].
    destruct (split_once sep s) as [[a' b']|]; [|done]. intros [= <- <-]. exact (f_equal (String c) (IH _ _ eq_refl)).
Qed.

Lemma pvmfw_entry_written e data w new w' : pvmfw_entry z misc_info apex_keys e data w = (Ok new, w') -> pvmfw_written e data new.
Proof.
  unfold pvmfw_entry, pvmfw_written. destruct (virt_apex_path z) as [path|]; [|by intros [= <- _]].
  intros Hr. step Hr key w1 Hk. exists key, w, w1. split; [done|]. destruct key as [key|]; [|by injection Hr as <- _]. change (default "" (Some key)) with key.
  destruct (str_true key) eqn:Et; [|by injection Hr as <- _]. apply io_pure_ok in Hr as [Hp _].
  unfold replace_pvmfw_key, zip_read in Hp. destruct (zip_entry z embedded_key_path) as [info|]; [|done]. cbn in Hp.
  destruct (Nat.eqb_spec (String.length (entry_data info)) (String.length key)) as [El|]; [|done]. cbn in Hp.
  destruct (split_once _ _) as [[before after]|] eqn:Es; [|done]. injection Hp as <-. apply split_once_split in Es.
  exists info, before, after. unfold str_len. rewrite El. done.
Qed.

Lemma system_other_entry_written e w new w' : system_other_entry o misc_info e w = (Ok new, w') ->
  match given (avb_keys o) "system_other" with None => new = [] | Some key => public_key_written key (filename e) new end.
Proof.
  unfold system_other_entry. destruct (given (avb_keys o) "system_other") as [key|]; [|by intros [= <- _]].
  intros Hr. step Hr tool w1 Ht. apply io_pure_ok in Ht as [Ht ->]. step Hr path w2 Hp. step Hr data w3 Hd. injection Hr as <- _.
  destruct (info_text misc_info "avb_avbtool") as [[t|]|] eqn:Et; [|done..]. injection Ht as ->.
  exists tool, path, w, w2, w3, data. done.
Qed.

(** Names a test accepts are not in a list whose names it refuses. *)
Lemma not_in_by (P : string -> bool) (l : list string) f : forallb (fun g => negb (P g)) l = true -> P f = true -> f ∉ l.
Proof. intros Hall Hf Hin. apply list_elem_of_In, (proj1 (forallb_forall _ _) Hall) in Hin. by rewrite Hf in Hin. Qed.

Lemma not_in_decide (l : list string) f P : forallb (fun g => negb (P g)) l = true -> P f = true -> bool_decide (f ∈ l) = false.
Proof. intros. apply bool_decide_eq_false. by apply (not_in_by P). Qed.

Definition debug_paths : list string :=
  ["BOOT/RAMDISK/force_debuggable"; "BOOT/RAMDISK/first_stage_ramdisk/force_debuggable";
   "SYSTEM_EXT/etc/selinux/userdebug_plat_sepolicy.cil"; "SYSTEM/system_ext/etc/selinux/userdebug_plat_sepolicy.cil"].

Lemma not_debug f : f ∉ debug_paths -> f ∉ debug_files.
Proof. unfold debug_files, debug_paths. destruct (allow_gsi_debug_sepolicy o); set_solver. Qed.

Lemma not_debug_by (P : string -> bool) f : forallb (fun g => negb (P g)) debug_paths = true -> P f = true -> f ∉ debug_files.
Proof. intros Hall Hf. by apply not_debug, (not_in_by P). Qed.

(** Keys of Verified Boot in a ramdisk: the ones named are removed. *)
Lemma removed_key_spec f : match removed_key o f with
  | Some b => (starts_with "BOOT/RAMDISK/avb/" f || starts_with "BOOT/RAMDISK/first_stage_ramdisk/avb/" f) = true /\
              existsb (fun k => ends_with k f) (default [] (remove_avb_public_keys o)) = b /\ always_copied f = true
  | None => ((starts_with "BOOT/RAMDISK/avb/" f || starts_with "BOOT/RAMDISK/first_stage_ramdisk/avb/" f) &&
             existsb (fun k => ends_with k f) (default [] (remove_avb_public_keys o))) = false /\
            (always_copied f = true <-> f ∈ policy_files)
  end.
Proof.
  unfold removed_key, always_copied. destruct (remove_avb_public_keys o) as [[|k ks]|]; cbn [default].
  - rewrite andb_false_r. split; [done|]. apply bool_decide_eq_true.
  - destruct (_ || _); [done|]. split; [done|]. apply bool_decide_eq_true.
  - rewrite andb_false_r. split; [done|]. apply bool_decide_eq_true.
Qed.

Lemma eqb_by (P : string -> bool) f g : P g = false -> P f = true -> String.eqb f g = false.
Proof. intros Hg Hf. apply String.eqb_neq. intros ->. by rewrite Hg in Hf. Qed.

Lemma left_out_true f : f ∈ ["META/misc_info.txt"; "META/vbmeta_digest.txt"; "META/care_map.pb"; "META/care_map.txt"; "META/apex_info.pb";
    embedded_key_path; "SIGNED_PREBUILTS/ap-ec-fw-signed.zip"] -> left_out f = true.
Proof. intros H0. unfold left_out. rewrite (bool_decide_eq_true_2 _ H0). by rewrite orb_true_r. Qed.

Lemma rest_left_out out e data new : left_out (filename e) = true -> new = [] -> rest_written out e data new.
Proof. unfold rest_written. by intros ->. Qed.

(** The names that are treated in a way of their own. *)
Definition own_names : list string :=
  system_other_keys ++ ["PREBUILT_IMAGES/pvmfw.img"; "VENDOR/firmware/ap-ec-fw.zip"; "VENDOR/etc/avf/microdroid/microdroid_vendor.img";
                        "SYSTEM_EXT/etc/vm/trusty_vm/desktop_trusty_signed.elf"].

Lemma rest_copied out e data new : left_out (filename e) = false -> filename e ∉ own_names ->
  new = (if bool_decide (filename e ∈ zip_names out) && negb (always_copied (filename e)) then [] else [with_data e data]) ->
  rest_written out e data new.
Proof.
  unfold rest_written, own_names. intros -> [Hs Ho]%not_elem_of_app Hn. rewrite bool_decide_eq_false_2 by done.
  rewrite !not_elem_of_cons in Ho. destruct Ho as (H1 & H2 & H3 & H4 & _).
  by rewrite !(proj2 (String.eqb_neq _ _)) by done.
Qed.

Lemma process_other_written out e data w new w' : filename e ∉ recovery_files ->
  process_other o z misc_info apex_keys out e data w = (Ok new, w') -> (filename e ∉ debug_files) /\ rest_written out e data new.
Proof.
  unfold process_other. intros Hrec Hr. set (f := filename e) in *. pose proof (removed_key_spec f) as Hrk.
  destruct (replace_ota_keys o && ends_with "/otacerts.zip" f) eqn:E1.
  { injection Hr as <- _. split; [apply (not_debug_by (ends_with "/otacerts.zip")); [done|by apply andb_true_iff in E1 as [_ ?]]|].
    apply rest_left_out; [|done]. unfold left_out. fold f. rewrite E1. by rewrite orb_true_r. }
  destruct (String.eqb_spec f "META/misc_info.txt") as [E2|E2].
  { injection Hr as <- _. split; [by rewrite E2; apply not_debug, (bool_decide_unpack (_ ∉ _))|]. apply rest_left_out; [|done].
    fold f. rewrite E2. by apply left_out_true, (bool_decide_unpack (_ ∈ _)). }
  assert (forall l, f ∉ ["META/vbmeta_digest.txt"; "META/care_map.pb"; "META/care_map.txt"; "META/apex_info.pb"] -> f <> embedded_key_path ->
    f <> "SIGNED_PREBUILTS/ap-ec-fw-signed.zip" ->
    ((starts_with "BOOT/RAMDISK/avb/" f || starts_with "BOOT/RAMDISK/first_stage_ramdisk/avb/" f) &&
      existsb (fun k => ends_with k f) (default [] (remove_avb_public_keys o))) = l -> left_out f = l) as Hlo.
  { intros l H4 H7 H9 <-. unfold left_out. rewrite E1, orb_false_r. rewrite (bool_decide_eq_false_2 (f ∈ recovery_files)) by done.
    rewrite bool_decide_eq_false_2; [done|]. rewrite !not_elem_of_cons in *. tauto. }
  destruct (removed_key o f) as [b|].
  { destruct Hrk as (Hpre & Hex & Hac). rewrite Hpre, Hex in Hlo. cbn [andb] in Hlo.
    set (P := fun g => starts_with "BOOT/RAMDISK/avb/" g || starts_with "BOOT/RAMDISK/first_stage_ramdisk/avb/" g).
    assert (f ∉ ["META/vbmeta_digest.txt"; "META/care_map.pb"; "META/care_map.txt"; "META/apex_info.pb"; embedded_key_path;
                 "SIGNED_PREBUILTS/ap-ec-fw-signed.zip"]) as Hn by (by apply (not_in_by P)).
    assert (left_out f = b) as Hb by (apply Hlo; [set_solver|set_solver|set_solver|done]).
    split; [by apply (not_debug_by P)|]. destruct b; injection Hr as <- _; [by apply rest_left_out|].
    apply rest_copied; [done|by apply (not_in_by P)|fold f; by rewrite Hac, andb_false_r]. }
  destruct Hrk as [Hrk Hac].
  case_bool_decide as E4.
  { injection Hr as <- _. split; [apply (not_debug_by (fun g => bool_decide (g ∈ ["META/vbmeta_digest.txt"; "META/care_map.pb"; "META/care_map.txt"; "META/apex_info.pb"])));
      [by vm_compute|by apply bool_decide_eq_true]|].
    apply rest_left_out; [|done]. apply left_out_true. fold f. set_solver. }
  case_bool_decide as E5.
  { fold system_other_keys in E5. apply system_other_entry_written in Hr. fold f in Hr.
    assert (f ∉ debug_paths ++ [embedded_key_path; "SIGNED_PREBUILTS/ap-ec-fw-signed.zip"]) as Hn.
    { apply (not_in_by (fun g => bool_decide (g ∈ system_other_keys))); [by vm_compute|by apply bool_decide_eq_true]. }
    split; [apply not_debug; set_solver|]. unfold rest_written. fold f.
    rewrite (Hlo false) by (done || set_solver). by rewrite bool_decide_eq_true_2. }
  fold system_other_keys in E5.
  destruct (String.eqb_spec f "PREBUILT_IMAGES/pvmfw.img") as [E6|E6].
  { apply pvmfw_entry_written in Hr. split; [by rewrite E6; apply not_debug, (bool_decide_unpack (_ ∉ _))|]. unfold rest_written. fold f.
    rewrite (Hlo false) by (done || by rewrite E6). rewrite bool_decide_eq_false_2 by done. by rewrite E6. }
  destruct (String.eqb_spec f embedded_key_path) as [E7|E7].
  { injection Hr as <- _. split; [by rewrite E7; apply not_debug, (bool_decide_unpack (_ ∉ _))|]. apply rest_left_out; [|done].
    fold f. rewrite E7. by apply left_out_true, (bool_decide_unpack (_ ∈ _)). }
  destruct (String.eqb_spec f "VENDOR/firmware/ap-ec-fw.zip") as [E8|E8].
  { injection Hr as <- _. split; [by rewrite E8; apply not_debug, (bool_decide_unpack (_ ∉ _))|]. unfold rest_written. fold f.
    rewrite (Hlo false) by (done || by rewrite E8). rewrite bool_decide_eq_false_2 by done. rewrite (proj2 (String.eqb_neq _ _) E6), E8.
    cbn. unfold zip_read. by destruct (zip_entry z _). }
  destruct (String.eqb_spec f "SIGNED_PREBUILTS/ap-ec-fw-signed.zip") as [E9|E9].
  { injection Hr as <- _. split; [by rewrite E9; apply not_debug, (bool_decide_unpack (_ ∉ _))|]. apply rest_left_out; [|done].
    fold f. rewrite E9. by apply left_out_true, (bool_decide_unpack (_ ∈ _)). }
  specialize (Hlo false E4 E7 E9 Hrk). case_bool_decide as E10; [done|]. case_bool_decide as E11.
  { destruct (allow_gsi_debug_sepolicy o) eqn:Ea; [|done]. injection Hr as <- _. split; [unfold debug_files; rewrite Ea; set_solver|].
    fold policy_files in E11. apply rest_copied; [done| |fold f; by rewrite (proj2 Hac E11), andb_false_r].
    apply (not_in_by (fun g => bool_decide (g ∈ policy_files)));
      [by vm_compute|by apply bool_decide_eq_true]. }
  split; [apply not_debug; unfold debug_paths; set_solver|]. unfold rest_written. fold f. rewrite Hlo, bool_decide_eq_false_2 by done.
  rewrite (proj2 (String.eqb_neq _ _) E6), (proj2 (String.eqb_neq _ _) E8).
  destruct (String.eqb f "VENDOR/etc/avf/microdroid/microdroid_vendor.img"); [by apply resigned_entry_written in Hr|].
  destruct (String.eqb f "SYSTEM_EXT/etc/vm/trusty_vm/desktop_trusty_signed.elf").
  { step Hr key s1 Hk. apply io_pure_ok in Hk as [Hk ->]. exists key. split; [by destruct (od_get _ _); simplify_eq/=|].
    by apply resigned_entry_written in Hr. }
  fold policy_files in E11. injection Hr as <- _. fold f. destruct (always_copied f); [by destruct E11; apply Hac|]. by rewrite andb_true_r.
Qed.

Lemma process_entry_written out e w new w' : process out e w = (Ok new, w') -> entry_written out e new.
Proof.
  unfold process_entry, entry_written. cbv zeta. fold (image_file (filename e)). destruct (image_file (filename e)); [by intros [= <- _]|].
  intros ([[is_apk c] skipped] & s1 & [Hi ->]%io_pure_ok & Hr)%io_bind_ok. step Hr data s2 Hd. apply io_pure_ok in Hd as [Hd ->].
  exists is_apk, c, skipped, data. split; [done|]. split; [done|]. destruct is_apk; cbn [andb] in Hr.
  { destruct skipped; cbn [andb] in Hr; [by injection Hr as <- _|]. unfold sign_apk_entry in Hr.
    step Hr key s3 Hk. apply io_pure_ok in Hk as [Hk ->]. unfold of_option in Hk. destruct (od_get _ apk_keys) as [key'|]; [|done].
    injection Hk as ->. exists key. destruct (special key); [injection Hr as <- _; by exists data|].
    step Hr pw s4 Hpw. apply io_pure_ok in Hpw as [Hpw ->]. step Hr signed s5 Hs.
    injection Hr as <- _. exists signed. split; [done|]. split; [done|]. exists pw. eexists. split; [by destruct (od_get key key_passwords); simplify_eq/=|].
    by rewrite Hs. }
  destruct (IsApexFile (filename e)).
  { unfold sign_apex_entry in Hr. step Hr k s3 Hk. apply io_pure_ok in Hk as [Hk ->]. unfold of_option in Hk.
    destruct (od_get _ apex_keys) as [k'|]; [|done]. injection Hk as ->. exists k. split; [done|].
    destruct (_ || _); [by injection Hr as <- _|]. step Hr tool s4 Ht. apply io_pure_ok in Ht as [Ht ->].
    step Hr signed s5 Hs. injection Hr as <- _. exists signed. split; [done|]. exists tool. eexists.
    destruct (info_text misc_info "avb_avbtool") as [[t|]|]; cbn in Ht; [|done|done]. injection Ht as ->. split; [done|]. by rewrite Hs. }
  step Hr is_ota s3 Ho. apply io_pure_ok in Ho as [Ho ->]. unfold other_written. destruct is_ota.
  { split; [|exists true; split; [done|by eapply resign_ota_entry_written]].
    destruct (ends_with ".zip" (filename e)) eqn:Ez; [|done]. by apply (not_debug_by (ends_with ".zip")). }
  destruct (IsBuildPropFile (filename e)) eqn:Eb.
  { step Hr data' s4 Hd'. apply io_pure_ok in Hd' as [Hd' ->]. injection Hr as <- _.
    split; [by apply (not_debug_by IsBuildPropFile); [vm_compute|]|]. exists false. split; [done|]. by exists data'. }
  destruct (ends_with "mac_permissions.xml" (filename e)) eqn:Em.
  { step Hr data' s4 Hd'. injection Hr as <- _. split; [by apply (not_debug_by (ends_with "mac_permissions.xml"))|].
    exists false. split; [done|]. exists w, s4, data'. done. }
  case_bool_decide as Er.
  { injection Hr as <- _. split; [apply (not_debug_by (fun g => bool_decide (g ∈ recovery_files))); [by vm_compute|by apply bool_decide_eq_true]|].
    exists false. split; [done|]. apply rest_left_out; [|done]. unfold left_out. by rewrite (bool_decide_eq_true_2 _ Er). }
  apply process_other_written in Hr as [H1 H2]; [|done]. split; [done|]. by exists false.
Qed.

(** Every entry in turn. *)
Lemma process_entries_written l out w out' w' :
  process_entries o ota z misc_info apk_keys apex_keys key_passwords platform_api_level codenames ext input_tmp out l w = (Ok out', w') ->
  exists news, out' = out ++ concat news /\ entries_written out l news.
Proof.
  revert out w. induction l as [|e l IH]; intros out w; cbn [process_entries].
  - intros [= <- _]. exists []. by rewrite app_nil_r.
  - intros (new & s1 & He & Hr)%io_bind_ok. destruct (IH _ _ Hr) as (news & -> & Hn). exists (new :: news).
    split; [by rewrite <- app_assoc|]. split; [by eapply process_entry_written|done].
Qed.
End run.

(** ** What is written besides the entries of the input *)

(** The boot image, where the build has one, and the image of dtbo when misc_info.txt
    says there is one. *)
Definition kernel_written {W} `{SigningHost W} (misc_info : InfoDict) (boot : list ZipEntry) : Prop :=
  exists image dtbo w1 w2, bootable_image misc_info w1 = (Ok image, w2) /\
    boot = (match image with Some d => [from_file "IMAGES/boot.img" d] | None => [] end) ++ dtbo /\
    (if info_is misc_info "has_dtbo" "true" then exists w3, dtbo_entries w2 = (Ok dtbo, w3) else dtbo = []).

Lemma RegenerateKernelPartitions_written {W} `{SigningHost W} misc_info w boot w' :
  RegenerateKernelPartitions misc_info w = (Ok boot, w') -> kernel_written misc_info boot.
Proof.
  unfold RegenerateKernelPartitions, kernel_written. intros Hr. step Hr image w1 Hi. destruct (info_is misc_info "has_dtbo" "true").
  - step Hr dtbo w2 Hd. injection Hr as <- _. exists image, dtbo, w, w1. eauto.
  - injection Hr as <- _. exists image, [], w, w1. by rewrite app_nil_r.
Qed.

(** The certificate that stands for a key, after the mapping of keys. *)
Definition certificate (o : SignOptions) (k : string) : string := default k (od_get k (key_map o)) +:+ ".x509.pem".

Definition info_words (misc_info : InfoDict) (key : string) : list string :=
  match misc_info !! key with Some (IStr s) => split_ws s | _ => [] end.

Definition dev_key (misc_info : InfoDict) : string :=
  match misc_info !! "default_system_dev_certificate" with Some (IStr s) => s | _ => default_dev_key end.

(** The keys of the archive at a path: those of META/otakeys.txt or, if there are none,
    the development key, and the extra keys that are for recovery in the ramdisks that
    hold it, for OTA packages elsewhere. *)
Definition archived_keys (misc_info : InfoDict) (listed : list string) (path : string) : list string :=
  match listed with [] => [dev_key misc_info] | _ => listed end ++
  info_words misc_info (if existsb (fun d => starts_with d path) ["BOOT/"; "RECOVERY/"; "VENDOR_BOOT/"] then "extra_recovery_keys" else "extra_ota_keys").

(** The archives of certificates that verify OTA packages are made anew, and without
    keys listed the key of development in misc_info.txt becomes the one it is mapped to. *)
Definition otacerts_replaced {W} `{SigningHost W} (o : SignOptions) (z : tf_zip) (misc_info misc_info' : InfoDict)
    (otacerts : list ZipEntry) : Prop :=
  exists text listed, zip_read z "META/otakeys.txt" = Ok text /\ split_ws text = map (fun k => k +:+ ".x509.pem") listed /\
    misc_info' = (match od_get (dev_key misc_info) (key_map o), listed with
                 | Some k, [] => if String.eqb k (dev_key misc_info) then misc_info
                                 else <["default_system_dev_certificate" := IStr k]> misc_info
                 | _, _ => misc_info
                 end) /\
    Forall2 (fun path e => exists w0 w1 w2 data,
               let files := map (certificate o) (archived_keys misc_info listed path) in
               Forall (fun f => is_file f w0 = true) files /\
               zip_of_files files w1 = (Ok data, w2) /\ e = from_file path data)
      (filter (fun f => ends_with "/otacerts.zip" f = true) (zip_names z)) otacerts.

Lemma str_cut_end_app p s : p <> "" -> str_cut_end (String.length p) (s +:+ p) = s.
Proof.
  intros Hp. unfold str_cut_end. destruct (String.length p) eqn:E; [by destruct p|]. rewrite <- E, str_app_len, Nat.add_sub. clear E.
  induction s as [|c s IH]; [by destruct p|]. change (String c s +:+ p) with (String c (s +:+ p)). cbn. by rewrite IH.
Qed.

Lemma ota_key_stems keylist stems : mapM ota_key_stem keylist = Ok stems -> keylist = map (fun k => k +:+ ".x509.pem") stems.
Proof.
  intros Hs%mapM_Forall2. induction Hs as [|k s l l' Hk _ IH]; [done|]. cbn [map]. f_equal; [|done].
  unfold ota_key_stem in Hk. destruct (ends_with ".x509.pem" k) eqn:E; [|done]. apply ends_with_app in E as [q ->].
  rewrite (str_cut_end_app ".x509.pem" q) in Hk by done. by injection Hk as ->.
Qed.

Lemma info_keys_words o misc_info key l : info_keys o misc_info key = Ok l -> l = map (certificate o) (info_words misc_info key).
Proof.
  unfold info_keys, info_words. destruct (misc_info !! key) as [[s|n|l'|f|p]|]; try (case_match; [done|]); by intros [= <-].
Qed.

Lemma ota_keys_written o is_file text misc_info k misc_info' : ota_keys o is_file text misc_info = Ok (k, misc_info') ->
  exists t listed, text = Ok t /\ split_ws t = map (fun k => k +:+ ".x509.pem") listed /\
    misc_info' = (match od_get (dev_key misc_info) (key_map o), listed with
                  | Some k, [] => if String.eqb k (dev_key misc_info) then misc_info
                                  else <["default_system_dev_certificate" := IStr k]> misc_info
                  | _, _ => misc_info
                  end) /\
    forall path, otacerts_keys k path = map (certificate o) (archived_keys misc_info listed path) /\
                 Forall (fun f => is_file f = true) (otacerts_keys k path).
Proof.
  unfold ota_keys. intros (keylist & Ht & Hk)%bind_ok. apply bind_ok in Hk as (extra_ota & Hx & Hk).
  destruct (forallb is_file extra_ota) eqn:Eo; [|done]. cbn [negb] in Hk. apply bind_ok in Hk as (extra_recovery & Hy & Hk).
  destruct (forallb is_file extra_recovery) eqn:Er; [|done]. cbn [negb] in Hk. apply bind_ok in Hk as (stems & Hs & Hk).
  apply bind_ok in Hk as ([keys misc] & Hd & Hk). destruct (forallb is_file keys) eqn:Ek; [|done]. injection Hk as <- <-.
  apply info_keys_words in Hx as ->. apply info_keys_words in Hy as ->. apply ota_key_stems in Hs as Hs'.
  assert (exists t, text = Ok t /\ split_ws t = keylist) as (t & -> & Hsplit).
  { destruct text as [t|e]; [injection Ht as <-; by exists t|by destruct e]. }
  exists t, stems. split; [done|]. split; [by rewrite Hsplit|].
  assert (keys = map (certificate o) (match stems with [] => [dev_key misc_info] | _ => stems end) /\
    misc = match od_get (dev_key misc_info) (key_map o), stems with
           | Some k, [] => if String.eqb k (dev_key misc_info) then misc_info
                           else <["default_system_dev_certificate" := IStr k]> misc_info
           | _, _ => misc_info
           end) as [-> ->].
  { destruct stems as [|s l]; [|injection Hd as <- <-; split; [done|by case_match]].
    apply bind_ok in Hd as (devkey & Hdev & Hd). assert (devkey = dev_key misc_info) as ->.
    { unfold dev_key. destruct (misc_info !! _) as [[]|]; by simplify_eq/=. }
    injection Hd as <- <-. unfold certificate, mapped. split; [done|]. destruct (od_get _ _); cbn; [done|]. by rewrite String.eqb_refl. }
  split; [done|]. intros path. unfold otacerts_keys, archived_keys. cbn [mapped_keys extra_ota_keys extra_recovery_keys existsb].
  rewrite orb_false_r, orb_assoc, map_app, Forall_app.
  assert (forall l, forallb is_file l = true -> Forall (fun f => is_file f = true) l) as Hall.
  { intros l Hl. apply Forall_forall. intros f Hf%list_elem_of_In. by apply (proj1 (forallb_forall _ _) Hl). }
  split; [f_equal; by destruct (_ || _)|]. split; [by apply Hall|]. destruct (_ || _); by apply Hall.
Qed.

Lemma write_otacerts_written {W} `{SigningHost W} k l w entries w' : write_otacerts k l w = (Ok entries, w') ->
  Forall2 (fun path e => exists w1 w2 data, zip_of_files (otacerts_keys k path) w1 = (Ok data, w2) /\ e = from_file path data) l entries.
Proof.
  revert w entries. induction l as [|f l IH]; intros w entries Hr; cbn [write_otacerts] in Hr; [by injection Hr as <- _|].
  step Hr data w1 Hd. step Hr rest w2 Hrest. injection Hr as <- <-. constructor; [by exists w, w1, data|by eapply IH].
Qed.

Lemma ReplaceOtaKeys_written {W} `{SigningHost W} o z misc_info w otacerts misc_info' w' :
  ReplaceOtaKeys o z misc_info w = (Ok (otacerts, misc_info'), w') -> otacerts_replaced o z misc_info misc_info' otacerts.
Proof.
  unfold ReplaceOtaKeys. intros ([k misc] & w1 & [= Hk _] & Hr)%io_bind_ok. step Hr entries w2 Hw. injection Hr as <- <- _.
  apply ota_keys_written in Hk as (text & listed & Ht & Hs & -> & Hkeys). exists text, listed. do 3 (split; [done|]).
  apply write_otacerts_written in Hw. eapply Forall2_impl; [exact Hw|]. intros path e (w3 & w4 & data & Hz & ->). destruct (Hkeys path) as [Hp Hf].
  exists w, w3, w4, data. cbv zeta. rewrite <- Hp. done.
Qed.

(** C25: A run that signs target files to the end writes a package in which every entry of the
    input has its due: an APK or an APEX is signed with the keys found for it, in its
    place and under its name, or copied unchanged if its keys stand for no signing or
    its path is one to skip; of a property file the tags are rewritten; update packages
    are signed again, and images that embed keys; images that are built anew, files of
    the recovery patch, digests, care maps and keys that are replaced or removed are left
    out; any other entry is copied unchanged, once.  Nothing is written but what the
    entries of the input give in turn, before them the boot image and dtbo as they were
    built, and after them the archives of certificates for OTA packages where these are
    replaced, each made of the mapped keys of META/otakeys.txt (the development key if
    it lists none) and the extra keys of its place, and misc_info.txt.  Files for
    debugging are not among the input.  The public key of system_other is dropped when no
    key was given to replace it. *)
Theorem target_files_signed {W} `{SigningHost W} (boot_prop : string -> RamdiskFormat -> result (option string)) (sha256_hex : string -> string)
    (object_text : InfoValue -> string) (o : SignOptions) (ota : OtaSigningOptions) (opts : list KeyMapping) (input_tmp output : string)
    (z : tf_zip) (w w' : W) (signed : SignedFiles) :
  sign_target_files boot_prop sha256_hex object_text o ota opts input_tmp output z w = (Ok signed, w') ->
  exists misc_info0 misc_info1 misc_info dev_certificate o' keys key_passwords level codename codenames boot news otacerts old,
    LoadInfoDict boot_prop sha256_hex (fun p => path_exists p w) (zip_contents z) None = Ok misc_info0 /\
    info_text misc_info0 "default_system_dev_certificate" = Ok dev_certificate /\
    BuildKeyMap o dev_certificate opts = Ok o' /\ signing_keys o' z = Ok keys /\
    (exists w1 w2, GetKeyPasswords o' (keys_to_unlock keys) w1 = (Ok key_passwords, w2)) /\
    ReplaceAvbSigningKeys o' misc_info0 = Ok misc_info1 /\
    (if info_is misc_info1 "avb_enable" "true" then RewriteAvbProps o' misc_info1 else Ok misc_info1) = Ok misc_info /\
    GetApiLevelAndCodename z = Ok (level, codename) /\ GetCodenameToApiLevelMap z = Ok codenames /\
    kernel_written misc_info boot /\
    entries_written o' (sign_package_key ota dev_certificate) z misc_info (sk_apk_keys keys) (sk_apex_keys keys) key_passwords level codenames
      (sk_compressed_extension keys) input_tmp boot z news /\
    zip_read z "META/misc_info.txt" = Ok old /\
    sf_entries signed = boot ++ concat news ++ otacerts ++ [from_file "META/misc_info.txt" (misc_info_text object_text (sf_misc_info signed) old)] /\
    (if replace_ota_keys o' then otacerts_replaced o' z misc_info (sf_misc_info signed) otacerts
     else otacerts = [] /\ sf_misc_info signed = misc_info).
Proof.
  unfold sign_target_files. intros (misc0 & w1 & [= Hm _] & Hr)%io_bind_ok.
  apply io_bind_ok in Hr as (dev & w2 & [Hd _]%io_pure_ok & Hr). apply io_bind_ok in Hr as (o' & w3 & [Ho _]%io_pure_ok & Hr).
  apply io_bind_ok in Hr as (keys & w4 & [Hk _]%io_pure_ok & Hr). apply io_bind_ok in Hr as (pws & w5 & Hpw & Hr).
  apply io_bind_ok in Hr as ([level codename] & w6 & [Hl _]%io_pure_ok & Hr). apply io_bind_ok in Hr as (codenames & w7 & [Hc _]%io_pure_ok & Hr).
  apply io_bind_ok in Hr as ([entries misc_out] & w8 & Hp & [= <- _]). unfold ProcessTargetFiles in Hp.
  apply io_bind_ok in Hp as (infos & w9 & _ & Hp). apply io_bind_ok in Hp as (misc1 & w10 & [Hm1 _]%io_pure_ok & Hp).
  apply io_bind_ok in Hp as (misc2 & w11 & [Hm2 _]%io_pure_ok & Hp).
  apply io_bind_ok in Hp as (boot & w12 & Hboot & Hp). apply io_bind_ok in Hp as (out & w13 & Hout & Hp).
  apply io_bind_ok in Hp as ([otacerts misc3] & w14 & Hota & Hp). apply io_bind_ok in Hp as (old & w15 & [Hold _]%io_pure_ok & [= <- <- _]).
  apply process_entries_written in Hout as (news & -> & Hn). apply RegenerateKernelPartitions_written in Hboot.
  exists misc0, misc1, misc2, dev, o', keys, pws, level, codename, codenames, boot, news, otacerts, old.
  do 4 (split; [done|]). split; [eauto|]. do 7 (split; [done|]). cbn [sf_entries sf_misc_info].
  split; [by rewrite <- app_assoc|]. destruct (replace_ota_keys o'); [by eapply ReplaceOtaKeys_written|by injection Hota as <- <- _].
Qed.

(** * Witness *)

(** A host that signs by writing the key after the data. *)
Definition plain_host : Host unit := {|
  run_process := fun _ => io_ret (0, "");
  path_exists := fun _ _ => true;
  remove_file := fun _ => io_ret tt;
  rename_file := fun _ _ => io_ret tt;
  make_temp_dir := io_ret "/tmp/dir";
  make_temp_file := fun _ _ => io_ret "/tmp/file";
  remove_tree := fun _ _ => io_ret tt;
  copy_tree := fun _ _ => io_ret tt;
  read_lines := fun _ => io_ret [];
  write_lines := fun _ _ => io_ret tt;
  read_bytes := fun _ => io_ret []
|}.
Definition plain_signer : SigningHost unit := {|
  signing_host := plain_host;
  is_file := fun _ _ => true;
  read_data := fun _ => io_ret "data";
  write_data := fun _ _ => io_ret tt;
  gunzip := fun s => Ok s;
  gzip := fun s => s;
  zip_of_files := fun l => io_ret (str_join " " l);
  SignFile := fun data key _ _ _ => io_ret (data +:+ " signed with " +:+ key);
  SignApex := fun _ data payload container _ _ _ _ _ => io_ret (data +:+ " signed with " +:+ payload +:+ " and " +:+ container);
  ask_passwords := fun l => io_ret [];
  certificate16 := fun _ => io_ret None;
  signer_signatures := fun _ => Ok [];
  package_payload := fun _ => Ok None;
  payload_manifest := fun _ => Ok (mkManifest 0 []);
  ota_from_raw_img := fun _ => io_ret tt;
  SignOtaPackage := fun _ _ => io_ret tt;
  microdroid_vbmeta_key := fun _ _ => io_ret None;
  bootable_image := fun _ => io_ret (Some "boot");
  dtbo_entries := io_ret []
|}.

Definition sample_files : tf_zip :=
  sample_zip ++
  [mkZipEntry "META/misc_info.txt" false (str_join (String newline "") ["recovery_api_version=3"; "fstab_version=2"; "avb_avbtool=avbtool"; "default_system_dev_certificate=sec/testkey"]);
   mkZipEntry "SYSTEM/build.prop" false
     (str_join (String newline "") ["ro.build.version.sdk=35"; "ro.build.version.codename=REL"; "ro.build.version.all_codenames=REL"; "ro.build.tags=test-keys"]);
   mkZipEntry "META/otakeys.txt" false "sec/testkey.x509.pem"; mkZipEntry "SYSTEM/etc/security/otacerts.zip" false "old";
   mkZipEntry "PRODUCT/etc/security/avb/system_other.avbpubkey" false "key"; mkZipEntry "SYSTEM/bin/sh" false "shell";
   mkZipEntry "IMAGES/system.img" false "image"].

Definition replacing_options : SignOptions :=
  mkSignOptions [("com.a.apex", "vendor/apexkey")] [] [] [] true None ["-test-keys"; "-dev-keys"; "+release-keys"] [] [] [] false None None ".x509.pem" ".pk8".

Definition sample_run : result SignedFiles * unit :=
  @sign_target_files unit plain_signer (fun _ _ => Ok None) (fun s => s) (fun _ => "") replacing_options
    (mkOtaSigningOptions None None [] None None) [DefaultMapping "vendor"]
    "/tmp/in" "out.zip" sample_files tt.

Lemma target_files_signed_witness :
  exists signed o' keys, fst sample_run = Ok signed /\ signing_keys o' sample_files = Ok keys /\
  map filename (sf_entries signed) =
    ["IMAGES/boot.img"; "META/apkcerts.txt"; "META/apexkeys.txt"; "SYSTEM/app/Foo.apk.gz"; "SYSTEM/apex/com.a.capex"; "PRODUCT/app/Pre.apk";
     "SYSTEM/build.prop"; "META/otakeys.txt"; "SYSTEM/bin/sh"; "SYSTEM/etc/security/otacerts.zip"; "META/misc_info.txt"] /\
  zip_read (sf_entries signed) "SYSTEM/bin/sh" = Ok "shell" /\
  zip_read (sf_entries signed) "SYSTEM/etc/security/otacerts.zip" = Ok "vendor/releasekey.x509.pem".
Proof.
  assert (Hok : is_ok (fst sample_run) = true) by (vm_compute; reflexivity).
  assert (Hnames : match fst sample_run with Ok s => map filename (sf_entries s) | Raise _ => [] end =
    ["IMAGES/boot.img"; "META/apkcerts.txt"; "META/apexkeys.txt"; "SYSTEM/app/Foo.apk.gz"; "SYSTEM/apex/com.a.capex"; "PRODUCT/app/Pre.apk";
     "SYSTEM/build.prop"; "META/otakeys.txt"; "SYSTEM/bin/sh"; "SYSTEM/etc/security/otacerts.zip"; "META/misc_info.txt"]) by (vm_compute; reflexivity).
  assert (Hdata : match fst sample_run with
                  | Ok s => zip_read (sf_entries s) "SYSTEM/bin/sh" = Ok "shell" /\
                            zip_read (sf_entries s) "SYSTEM/etc/security/otacerts.zip" = Ok "vendor/releasekey.x509.pem"
                  | Raise _ => False
                  end) by (vm_compute; split; reflexivity).
  destruct sample_run as [[signed|e] w'] eqn:E; [|discriminate Hok]. cbn [fst] in Hnames, Hdata. unfold sample_run in E.
  destruct (@target_files_signed unit plain_signer _ _ _ _ _ _ _ _ _ _ _ _ E)
    as (m0 & m1 & m2 & dev & o' & keys & pws & level & codename & codenames & boot & news & otacerts & old & _ & _ & _ & Hkeys & _).
  exists signed, o', keys. split; [reflexivity|]. split; [exact Hkeys|]. split; [exact Hnames|exact Hdata].
Defined.
