(* ===== verification/EventLogTags.v ===== *)
(** tools/event_log_tags.py, the reader of event-log-tags files, and
    tools/merge-event-log-tags.py, which merges several of them.  The text of an
    error or a warning is not modelled, only where it is reported. *)

From S2P Require Export PyStr PyColl.

#[local] Open Scope string_scope.
#[local] Open Scope list_scope.
#[local] Open Scope Z_scope.

(** * Files of tags *)

Record Tag := mkTag { tagnum : Z; tagname : string; description : option string; tag_filename : string; tag_linenum : Z }.

Abbreviation reports := (list (string * Z)).

Record TagFile := mkTagFile {
  tf_errors : reports;
  tf_warnings : reports;
  tf_tags : list Tag;
  tf_options : list (string * list string)
}.

Definition AddError (filename : string) (linenum : Z) (f : TagFile) : TagFile :=
  mkTagFile (tf_errors f ++ [(filename, linenum)]) (tf_warnings f) (tf_tags f) (tf_options f).
Definition AddWarning (filename : string) (linenum : Z) (f : TagFile) : TagFile :=
  mkTagFile (tf_errors f) (tf_warnings f ++ [(filename, linenum)]) (tf_tags f) (tf_options f).
Definition add_tag (t : Tag) (f : TagFile) : TagFile :=
  mkTagFile (tf_errors f) (tf_warnings f) (tf_tags f ++ [t]) (tf_options f).
Definition set_option (name : string) (value : list string) (f : TagFile) : TagFile :=
  mkTagFile (tf_errors f) (tf_warnings f) (tf_tags f) (od_set name value (tf_options f)).

(** [re.sub('#.*$', '', line)] of a line. *)
Fixpoint strip_comment (line : string) : string :=
  match line with
  | "" => ""
  | String c s => if Ascii.eqb c "#" then "" else String c (strip_comment s)
  end.

(** [re.split(r"\s+", line, 2)] of a line without white space at its ends. *)
Definition split_twice (line : string) : list string :=
  let '(a, r) := word_rest line in
  if String.eqb (lstrip r) "" then [a]
  else let '(b, r) := word_rest (lstrip r) in
       if String.eqb (lstrip r) "" then [a; b] else [a; b; lstrip r].

(** [re.match(r"\(.*\)\s*$", description)] of a text that ends in no white
    space. *)
Definition parenthesized (d : string) : bool := starts_with "(" d && ends_with ")" (str_drop 1 d).

Definition read_tag_line (filename : string) (f : TagFile) (nl : Z * string) : TagFile :=
  let '(linenum, line) := nl in
  let line := strip (strip_comment line) in
  if negb (str_true line) then f
  else
    match split_twice line with
    | first :: name :: rest =>
        if String.eqb first "option" then set_option name rest f
        else
          match py_int first with
          | Raise _ => AddError filename linenum f
          | Ok tag =>
              let description := head rest in
              match description with
              | Some d => if str_true d && negb (parenthesized d) then AddError filename linenum f
                          else add_tag (mkTag tag name description filename linenum) f
              | None => add_tag (mkTag tag name description filename linenum) f
              end
          end
    | _ => AddError filename linenum f
    end.

(** The lines of a file with their numbers. *)
Definition enumerate_lines (lines : list string) : list (Z * string) := zip (zrange 1 (1 + Z.of_nat (length lines))) lines.

(** [None]: the file cannot be opened. *)
Definition new_TagFile (filename : string) (content : option string) : TagFile :=
  let empty := mkTagFile [] [] [] [] in
  match content with
  | None => AddError filename 0 empty
  | Some c => fold_left (read_tag_line filename) (enumerate_lines (readlines c)) empty
  end.

Definition BooleanFromString (s : string) : result bool :=
  let s := str_lower s in
  if bool_decide (s ∈ ["true"; "t"; "1"; "on"; "yes"; "y"]) then Ok true
  else if bool_decide (s ∈ ["false"; "f"; "0"; "off"; "no"; "n"]) then Ok false
  else Raise ValueError.

(** * Merging *)

Record MergeState := mkMerge {
  by_tagname : list (string * Tag);
  by_tagnum : list (Z * Tag);
  merge_errors : reports;
  merge_warnings : reports
}.

(** A tag against those seen so far; the reports go to its file. *)
Definition merge_tag (st : MergeState * TagFile) (t : Tag) : MergeState * TagFile :=
  let '(m, f) := st in
  match od_get (tagname t) (by_tagname m) with
  | Some orig =>
      if (tagnum t =? tagnum orig) && bool_decide (description t = description orig)
      then (m, AddWarning (tag_filename t) (tag_linenum t) f)
      else (m, AddError (tag_filename t) (tag_linenum t) f)
  | None =>
      match od_get (tagnum t) (by_tagnum m) with
      | Some orig =>
          if negb (String.eqb (tagname t) (tagname orig)) then (m, AddError (tag_filename t) (tag_linenum t) f)
          else (mkMerge (od_set (tagname t) t (by_tagname m)) (od_set (tagnum t) t (by_tagnum m)) (merge_errors m) (merge_warnings m), f)
      | None =>
          (mkMerge (od_set (tagname t) t (by_tagname m)) (od_set (tagnum t) t (by_tagnum m)) (merge_errors m) (merge_warnings m), f)
      end
  end.

Definition merge_file (m : MergeState) (f : TagFile) : MergeState :=
  let '(m, f) := fold_left merge_tag (tf_tags f) (m, f) in
  mkMerge (by_tagname m) (by_tagnum m) (merge_errors m ++ tf_errors f) (merge_warnings m ++ tf_warnings f).

Definition merge_files (files : list TagFile) : MergeState := fold_left merge_file files (mkMerge [] [] [] []).

(** [sorted(by_tagnum.items())]: the numbers are distinct. *)
Definition sorted_tags (d : list (Z * Tag)) : list Tag := map snd (sort_by (fun a b => a.1 <=? b.1) d).

Definition tag_line (t : Tag) : string :=
  py_str (tagnum t) +:+ " " +:+ tagname t +:+
  match description t with Some d => if str_true d then " " +:+ d else "" | None => "" end.

(** The script on the files of its command line: the text it writes, with the
    warnings it prints. *)
Definition merge_event_log_tags (files : list (string * option string)) : result (string * reports) :=
  let m := merge_files (map (fun '(fn, content) => new_TagFile fn content) files) in
  match merge_errors m with
  | _ :: _ => Raise (SystemExit 1)
  | [] => Ok (str_join "" (map (fun t => end_line (tag_line t)) (sorted_tags (by_tagnum m))), merge_warnings m)
  end.
