(* ===== verification/EventLogTagsProps.v ===== *)
(** Merged event log tags: no conflict goes unreported, and the file written
    reads back. *)

From S2P Require Export EventLogTags.

#[local] Open Scope string_scope.
#[local] Open Scope list_scope.
#[local] Open Scope Z_scope.

(** * Conflicts *)

Definition tag_key (t : Tag) : Z * string * option string := (tagnum t, tagname t, description t).

(** One name for one number, and one description. *)
Definition compatible (t o : Tag) : Prop :=
  (tagname t = tagname o <-> tagnum t = tagnum o) /\ (tagname t = tagname o -> description t = description o).

Definition all_compatible (ts : list Tag) : Prop := forall t o, t ∈ ts -> o ∈ ts -> compatible t o.

Lemma compatible_refl t : compatible t t.
Proof. done. Qed.

Lemma compatible_sym t o : compatible t o -> compatible o t.
Proof. intros [[H1 H2] H3]. split; [split; intros; symmetry; by (apply H1 || apply H2) | intros; symmetry; by apply H3]. Qed.

Lemma compatible_key t t' o : tag_key t = tag_key t' -> compatible t' o -> compatible t o.
Proof. unfold tag_key, compatible. intros [= -> -> ->]. done. Qed.

Lemma all_compatible_snoc ts t : all_compatible (ts ++ [t]) <-> all_compatible ts /\ forall o, o ∈ ts -> compatible t o.
Proof.
  split.
  - intros H. split; [intros a b Ha Hb | intros o Ho]; apply H; apply elem_of_app; auto; right; by apply list_elem_of_singleton.
  - intros [H Ht] a b [Ha|Ha%list_elem_of_singleton]%elem_of_app [Hb|Hb%list_elem_of_singleton]%elem_of_app; subst.
    + by apply H.
    + by apply compatible_sym, Ht.
    + by apply Ht.
    + apply compatible_refl.
Qed.

(** ** The state after the tags [seen] *)

Record merged (seen : list Tag) (m : MergeState) : Prop := {
  mg_seen t : t ∈ seen -> exists o, od_get (tagname t) (by_tagname m) = Some o /\ tag_key o = tag_key t;
  mg_name n o : od_get n (by_tagname m) = Some o -> tagname o = n /\ o ∈ seen;
  mg_num k o : od_get k (by_tagnum m) = Some o <-> tagnum o = k /\ od_get (tagname o) (by_tagname m) = Some o;
  mg_keys : NoDup (od_keys (by_tagnum m));
  mg_compatible : all_compatible seen
}.

(** Nothing, the tag being seen already; a report; or a new tag. *)
Lemma merge_tag_step seen m f t : merged seen m ->
  (exists m' w, merge_tag (m, f) t = (m', mkTagFile (tf_errors f) w (tf_tags f) (tf_options f)) /\ merged (seen ++ [t]) m' /\
     merge_errors m' = merge_errors m) \/
  (exists f' e, merge_tag (m, f) t = (m, f') /\ tf_errors f' = tf_errors f ++ [e] /\ exists o, o ∈ seen /\ ~ compatible t o).
Proof.
  intros Hm. unfold merge_tag. destruct (od_get (tagname t) (by_tagname m)) as [o|] eqn:En.
  - destruct (mg_name _ _ Hm _ _ En) as [Hn Ho].
    destruct ((tagnum t =? tagnum o) && bool_decide (description t = description o)) eqn:Eb.
    + left. exists m. eexists. split; [done|]. split; [|done]. apply andb_true_iff in Eb as [Ek%Z.eqb_eq Ed%bool_decide_eq_true].
      assert (Hkey : tag_key t = tag_key o) by (unfold tag_key; congruence). destruct Hm as [H1 H2 H3 H4 H5]. split; [| |done|done|].
      * intros t' [Ht'|Ht'%list_elem_of_singleton]%elem_of_app; [by apply H1 | subst t'; by exists o].
      * intros n o' Hno. destruct (H2 n o' Hno) as [? ?]. split; [done | apply elem_of_app; by left].
      * apply all_compatible_snoc. split; [done|]. intros o' Ho'. by apply (compatible_key t o), H5.
    + right. eexists _, _. split; [done|]. split; [done|]. exists o. split; [done|]. intros [[Hc _] Hd].
      rewrite (proj2 (Z.eqb_eq _ _)), bool_decide_true in Eb; [done|by apply Hd | by apply Hc].
  - assert (Hnew : forall o, o ∈ seen -> tagname o <> tagname t).
    { intros o Ho Heq. destruct (mg_seen _ _ Hm o Ho) as (o' & Ho' & _). congruence. }
    destruct (od_get (tagnum t) (by_tagnum m)) as [o|] eqn:Ek.
    + pose proof (proj1 (mg_num _ _ Hm _ _) Ek) as [Hk Hn]. destruct (mg_name _ _ Hm _ _ Hn) as [_ Ho].
      destruct (String.eqb_spec (tagname t) (tagname o)) as [Heq|Hne]; [by destruct (Hnew o Ho)|]. cbn [negb].
      right. eexists _, _. split; [done|]. split; [done|]. exists o. split; [done|]. intros [[_ Hc] _]. by apply Hne, Hc.
    + left. eexists _, (tf_warnings f). split; [by destruct f|]. split; [|done].
      assert (Hnum : forall o, o ∈ seen -> tagnum o <> tagnum t).
      { intros o Ho Heq. destruct (mg_seen _ _ Hm o Ho) as (o' & Ho' & Hkey). unfold tag_key in Hkey. simplify_eq.
        assert (Hx : od_get (tagnum t) (by_tagnum m) = Some o'); [|congruence]. apply (mg_num _ _ Hm). split; congruence. }
      destruct Hm as [H1 H2 H3 H4 H5]. split; cbn [by_tagname by_tagnum].
      * intros t' [Ht'|Ht'%list_elem_of_singleton]%elem_of_app.
        -- destruct (H1 t' Ht') as (o & Ho & Hkey). exists o. rewrite od_get_set, decide_False; [done|]. intros Heq. by apply (Hnew t').
        -- subst t'. exists t. by rewrite od_get_set, decide_True.
      * intros n o. rewrite od_get_set. destruct (decide (n = tagname t)) as [->|].
        -- intros [= <-]. split; [done | apply elem_of_app; right; by apply list_elem_of_singleton].
        -- intros Hno. destruct (H2 n o Hno). split; [done | apply elem_of_app; by left].
      * intros k o. rewrite !od_get_set. destruct (decide (k = tagnum t)) as [->|Hk].
        -- split; [intros [= <-]; by rewrite decide_True|]. intros [Hko Hno]. case_decide as Hdec; [done|].
           destruct (H2 _ _ Hno) as [_ Hin]. by destruct (Hnum o Hin).
        -- rewrite H3. split; intros [<- Hno]; (split; [done|]).
           ++ rewrite decide_False; [done|]. intros Heq. destruct (H2 _ _ Hno) as [_ Hin]. by destruct (Hnew o Hin).
           ++ case_decide; [simplify_eq|]; done.
      * by apply od_keys_set_NoDup.
      * apply all_compatible_snoc. split; [done|]. intros o Ho. split; [split; intros Heq; exfalso|intros Heq; exfalso].
        -- by apply (Hnew o).
        -- by apply (Hnum o).
        -- by apply (Hnew o).
Qed.

(** Reports stay. *)
Lemma merge_tags_errors ts m f : exists l, tf_errors (fold_left merge_tag ts (m, f)).2 = tf_errors f ++ l /\
  merge_errors (fold_left merge_tag ts (m, f)).1 = merge_errors m.
Proof.
  revert m f. induction ts as [|t ts IH]; intros m f; [exists []; by rewrite app_nil_r|]. cbn [fold_left].
  assert (H : exists l m' f', merge_tag (m, f) t = (m', f') /\ tf_errors f' = tf_errors f ++ l /\ merge_errors m' = merge_errors m).
  { unfold merge_tag. repeat case_match; eexists _, _, _; (split; [reflexivity|]); (split; [|reflexivity]); cbn;
      first [reflexivity | by rewrite app_nil_r]. }
  destruct H as (l & m' & f' & -> & Hf & Hm). destruct (IH m' f') as (l' & H1 & H2). exists (l ++ l').
  by rewrite H1, H2, Hf, Hm, app_assoc.
Qed.

Lemma merge_tags_spec ts seen m f : merged seen m ->
  (exists m' f', fold_left merge_tag ts (m, f) = (m', f') /\ tf_errors f' = tf_errors f /\ merged (seen ++ ts) m' /\
     merge_errors m' = merge_errors m) \/
  (tf_errors (fold_left merge_tag ts (m, f)).2 <> [] /\ ~ all_compatible (seen ++ ts)).
Proof.
  revert seen m f. induction ts as [|t ts IH]; intros seen m f Hm; cbn [fold_left].
  - left. exists m, f. by rewrite app_nil_r.
  - destruct (merge_tag_step seen m f t Hm) as [(m' & w & -> & Hm' & He)|(f' & e & -> & He & o & Ho & Hc)].
    + destruct (IH (seen ++ [t]) m' (mkTagFile (tf_errors f) w (tf_tags f) (tf_options f)) Hm') as [(m2 & f2 & -> & Hf2 & Hm2 & He2)|[Hbad Hc]].
      * left. exists m2, f2. rewrite <- app_assoc in Hm2. split_and!; try done. congruence.
      * right. rewrite <- app_assoc in Hc. done.
    + right. split.
      * destruct (merge_tags_errors ts m f') as (l & -> & _). rewrite He. by destruct (tf_errors f).
      * intros Hall. apply Hc, Hall; apply elem_of_app; [right; by left | by left].
Qed.

(** All tags of the files. *)
Definition input_tags (files : list TagFile) : list Tag := flat_map tf_tags files.

Lemma merge_file_spec seen m f : merged seen m -> merge_errors m = [] ->
  (tf_errors f = [] /\ merged (seen ++ tf_tags f) (merge_file m f) /\ merge_errors (merge_file m f) = []) \/
  (merge_errors (merge_file m f) <> [] /\ (tf_errors f <> [] \/ ~ all_compatible (seen ++ tf_tags f))).
Proof.
  intros Hm He. unfold merge_file. destruct (merge_tags_spec (tf_tags f) seen m f Hm) as [(m' & f' & -> & Hf & Hm' & He')|[Hbad Hc]].
  - cbn [merge_errors]. rewrite He', He, Hf. destruct (tf_errors f) as [|e l] eqn:Ef; [left|right; split; [done | by left]].
    split; [done|]. split; [|done]. by destruct Hm'; split.
  - right. destruct (fold_left merge_tag (tf_tags f) (m, f)) as [m' f'] eqn:Efold. cbn [merge_errors snd] in *. split; [|by right].
    destruct (merge_errors m'); [|done]. by destruct (tf_errors f').
Qed.

Lemma merge_file_errors m f : exists l, merge_errors (merge_file m f) = merge_errors m ++ l.
Proof.
  unfold merge_file. destruct (merge_tags_errors (tf_tags f) m f) as (l & H1 & H2).
  destruct (fold_left merge_tag (tf_tags f) (m, f)) as [m' f']. cbn [fst snd] in *. cbn [merge_errors]. rewrite H2, H1. by eexists.
Qed.

Definition clean_files (files : list TagFile) : Prop := Forall (fun f => tf_errors f = []) files.

Lemma merge_files_spec files : let m := merge_files files in
  (merge_errors m = [] /\ clean_files files /\ merged (input_tags files) m) \/
  (merge_errors m <> [] /\ ~ (clean_files files /\ all_compatible (input_tags files))).
Proof.
  unfold merge_files. induction files as [|f files IH] using rev_ind; cbn zeta.
  - left. split; [done|]. split; [constructor|]. split; cbn; try done.
    + intros t Ht. by apply not_elem_of_nil in Ht.
    + intros k o. split; [done | by intros [_ ?]].
    + constructor.
    + intros t o Ht. by apply not_elem_of_nil in Ht.
  - rewrite fold_left_app. cbn [fold_left]. unfold input_tags in *. rewrite flat_map_app. cbn [flat_map]. rewrite app_nil_r.
    unfold clean_files in *. rewrite Forall_app, Forall_singleton. destruct IH as [(He & Hcl & Hm)|[He Hbad]].
    + destruct (merge_file_spec _ _ f Hm He) as [(Hf & Hm' & He')|[He' Hbad]].
      * by left.
      * right. split; [done|]. intros [[_ Hf] Hc]. by destruct Hbad.
    + right. split.
      * destruct (merge_file_errors (fold_left merge_file files (mkMerge [] [] [] [])) f) as (l & ->).
        by destruct (merge_errors (fold_left merge_file files _)).
      * intros [[Hcl _] Hc]. apply Hbad. split; [done|]. intros t o Ht Ho. apply Hc; apply elem_of_app; by left.
Qed.

(** * What is read *)

Definition nosp (s : string) : bool := str_forallb (fun c => negb (is_space c)) s.

Lemma rstrip_append a t : rstrip (a +:+ t) = if String.eqb (rstrip t) "" then rstrip a else a +:+ rstrip t.
Proof.
  induction a as [|c a IH]; [by destruct (String.eqb_spec (rstrip t) "")|].
  change (String c a +:+ t) with (String c (a +:+ t)). cbn [rstrip]. rewrite IH.
  destruct (String.eqb_spec (rstrip t) ""); [done|]. replace (String.eqb (a +:+ rstrip t) "") with false; [by rewrite andb_false_r|].
  symmetry. apply String.eqb_neq. intros H. destruct a; [done | discriminate].
Qed.

Lemma rstrip_idem s : rstrip (rstrip s) = rstrip s.
Proof.
  induction s as [|c s IH]; [done|]. cbn [rstrip]. destruct (is_space c && String.eqb (rstrip s) "") eqn:E; [done|].
  cbn [rstrip]. by rewrite IH, E.
Qed.

Lemma lstrip_suffix s : exists p, s = p +:+ lstrip s.
Proof. induction s as [|c s [p IH]]; [by exists ""|]. cbn [lstrip]. destruct (is_space c); [|by exists ""]. exists (String c p). by rewrite IH at 1. Qed.

Lemma lstrip_idem s : lstrip (lstrip s) = lstrip s.
Proof. induction s as [|c s IH]; [done|]. cbn [lstrip]. destruct (is_space c) eqn:E; [done|]. cbn [lstrip]. by rewrite E. Qed.

Lemma rstrip_len s : (String.length (rstrip s) <= String.length s)%nat.
Proof. induction s as [|c s IH]; [done|]. cbn [rstrip]. case_match; cbn; lia. Qed.

Lemma str_app_inv_head (a b c : string) : a +:+ b = a +:+ c -> b = c.
Proof. induction a as [|x a IH]; [done|]. intros [= H]. by apply IH. Qed.

(** The end of a stripped text is stripped. *)
Lemma rstrip_suffix p t : rstrip (p +:+ t) = p +:+ t -> rstrip t = t.
Proof.
  rewrite rstrip_append. destruct (String.eqb_spec (rstrip t) "") as [He|He]; intros H.
  - apply (f_equal String.length) in H. rewrite str_app_len in H. pose proof (rstrip_len p). destruct t; [done | cbn in H; lia].
  - by apply str_app_inv_head in H.
Qed.

Lemma word_rest_spec s a r : word_rest s = (a, r) -> s = a +:+ r /\ nosp a = true /\ match r with "" => True | String c _ => is_space c = true end.
Proof.
  revert a r. induction s as [|c s IH]; intros a r H; cbn [word_rest] in H; [injection H as <- <-; done|].
  destruct (is_space c) eqn:Ec; [injection H as <- <-; done|]. destruct (word_rest s) as [w r'] eqn:E. injection H as <- <-.
  destruct (IH w r' eq_refl) as (-> & Hw & Hr). split; [done|]. split; [|done]. unfold nosp in *. cbn [str_forallb]. by rewrite Ec.
Qed.

Lemma word_rest_app a r : nosp a = true -> match r with "" => True | String c _ => is_space c = true end -> word_rest (a +:+ r) = (a, r).
Proof.
  intros Ha Hr. induction a as [|c a IH].
  - change ("" +:+ r) with r. destruct r as [|c r]; [done|]. cbn [word_rest]. by rewrite Hr.
  - unfold nosp in Ha. cbn [str_forallb] in Ha. apply andb_true_iff in Ha as [Hc Ha]. change (String c a +:+ r) with (String c (a +:+ r)).
    cbn [word_rest]. rewrite (IH Ha). by destruct (is_space c).
Qed.

(** ** Tags that can be written in a line *)

Definition word_ok (w : string) : Prop := str_true w = true /\ nosp w = true /\ has_char "#" w = false.
Definition description_ok (d : string) : Prop :=
  lstrip d = d /\ rstrip d = d /\ parenthesized d = true /\ has_char "#" d = false /\ has_char newline d = false.
Definition tag_ok (t : Tag) : Prop := word_ok (tagname t) /\ match description t with Some d => description_ok d | None => True end.

Lemma strip_comment_prefix s : has_char "#" (strip_comment s) = false /\ exists q, s = strip_comment s +:+ q.
Proof.
  induction s as [|c s [H1 [q H2]]]; [split; [done | by exists ""]|]. cbn [strip_comment]. destruct (Ascii.eqb_spec c "#") as [->|Hc].
  - split; [done|]. by exists (String "#" s).
  - split; [|exists q; by rewrite H2 at 1]. cbn [has_char]. rewrite H1, orb_false_r. by apply Ascii.eqb_neq.
Qed.

Lemma strip_comment_id s : has_char "#" s = false -> strip_comment s = s.
Proof. induction s as [|c s IH]; [done|]. cbn [has_char strip_comment]. intros [-> Hs]%orb_false_iff. by rewrite IH. Qed.

Lemma rstrip_prefix s : exists q, s = rstrip s +:+ q.
Proof.
  induction s as [|c s [q IH]]; [by exists ""|]. cbn [rstrip]. case_match; [by exists (String c s)|]. exists q. by rewrite IH at 1.
Qed.

Lemma strip_part s : exists p q, s = p +:+ strip s +:+ q.
Proof. unfold strip. destruct (lstrip_suffix s) as [p Hp]. destruct (rstrip_prefix (lstrip s)) as [q Hq]. exists p, q. by rewrite <- Hq. Qed.

Lemma has_char_part c p s q : has_char c (p +:+ s +:+ q) = false -> has_char c s = false.
Proof. rewrite !has_char_app, !orb_false_iff. tauto. Qed.

(** A line is a text without line feed, or such a text and a line feed. *)
Definition is_line (line : string) : Prop := exists l, has_char newline l = false /\ (line = l \/ line = end_line l).

Lemma readlines_is_line c : Forall is_line (readlines c).
Proof.
  assert (H : forall s, Forall (fun l => has_char newline l = false) (split_char newline s)).
  { induction s as [|d s IH]; [by constructor|]. cbn [split_char]. destruct (Ascii.eqb d newline) eqn:E; [by constructor|].
    destruct (split_char newline s) as [|x l]; [constructor; [|done]; cbn; by rewrite E|].
    inversion IH; subst. constructor; [|done]. cbn [has_char]. rewrite E. done. }
  unfold readlines. specialize (H c). induction H as [|x l Hx Hl IH]; [constructor|]. destruct l as [|y l].
  - cbn [keep_ends]. case_match; constructor; [|constructor]; (exists x); auto.
  - change (keep_ends (x :: y :: l)) with (end_line x :: keep_ends (y :: l)). constructor; [|exact IH]. exists x. auto.
Qed.

Lemma lstrip_append a t : lstrip (a +:+ t) = if String.eqb (lstrip a) "" then lstrip t else lstrip a +:+ t.
Proof.
  induction a as [|c a IH]; [done|]. change (String c a +:+ t) with (String c (a +:+ t)). cbn [lstrip].
  destruct (is_space c); [exact IH | done].
Qed.

Lemma strip_trimmed x : lstrip (strip x) = strip x /\ rstrip (strip x) = strip x.
Proof.
  unfold strip. split; [|apply rstrip_idem]. pose proof (lstrip_idem x) as H. destruct (lstrip x) as [|c s]; [done|].
  cbn [lstrip] in H. destruct (is_space c) eqn:E.
  - exfalso. destruct (lstrip_suffix s) as [p Hp]. rewrite H in Hp. apply (f_equal String.length) in Hp. rewrite str_app_len in Hp. cbn in Hp. lia.
  - cbn [rstrip]. rewrite E. cbn [andb lstrip]. by rewrite E.
Qed.

Lemma strip_end_line l : strip (end_line l) = strip l.
Proof.
  unfold strip, end_line. rewrite lstrip_append. destruct (String.eqb_spec (lstrip l) "") as [->|]; [done|].
  rewrite rstrip_append. done.
Qed.

Lemma strip_comment_append a t : strip_comment (a +:+ t) = if has_char "#" a then strip_comment a else a +:+ strip_comment t.
Proof.
  induction a as [|c a IH]; [done|]. change (String c a +:+ t) with (String c (a +:+ t)). cbn [strip_comment has_char].
  destruct (Ascii.eqb c "#"); [done|]. cbn [orb]. rewrite IH. by destruct (has_char "#" a).
Qed.

(** A line without its comment and the white space around. *)
Definition content_of (line : string) : string := strip (strip_comment line).

Lemma content_end_line l : content_of (end_line l) = content_of l.
Proof.
  unfold content_of, end_line. rewrite strip_comment_append. destruct (has_char "#" l) eqn:E; [done|].
  rewrite (strip_comment_id l E). apply (strip_end_line l).
Qed.

Lemma content_facts line : is_line line ->
  lstrip (content_of line) = content_of line /\ rstrip (content_of line) = content_of line /\
  has_char "#" (content_of line) = false /\ has_char newline (content_of line) = false.
Proof.
  intros (l & Hl & Hline). replace (content_of line) with (content_of l) by (destruct Hline as [->| ->]; [done | by rewrite content_end_line]).
  unfold content_of. destruct (strip_trimmed (strip_comment l)) as [H1 H2]. split_and!; [done..| |].
  - destruct (strip_comment_prefix l) as [Hc _]. destruct (strip_part (strip_comment l)) as (p & q & Heq). rewrite Heq in Hc. by apply has_char_part in Hc.
  - destruct (strip_comment_prefix l) as [_ [q Hq]]. rewrite Hq, has_char_app in Hl. apply orb_false_iff in Hl as [Hl _].
    destruct (strip_part (strip_comment l)) as (p & q' & Heq). rewrite Heq in Hl. by apply has_char_part in Hl.
Qed.

Lemma word_nonempty s a r : lstrip s = s -> s <> "" -> word_rest s = (a, r) -> str_true a = true.
Proof.
  intros Hs Hne H. destruct s as [|c s]; [done|]. cbn [word_rest] in H. cbn [lstrip] in Hs. destruct (is_space c) eqn:E.
  - exfalso. destruct (lstrip_suffix s) as [p Hp]. rewrite Hs in Hp. apply (f_equal String.length) in Hp. rewrite str_app_len in Hp. cbn in Hp. lia.
  - destruct (word_rest s). by injection H as <- _.
Qed.

Lemma split_twice_ok L first name rest : lstrip L = L -> rstrip L = L -> has_char "#" L = false -> has_char newline L = false ->
  split_twice L = first :: name :: rest ->
  word_ok name /\ match rest with [] => True | d :: l => l = [] /\ lstrip d = d /\ rstrip d = d /\ str_true d = true /\ has_char "#" d = false /\ has_char newline d = false end.
Proof.
  intros Hl Hr Hc Hn H. unfold split_twice in H. destruct (word_rest L) as [a r] eqn:Ea. apply word_rest_spec in Ea as (HL & _ & _).
  destruct (String.eqb_spec (lstrip r) "") as [|Hne]; [done|]. destruct (word_rest (lstrip r)) as [b r2] eqn:Eb.
  pose proof (word_nonempty _ _ _ (lstrip_idem r) Hne Eb) as Hb. apply word_rest_spec in Eb as (Hr2 & Hbs & _).
  destruct (lstrip_suffix r) as [p Hp]. destruct (lstrip_suffix r2) as [p2 Hp2].
  assert (HL2 : L = (a +:+ p) +:+ b +:+ p2 +:+ lstrip r2).
  { rewrite HL. transitivity (a +:+ p +:+ lstrip r); [by rewrite <- Hp|]. rewrite Hr2.
    transitivity (a +:+ p +:+ b +:+ p2 +:+ lstrip r2); [by rewrite <- Hp2 | by rewrite !str_app_assoc]. }
  assert (HL3 : ((a +:+ p) +:+ b +:+ p2) +:+ lstrip r2 = L) by (etransitivity; [|symmetry; exact HL2]; by rewrite !str_app_assoc).
  assert (Hname : word_ok b).
  { split_and!; [done..|]. rewrite HL2 in Hc. by apply has_char_part in Hc. }
  destruct (String.eqb_spec (lstrip r2) "") as [|Hd]; injection H as <- <- <-; (split; [done|]); [done|].
  split; [done|]. split; [apply lstrip_idem|]. split.
  - apply (rstrip_suffix ((a +:+ p) +:+ b +:+ p2)). by rewrite HL3.
  - split; [by destruct (lstrip r2)|].
    rewrite <- HL3, has_char_app in Hc, Hn. apply orb_false_iff in Hc as [_ ?], Hn as [_ ?]. by split.
Qed.

Lemma read_tag_line_ok fn f n line : is_line line -> Forall tag_ok (tf_tags f) -> Forall tag_ok (tf_tags (read_tag_line fn f (n, line))).
Proof.
  intros Hline Hf. unfold read_tag_line. fold (content_of line). destruct (content_facts line Hline) as (H1 & H2 & H3 & H4).
  destruct (negb _); [done|]. destruct (split_twice (content_of line)) as [|first [|name rest]] eqn:E; [done..|].
  destruct (split_twice_ok _ _ _ _ H1 H2 H3 H4 E) as [Hname Hrest]. destruct (String.eqb first "option"); [done|].
  destruct (py_int first) as [tag|]; [|done]. destruct rest as [|d l]; cbn [head].
  - apply Forall_app. split; [done|]. constructor; [by split | constructor].
  - destruct Hrest as (-> & Hd1 & Hd2 & Hd3 & Hd4 & Hd5). rewrite Hd3. destruct (parenthesized d) eqn:Ep; [|done].
    apply Forall_app. split; [done|]. constructor; [|constructor]. split; [done|]. by split_and!.
Qed.

Lemma new_TagFile_ok fn content : Forall tag_ok (tf_tags (new_TagFile fn content)).
Proof.
  unfold new_TagFile. destruct content as [c|]; [|constructor]. pose proof (readlines_is_line c) as H. unfold enumerate_lines.
  generalize (zrange 1 (1 + Z.of_nat (length (readlines c)))). revert H.
  assert (H0 : Forall tag_ok (tf_tags (mkTagFile [] [] [] []))) by constructor. revert H0. generalize (mkTagFile [] [] [] []).
  induction (readlines c) as [|line lines IH]; intros f Hf H ns; [by destruct ns|]. inversion H; subst. destruct ns as [|n ns]; [done|].
  cbn [zip zip_with fold_left]. apply IH; [|done]. by apply read_tag_line_ok.
Qed.

(** ** Writing and reading back *)

Lemma parse_unsigned_str n : 0 <= n -> parse_unsigned 10 (py_str n) = Some n.
Proof.
  intros Hn. pose proof (py_int_str n Hn) as H. unfold py_int, py_int_base in H.
  pose proof (py_str_digits n Hn) as Hd. rewrite strip_nospace in H.
  2: { eapply str_forallb_impl; [|exact Hd]. intros c Hc. by destruct (is_digit_facts c Hc) as (-> & _). }
  destruct (py_str_ne n Hn) as (c & t & Heq). rewrite Heq in Hd, H |- *. cbn [str_forallb] in Hd. apply andb_true_iff in Hd as [Hc _].
  destruct (is_digit_facts c Hc) as (_ & H1 & H2 & _). rewrite H1, H2 in H. by destruct (parse_unsigned 10 (String c t)); simplify_eq/=.
Qed.

Lemma py_str_neg p : py_str (Zneg p) = String "-" (py_str (Zpos p)).
Proof. reflexivity. Qed.

(** Numbers of both signs read back, and are words. *)
Lemma number_reads n : nosp (py_str n) = true /\ str_true (py_str n) = true /\ has_char "#" (py_str n) = false /\
  String.eqb (py_str n) "option" = false /\ has_char newline (py_str n) = false /\ py_int (py_str n) = Ok n.
Proof.
  assert (Hpos : forall n, 0 <= n -> nosp (py_str n) = true /\ str_true (py_str n) = true /\ has_char "#" (py_str n) = false /\
    String.eqb (py_str n) "option" = false /\ has_char newline (py_str n) = false).
  { clear n. intros n Hn. pose proof (py_str_digits n Hn) as Hd. destruct (py_str_ne n Hn) as (c & t & Heq).
    assert (Hall : forall g, (forall c, is_digit c = true -> g c = true) -> str_forallb g (py_str n) = true).
    { intros g Hg. eapply str_forallb_impl; [|exact Hd]. exact Hg. }
    split_and!.
    - apply Hall. intros d Hdd. by destruct (is_digit_facts d Hdd) as (-> & _).
    - by rewrite Heq.
    - rewrite has_char_forallb, Hall; [done|]. intros d Hdd. by destruct d as [[] [] [] [] [] [] [] []].
    - rewrite Heq in Hd |- *. cbn [str_forallb] in Hd. apply andb_true_iff in Hd as [Hc _]. cbn [String.eqb].
      by destruct c as [[] [] [] [] [] [] [] []].
    - rewrite has_char_forallb, Hall; [done|]. intros d Hdd. by destruct d as [[] [] [] [] [] [] [] []]. }
  destruct (Z.le_gt_cases 0 n) as [Hn|Hn].
  - destruct (Hpos n Hn) as (? & ? & ? & ? & ?). split_and!; try done. by apply py_int_str.
  - destruct n as [|p|p]; [lia..|]. destruct (Hpos (Zpos p) ltac:(lia)) as (H1 & H2 & H3 & H4 & H5). rewrite py_str_neg.
    split_and!; [exact H1 | done | exact H3 | done | exact H5|].
    unfold py_int, py_int_base. rewrite strip_nospace by (by unfold nosp in H1; cbn [str_forallb]).
    cbn [Ascii.eqb]. change (Ascii.eqb "-" "-") with true. by rewrite parse_unsigned_str by lia.
Qed.

Lemma word_lstrip w t : word_ok w -> lstrip (w +:+ t) = w +:+ t.
Proof.
  intros (Hw1 & Hw2 & _). rewrite lstrip_append, lstrip_nospace by done. by destruct w.
Qed.

Lemma word_rstrip w : word_ok w -> rstrip w = w.
Proof. intros (_ & Hw & _). by apply rstrip_nospace. Qed.

Definition same_key (t o : Tag) : Prop := tag_key t = tag_key o.

(** The rest of a line after the number. *)
Definition tag_rest (t : Tag) : string := match description t with Some d => String " " d | None => "" end.

Lemma tag_line_rest t : tag_ok t -> tag_line t = py_str (tagnum t) +:+ String " " (tagname t +:+ tag_rest t).
Proof.
  intros [_ Hd]. unfold tag_line, tag_rest. destruct (description t) as [d|]; [|done]. destruct Hd as (_ & _ & Hp & _).
  by destruct d.
Qed.

Lemma tag_rest_facts t : tag_ok t -> rstrip (tagname t +:+ tag_rest t) = tagname t +:+ tag_rest t /\ has_char "#" (tag_rest t) = false /\
  lstrip (tag_rest t) = default "" (description t) /\ match tag_rest t with "" => True | String c _ => is_space c = true end.
Proof.
  intros [Hn Hd]. unfold tag_rest. destruct (description t) as [d|]; simpl (default "" _).
  - destruct Hd as (H1 & H2 & H3 & H4 & H5). assert (Hne : d <> "") by (by intros ->). split_and!; [|exact H4 | exact H1 | done].
    rewrite rstrip_append. cbn [rstrip]. rewrite H2. destruct (String.eqb_spec d ""); [done|]. rewrite andb_false_r. done.
  - split_and!; try done. rewrite str_app_nil_r. by apply word_rstrip.
Qed.

Lemma tag_line_content t : tag_ok t -> content_of (end_line (tag_line t)) = tag_line t.
Proof.
  intros Ht. rewrite content_end_line. unfold content_of. rewrite tag_line_rest by done.
  destruct (number_reads (tagnum t)) as (H1 & H2 & H3 & _). destruct (tag_rest_facts t Ht) as (Hr & Hc & _). destruct Ht as [Hn _].
  assert (Hw : word_ok (py_str (tagnum t))) by (by split_and!).
  rewrite strip_comment_id.
  - unfold strip. rewrite word_lstrip by done. rewrite rstrip_append. cbn [rstrip]. rewrite Hr.
    destruct Hn as (Hn1 & _). replace (String.eqb (tagname t +:+ tag_rest t) "") with false by (symmetry; by destruct (tagname t)).
    rewrite andb_false_r. done.
  - rewrite has_char_app, H3. cbn [has_char]. rewrite has_char_app, Hc. destruct Hn as (_ & _ & ->). done.
Qed.

Lemma tag_line_newline t : tag_ok t -> has_char newline (tag_line t) = false.
Proof.
  intros Ht. rewrite tag_line_rest by done. destruct (number_reads (tagnum t)) as (_ & _ & _ & _ & H5 & _). destruct Ht as [(_ & Hn & _) Hd].
  assert (Hnl : has_char newline (tagname t) = false).
  { rewrite has_char_forallb. apply negb_false_iff. eapply str_forallb_impl; [|exact Hn]. intros c Hc.
    destruct (Ascii.eqb_spec c newline) as [->|]; done. }
  rewrite has_char_app, H5. cbn [has_char]. rewrite has_char_app, Hnl. unfold tag_rest. destruct (description t) as [d|]; [|done].
  by destruct Hd as (_ & _ & _ & _ & Hd).
Qed.

(** A line that was written is read as the tag. *)
Lemma read_written_line fn f n t : tag_ok t ->
  read_tag_line fn f (n, end_line (tag_line t)) = add_tag (mkTag (tagnum t) (tagname t) (description t) fn n) f.
Proof.
  intros Ht. unfold read_tag_line. fold (content_of (end_line (tag_line t))). rewrite tag_line_content by done.
  destruct (number_reads (tagnum t)) as (H1 & H2 & H3 & H4 & H5 & H6). destruct (tag_rest_facts t Ht) as (Hr & Hc & Hls & Hsp).
  pose proof (tag_line_rest t Ht) as Hline. replace (str_true (tag_line t)) with true by (rewrite Hline; by destruct (py_str (tagnum t))).
  cbn [negb]. assert (Hs : split_twice (tag_line t) = py_str (tagnum t) :: tagname t :: match description t with Some d => [d] | None => [] end).
  { unfold split_twice. rewrite Hline, word_rest_app by done. cbn [lstrip]. change (is_space " ") with true. cbv iota.
    destruct Ht as [Hn Hd]. rewrite word_lstrip by done. pose proof Hn as (Hn1 & Hn2 & _).
    replace (String.eqb (tagname t +:+ tag_rest t) "") with false by (symmetry; by destruct (tagname t)).
    rewrite word_rest_app by done. rewrite Hls. destruct (description t) as [d|]; simpl (default "" _); [|done].
    destruct Hd as (_ & _ & Hp & _). by destruct d. }
  rewrite Hs, H4, H6. destruct Ht as [_ Hd]. destruct (description t) as [d|]; cbn [head]; [|done].
  destruct Hd as (_ & _ & -> & _). by rewrite andb_false_r.
Qed.

Lemma read_written fn ts : Forall tag_ok ts ->
  let f := new_TagFile fn (Some (str_join "" (map (fun t => end_line (tag_line t)) ts))) in
  tf_errors f = [] /\ tf_warnings f = [] /\ tf_options f = [] /\ map tag_key (tf_tags f) = map tag_key ts.
Proof.
  intros Hts f. subst f. unfold new_TagFile.
  assert (Hrl : readlines (str_join "" (map (fun t => end_line (tag_line t)) ts)) = map end_line (map tag_line ts)).
  { rewrite <- (map_map tag_line end_line). apply readlines_lines, Forall_map. eapply Forall_impl; [exact Hts|]. intros t Ht. by apply tag_line_newline. }
  rewrite Hrl. unfold enumerate_lines. rewrite !length_map.
  assert (Hgen : forall ns f, length ns = length ts ->
    let g := fold_left (read_tag_line fn) (zip ns (map end_line (map tag_line ts))) f in
    tf_errors g = tf_errors f /\ tf_warnings g = tf_warnings f /\ tf_options g = tf_options f /\
    map tag_key (tf_tags g) = map tag_key (tf_tags f) ++ map tag_key ts).
  { clear Hrl. induction Hts as [|t ts Ht Hts IH]; intros ns f Hlen; cbn zeta.
    - destruct ns; [|done]. cbn. by rewrite app_nil_r.
    - destruct ns as [|n ns]; [done|]. cbn [map zip zip_with fold_left]. rewrite read_written_line by done.
      destruct (IH ns (add_tag (mkTag (tagnum t) (tagname t) (description t) fn n) f)) as (H1 & H2 & H3 & H4); [by injection Hlen|].
      rewrite H1, H2, H3, H4. cbn [add_tag tf_errors tf_warnings tf_options tf_tags]. rewrite map_app. cbn. by rewrite <- app_assoc. }
  apply (Hgen _ (mkTagFile [] [] [] [])). apply Nat2Z.inj. rewrite length_zrange. lia.
Qed.

(** * What is written *)

Lemma sorted_strict (l : list Z) : StronglySorted (fun a b => (a <=? b) = true) l -> NoDup l -> StronglySorted Z.lt l.
Proof.
  induction 1 as [|x l Hs IH Hx]; intros Hnd; [constructor|]. apply NoDup_cons in Hnd as [Hnx Hnd]. constructor; [by apply IH|].
  rewrite Forall_forall in Hx |- *. intros y Hy. specialize (Hx y Hy). apply Z.leb_le in Hx.
  assert (x <> y) by (by intros ->). lia.
Qed.

Lemma sorted_tags_facts seen m : merged seen m -> let out := sorted_tags (by_tagnum m) in
  StronglySorted Z.lt (map tagnum out) /\ NoDup (map tagname out) /\
  (forall t, t ∈ seen -> exists o, o ∈ out /\ tag_key o = tag_key t) /\ forall o, o ∈ out -> o ∈ seen.
Proof.
  intros Hm out. subst out. unfold sorted_tags. set (s := sort_by _ _).
  assert (Hperm : s ≡ₚ by_tagnum m) by apply sort_by_perm.
  assert (Hin : forall o, o ∈ map snd s <-> od_get (tagnum o) (by_tagnum m) = Some o).
  { intros o. rewrite list_elem_of_fmap. split.
    - intros ([k o'] & -> & Ho). rewrite Hperm in Ho. apply (od_get_in k o' _ (mg_keys _ _ Hm)) in Ho. cbn [snd].
      by destruct (proj1 (mg_num _ _ Hm _ _) Ho) as [-> _].
    - intros Ho. exists (tagnum o, o). split; [done|]. rewrite Hperm. by apply (od_get_in _ _ _ (mg_keys _ _ Hm)). }
  assert (Hnums : map tagnum (map snd s) = map fst s).
  { rewrite map_map. apply map_ext_in. intros [k o] Ho%list_elem_of_In. rewrite Hperm in Ho.
    apply (od_get_in k o _ (mg_keys _ _ Hm)) in Ho. by destruct (proj1 (mg_num _ _ Hm _ _) Ho). }
  assert (Hnd : NoDup (map fst s)) by (rewrite Hperm; apply (mg_keys _ _ Hm)).
  assert (Hname : forall o, o ∈ map snd s -> od_get (tagname o) (by_tagname m) = Some o).
  { intros o Ho. apply Hin in Ho. by apply (mg_num _ _ Hm) in Ho as [_ ?]. }
  split_and!.
  - rewrite Hnums. apply sorted_strict; [|done].
    assert (Hs : StronglySorted (fun a b : Z * Tag => (a.1 <=? b.1) = true) s).
    { apply (sort_by_sorted (fun a b : Z * Tag => a.1 <=? b.1)).
      - intros a b Hab. apply Z.leb_gt in Hab. apply Z.leb_le. lia.
      - intros a b c. rewrite !Z.leb_le. lia. }
    clear -Hs. induction Hs as [|x l Hs IH Hx]; [constructor|]. cbn [map]. constructor; [done|]. by apply Forall_map.
  - apply NoDup_fmap_2_strong.
    + intros a b Ha Hb Heq. apply Hname in Ha, Hb. congruence.
    + rewrite <- Hnums in Hnd. by apply NoDup_fmap_1 in Hnd.
  - intros t Ht. destruct (mg_seen _ _ Hm t Ht) as (o & Ho & Hk). exists o. split; [|done]. apply Hin, (mg_num _ _ Hm).
    split; [done|]. by destruct (mg_name _ _ Hm _ _ Ho) as [-> _].
  - intros o Ho. apply Hname in Ho. by destruct (mg_name _ _ Hm _ _ Ho).
Qed.

(** C40: merge-event-log-tags.py.  The script fails exactly when a file cannot be
    read or has a bad line, or two tags share the name but not number and
    description, or the number but not the name.  Otherwise it writes the tags
    by increasing number, each name and number once, none lost and none
    invented; and what it writes is read back by [TagFile] without an error as
    the same numbers, names and descriptions. *)
Theorem merged_tags_correct files :
  let fs := map (fun '(fn, content) => new_TagFile fn content) files in
  (clean_files fs /\ all_compatible (input_tags fs) ->
   exists text w out, merge_event_log_tags files = Ok (text, w) /\
     StronglySorted Z.lt (map tagnum out) /\ NoDup (map tagname out) /\
     (forall t, t ∈ input_tags fs -> exists o, o ∈ out /\ tag_key o = tag_key t) /\ (forall o, o ∈ out -> o ∈ input_tags fs) /\
     forall fn, let f := new_TagFile fn (Some text) in
       tf_errors f = [] /\ tf_warnings f = [] /\ tf_options f = [] /\ map tag_key (tf_tags f) = map tag_key out) /\
  (~ (clean_files fs /\ all_compatible (input_tags fs)) -> merge_event_log_tags files = Raise (SystemExit 1)).
Proof.
  intros fs. unfold merge_event_log_tags. fold fs.
  destruct (merge_files_spec fs) as [(He & Hcl & Hm)|[He Hbad]].
  - rewrite He. split; [|intros H; exfalso; apply H; split; [done | by apply (mg_compatible _ _ Hm)]].
    intros _. destruct (sorted_tags_facts _ _ Hm) as (H1 & H2 & H3 & H4). eexists _, _, (sorted_tags (by_tagnum (merge_files fs))).
    split; [reflexivity|]. split_and!; [done..|]. intros fn. apply read_written. apply Forall_forall. intros o Ho. apply H4 in Ho.
    unfold input_tags in Ho. apply list_elem_of_In, in_flat_map in Ho as (f & Hf & Ho%list_elem_of_In).
    apply in_map_iff in Hf as ([fn' content] & <- & _). pose proof (new_TagFile_ok fn' content) as Hok. rewrite Forall_forall in Hok. by apply Hok.
  - split; [by intros H|]. intros _. by destruct (merge_errors (merge_files fs)).
Qed.

(** * Witness *)

Definition tag_file (l : list string) : option string := Some (str_join "" (map end_line l)).

Definition example_tags : list (string * option string) :=
  [("a.logtags", tag_file ["# tags"; "option java_package com.x"; "42 answer (to life|3)"; "7 seven # no description"]);
   ("b.logtags", tag_file ["-1 minus"; "42  answer   (to life|3)"])].

Example merge_example : merge_event_log_tags example_tags =
  Ok (str_join "" (map end_line ["-1 minus"; "7 seven"; "42 answer (to life|3)"]), [("b.logtags", 2)]).
Proof. vm_compute. reflexivity. Qed.

Example merge_conflict : merge_event_log_tags [("a", tag_file ["1 one"]); ("b", tag_file ["1 two"])] = Raise (SystemExit 1).
Proof. vm_compute. reflexivity. Qed.

Lemma merged_tags_correct_witness :
  all_compatible (input_tags (map (fun '(fn, content) => new_TagFile fn content) example_tags)) /\
  exists text w out, merge_event_log_tags example_tags = Ok (text, w) /\ StronglySorted Z.lt (map tagnum out).
Proof.
  assert (Hcl : clean_files (map (fun '(fn, content) => new_TagFile fn content) example_tags)) by (repeat constructor).
  assert (Hc : all_compatible (input_tags (map (fun '(fn, content) => new_TagFile fn content) example_tags))).
  { assert (H : Forall (fun t => Forall (compatible t) (input_tags (map (fun '(fn, content) => new_TagFile fn content) example_tags)))
                  (input_tags (map (fun '(fn, content) => new_TagFile fn content) example_tags))).
    { vm_compute. repeat constructor; discriminate. }
    intros t o Ht Ho. rewrite Forall_forall in H. specialize (H t Ht). rewrite Forall_forall in H. exact (H o Ho). }
  split; [exact Hc|]. destruct (merged_tags_correct example_tags) as [H _].
  destruct (H (conj Hcl Hc)) as (text & w & out & Hm & Hs & _). exists text, w, out. split; assumption.
Defined.
