(* ===== verification/Fat16.v ===== *)
(** tools/fat16copy.py (Python 2): copying files into a FAT16 image.  The image
    is a file object, a list of bytes with a position; a string of the program
    is a list of bytes.  [/] on integers is floor division.  Failures of the
    underlying file (a negative position) are [ExternalError]; encoding
    errors, subclasses of ValueError, are [ValueError]. *)

From S2P Require Export PyFile.

#[local] Open Scope list_scope.
#[local] Open Scope Z_scope.

Definition FAT_TABLE_START : Z := 0x200.
Definition DEL_MARKER : Z := 0xe5.
Definition ESCAPE_DEL_MARKER : Z := 0x05.
Definition ATTRIBUTE_READ_ONLY : Z := 0x1.
Definition ATTRIBUTE_HIDDEN : Z := 0x2.
Definition ATTRIBUTE_SYSTEM : Z := 0x4.
Definition ATTRIBUTE_VOLUME_LABEL : Z := 0x8.
Definition ATTRIBUTE_SUBDIRECTORY : Z := 0x10.
Definition LFN_ATTRIBUTES : Z :=
  Z.lor (Z.lor (Z.lor ATTRIBUTE_VOLUME_LABEL ATTRIBUTE_SYSTEM) ATTRIBUTE_HIDDEN) ATTRIBUTE_READ_ONLY.
Definition MAX_CLUSTER_ID : Z := 0x7FFF.

(** * The file system *)

(** A [fat] object: its file and the geometry read from the boot sector. *)
Record fat := mkFat {
  fs_f : file;
  bytes_per_cluster : Z;
  root_entries : Z;
  fat_size : Z
}.
Definition set_f (f : file) (fs : fat) : fat := mkFat f (bytes_per_cluster fs) (root_entries fs) (fat_size fs).

Definition data_start (fs : fat) : Z := FAT_TABLE_START + fat_size fs * 2.

(** The position of the first byte of a cluster. *)
Definition cluster_pos (fs : fat) (c : Z) : Z :=
  data_start fs + root_entries fs * 32 + (c - 2) * bytes_per_cluster fs.

(** [f.seek(FAT_TABLE_START + cluster * 2); read_le_short(f)]. *)
Definition read_entry (c : Z) (fs : fat) : result (Z * fat) :=
  let! (n, f) := read_le_short (f_seek (FAT_TABLE_START + c * 2) (fs_f fs)) in Ok (n, set_f f fs).

Fixpoint chain_loop (fuel : nat) (head_cluster count : Z) (fs : fat) : result (Z * fat) :=
  if head_cluster <=? MAX_CLUSTER_ID then
    match fuel with
    | O => Raise OutOfFuel
    | S fuel' => let! (next, fs) := read_entry head_cluster fs in chain_loop fuel' next (count + 1) fs
    end
  else Ok (count, fs).

(** [get_chain_size].  A chain without a cycle has at most [MAX_CLUSTER_ID + 1]
    clusters. *)
Definition get_chain_size (head_cluster : Z) (fs : fat) : result (Z * fat) :=
  if head_cluster =? 0 then Ok (0, fs)
  else
    let! (count, fs) := chain_loop (Z.to_nat (MAX_CLUSTER_ID + 2)) head_cluster 0 fs in
    Ok (count * bytes_per_cluster fs, fs).

(** The loop of [read_file]; every round reads a byte or skips a cluster. *)
Fixpoint read_loop (fuel : nat) (head_cluster start_byte size : Z) (got : bytes) (fs : fat)
  : result (bytes * fat) :=
  match fuel with
  | O => Raise OutOfFuel
  | S fuel' =>
      let bpc := bytes_per_cluster fs in
      let size_now := if bpc <? start_byte + size then bpc - start_byte else size in
      let! (got, size, fs) :=
        if start_byte <? bpc then
          let! f := f_seek_set (cluster_pos fs head_cluster + start_byte) (fs_f fs) in
          let '(line, f) := f_read size_now f in
          Ok (got ++ line, size - size_now, set_f f fs)
        else Ok (got, size, fs) in
      if (start_byte <? bpc) && (size =? 0) then Ok (got, fs)
      else
        assert! head_cluster <=? MAX_CLUSTER_ID in
        let! (next, fs) := read_entry head_cluster fs in
        assert! 0 <? next in
        read_loop fuel' next (Z.max 0 (start_byte - bpc)) size got fs
  end.

Definition read_file (head_cluster start_byte size : Z) (fs : fat) : result (bytes * fat) :=
  assert! 0 <=? size in
  if size =? 0 then Ok ([], fs)
  else read_loop (S (Z.to_nat (start_byte + size))) head_cluster start_byte size [] fs.

(** [write_cluster_entry]: the entry in both tables, from the position in the
    first. *)
Definition write_cluster_entry (entry : Z) (f : file) (fat_size : Z) : result file :=
  let! b := pack_H entry in
  let! f := f_skip (fat_size - 2) (f_write b f) in
  f_skip (- fat_size) (f_write b f).

(** The scan of the table for runs of free clusters. *)
Record Scan := mkScan { sc_zones : list (Z * Z); sc_current : option Z; sc_size : Z; sc_file : file }.

Definition scan_entry (s : Scan) (pos : Z) : result Scan :=
  let! (data, f) := read_le_short (sc_file s) in
  match data =? 0, sc_current s with
  | true, Some c => Ok (mkScan (sc_zones s) (Some c) (sc_size s + 1) f)
  | true, None => Ok (mkScan (sc_zones s) (Some pos) 1 f)
  | false, Some c => Ok (mkScan (sc_zones s ++ [(c, sc_size s)]) None (sc_size s) f)
  | false, None => Ok (mkScan (sc_zones s) None (sc_size s) f)
  end.

Definition free_zones (fs : fat) : result (list (Z * Z) * fat) :=
  let! s := foldM scan_entry (mkScan [] None 0 (f_seek (FAT_TABLE_START + 4) (fs_f fs)))
              (zrange 2 (fat_size fs / 2)) in
  Ok (match sc_current s with Some c => sc_zones s ++ [(c, sc_size s)] | None => sc_zones s end,
      set_f (sc_file s) fs).

(** [while grabbed < amount and len(free_zones) > 0]: the last zone first. *)
Fixpoint grab (amount bpc grabbed : Z) (zones : list (Z * Z)) (out : list (Z * Z)) : Z * list (Z * Z) :=
  match zones with
  | [] => (grabbed, out)
  | z :: zones' =>
      if grabbed <? amount then grab amount bpc (grabbed + z.2 * bpc) zones' (out ++ [z]) else (grabbed, out)
  end.

(** [grabbed_zones[-1] = (cluster, size - excess)]. *)
Definition trim (excess : Z) (zones : list (Z * Z)) : result (list (Z * Z)) :=
  match rev zones with
  | [] => Raise IndexError
  | z :: l => Ok (rev l ++ [(z.1, z.2 - excess)])
  end.

(** Linking one zone in front of the chain that starts at [out]. *)
Definition write_zone (acc : option Z * fat) (zone : Z * Z) : result (option Z * fat) :=
  let '(out, fs) := acc in
  let '(cluster, size) := zone in
  let entries := zrange (cluster + 1) (cluster + size)
                 ++ [match out with Some c => if c =? 0 then 0xFFFF else c | None => 0xFFFF end] in
  let! f := foldM (fun f e => write_cluster_entry e f (fat_size fs))
              (f_seek (FAT_TABLE_START + cluster * 2) (fs_f fs)) entries in
  Ok (Some cluster, set_f f fs).

Section alloc.
(** The order in which a dictionary lists its items. *)
Context (dict_items : list (Z * Z) -> list (Z * Z)).

Definition allocate (amount : Z) (fs : fat) : result (option Z * fat) :=
  assert! 0 <? amount in
  let! (zones, fs) := free_zones fs in
  let zones := sort_by (fun x y => x.2 <=? y.2) (dict_items zones) in
  let bpc := bytes_per_cluster fs in
  let '(grabbed, taken) := grab amount bpc 0 (rev zones) [] in
  if grabbed <? amount then Ok (None, fs)
  else
    let! excess := if bpc =? 0 then Raise ZeroDivisionError else Ok ((grabbed - amount) / bpc) in
    let! taken := trim excess taken in
    foldM write_zone (None, fs) (rev taken).

(** [extend_cluster]; packing the [None] of a full image is a struct.error. *)
Definition extend_cluster (cluster amount : Z) (fs : fat) : result (option Z * fat) :=
  if amount =? 0 then Ok (None, fs)
  else
    let! (e, fs) := read_entry cluster fs in
    assert! e =? 0xFFFF in
    let! (c, fs) := allocate amount fs in
    match c with
    | None => Raise StructError
    | Some c =>
        let! f := write_cluster_entry c (f_seek (FAT_TABLE_START + cluster * 2) (fs_f fs)) (fat_size fs) in
        Ok (Some c, set_f f fs)
    end.

(** The loop of [write_file], one cluster per round. *)
Fixpoint write_loop (fuel : nat) (cluster start_byte current_offset : Z) (data : bytes) (fs : fat) : result fat :=
  let last_offset := start_byte + blen data in
  if current_offset <? last_offset then
    match fuel with
    | O => Raise OutOfFuel
    | S fuel' =>
        let bpc := bytes_per_cluster fs in
        let data_begin := Z.max 0 (current_offset - start_byte) in
        let data_end := Z.min (blen data) (current_offset + bpc - start_byte) in
        let! fs :=
          if data_begin <? data_end then
            let! f := f_seek_set (cluster_pos fs cluster + Z.max 0 (start_byte - current_offset)) (fs_f fs) in
            Ok (set_f (f_write (py_slice data data_begin data_end) f) fs)
          else Ok fs in
        let current_offset := current_offset + bpc in
        if current_offset <? last_offset then
          let! (next, fs) := read_entry cluster fs in
          let! (next, fs) :=
            if MAX_CLUSTER_ID <? next then
              let! (c, fs) := extend_cluster cluster (blen data) fs in
              match c with Some c => Ok (c, fs) | None => Raise AssertionError end
            else Ok (next, fs) in
          assert! 0 <? next in
          write_loop fuel' next start_byte current_offset data fs
        else Ok fs
    end
  else Ok fs.

Definition write_file (head_cluster start_byte : Z) (data : bytes) (fs : fat) : result fat :=
  write_loop (Z.to_nat (start_byte + blen data)) head_cluster start_byte 0 data fs.

(** * File-like objects *)

(** The root directory ([root_dentry_file]) and the files made of clusters
    ([fat_file]), with their position and size. *)
Inductive backing :=
| RootFile (idx size : Z)
| FatFile (start_cluster idx size : Z).

Definition b_idx (b : backing) : Z := match b with RootFile i _ => i | FatFile _ i _ => i end.
Definition b_size (b : backing) : Z := match b with RootFile _ n => n | FatFile _ _ n => n end.
Definition b_put (i n : Z) (b : backing) : backing :=
  match b with RootFile _ _ => RootFile i n | FatFile c _ _ => FatFile c i n end.

(** [fake_file.seek] from the start, and [skip_bytes], clamped to the file. *)
Definition b_seek (amount : Z) (b : backing) : backing := b_put (Z.min (b_size b) (Z.max 0 amount)) (b_size b) b.
Definition b_skip (n : Z) (b : backing) : backing := b_seek (b_idx b + n) b.

Definition b_read (count : Z) (b : backing) (fs : fat) : result (bytes * backing * fat) :=
  let n := if b_size b <? b_idx b + count then b_size b - b_idx b else count in
  match b with
  | RootFile i sz =>
      let '(got, f) := f_read n (f_seek (data_start fs + i) (fs_f fs)) in
      Ok (got, RootFile (i + blen got) sz, set_f f fs)
  | FatFile c i sz =>
      let! (got, fs) := read_file c i n fs in
      Ok (got, FatFile c (i + blen got) sz, fs)
  end.

Definition b_write (data : bytes) (b : backing) (fs : fat) : result (backing * fat) :=
  match b with
  | RootFile i sz =>
      let data := if sz <? i + blen data then py_slice data 0 (sz - i) else data in
      let f := f_write data (f_seek (data_start fs + i) (fs_f fs)) in
      Ok (RootFile (i + blen data) (Z.max sz (i + blen data)), set_f f fs)
  | FatFile c i sz =>
      let! fs := write_file c i data fs in
      Ok (FatFile c (i + blen data) (Z.max sz (i + blen data)), fs)
  end.

(** [fat_file(fs, cluster)], whose size is that of the chain. *)
Definition open_chain (cluster : Z) (fs : fat) : result (backing * fat) :=
  let! (n, fs) := get_chain_size cluster fs in Ok (FatFile cluster 0 n, fs).

Definition b_byte (b : backing) (fs : fat) : result (Z * backing * fat) :=
  let! (d, b, fs) := b_read 1 b fs in let! x := unpack_B d in Ok (x, b, fs).

(** * Directory entries *)

Record dentry := mkDentry {
  attributes : Z;
  shortname : bytes;
  ext : bytes;
  longname : option bytes;
  first_cluster : Z;
  dent_size : Z
}.

Definition is_directory (d : dentry) : bool := negb (Z.land (attributes d) ATTRIBUTE_SUBDIRECTORY =? 0).

Definition lfn_checksum (name_data : bytes) : result Z :=
  assert! blen name_data =? 11 in
  Ok (fold_left (fun result char =>
        let last_bit := Z.shiftl (Z.land result 1) 7 in
        Z.land (Z.lor (Z.shiftr result 1) last_bit + char) 0xFF) name_data 0).

(** [encode('utf-16-le')] of a byte string, which Python decodes as ASCII
    first. *)
Definition utf16_encode (s : bytes) : result bytes :=
  foldM (fun acc c => if c <? 128 then Ok (acc ++ [c; 0]) else Raise ValueError) [] s.

(** [unicode(chars, "utf-16-le").encode("utf-8")]. *)
Definition utf8 (c : Z) : bytes :=
  if c <? 0x80 then [c]
  else if c <? 0x800 then [0xC0 + c / 64; 0x80 + c mod 64]
  else if c <? 0x10000 then [0xE0 + c / 4096; 0x80 + (c / 64) mod 64; 0x80 + c mod 64]
  else [0xF0 + c / 262144; 0x80 + (c / 4096) mod 64; 0x80 + (c / 64) mod 64; 0x80 + c mod 64].

Fixpoint utf16_to_utf8 (s : bytes) : result bytes :=
  match s with
  | [] => Ok []
  | lo :: hi :: s' =>
      let u := lo + 256 * hi in
      if (0xD800 <=? u) && (u <? 0xDC00) then
        match s' with
        | lo2 :: hi2 :: s'' =>
            let v := lo2 + 256 * hi2 in
            if (0xDC00 <=? v) && (v <? 0xE000) then
              let! r := utf16_to_utf8 s'' in
              Ok (utf8 (0x10000 + (u - 0xD800) * 1024 + (v - 0xDC00)) ++ r)
            else Raise ValueError
        | _ => Raise ValueError
        end
      else if (0xDC00 <=? u) && (u <? 0xE000) then Raise ValueError
      else let! r := utf16_to_utf8 s' in Ok (utf8 u ++ r)
  | _ => Raise ValueError
  end.

Fixpoint chunks_of (fuel n : nat) (l : bytes) : list bytes :=
  match fuel, l with
  | S fuel', _ :: _ => take n l :: chunks_of fuel' n (drop n l)
  | _, _ => []
  end.

Definition ljust (n : nat) (s : bytes) : bytes := s ++ replicate (n - length s) 32.

Definition lfn_record (checksum : Z) (seq : Z) (c : bytes) : result bytes :=
  let! seq := pack_B seq in
  Ok (seq ++ py_slice c 0 10 ++ [LFN_ATTRIBUTES; 0; checksum] ++ py_slice c 10 22 ++ [0; 0] ++ drop 22 c).

(** [longname_records]: numbered from one, the last marked with 0x40, in
    reverse order. *)
Definition longname_records (d : dentry) (checksum : Z) : result (list bytes) :=
  match longname d with
  | None | Some [] => Ok []
  | Some name =>
      let! encoded := utf16_encode name in
      let padded := encoded ++ replicate (Z.to_nat (26 - blen encoded mod 26)) 0 in
      let chunks := chunks_of (length padded) 26 padded in
      let! records := mapM (fun '(k, c) => lfn_record checksum (Z.of_nat k) c) (zip (seq 1 (length chunks)) chunks) in
      match rev records with
      | (n :: body) :: before => Ok ((Z.lor n 0x40 :: body) :: before)
      | _ => Raise IndexError
      end
  end.

Definition dentry_record (d : dentry) (name_data : bytes) : result bytes :=
  let! a := pack_B (attributes d) in
  let! c := pack_H (first_cluster d) in
  let! n := pack_L (dent_size d) in
  Ok (take 11 (name_data ++ replicate 11 0) ++ a ++ replicate 14 0 ++ c ++ n).

(** The search of [commit] for [record_count] free records in a row. *)
Fixpoint commit_loop (fuel : nat) (record_count found_count : Z) (b : backing) (fs : fat) : result (backing * fat) :=
  if found_count <? record_count then
    match fuel with
    | O => Raise OutOfFuel
    | S fuel' =>
        let! (record, b, fs) := b_read 32 b fs in
        let! (record, b, fs) :=
          if blen record =? 32 then Ok (record, b, fs)
          else
            let! (b, fs) := b_write (replicate (Z.to_nat (bytes_per_cluster fs)) 0) b fs in
            b_read 32 (b_skip (- bytes_per_cluster fs) b) fs in
        let! marker := of_option IndexError (head record) in
        commit_loop fuel' record_count
          (if (marker =? DEL_MARKER) || (marker =? 0) then found_count + 1 else 0) b fs
    end
  else Ok (b, fs).

(** A round reads a record, and the records that are added at the end of the
    directory are free: the fuel is enough for a directory that can grow. *)
Definition commit (d : dentry) (b : backing) (fs : fat) : result (backing * fat) :=
  let b := b_seek 0 b in
  let name_data := ljust 8 (shortname d) ++ ljust 3 (ext d) in
  let! checksum := lfn_checksum name_data in
  let! records := longname_records d checksum in
  let! record := dentry_record d name_data in
  let record_count := Z.of_nat (length records) + 1 in
  let! (b, fs) := commit_loop (Z.to_nat (b_size b / 32 + record_count + 1)) record_count 0 b fs in
  b_write (List.concat (records ++ [record])) (b_skip (- (record_count * 32)) b) fs.

(** ** Reading entries *)

Fixpoint rstrip_ws (s : bytes) : bytes :=
  match s with
  | [] => []
  | c :: s' =>
      match rstrip_ws s' with
      | [] => if (c =? 32) || ((9 <=? c) && (c <=? 13)) then [] else [c]
      | r => c :: r
      end
  end.

(** What precedes the first zero byte. *)
Fixpoint before_nul (s : bytes) : bytes :=
  match s with [] => [] | c :: s' => if c =? 0 then [] else c :: before_nul s' end.

(** [lfn_entries[seq] = chars]. *)
Fixpoint put_entry (k : Z) (v : bytes) (l : list (Z * bytes)) : list (Z * bytes) :=
  match l with
  | [] => [(k, v)]
  | (j, w) :: l' => if k =? j then (k, v) :: l' else (j, w) :: put_entry k v l'
  end.

(** The loop over the long name records in front of an entry; each takes 32
    bytes of the directory, or stays at its end. *)
Fixpoint lfn_loop (fuel : nat) (consumed : Z) (lfn : list (Z * bytes)) (b : backing) (fs : fat)
  : result (Z * Z * list (Z * bytes) * backing * fat) :=
  match fuel with
  | O => Raise OutOfFuel
  | S fuel' =>
      let! (attributes, b, fs) := b_byte (b_skip 11 b) fs in
      let b := b_skip (-12) b in
      if negb (Z.land attributes LFN_ATTRIBUTES =? LFN_ATTRIBUTES) then Ok (attributes, consumed, lfn, b, fs)
      else
        let! (seq, b, fs) := b_byte b fs in
        let! (c1, b, fs) := b_read 10 b fs in
        let! (c2, b, fs) := b_read 12 (b_skip 3 b) fs in
        let! (c3, b, fs) := b_read 4 (b_skip 2 b) fs in
        let! chars := utf16_to_utf8 (c1 ++ c2 ++ c3) in
        lfn_loop fuel' (consumed + 1) (put_entry seq chars lfn) b fs
  end.

Definition read_dentry (b : backing) (fs : fat) : result (option dentry * Z * backing * fat) :=
  let! (attributes, consumed, lfn, b, fs) := lfn_loop (S (Z.to_nat (b_size b))) 1 [] b fs in
  let! (ind, b, fs) := b_byte b fs in
  if (ind =? 0) || (ind =? DEL_MARKER) then Ok (None, consumed, b_skip 31 b, fs)
  else
    let ind := if ind =? ESCAPE_DEL_MARKER then DEL_MARKER else ind in
    if 128 <=? ind then Raise ValueError
    else if ind =? 46 then Ok (None, consumed, b_skip 31 b, fs)
    else
      let! (s, b, fs) := b_read 7 b fs in
      let! (e, b, fs) := b_read 3 b fs in
      let b := b_skip 15 b in
      let! (c, b, fs) := b_read 2 b fs in
      let! first_cluster := unpack_H c in
      let! (n, b, fs) := b_read 4 b fs in
      let! size := unpack_L n in
      let name := flat_map snd (sort_by (fun x y => x.1 <=? y.1) lfn) in
      Ok (Some (mkDentry attributes (ind :: rstrip_ws s) (rstrip_ws e)
                  (match name with [] => None | _ => Some (before_nul name) end) first_cluster size),
          consumed, b, fs).

(** * Directories *)

Record fat_dir := mkDir { backing_of : backing; dentries : list dentry }.

(** The loop of [fat_dir.__init__]; an entry consumes at least one record. *)
Fixpoint dir_loop (fuel : nat) (to_read : Z) (b : backing) (acc : list dentry) (fs : fat)
  : result (fat_dir * fat) :=
  if 0 <? to_read then
    match fuel with
    | O => Raise OutOfFuel
    | S fuel' =>
        let! (dent, consumed, b, fs) := read_dentry b fs in
        dir_loop fuel' (to_read - consumed) b (match dent with Some d => acc ++ [d] | None => acc end) fs
    end
  else Ok (mkDir b acc, fs).

Definition open_fat_dir (b : backing) (fs : fat) : result (fat_dir * fat) :=
  dir_loop (Z.to_nat (b_size b / 32)) (b_size b / 32) (b_seek 0 b) [] fs.

Definition open_directory (d : dentry) (fs : fat) : result (fat_dir * fat) :=
  assert! is_directory d in
  let! (b, fs) := open_chain (first_cluster d) fs in
  open_fat_dir b fs.

Definition add_dentry (d : dentry) (dir : fat_dir) (fs : fat) : result (fat_dir * fat) :=
  let! (b, fs) := commit d (backing_of dir) fs in
  Ok (mkDir b (dentries dir ++ [d]), fs).

(** [str.upper] and [str(index)]. *)
Definition upper (s : bytes) : bytes := map (fun c => if (97 <=? c) && (c <=? 122) then c - 32 else c) s.
Fixpoint decimal (fuel : nat) (n : Z) : bytes :=
  match fuel with
  | O => []
  | S fuel' => if n <? 10 then [48 + n] else decimal fuel' (n / 10) ++ [48 + n mod 10]
  end.

Definition DOT : Z := 46.

Definition shorten (name : bytes) (index : Z) : bytes :=
  let name := upper (filter (fun c => c <> DOT) name) in
  let postfix := 126 :: decimal (Z.to_nat index) index in
  take (8 - length postfix) name ++ postfix.

(** [name.rsplit('.', 1)], with an empty extension when there is no dot. *)
Fixpoint rsplit_dot (s : bytes) : bytes * bytes :=
  match s with
  | [] => ([], [])
  | c :: s' =>
      if decide (DOT ∈ s') then let '(a, b) := rsplit_dot s' in (c :: a, b)
      else if c =? DOT then ([], s') else (c :: s', [])
  end.

(** One entry in the loop of [make_short_name]. *)
Definition name_step (name : bytes) (st : Z * bytes) (dent : dentry) : result (Z * bytes) :=
  let '(index, shortened) := st in
  assert! negb (bool_decide (longname dent = Some name)) in
  if decide (shortname dent = shortened) then Ok (index + 1, shorten name (index + 1)) else Ok (index, shortened).

Definition make_short_name (name : bytes) (dir : fat_dir) : result (bytes * bytes) :=
  let '(name, ext) := rsplit_dot name in
  let ext := upper ext in
  let! (_, shortened) := foldM (name_step name) (1, shorten name 1) (dentries dir) in
  if (blen name <=? 8) && (blen ext <=? 3) && negb (bool_decide (DOT ∈ name)) then
    Ok (ljust 8 (upper name), ljust 3 ext)
  else Ok (ljust 8 shortened, ljust 3 (take 3 ext)).

(** [new_file] with data: an empty file has no cluster; when there is no room
    the [None] of [allocate] fails to be packed in the entry. *)
Definition new_file (name data : bytes) (dir : fat_dir) (fs : fat) : result (fat_dir * fat) :=
  let! (chunk, fs) := if 0 <? blen data then allocate (blen data) fs else Ok (Some 0, fs) in
  let! (short, ext) := make_short_name name dir in
  match chunk with
  | None => Raise StructError
  | Some chunk =>
      let! (dir, fs) := add_dentry (mkDentry 0 short ext (Some name) chunk (blen data)) dir fs in
      let! (_, fs) := b_write data (FatFile chunk 0 (blen data)) fs in
      Ok (dir, fs)
  end.

(** [open_subdirectory]: the subdirectory, and the directory itself, which
    gets a new entry when there was none. *)
Definition open_subdirectory (name : bytes) (dir : fat_dir) (fs : fat) : result (fat_dir * fat_dir * fat) :=
  match List.find (fun d => bool_decide (longname d = Some name)) (dentries dir) with
  | Some d => let! (sub, fs) := open_directory d fs in Ok (sub, dir, fs)
  | None =>
      let! (chunk, fs) := allocate 1 fs in
      let! (short, ext) := make_short_name name dir in
      match chunk with
      | None => Raise StructError
      | Some chunk =>
          let d := mkDentry ATTRIBUTE_SUBDIRECTORY short ext (Some name) chunk 0 in
          let! (dir, fs) := add_dentry d dir fs in
          let! (sub, fs) := open_directory d fs in
          let parent := match backing_of dir with RootFile _ _ => 0 | FatFile c _ _ => c end in
          let! (sub, fs) := add_dentry (mkDentry ATTRIBUTE_SUBDIRECTORY [DOT] [] (Some []) chunk 0) sub fs in
          let! (sub, fs) := add_dentry (mkDentry ATTRIBUTE_SUBDIRECTORY [DOT; DOT] [] (Some []) parent 0) sub fs in
          Ok (sub, dir, fs)
      end
  end.

(** * Copying *)

(** A file or directory of the host; a directory lists its items sorted by
    name. *)
Inductive item := HostFile (name data : bytes) | HostDir (name : bytes) (items : list item).

Fixpoint add_item (it : item) (dir : fat_dir) (fs : fat) : result (fat_dir * fat) :=
  match it with
  | HostFile name data => new_file name data dir fs
  | HostDir name items =>
      let! (sub, dir, fs) := open_subdirectory name dir fs in
      let! (_, fs) :=
        (fix go (l : list item) (st : fat_dir * fat) : result (fat_dir * fat) :=
           match l with
           | [] => Ok st
           | x :: l' => let! st := add_item x st.1 st.2 in go l' st
           end) items (sub, fs) in
      Ok (dir, fs)
  end.

(** [fat.__init__] on the content of the image, and the main program. *)
Definition open_fat (image : bytes) : result (fat_dir * fat) :=
  let f := mkFile image 0xb in
  let! (bytes_per_sector, f) := read_le_short f in
  let! (sectors_per_cluster, f) := read_byte f in
  let! (reserved_sectors, f) := read_le_short f in
  assert! reserved_sectors =? 1 in
  let! (fat_count, f) := read_byte f in
  assert! fat_count =? 2 in
  let! (root_entries, f) := read_le_short f in
  let! f := f_skip 2 f in
  let! f := f_skip 1 f in
  let! (n, f) := read_le_short f in
  let fs := mkFat f (bytes_per_sector * sectors_per_cluster) root_entries (n * bytes_per_sector) in
  open_fat_dir (RootFile 0 (root_entries * 32)) fs.

Definition copy_items (image : bytes) (items : list item) : result bytes :=
  let! (root, fs) := open_fat image in
  let! (_, fs) := foldM (fun st it => add_item it st.1 st.2) (root, fs) items in
  Ok (f_data (fs_f fs)).

End alloc.
