(* ===== verification/Fat16Facts.v ===== *)
(** tools/fat16copy.py: the allocation table.  Reading and writing entries, the
    scan for free clusters, and [allocate]: the chain it links. *)

From S2P Require Export Fat16.

#[local] Open Scope list_scope.
#[local] Open Scope Z_scope.

(** * Bytes *)

Definition get (d : bytes) (i : Z) : Z := d !!! Z.to_nat i.
Definition u16 (d : bytes) (p : Z) : Z := get d p + 256 * get d (p + 1).

Lemma get_ok d i : bytes_ok d -> 0 <= get d i < 256.
Proof.
  intros H. unfold get. destruct (d !! Z.to_nat i) as [x|] eqn:E.
  - rewrite (list_lookup_total_correct _ _ _ E). by eapply Forall_lookup_1 in H.
  - rewrite list_lookup_total_alt, E. simpl. done.
Qed.

Lemma u16_ok d p : bytes_ok d -> 0 <= u16 d p < 65536.
Proof. intros H. unfold u16. pose proof (get_ok d p H). pose proof (get_ok d (p + 1) H). lia. Qed.

Lemma slice_get (d : bytes) p n i : 0 <= p -> 0 <= i < n -> p + n <= blen d -> get (py_slice d p (p + n)) i = get d (p + i).
Proof.
  intros. unfold get, py_slice, blen in *. rewrite !list_lookup_total_alt.
  rewrite lookup_take. case_decide; [|lia]. rewrite lookup_drop. do 2 f_equal. lia.
Qed.

Lemma bytes_eq (a b : bytes) : blen a = blen b -> (forall i, 0 <= i < blen a -> get a i = get b i) -> a = b.
Proof.
  unfold blen, get. intros Hl H. apply list_eq. intros i. destruct (decide (i < length a)%nat).
  - specialize (H (Z.of_nat i) ltac:(lia)). rewrite Nat2Z.id in H.
    rewrite (list_lookup_lookup_total_lt a i), (list_lookup_lookup_total_lt b i) by lia. by rewrite H.
  - rewrite !(proj2 (lookup_ge_None _ _)) by lia. done.
Qed.

Lemma splice_get d p b i : 0 <= p -> p + blen b <= blen d -> 0 <= i ->
  get (splice d (Z.to_nat p) b) i = if (p <=? i) && (i <? p + blen b) then get b (i - p) else get d i.
Proof.
  unfold get, blen. intros Hp Hb Hi. rewrite splice_in by lia. rewrite !list_lookup_total_alt. f_equal.
  rewrite !lookup_app, lookup_take, lookup_drop, length_take.
  destruct (Z.leb_spec p i); simpl.
  - rewrite decide_False by lia. destruct (Z.ltb_spec i (p + Z.of_nat (length b))).
    + replace (Z.to_nat i - Z.to_nat p `min` length d)%nat with (Z.to_nat (i - p)) by lia.
      rewrite (list_lookup_lookup_total_lt b) by lia. done.
    + rewrite (lookup_ge_None_2 b) by lia. f_equal. f_equal. lia.
  - case_decide; [|lia]. by rewrite (list_lookup_lookup_total_lt d) by lia.
Qed.

Lemma splice_bytes_ok d p b : bytes_ok d -> bytes_ok b -> (p + length b <= length d)%nat -> bytes_ok (splice d p b).
Proof.
  intros Hd Hb Hl. rewrite splice_in by done. apply Forall_app. split; [by apply Forall_take|].
  apply Forall_app. split; [done|by apply Forall_drop].
Qed.

Lemma pack_H_ok n : 0 <= n < 65536 -> pack_H n = Ok [n mod 256; n / 256] /\ bytes_ok [n mod 256; n / 256].
Proof.
  intros H. unfold pack_H. destruct (Z.leb_spec 0 n); [|lia]. destruct (Z.ltb_spec n 65536); [|lia].
  split; [done|]. assert (0 <= n mod 256 < 256) by (apply Z.mod_pos_bound; lia).
  assert (0 <= n / 256 < 256) by (split; [apply Z.div_pos; lia|apply Z.div_lt_upper_bound; lia]).
  unfold bytes_ok. by rewrite !Forall_cons, Forall_nil.
Qed.

(** * The file system state *)

Definition fdata (fs : fat) : bytes := f_data (fs_f fs).
Definition at_pos (p : Z) (fs : fat) : fat := set_f (f_seek p (fs_f fs)) fs.
Definition entry (fs : fat) (c : Z) : Z := u16 (fdata fs) (FAT_TABLE_START + c * 2).
Definition mirror (fs : fat) (c : Z) : Z := u16 (fdata fs) (FAT_TABLE_START + c * 2 + fat_size fs).
Definition clusters (fs : fat) : Z := fat_size fs / 2.
Definition free_clusters (fs : fat) : list Z := filter (fun c => entry fs c = 0) (zrange 2 (clusters fs)).

(** An image with two tables of the stated size that name no cluster beyond
    [MAX_CLUSTER_ID]. *)
Record fs_ok (fs : fat) : Prop := {
  ok_bytes : bytes_ok (fdata fs);
  ok_bpc : 0 < bytes_per_cluster fs;
  ok_root : 0 <= root_entries fs;
  ok_size : 0 <= fat_size fs;
  ok_tables : FAT_TABLE_START + 2 * fat_size fs <= blen (fdata fs);
  ok_max : clusters fs <= MAX_CLUSTER_ID + 1
}.

Lemma fs_ok_at p fs : fs_ok fs -> fs_ok (at_pos p fs).
Proof. by intros [H1 H2 H3 H4 H5 H6]; split. Qed.

Lemma cluster_in_table fs c : 0 <= c < clusters fs -> 2 * c + 1 < fat_size fs.
Proof. unfold clusters. intros H. pose proof (Z.mul_div_le (fat_size fs) 2). lia. Qed.

Lemma entry_range fs c : fs_ok fs -> 0 <= entry fs c < 65536.
Proof. intros H. apply u16_ok, H. Qed.

Lemma f_read_in n p (f : file) : 0 <= p -> 0 <= n -> p + n <= blen (f_data f) ->
  f_read n (f_seek p f) = (py_slice (f_data f) p (p + n), f_seek (p + n) f).
Proof. intros. unfold f_read. simpl. by rewrite slice_length by lia. Qed.

Lemma read_le_short_at p (f : file) : 0 <= p -> p + 2 <= blen (f_data f) ->
  read_le_short (f_seek p f) = Ok (u16 (f_data f) p, f_seek (p + 2) f).
Proof.
  intros. unfold read_le_short. rewrite f_read_in by lia.
  pose proof (slice_length (f_data f) p 2 ltac:(lia) ltac:(lia) ltac:(lia)) as Hl. unfold blen in Hl.
  pose proof (slice_get (f_data f) p 2 0 ltac:(lia) ltac:(lia) ltac:(lia)) as G0.
  pose proof (slice_get (f_data f) p 2 1 ltac:(lia) ltac:(lia) ltac:(lia)) as G1.
  destruct (py_slice (f_data f) p (p + 2)) as [|x [|y [|]]]; simpl in Hl; try lia.
  change (x = get (f_data f) (p + 0)) in G0. change (y = get (f_data f) (p + 1)) in G1.
  simpl. subst x y. unfold u16. by rewrite Z.add_0_r.
Qed.

Lemma read_entry_ok fs c : fs_ok fs -> 0 <= c < clusters fs ->
  read_entry c fs = Ok (entry fs c, at_pos (FAT_TABLE_START + c * 2 + 2) fs).
Proof.
  intros H Hc. pose proof (ok_tables _ H). pose proof (cluster_in_table fs c Hc).
  unfold read_entry. unfold FAT_TABLE_START in *. by rewrite read_le_short_at by (unfold fdata in *; lia).
Qed.

(** * Changes of the tables *)

(** [fs'] is [fs] with the entries of [m] put in both tables. *)
Record table_step (fs fs' : fat) (m : gmap Z Z) : Prop := {
  ts_bpc : bytes_per_cluster fs' = bytes_per_cluster fs;
  ts_root : root_entries fs' = root_entries fs;
  ts_size : fat_size fs' = fat_size fs;
  ts_len : length (fdata fs') = length (fdata fs);
  ts_bytes : bytes_ok (fdata fs');
  ts_entry : forall c, 0 <= c < clusters fs -> entry fs' c = default (entry fs c) (m !! c);
  ts_mirror : forall c, 0 <= c < clusters fs -> mirror fs' c = default (mirror fs c) (m !! c);
  ts_rest : forall i, 0 <= i -> i < FAT_TABLE_START \/ FAT_TABLE_START + 2 * fat_size fs <= i ->
    get (fdata fs') i = get (fdata fs) i
}.

Lemma table_step_ok fs fs' m : fs_ok fs -> table_step fs fs' m -> fs_ok fs'.
Proof.
  intros [H1 H2 H3 H4 H5 H6] [T1 T2 T3 T4 T5 _ _ _]. unfold clusters in *.
  split; unfold clusters, blen in *; rewrite ?T1, ?T2, ?T3, ?T4; done.
Qed.

Lemma table_step_refl fs p : fs_ok fs -> table_step fs (at_pos p fs) ∅.
Proof. intros H. split; try done; [apply H|..]; intros c Hc; by rewrite lookup_empty. Qed.

Lemma table_step_trans fs fs1 fs2 m1 m2 : table_step fs fs1 m1 -> table_step fs1 fs2 m2 -> table_step fs fs2 (m2 ∪ m1).
Proof.
  intros [A1 A2 A3 A4 A5 A6 A7 A8] [B1 B2 B3 B4 B5 B6 B7 B8].
  assert (clusters fs1 = clusters fs) as Hc by (unfold clusters; congruence). rewrite Hc in B6, B7. rewrite A3 in B8.
  split; try congruence.
  - intros c Hcc. rewrite B6, A6, lookup_union by done. by destruct (m2 !! c), (m1 !! c).
  - intros c Hcc. rewrite B7, A7, lookup_union by done. by destruct (m2 !! c), (m1 !! c).
  - intros i Hi Hr. by rewrite B8, A8.
Qed.

(** One entry written at its place. *)
Lemma write_cluster_entry_ok fs c e : fs_ok fs -> 0 <= c < clusters fs -> 0 <= e < 65536 ->
  exists f, write_cluster_entry e (f_seek (FAT_TABLE_START + c * 2) (fs_f fs)) (fat_size fs) = Ok f /\
    f_pos f = FAT_TABLE_START + c * 2 + 2 /\ table_step fs (set_f f fs) {[c := e]}.
Proof.
  intros H Hc He. pose proof (ok_tables _ H). pose proof (cluster_in_table fs c Hc).
  destruct (pack_H_ok e He) as [Hp Hb]. unfold write_cluster_entry. rewrite Hp.
  unfold FAT_TABLE_START in *. set (p := 512 + c * 2) in *.
  unfold f_skip, f_write; cbn [f_pos f_data f_seek]. change (blen [e mod 256; e / 256]) with 2.
  destruct (Z.ltb_spec (p + 2 + (fat_size fs - 2)) 0); [lia|]. cbn [f_pos f_data f_seek].
  replace (p + 2 + (fat_size fs - 2)) with (p + fat_size fs) by lia.
  destruct (Z.ltb_spec (p + fat_size fs + 2 + - fat_size fs) 0); [lia|].
  set (b := [e mod 256; e / 256]) in *. set (d := fdata fs) in *.
  eexists. split; [done|]. split; [simpl; lia|].
  set (d1 := splice (f_data (fs_f fs)) (Z.to_nat p) b). set (d2 := splice d1 (Z.to_nat (p + fat_size fs)) b).
  assert (length b = 2%nat) as Hbl by done. assert (blen b = 2) as Hbb by done.
  assert (length d1 = length d) as Hl1 by (apply splice_length; unfold d, fdata, blen in *; lia).
  assert (length d2 = length d) as Hl2 by (unfold d2; rewrite splice_length; [done|unfold blen in *; lia]).
  assert (forall i, 0 <= i -> get d2 i =
    if (p + fat_size fs <=? i) && (i <? p + fat_size fs + 2) then get b (i - (p + fat_size fs))
    else if (p <=? i) && (i <? p + 2) then get b (i - p) else get d i) as Hget.
  { intros i Hi. unfold d2. rewrite splice_get by (unfold blen in *; lia). rewrite Hbb.
    destruct ((p + fat_size fs <=? i) && _); [done|]. unfold d1. by rewrite splice_get by (unfold d, fdata, blen in *; lia). }
  assert (get b 0 = e mod 256 /\ get b 1 = e / 256) as [Hb0 Hb1] by done.
  assert (e mod 256 + 256 * (e / 256) = e) as Hee by (pose proof (Z.div_mod e 256); lia).
  split; try done; change (fdata (set_f _ fs)) with d2.
  - repeat (apply splice_bytes_ok; [|done|unfold d, fdata, blen in *; lia]). apply H.
  - intros c' Hc'. pose proof (cluster_in_table fs c' Hc'). unfold entry, u16. change (fdata (set_f _ fs)) with d2. unfold FAT_TABLE_START.
    rewrite !Hget by lia. rewrite lookup_singleton. case_decide as Hcc.
    + subst c'. fold p. simpl. zcases. replace (p - p) with 0 by lia. replace (p + 1 - p) with 1 by lia. lia.
    + simpl. zcases.
  - intros c' Hc'. pose proof (cluster_in_table fs c' Hc'). unfold mirror, u16.
    change (fdata (set_f _ fs)) with d2. change (fat_size (set_f _ fs)) with (fat_size fs). unfold FAT_TABLE_START.
    rewrite !Hget by lia. rewrite lookup_singleton. case_decide as Hcc.
    + subst c'. fold p. simpl. zcases.
      replace (p + fat_size fs - (p + fat_size fs)) with 0 by lia.
      replace (p + fat_size fs + 1 - (p + fat_size fs)) with 1 by lia. lia.
    + simpl. zcases.
  - intros i Hi Hr. rewrite Hget by done. unfold FAT_TABLE_START in *. zcases.
Qed.

(** * The scan for free clusters *)

(** The clusters of a run, and of several. *)
Definition run (z : Z * Z) : list Z := zrange z.1 (z.1 + z.2).
Definition runs (l : list (Z * Z)) : list Z := flat_map run l.

Definition scan_zones (s : Scan) : list (Z * Z) :=
  match sc_current s with Some c => sc_zones s ++ [(c, sc_size s)] | None => sc_zones s end.

Lemma runs_app l1 l2 : runs (l1 ++ l2) = runs l1 ++ runs l2.
Proof. apply flat_map_app. Qed.

Lemma runs_length l : Forall (fun z => 0 <= z.2) l -> Z.of_nat (length (runs l)) = sumZ (map snd l).
Proof.
  induction 1 as [|z l Hz Hl IH]; [done|]. unfold runs in *. simpl. rewrite length_app, Nat2Z.inj_add, IH.
  f_equal. unfold run. rewrite length_zrange. lia.
Qed.

Lemma zrange_snoc s e : s <= e -> zrange s (e + 1) = zrange s e ++ [e].
Proof.
  intros. rewrite (zrange_split s e (e + 1)) by lia. f_equal. rewrite zrange_cons, zrange_nil by lia. done.
Qed.

Record scan_inv (fs : fat) (pos : Z) (s : Scan) : Prop := {
  si_file : sc_file s = f_seek (FAT_TABLE_START + pos * 2) (fs_f fs);
  si_runs : runs (scan_zones s) = filter (fun c => entry fs c = 0) (zrange 2 pos);
  si_sizes : Forall (fun z => 0 < z.2) (scan_zones s);
  si_open : forall c, sc_current s = Some c -> c + sc_size s = pos
}.

Lemma scan_entry_ok fs pos s : fs_ok fs -> 2 <= pos < clusters fs -> scan_inv fs pos s ->
  exists s', scan_entry s pos = Ok s' /\ scan_inv fs (pos + 1) s'.
Proof.
  intros H Hp [S1 S2 S3 S4]. pose proof (ok_tables _ H). pose proof (cluster_in_table fs pos ltac:(lia)).
  unfold scan_entry. rewrite S1. unfold FAT_TABLE_START in *.
  rewrite read_le_short_at by (unfold fdata in *; lia).
  change (u16 (f_data (fs_f fs)) (512 + pos * 2)) with (entry fs pos).
  replace (512 + pos * 2 + 2) with (512 + (pos + 1) * 2) by lia.
  assert (filter (fun c => entry fs c = 0) (zrange 2 (pos + 1)) =
    filter (fun c => entry fs c = 0) (zrange 2 pos) ++ (if entry fs pos =? 0 then [pos] else [])) as Hf.
  { rewrite zrange_snoc, filter_app by lia. f_equal. rewrite filter_cons, filter_nil.
    destruct (Z.eqb_spec (entry fs pos) 0); by case_decide. }
  unfold scan_zones in *. destruct (entry fs pos =? 0), (sc_current s) as [c|] eqn:Ec;
    (eexists; split; [done|]; split; unfold scan_zones; cbn [sc_file sc_zones sc_current sc_size]; [done| | |]).
  - rewrite Hf, <- S2, !runs_app. specialize (S4 c eq_refl). rewrite <- app_assoc. f_equal.
    apply Forall_app in S3 as [_ S3]. apply Forall_cons in S3 as [S3 _]. simpl in S3.
    unfold runs, run. simpl. rewrite !app_nil_r.
    replace (c + (sc_size s + 1)) with (pos + 1) by lia. rewrite zrange_snoc by lia. by rewrite S4.
  - apply Forall_app in S3 as [S3 S3']. apply Forall_app. split; [done|]. apply Forall_cons in S3' as [S3' _].
    simpl in *. repeat constructor. simpl. lia.
  - intros c' [= <-]. specialize (S4 c eq_refl). lia.
  - rewrite Hf, <- S2, runs_app. f_equal. unfold runs, run. simpl. rewrite zrange_cons, zrange_nil by lia. done.
  - apply Forall_app. split; [done|]. repeat constructor.
  - intros c' [= <-]. lia.
  - rewrite Hf, <- S2. by rewrite app_nil_r.
  - done.
  - done.
  - rewrite Hf, <- S2. by rewrite app_nil_r.
  - done.
  - done.
Qed.

Lemma free_zones_ok fs : fs_ok fs ->
  exists zones p, free_zones fs = Ok (zones, at_pos p fs) /\ runs zones = free_clusters fs /\ Forall (fun z => 0 < z.2) zones.
Proof.
  intros H. unfold free_zones.
  destruct (foldM_ok (fun pre s => scan_inv fs (2 + Z.of_nat (length pre)) s) scan_entry
    (mkScan [] None 0 (f_seek (FAT_TABLE_START + 4) (fs_f fs))) (zrange 2 (fat_size fs / 2))) as (s & -> & [S1 S2 S3 _]).
  - split; try done.
  - intros pre pos post s Hl Hs.
    assert (pos = 2 + Z.of_nat (length pre) /\ pos < clusters fs) as [-> Hlt].
    { assert (zrange 2 (fat_size fs / 2) !! length pre = Some pos) as E by (rewrite Hl; by apply list_lookup_middle).
      apply lookup_seqZ in E. unfold clusters. destruct E as [E1 E2]. split; [exact E1|lia]. }
    destruct (scan_entry_ok fs (2 + Z.of_nat (length pre)) s H ltac:(lia) Hs) as (s' & Hs' & Hi). exists s'. split; [done|].
    rewrite length_app. simpl. by replace (2 + Z.of_nat (length pre + 1)) with (2 + Z.of_nat (length pre) + 1) by lia.
  - exists (scan_zones s), (FAT_TABLE_START + (2 + Z.of_nat (length (zrange 2 (fat_size fs / 2)))) * 2).
    split; [by rewrite S1|]. split; [|done]. rewrite S2. unfold free_clusters. f_equal.
    rewrite length_zrange. destruct (Z.le_gt_cases 2 (clusters fs)).
    + unfold clusters in *. f_equal. lia.
    + unfold clusters in *. by rewrite !zrange_nil by lia.
Qed.

(** * Chains *)

(** The entries that link the clusters of [l] and end with [e]. *)
Fixpoint links (l : list Z) (e : Z) : gmap Z Z :=
  match l with [] => ∅ | c :: l' => <[c := default e (head l')]> (links l' e) end.

Lemma links_None l e c : c ∉ l -> links l e !! c = None.
Proof.
  induction l as [|d l IH]; [done|]. intros [Hd Hl]%not_elem_of_cons. simpl.
  rewrite lookup_insert_ne by done. by apply IH.
Qed.

Lemma links_app l1 l2 e : links l1 (default e (head l2)) ∪ links l2 e = links (l1 ++ l2) e.
Proof.
  induction l1 as [|c l1 IH]; simpl; [by rewrite (left_id_L ∅ (∪))|]. rewrite <- insert_union_l, IH. f_equal. by destruct l1.
Qed.

Lemma links_singleton c e : links [c] e = {[c := e]}.
Proof. done. Qed.

Lemma set_f_at f fs : set_f f fs = at_pos (f_pos f) (set_f f fs).
Proof. by destruct f. Qed.

Lemma zrange_length_pos c n : 0 < n -> zrange c (c + n) = c :: zrange (c + 1) (c + n).
Proof. intros. by rewrite zrange_cons by lia. Qed.

Lemma f_seek_self p f : f_pos f = p -> f_seek p f = f.
Proof. by destruct f; intros <-. Qed.

(** The entries of one run are written one after the other. *)
Lemma write_run_ok n : forall c e fs, fs_ok fs -> f_pos (fs_f fs) = FAT_TABLE_START + c * 2 ->
  0 <= c -> c + Z.of_nat (S n) <= clusters fs -> 0 <= e < 65536 ->
  exists f', foldM (fun f e => write_cluster_entry e f (fat_size fs)) (fs_f fs)
               (zrange (c + 1) (c + Z.of_nat (S n)) ++ [e]) = Ok f' /\
    table_step fs (set_f f' fs) (links (zrange c (c + Z.of_nat (S n))) e).
Proof.
  induction n as [|n IH]; intros c e fs H Hf Hc Hn He.
  - rewrite (zrange_nil (c + 1)) by lia. rewrite zrange_length_pos, (zrange_nil (c + 1)) by lia. simpl.
    destruct (write_cluster_entry_ok fs c e H ltac:(lia) He) as (f' & Hw & _ & Ht). rewrite f_seek_self in Hw by done.
    rewrite Hw. by exists f'.
  - assert (c + 1 < 65536) as Hmax by (pose proof (ok_max _ H); unfold MAX_CLUSTER_ID in *; lia).
    rewrite (zrange_cons (c + 1)) by lia. cbn [foldM app].
    destruct (write_cluster_entry_ok fs c (c + 1) H ltac:(lia) ltac:(lia)) as (f1 & Hw & Hpos & Ht).
    rewrite f_seek_self in Hw by done. rewrite Hw.
    set (fs1 := set_f f1 fs) in *. pose proof (table_step_ok _ _ _ H Ht) as H1.
    assert (clusters fs1 = clusters fs) as Hcl by done.
    destruct (IH (c + 1) e fs1 H1) as (f' & Hf' & Ht'); [simpl; lia|lia|rewrite Hcl; lia|done|].
    replace (c + 1 + Z.of_nat (S n)) with (c + Z.of_nat (S (S n))) in Hf', Ht' by lia.
    simpl fs_f in Hf'. simpl fat_size in Hf'. rewrite Hf'. exists f'. split; [done|].
    pose proof (table_step_trans _ _ _ _ _ Ht Ht') as Hstep.
    rewrite zrange_length_pos by lia. cbn [links].
    rewrite insert_union_singleton_r; [|apply links_None; rewrite elem_of_zrange; lia].
    rewrite (zrange_cons (c + 1)) in Hstep |- * by lia. exact Hstep.
Qed.

Lemma write_zone_ok out fs z : fs_ok fs -> 0 < z.2 -> 0 <= z.1 -> z.1 + z.2 <= clusters fs ->
  (forall c, out = Some c -> 0 < c < 65536) ->
  exists fs', write_zone (out, fs) z = Ok (Some z.1, fs') /\ table_step fs fs' (links (run z) (default 0xFFFF out)).
Proof.
  destruct z as [c n]. simpl. intros H Hn Hc Hle Hout. unfold write_zone, run. simpl.
  replace (match out with Some c => if c =? 0 then 65535 else c | None => 65535 end) with (default 0xFFFF out).
  2:{ destruct out as [o|]; [|done]. specialize (Hout o eq_refl). simpl. destruct (Z.eqb_spec o 0); [lia|done]. }
  assert (0 <= default 65535 out < 65536) as He.
  { destruct out as [o|]; simpl; [|lia]. specialize (Hout o eq_refl). lia. }
  set (p := FAT_TABLE_START + c * 2).
  destruct (write_run_ok (Z.to_nat (n - 1)) c (default 65535 out) (at_pos p fs)) as (f' & Hf & Ht).
  - by apply fs_ok_at.
  - done.
  - done.
  - change (clusters (at_pos p fs)) with (clusters fs). lia.
  - done.
  - replace (Z.of_nat (S (Z.to_nat (n - 1)))) with n in Hf, Ht by lia. simpl in Hf. rewrite Hf.
    exists (set_f f' fs). split; [done|].
    pose proof (table_step_trans _ _ _ _ _ (table_step_refl fs p H) Ht) as Hstep.
    by rewrite (right_id_L ∅ (∪)) in Hstep.
Qed.

Lemma write_zones_ok fs l : fs_ok fs ->
  Forall (fun z => 0 < z.2) l -> (forall c, c ∈ runs l -> 2 <= c < clusters fs) ->
  exists fs', foldM write_zone (None, fs) (rev l) = Ok (head (runs l), fs') /\
    table_step fs fs' (links (runs l) 0xFFFF).
Proof.
  intros H. induction l as [|z l IH]; intros Hs Hr; simpl.
  - exists fs. split; [done|]. pose proof (table_step_refl fs (f_pos (fs_f fs)) H) as Ht.
    by destruct fs as [[? ?] ? ? ?].
  - apply Forall_cons in Hs as [Hz Hs].
    assert (forall c, c ∈ run z -> 2 <= c < clusters fs) as Hrz by (intros c Hc; apply Hr, elem_of_app; by left).
    assert (z.1 ∈ run z /\ z.1 + z.2 - 1 ∈ run z) as [Hz1 Hz2] by (unfold run; rewrite !elem_of_zrange; lia).
    apply Hrz in Hz1, Hz2.
    destruct IH as (fs1 & Hf & Ht); [done|intros c Hc; apply Hr, elem_of_app; by right|].
    pose proof (table_step_ok _ _ _ H Ht) as H1.
    assert (clusters fs1 = clusters fs) as Hcl by (unfold clusters; by rewrite (ts_size _ _ _ Ht)).
    rewrite foldM_app, Hf. cbn [foldM].
    destruct (write_zone_ok (head (runs l)) fs1 z H1 Hz ltac:(lia) ltac:(lia)) as (fs' & Hw & Hstep).
    { intros c Hc. destruct (runs l) as [|c' r] eqn:E; [done|]. simpl in Hc. injection Hc as ->.
      assert (2 <= c < clusters fs).
      { apply Hr, elem_of_app. right. change (c ∈ runs l). rewrite E. by left. }
      pose proof (ok_max _ H). unfold MAX_CLUSTER_ID in *. lia. }
    rewrite Hw. exists fs'. split.
    + unfold run. by rewrite (zrange_length_pos z.1) by done.
    + pose proof (table_step_trans _ _ _ _ _ Ht Hstep) as Hs2. by rewrite links_app in Hs2.
Qed.

(** * Choosing the zones *)

Lemma grab_ok amount bpc zones : 0 < bpc -> forall g out, exists taken rest,
  grab amount bpc g zones out = (g + bpc * sumZ (map snd taken), out ++ taken) /\ zones = taken ++ rest /\
  (g + bpc * sumZ (map snd taken) < amount -> rest = []) /\ (amount <= g -> taken = []) /\
  (g < amount -> amount <= g + bpc * sumZ (map snd taken) ->
   exists t z, taken = t ++ [z] /\ g + bpc * sumZ (map snd t) < amount).
Proof.
  intros Hb. induction zones as [|z l IH]; intros g out; simpl.
  - exists [], []. simpl. rewrite app_nil_r. split_and!; try done; [f_equal; lia|lia].
  - destruct (Z.ltb_spec g amount).
    + destruct (IH (g + z.2 * bpc) (out ++ [z])) as (taken & rest & -> & -> & H1 & H2 & H3).
      exists (z :: taken), rest. simpl.
      split_and!; [f_equal; [lia|by rewrite <- app_assoc]|done|intros ?; apply H1; lia|lia|].
      intros _ Hge. destruct (Z.lt_ge_cases (g + z.2 * bpc) amount) as [Hlt|Hlt].
      * destruct H3 as (t & z' & -> & Ht); [done|lia|]. exists (z :: t), z'. split; [done|]. simpl. lia.
      * rewrite H2 by done. exists [], z. simpl. split; [done|lia].
    + exists [], (z :: l). simpl. rewrite app_nil_r. split_and!; try done; [f_equal; lia|lia..].
Qed.

Lemma runs_perm l1 l2 : l1 ≡ₚ l2 -> runs l1 ≡ₚ runs l2.
Proof. apply flat_map_perm. Qed.

(** The number of clusters that hold [amount] bytes. *)
Definition clusters_for (amount : Z) (fs : fat) : Z := (amount + bytes_per_cluster fs - 1) / bytes_per_cluster fs.

(** Trimming the last zone leaves exactly the clusters that are needed. *)
Lemma trim_ok t z excess : 0 <= excess < z.2 -> Forall (fun z => 0 < z.2) t ->
  exists l, trim excess (t ++ [z]) = Ok l /\ Forall (fun z => 0 < z.2) l /\
    sumZ (map snd l) = sumZ (map snd (t ++ [z])) - excess /\ exists s, runs (t ++ [z]) = runs l ++ s.
Proof.
  intros He Ht. unfold trim. rewrite rev_app_distr. simpl. rewrite rev_involutive.
  eexists. split; [done|]. split_and!.
  - apply Forall_app. split; [done|]. repeat constructor. simpl. lia.
  - rewrite !map_app, !sumZ_app. simpl. lia.
  - exists (zrange (z.1 + (z.2 - excess)) (z.1 + z.2)). rewrite !runs_app, <- app_assoc. f_equal.
    unfold runs, run. simpl. rewrite !app_nil_r. apply zrange_split. lia.
Qed.

Lemma last_zone_excess bpc amount n z : 0 < bpc -> 0 < z -> bpc * n < amount -> amount <= bpc * (n + z) ->
  let excess := (bpc * (n + z) - amount) / bpc in 0 <= excess < z /\ n + z - excess = (amount + bpc - 1) / bpc.
Proof.
  intros Hb Hz H1 H2 excess.
  pose proof (Z.div_mod (bpc * (n + z) - amount) bpc ltac:(lia)) as E.
  pose proof (Z.mod_pos_bound (bpc * (n + z) - amount) bpc ltac:(lia)). fold excess in E.
  split; [nia|]. apply (Z.div_unique_pos _ _ _ (amount + bpc - 1 - bpc * (n + z - excess))); nia.
Qed.

(** * allocate *)

Lemma NoDup_free_clusters fs : NoDup (free_clusters fs).
Proof. apply NoDup_filter, NoDup_zrange. Qed.

Lemma elem_of_free_clusters fs c : c ∈ free_clusters fs <-> entry fs c = 0 /\ 2 <= c < clusters fs.
Proof. unfold free_clusters. by rewrite list_elem_of_filter, elem_of_zrange. Qed.

Lemma allocate_ok dict_items amount fs : (forall l, dict_items l ≡ₚ l) -> fs_ok fs -> 0 < amount ->
  let need := clusters_for amount fs in
  (Z.of_nat (length (free_clusters fs)) < need ->
     exists p, allocate dict_items amount fs = Ok (None, at_pos p fs)) /\
  (need <= Z.of_nat (length (free_clusters fs)) ->
     exists fs' l, allocate dict_items amount fs = Ok (head l, fs') /\ NoDup l /\ Z.of_nat (length l) = need /\
       (forall c, c ∈ l -> c ∈ free_clusters fs) /\ table_step fs fs' (links l 0xFFFF)).
Proof.
  intros Hdict H Ha need. unfold allocate. destruct (Z.ltb_spec 0 amount); [|lia].
  destruct (free_zones_ok fs H) as (zones & p & -> & Hruns & Hsizes).
  set (sorted := rev (sort_by (fun x y => x.2 <=? y.2) (dict_items zones))).
  assert (sorted ≡ₚ zones) as Hperm by (unfold sorted; by rewrite <- Permutation_rev, sort_by_perm).
  assert (Forall (fun z => 0 < z.2) sorted) as Hss by (by rewrite Hperm).
  pose proof (runs_perm _ _ Hperm) as Hrp. rewrite Hruns in Hrp.
  pose proof (ok_bpc _ H) as Hb. simpl bytes_per_cluster. set (bpc := bytes_per_cluster fs) in *.
  destruct (grab_ok amount bpc sorted Hb 0 []) as (taken & rest & -> & Hsp & Hall & _ & Hlast).
  rewrite !Z.add_0_l in *. cbn [app].
  assert (Forall (fun z => 0 < z.2) taken) as Hts by (rewrite Hsp in Hss; by apply Forall_app in Hss as [? _]).
  assert (sumZ (map snd taken) + Z.of_nat (length (runs rest)) = Z.of_nat (length (free_clusters fs))) as Hlen.
  { rewrite <- Hrp, Hsp, runs_app, length_app, Nat2Z.inj_add. f_equal. symmetry. apply runs_length.
    eapply Forall_impl; [exact Hts|]. simpl. lia. }
  assert (forall c, c ∈ runs taken -> c ∈ free_clusters fs) as Hfree.
  { intros c Hc. rewrite <- Hrp, Hsp, runs_app, elem_of_app. by left. }
  assert (NoDup (runs taken)) as Hnd.
  { pose proof (NoDup_free_clusters fs) as Hn. rewrite <- Hrp, Hsp, runs_app in Hn. by apply NoDup_app in Hn as [? _]. }
  assert (bpc * need >= amount /\ bpc * (need - 1) < amount) as [Hn1 Hn2].
  { unfold need, clusters_for. fold bpc. pose proof (Z.div_mod (amount + bpc - 1) bpc ltac:(lia)).
    pose proof (Z.mod_pos_bound (amount + bpc - 1) bpc ltac:(lia)). nia. }
  destruct (Z.ltb_spec (bpc * sumZ (map snd taken)) amount) as [Hlt|Hge].
  - rewrite (Hall Hlt) in Hlen. simpl in Hlen. split; [intros _; by exists p|intros ?; nia].
  - split; [intros ?; nia|intros _]. destruct (Z.eqb_spec bpc 0); [lia|].
    destruct (Hlast Ha Hge) as (t & z & -> & Ht).
    rewrite map_app, sumZ_app in Hge |- *. simpl in Hge |- *. rewrite Z.add_0_r in *.
    apply Forall_app in Hts as [Hts Hz]. apply Forall_cons in Hz as [Hz _].
    destruct (last_zone_excess bpc amount (sumZ (map snd t)) z.2 Hb Hz Ht Hge) as [He Hneed].
    destruct (trim_ok t z _ He Hts) as (l & -> & Hl & Hsum & s & Hpre).
    assert (forall c, c ∈ runs l -> c ∈ free_clusters fs) as Hfl.
    { intros c Hc. apply Hfree. rewrite Hpre, elem_of_app. by left. }
    destruct (write_zones_ok (at_pos p fs) l (fs_ok_at p fs H) Hl) as (fs' & -> & Hstep).
    { intros c Hc. apply Hfl in Hc. by apply elem_of_free_clusters in Hc as [_ ?]. }
    exists fs', (runs l). split; [done|]. split_and!.
    + rewrite Hpre in Hnd. by apply NoDup_app in Hnd as [? _].
    + rewrite runs_length by (eapply Forall_impl; [exact Hl|simpl; lia]). rewrite Hsum, map_app, sumZ_app. simpl.
      rewrite Z.add_0_r. exact Hneed.
    + done.
    + pose proof (table_step_trans _ _ _ _ _ (table_step_refl fs p H) Hstep) as Hs2.
      by rewrite (right_id_L ∅ (∪)) in Hs2.
Qed.
