(* ===== verification/Fat16Props.v ===== *)
(** tools/fat16copy.py: reading and writing along a chain of clusters, what the tool
    guarantees about the image, and where it does not. *)

From S2P Require Export Fat16Facts.

#[local] Open Scope list_scope.
#[local] Open Scope Z_scope.
#[local] Arguments f_read : simpl never.
#[local] Arguments f_seek : simpl never.

(** * Slices *)

Lemma slice_app_l (a b : bytes) s e : 0 <= s -> e <= blen a -> py_slice (a ++ b) s e = py_slice a s e.
Proof.
  unfold py_slice, blen. intros Hs He. destruct (Z.le_gt_cases e s).
  - by replace (Z.to_nat (e - s)) with 0%nat by lia.
  - rewrite drop_app_le by lia. rewrite take_app_le by (rewrite length_drop; lia). done.
Qed.

Lemma slice_app_r (a b : bytes) s e : blen a <= s -> py_slice (a ++ b) s e = py_slice b (s - blen a) (e - blen a).
Proof.
  unfold py_slice, blen. intros Hs. rewrite drop_app_ge by lia. f_equal; [lia|]. f_equal. lia.
Qed.

Lemma slice_app_mid (a b : bytes) s e : 0 <= s <= blen a -> blen a <= e ->
  py_slice (a ++ b) s e = py_slice a s (blen a) ++ py_slice b 0 (e - blen a).
Proof.
  unfold py_slice, blen. intros Hs He. rewrite drop_app_le by lia.
  rewrite take_app. rewrite !length_drop. f_equal.
  - rewrite !take_ge by (rewrite length_drop; lia). done.
  - f_equal. lia.
Qed.

Lemma slice_slice (d : bytes) p n s e : 0 <= p -> 0 <= s <= e -> e <= n -> p + n <= blen d ->
  py_slice (py_slice d p (p + n)) s e = py_slice d (p + s) (p + e).
Proof.
  unfold py_slice, blen. intros. rewrite skipn_firstn_comm, drop_drop, take_take. f_equal; [lia|f_equal; lia].
Qed.

Lemma slice_empty (d : bytes) s e : e <= s -> py_slice d s e = [].
Proof. intros. unfold py_slice. by replace (Z.to_nat (e - s)) with 0%nat by lia. Qed.

(** * The content of a chain *)

Definition cluster_data (fs : fat) (c : Z) : bytes :=
  py_slice (fdata fs) (cluster_pos fs c) (cluster_pos fs c + bytes_per_cluster fs).
Definition content (fs : fat) (l : list Z) : bytes := flat_map (cluster_data fs) l.

(** The clusters of [l] follow each other and end the chain. *)
Fixpoint chained (fs : fat) (l : list Z) : Prop :=
  match l with
  | [] => True
  | c :: l' => match l' with [] => MAX_CLUSTER_ID < entry fs c | d :: _ => entry fs c = d end /\ chained fs l'
  end.

(** A cluster with an entry in the table and its data in the image. *)
Definition in_image (fs : fat) (c : Z) : Prop :=
  2 <= c < clusters fs /\ cluster_pos fs c + bytes_per_cluster fs <= blen (fdata fs).

Lemma cluster_pos_ge fs c : fs_ok fs -> 2 <= c -> FAT_TABLE_START + 2 * fat_size fs <= cluster_pos fs c.
Proof.
  intros H Hc. pose proof (ok_bpc _ H). pose proof (ok_root _ H). unfold cluster_pos, data_start. nia.
Qed.

Lemma cluster_pos_disjoint fs c d i : fs_ok fs -> c <> d ->
  cluster_pos fs c <= i < cluster_pos fs c + bytes_per_cluster fs ->
  ~ (cluster_pos fs d <= i < cluster_pos fs d + bytes_per_cluster fs).
Proof. intros H Hne. pose proof (ok_bpc _ H). unfold cluster_pos. nia. Qed.

Lemma blen_cluster_data fs c : fs_ok fs -> in_image fs c -> blen (cluster_data fs c) = bytes_per_cluster fs.
Proof.
  intros H [Hc Hi]. pose proof (cluster_pos_ge fs c H ltac:(lia)). pose proof (ok_bpc _ H). pose proof (ok_size _ H).
  unfold cluster_data. apply slice_length; unfold FAT_TABLE_START in *; lia.
Qed.

(** The file of the code is seen through a position; the tables and data do
    not depend on it. *)
Lemma chained_at p fs l : chained (at_pos p fs) l <-> chained fs l.
Proof. induction l as [|c l IH]; simpl; [done|]. rewrite IH. by destruct l. Qed.

Lemma content_at p fs l : content (at_pos p fs) l = content fs l.
Proof. done. Qed.

(** ** Reading *)

Lemma f_read_data fs c s e : fs_ok fs -> in_image fs c -> 0 <= s <= e -> e <= bytes_per_cluster fs ->
  exists p, f_read (e - s) (f_seek (cluster_pos fs c + s) (fs_f fs)) =
    (py_slice (cluster_data fs c) s e, f_seek p (fs_f fs)).
Proof.
  intros H [Hc Hi] Hs He. pose proof (cluster_pos_ge fs c H ltac:(lia)). pose proof (ok_size _ H).
  unfold FAT_TABLE_START in *. eexists. rewrite f_read_in by (unfold fdata in *; lia). f_equal.
  unfold cluster_data. rewrite slice_slice by (unfold fdata in *; lia).
  replace (cluster_pos fs c + s + (e - s)) with (cluster_pos fs c + e) by lia. done.
Qed.

Lemma read_loop_ok l : forall fuel fs c s n got, fs_ok fs -> chained fs (c :: l) -> Forall (in_image fs) (c :: l) ->
  0 <= s -> 0 < n -> s + n <= bytes_per_cluster fs * Z.of_nat (length (c :: l)) -> (length (c :: l) <= fuel)%nat ->
  exists p, read_loop fuel c s n got fs = Ok (got ++ py_slice (content fs (c :: l)) s (s + n), at_pos p fs).
Proof.
  induction l as [|d l IH]; intros fuel fs c s n got H Hch Hin Hs Hn Hlen Hfuel;
    (destruct fuel as [|fuel]; [simpl in Hfuel; lia|]); cbn [read_loop];
    pose proof (ok_bpc _ H) as Hb; set (bpc := bytes_per_cluster fs) in *;
    pose proof Hin as Hin0; apply Forall_cons in Hin as [Hc Hin];
    pose proof (blen_cluster_data fs c H Hc) as Hcd; fold bpc in Hcd;
    assert (0 <= cluster_pos fs c) as Hp0 by
      (pose proof (cluster_pos_ge fs c H ltac:(unfold in_image in Hc; lia)); pose proof (ok_size _ H); unfold FAT_TABLE_START in *; lia).
  - simpl length in Hlen. destruct (Z.ltb_spec s bpc); [|lia]. cbn [andb].
    unfold f_seek_set. destruct (Z.ltb_spec (cluster_pos fs c + s) 0); [lia|].
    destruct (Z.ltb_spec bpc (s + n)); [lia|].
    destruct (f_read_data fs c s (s + n) H Hc) as [p Hr]; [lia|fold bpc; lia|].
    replace (s + n - s) with n in Hr by lia. rewrite Hr.
    destruct (Z.eqb_spec (n - n) 0); [|lia]. exists p. simpl. by rewrite app_nil_r.
  - destruct Hch as [He Hch].
    assert (d ∈ d :: l) as Hd by left. rewrite Forall_forall in Hin. pose proof (Hin d Hd) as [Hd2 _].
    pose proof (ok_max _ H). unfold MAX_CLUSTER_ID in *.
    destruct Hc as [Hc1 Hc2]. destruct (Z.leb_spec c 32767); [|lia].
    destruct (Z.ltb_spec s bpc).
    + unfold f_seek_set. destruct (Z.ltb_spec (cluster_pos fs c + s) 0); [lia|].
      destruct (Z.ltb_spec bpc (s + n)).
      * destruct (f_read_data fs c s bpc H (conj Hc1 Hc2)) as [p Hr]; [lia|fold bpc; lia|]. rewrite Hr. cbn [andb].
        destruct (Z.eqb_spec (n - (bpc - s)) 0); [lia|]. change (set_f _ fs) with (at_pos p fs).
        rewrite read_entry_ok by (first [by apply fs_ok_at|change (clusters (at_pos p fs)) with (clusters fs); lia]).
        change (entry (at_pos p fs) c) with (entry fs c). rewrite He. destruct (Z.ltb_spec 0 d); [|lia].
        rewrite Z.max_l by lia.
        destruct (IH fuel (at_pos (FAT_TABLE_START + c * 2 + 2) (at_pos p fs)) d 0 (n - (bpc - s)) (got ++ py_slice (cluster_data fs c) s bpc)) as [p' Hr'].
        -- by repeat apply fs_ok_at.
        -- by rewrite !chained_at.
        -- by apply Forall_forall.
        -- lia.
        -- lia.
        -- simpl length in *. simpl bytes_per_cluster. fold bpc. lia.
        -- simpl in *. lia.
        -- rewrite Hr'. exists p'. f_equal. f_equal. rewrite !content_at, <- app_assoc. f_equal.
           change (content fs (c :: d :: l)) with (cluster_data fs c ++ content fs (d :: l)).
           rewrite slice_app_mid by lia. rewrite Hcd. do 2 f_equal. lia.
      * destruct (f_read_data fs c s (s + n) H (conj Hc1 Hc2)) as [p Hr]; [lia|fold bpc; lia|].
        replace (s + n - s) with n in Hr by lia. rewrite Hr.
        destruct (Z.eqb_spec (n - n) 0); [|lia]. exists p. simpl. f_equal. f_equal. f_equal.
        change (content fs (c :: d :: l)) with (cluster_data fs c ++ content fs (d :: l)). by rewrite slice_app_l by lia.
    + cbn [andb]. rewrite read_entry_ok by (first [done|lia]). rewrite He. destruct (Z.ltb_spec 0 d); [|lia].
      rewrite Z.max_r by lia.
      destruct (IH fuel (at_pos (FAT_TABLE_START + c * 2 + 2) fs) d (s - bpc) n got) as [p' Hr'].
      * by apply fs_ok_at.
      * by rewrite chained_at.
      * by apply Forall_forall.
      * lia.
      * lia.
      * simpl length in *. simpl bytes_per_cluster. fold bpc. lia.
      * simpl in *. lia.
      * rewrite Hr'. exists p'. f_equal. f_equal. f_equal. rewrite content_at.
        change (content fs (c :: d :: l)) with (cluster_data fs c ++ content fs (d :: l)).
        rewrite slice_app_r by lia. rewrite Hcd. f_equal. lia.
Qed.

(** ** Writing *)

(** [fs'] is [fs] with [data] put at offset [start] of the chain whose clusters
    from offset [cur] on are [l]. *)
Record chain_write (fs fs' : fat) (l : list Z) (cur start : Z) (data : bytes) : Prop := {
  cw_bpc : bytes_per_cluster fs' = bytes_per_cluster fs;
  cw_root : root_entries fs' = root_entries fs;
  cw_size : fat_size fs' = fat_size fs;
  cw_len : length (fdata fs') = length (fdata fs);
  cw_bytes : bytes_ok (fdata fs');
  cw_out : forall i, 0 <= i ->
    (forall c, c ∈ l -> ~ (cluster_pos fs c <= i < cluster_pos fs c + bytes_per_cluster fs)) ->
    get (fdata fs') i = get (fdata fs) i;
  cw_in : forall k c j, l !! k = Some c -> 0 <= j < bytes_per_cluster fs ->
    get (fdata fs') (cluster_pos fs c + j) =
    let o := cur + Z.of_nat k * bytes_per_cluster fs + j in
    if (start <=? o) && (o <? start + blen data) then get data (o - start) else get (fdata fs) (cluster_pos fs c + j)
}.

Lemma cw_pos fs fs' l cur start data c : chain_write fs fs' l cur start data -> cluster_pos fs' c = cluster_pos fs c.
Proof. intros [H1 H2 H3 _ _ _ _]. unfold cluster_pos, data_start. by rewrite H1, H2, H3. Qed.

Lemma cw_ok fs fs' l cur start data : fs_ok fs -> chain_write fs fs' l cur start data -> fs_ok fs'.
Proof.
  intros [H1 H2 H3 H4 H5 H6] [T1 T2 T3 T4 T5 _ _]. unfold clusters in *.
  split; unfold clusters, blen in *; rewrite ?T1, ?T2, ?T3, ?T4; done.
Qed.

(** The tables are in front of the clusters. *)
Lemma cw_entry fs fs' l cur start data c : fs_ok fs -> Forall (in_image fs) l -> chain_write fs fs' l cur start data ->
  0 <= c < clusters fs -> entry fs' c = entry fs c.
Proof.
  intros H Hl Hw Hc. pose proof (cluster_in_table fs c Hc). pose proof (ok_size _ H).
  assert (forall i, 0 <= i < FAT_TABLE_START + 2 * fat_size fs -> get (fdata fs') i = get (fdata fs) i) as Hg.
  { intros i Hi. apply (cw_out _ _ _ _ _ _ Hw); [lia|]. intros d Hd Hbad. rewrite Forall_forall in Hl.
    destruct (Hl d Hd) as [Hd2 _]. pose proof (cluster_pos_ge fs d H ltac:(lia)). lia. }
  unfold entry, u16. rewrite !Hg by (unfold FAT_TABLE_START; lia). done.
Qed.

Lemma cw_chained fs fs' l cur start data q : fs_ok fs -> Forall (in_image fs) l -> chain_write fs fs' l cur start data ->
  Forall (in_image fs) q -> chained fs q -> chained fs' q.
Proof.
  intros H Hl Hw. induction q as [|c q IH]; [done|]. intros [Hc Hq]%Forall_cons [He Hch]. simpl.
  rewrite (cw_entry fs fs' l cur start data c) by (done || (destruct Hc; lia)). split; [done|by apply IH].
Qed.

Lemma cw_in_image fs fs' l cur start data q : chain_write fs fs' l cur start data ->
  Forall (in_image fs) q -> Forall (in_image fs') q.
Proof.
  intros Hw Hq. eapply Forall_impl; [exact Hq|]. intros c [H1 H2]. split.
  - unfold clusters in *. by rewrite (cw_size _ _ _ _ _ _ Hw).
  - unfold blen in *. by rewrite (cw_pos _ _ _ _ _ _ _ Hw), (cw_bpc _ _ _ _ _ _ Hw), (cw_len _ _ _ _ _ _ Hw).
Qed.

Lemma in_image_pos fs c : fs_ok fs -> in_image fs c -> 0 <= cluster_pos fs c.
Proof.
  intros H [Hc _]. pose proof (cluster_pos_ge fs c H ltac:(lia)). pose proof (ok_size _ H). unfold FAT_TABLE_START in *. lia.
Qed.

Lemma cw_cons fs fs1 fs2 c l cur start data : fs_ok fs -> NoDup (c :: l) -> Forall (in_image fs) (c :: l) ->
  chain_write fs fs1 [c] cur start data -> chain_write fs1 fs2 l (cur + bytes_per_cluster fs) start data ->
  chain_write fs fs2 (c :: l) cur start data.
Proof.
  intros H [Hcl Hnd]%NoDup_cons Him W1 W2.
  assert (forall d, d ∈ c :: l -> 0 <= cluster_pos fs d) as Hp0.
  { intros d Hd. rewrite Forall_forall in Him. by apply in_image_pos, Him. }
  pose proof (Hp0 c ltac:(by left)) as Hpc0. pose proof (cw_pos _ _ _ _ _ _ c W1) as Hpc. pose proof (ok_bpc _ H) as Hb.
  assert (forall d, cluster_pos fs1 d = cluster_pos fs d) as Hpos by (intros d; by eapply cw_pos).
  destruct W1 as [A1 A2 A3 A4 A5 A6 A7]. destruct W2 as [B1 B2 B3 B4 B5 B6 B7]. rewrite A1 in *.
  split; try congruence.
  - intros i Hi Hout. rewrite B6; [apply A6; [done|]|done|].
    + intros d ->%list_elem_of_singleton. apply Hout. by left.
    + intros d Hd. rewrite Hpos. apply Hout. by right.
  - intros [|k] d j Hk Hj; simpl in Hk.
    + injection Hk as <-. rewrite B6.
      * by rewrite (A7 0%nat c j eq_refl Hj).
      * lia.
      * intros d Hd. rewrite Hpos. apply (cluster_pos_disjoint fs c d); [done|by intros ->|lia].
    + assert (c <> d) as Hne by (intros ->; apply Hcl; by eapply list_elem_of_lookup_2).
      specialize (B7 k d j Hk Hj). rewrite Hpos in B7. rewrite B7. cbn zeta.
      replace (cur + bytes_per_cluster fs + Z.of_nat k * bytes_per_cluster fs + j)
        with (cur + Z.of_nat (S k) * bytes_per_cluster fs + j) by lia.
      destruct (_ && _); [done|]. apply A6.
      { assert (d ∈ l) by (by eapply list_elem_of_lookup_2). pose proof (Hp0 d ltac:(by right)). lia. }
      intros e ->%list_elem_of_singleton.
      apply (cluster_pos_disjoint fs d c); [done|by intros ->|lia].
Qed.

(** Writing the part of [data] that falls in one cluster. *)
Lemma write_cluster_ok fs c cur start data : fs_ok fs -> in_image fs c -> bytes_ok data -> 0 <= start -> 0 <= cur ->
  exists fs1, (let b := Z.max 0 (cur - start) in
               let e := Z.min (blen data) (cur + bytes_per_cluster fs - start) in
               if b <? e then
                 let! f := f_seek_set (cluster_pos fs c + Z.max 0 (start - cur)) (fs_f fs) in
                 Ok (set_f (f_write (py_slice data b e) f) fs)
               else Ok fs) = Ok fs1 /\ chain_write fs fs1 [c] cur start data.
Proof.
  intros H Hc Hd Hs Hcur. pose proof (in_image_pos fs c H Hc) as Hp0. pose proof (ok_bpc _ H) as Hb.
  destruct Hc as [Hc1 Hc2]. set (bpc := bytes_per_cluster fs) in *. cbn zeta.
  set (b := Z.max 0 (cur - start)). set (e := Z.min (blen data) (cur + bpc - start)).
  destruct (Z.ltb_spec b e).
  - unfold f_seek_set. destruct (Z.ltb_spec (cluster_pos fs c + Z.max 0 (start - cur)) 0); [lia|].
    eexists. split; [done|]. set (p := cluster_pos fs c + Z.max 0 (start - cur)) in *.
    assert (blen (py_slice data b e) = e - b) as Hlen.
    { replace e with (b + (e - b)) at 1 by lia. apply slice_length; lia. }
    assert (f_write (py_slice data b e) (f_seek p (fs_f fs)) =
      mkFile (splice (fdata fs) (Z.to_nat p) (py_slice data b e)) (p + (e - b))) as ->.
    { unfold f_write. destruct (py_slice data b e) eqn:E; [unfold blen in Hlen; simpl in Hlen; lia|]. by rewrite <- Hlen. }
    assert (Z.of_nat (length (fdata fs)) = blen (fdata fs)) as Hbl by done.
    assert (Z.to_nat p + length (py_slice data b e) <= length (fdata fs))%nat as Hin.
    { unfold blen at 1 in Hlen. lia. }
    split; try done.
    + unfold fdata at 1. simpl. by rewrite splice_length.
    + apply splice_bytes_ok; [apply H|by apply Forall_take, Forall_drop|done].
    + intros i Hi Hout. unfold fdata at 1. simpl. specialize (Hout c ltac:(by left)). fold bpc in Hout.
      rewrite splice_get by lia. rewrite Hlen. destruct (Z.leb_spec p i), (Z.ltb_spec i (p + (e - b))); simpl; try done. lia.
    + intros [|k] d j Hk Hj; [|by destruct k]. injection Hk as <-. fold bpc in Hj |- *. cbn zeta. unfold fdata at 1. simpl.
      rewrite splice_get by lia. rewrite Hlen. rewrite Z.add_0_r.
      destruct (Z.leb_spec p (cluster_pos fs c + j)), (Z.ltb_spec (cluster_pos fs c + j) (p + (e - b))),
        (Z.leb_spec start (cur + j)), (Z.ltb_spec (cur + j) (start + blen data)); simpl; try done; try lia.
      replace e with (b + (e - b)) by lia. rewrite slice_get by lia. f_equal. lia.
  - exists fs. split; [done|]. split; try done; [apply H|].
    intros [|k] d j Hk Hj; [|by destruct k]. injection Hk as <-. fold bpc in Hj. cbn zeta. simpl. rewrite Z.add_0_r.
    destruct (Z.leb_spec start (cur + j)), (Z.ltb_spec (cur + j) (start + blen data)); simpl; try done. lia.
Qed.

Lemma write_loop_ok dict_items l : forall fuel fs c start cur data, fs_ok fs -> chained fs (c :: l) ->
  Forall (in_image fs) (c :: l) -> NoDup (c :: l) -> bytes_ok data -> 0 <= start -> 0 <= cur ->
  start + blen data <= cur + bytes_per_cluster fs * Z.of_nat (length (c :: l)) ->
  start + blen data - cur <= Z.of_nat fuel ->
  exists fs', write_loop dict_items fuel c start cur data fs = Ok fs' /\ chain_write fs fs' (c :: l) cur start data.
Proof.
  assert (forall fs l cur start data, fs_ok fs -> Forall (in_image fs) l -> 0 <= cur -> start + blen data <= cur ->
    chain_write fs fs l cur start data) as Hdone.
  { intros fs l' cur start data H Him Hcur Hle. split; try done; [apply H|]. intros k d j Hk Hj. cbn zeta.
    destruct (Z.ltb_spec (cur + Z.of_nat k * bytes_per_cluster fs + j) (start + blen data)); [nia|by rewrite andb_false_r]. }
  induction l as [|d l IH]; intros fuel fs c start cur data H Hch Hin Hnd Hd Hs Hcur Hlen Hfuel;
    pose proof (ok_bpc _ H) as Hb; pose proof Hin as Hin0; apply Forall_cons in Hin as [Hc Hin];
    (destruct fuel as [|fuel]; cbn [write_loop]; destruct (Z.ltb_spec cur (start + blen data)); [lia| | |]);
    try (exists fs; split; [done|by apply Hdone]);
    destruct (write_cluster_ok fs c cur start data H Hc Hd Hs Hcur) as (fs1 & Hw & W1); cbn zeta in Hw; rewrite Hw; clear Hw.
  - simpl length in Hlen. destruct (Z.ltb_spec (cur + bytes_per_cluster fs) (start + blen data)); [lia|]. by exists fs1.
  - pose proof (cw_ok _ _ _ _ _ _ H W1) as H1. destruct Hch as [He Hch].
    assert (clusters fs1 = clusters fs) as Hcl by (unfold clusters; by rewrite (cw_size _ _ _ _ _ _ W1)).
    assert (Forall (in_image fs) [c]) as Hc1 by (by constructor).
    destruct (Z.ltb_spec (cur + bytes_per_cluster fs) (start + blen data)) as [Hlt|Hge].
    + assert (d ∈ d :: l) as Hdl by left. pose proof Hin as Hinl. rewrite Forall_forall in Hin. pose proof (Hin d Hdl) as [Hd2 _].
      rewrite read_entry_ok by (first [done|rewrite Hcl; destruct Hc; lia]).
      rewrite (cw_entry fs fs1 [c] cur start data c H Hc1 W1) by (destruct Hc; lia). rewrite He.
      pose proof (ok_max _ H). unfold MAX_CLUSTER_ID in *. destruct (Z.ltb_spec 32767 d); [lia|].
      destruct (Z.ltb_spec 0 d); [|lia].
      set (fs2 := at_pos _ fs1). assert (chained fs1 (d :: l)) as Hch1 by (by eapply (cw_chained fs fs1 [c])).
      destruct (IH fuel fs2 d start (cur + bytes_per_cluster fs) data) as (fs' & Hf & W2).
      * by apply fs_ok_at.
      * by apply chained_at.
      * by apply (cw_in_image fs fs1 [c] cur start data).
      * by apply NoDup_cons in Hnd as [_ ?].
      * done.
      * done.
      * lia.
      * change (bytes_per_cluster fs2) with (bytes_per_cluster fs1). rewrite (cw_bpc _ _ _ _ _ _ W1). simpl length in *. lia.
      * lia.
      * exists fs'. split; [done|]. apply (cw_cons fs fs1); try done. destruct W2. by split.
    + exists fs1. split; [done|]. apply (cw_cons fs fs1); try done.
      apply Hdone; [done|by apply (cw_in_image fs fs1 [c] cur start data)|lia|lia].
Qed.

(** A small image: clusters of 32 bytes, 32 table entries, 16 root entries, and
    two clusters in use. *)
Definition ex_image : bytes :=
  replicate 11 0 ++ [32; 0; 1; 1; 0; 2; 16; 0; 0; 0; 0; 2; 0] ++ replicate 488 0
  ++ ([0xF8; 0xFF; 0xFF; 0xFF; 3; 0; 0xFF; 0xFF] ++ replicate 56 0)
  ++ ([0xF8; 0xFF; 0xFF; 0xFF; 3; 0; 0xFF; 0xFF] ++ replicate 56 0)
  ++ replicate 512 0 ++ replicate 64 7 ++ replicate 896 0.
Definition ex_fs : fat := mkFat (mkFile ex_image 0) 32 16 64.

Lemma ex_fs_ok : fs_ok ex_fs.
Proof. split; [apply (bool_decide_unpack _)|..]; by vm_compute. Qed.

(** C31: [allocate] reports a full image exactly when there are fewer free
    clusters than the amount needs, leaving it unchanged; otherwise it links,
    in both tables, exactly the number of clusters needed, all of them free
    before and distinct, into a chain that ends in 0xFFFF and starts at the
    cluster returned, and changes no other entry and no byte outside the
    tables; whatever the order in which a dictionary lists its items. *)
Theorem allocate_correct dict_items amount fs : (forall l, dict_items l ≡ₚ l) -> fs_ok fs -> 0 < amount ->
  (Z.of_nat (length (free_clusters fs)) < clusters_for amount fs ->
     exists p, allocate dict_items amount fs = Ok (None, at_pos p fs)) /\
  (clusters_for amount fs <= Z.of_nat (length (free_clusters fs)) ->
     exists fs' l, allocate dict_items amount fs = Ok (head l, fs') /\ NoDup l /\
       Z.of_nat (length l) = clusters_for amount fs /\
       (forall c, c ∈ l -> c ∈ free_clusters fs) /\ table_step fs fs' (links l 0xFFFF)).
Proof. apply allocate_ok. Qed.

Lemma allocate_correct_witness : exists fs' l, allocate (@rev (Z * Z)) 100 ex_fs = Ok (head l, fs') /\ NoDup l /\
  Z.of_nat (length l) = 4 /\ (forall c, c ∈ l -> c ∈ free_clusters ex_fs) /\ table_step ex_fs fs' (links l 0xFFFF).
Proof.
  apply (allocate_correct (@rev (Z * Z)) 100 ex_fs); [|apply ex_fs_ok|lia|by vm_compute].
  intros l. symmetry. apply Permutation_rev.
Defined.

Lemma table_step_entry fs fs' l c : table_step fs fs' (links l 0xFFFF) -> 0 <= c < clusters fs -> c ∉ l ->
  entry fs' c = entry fs c.
Proof. intros T Hc Hn. rewrite (ts_entry _ _ _ T) by done. by rewrite links_None. Qed.

Lemma links_chained fs fs' l : fs_ok fs -> table_step fs fs' (links l 0xFFFF) -> NoDup l ->
  (forall c, c ∈ l -> 2 <= c < clusters fs) -> chained fs' l.
Proof.
  intros H T Hnd Hin.
  assert (forall p q, l = p ++ q -> chained fs' q) as Hgen; [|by apply (Hgen [])].
  intros p q. revert p. induction q as [|c q IH]; intros p Hl; [done|]. cbn [chained].
  assert (entry fs' c = default 0xFFFF (head q)) as He.
  { rewrite (ts_entry _ _ _ T) by (assert (2 <= c < clusters fs); [apply Hin; rewrite Hl, elem_of_app; right; by left|lia]).
    assert (links l 0xFFFF !! c = Some (default 0xFFFF (head q))) as ->; [|done].
    subst l. rewrite <- links_app. rewrite lookup_union_r.
    - simpl. by rewrite lookup_insert_eq.
    - apply links_None. intros Hc. apply NoDup_app in Hnd as (_ & Hd & _). apply (Hd c Hc). by left. }
  split.
  - destruct q; rewrite He; [done|done].
  - apply (IH (p ++ [c])). by rewrite <- app_assoc.
Qed.

Lemma chained_same fs fs' l : (forall c, c ∈ l -> entry fs' c = entry fs c) -> chained fs l -> chained fs' l.
Proof.
  induction l as [|c l IH]; intros He; [done|]. simpl. intros [Hc Hl]. rewrite He by left. split; [done|].
  apply IH; [|done]. intros d Hd. apply He. by right.
Qed.

Lemma content_get fs l : fs_ok fs -> Forall (in_image fs) l -> forall o, 0 <= o < bytes_per_cluster fs * Z.of_nat (length l) ->
  exists k c j, l !! k = Some c /\ 0 <= j < bytes_per_cluster fs /\ o = Z.of_nat k * bytes_per_cluster fs + j /\
    get (content fs l) o = get (fdata fs) (cluster_pos fs c + j).
Proof.
  intros H. pose proof (ok_bpc _ H) as Hb. induction 1 as [|c l Hc Hl IH]; intros o Ho; [simpl in Ho; lia|].
  pose proof (blen_cluster_data fs c H Hc) as Hlen. pose proof (in_image_pos fs c H Hc).
  change (content fs (c :: l)) with (cluster_data fs c ++ content fs l). unfold blen in Hlen.
  destruct (Z.lt_ge_cases o (bytes_per_cluster fs)).
  - exists 0%nat, c, o. split_and!; [done|lia|lia|lia|].
    assert (get (cluster_data fs c ++ content fs l) o = get (cluster_data fs c) o) as ->.
    { unfold get. rewrite !list_lookup_total_alt, lookup_app_l by lia. done. }
    unfold cluster_data. rewrite slice_get by (destruct Hc; lia). done.
  - simpl length in Ho. destruct (IH (o - bytes_per_cluster fs) ltac:(lia)) as (k & d & j & Hk & Hj & Ho' & Hg).
    exists (S k), d, j. split_and!; [done|lia|lia|lia|]. rewrite <- Hg.
    unfold get. rewrite !list_lookup_total_alt, lookup_app_r by lia. do 2 f_equal. lia.
Qed.

Lemma blen_content fs l : fs_ok fs -> Forall (in_image fs) l -> blen (content fs l) = bytes_per_cluster fs * Z.of_nat (length l).
Proof.
  intros H. induction 1 as [|c l Hc Hl IH]; [unfold blen; simpl; lia|].
  change (content fs (c :: l)) with (cluster_data fs c ++ content fs l). unfold blen in *.
  rewrite length_app, Nat2Z.inj_add, IH. pose proof (blen_cluster_data fs c H Hc) as E. unfold blen in E. rewrite E. simpl. lia.
Qed.

(** Clusters that agree have the same content. *)
Lemma content_same fs fs' l : fs_ok fs -> fs_ok fs' -> Forall (in_image fs) l -> Forall (in_image fs') l ->
  bytes_per_cluster fs' = bytes_per_cluster fs -> (forall c, cluster_pos fs' c = cluster_pos fs c) ->
  (forall c j, c ∈ l -> 0 <= j < bytes_per_cluster fs -> get (fdata fs') (cluster_pos fs c + j) = get (fdata fs) (cluster_pos fs c + j)) ->
  content fs' l = content fs l.
Proof.
  intros H H' Hl Hl' Hb Hp Hg. unfold content. apply flat_map_ext_in. intros c Hc. rewrite Forall_forall in Hl, Hl'.
  specialize (Hl c Hc). specialize (Hl' c Hc).
  apply bytes_eq; rewrite !blen_cluster_data by done; [done|]. intros j Hj. rewrite Hb in Hj.
  pose proof (in_image_pos fs c H Hl). destruct Hl as [_ Hl]. destruct Hl' as [_ Hl'].
  unfold cluster_data. rewrite Hb, Hp in *. rewrite !slice_get by lia. by apply Hg.
Qed.

Lemma table_step_data fs fs' m c j : fs_ok fs -> in_image fs c -> 0 <= j -> table_step fs fs' m ->
  get (fdata fs') (cluster_pos fs c + j) = get (fdata fs) (cluster_pos fs c + j).
Proof.
  intros H Hc Hj T. pose proof (in_image_pos fs c H Hc). destruct Hc as [Hc _].
  pose proof (cluster_pos_ge fs c H ltac:(lia)). apply (ts_rest _ _ _ T); lia.
Qed.

Lemma table_step_geometry fs fs' m : table_step fs fs' m ->
  (forall c, cluster_pos fs' c = cluster_pos fs c) /\ (forall c, in_image fs c -> in_image fs' c).
Proof.
  intros [T1 T2 T3 T4 _ _ _ _]. assert (forall c, cluster_pos fs' c = cluster_pos fs c) as Hp.
  { intros c. unfold cluster_pos, data_start. by rewrite T1, T2, T3. }
  split; [done|]. intros c [H1 H2]. unfold in_image, clusters, blen in *. by rewrite Hp, T1, T3, T4.
Qed.

Lemma read_back fs l data : fs_ok fs -> Forall (in_image fs) l -> 0 < blen data ->
  blen data <= bytes_per_cluster fs * Z.of_nat (length l) ->
  (forall k c j, l !! k = Some c -> 0 <= j < bytes_per_cluster fs -> Z.of_nat k * bytes_per_cluster fs + j < blen data ->
     get (fdata fs) (cluster_pos fs c + j) = get data (Z.of_nat k * bytes_per_cluster fs + j)) ->
  py_slice (content fs l) 0 (0 + blen data) = data.
Proof.
  intros H Hl Hd Hlen Hg. pose proof (blen_content fs l H Hl) as Hb.
  apply bytes_eq; rewrite slice_length by lia; [done|]. intros o Ho. rewrite slice_get by lia. rewrite Z.add_0_l.
  destruct (content_get fs l H Hl o) as (k & c & j & Hk & Hj & Ho' & ->); [lia|].
  rewrite (Hg k c j) by (done || lia). f_equal. lia.
Qed.

(** C32: a file copied into free clusters reads back as it was: with enough free
    clusters [allocate] gives it a chain, [write_file] of the whole content
    succeeds without extending the chain, [read_file] returns the content, and
    every other chain of the image, whose clusters were in use, keeps its links
    and its content. *)
Theorem file_contents_roundtrip dict_items data fs :
  (forall l, dict_items l ≡ₚ l) -> fs_ok fs -> bytes_ok data -> 0 < blen data ->
  (forall c, c ∈ free_clusters fs -> in_image fs c) ->
  clusters_for (blen data) fs <= Z.of_nat (length (free_clusters fs)) ->
  exists c fs1 fs2 p, allocate dict_items (blen data) fs = Ok (Some c, fs1) /\
    write_file dict_items c 0 data fs1 = Ok fs2 /\
    read_file c 0 (blen data) fs2 = Ok (data, at_pos p fs2) /\
    forall q, Forall (in_image fs) q -> (forall d, d ∈ q -> entry fs d <> 0) -> chained fs q ->
      chained fs2 q /\ content fs2 q = content fs q.
Proof.
  intros Hdict H Hd Hpos Himg Henough.
  destruct (allocate_ok dict_items (blen data) fs Hdict H Hpos) as [_ Ha].
  destruct (Ha Henough) as (fs1 & l & Hal & Hnd & Hlen & Hfree & T). clear Ha Henough.
  pose proof (table_step_ok _ _ _ H T) as H1. pose proof (ok_bpc _ H) as Hb.
  destruct (table_step_geometry _ _ _ T) as [Hp1 Him1].
  assert (forall c, c ∈ l -> 2 <= c < clusters fs) as Hrange.
  { intros c Hc. apply Hfree in Hc. by apply elem_of_free_clusters in Hc as [_ ?]. }
  pose proof (links_chained fs fs1 l H T Hnd Hrange) as Hch.
  assert (Forall (in_image fs1) l) as Him by (apply Forall_forall; intros c Hc; by apply Him1, Himg, Hfree).
  assert (bytes_per_cluster fs * clusters_for (blen data) fs >= blen data /\ clusters_for (blen data) fs <= blen data) as [Hn1 Hn2].
  { unfold clusters_for. set (b := bytes_per_cluster fs) in *. pose proof (Z.div_mod (blen data + b - 1) b ltac:(lia)).
    pose proof (Z.mod_pos_bound (blen data + b - 1) b ltac:(lia)). nia. }
  destruct l as [|c l]; [simpl in Hlen; lia|]. set (lc := c :: l) in *.
  destruct (write_loop_ok dict_items l (Z.to_nat (0 + blen data)) fs1 c 0 0 data) as (fs2 & Hw & W); try done; try lia.
  { rewrite (ts_bpc _ _ _ T). fold lc. lia. }
  pose proof (cw_ok _ _ _ _ _ _ H1 W) as H2. pose proof (cw_bpc _ _ _ _ _ _ W) as Hb2.
  assert (Forall (in_image fs2) lc) as Him2 by (by apply (cw_in_image fs1 fs2 lc 0 0 data)).
  destruct (read_loop_ok l (S (Z.to_nat (0 + blen data))) fs2 c 0 (blen data) []) as [p Hr]; try done.
  { by apply (cw_chained fs1 fs2 lc 0 0 data lc H1 Him W). }
  { rewrite Hb2, (ts_bpc _ _ _ T). fold lc. lia. }
  { fold lc. lia. }
  exists c, fs1, fs2, p. split; [done|]. split; [done|]. split.
  - unfold read_file. destruct (Z.leb_spec 0 (blen data)); [|lia]. destruct (Z.eqb_spec (blen data) 0); [lia|]. rewrite Hr. cbn [app]. fold lc.
    rewrite read_back; [done|done|done|done|rewrite Hb2, (ts_bpc _ _ _ T); fold lc; lia|].
    intros k d j Hk Hj Ho. rewrite Hb2 in Hj, Ho |- *. rewrite (cw_pos _ _ _ _ _ _ d W).
    rewrite (cw_in _ _ _ _ _ _ W k d j Hk Hj). cbn zeta. rewrite !Z.add_0_l.
    destruct (Z.leb_spec 0 (Z.of_nat k * bytes_per_cluster fs1 + j)); [|nia].
    destruct (Z.ltb_spec (Z.of_nat k * bytes_per_cluster fs1 + j) (blen data)); [|lia]. simpl. f_equal. lia.
  - intros q Hq Hused Hchq. pose proof Hq as Hq0. rewrite Forall_forall in Hq.
    assert (forall d, d ∈ q -> d ∉ lc) as Hdisj.
    { intros d Hdq Hdl. apply Hfree, elem_of_free_clusters in Hdl as [Hz _]. by apply (Hused d). }
    assert (Forall (in_image fs1) q) as Hq1 by (apply Forall_forall; intros d Hdq; by apply Him1, Hq).
    split.
    + apply (cw_chained fs1 fs2 lc 0 0 data q H1 Him W Hq1), (chained_same fs); [|done].
      intros d Hdq. apply (table_step_entry fs fs1 lc d T); [|by apply Hdisj]. destruct (Hq d Hdq). lia.
    + transitivity (content fs1 q).
      * apply content_same; try done; [by apply (cw_in_image fs1 fs2 lc 0 0 data)|intros d; by apply (cw_pos fs1 fs2 lc 0 0 data)|].
        intros d j Hdq Hj. rewrite Forall_forall in Hq1. pose proof (in_image_pos fs1 d H1 (Hq1 d Hdq)).
        apply (cw_out _ _ _ _ _ _ W); [lia|]. intros e He. apply (cluster_pos_disjoint fs1 d e); [done| |lia].
        intros ->. by apply (Hdisj e).
      * apply content_same; try done; [apply T|]. intros d j Hdq Hj. apply (table_step_data fs fs1 (links lc 0xFFFF)); auto. lia.
Qed.

Lemma file_contents_roundtrip_witness : exists c fs1 fs2 p,
  allocate (@rev (Z * Z)) 50 ex_fs = Ok (Some c, fs1) /\ write_file (@rev (Z * Z)) c 0 (seqZ 0 50) fs1 = Ok fs2 /\
  read_file c 0 50 fs2 = Ok (seqZ 0 50, at_pos p fs2) /\
  forall q, Forall (in_image ex_fs) q -> (forall d, d ∈ q -> entry ex_fs d <> 0) -> chained ex_fs q ->
    chained fs2 q /\ content fs2 q = content ex_fs q.
Proof.
  apply (file_contents_roundtrip (@rev (Z * Z)) (seqZ 0 50) ex_fs).
  - intros l. symmetry. apply Permutation_rev.
  - apply ex_fs_ok.
  - apply (bool_decide_unpack _). by vm_compute.
  - by vm_compute.
  - intros c Hc. apply elem_of_free_clusters in Hc as [_ Hc]. unfold clusters in Hc. simpl in Hc.
    split; [done|]. unfold cluster_pos, data_start. simpl. unfold FAT_TABLE_START. unfold fdata, ex_fs. simpl f_data.
    assert (blen ex_image = 2112) as -> by (by vm_compute). change (64 / 2) with 32 in Hc. lia.
  - by vm_compute.
Defined.

(** * Names *)

Lemma decimal_length k : forall fuel n, 0 <= n < 10 ^ Z.of_nat (S k) -> (length (decimal fuel n) <= S k)%nat.
Proof.
  induction k as [|k IH]; intros [|fuel] n Hn; simpl decimal; try (simpl; lia);
    (destruct (Z.ltb_spec n 10); [simpl; lia|]).
  - change (10 ^ Z.of_nat 1) with 10 in Hn. lia.
  - rewrite length_app. simpl length. specialize (IH fuel (n / 10)).
    assert (0 <= n / 10 < 10 ^ Z.of_nat (S k)); [|specialize (IH ltac:(done)); lia].
    rewrite (Nat2Z.inj_succ (S k)), Z.pow_succ_r in Hn by lia.
    split; [apply Z.div_pos; lia|apply Z.div_lt_upper_bound; lia].
Qed.

Lemma shorten_length name index : 0 <= index < 10 ^ 7 -> (length (shorten name index) <= 8)%nat.
Proof.
  intros H. unfold shorten. set (post := 126 :: decimal (Z.to_nat index) index).
  assert (length post <= 8)%nat as Hp by (unfold post; simpl length; pose proof (decimal_length 6 (Z.to_nat index) index H); lia).
  rewrite length_app, length_take. lia.
Qed.

Lemma ljust_length n s : (length s <= n)%nat -> length (ljust n s) = n.
Proof. intros. unfold ljust. rewrite length_app, length_replicate. lia. Qed.

Lemma upper_length s : length (upper s) = length s.
Proof. apply length_map. Qed.

Lemma rsplit_dot_stem name : DOT ∈ name -> (rsplit_dot name).1 <> name.
Proof.
  assert (forall s, DOT ∈ s -> (length (rsplit_dot s).1 < length s)%nat) as Hlen.
  { induction s as [|c s IH]; [by intros ?%elem_of_nil|]. intros Hc. simpl. case_decide as Hs.
    - specialize (IH Hs). destruct (rsplit_dot s). simpl in *. lia.
    - apply elem_of_cons in Hc as [<-|?]; [|done]. rewrite Z.eqb_refl. simpl. lia. }
  intros Hd Heq. specialize (Hlen name Hd). rewrite Heq in Hlen. lia.
Qed.

(** The loop over the entries: the index grows by at most one per entry. *)
Lemma name_loop name l : forall index,
  match foldM (name_step name) (index, shorten name index) l with
  | Ok (i, s) => (forall d, d ∈ l -> longname d <> Some name) /\ index <= i <= index + Z.of_nat (length l) /\ s = shorten name i
  | Raise e => e = AssertionError /\ exists d, d ∈ l /\ longname d = Some name
  end.
Proof.
  induction l as [|d l IH]; intros index; simpl; [split_and!; try done; try lia; by intros d ?%elem_of_nil|].
  case_bool_decide as Hd; simpl; [split; [done|]; exists d; split; [by left|done]|].
  assert (forall i, index <= i <= index + 1 ->
    match foldM (name_step name) (i, shorten name i) l with
    | Ok (i, s) => (forall d', d' ∈ d :: l -> longname d' <> Some name) /\
        index <= i <= index + Z.of_nat (S (length l)) /\ s = shorten name i
    | Raise e => e = AssertionError /\ exists d', d' ∈ d :: l /\ longname d' = Some name
    end) as Hgen.
  { intros i Hi. specialize (IH i). destruct (foldM _ _ l) as [[j s]|e].
    - destruct IH as (H1 & H2 & H3). split_and!; [|lia|lia|done]. intros d' [->|?]%elem_of_cons; auto.
    - destruct IH as (-> & d' & H1 & H2). split; [done|]. exists d'. split; [by right|done]. }
  case_decide; apply Hgen; lia.
Qed.

(** [make_short_name] fails exactly when an entry's long name is the new
    name without its extension, whatever the comment "File must not exist" says:
    a file with an extension is never found to exist already.  The names it
    returns always have 8 and 3 bytes, as directory entries need. *)
Theorem make_short_name_correct name dir : Z.of_nat (length (dentries dir)) < 10 ^ 6 ->
  (make_short_name name dir = Raise AssertionError <->
     exists d, d ∈ dentries dir /\ longname d = Some (rsplit_dot name).1) /\
  (DOT ∈ name -> (forall d, d ∈ dentries dir -> longname d = Some name) -> is_ok (make_short_name name dir) = true) /\
  (forall s e, make_short_name name dir = Ok (s, e) -> length s = 8%nat /\ length e = 3%nat).
Proof.
  intros Hlen. unfold make_short_name. destruct (rsplit_dot name) as [stem ex] eqn:Es. simpl.
  pose proof (name_loop stem (dentries dir) 1) as H. destruct (foldM _ _ _) as [[i s]|e].
  - destruct H as (H1 & H2 & ->). split_and!.
    + split; [by case_match|]. intros (d & Hd & Hn). by destruct (H1 d Hd).
    + intros _ _. by case_match.
    + assert (length (shorten stem i) <= 8)%nat as Hs by (apply shorten_length; lia).
      intros s' e'. destruct (_ && _) eqn:E; intros [= <- <-].
      * bool_prop. unfold blen in *. split; apply ljust_length; rewrite ?upper_length in *; lia.
      * split; [by apply ljust_length|]. apply ljust_length. rewrite length_take. lia.
  - destruct H as (-> & d & Hd & Hn). split_and!; [|intros Hdot Hall|done].
    + split; [intros _; by exists d|done].
    + exfalso. apply (rsplit_dot_stem name Hdot). rewrite Es. simpl. specialize (Hall d Hd). congruence.
Qed.

Lemma make_short_name_correct_witness : let d := mkDentry 0 [65] [66] (Some [97; DOT; 98]) 2 1 in
  (make_short_name [97; DOT; 98; DOT; 99] (mkDir (RootFile 0 512) [d]) = Raise AssertionError) /\
  is_ok (make_short_name [97; DOT; 98] (mkDir (RootFile 0 512) [d])) = true.
Proof.
  intros d. split.
  - apply (make_short_name_correct [97; DOT; 98; DOT; 99] (mkDir (RootFile 0 512) [d])); [by vm_compute|].
    exists d. split; [by left|done].
  - apply (make_short_name_correct [97; DOT; 98] (mkDir (RootFile 0 512) [d])); [by vm_compute|right; by left|].
    by intros d' ->%list_elem_of_singleton.
Defined.

(** * A full root directory *)

Lemma read_root_end (dict_items : list (Z * Z) -> list (Z * Z)) fs n : 0 <= data_start fs + n ->
  data_start fs + n <= blen (fdata fs) ->
  exists p, b_read 32 (RootFile n n) fs = Ok ([], RootFile n n, at_pos p fs) /\
    forall q, (0 < q)%nat -> b_write dict_items (replicate q 0) (RootFile n n) (at_pos p fs) =
      Ok (RootFile n n, at_pos (data_start (at_pos p fs) + n) (at_pos p fs)).
Proof.
  intros Hp Hin. exists (data_start fs + n). split.
  - unfold b_read. simpl b_size. simpl b_idx. destruct (Z.ltb_spec n (n + 32)); [|lia].
    rewrite f_read_in by (unfold fdata in *; lia). rewrite slice_empty by lia. change (blen []) with 0.
    rewrite Z.add_0_r. unfold at_pos. do 3 f_equal. f_equal. lia.
  - intros q Hq. unfold b_write, blen. rewrite length_replicate. destruct (Z.ltb_spec n (n + Z.of_nat q)); [|lia].
    rewrite slice_empty by lia. simpl length. rewrite Z.add_0_r, Z.max_id. done.
Qed.

(** when the root directory has no free record, the search of [commit] never
    ends: the write that should extend the directory is cut to nothing, and the
    step back makes it read used records for ever. *)
Theorem full_root_diverges fs count fuel idx : fs_ok fs -> 0 < count ->
  bytes_per_cluster fs mod 32 = 0 -> idx mod 32 = 0 -> 0 <= idx <= root_entries fs * 32 ->
  bytes_per_cluster fs <= root_entries fs * 32 -> data_start fs + root_entries fs * 32 <= blen (fdata fs) ->
  (forall k, 0 <= k < root_entries fs ->
     get (fdata fs) (data_start fs + k * 32) <> DEL_MARKER /\ get (fdata fs) (data_start fs + k * 32) <> 0) ->
  forall dict_items, commit_loop dict_items fuel count 0 (RootFile idx (root_entries fs * 32)) fs = Raise OutOfFuel.
Proof.
  intros H Hc Hm Hi Hidx Hle Himg Hused dict_items.
  pose proof (ok_bpc _ H) as Hb. pose proof (ok_size _ H). pose proof (ok_root _ H).
  set (n := root_entries fs * 32) in *.
  assert (0 <= data_start fs) by (unfold data_start, FAT_TABLE_START; lia).
  assert (forall i p, 0 <= i -> i mod 32 = 0 -> i + 32 <= n -> exists rec p',
    b_read 32 (RootFile i n) (at_pos p fs) = Ok (rec, RootFile (i + 32) n, at_pos p' fs) /\ blen rec = 32 /\
    exists m, head rec = Some m /\ m <> DEL_MARKER /\ m <> 0) as Hread.
  { intros i p Hi0 Him Hin. unfold b_read. simpl b_size. simpl b_idx. destruct (Z.ltb_spec n (i + 32)); [lia|].
    change (fs_f (at_pos p fs)) with (f_seek p (fs_f fs)). change (data_start (at_pos p fs)) with (data_start fs).
    change (f_seek (data_start fs + i) (f_seek p (fs_f fs))) with (f_seek (data_start fs + i) (fs_f fs)).
    rewrite f_read_in by (unfold fdata in *; lia).
    pose proof (slice_length (f_data (fs_f fs)) (data_start fs + i) 32 ltac:(lia) ltac:(lia) ltac:(unfold fdata in *; lia)) as Hl.
    pose proof (slice_get (f_data (fs_f fs)) (data_start fs + i) 32 0 ltac:(lia) ltac:(lia) ltac:(unfold fdata in *; lia)) as Hg.
    destruct (py_slice _ _ _) as [|m rec] eqn:E; [done|]. rewrite Hl. eexists _, _. split; [done|]. split; [done|].
    exists m. split; [done|]. change (m = get (fdata fs) (data_start fs + i + 0)) in Hg.
    replace (data_start fs + i + 0) with (data_start fs + i / 32 * 32) in Hg by (pose proof (Z.div_mod i 32); lia).
    subst m. apply Hused. unfold n in Hin. split; [apply Z.div_pos; lia|apply Z.div_lt_upper_bound; lia]. }
  assert (forall fuel i p, 0 <= i <= n -> i mod 32 = 0 ->
    commit_loop dict_items fuel count 0 (RootFile i n) (at_pos p fs) = Raise OutOfFuel) as Hgen.
  { clear fuel. induction fuel as [|fuel IH]; intros i p Hi1 Hi2; cbn [commit_loop]; (destruct (Z.ltb_spec 0 count); [|lia]); [done|].
    destruct (Z.le_gt_cases (i + 32) n) as [Hin|Hin].
    - destruct (Hread i p) as (rec & p' & -> & Hl & m & Hm' & Hm1 & Hm2); [lia..|]. rewrite Hl. simpl (32 =? 32). cbn iota beta.
      rewrite Hm'. simpl of_option. cbn iota. apply Z.eqb_neq in Hm1, Hm2. rewrite Hm1, Hm2. simpl orb. cbn iota.
      apply IH; [lia|]. rewrite Z.add_mod, Hi2 by lia. done.
    - assert (n mod 32 = 0) as Hnm by (unfold n; by rewrite Z.mod_mul).
      assert (i = n) as -> by (pose proof (Z.div_mod i 32); pose proof (Z.div_mod n 32); lia).
      assert (32 <= bytes_per_cluster fs) by (pose proof (Z.div_mod (bytes_per_cluster fs) 32); lia).
      destruct (read_root_end dict_items (at_pos p fs) n) as (p1 & Hr1 & Hw1); [change (0 <= data_start fs + n); lia|exact Himg|].
      rewrite Hr1. change (blen [] =? 32) with false. cbn iota beta. rewrite Hw1 by (change (bytes_per_cluster (at_pos p1 (at_pos p fs))) with (bytes_per_cluster fs); lia).
      change (bytes_per_cluster (at_pos p1 (at_pos p fs))) with (bytes_per_cluster fs).
      assert (b_skip (- bytes_per_cluster fs) (RootFile n n) = RootFile (n - bytes_per_cluster fs) n) as Hskip.
      { unfold b_skip, b_seek. simpl. f_equal. lia. }
      change (at_pos (data_start (at_pos p1 (at_pos p fs)) + n) (at_pos p1 (at_pos p fs))) with (at_pos (data_start fs + n) fs).
      change (bytes_per_cluster (at_pos (data_start fs + n) fs)) with (bytes_per_cluster fs).
      cbn iota beta. rewrite Hskip.
      destruct (Hread (n - bytes_per_cluster fs) (data_start fs + n)) as (rec & p' & Hr & Hl & m & Hm' & Hm1 & Hm2); [lia| |lia|].
      { pose proof (Z.div_mod n 32). pose proof (Z.div_mod (bytes_per_cluster fs) 32).
        rewrite Zminus_mod, Hnm, Hm. done. }
      rewrite Hr.
      rewrite Hm'. simpl of_option. cbn iota. apply Z.eqb_neq in Hm1, Hm2. rewrite Hm1, Hm2. simpl orb. cbn iota.
      apply IH; [lia|]. rewrite Z.add_mod, Zminus_mod, Hnm, Hm by lia. done. }
  specialize (Hgen fuel idx (f_pos (fs_f fs)) Hidx Hi). by destruct fs as [[? ?] ? ? ?].
Qed.

(** The image with every record of its root directory in use. *)
Definition full_fs : fat := mkFat (mkFile (splice ex_image 640 (replicate 512 65)) 0) 32 16 64.

Lemma full_root_diverges_witness :
  commit_loop (fun l => l) 1000 1 0 (RootFile 0 512) full_fs = Raise OutOfFuel.
Proof.
  apply (full_root_diverges full_fs 1 1000 0); try (by vm_compute).
  - split; [apply (bool_decide_unpack _)|..]; by vm_compute.
  - intros k Hk. simpl in Hk. assert (k ∈ zrange 0 16) as Hin by (by rewrite elem_of_zrange).
    revert k Hin Hk. apply (Forall_forall (fun k => 0 <= k < 16 -> _)).
    assert (forallb (fun k => get (fdata full_fs) (data_start full_fs + k * 32) =? 65) (zrange 0 16) = true) as Hall by (by vm_compute).
    apply Forall_forall. intros k Hin _. rewrite forallb_forall in Hall. apply list_elem_of_In in Hin.
    apply Hall in Hin. apply Z.eqb_eq in Hin. by rewrite Hin.
Defined.
