(* ===== verification/BuildProp.v ===== *)
(** tools/post_process_props.py: the post-processing of build.prop files.
    Messages to standard error are not modelled.  [should_enable_uffd_gc], of a
    module outside the repository, is a parameter, and so is the order in which
    a set of names is iterated. *)

From S2P Require Export PyStr.

#[local] Open Scope string_scope.
#[local] Open Scope list_scope.
#[local] Open Scope Z_scope.

Definition PROP_VALUE_MAX : Z := 91.

(** A [Prop] object. *)
Record BProp := mkProp {
  name : string;
  value : string;
  comments : list string;
  optional : bool
}.

Definition new_prop (n v : string) (opt : bool) (comment : option string) : BProp :=
  mkProp (strip n) (strip v) (match comment with Some c => [c] | None => [] end) opt.

(** [line.rstrip('\n')]. *)
Fixpoint rstrip_nl (s : string) : string :=
  match s with
  | "" => ""
  | String c s' =>
      match rstrip_nl s' with
      | "" => if Ascii.eqb c newline then "" else String c ""
      | r => String c r
      end
  end.

Definition from_line (line : string) : BProp :=
  let line := rstrip_nl line in
  if starts_with "#" line then new_prop "" "" false (Some line)
  else
    match split_once "?=" line with
    | Some (n, v) => new_prop n v true None
    | None =>
        match split_once "=" line with
        | Some (n, v) => new_prop n v false None
        | None => new_prop "" "" false (Some line)
        end
    end.

Definition is_comment (p : BProp) : bool :=
  match comments p with [] => false | _ => negb (str_true (name p)) end.

Definition is_optional (p : BProp) : bool := negb (is_comment p) && optional p.

Definition assignment (p : BProp) : string := name p +:+ (if is_optional p then "?=" else "=") +:+ value p.

(** [__str__]. *)
Definition prop_str (p : BProp) : string :=
  str_join (String newline "") (comments p ++ (if is_comment p then [] else [assignment p])).

(** [make_as_comment]: the last line of the text becomes a comment. *)
Definition make_as_comment (p : BProp) : BProp :=
  if is_comment p then p
  else mkProp "" "" (comments p ++ ["#" +:+ default "" (last (split_char newline (prop_str p)))]) (optional p).

Definition delete_prop (reason : string) (p : BProp) : BProp :=
  make_as_comment
    (mkProp (name p) (value p) (comments p ++ ["# Removed by post_process_props.py because " +:+ reason]) (optional p)).

Definition set_optional (b : bool) (p : BProp) : BProp := mkProp (name p) (value p) (comments p) b.

(** * Property lists *)

(** The lines of a file become objects; a list of objects is referred to by
    positions. *)
Definition read_props (lines : list string) : list BProp :=
  map from_line (List.filter (fun l => str_true (strip l)) lines).

(** What [write] writes. *)
Definition write_props (ps : list BProp) : string := str_join "" (map (fun p => end_line (prop_str p)) ps).

Definition get_all_props (ps : list BProp) : list BProp := List.filter (fun p => negb (is_comment p)) ps.

Definition names_of (ps : list BProp) : list string := remove_dups (map name (get_all_props ps)).

(** The positions of the properties with a name. *)
Definition get_props (n : string) (ps : list BProp) : list nat :=
  List.filter (fun i => match ps !! i with Some p => negb (is_comment p) && String.eqb (name p) n | None => false end)
    (seq 0 (length ps)).

Definition get_value (n : string) (ps : list BProp) : string :=
  match List.find (fun p => String.eqb (name p) n) ps with Some p => value p | None => "" end.

Definition put (n v : string) (ps : list BProp) : list BProp :=
  match List.find (fun i => match ps !! i with Some p => String.eqb (name p) n && negb (is_optional p) | None => false end)
          (seq 0 (length ps)) with
  | None => ps ++ [new_prop n v false (Some "# Auto-added by post_process_props.py")]
  | Some i =>
      alter (fun p => mkProp (name p) v
        (comments p ++ ["# Value overridden by post_process_props.py. Original value: " +:+ value p]) (optional p)) i ps
  end.

(** * The passes *)

Definition str_at (ps : list BProp) (i : nat) : string := match ps !! i with Some p => prop_str p | None => "" end.
Definition value_at (ps : list BProp) (i : nat) : string := match ps !! i with Some p => value p | None => "" end.
Definition optional_at (ps : list BProp) (i : nat) : bool := match ps !! i with Some p => is_optional p | None => false end.

Definition mangle_build_prop (should_enable_uffd_gc : string -> result bool) (kernel_version_file : string)
    (ps : list BProp) : result (list BProp) :=
  let ps :=
    if String.eqb (get_value "ro.debuggable" ps) "1" then
      let val := get_value "persist.sys.usb.config" ps in
      if contains "adb" val then ps
      else put "persist.sys.usb.config" (if String.eqb val "" then "adb" else val +:+ ",adb") ps
    else ps in
  if String.eqb (get_value "ro.dalvik.vm.enable_uffd_gc" ps) "default" then
    assert! negb (String.eqb kernel_version_file "") in
    let! b := should_enable_uffd_gc kernel_version_file in
    Ok (put "ro.dalvik.vm.enable_uffd_gc" (if b : bool then "true" else "false") ps)
  else Ok ps.

Definition validate_grf_props (ps : list BProp) : result bool :=
  let grf := get_value "ro.board.first_api_level" ps in
  let board := get_value "ro.board.api_level" ps in
  if str_true grf && str_true board then
    let! g := py_int grf in
    let! b := py_int board in
    Ok (negb (b <? g))
  else Ok true.

Definition valid_prop (p : BProp) : bool :=
  negb ((PROP_VALUE_MAX <? str_len (value p)) && negb (starts_with "ro." (name p))) && negb (is_optional p).

Definition validate (ps : list BProp) : bool := forallb valid_prop (get_all_props ps).

(** Deleting the properties at some positions. *)
Definition delete_all (reason : string) (l : list nat) (ps : list BProp) : list BProp :=
  fold_left (fun ps i => alter (delete_prop reason) i ps) l ps.

(** One name of [override_optional_props]. *)
Definition override_name (allow_dup : bool) (st : bool * list BProp) (n : string) : result (bool * list BProp) :=
  let '(success, ps) := st in
  let props := get_props n ps in
  let optional_props := List.filter (optional_at ps) props in
  let overriding_props := List.filter (fun i => negb (optional_at ps i)) props in
  match overriding_props with
  | [] =>
      match last optional_props with
      | None => Raise IndexError
      | Some l =>
          let ps' := if (1 <? length optional_props)%nat
                     then delete_all ("overridden by " +:+ str_at ps l) (removelast optional_props) ps else ps in
          Ok (success, alter (set_optional false) l ps')
      end
  | [o] => Ok (success, delete_all ("overridden by " +:+ str_at ps o) optional_props ps)
  | o :: _ =>
      if forallb (fun i => String.eqb (value_at ps o) (value_at ps i)) overriding_props then
        Ok (success, delete_all ("overridden by " +:+ str_at ps o) optional_props ps)
      else if allow_dup then Ok (success, fold_left (fun ps i => alter (set_optional false) i ps) optional_props ps)
      else Ok (false, ps)
  end.

Definition override_optional_props (set_order : list string -> list string) (allow_dup : bool) (ps : list BProp)
  : result (bool * list BProp) :=
  foldM (override_name allow_dup) (true, ps) (set_order (names_of ps)).

(** Dropping the disallowed keys. *)
Definition drop_key (ps : list BProp) (key : string) : list BProp :=
  delete_all (key +:+ " is a disallowed key") (get_props key ps) ps.

(** [main] on the content of the file: the content written back, or the exit. *)
Definition post_process (set_order : list string -> list string) (should_enable_uffd_gc : string -> result bool)
    (allow_dup : bool) (filename kernel_version_file : string) (disallowed_keys : list string) (content : string)
  : result string :=
  if negb (ends_with "/build.prop" filename) then Raise (SystemExit 1)
  else
    let! ps := mangle_build_prop should_enable_uffd_gc kernel_version_file (read_props (readlines content)) in
    let! (success, ps) := override_optional_props set_order allow_dup ps in
    if negb success then Raise (SystemExit 1)
    else
      let! grf := validate_grf_props ps in
      if negb grf then Raise (SystemExit 1)
      else if negb (validate ps) then Raise (SystemExit 1)
      else Ok (write_props (fold_left drop_key disallowed_keys ps)).
