(* ===== verification/BuildPropProps.v ===== *)
(** tools/post_process_props.py: what the resolution of optional properties
    computes, the properties of the file written, how it reads back, and what the
    post-processing guarantees. *)

From S2P Require Export BuildProp.

#[local] Open Scope string_scope.
#[local] Open Scope list_scope.
#[local] Open Scope Z_scope.

(** * Groups of positions *)

Definition optionals (n : string) (ps : list BProp) : list nat := List.filter (optional_at ps) (get_props n ps).
Definition overriding (n : string) (ps : list BProp) : list nat :=
  List.filter (fun i => negb (optional_at ps i)) (get_props n ps).

(** Several assignments that are not optional agree. *)
Definition same_values (ps : list BProp) (l : list nat) : bool :=
  match l with [] => true | o :: _ => forallb (fun i => String.eqb (value_at ps o) (value_at ps i)) l end.

Definition name_ok (allow_dup : bool) (ps : list BProp) (n : string) : bool :=
  same_values ps (overriding n ps) || allow_dup.

(** What becomes of the property at position [i]. *)
Definition resolved (allow_dup : bool) (ps : list BProp) (i : nat) (p : BProp) : BProp :=
  if negb (is_optional p) then p
  else
    match overriding (name p) ps with
    | [] =>
        match last (optionals (name p) ps) with
        | Some l => if decide (i = l) then set_optional false p else delete_prop ("overridden by " +:+ str_at ps l) p
        | None => p
        end
    | o :: l =>
        if same_values ps (o :: l) then delete_prop ("overridden by " +:+ str_at ps o) p
        else if allow_dup then set_optional false p else p
    end.

Lemma elem_of_get_props n ps i : i ∈ get_props n ps <-> exists p, ps !! i = Some p /\ is_comment p = false /\ name p = n.
Proof.
  unfold get_props. rewrite list_elem_of_In, filter_In, <- list_elem_of_In, elem_of_seq. split.
  - intros [_ H]. destruct (ps !! i) as [p|]; [|done]. apply andb_true_iff in H as [H1 H2].
    apply negb_true_iff in H1. apply String.eqb_eq in H2. by exists p.
  - intros (p & Hp & H1 & H2). rewrite Hp, H1. simpl. apply String.eqb_eq in H2. rewrite H2.
    split; [|done]. pose proof (lookup_lt_Some _ _ _ Hp). lia.
Qed.

Lemma get_props_NoDup n ps : NoDup (get_props n ps).
Proof. apply NoDup_ListNoDup, List.NoDup_filter, NoDup_ListNoDup, NoDup_seq. Qed.

Lemma elem_of_filter_b {A} (f : A -> bool) l x : x ∈ List.filter f l <-> x ∈ l /\ f x = true.
Proof. by rewrite !list_elem_of_In, filter_In. Qed.

Lemma elem_of_optionals n ps i : i ∈ optionals n ps <-> exists p, ps !! i = Some p /\ is_optional p = true /\ name p = n.
Proof.
  unfold optionals. rewrite elem_of_filter_b, elem_of_get_props. unfold optional_at. split.
  - intros [(p & Hp & _ & Hn) Ho]. rewrite Hp in Ho. by exists p.
  - intros (p & Hp & Ho & Hn). rewrite Hp. split; [|done]. exists p. split_and!; try done.
    unfold is_optional in Ho. apply andb_true_iff in Ho as [Ho _]. by apply negb_true_iff.
Qed.

Lemma elem_of_overriding n ps i : i ∈ overriding n ps <->
  exists p, ps !! i = Some p /\ is_comment p = false /\ is_optional p = false /\ name p = n.
Proof.
  unfold overriding. rewrite elem_of_filter_b, elem_of_get_props. unfold optional_at. split.
  - intros [(p & Hp & Hc & Hn) Ho]. rewrite Hp in Ho. apply negb_true_iff in Ho. by exists p.
  - intros (p & Hp & Hc & Ho & Hn). rewrite Hp, Ho. split; [|done]. by exists p.
Qed.

(** Changing the properties at some positions. *)
Lemma alter_all_lookup (f : BProp -> BProp) (l : list nat) : NoDup l -> forall (ps : list BProp) i,
  fold_left (fun ps i => alter f i ps) l ps !! i = if decide (i ∈ l) then f <$> ps !! i else ps !! i.
Proof.
  induction 1 as [|j l Hj Hl IH]; intros ps i; cbn [fold_left].
  { by rewrite decide_False by apply not_elem_of_nil. }
  rewrite IH. destruct (decide (i = j)) as [->|Hne].
  - rewrite decide_False by exact Hj. rewrite list_lookup_alter_eq. by rewrite decide_True by left.
  - rewrite list_lookup_alter_ne by done.
    destruct (decide (i ∈ l)); [rewrite decide_True by (by right); done|].
    rewrite decide_False; [done|]. by intros [?|?]%elem_of_cons.
Qed.

Lemma delete_is_comment r p : is_comment (delete_prop r p) = true.
Proof.
  unfold delete_prop, make_as_comment. case_match eqn:E; [done|]. unfold is_comment. simpl. by destruct (comments p).
Qed.

Lemma set_optional_name b p : name (set_optional b p) = name p /\ is_comment (set_optional b p) = is_comment p.
Proof. done. Qed.

(** A group depends on the properties of its name only. *)
Section groups.
Context (ps ps' : list BProp) (n : string).
Context (Hlen : length ps' = length ps).
Context (Hsame : forall i p, ps !! i = Some p -> is_comment p = false -> name p = n -> ps' !! i = Some p).
Context (Hother : forall i p', ps' !! i = Some p' -> is_comment p' = false -> name p' = n -> ps !! i = Some p').

Lemma get_props_same : get_props n ps' = get_props n ps.
Proof.
  unfold get_props. rewrite Hlen. apply List.filter_ext. intros i.
  destruct (ps' !! i) as [p'|] eqn:E', (ps !! i) as [p|] eqn:E; try done.
  - destruct (is_comment p') eqn:C', (is_comment p) eqn:C; simpl; try done.
    + symmetry. apply not_true_is_false. intros Hn%String.eqb_eq. specialize (Hsame i p E C Hn). congruence.
    + apply not_true_is_false. intros Hn%String.eqb_eq. specialize (Hother i p' E' C' Hn). congruence.
    + destruct (String.eqb_spec (name p') n) as [Hn'|Hn']; destruct (String.eqb_spec (name p) n) as [Hn|Hn]; try done.
      * specialize (Hother i p' E' C' Hn'). congruence.
      * specialize (Hsame i p E C Hn). congruence.
  - apply lookup_lt_Some in E'. apply lookup_ge_None in E. lia.
  - apply lookup_lt_Some in E. apply lookup_ge_None in E'. lia.
Qed.

Lemma group_at i : i ∈ get_props n ps -> ps' !! i = ps !! i.
Proof. intros (p & Hp & Hc & Hn)%elem_of_get_props. rewrite Hp. by apply Hsame. Qed.

Lemma filter_group f g : (forall i, i ∈ get_props n ps -> f i = g i) ->
  List.filter f (get_props n ps') = List.filter g (get_props n ps).
Proof.
  rewrite get_props_same. intros H. induction (get_props n ps) as [|i l IH]; [done|]. simpl. rewrite H by left.
  rewrite IH; [done|]. intros j Hj. apply H. by right.
Qed.

Lemma optionals_same : optionals n ps' = optionals n ps.
Proof. apply filter_group. intros i Hi. unfold optional_at. by rewrite group_at. Qed.

Lemma overriding_same : overriding n ps' = overriding n ps.
Proof. apply filter_group. intros i Hi. unfold optional_at. by rewrite group_at. Qed.

Lemma str_at_same i : i ∈ get_props n ps -> str_at ps' i = str_at ps i.
Proof. intros Hi. unfold str_at. by rewrite group_at. Qed.

Lemma value_at_same i : i ∈ get_props n ps -> value_at ps' i = value_at ps i.
Proof. intros Hi. unfold value_at. by rewrite group_at. Qed.
End groups.

Lemma group_NoDup f n ps : NoDup (List.filter f (get_props n ps)).
Proof. apply NoDup_ListNoDup, List.NoDup_filter, NoDup_ListNoDup, get_props_NoDup. Qed.

Lemma alter_all_length (f : BProp -> BProp) (l : list nat) (ps : list BProp) :
  length (fold_left (fun ps i => alter f i ps) l ps) = length ps.
Proof. revert ps. induction l as [|i l IH]; intros ps; simpl; [done|]. by rewrite IH, length_alter. Qed.

(** * One name *)

Lemma last_removelast_app {A} (l : list A) x : last l = Some x -> l = removelast l ++ [x].
Proof. intros H. apply last_Some in H as [l' ->]. by rewrite removelast_last. Qed.

(** The properties of the name are resolved, the others are left. *)
Lemma override_name_ok allow_dup success ps n : get_props n ps <> [] ->
  exists ps', override_name allow_dup (success, ps) n = Ok (success && name_ok allow_dup ps n, ps') /\
    length ps' = length ps /\
    forall i, ps' !! i = if decide (i ∈ get_props n ps) then resolved allow_dup ps i <$> ps !! i else ps !! i.
Proof.
  intros Hne. unfold override_name. fold (optionals n ps) (overriding n ps).
  assert (NoDup (optionals n ps)) as Hnd by apply group_NoDup.
  assert (forall i p, ps !! i = Some p -> i ∈ get_props n ps -> name p = n) as Hname.
  { intros i p Hp (q & Hq & _ & Hn)%elem_of_get_props. congruence. }
  assert (forall i, i ∈ get_props n ps -> i ∉ optionals n ps -> resolved allow_dup ps i <$> ps !! i = ps !! i) as Hrest.
  { intros i (p & Hp & Hc & Hn)%elem_of_get_props Hno. rewrite Hp. simpl. f_equal. unfold resolved.
    destruct (is_optional p) eqn:E; [|done]. exfalso. apply Hno. apply elem_of_optionals. by exists p. }
  assert (forall i, i ∈ optionals n ps -> i ∈ get_props n ps) as Hsub.
  { intros i. unfold optionals. rewrite elem_of_filter_b. tauto. }
  assert (forall f ps', ps' = fold_left (fun ps i => alter f i ps) (optionals n ps) ps ->
    (forall i p, ps !! i = Some p -> i ∈ optionals n ps -> resolved allow_dup ps i p = f p) ->
    length ps' = length ps /\
    forall i, ps' !! i = if decide (i ∈ get_props n ps) then resolved allow_dup ps i <$> ps !! i else ps !! i) as Hfold.
  { intros f ps' -> Hf. split; [apply alter_all_length|]. intros i. rewrite alter_all_lookup by done.
    destruct (decide (i ∈ optionals n ps)) as [Hi|Hi].
    - rewrite decide_True by auto. destruct (ps !! i) as [p|] eqn:Ep; [|done]. simpl. f_equal. symmetry. by apply Hf.
    - case_decide as Hg; [symmetry; by apply Hrest|done]. }
  assert (forall i p, ps !! i = Some p -> i ∈ optionals n ps -> is_optional p = true /\ name p = n) as Hopt.
  { intros i p Hp (q & Hq & Ho & Hn)%elem_of_optionals. rewrite Hp in Hq. injection Hq as <-. done. }
  unfold name_ok. destruct (overriding n ps) as [|o l] eqn:Eov.
  - destruct (last (optionals n ps)) as [j|] eqn:Elast.
    2:{ exfalso. apply last_None in Elast. apply Hne. apply elem_of_nil_inv. intros i Hi.
        pose proof Hi as (p & Hp & Hc & Hn)%elem_of_get_props. destruct (is_optional p) eqn:Eo.
        - assert (i ∈ optionals n ps) as Hin by (apply elem_of_optionals; by exists p). rewrite Elast in Hin. by apply elem_of_nil in Hin.
        - assert (i ∈ overriding n ps) as Hin by (apply elem_of_overriding; by exists p). rewrite Eov in Hin. by apply elem_of_nil in Hin. }
    pose proof (last_removelast_app _ _ Elast) as Hl.
    assert (NoDup (removelast (optionals n ps)) /\ j ∉ removelast (optionals n ps)) as [Hnd' Hj].
    { rewrite Hl in Hnd. apply NoDup_app in Hnd as (H1 & H2 & _). split; [done|]. intros Hin. apply (H2 j Hin). by left. }
    eexists. rewrite andb_true_r. split; [done|].
    assert (forall ps' : list BProp, (if (1 <? length (optionals n ps))%nat then
        delete_all ("overridden by " +:+ str_at ps j) (removelast (optionals n ps)) ps else ps) = ps' ->
      length ps' = length ps /\ forall i, ps' !! i = if decide (i ∈ removelast (optionals n ps)) then
        delete_prop ("overridden by " +:+ str_at ps j) <$> ps !! i else ps !! i) as Hdel.
    { intros ps' <-. destruct (Nat.ltb_spec 1 (length (optionals n ps))) as [Hlt|Hge].
      - unfold delete_all. split; [apply alter_all_length|]. intros i. by apply alter_all_lookup.
      - split; [done|]. intros i. destruct (removelast (optionals n ps)) as [|k r] eqn:Er; [by rewrite decide_False by apply not_elem_of_nil|].
        rewrite Hl in Hge. simpl in Hge. rewrite length_app in Hge. simpl in Hge. lia. }
    destruct (Hdel _ eq_refl) as [Hdl Hdi]. split; [by rewrite length_alter|]. intros i.
    assert (i ∈ optionals n ps <-> i ∈ removelast (optionals n ps) \/ i = j) as Hmem.
    { rewrite Hl at 1. by rewrite elem_of_app, list_elem_of_singleton. }
    destruct (decide (i = j)) as [->|Hne'].
    + rewrite list_lookup_alter_eq, Hdi. rewrite decide_False by done.
      assert (j ∈ optionals n ps) as Hjo by (apply Hmem; by right). rewrite decide_True by auto.
      destruct (ps !! j) as [p|] eqn:Ep; [|done]. simpl. f_equal. destruct (Hopt j p Ep Hjo) as [Ho Hn].
      unfold resolved. rewrite Ho, Hn, Eov, Elast. simpl. by rewrite decide_True.
    + rewrite list_lookup_alter_ne by done. rewrite Hdi. destruct (decide (i ∈ removelast (optionals n ps))) as [Hi|Hi].
      * assert (i ∈ optionals n ps) as Hio by (apply Hmem; by left). rewrite decide_True by auto.
        destruct (ps !! i) as [p|] eqn:Ep; [|done]. simpl. f_equal. destruct (Hopt i p Ep Hio) as [Ho Hn].
        unfold resolved. rewrite Ho, Hn, Eov, Elast. simpl. by rewrite decide_False.
      * case_decide as Hg; [|done]. symmetry. apply Hrest; [done|]. intros [?|?]%Hmem; done.
  - assert (forall i p, ps !! i = Some p -> i ∈ optionals n ps -> resolved allow_dup ps i p =
      if same_values ps (o :: l) then delete_prop ("overridden by " +:+ str_at ps o) p
      else if allow_dup then set_optional false p else p) as Hres.
    { intros i p Hp Hi. destruct (Hopt i p Hp Hi) as [Ho Hn]. unfold resolved. by rewrite Ho, Hn, Eov. }
    fold (same_values ps (o :: l)).
    assert (l = [] -> same_values ps (o :: l) = true) as Hone by (intros ->; simpl; by rewrite String.eqb_refl).
    destruct (same_values ps (o :: l)) eqn:Esame.
    + assert (match l with [] => Ok (success, delete_all ("overridden by " +:+ str_at ps o) (optionals n ps) ps)
              | _ :: _ => Ok (success, delete_all ("overridden by " +:+ str_at ps o) (optionals n ps) ps) end =
              Ok (success, delete_all ("overridden by " +:+ str_at ps o) (optionals n ps) ps)) as -> by (by destruct l).
      eexists. rewrite andb_true_r. split; [done|]. by apply (Hfold (delete_prop ("overridden by " +:+ str_at ps o))).
    + destruct l as [|o' l]; [by specialize (Hone eq_refl)|]. destruct allow_dup.
      * eexists. rewrite andb_true_r. split; [done|]. by apply (Hfold (set_optional false)).
      * exists ps. rewrite andb_false_r. split; [done|]. split; [done|]. intros i. case_decide as Hg; [|done].
        destruct (ps !! i) as [p|] eqn:Ep; [|done]. simpl. f_equal.
        destruct (decide (i ∈ optionals n ps)) as [Hi|Hi]; [symmetry; by apply Hres|].
        specialize (Hrest i Hg Hi). rewrite Ep in Hrest. simpl in Hrest. congruence.
Qed.

(** * All names *)

Lemma same_values_ext ps ps' l : (forall i, i ∈ l -> value_at ps' i = value_at ps i) -> same_values ps' l = same_values ps l.
Proof.
  intros H. destruct l as [|o l]; [done|]. unfold same_values. rewrite (H o) by left.
  assert (forall k, (forall i, i ∈ k -> value_at ps' i = value_at ps i) ->
    forallb (fun i => String.eqb (value_at ps o) (value_at ps' i)) k = forallb (fun i => String.eqb (value_at ps o) (value_at ps i)) k) as Hk.
  { induction k as [|i k IH]; intros Hi; [done|]. simpl. rewrite Hi by left. rewrite IH; [done|]. intros j Hj. apply Hi. by right. }
  by apply Hk.
Qed.

Section resolved_same.
Context (allow_dup : bool) (ps ps' : list BProp) (n : string).
Context (Hlen : length ps' = length ps).
Context (Hsame : forall i p, ps !! i = Some p -> is_comment p = false -> name p = n -> ps' !! i = Some p).
Context (Hother : forall i p', ps' !! i = Some p' -> is_comment p' = false -> name p' = n -> ps !! i = Some p').

Lemma group_subset f i l : List.filter f (get_props n ps) = l -> i ∈ l -> i ∈ get_props n ps.
Proof. intros <-. rewrite elem_of_filter_b. tauto. Qed.

Lemma overriding_values l : overriding n ps = l -> same_values ps' l = same_values ps l.
Proof.
  intros Hl. apply same_values_ext. intros i Hi. apply (value_at_same ps ps' n Hsame). by eapply group_subset.
Qed.

Lemma name_ok_same : name_ok allow_dup ps' n = name_ok allow_dup ps n.
Proof. unfold name_ok. rewrite (overriding_same ps ps' n) by done. by rewrite (overriding_values _ eq_refl). Qed.

Lemma resolved_same i p : name p = n -> resolved allow_dup ps' i p = resolved allow_dup ps i p.
Proof.
  intros Hn. unfold resolved. destruct (negb (is_optional p)); [done|]. rewrite Hn.
  rewrite (overriding_same ps ps' n), (optionals_same ps ps' n) by done.
  destruct (overriding n ps) as [|o l] eqn:Eov.
  - destruct (last (optionals n ps)) as [j|] eqn:El; [|done]. case_decide; [done|].
    rewrite (str_at_same ps ps' n Hsame); [done|]. apply (group_subset (optional_at ps) _ (optionals n ps) eq_refl).
    apply last_Some in El as [l ->]. rewrite elem_of_app. right. by left.
  - rewrite (overriding_values (o :: l) Eov). rewrite (str_at_same ps ps' n Hsame); [done|].
    apply (group_subset _ _ _ Eov). by left.
Qed.
End resolved_same.

Lemma resolved_comment allow_dup ps i p : is_comment p = true -> resolved allow_dup ps i p = p.
Proof. intros H. unfold resolved, is_optional. by rewrite H. Qed.

(** What is left of a property that is not a comment keeps its name. *)
Lemma resolved_kept allow_dup ps i p : is_comment (resolved allow_dup ps i p) = false -> name (resolved allow_dup ps i p) = name p.
Proof.
  unfold resolved. repeat case_match; intros Hc; try done; by rewrite delete_is_comment in Hc.
Qed.

Definition done_names (allow_dup : bool) (ps : list BProp) (pre : list string) (i : nat) (p : BProp) : BProp :=
  if negb (is_comment p) && bool_decide (name p ∈ pre) then resolved allow_dup ps i p else p.

Lemma elem_of_names_of n ps : n ∈ names_of ps <-> get_props n ps <> [].
Proof.
  unfold names_of. rewrite elem_of_remove_dups. split.
  - intros (p & -> & Hp)%list_elem_of_fmap. apply elem_of_filter_b in Hp as [Hp Hc].
    apply list_elem_of_lookup in Hp as [i Hi]. intros Hnil.
    assert (i ∈ get_props (name p) ps) as Hin by (apply elem_of_get_props; exists p; split; [done|by apply negb_true_iff in Hc]).
    rewrite Hnil in Hin. by apply elem_of_nil in Hin.
  - destruct (get_props n ps) as [|i l] eqn:E; [done|]. intros _.
    assert (i ∈ get_props n ps) as (p & Hp & Hc & <-)%elem_of_get_props by (rewrite E; by left).
    apply list_elem_of_fmap. exists p. split; [done|]. apply elem_of_filter_b. split; [by eapply list_elem_of_lookup_2|].
    by rewrite Hc.
Qed.

Lemma override_step allow_dup ps pre n cur success :
  n ∉ pre -> get_props n ps <> [] -> length cur = length ps ->
  (forall i, cur !! i = done_names allow_dup ps pre i <$> ps !! i) ->
  exists cur', override_name allow_dup (success, cur) n = Ok (success && name_ok allow_dup ps n, cur') /\
    length cur' = length ps /\ forall i, cur' !! i = done_names allow_dup ps (pre ++ [n]) i <$> ps !! i.
Proof.
  intros Hn Hne Hlen Hcur.
  assert (forall i p, ps !! i = Some p -> is_comment p = false -> name p = n -> cur !! i = Some p) as Hsame.
  { intros i p Hp Hc Hname. rewrite Hcur, Hp. simpl. f_equal. unfold done_names. rewrite Hc, Hname.
    by rewrite bool_decide_eq_false_2. }
  assert (forall i p', cur !! i = Some p' -> is_comment p' = false -> name p' = n -> ps !! i = Some p') as Hother.
  { intros i p' Hp' Hc Hname. rewrite Hcur in Hp'. destruct (ps !! i) as [p|]; [|done]. simpl in Hp'. injection Hp' as <-. f_equal.
    unfold done_names in *. destruct (negb (is_comment p) && bool_decide (name p ∈ pre)) eqn:E; [|done].
    apply andb_true_iff in E as [_ E]. apply bool_decide_eq_true in E. rewrite resolved_kept in Hname by done. by subst. }
  destruct (override_name_ok allow_dup success cur n) as (cur' & Hov & Hl' & Hi').
  { by rewrite (get_props_same ps cur n). }
  exists cur'. rewrite Hov, (name_ok_same allow_dup ps cur n) by done. split; [done|]. split; [congruence|].
  intros i. rewrite Hi', (get_props_same ps cur n) by done. destruct (decide (i ∈ get_props n ps)) as [Hi|Hi].
  - pose proof Hi as (p & Hp & Hc & Hname)%elem_of_get_props. rewrite (Hsame i p Hp Hc Hname), Hp. simpl. f_equal.
    rewrite (resolved_same allow_dup ps cur n) by done. unfold done_names. rewrite Hc, Hname. simpl.
    rewrite bool_decide_eq_true_2; [done|]. rewrite elem_of_app. right. by left.
  - rewrite Hcur. destruct (ps !! i) as [p|] eqn:Hp; [|done]. simpl. f_equal. unfold done_names.
    destruct (is_comment p) eqn:Hc; [done|]. simpl.
    assert (name p <> n) as Hnn by (intros Hname; apply Hi, elem_of_get_props; by exists p).
    assert (bool_decide (name p ∈ pre ++ [n]) = bool_decide (name p ∈ pre)) as ->; [|done].
    apply bool_decide_ext. rewrite elem_of_app, list_elem_of_singleton. tauto.
Qed.

Lemma override_optional_props_ok set_order allow_dup ps : set_order (names_of ps) ≡ₚ names_of ps ->
  override_optional_props set_order allow_dup ps =
    Ok (forallb (name_ok allow_dup ps) (names_of ps), imap (resolved allow_dup ps) ps).
Proof.
  intros Hperm. unfold override_optional_props.
  assert (NoDup (set_order (names_of ps))) as Hnd by (rewrite Hperm; apply NoDup_remove_dups).
  destruct (foldM_ok (fun pre st => st.1 = forallb (name_ok allow_dup ps) pre /\ length st.2 = length ps /\
      forall i, st.2 !! i = done_names allow_dup ps pre i <$> ps !! i)
    (override_name allow_dup) (true, ps) (set_order (names_of ps))) as ([b cur] & -> & Hb & Hlen & Hcur).
  - split; [done|]. split; [done|]. intros i. destruct (ps !! i) as [p|] eqn:Hp; [|done]. simpl. f_equal. unfold done_names.
    rewrite bool_decide_eq_false_2 by apply not_elem_of_nil. by rewrite andb_false_r.
  - intros pre n post [b cur] Hl (Hb & Hlen & Hcur). simpl in *.
    assert (n ∉ pre) as Hn.
    { rewrite Hl in Hnd. apply NoDup_app in Hnd as (_ & Hd & _). intros Hin. apply (Hd n Hin). by left. }
    assert (get_props n ps <> []) as Hne.
    { apply elem_of_names_of. rewrite <- Hperm, Hl, elem_of_app. right. by left. }
    destruct (override_step allow_dup ps pre n cur b Hn Hne Hlen Hcur) as (cur' & Ho & Hlen' & Hcur').
    exists (b && name_ok allow_dup ps n, cur'). split; [done|]. simpl. split; [|done].
    rewrite forallb_app. simpl. by rewrite andb_true_r, Hb.
  - simpl in *. f_equal. f_equal.
    + rewrite Hb. apply eq_true_iff_eq. rewrite !forallb_forall. setoid_rewrite <- list_elem_of_In. by setoid_rewrite Hperm.
    + apply list_eq. intros i. rewrite Hcur, list_lookup_imap. destruct (ps !! i) as [p|] eqn:Hp; [|done]. simpl. f_equal.
      unfold done_names. destruct (is_comment p) eqn:Hc; simpl; [by rewrite resolved_comment|].
      rewrite bool_decide_eq_true_2; [done|]. rewrite Hperm. apply elem_of_names_of.
      intros Hnil. assert (i ∈ get_props (name p) ps) as Hin by (apply elem_of_get_props; by exists p).
      rewrite Hnil in Hin. by apply elem_of_nil in Hin.
Qed.

(** C33: whatever the order in which the set of names is visited,
    [override_optional_props] turns every property into what its own group
    determines: a "?=" assignment is deleted when a "=" assignment of the same
    name has a single value, the last one becomes a plain assignment when there
    is none, everything else stays; and it reports success exactly when no name
    has plain assignments with different values, or duplicates are allowed. *)
Theorem override_resolves set_order allow_dup ps : set_order (names_of ps) ≡ₚ names_of ps ->
  override_optional_props set_order allow_dup ps =
    Ok (forallb (fun n => same_values ps (overriding n ps) || allow_dup) (names_of ps), imap (resolved allow_dup ps) ps).
Proof. apply override_optional_props_ok. Qed.

Definition ex_lines : list string := ["ro.a=1"; "ro.b?=2"; "ro.b?=3"; "c=4"; "c?=5"; "# note"].
Definition ex_content : string := str_join "" (map end_line ex_lines).
Definition ex_props : list BProp := read_props (readlines ex_content).

Lemma override_resolves_witness : map prop_str (imap (resolved false ex_props) ex_props) !! 2%nat = Some "ro.b=3" /\
  override_optional_props (@rev string) false ex_props = Ok (true, imap (resolved false ex_props) ex_props).
Proof.
  split; [by vm_compute|]. rewrite (override_resolves (@rev string) false ex_props).
  - by vm_compute.
  - symmetry. apply Permutation_rev.
Defined.

(** ** The file written *)

Lemma delete_all_lookup r l ps i : NoDup l ->
  delete_all r l ps !! i = if decide (i ∈ l) then delete_prop r <$> ps !! i else ps !! i.
Proof. intros H. unfold delete_all. by apply alter_all_lookup. Qed.

(** Dropping keys leaves the other properties and turns those into comments. *)
Lemma drop_keys_kept keys : forall ps p, p ∈ fold_left drop_key keys ps -> is_comment p = false ->
  p ∈ ps /\ name p ∉ keys.
Proof.
  induction keys as [|k keys IH]; intros ps p Hp Hc; simpl in Hp; [split; [done|apply not_elem_of_nil]|].
  apply IH in Hp as [Hp Hk]; [|done]. apply list_elem_of_lookup in Hp as [i Hi]. unfold drop_key in Hi.
  rewrite delete_all_lookup in Hi by apply get_props_NoDup. case_decide as Hd.
  - destruct (ps !! i) as [q|]; [|done]. simpl in Hi. injection Hi as <-. by rewrite delete_is_comment in Hc.
  - split; [by eapply list_elem_of_lookup_2|]. intros [Hn|?]%elem_of_cons; [|done].
    apply Hd, elem_of_get_props. exists p. by split_and!.
Qed.

Lemma same_values_equal ps l i j : same_values ps l = true -> i ∈ l -> j ∈ l -> value_at ps i = value_at ps j.
Proof.
  destruct l as [|o l]; [by intros _ ?%elem_of_nil|]. unfold same_values. rewrite forallb_forall. intros H Hi Hj.
  apply list_elem_of_In, H, String.eqb_eq in Hi. apply list_elem_of_In, H, String.eqb_eq in Hj. congruence.
Qed.

(** The properties that survive the resolution of a name have one value. *)
Lemma resolved_one_value ps i j p q : forallb (name_ok false ps) (names_of ps) = true ->
  imap (resolved false ps) ps !! i = Some p -> imap (resolved false ps) ps !! j = Some q ->
  is_comment p = false -> is_comment q = false -> name p = name q -> value p = value q.
Proof.
  intros Hok Hi Hj Hcp Hcq Hn. rewrite list_lookup_imap in Hi, Hj.
  destruct (ps !! i) as [p0|] eqn:Ep; [|done]. destruct (ps !! j) as [q0|] eqn:Eq; [|done].
  simpl in Hi, Hj. injection Hi as <-. injection Hj as <-.
  rewrite !resolved_kept in Hn by done.
  assert (is_comment p0 = false) as Hp0 by (destruct (is_comment p0) eqn:E; [by rewrite resolved_comment, E in Hcp|done]).
  assert (is_comment q0 = false) as Hq0 by (destruct (is_comment q0) eqn:E; [by rewrite resolved_comment, E in Hcq|done]).
  assert (same_values ps (overriding (name p0) ps) = true) as Hs.
  { rewrite forallb_forall in Hok. specialize (Hok (name p0)). unfold name_ok in Hok. rewrite orb_false_r in Hok.
    apply Hok, list_elem_of_In, elem_of_names_of. intros Hnil.
    assert (i ∈ get_props (name p0) ps) as Hin by (apply elem_of_get_props; by exists p0).
    rewrite Hnil in Hin. by apply elem_of_nil in Hin. }
  assert (forall k x, ps !! k = Some x -> name x = name p0 -> is_comment x = false ->
    is_comment (resolved false ps k x) = false ->
    value (resolved false ps k x) = value x /\ (k ∈ overriding (name p0) ps \/
      (overriding (name p0) ps = [] /\ last (optionals (name p0) ps) = Some k))) as Hcase.
  { intros k x Hx Hnx Hcx. unfold resolved. rewrite Hnx. destruct (is_optional x) eqn:Eo; simpl.
    - destruct (overriding (name p0) ps) as [|o l] eqn:Eov.
      + destruct (last (optionals (name p0) ps)) as [m|] eqn:El; [|exfalso].
        * case_decide as Hm; [subst m; intros _; split; [done|by right]|]. by rewrite delete_is_comment.
        * apply last_None in El. assert (k ∈ optionals (name p0) ps) as Hk by (apply elem_of_optionals; by exists x).
          rewrite El in Hk. by apply elem_of_nil in Hk.
      + simpl in Hs. rewrite Hs. by rewrite delete_is_comment.
    - intros _. split; [done|]. left. apply elem_of_overriding. by exists x. }
  destruct (Hcase i p0 Ep eq_refl Hp0 Hcp) as [Hvp Hip]. destruct (Hcase j q0 Eq (eq_sym Hn) Hq0 Hcq) as [Hvq Hjq].
  rewrite Hvp, Hvq. destruct Hip as [Hip|[Hnil Hip]], Hjq as [Hjq|[Hnil' Hjq]].
  - pose proof (same_values_equal ps _ i j Hs Hip Hjq) as Hv. unfold value_at in Hv. by rewrite Ep, Eq in Hv.
  - rewrite Hnil' in Hip. by apply elem_of_nil in Hip.
  - rewrite Hnil in Hjq. by apply elem_of_nil in Hjq.
  - congruence.
Qed.

(** C34: the file that the post-processing writes holds, besides comments, only
    plain assignments, none of a disallowed key, none longer than the limit
    unless read-only, and (unless duplicates are allowed) a single value for
    every name. *)
Theorem post_process_safe set_order uffd allow_dup filename kernel keys content out :
  (forall ps, set_order (names_of ps) ≡ₚ names_of ps) ->
  post_process set_order uffd allow_dup filename kernel keys content = Ok out ->
  exists ps, out = write_props ps /\
    (forall p, p ∈ ps -> is_comment p = false ->
       is_optional p = false /\ name p ∉ keys /\ (str_len (value p) <= 91 \/ (starts_with "ro." (name p) = true))) /\
    (allow_dup = false -> forall p q, p ∈ ps -> q ∈ ps -> is_comment p = false -> is_comment q = false ->
       name p = name q -> value p = value q).
Proof.
  intros Hperm. unfold post_process. intros H. destruct (negb (ends_with _ _)); [done|].
  destruct (mangle_build_prop _ _ _) as [ps0|]; [|done]. rewrite (override_optional_props_ok _ _ _ (Hperm ps0)) in H.
  destruct (forallb (name_ok allow_dup ps0) (names_of ps0)) eqn:Hok; [|done]. simpl negb in H. cbn iota in H.
  set (ps1 := imap (resolved allow_dup ps0) ps0) in *. destruct (validate_grf_props ps1) as [[]|]; [|done..].
  simpl in H. destruct (validate ps1) eqn:Hv; [|done]. simpl in H. injection H as <-.
  exists (fold_left drop_key keys ps1). split; [done|]. split.
  - intros p Hp Hc. apply drop_keys_kept in Hp as [Hp Hk]; [|done].
    unfold validate in Hv. rewrite forallb_forall in Hv. assert (valid_prop p = true) as Hvp.
    { apply Hv, filter_In. split; [by apply list_elem_of_In|by rewrite Hc]. }
    unfold valid_prop in Hvp. apply andb_true_iff in Hvp as [Hl Ho]. apply negb_true_iff in Ho, Hl. split_and!; try done.
    apply andb_false_iff in Hl as [Hl|Hl]; [left; apply Z.ltb_ge in Hl; exact Hl|right; by apply negb_false_iff in Hl].
  - intros -> p q Hp Hq Hcp Hcq Hn.
    apply drop_keys_kept in Hp as [Hp _]; [|done]. apply drop_keys_kept in Hq as [Hq _]; [|done].
    apply list_elem_of_lookup in Hp as [i Hi]. apply list_elem_of_lookup in Hq as [j Hj].
    by eapply (resolved_one_value ps0 i j).
Qed.

Lemma post_process_safe_witness : exists out ps,
  post_process (fun l => l) (fun _ => Ok true) false "out/build.prop" "" ["ro.a"] ex_content = Ok out /\
  out = write_props ps /\
  (forall p : BProp, p ∈ ps -> is_comment p = false ->
     is_optional p = false /\ name p ∉ ["ro.a"] /\ (str_len (value p) <= 91 \/ (starts_with "ro." (name p) = true))).
Proof.
  destruct (post_process (fun l => l) (fun _ => Ok true) false "out/build.prop" "" ["ro.a"] ex_content) as [out|e] eqn:E.
  - destruct (post_process_safe (fun l => l) (fun _ => Ok true) false "out/build.prop" "" ["ro.a"] ex_content out) as (ps & H1 & H2 & _).
    + done.
    + exact E.
    + exists out, ps. split; [reflexivity|]. split; [exact H1|exact H2].
  - by vm_compute in E.
Defined.

(** ** Reading the file back *)

Lemma rstrip_nl_end l : has_char newline l = false -> rstrip_nl (end_line l) = l.
Proof.
  intros H. unfold end_line. induction l as [|c l IH]; [done|]. simpl in H. apply orb_false_iff in H as [Hc Hl].
  change (String c l +:+ String newline "") with (String c (l +:+ String newline "")). cbn [rstrip_nl].
  rewrite IH by done. destruct l; [by rewrite Hc|done].
Qed.

Lemma split_once_app sep c a s : String.length sep = 2%nat \/ String.length sep = 1%nat -> starts_with (String c "") sep = true ->
  has_char c a = false -> split_once sep (a +:+ sep +:+ s) = Some (a, s).
Proof.
  intros Hl Hsep Ha. destruct sep as [|d sep]; [done|]. simpl in Hsep. destruct (ascii_dec c d) as [<-|]; [|done].
  assert (forall t u : string, String.prefix t (t +:+ u) = true) as Hpre.
  { induction t as [|x t IH]; intros u; [by destruct u|]. simpl. destruct (ascii_dec x x); [apply IH|done]. }
  assert (forall (t u : string), str_drop (String.length t) (t +:+ u) = u) as Hdrop.
  { induction t as [|x t IH]; intros u; [done|]. simpl. apply IH. }
  induction a as [|x a IH].
  - change ("" +:+ String c sep +:+ s) with (String c sep +:+ s).
    assert (split_once (String c sep) (String c sep +:+ s) =
      if starts_with (String c sep) (String c sep +:+ s) then Some ("", str_drop (String.length (String c sep)) (String c sep +:+ s))
      else None) as ->.
    { unfold starts_with. rewrite Hpre. simpl. destruct (ascii_dec c c); [|done]. by rewrite Hpre. }
    unfold starts_with. by rewrite Hpre, Hdrop.
  - simpl in Ha. apply orb_false_iff in Ha as [Hx Ha].
    change (String x a +:+ String c sep +:+ s) with (String x (a +:+ String c sep +:+ s)). cbn [split_once].
    assert (starts_with (String c sep) (String x (a +:+ String c sep +:+ s)) = false) as ->; [|by rewrite IH].
    unfold starts_with. simpl. destruct (ascii_dec c x) as [->|]; [by rewrite Ascii.eqb_refl in Hx|done].
Qed.

(** A value may not contain "?=": an assignment of one is read as an optional
    assignment whose name contains "=". *)
Theorem optional_operator_in_value n a b :
  has_char "?" n = false -> has_char "?" a = false -> has_char newline (n +:+ "=" +:+ a +:+ "?=" +:+ b) = false ->
  starts_with "#" (n +:+ "=" +:+ a +:+ "?=" +:+ b) = false ->
  from_line (end_line (n +:+ "=" +:+ a +:+ "?=" +:+ b)) = mkProp (strip (n +:+ "=" +:+ a)) (strip b) [] true.
Proof.
  intros Hn Ha Hnl Hc. unfold from_line. rewrite rstrip_nl_end, Hc by done.
  assert (n +:+ "=" +:+ a +:+ "?=" +:+ b = (n +:+ "=" +:+ a) +:+ "?=" +:+ b) as -> by (by rewrite !str_app_assoc).
  rewrite (split_once_app "?=" "?"); [done|by left|done|]. rewrite !has_char_app, Hn, Ha. done.
Qed.

Lemma optional_operator_in_value_witness :
  from_line (end_line "a=x?=1") = mkProp "a=x" "1" [] true.
Proof. apply (optional_operator_in_value "a" "x" "1"); by vm_compute. Defined.

(** A property that the file format can hold: texts without newlines, comments
    that begin with "#", a name without "=" that is not taken for a comment, and
    no operator that the reader would find elsewhere. *)
Record printable (p : BProp) : Prop := {
  pr_comments : Forall (fun c => starts_with "#" c = true /\ has_char newline c = false) (comments p);
  pr_name : strip (name p) = name p /\ has_char newline (name p) = false /\ has_char "=" (name p) = false;
  pr_value : strip (value p) = value p /\ has_char newline (value p) = false;
  pr_ops : if is_optional p then has_char "?" (name p) = false
           else has_char "?" (name p) = false /\ has_char "?" (value p) = false;
  pr_start : starts_with "#" (assignment p) = false
}.

(** The objects that the lines of [p] are read as. *)
Definition reread (p : BProp) : list BProp :=
  map (fun c => mkProp "" "" [c] false) (comments p)
  ++ (if is_comment p then [] else [mkProp (name p) (value p) [] (is_optional p)]).

Definition prop_lines (p : BProp) : list string := comments p ++ (if is_comment p then [] else [assignment p]).

Lemma split_once_none_char sep c s : starts_with (String c "") sep = true -> has_char c s = false -> split_once sep s = None.
Proof.
  intros Hsep. destruct sep as [|d sep]; [done|]. simpl in Hsep. destruct (ascii_dec c d) as [<-|]; [|done].
  induction s as [|x s IH]; [done|]. simpl. intros [Hx Hs]%orb_false_iff. unfold starts_with. simpl.
  destruct (ascii_dec c x) as [->|]; [by rewrite Ascii.eqb_refl in Hx|]. by rewrite IH.
Qed.

Lemma has_equals_not_blank s : has_char "=" s = true -> str_true (strip s) = true.
Proof.
  assert (forall s, has_char "=" s = true -> has_char "=" (lstrip s) = true) as Hl.
  { induction s0 as [|c s0 IH]; [done|]. simpl. destruct (is_space c) eqn:E; [|done].
    intros [Hc|Hs]%orb_true_iff; [|by apply IH]. apply Ascii.eqb_eq in Hc. by subst c. }
  assert (forall s, has_char "=" s = true -> has_char "=" (rstrip s) = true) as Hr.
  { induction s0 as [|c s0 IH]; [done|]. simpl. intros [Hc|Hs]%orb_true_iff.
    - apply Ascii.eqb_eq in Hc. subst c. by destruct (rstrip s0).
    - specialize (IH Hs). destruct (rstrip s0) as [|x r]; [done|]. simpl in IH |- *. rewrite andb_false_r. simpl. by rewrite IH, orb_true_r. }
  intros H. specialize (Hr _ (Hl s H)). unfold strip. by destruct (rstrip (lstrip s)).
Qed.

Lemma starts_with_char c x s : starts_with (String c "") (String x s) = true -> x = c.
Proof. unfold starts_with. cbn [String.prefix]. by destruct (ascii_dec c x). Qed.

Lemma str_true_comment c : starts_with "#" c = true -> str_true (strip c) = true.
Proof.
  destruct c as [|x c]; [done|]. intros ->%starts_with_char.
  unfold strip. simpl. by destruct (rstrip c).
Qed.

Lemma reread_comment c : starts_with "#" c = true -> has_char newline c = false ->
  from_line (end_line c) = mkProp "" "" [c] false.
Proof. intros H Hn. unfold from_line. by rewrite rstrip_nl_end, H. Qed.

Lemma reread_assignment p : printable p -> is_comment p = false ->
  from_line (end_line (assignment p)) = mkProp (name p) (value p) [] (is_optional p).
Proof.
  intros [_ (Hn1 & Hn2 & Hn3) (Hv1 & Hv2) Hops Hstart] Hc. unfold from_line. rewrite rstrip_nl_end, Hstart.
  2:{ unfold assignment. rewrite !has_char_app, Hn2, Hv2. by destruct (is_optional p). }
  unfold assignment. destruct (is_optional p).
  - rewrite (split_once_app "?=" "?") by (by left || done). unfold new_prop. by rewrite Hn1, Hv1.
  - destruct Hops as [Hq1 Hq2]. rewrite (split_once_none_char "?=" "?"); [|done|by rewrite !has_char_app, Hq1, Hq2].
    rewrite (split_once_app "=" "=") by (by right || done). unfold new_prop. by rewrite Hn1, Hv1.
Qed.

Lemma prop_lines_text p : end_line (prop_str p) = str_join "" (map end_line (prop_lines p)).
Proof.
  unfold prop_str, prop_lines. apply str_join_lines. unfold is_comment. destruct (comments p); [done|]. by intros ?.
Qed.

(** C35: the file that [write] writes for properties of the usual form reads back
    as the same assignments, in order, with the comments as separate lines; so
    the assignments a later reader sees are those of the list. *)
Theorem write_read_roundtrip ps : Forall printable ps ->
  read_props (readlines (write_props ps)) = flat_map reread ps /\
  map (fun p => (name p, value p, is_optional p)) (get_all_props (read_props (readlines (write_props ps)))) =
  map (fun p => (name p, value p, is_optional p)) (get_all_props ps).
Proof.
  intros H.
  assert (write_props ps = str_join "" (map end_line (flat_map prop_lines ps))) as Hw.
  { unfold write_props. clear H. induction ps as [|p ps IH]; [done|]. cbn [map flat_map].
    rewrite str_concat_cons, IH, prop_lines_text, map_app. by rewrite str_concat_app. }
  assert (read_props (readlines (write_props ps)) = flat_map reread ps) as Hr.
  { rewrite Hw, readlines_lines.
    - unfold read_props. clear Hw. induction H as [|p ps Hp Hps IH]; [done|]. cbn [flat_map].
      rewrite map_app, List.filter_app, map_app, IH. f_equal. unfold prop_lines, reread. rewrite map_app, List.filter_app, map_app. f_equal.
      + destruct Hp as [Hcs _ _ _ _]. induction Hcs as [|c cs [Hc1 Hc2] Hcs IHc]; [done|]. cbn [map List.filter].
        assert (str_true (strip (end_line c)) = true) as ->.
        { apply str_true_comment. destruct c as [|x c]; [done|]. apply starts_with_char in Hc1 as ->. by destruct c. }
        cbn [map]. rewrite IHc. f_equal. by apply reread_comment.
      + destruct (is_comment p) eqn:Ec; [done|]. cbn [map List.filter].
        rewrite has_equals_not_blank by (unfold end_line, assignment; rewrite !has_char_app; destruct (is_optional p); simpl; by rewrite ?orb_true_r).
        cbn [map]. by rewrite reread_assignment.
    - clear Hw. apply Forall_forall. intros l Hl. apply list_elem_of_In, in_flat_map in Hl as (p & Hp & Hl).
      apply list_elem_of_In in Hp, Hl. rewrite Forall_forall in H. destruct (H p Hp) as [Hcs (_ & Hn & _) (_ & Hv) _ _].
      unfold prop_lines in Hl. apply elem_of_app in Hl as [Hl|Hl]; [rewrite Forall_forall in Hcs; by apply Hcs|].
      destruct (is_comment p); [by apply elem_of_nil in Hl|]. apply list_elem_of_singleton in Hl as ->.
      unfold assignment. rewrite !has_char_app, Hn, Hv. by destruct (is_optional p). }
  split; [done|]. rewrite Hr. clear. unfold get_all_props. induction ps as [|p ps IH]; [done|].
  cbn [flat_map List.filter]. rewrite List.filter_app, map_app, IH. unfold reread. rewrite List.filter_app.
  assert (List.filter (fun p => negb (is_comment p)) (map (fun c => mkProp "" "" [c] false) (comments p)) = []) as ->.
  { induction (comments p) as [|c cs IHc]; [done|]. simpl. done. }
  destruct (is_comment p) eqn:Ec; simpl; [done|]. unfold is_comment at 1. simpl. unfold is_optional at 1. simpl. done.
Qed.

Lemma write_read_roundtrip_witness :
  map (fun p => (name p, value p, is_optional p))
    (get_all_props (read_props (readlines (write_props [mkProp "a" "1" ["# x"; "#a=0"] false; mkProp "b" "?=" [] true])))) =
  [("a", "1", false); ("b", "?=", true)].
Proof.
  apply (write_read_roundtrip [mkProp "a" "1" ["# x"; "#a=0"] false; mkProp "b" "?=" [] true]).
  repeat constructor.
Defined.
