(* ===== verification/FsConfig.v ===== *)
(** tools/fs_config/fs_config_generator.py: the parsers of the AID and
    capability headers and of config.fs files, and the generators.  Texts are
    ASCII.  A config.fs file is what [configparser] makes of it: its sections,
    with the options of each.  [sys.exit(message)] is [SystemExit 1]; what is
    printed is a list of lines. *)

From S2P Require Export PyStr PyColl.

#[local] Open Scope string_scope.
#[local] Open Scope list_scope.
#[local] Open Scope Z_scope.

(** * Utils and AID *)

Definition in_any_range (value : Z) (ranges : list (Z * Z)) : bool :=
  existsb (fun '(lower, upper) => (lower <=? value) && (value <=? upper)) ranges.

Record AID := mkAID {
  identifier : string;
  aid_value : string;
  found : string;
  login_shell : string;
  normalized_value : string;
  friendly : string
}.

Definition PREFIX : string := "AID_".

Definition fixup_friendly (friendly : string) : string :=
  default friendly (od_get friendly [("media_drm", "mediadrm"); ("media_ex", "mediaex"); ("media_codec", "mediacodec")]).

(** [AID.__init__]. *)
Definition new_AID (identifier value found login_shell : string) : result AID :=
  let! n := py_int_base 0 value in
  let friendly := fixup_friendly (str_lower (str_drop (String.length PREFIX) identifier)) in
  if 31 <? str_len friendly then Raise ValueError
  else Ok (mkAID identifier value found login_shell (py_str n) friendly).

Definition is_friendly (name : string) : bool := negb (starts_with PREFIX name).

(** [get_login_and_uid_cleansed]. *)
Definition get_login_and_uid_cleansed (aid : AID) : result (string * string) :=
  if has_char ":" (normalized_value aid) || has_char ":" (friendly aid) then Raise ValueError
  else Ok (friendly aid, normalized_value aid).

(** A call inside [try: ... except ValueError: sys.exit(...)]. *)
Definition or_exit {A} (r : result A) : result A :=
  match r with Raise ValueError => Raise (SystemExit 1) | _ => r end.

Definition exit_if {A} (b : bool) (k : result A) : result A := if b then Raise (SystemExit 1) else k.

(** * Matching *)

(** The maximal run of characters that are not white space, and the rest. *)
Fixpoint take_word (s : string) : string * string :=
  match s with
  | "" => ("", "")
  | String c s' => if is_space c then ("", s) else let '(a, b) := take_word s' in (String c a, b)
  end.

(** What follows a prefix. *)
Definition after (p s : string) : option string :=
  if starts_with p s then Some (str_drop (String.length p) s) else None.

(** At least one white space character, and what follows the run of them. *)
Definition spaces (s : string) : option string :=
  match s with String c _ => if is_space c then Some (lstrip s) else None | "" => None end.

(** [\s*#define\s+], and what follows. *)
Definition define_body (line : string) : option string :=
  match after "#define" (lstrip line) with Some s => spaces s | None => None end.

(** [_CAP_DEFINE]: the name and the value. *)
Definition match_cap_define (line : string) : option (string * string) :=
  match define_body line with
  | Some s =>
      let '(w, rest) := take_word s in
      if starts_with "CAP_" w && (4 <? str_len w) then
        match spaces rest with
        | Some s2 => let '(v, _) := take_word s2 in if str_true v then Some (w, v) else None
        | None => None
        end
      else None
  | None => None
  end.

(** [_AID_DEFINE]. *)
Definition match_aid_define (line : string) : bool :=
  match define_body line with Some s => starts_with PREFIX s | None => false end.

(** The test of [_handle_aid] on a section name: the end of the match of
    [AID_[A-Z0-9_]+], or 4 without a match, has to be the end of the name. *)
Definition is_aid_char (c : ascii) : bool :=
  ((65 <=? code c) && (code c <=? 90)) || ((48 <=? code c) && (code c <=? 57)) || Ascii.eqb c "_".
Definition valid_aid_name (name : string) : bool :=
  match after PREFIX name with Some s => str_forallb is_aid_char s | None => str_len name =? 4 end.

(** The digits that start a text. *)
Fixpoint take_digits (s : string) : string * string :=
  match s with
  | "" => ("", "")
  | String c s' => if is_digit c then let '(a, b) := take_digits s' in (String c a, b) else ("", s)
  end.

(** [(START|END)\s+(\d+)]. *)
Definition match_bound (s : string) : option (bool * string) :=
  let value rest :=
    match spaces rest with
    | Some s => let '(d, _) := take_digits s in if str_true d then Some d else None
    | None => None
    end in
  match after "START" s with
  | Some rest => pair true <$> value rest
  | None => match after "END" s with Some rest => pair false <$> value rest | None => None end
  end.

(** [_RESERVED_(?:(\d+)_)?(START|END)\s+(\d+)]: the name of the range, which
    bound it is, and the value. *)
Definition match_reserved_tail (s : string) : option (option string * bool * string) :=
  match after "_RESERVED_" s with
  | None => None
  | Some s =>
      let '(d, rest) := take_digits s in
      if str_true d then
        match after "_" rest with
        | Some rest => (fun '(b, v) => (Some d, b, v)) <$> match_bound rest
        | None => None
        end
      else (fun '(b, v) => (None, b, v)) <$> match_bound s
  end.

(** [(.+)] is greedy: the last place where the tail matches, after at least one
    character. *)
Fixpoint match_partition (s : string) : option (string * option string * bool * string) :=
  match s with
  | "" => None
  | String c s' =>
      match match_partition s' with
      | Some (p, n, b, v) => Some (String c p, n, b, v)
      | None => (fun '(n, b, v) => (String c "", n, b, v)) <$> match_reserved_tail s'
      end
  end.

Definition match_reserved_range (line : string) : option (string * option string * bool * string) :=
  match after "#define AID_" line with Some s => match_partition s | None => None end.

(** [_SKIP_AIDS]. *)
Definition skip_aid (identifier : string) : bool :=
  match after "AID_UNUSED" identifier with Some (String c _) => is_digit c | _ => false end
  || starts_with "AID_APP" identifier || starts_with "AID_USER" identifier.

(** * CapabilityHeaderParser *)

Abbreviation caps_t := (list (string * Z)).

Definition parse_cap_line (caps : caps_t) (line : string) : result caps_t :=
  match match_cap_define line with
  | None => Ok caps
  | Some (cap, value) =>
      if bool_decide (cap ∈ ["CAP_LAST_CAP"; "CAP_TO_INDEX(x)"; "CAP_TO_MASK(x)"]) then Ok caps
      else let! n := or_exit (py_int_base 0 value) in Ok (od_set cap n caps)
  end.

Definition parse_capability_header (lines : list string) : result caps_t := foldM parse_cap_line [] lines.

(** * AIDHeaderParser *)

Abbreviation ranges_t := (list (string * list (Z * Z))).
Abbreviation bounds_t := (list (string * list (string * (option Z * option Z)))).

Record AIDHeader := mkHeader {
  aid_name_to_value : list (string * AID);
  aid_value_to_name : list (string * string);
  h_ranges : ranges_t
}.

(** One reserved bound; a bound that is already defined is an error. *)
Definition put_bound (partition name : string) (start : bool) (value : Z) (b : bounds_t) : result bounds_t :=
  let names := default [] (od_get partition b) in
  let '(lo, hi) := default (None, None) (od_get name names) in
  exit_if (bool_decide (is_Some (if start then lo else hi)))
    (Ok (od_set partition (od_set name (if start then (Some value, hi) else (lo, Some value)) names) b)).

(** [_handle_aid] of the header. *)
Definition handle_header_aid (header identifier value : string) (h : AIDHeader) : result AIDHeader :=
  let! aid := new_AID identifier value header "/system/bin/sh" in
  if od_mem (friendly aid) (aid_name_to_value h) then Raise ValueError
  else if od_mem value (aid_value_to_name h)
          && negb (bool_decide (identifier ∈ ["AID_APP"; "AID_APP_START"; "AID_USER"; "AID_USER_OFFSET"]))
       then Raise ValueError
  else Ok (mkHeader (od_set (friendly aid) aid (aid_name_to_value h))
             (od_set value (friendly aid) (aid_value_to_name h)) (h_ranges h)).

Definition parse_bound_line (line : string) (b : bounds_t) : result bounds_t :=
  match match_reserved_range line with
  | None => Ok b
  | Some (partition, name, start, value) =>
      let partition := str_lower partition in
      let! v := py_int_base 0 value in
      put_bound (if String.eqb partition "oem" then "vendor" else partition) (default "unnamed" name) start v b
  end.

Definition parse_aid_line (header line : string) (h : AIDHeader) : result AIDHeader :=
  if match_aid_define line then
    let chunks := split_ws line in
    let! identifier := py_get chunks 1 in
    let! value := py_get chunks 2 in
    if skip_aid identifier || ends_with "_START" identifier || ends_with "_END" identifier then Ok h
    else or_exit (handle_header_aid header identifier value h)
  else Ok h.

Definition parse_header_line (header : string) (st : bounds_t * AIDHeader) (line : string) : result (bounds_t * AIDHeader) :=
  let! b := parse_bound_line line st.1 in
  let! h := parse_aid_line header line st.2 in
  Ok (b, h).

(** The ranges of one partition, once all the lines are read. *)
Definition close_range (partition : string) (r : ranges_t) (e : string * (option Z * option Z)) : result ranges_t :=
  match e.2 with
  | (Some start, Some stop) =>
      exit_if (stop <? start) (Ok (od_set partition (default [] (od_get partition r) ++ [(start, stop)]) r))
  | _ => Raise (SystemExit 1)
  end.

Definition close_ranges (b : bounds_t) : result ranges_t :=
  foldM (fun r '(partition, names) => foldM (close_range partition) r names) [] b.

Definition is_overlap (a b : Z * Z) : bool := Z.max a.1 b.1 <=? Z.min a.2 b.2.

Fixpoint any_overlap (ranges : list (Z * Z)) : bool :=
  match ranges with [] => false | r :: rest => existsb (is_overlap r) rest || any_overlap rest end.

(** [_process_and_check].  An overlap is a ValueError; an AID inside a range
    would be one, but formatting its text with "%u" raises TypeError. *)
Definition process_and_check (h : AIDHeader) : result unit :=
  if existsb (fun '(_, ranges) => any_overlap ranges) (h_ranges h) then Raise ValueError
  else
    foldM (fun _ '(aid, _) =>
        foldM (fun _ '(_, ranges) =>
            let! v := py_int_base 0 aid in
            if in_any_range v ranges then Raise TypeError else Ok tt) tt (h_ranges h)) tt (aid_value_to_name h).

Definition parse_aid_header (header : string) (lines : list string) : result AIDHeader :=
  let! (b, h) := foldM (parse_header_line header) ([], mkHeader [] [] []) lines in
  let! r := close_ranges b in
  let h := mkHeader (aid_name_to_value h) (aid_value_to_name h) r in
  let! _ := or_exit (process_and_check h) in
  Ok h.

Definition aids_of (h : AIDHeader) : list AID := map snd (aid_name_to_value h).

(** * FSConfigFileParser *)

Record FSConfig := mkFSConfig {
  fc_mode : string;
  fc_user : string;
  fc_group : string;
  fc_caps : string;
  fc_path : string;
  fc_filename : string
}.

(** A section of a file: its name and its options. *)
Abbreviation section := (string * list (string * string))%type.

Record ConfigParser := mkParser {
  files : list FSConfig;
  dirs : list FSConfig;
  aids : list AID;
  seen_paths : list (string * string);
  seen_names : list (string * string);
  seen_values : list (string * string)
}.

(** [_handle_dup_and_add]. *)
Definition handle_dup_and_add (file_name section_name : string) (seen : list (string * string))
  : result (list (string * string)) :=
  exit_if (od_mem section_name seen) (Ok (od_set section_name file_name seen)).

(** The partitions, longest name first; equal lengths keep their order. *)
Definition by_length (partitions : list string) : list string :=
  sort_by (fun a b => str_len b <=? str_len a) partitions.

Definition partition_of (aid : AID) (ranges : ranges_t) : option string :=
  List.find (fun p => starts_with p (friendly aid)) (by_length (od_keys ranges)).

(** [_verify_valid_range]. *)
Definition verify_valid_range (aid : AID) (ranges : ranges_t) : result unit :=
  match partition_of aid ranges with
  | None => Raise (SystemExit 1)
  | Some p =>
      let! v := py_int_base 0 (aid_value aid) in
      exit_if (negb (in_any_range v (default [] (od_get p ranges)))) (Ok tt)
  end.

Section config.
Context (ranges : ranges_t).

(** [_handle_aid] of a config file. *)
Definition handle_config_aid (file_name : string) (sec : section) (c : ConfigParser) : result ConfigParser :=
  let '(name, options) := sec in
  let! names := handle_dup_and_add file_name name (seen_names c) in
  exit_if (negb (valid_aid_name name))
    (let value := default "" (od_get "value" options) in
     exit_if (negb (str_true value))
       (let! aid := or_exit (new_AID name value file_name "/bin/sh") in
        let! _ := verify_valid_range aid ranges in
        let! values := handle_dup_and_add file_name (normalized_value aid) (seen_values c) in
        Ok (mkParser (files c) (dirs c) (aids c ++ [aid]) (seen_paths c) names values))).

(** A capability: a number as it is, a name with its prefix. *)
Definition cap_name (cap : string) : string :=
  match py_int_base 0 cap with Ok _ => cap | Raise _ => "CAP_" +:+ str_upper cap end.

Definition handle_path (file_name : string) (sec : section) (c : ConfigParser) : result ConfigParser :=
  let '(name, options) := sec in
  let! paths := handle_dup_and_add file_name name (seen_paths c) in
  let opt k := default "" (od_get k options) in
  exit_if (negb (str_true (opt "mode") && str_true (opt "user") && str_true (opt "group") && str_true (opt "caps")))
    (let caps := map cap_name (split_ws (opt "caps")) in
     let mode := if str_len (opt "mode") =? 3 then "0" +:+ opt "mode" else opt "mode" in
     let! _ := or_exit (py_int_base 8 mode) in
     exit_if (negb (str_len mode =? 4))
       (let entry := mkFSConfig mode (opt "user") (opt "group") (str_join "," caps) name file_name in
        if ends_with "/" name then
          Ok (mkParser (files c) (dirs c ++ [entry]) (aids c) paths (seen_names c) (seen_values c))
        else Ok (mkParser (files c ++ [entry]) (dirs c) (aids c) paths (seen_names c) (seen_values c)))).

(** [StringWrapper]: the order of paths. *)
Definition is_prefix_path (path : string) : bool := ends_with "*" path.
Definition bare_path (path : string) : string :=
  if is_prefix_path path then String.substring 0 (String.length path - 1) path else path.
Definition path_ltb (a b : string) : bool :=
  match is_prefix_path a, is_prefix_path b with
  | true, true => str_len (bare_path b) <? str_len (bare_path a)
  | true, false => false
  | false, true => true
  | false, false => String.ltb a b
  end.

Definition sort_files (l : list FSConfig) : list FSConfig :=
  sort_by (fun a b => negb (path_ltb (fc_path b) (fc_path a))) l.

(** The AIDs are sorted by the texts of their values. *)
Definition sort_aids (l : list AID) : list AID :=
  sort_by (fun a b => String.leb (normalized_value a) (normalized_value b)) l.

Definition has_options (keys : list string) (options : list (string * string)) : bool :=
  forallb (fun k => od_mem k options) keys.

Definition parse_section (file_name : string) (c : ConfigParser) (sec : section) : result ConfigParser :=
  let! c :=
    if has_options ["value"] sec.2 then handle_config_aid file_name sec c
    else if has_options ["mode"; "user"; "group"; "caps"] sec.2 then handle_path file_name sec c
    else Raise (SystemExit 1) in
  Ok (mkParser (sort_files (files c)) (dirs c) (sort_aids (aids c)) (seen_paths c) (seen_names c) (seen_values c)).

Definition parse_config_files (configs : list (string * list section)) : result ConfigParser :=
  foldM (fun c '(file_name, sections) => foldM (parse_section file_name) c sections)
    (mkParser [] [] [] [] [] []) configs.
End config.

(** * FSConfigGen *)

(** The tables that names are resolved with. *)
Record Tables := mkTables {
  friendly_to_aid : list (string * AID);
  id_to_aid : list (string * AID);
  cap_values : caps_t
}.

(** Base AIDs and OEM AIDs may not share a friendly name. *)
Definition make_tables (caps : caps_t) (base_aids oem_aids : list AID) : result Tables :=
  let dict (f : AID -> string) d l := fold_left (fun d a => od_set (f a) a d) l d in
  let base_friendly := dict friendly [] base_aids in
  let oem_friendly := dict friendly [] oem_aids in
  exit_if (existsb (fun k => od_mem k oem_friendly) (od_keys base_friendly))
    (Ok (mkTables (fold_left (fun d '(k, a) => od_set k a d) base_friendly oem_friendly)
           (dict identifier (dict identifier [] base_aids) oem_aids) caps)).

Definition resolve_user (t : Tables) (user : string) : result string :=
  match od_get user (if is_friendly user then friendly_to_aid t else id_to_aid t) with
  | Some a => Ok (aid_value a)
  | None => Raise (SystemExit 1)
  end.

Definition caps_of (t : Tables) (caps : string) : result Z :=
  match py_int_base 0 caps with
  | Ok n => Ok n
  | Raise _ =>
      foldM (fun acc cap =>
               match od_get cap (cap_values t) with
               | None => Raise (SystemExit 1)
               | Some k => if k <? 0 then Raise ValueError else Ok (acc + Z.shiftl 1 k)
               end) 0 (split_char "," caps)
  end.

(** [bytearray(ctypes.c_uintN(value))]: the value modulo [2 ^ N], little-endian. *)
Fixpoint le_bytes (n : nat) (value : Z) : list Z :=
  match n with O => [] | S n' => value mod 256 :: le_bytes n' (value / 256) end.

Definition string_bytes (s : string) : list Z := map code (String.list_ascii_of_string s).

Definition to_fs_entry (t : Tables) (c : FSConfig) : result (list Z) :=
  let! mode := py_int_base 8 (fc_mode c) in
  let! user := resolve_user t (fc_user c) in
  let! group := resolve_user t (fc_group c) in
  let! caps := caps_of t (fc_caps c) in
  let path_length_aligned_64 := Z.land (str_len (fc_path c) + 1 + 7) (Z.lnot 7) in
  let length_ := 16 + path_length_aligned_64 in
  let! uid := py_int_base 0 user in
  let! gid := py_int_base 0 group in
  Ok (le_bytes 2 length_ ++ le_bytes 2 mode ++ le_bytes 2 uid ++ le_bytes 2 gid ++ le_bytes 8 caps
      ++ string_bytes (fc_path c) ++ replicate (Z.to_nat (path_length_aligned_64 - str_len (fc_path c))) 0).

Definition emit_entry (partition : string) (all_partitions : option string) (c : FSConfig) : bool :=
  let inside p := starts_with p (fc_path c) || starts_with ("system/" +:+ p) (fc_path c) in
  if String.eqb partition "system" then
    match all_partitions with
    | None | Some "" => true
    | Some l => negb (existsb inside (split_char "," l))
    end
  else inside partition.

Definition generate_entries (partition : string) (all_partitions : option string) (t : Tables) (l : list FSConfig)
  : result (list Z) :=
  foldM (fun out c => if emit_entry partition all_partitions c then let! b := to_fs_entry t c in Ok (out ++ b) else Ok out)
    [] l.

(** [FSConfigGen.__call__]: the content of the output file. *)
Definition FSConfigGen (cap_lines : list string) (header : string) (aid_lines : list string)
    (configs : list (string * list section)) (partition : string) (all_partitions : option string)
    (gen_files gen_dirs : bool) : result (list Z) :=
  let! caps := parse_capability_header cap_lines in
  let! h := parse_aid_header header aid_lines in
  let! c := parse_config_files (h_ranges h) configs in
  exit_if (gen_files && gen_dirs)
    (exit_if (negb gen_files && negb gen_dirs)
      (let! t := make_tables caps (aids_of h) (aids c) in
       generate_entries partition all_partitions t (if gen_files then files c else dirs c))).

(** * The generators of texts *)

Definition tab : string := String "009" "".
Definition quote : string := String "034" "".

(** [AIDArrayGen]: the length of the names and the entries of the array. *)
Definition AIDArrayGen (header : string) (lines : list string) : result (Z * list string) :=
  let! h := parse_aid_header header lines in
  match aids_of h with
  | [] => Raise ValueError
  | l =>
      Ok (foldr (fun a m => Z.max (str_len (friendly a) + 1) m) 0 l,
          map (fun a => "    { " +:+ quote +:+ friendly a +:+ quote +:+ ", " +:+ identifier a +:+ " },") l)
  end.

(** [_print_aid]; [old_file] is the file named last. *)
Definition print_aid (st : option string * list string) (aid : AID) : option string * list string :=
  let '(old_file, out) := st in
  let comment := if decide (old_file = Some (found aid)) then []
                 else ["// Defined in file: " +:+ quote +:+ found aid +:+ quote] in
  (Some (found aid), out ++ comment ++ ["#define " +:+ identifier aid +:+ tab +:+ aid_value aid; ""]).

Definition OEMAidGen (header : string) (lines : list string) (configs : list (string * list section))
  : result (list string) :=
  let! h := parse_aid_header header lines in
  let! c := parse_config_files (h_ranges h) configs in
  Ok (fold_left print_aid (aids c) (None, [])).2.

Definition passwd_line (aid : AID) : result string :=
  let! (logon, uid) := or_exit (get_login_and_uid_cleansed aid) in
  Ok (logon +:+ "::" +:+ uid +:+ ":" +:+ uid +:+ "::/:" +:+ login_shell aid).

Definition group_line (aid : AID) : result string :=
  let! (logon, uid) := or_exit (get_login_and_uid_cleansed aid) in
  Ok (logon +:+ "::" +:+ uid +:+ ":").

(** [PasswdGen] and [GroupGen], by the formatting of a line. *)
Definition PasswdGen (format : AID -> result string) (header : string) (lines : list string)
    (configs : list (string * list section)) (filter_partition : string) : result (list string) :=
  let! h := parse_aid_header header lines in
  let! c := parse_config_files (h_ranges h) configs in
  mapM format (filter (fun a => partition_of a (h_ranges h) = Some filter_partition) (aids c)).

(** [PrintGen]: the view [aids] of a dictionary has no method [sort]. *)
Definition PrintGen (header : string) (lines : list string) : result (list string) :=
  let! _ := parse_aid_header header lines in Raise AttributeError.
