(* ===== verification/FsConfigFacts.v ===== *)
(** What the parsers of FsConfig.v establish: the order of paths is a total
    preorder, the state of the config file parser keeps its invariant, and the
    checks of the AID header parser decide what they are meant to. *)

From S2P Require Export FsConfig.

#[local] Open Scope string_scope.
#[local] Open Scope list_scope.
#[local] Open Scope Z_scope.

(** * Orders *)

Definition path_leb (a b : FSConfig) : bool := negb (path_ltb (fc_path b) (fc_path a)).

Lemma path_leb_total x y : path_leb x y = false -> path_leb y x = true.
Proof.
  unfold path_leb, path_ltb. destruct (is_prefix_path (fc_path x)), (is_prefix_path (fc_path y)); try done.
  - zcases.
  - rewrite !string_ltb_leb, negb_involutive. intros H. by destruct (String.leb_total (fc_path x) (fc_path y)); destruct (String.leb _ _), (String.leb _ _).
Qed.

Lemma path_leb_trans x y z : path_leb x y = true -> path_leb y z = true -> path_leb x z = true.
Proof.
  unfold path_leb, path_ltb.
  destruct (is_prefix_path (fc_path x)), (is_prefix_path (fc_path y)), (is_prefix_path (fc_path z)); try done.
  - zcases.
  - rewrite !string_ltb_leb, !negb_involutive. apply string_leb_trans.
Qed.

Lemma sort_files_sorted l : StronglySorted (fun a b => path_leb a b = true) (sort_files l).
Proof. apply (sort_by_sorted path_leb path_leb_total path_leb_trans). Qed.

Definition aid_leb (a b : AID) : bool := String.leb (normalized_value a) (normalized_value b).

Lemma sort_aids_sorted l : StronglySorted (fun a b => aid_leb a b = true) (sort_aids l).
Proof.
  apply (sort_by_sorted aid_leb).
  - unfold aid_leb. intros x y H. destruct (String.leb_total (normalized_value x) (normalized_value y)); congruence.
  - intros x y z. apply string_leb_trans.
Qed.

(** * AIDs *)

Lemma new_AID_ok i v f sh a : new_AID i v f sh = Ok a ->
  identifier a = i /\ aid_value a = v /\ found a = f /\ login_shell a = sh /\
  friendly a = fixup_friendly (str_lower (str_drop 4 i)) /\ str_len (friendly a) <= 31 /\
  exists n, py_int_base 0 v = Ok n /\ normalized_value a = py_str n.
Proof.
  unfold new_AID. intros H. destruct (py_int_base 0 v) as [n|] eqn:En; [|done].
  destruct (31 <? _) eqn:El; [done|]. injection H as <-. simpl. apply Z.ltb_ge in El. split_and!; try done. eauto.
Qed.

Lemma or_exit_ok {A} (r : result A) x : or_exit r = Ok x -> r = Ok x.
Proof. by destruct r as [|[]]. Qed.

Lemma exit_if_ok {A} b (k : result A) x : exit_if b k = Ok x -> b = false /\ k = Ok x.
Proof. unfold exit_if. by destruct b. Qed.

Lemma handle_dup_ok f k seen seen' : handle_dup_and_add f k seen = Ok seen' ->
  k ∉ od_keys seen /\ forall j, j ∈ od_keys seen' <-> j = k \/ j ∈ od_keys seen.
Proof.
  intros [H [= <-]]%exit_if_ok. unfold od_mem in H. apply bool_decide_eq_false in H.
  split; [done|]. apply od_keys_set.
Qed.

Definition in_partition (ranges : ranges_t) (p : string) (v : Z) : Prop :=
  exists l lo hi, od_get p ranges = Some l /\ (lo, hi) ∈ l /\ lo <= v <= hi.

Lemma in_any_range_iff v l : in_any_range v l = true <-> exists lo hi, (lo, hi) ∈ l /\ lo <= v <= hi.
Proof.
  unfold in_any_range. rewrite existsb_exists. split.
  - intros ((lo & hi) & Hin & H). exists lo, hi. apply list_elem_of_In in Hin. split; [done|]. bool_prop. lia.
  - intros (lo & hi & Hin & H). exists (lo, hi). apply list_elem_of_In in Hin. split; [done|]. zcases.
Qed.

(** An AID that passed the checks of a config file: its value is in a range of
    the longest partition name that its name starts with. *)
Definition config_aid (ranges : ranges_t) (a : AID) : Prop :=
  valid_aid_name (identifier a) = true /\
  new_AID (identifier a) (aid_value a) (found a) "/bin/sh" = Ok a /\
  exists p v, partition_of a ranges = Some p /\ normalized_value a = py_str v /\
    py_int_base 0 (aid_value a) = Ok v /\ in_partition ranges p v.

Lemma verify_valid_range_ok a ranges : verify_valid_range a ranges = Ok tt ->
  exists p v, partition_of a ranges = Some p /\ py_int_base 0 (aid_value a) = Ok v /\ in_partition ranges p v.
Proof.
  unfold verify_valid_range. destruct (partition_of a ranges) as [p|] eqn:Ep; [|done].
  destruct (py_int_base 0 (aid_value a)) as [v|] eqn:Ev; [|done].
  intros [H _]%exit_if_ok. apply negb_false_iff, in_any_range_iff in H as (lo & hi & H & Hv).
  destruct (od_get p ranges) as [l|] eqn:El; simpl in H; [|by apply elem_of_nil in H].
  exists p, v. split_and!; try done. by exists l, lo, hi.
Qed.

(** * The state of the config file parser *)

Definition config_path (c : FSConfig) : Prop :=
  str_len (fc_mode c) = 4 /\ is_ok (py_int_base 8 (fc_mode c)) = true /\
  str_true (fc_user c) = true /\ str_true (fc_group c) = true.

(** [names] are the sections that were read. *)
Record parser_ok (ranges : ranges_t) (names : list string) (c : ConfigParser) : Prop := {
  po_complete : map identifier (aids c) ++ map fc_path (files c ++ dirs c) ≡ₚ names;
  po_aids : Forall (config_aid ranges) (aids c);
  po_names : NoDup (map identifier (aids c)) /\ forall x, x ∈ map identifier (aids c) -> x ∈ od_keys (seen_names c);
  po_values : NoDup (map normalized_value (aids c)) /\
              forall x, x ∈ map normalized_value (aids c) -> x ∈ od_keys (seen_values c);
  po_paths : NoDup (map fc_path (files c ++ dirs c)) /\
             forall x, x ∈ map fc_path (files c ++ dirs c) -> x ∈ od_keys (seen_paths c);
  po_entries : Forall config_path (files c ++ dirs c);
  po_dirs : Forall (fun e => ends_with "/" (fc_path e) = true) (dirs c);
  po_files : Forall (fun e => ends_with "/" (fc_path e) = false) (files c)
}.

Lemma seen_snoc {A} (f : A -> string) l x (seen seen' : list (string * string)) :
  NoDup (map f l) -> (forall y, y ∈ map f l -> y ∈ od_keys seen) ->
  f x ∉ od_keys seen -> (forall j, j ∈ od_keys seen' <-> j = f x \/ j ∈ od_keys seen) ->
  NoDup (f x :: map f l) /\ forall y, y ∈ f x :: map f l -> y ∈ od_keys seen'.
Proof.
  intros Hd Hin Hx Hs. split.
  - constructor; [by intros H%Hin|done].
  - intros y [->|Hy]%elem_of_cons; apply Hs; [by left|right; by apply Hin].
Qed.

Lemma handle_config_aid_ok ranges names f sec c c' :
  handle_config_aid ranges f sec c = Ok c' -> parser_ok ranges names c -> parser_ok ranges (sec.1 :: names) c'.
Proof.
  destruct sec as [name options]. unfold handle_config_aid. intros H [].
  destruct (handle_dup_and_add f name (seen_names c)) as [nm|] eqn:En; [|done].
  apply exit_if_ok in H as [Hv H]. apply exit_if_ok in H as [_ H].
  destruct (or_exit _) as [a|] eqn:Ea; [|done]. apply or_exit_ok in Ea.
  destruct (verify_valid_range a ranges) as [[]|] eqn:Er; [|done].
  destruct (handle_dup_and_add f (normalized_value a) (seen_values c)) as [vs|] eqn:Ew; [|done].
  injection H as <-. apply negb_false_iff in Hv.
  pose proof (new_AID_ok _ _ _ _ _ Ea) as (Hi & Hval & Hf & _ & _ & _ & n & Hn & Hnv).
  apply handle_dup_ok in En as [En1 En2], Ew as [Ew1 Ew2].
  apply verify_valid_range_ok in Er as (p & v & Hp & Hpv & Hin).
  split; simpl; try done.
  - rewrite map_app. simpl. rewrite Hi, <- po_complete0. by rewrite (Permutation_app_comm (map identifier _)).
  - apply Forall_app. split; [done|]. constructor; [|done]. split; [by rewrite Hi|]. split; [congruence|].
    exists p, v. split_and!; try done. congruence.
  - destruct po_names0 as [H1 H2]. rewrite map_app, Permutation_app_comm. simpl.
    setoid_rewrite Permutation_app_comm. simpl.
    by apply (seen_snoc identifier (aids c) a (seen_names c) nm); rewrite ?Hi.
  - destruct po_values0 as [H1 H2]. rewrite map_app, Permutation_app_comm. simpl.
    setoid_rewrite Permutation_app_comm. simpl.
    by apply (seen_snoc normalized_value (aids c) a (seen_values c) vs).
Qed.

Lemma parser_ok_perm ranges names c fs' as' : fs' ≡ₚ files c -> as' ≡ₚ aids c -> parser_ok ranges names c ->
  parser_ok ranges names (mkParser fs' (dirs c) as' (seen_paths c) (seen_names c) (seen_values c)).
Proof. intros Hf Ha []. split; simpl; rewrite ?Hf, ?Ha; try done; setoid_rewrite Ha || setoid_rewrite Hf; done. Qed.

Lemma handle_path_ok ranges names f sec c c' :
  handle_path f sec c = Ok c' -> parser_ok ranges names c -> parser_ok ranges (sec.1 :: names) c'.
Proof.
  destruct sec as [name options]. unfold handle_path. intros H [].
  destruct (handle_dup_and_add f name (seen_paths c)) as [ps|] eqn:En; [|done].
  apply exit_if_ok in H as [Hne H]. apply negb_false_iff in Hne. bool_prop.
  set (mode := if str_len _ =? 3 then _ else _) in H.
  destruct (or_exit _) as [m|] eqn:Em; [|done]. apply or_exit_ok in Em.
  apply exit_if_ok in H as [Hl H]. apply negb_false_iff, Z.eqb_eq in Hl.
  apply handle_dup_ok in En as [En1 En2]. destruct po_paths0 as [P1 P2].
  set (entry := mkFSConfig _ _ _ _ _ _) in H.
  assert (config_path entry) as He by (split_and!; simpl; try done; by rewrite Em).
  pose proof (seen_snoc fc_path (files c ++ dirs c) entry (seen_paths c) ps P1 P2 En1 En2) as [Q1 Q2].
  destruct (ends_with "/" name) eqn:Ed; injection H as <-.
  - assert (files c ++ dirs c ++ [entry] ≡ₚ entry :: files c ++ dirs c) as Hp
      by (rewrite (Permutation_app_comm (dirs c)); simpl; by rewrite <- Permutation_middle).
    split; simpl; rewrite ?Hp; simpl; try done.
    + rewrite <- Permutation_middle. by constructor.
    + split; [done|]. intros x. rewrite Hp. apply Q2.
    + by constructor.
    + apply Forall_app. by split; [|repeat constructor].
  - assert ((files c ++ [entry]) ++ dirs c ≡ₚ entry :: files c ++ dirs c) as Hp
      by (rewrite (Permutation_app_comm (files c)); done).
    split; simpl; rewrite ?Hp; simpl; try done.
    + rewrite <- Permutation_middle. by constructor.
    + split; [done|]. intros x. rewrite Hp. apply Q2.
    + by constructor.
    + apply Forall_app. by split; [|repeat constructor].
Qed.

Definition sorted_ok (c : ConfigParser) : Prop :=
  StronglySorted (fun a b => path_leb a b = true) (files c) /\
  StronglySorted (fun a b => aid_leb a b = true) (aids c).

Lemma parse_section_ok ranges names f sec c c' :
  parse_section ranges f c sec = Ok c' -> parser_ok ranges names c -> parser_ok ranges (sec.1 :: names) c' /\ sorted_ok c'.
Proof.
  unfold parse_section. intros H Hc.
  destruct (if has_options _ _ then _ else _) as [c1|] eqn:E; [|done]. injection H as <-.
  split; [|split; [apply sort_files_sorted|apply sort_aids_sorted]].
  apply parser_ok_perm; [apply sort_by_perm..|].
  destruct (has_options ["value"] _); [by eapply handle_config_aid_ok|].
  destruct (has_options _ _); [by eapply handle_path_ok|done].
Qed.

Definition section_names (configs : list (string * list section)) : list string :=
  flat_map (fun '(_, sections) => map fst sections) configs.

Lemma parse_config_files_ok ranges configs c : parse_config_files ranges configs = Ok c ->
  parser_ok ranges (section_names configs) c /\ sorted_ok c.
Proof.
  unfold parse_config_files. intros H.
  assert (exists names, names ≡ₚ section_names configs /\ parser_ok ranges names c /\ sorted_ok c)
    as (names & Hn & [] & Hs).
  2: { split; [|done]. split; try done. by rewrite <- Hn. }
  refine (foldM_ind (fun pre c => exists names, names ≡ₚ section_names pre /\ parser_ok ranges names c /\ sorted_ok c) _ _ _ _ H _ _).
  { exists []. split_and!; [done| |split; constructor]. split; simpl; repeat split; try constructor; by intros ? ?%elem_of_nil. }
  clear c H. intros pre [f secs] post c c' _ (names & Hn & Hc & Hs) H.
  refine (foldM_ind (fun done c => exists names', names' ≡ₚ section_names (pre ++ [(f, done)]) /\ parser_ok ranges names' c /\ sorted_ok c) _ _ _ _ H _ _).
  { exists names. split_and!; try done. unfold section_names in *. rewrite flat_map_app. simpl. by rewrite app_nil_r. }
  clear c c' H Hc Hs. intros pre' sec post' c c' _ (nm & Hnm & Hc & Hs) H.
  apply (parse_section_ok _ nm) in H as [H1 H2]; [|done]. exists (sec.1 :: nm). split_and!; try done.
  rewrite Hnm. unfold section_names. rewrite !flat_map_app. simpl. rewrite !app_nil_r, map_app. simpl.
  rewrite app_assoc. by rewrite (Permutation_app_comm _ [sec.1]).
Qed.

(** * The first match *)

(** How the consumer of the files reads an entry: a path, or a prefix of paths. *)
Definition matches (p : string) (c : FSConfig) : bool :=
  if is_prefix_path (fc_path c) then starts_with (bare_path (fc_path c)) p else String.eqb (fc_path c) p.

Lemma sorted_impl {A} (R R' : A -> A -> Prop) l : (forall x y, R x y -> R' x y) -> StronglySorted R l -> StronglySorted R' l.
Proof.
  intros H. induction 1 as [|x l Hs IH Hall]; constructor; [done|]. eapply Forall_impl; [exact Hall|]. intros y. apply H.
Qed.

Lemma find_sorted {A} (R : A -> A -> Prop) f l x : StronglySorted R l -> List.find f l = Some x ->
  x ∈ l /\ f x = true /\ forall y, y ∈ l -> f y = true -> y = x \/ R x y.
Proof.
  induction 1 as [|z l Hs IH Hall]; simpl; [done|]. destruct (f z) eqn:E.
  - intros [= <-]. split_and!; [by left|done|]. intros y [->|Hy]%elem_of_cons _; [by left|].
    right. by eapply Forall_forall in Hall.
  - intros H. destruct (IH H) as (H1 & H2 & H3). split_and!; [by right|done|].
    intros y [->|Hy]%elem_of_cons Hf; [congruence|]. by apply H3.
Qed.

(** * Texts *)

Lemma py_str_no_colon n : has_char ":" (py_str n) = false.
Proof.
  assert (forall m, 0 <= m -> has_char ":" (py_str m) = false) as Hp.
  { intros m Hm. rewrite has_char_forallb, negb_false_iff.
    eapply str_forallb_impl; [|by apply py_str_digits].
    intros c. destruct c as [[] [] [] [] [] [] [] []]; vm_compute; congruence. }
  destruct n as [|p|p]; [by apply Hp..|].
  change (has_char ":" ("-" +:+ py_str (Zpos p)) = false). rewrite has_char_app. by rewrite Hp.
Qed.

Lemma str_forallb_drop f n s : str_forallb f s = true -> str_forallb f (str_drop n s) = true.
Proof. revert s. induction n as [|n IH]; intros [|c s]; simpl; try done. intros [_ H]%andb_true_iff. by apply IH. Qed.

Lemma starts_with_char_iff p s : starts_with p s = true -> s = p +:+ str_drop (String.length p) s.
Proof.
  revert s. induction p as [|c p IH]; intros [|d s]; simpl; try done.
  unfold starts_with. simpl. destruct (ascii_dec c d) as [->|]; [|done]. intros H. f_equal. by apply IH.
Qed.

Lemma str_drop_all n s : String.length s = n -> str_drop n s = "".
Proof. revert s. induction n as [|n IH]; intros [|c s]; simpl; try done. intros [= H]. by apply IH. Qed.

(** The name of an AID that passed the checks has no ":" in it. *)
Lemma friendly_no_colon ranges a : config_aid ranges a -> has_char ":" (friendly a) = false.
Proof.
  intros (Hv & Ha & _). apply new_AID_ok in Ha as (_ & _ & _ & _ & Hf & _).
  rewrite Hf. unfold fixup_friendly.
  assert (has_char ":" (str_lower (str_drop 4 (identifier a))) = false) as H.
  { unfold valid_aid_name, after in Hv. change (String.length PREFIX) with 4%nat in Hv.
    destruct (starts_with PREFIX _).
    - revert Hv. generalize (str_drop 4 (identifier a)) as s. induction s as [|c s IH]; [done|].
      simpl. intros [Hc Hs]%andb_true_iff. apply orb_false_iff. split; [|by apply IH].
      revert Hc. clear. destruct c as [[] [] [] [] [] [] [] []]; vm_compute; congruence.
    - apply Z.eqb_eq in Hv. unfold str_len in Hv. by rewrite str_drop_all by lia. }
  simpl. by repeat case_decide.
Qed.

(** * The AID header *)

Definition collision_ok : list string := ["AID_APP"; "AID_APP_START"; "AID_USER"; "AID_USER_OFFSET"].

(** The AIDs read so far. *)
Record header_inv (header : string) (h : AIDHeader) : Prop := {
  hi_names : NoDup (od_keys (aid_name_to_value h));
  hi_aids : forall k a, (k, a) ∈ aid_name_to_value h ->
    k = friendly a /\ new_AID (identifier a) (aid_value a) header "/system/bin/sh" = Ok a;
  hi_values : forall v, v ∈ od_keys (aid_value_to_name h) <-> v ∈ map aid_value (aids_of h);
  hi_collisions : forall i j a b, (i < j)%nat -> aids_of h !! i = Some a -> aids_of h !! j = Some b ->
    aid_value a = aid_value b -> identifier b ∈ collision_ok
}.

Lemma handle_header_aid_ok header i v h h' : handle_header_aid header i v h = Ok h' ->
  header_inv header h -> header_inv header h'.
Proof.
  unfold handle_header_aid. intros H [].
  destruct (new_AID i v header _) as [a|] eqn:Ea; [|done].
  destruct (od_mem (friendly a) _) eqn:Ef; [done|]. destruct (od_mem v _ && _) eqn:Ev; [done|].
  injection H as <-. apply bool_decide_eq_false in Ef.
  pose proof (new_AID_ok _ _ _ _ _ Ea) as (Hi & Hv & _).
  assert (aids_of (mkHeader (od_set (friendly a) a (aid_name_to_value h)) (od_set v (friendly a) (aid_value_to_name h)) (h_ranges h))
          = aids_of h ++ [a]) as Haids by (unfold aids_of; simpl; by rewrite od_set_fresh, map_app by done).
  split.
  - by apply od_keys_set_NoDup.
  - simpl. rewrite od_set_fresh by done. intros k b [Hk|[= -> ->]%list_elem_of_singleton]%elem_of_app.
    + by apply hi_aids0.
    + split; [done|]. congruence.
  - intros w. rewrite Haids, map_app, elem_of_app. simpl. rewrite list_elem_of_singleton, od_keys_set, hi_values0, Hv.
    naive_solver.
  - rewrite Haids. intros m n b c Hmn Hm Hn Hbc.
    destruct (decide (n = length (aids_of h))) as [->|Hne].
    + rewrite list_lookup_middle in Hn by done. injection Hn as <-. rewrite lookup_app_l in Hm by done.
      apply andb_false_iff in Ev as [Ev|Ev].
      * apply bool_decide_eq_false in Ev. exfalso. apply Ev. apply hi_values0. rewrite <- Hv, <- Hbc.
        apply (list_elem_of_fmap_2 aid_value). by eapply list_elem_of_lookup_2.
      * apply negb_false_iff, bool_decide_eq_true in Ev. by rewrite Hi.
    + pose proof (lookup_lt_Some _ _ _ Hn) as Hl. rewrite length_app in Hl. simpl in Hl.
      rewrite lookup_app_l in Hn by lia. rewrite lookup_app_l in Hm by lia. exact (hi_collisions0 m n b c Hmn Hm Hn Hbc).
Qed.

Lemma parse_lines_ok header lines b h :
  foldM (parse_header_line header) ([], mkHeader [] [] []) lines = Ok (b, h) ->
  header_inv header h /\ h_ranges h = [].
Proof.
  intros H. refine (foldM_ind (fun _ st => header_inv header st.2 /\ h_ranges st.2 = []) _ _ _ (b, h) H _ _).
  { split; [|done]. split; simpl; [constructor|by intros ?? ?%elem_of_nil|done|done]. }
  clear. intros _ line _ [b h] [b' h'] _ [Hi Hr]. unfold parse_header_line. simpl.
  destruct (parse_bound_line line b); [|done]. unfold parse_aid_line.
  destruct (match_aid_define line); [|by intros [= _ <-]].
  destruct (py_get _ 1) as [i|]; [|done]. destruct (py_get _ 2) as [v|]; [|done].
  destruct (_ || _); [by intros [= _ <-]|].
  destruct (or_exit _) as [h1|] eqn:E; [|done]. apply or_exit_ok in E. intros [= _ <-].
  split; [by eapply handle_header_aid_ok|].
  unfold handle_header_aid in E. destruct (new_AID _ _ _ _); [|done]. destruct (od_mem _ _); [done|].
  destruct (_ && _); [done|]. by injection E as <-.
Qed.

(** ** Ranges *)

Definition ranges_ok (r : ranges_t) : Prop :=
  NoDup (od_keys r) /\ forall p l lo hi, od_get p r = Some l -> (lo, hi) ∈ l -> lo <= hi.

Lemma close_range_ok p r e r' : close_range p r e = Ok r' -> ranges_ok r -> ranges_ok r'.
Proof.
  unfold close_range. destruct e as [n [[lo|] [hi|]]]; simpl; [|done..].
  intros [Hlt [= <-]]%exit_if_ok [H1 H2]. apply Z.ltb_ge in Hlt. split; [by apply od_keys_set_NoDup|].
  intros q l a b. rewrite od_get_set. case_decide as Hq; [|by apply H2].
  intros [= <-]. subst q. intros [Hin|[= -> ->]%list_elem_of_singleton]%elem_of_app; [|done].
  destruct (od_get p r) as [l|] eqn:El; simpl in Hin; [|by apply elem_of_nil in Hin]. by eapply H2.
Qed.

Lemma close_ranges_ok b r : close_ranges b = Ok r -> ranges_ok r.
Proof.
  intros H. refine (foldM_ind (fun _ r => ranges_ok r) _ _ _ _ H _ _).
  { split; [constructor|done]. }
  clear. intros _ [p names] _ r r' _ Hr H. refine (foldM_ind (fun _ r => ranges_ok r) _ _ _ _ H Hr _).
  clear. intros _ e _ r r' _ Hr H. by eapply close_range_ok.
Qed.

(** Two ranges of one partition have a value in common. *)
Definition overlapping (r : ranges_t) : Prop :=
  exists p l i j lo1 hi1 lo2 hi2 v, od_get p r = Some l /\ (i < j)%nat /\
    l !! i = Some (lo1, hi1) /\ l !! j = Some (lo2, hi2) /\ lo1 <= v <= hi1 /\ lo2 <= v <= hi2.

Definition reserved (r : ranges_t) (v : Z) : Prop := exists p, in_partition r p v.

Lemma is_overlap_iff a b : is_overlap a b = true <-> exists v, a.1 <= v <= a.2 /\ b.1 <= v <= b.2.
Proof.
  unfold is_overlap. rewrite Z.leb_le. split; [|intros (v & ?); lia].
  intros H. exists (Z.max a.1 b.1). lia.
Qed.

Lemma any_overlap_iff l : any_overlap l = true <->
  exists i j lo1 hi1 lo2 hi2 v, (i < j)%nat /\ l !! i = Some (lo1, hi1) /\ l !! j = Some (lo2, hi2) /\
    lo1 <= v <= hi1 /\ lo2 <= v <= hi2.
Proof.
  induction l as [|[lo hi] l IH]; [split; [done|]; by intros (i & ? & ? & ? & ? & ? & ? & ? & ? & _)|].
  cbn [any_overlap]. rewrite orb_true_iff, IH, existsb_exists. split.
  - intros [([lo2 hi2] & Hin & (v & Hv)%is_overlap_iff)|(i & j & lo1 & hi1 & lo2 & hi2 & v & H)].
    + apply list_elem_of_In, list_elem_of_lookup in Hin as [j Hj].
      exists 0%nat, (S j), lo, hi, lo2, hi2, v. simpl in *. split_and!; try done; lia.
    + exists (S i), (S j), lo1, hi1, lo2, hi2, v. simpl. naive_solver lia.
  - intros (i & j & lo1 & hi1 & lo2 & hi2 & v & Hij & Hi & Hj & Hv).
    destruct j as [|j]; [lia|]. simpl in Hj. destruct i as [|i].
    + injection Hi as -> ->. left. exists (lo2, hi2).
      split; [by eapply list_elem_of_In, list_elem_of_lookup_2|]. apply is_overlap_iff. by exists v.
    + right. exists i, j, lo1, hi1, lo2, hi2, v. split; [lia|done].
Qed.

Lemma overlapping_iff r : NoDup (od_keys r) ->
  existsb (fun '(_, ranges) => any_overlap ranges) r = true <-> overlapping r.
Proof.
  intros Hn. rewrite existsb_exists. unfold overlapping. split.
  - intros ([p l] & Hin & H%any_overlap_iff). apply list_elem_of_In, od_get_in in Hin; [|done]. naive_solver.
  - intros (p & l & i & j & lo1 & hi1 & lo2 & hi2 & v & Hl & H). exists (p, l). rewrite <- list_elem_of_In, od_get_in by done.
    split; [done|]. apply any_overlap_iff. by exists i, j, lo1, hi1, lo2, hi2, v.
Qed.

Lemma reserved_iff r v : NoDup (od_keys r) ->
  existsb (fun '(_, ranges) => in_any_range v ranges) r = true <-> reserved r v.
Proof.
  intros Hn. rewrite existsb_exists. unfold reserved, in_partition. split.
  - intros ([p l] & Hin & (lo & hi & H)%in_any_range_iff). apply list_elem_of_In, od_get_in in Hin; [|done].
    by exists p, l, lo, hi.
  - intros (p & l & lo & hi & Hl & H). exists (p, l). rewrite <- list_elem_of_In, od_get_in by done.
    split; [done|]. apply in_any_range_iff. by exists lo, hi.
Qed.

(** ** The final check *)

Lemma check_loop {A} (f : A -> bool) l :
  foldM (fun _ x => if f x then Raise TypeError else Ok tt) tt l = if existsb f l then Raise TypeError else Ok tt.
Proof. induction l as [|x l IH]; simpl; [done|]. by destruct (f x). Qed.

Lemma process_and_check_eq h (val : string -> Z) :
  (forall k, k ∈ od_keys (aid_value_to_name h) -> py_int_base 0 k = Ok (val k)) ->
  process_and_check h =
    if existsb (fun '(_, ranges) => any_overlap ranges) (h_ranges h) then Raise ValueError
    else if existsb (fun '(k, _) => existsb (fun '(_, ranges) => in_any_range (val k) ranges) (h_ranges h)) (aid_value_to_name h)
         then Raise TypeError else Ok tt.
Proof.
  intros Hval. unfold process_and_check. destruct (existsb _ (h_ranges h)); [done|].
  rewrite <- (check_loop (fun '(k, _) => existsb _ _)).
  revert Hval. generalize (aid_value_to_name h) as d. induction d as [|[k n] d IH]; simpl; [done|]. intros Hval.
  rewrite (foldM_ext _ (fun _ '(_, ranges) => if in_any_range (val k) ranges then Raise TypeError else Ok tt)).
  2: { intros ? [? ?]. by rewrite Hval by left. }
  rewrite (foldM_ext _ (fun _ e => if (let '(_, ranges) := e in in_any_range (val k) ranges) then Raise TypeError else Ok tt)).
  2: { by intros ? [? ?]. }
  rewrite check_loop. destruct (existsb _ _); [done|]. apply IH. intros j Hj. apply Hval. by right.
Qed.
