(* ===== verification/FsConfigProps.v ===== *)
(** What fs_config_generator.py promises: the AIDs and paths it accepts, the
    order that makes the first match the best one, the passwd and group files, and
    the binary files, with a reader for them: each entry is a length, the mode, the
    uid, the gid, the capabilities, and a path padded with zeros to a multiple of
    eight bytes. *)

From S2P Require Export FsConfigFacts FsConfig.

#[local] Open Scope string_scope.
#[local] Open Scope list_scope.
#[local] Open Scope Z_scope.

(** * What an entry says *)

Record FsEntry := mkEntry { e_mode : Z; e_uid : Z; e_gid : Z; e_caps : Z; e_path : string }.

(** The values of an entry, before they are cut to their fields. *)
Definition entry_values (t : Tables) (c : FSConfig) : result FsEntry :=
  let! mode := py_int_base 8 (fc_mode c) in
  let! user := resolve_user t (fc_user c) in
  let! group := resolve_user t (fc_group c) in
  let! caps := caps_of t (fc_caps c) in
  let! uid := py_int_base 0 user in
  let! gid := py_int_base 0 group in
  Ok (mkEntry mode uid gid caps (fc_path c)).

(** The fields have 16 bits, the capabilities 64. *)
Definition wrap (e : FsEntry) : FsEntry :=
  mkEntry (e_mode e mod 2 ^ 16) (e_uid e mod 2 ^ 16) (e_gid e mod 2 ^ 16) (e_caps e mod 2 ^ 64) (e_path e).

Definition entry_fits (e : FsEntry) : Prop :=
  0 <= e_mode e < 2 ^ 16 /\ 0 <= e_uid e < 2 ^ 16 /\ 0 <= e_gid e < 2 ^ 16 /\ 0 <= e_caps e < 2 ^ 64.

Lemma wrap_fits e : entry_fits e -> wrap e = e.
Proof. destruct e. unfold entry_fits, wrap. simpl. intros (? & ? & ? & ?). by rewrite !Z.mod_small. Qed.

Definition aligned (path : string) : Z := Z.land (str_len path + 1 + 7) (Z.lnot 7).

Definition encode (e : FsEntry) : list Z :=
  le_bytes 2 (16 + aligned (e_path e)) ++ le_bytes 2 (e_mode e) ++ le_bytes 2 (e_uid e) ++ le_bytes 2 (e_gid e)
  ++ le_bytes 8 (e_caps e) ++ string_bytes (e_path e)
  ++ replicate (Z.to_nat (aligned (e_path e) - str_len (e_path e))) 0.

Lemma to_fs_entry_eq t c : to_fs_entry t c = let! e := entry_values t c in Ok (encode e).
Proof.
  unfold to_fs_entry, entry_values.
  destruct (py_int_base 8 _); [|done]. destruct (resolve_user t (fc_user c)); [|done].
  destruct (resolve_user t (fc_group c)); [|done]. destruct (caps_of _ _); [|done].
  destruct (py_int_base 0 _); [|done]. by destruct (py_int_base 0 _).
Qed.

Lemma generate_entries_eq p all t l :
  generate_entries p all t l =
    let! es := mapM (entry_values t) (List.filter (emit_entry p all) l) in Ok (flat_map encode es).
Proof.
  unfold generate_entries.
  assert (forall out, foldM (fun out c => if emit_entry p all c then let! b := to_fs_entry t c in Ok (out ++ b) else Ok out) out l
    = let! es := mapM (entry_values t) (List.filter (emit_entry p all) l) in Ok (out ++ flat_map encode es)) as H.
  2: { apply (H []). }
  induction l as [|c l IH]; intros out; simpl; [by rewrite app_nil_r|].
  destruct (emit_entry p all c); [|apply IH]. simpl. rewrite to_fs_entry_eq.
  destruct (entry_values t c) as [e|]; [|done]. rewrite IH. destruct (mapM _ _); [|done]. cbn [flat_map]. by rewrite app_assoc.
Qed.

(** * Reading *)

Fixpoint le_val (b : list Z) : Z := match b with [] => 0 | x :: b' => x + 256 * le_val b' end.

(** The bytes up to the first zero. *)
Fixpoint c_string (b : list Z) : string :=
  match b with [] => "" | x :: b' => if x =? 0 then "" else String (ascii_of_N (Z.to_N x)) (c_string b') end.

Definition field (b : list Z) (offset size : nat) : Z := le_val (take size (drop offset b)).

(** The length of an entry says where the next one starts. *)
Fixpoint decode (fuel : nat) (b : list Z) : option (list FsEntry) :=
  match b, fuel with
  | [], _ => Some []
  | _, O => None
  | _, S fuel' =>
      let len := field b 0 2 in
      if (16 <? len) && (len <=? Z.of_nat (length b)) then
        let e := mkEntry (field b 2 2) (field b 4 2) (field b 6 2) (field b 8 8)
                   (c_string (drop 16 (take (Z.to_nat len) b))) in
        cons e <$> decode fuel' (drop (Z.to_nat len) b)
      else None
  end.

Lemma length_le_bytes n v : length (le_bytes n v) = n.
Proof. revert v. induction n as [|n IH]; intros v; simpl; [done|]. by rewrite IH. Qed.

Lemma le_val_bytes n v : le_val (le_bytes n v) = v mod 256 ^ Z.of_nat n.
Proof.
  revert v. induction n as [|n IH]; intros v; cbn [le_bytes le_val].
  - by rewrite Z.mod_1_r.
  - rewrite IH, Nat2Z.inj_succ, Z.pow_succ_r by lia.
    rewrite (Z.rem_mul_r v 256 (256 ^ Z.of_nat n)); lia.
Qed.

Lemma field_app_l (p b r : list Z) size : length b = size -> field (p ++ b ++ r) (length p) size = le_val b.
Proof. intros H. unfold field. rewrite drop_app_length. by rewrite take_app_length' by done. Qed.

Lemma str_len_bytes s : Z.of_nat (length (string_bytes s)) = str_len s.
Proof.
  unfold string_bytes, str_len. rewrite length_map. f_equal. induction s as [|c s IH]; simpl; [done|]. by rewrite IH.
Qed.

Lemma code_inv c : ascii_of_N (Z.to_N (code c)) = c.
Proof. unfold code. by rewrite N2Z.id, ascii_N_embedding. Qed.

Lemma c_string_bytes s n : has_char "000" s = false -> (0 < n)%nat ->
  c_string (string_bytes s ++ replicate n 0) = s.
Proof.
  intros Hs Hn. induction s as [|c s IH].
  - destruct n; [lia|done].
  - simpl in Hs. apply orb_false_iff in Hs as [Hc Hs]. cbn [string_bytes String.list_ascii_of_string map app c_string].
    destruct (Z.eqb_spec (code c) 0) as [E|E].
    + exfalso. destruct c as [[] [] [] [] [] [] [] []]; vm_compute in E, Hc; congruence.
    + rewrite code_inv. f_equal. by apply IH.
Qed.

Lemma aligned_eq path : aligned path = 8 * ((str_len path + 8) / 8).
Proof.
  unfold aligned. rewrite <- Z.ldiff_land. change 7 with (Z.ones 3) at 2.
  rewrite Z.ldiff_ones_r, Z.shiftl_mul_pow2, Z.shiftr_div_pow2 by lia. change (2 ^ 3) with 8.
  replace (str_len path + 1 + 7) with (str_len path + 8) by lia. lia.
Qed.

(** The path, a zero that ends it, and at most seven more. *)
Lemma aligned_bounds path : str_len path + 1 <= aligned path <= str_len path + 8 /\ (8 | aligned path).
Proof.
  rewrite aligned_eq. pose proof (str_len_nonneg path).
  pose proof (Z.div_mod (str_len path + 8) 8 ltac:(lia)). pose proof (Z.mod_pos_bound (str_len path + 8) 8 ltac:(lia)).
  split; [lia|]. by exists ((str_len path + 8) / 8); lia.
Qed.

Lemma length_encode e : Z.of_nat (length (encode e)) = 16 + aligned (e_path e).
Proof.
  unfold encode. rewrite !length_app, !length_le_bytes, length_replicate. pose proof (aligned_bounds (e_path e)).
  rewrite !Nat2Z.inj_add, str_len_bytes. lia.
Qed.

Definition path_ok (path : string) : Prop := has_char "000" path = false /\ str_len path <= 65504.

Lemma decode_cons n e rest : path_ok (e_path e) ->
  decode (S n) (encode e ++ rest) = cons (wrap e) <$> decode n rest.
Proof.
  intros [Hz Hl]. pose proof (aligned_bounds (e_path e)) as [Ha _]. pose proof (str_len_nonneg (e_path e)).
  pose proof (length_encode e) as Hlen.
  assert (encode e ++ rest <> []) as Hne.
  { intros [He0 _]%app_eq_nil. rewrite He0 in Hlen. simpl in Hlen. lia. }
  assert (decode (S n) (encode e ++ rest) =
    let b := encode e ++ rest in let len := field b 0 2 in
    if (16 <? len) && (len <=? Z.of_nat (length b)) then
      cons (mkEntry (field b 2 2) (field b 4 2) (field b 6 2) (field b 8 8)
             (c_string (drop 16 (take (Z.to_nat len) b)))) <$> decode n (drop (Z.to_nat len) b)
    else None) as ->.
  { revert Hne. by destruct (encode e ++ rest). }
  cbv zeta.
  assert (forall off size v post pre, encode e = pre ++ le_bytes size v ++ post -> length pre = off ->
            field (encode e ++ rest) off size = v mod 256 ^ Z.of_nat size) as Hf.
  { intros off size v post pre -> <-. rewrite <- !app_assoc, field_app_l by apply length_le_bytes. apply le_val_bytes. }
  rewrite (Hf 0%nat 2%nat (16 + aligned (e_path e)) _ [] eq_refl eq_refl).
  rewrite (Hf 2%nat 2%nat (e_mode e) _ (le_bytes 2 _) eq_refl eq_refl).
  rewrite (Hf 4%nat 2%nat (e_uid e) _ (le_bytes 2 _ ++ le_bytes 2 _) eq_refl eq_refl).
  rewrite (Hf 6%nat 2%nat (e_gid e) _ (le_bytes 2 _ ++ le_bytes 2 _ ++ le_bytes 2 _) eq_refl eq_refl).
  rewrite (Hf 8%nat 8%nat (e_caps e) _ (le_bytes 2 _ ++ le_bytes 2 _ ++ le_bytes 2 _ ++ le_bytes 2 _) eq_refl eq_refl).
  change (256 ^ Z.of_nat 2) with (2 ^ 16). change (256 ^ Z.of_nat 8) with (2 ^ 64).
  rewrite (Z.mod_small (16 + _)) by lia.
  destruct (Z.ltb_spec 16 (16 + aligned (e_path e))); [|lia].
  rewrite length_app, Nat2Z.inj_add.
  destruct (Z.leb_spec (16 + aligned (e_path e)) (Z.of_nat (length (encode e)) + Z.of_nat (length rest))); [|lia].
  simpl andb. cbv iota. rewrite <- Hlen, Nat2Z.id, take_app_length, drop_app_length. unfold wrap. do 2 f_equal.
  assert (drop 16 (encode e) = string_bytes (e_path e) ++ replicate (Z.to_nat (aligned (e_path e) - str_len (e_path e))) 0) as ->.
  { done. }
  f_equal. apply c_string_bytes; [done|lia].
Qed.

Lemma decode_encode es : Forall (fun e => path_ok (e_path e)) es ->
  decode (length (flat_map encode es)) (flat_map encode es) = Some (map wrap es).
Proof.
  assert (forall n, (length es <= n)%nat -> Forall (fun e => path_ok (e_path e)) es ->
            decode n (flat_map encode es) = Some (map wrap es)) as H.
  { induction es as [|e es IH]; intros n Hn Hp; [by destruct n|]. simpl in Hn. destruct n as [|n]; [lia|].
    apply Forall_cons in Hp as [Hp Hps]. cbn [flat_map map]. rewrite decode_cons by done. by rewrite IH by (done || lia). }
  apply H. clear. induction es as [|e es IH]; simpl; [done|]. rewrite length_app.
  pose proof (length_encode e). pose proof (aligned_bounds (e_path e)). pose proof (str_len_nonneg (e_path e)). lia.
Qed.

(** * Capabilities *)

Lemma caps_sum t caps : is_ok (py_int_base 0 caps) = false ->
  forall bits, mapM (fun cap => of_option (SystemExit 1) (od_get cap (cap_values t))) (split_char "," caps) = Ok bits ->
  Forall (fun k => 0 <= k) bits -> caps_of t caps = Ok (sumZ (map (Z.shiftl 1) bits)).
Proof.
  unfold caps_of. destruct (py_int_base 0 caps); [done|]. intros _.
  assert (forall l acc bits, mapM (fun cap => of_option (SystemExit 1) (od_get cap (cap_values t))) l = Ok bits ->
    Forall (fun k => 0 <= k) bits ->
    foldM (fun acc cap => match od_get cap (cap_values t) with None => Raise (SystemExit 1)
             | Some k => if k <? 0 then Raise ValueError else Ok (acc + Z.shiftl 1 k) end) acc l
      = Ok (acc + sumZ (map (Z.shiftl 1) bits))) as H.
  { induction l as [|cap l IH]; simpl; intros acc bits.
    - intros [= <-] _. simpl. f_equal. lia.
    - destruct (od_get cap _) as [k|]; simpl; [|done]. destruct (mapM _ l) as [ks|] eqn:E; [|done].
      intros [= <-] [Hk Hks]%Forall_cons. simpl in *. zcases. rewrite (IH _ ks) by done. f_equal. lia. }
  intros bits Hm Hb. by rewrite (H _ _ bits).
Qed.

Lemma sum_bits_testbit bits : NoDup bits -> Forall (fun k => 0 <= k) bits ->
  forall i, 0 <= i -> Z.testbit (sumZ (map (Z.shiftl 1) bits)) i = bool_decide (i ∈ bits).
Proof.
  intros Hd Hn. revert Hd. induction Hn as [|k bits Hk Hn IH]; intros Hd i Hi.
  - change (Z.testbit 0 i = bool_decide (i ∈ @nil Z)). rewrite Z.bits_0. done.
  - apply NoDup_cons in Hd as [Hkb Hd]. cbn [map sumZ foldr]. fold (sumZ (map (Z.shiftl 1) bits)).
    assert (Z.land (Z.shiftl 1 k) (sumZ (map (Z.shiftl 1) bits)) = 0) as Hland.
    { apply Z.bits_inj'. intros j Hj. rewrite Z.land_spec, Z.bits_0, IH, Z.shiftl_1_l, Z.pow2_bits_eqb by done.
      destruct (Z.eqb_spec k j) as [->|]; [|done]. simpl. by apply bool_decide_eq_false. }
    rewrite Z.add_nocarry_lxor by done. rewrite Z.lxor_spec, IH, Z.shiftl_1_l, Z.pow2_bits_eqb by done.
    destruct (Z.eqb_spec k i) as [->|Hne].
    + rewrite (bool_decide_eq_false_2 (i ∈ bits)) by done. symmetry. apply bool_decide_eq_true. by left.
    + simpl. apply bool_decide_ext. rewrite elem_of_cons. naive_solver.
Qed.

(** A small header and configuration for the witnesses. *)
Definition example_header : list string :=
  ["#define AID_ROOT 0"; "#define AID_SYSTEM 1000"; "#define AID_OEM_RESERVED_START 2900";
   "#define AID_OEM_RESERVED_END 2999"; "#define AID_APP_START 10000"].
Definition file_section (path : string) : section :=
  (path, [("mode", "755"); ("user", "root"); ("group", "AID_SYSTEM"); ("caps", "0")]).
Definition example_configs : list (string * list section) :=
  [("config.fs", map file_section ["ac"; "a"; "acd"; "an"; "a*"; "aa"; "ac*"; "d/"]);
   ("vendor.fs", [("AID_VENDOR_FOO", [("value", "2901")]); ("AID_VENDOR_BAR", [("value", "0xb56")])])].
Definition example_ranges : ranges_t := [("vendor", [(2900, 2999)])].

Definition example_AID (i v n f : string) : AID := mkAID i v "fs.h" "/system/bin/sh" n f.
Definition example_tables : Tables :=
  mkTables [("root", example_AID "AID_ROOT" "0" "0" "root"); ("big", example_AID "AID_BIG" "0x10001" "65537" "big")]
           [("AID_SYSTEM", example_AID "AID_SYSTEM" "1000" "1000" "system")]
           [("CAP_CHOWN", 0); ("CAP_SETGID", 6); ("CAP_SYSLOG", 34)].

(** C36: An accepted configuration keeps one entry for every section of every
    file: AIDs with distinct names and distinct values, each with a value in a
    range of its partition; paths that are distinct, with an octal mode of four
    characters; directories end with a slash and files do not; the files are in
    the order that [StringWrapper] defines. *)
Theorem config_files_valid ranges configs c : parse_config_files ranges configs = Ok c ->
  map identifier (aids c) ++ map fc_path (files c ++ dirs c) ≡ₚ flat_map (fun '(_, sections) => map fst sections) configs /\
  NoDup (map identifier (aids c)) /\ NoDup (map normalized_value (aids c)) /\ NoDup (map fc_path (files c ++ dirs c)) /\
  Forall (config_aid ranges) (aids c) /\ Forall config_path (files c ++ dirs c) /\
  Forall (fun e => ends_with "/" (fc_path e) = true) (dirs c) /\
  Forall (fun e => ends_with "/" (fc_path e) = false) (files c) /\
  StronglySorted (fun a b => path_ltb (fc_path b) (fc_path a) = false) (files c).
Proof.
  intros ([? ? [] [] [] ? ? ?] & Hs & _)%parse_config_files_ok. split_and!; try done.
  eapply sorted_impl; [|exact Hs]. unfold path_leb. intros a b. apply negb_true_iff.
Qed.

Lemma config_files_valid_witness :
  exists c, parse_config_files example_ranges example_configs = Ok c /\
    map fc_path (files c) = ["a"; "aa"; "ac"; "acd"; "an"; "ac*"; "a*"] /\ NoDup (map normalized_value (aids c)).
Proof.
  eexists. split; [vm_compute; reflexivity|]. split; [reflexivity|].
  eapply (config_files_valid example_ranges example_configs). vm_compute. reflexivity.
Defined.

(** C37: A consumer that takes the first entry that matches a path takes the
    entry for the path itself if there is one, and otherwise the entry with the
    longest prefix that matches. *)
Theorem first_match_is_best ranges configs c p : parse_config_files ranges configs = Ok c ->
  match List.find (matches p) (files c) with
  | None => forall e, e ∈ files c -> matches p e = false
  | Some e =>
      e ∈ files c /\ matches p e = true /\
      forall e', e' ∈ files c -> matches p e' = true ->
        if is_prefix_path (fc_path e)
        then is_prefix_path (fc_path e') = true /\ str_len (bare_path (fc_path e')) <= str_len (bare_path (fc_path e))
        else fc_path e = p
  end.
Proof.
  intros (_ & Hs & _)%parse_config_files_ok. destruct (List.find _ _) as [e|] eqn:E.
  - apply (find_sorted _ _ _ _ Hs) in E as (H1 & H2 & H3). split_and!; [done..|].
    intros e' Hin He'. destruct (is_prefix_path (fc_path e)) eqn:Ep.
    + destruct (H3 e' Hin He') as [->|H]; [split; [done|lia]|].
      unfold path_leb, path_ltb in H. rewrite Ep in H. destruct (is_prefix_path (fc_path e')); [|done].
      split; [done|]. bool_prop. done.
    + unfold matches in H2. rewrite Ep in H2. by apply String.eqb_eq.
  - intros e He. by apply (List.find_none _ _ E), list_elem_of_In.
Qed.

Lemma first_match_is_best_witness :
  exists c e, parse_config_files example_ranges example_configs = Ok c /\
    List.find (matches "acx") (files c) = Some e /\ fc_path e = "ac*" /\ matches "acx" e = true.
Proof.
  eexists _, _. split; [vm_compute; reflexivity|]. split; [vm_compute; reflexivity|]. split; [reflexivity|].
  pose proof (first_match_is_best example_ranges example_configs _ "acx" ltac:(vm_compute; reflexivity)) as H.
  apply H.
Defined.

(** C38: The file that is written reads back as the entries that were selected,
    in their order: each has the values of its mode, owner, group and
    capabilities, cut to the width of their fields, and its path. *)
Theorem fs_entries_roundtrip partition all t l out :
  generate_entries partition all t l = Ok out ->
  Forall (fun c => path_ok (fc_path c)) l ->
  exists es, mapM (entry_values t) (List.filter (emit_entry partition all) l) = Ok es /\
    map e_path es = map fc_path (List.filter (emit_entry partition all) l) /\
    decode (length out) out = Some (map wrap es) /\
    (Forall entry_fits es -> decode (length out) out = Some es).
Proof.
  intros H Hp. rewrite generate_entries_eq in H. destruct (mapM _ _) as [es|] eqn:E; [|done]. injection H as <-.
  assert (map e_path es = map fc_path (List.filter (emit_entry partition all) l)) as Hpath.
  { revert es E. generalize (List.filter (emit_entry partition all) l) as k. clear.
    induction k as [|c k IH]; simpl; intros es; [by intros [= <-]|].
    destruct (entry_values t c) as [e|] eqn:Ee; [|done]. destruct (mapM _ k) as [es'|]; [|done]. intros [= <-].
    simpl. rewrite (IH es') by done. f_equal. unfold entry_values in Ee. by inv_ok. }
  assert (Forall (fun e => path_ok (e_path e)) es) as Hok.
  { apply (proj1 (Forall_map e_path path_ok es)). rewrite Hpath. apply Forall_map.
    rewrite Forall_forall in Hp |- *. intros c Hc. apply Hp. apply list_elem_of_In, filter_In in Hc as [Hc _].
    by apply list_elem_of_In. }
  exists es. split_and!; [done|done|by apply decode_encode|].
  intros Hf. rewrite decode_encode by done. f_equal. clear -Hf. induction Hf as [|e es He Hes IH]; simpl; [done|].
  by rewrite wrap_fits, IH.
Qed.

Lemma fs_entries_roundtrip_witness :
  exists out, generate_entries "vendor" None example_tables
      [mkFSConfig "0755" "big" "AID_SYSTEM" "CAP_CHOWN,CAP_SYSLOG" "vendor/bin/x" "config.fs";
       mkFSConfig "0644" "root" "root" "0" "odm/y" "config.fs"] = Ok out /\
    decode (length out) out = Some [mkEntry 493 1 1000 (1 + 2 ^ 34) "vendor/bin/x"].
Proof.
  eexists. split; [vm_compute; reflexivity|].
  edestruct (fs_entries_roundtrip "vendor" None example_tables
      [mkFSConfig "0755" "big" "AID_SYSTEM" "CAP_CHOWN,CAP_SYSLOG" "vendor/bin/x" "config.fs";
       mkFSConfig "0644" "root" "root" "0" "odm/y" "config.fs"]) as (es & Hes & _ & Hd & _).
  - vm_compute. reflexivity.
  - repeat constructor; vm_compute; congruence.
  - rewrite Hd. vm_compute in Hes. injection Hes as <-. vm_compute. reflexivity.
Defined.

(** Capabilities that are named once, with distinct bits, give the mask of
    exactly these bits; an unknown name is an error. *)
Theorem caps_mask t caps : is_ok (py_int_base 0 caps) = false ->
  (forall bits, mapM (fun cap => of_option (SystemExit 1) (od_get cap (cap_values t))) (split_char "," caps) = Ok bits ->
    NoDup bits -> Forall (fun k => 0 <= k) bits ->
    exists mask, caps_of t caps = Ok mask /\ forall i, 0 <= i -> Z.testbit mask i = bool_decide (i ∈ bits)) /\
  (Forall (fun e => 0 <= e.2) (cap_values t) ->
    (exists cap, cap ∈ split_char "," caps /\ od_get cap (cap_values t) = None) -> caps_of t caps = Raise (SystemExit 1)).
Proof.
  intros Hi. split.
  - intros bits Hb Hd Hn. eexists. split; [by apply caps_sum|]. by apply sum_bits_testbit.
  - intros Hn (cap & Hin & Hc). unfold caps_of. destruct (py_int_base 0 caps); [done|].
    revert Hin. generalize 0 at 2 as acc. generalize (split_char "," caps) as l.
    induction l as [|x l IH]; intros acc; [by intros ?%elem_of_nil|]. simpl.
    intros Hin. destruct (od_get x (cap_values t)) as [k|] eqn:Ex; [|done].
    assert (0 <= k) as Hk.
    { rewrite Forall_forall in Hn. apply (Hn (x, k)). clear -Ex. revert Ex.
      induction (cap_values t) as [|[y m] d IHd]; simpl; [done|]. case_decide as Hxy; [intros [= ->]; subst; by left|].
      intros H. right. by apply IHd. }
    destruct (Z.ltb_spec k 0); [lia|]. apply IH. apply elem_of_cons in Hin as [->|Hin]; [congruence|done].
Qed.

Lemma caps_mask_witness :
  exists mask, caps_of example_tables "CAP_SYSLOG,CAP_SETGID" = Ok mask /\ Z.testbit mask 34 = true /\ Z.testbit mask 5 = false.
Proof.
  destruct (caps_mask example_tables "CAP_SYSLOG,CAP_SETGID" eq_refl) as [H _].
  destruct (H [34; 6]) as (mask & Hm & Hb).
  - reflexivity.
  - apply (bool_decide_eq_true_1 (NoDup [34; 6])). reflexivity.
  - repeat constructor; lia.
  - exists mask. split; [exact Hm|]. split; (rewrite Hb; [reflexivity|lia]).
Defined.

(** C39: What the header parser checks once its lines are read.  Two ranges of
    a partition with a common value end the program.  An AID in a reserved
    range is refused as well, though with a TypeError that the formatting of
    the message raises.  Otherwise the header is accepted: the AIDs have
    distinct names, an AID with the value of an earlier one is one of the four
    exceptions, the ranges are not empty, and no AID is in one. *)
Theorem aid_header_checks header lines b h0 r :
  foldM (parse_header_line header) ([], mkHeader [] [] []) lines = Ok (b, h0) -> close_ranges b = Ok r ->
  (overlapping r -> parse_aid_header header lines = Raise (SystemExit 1)) /\
  (~ overlapping r ->
    ((exists a v, a ∈ aids_of h0 /\ py_int_base 0 (aid_value a) = Ok v /\ reserved r v) ->
      parse_aid_header header lines = Raise TypeError) /\
    ((forall a v, a ∈ aids_of h0 -> py_int_base 0 (aid_value a) = Ok v -> ~ reserved r v) ->
      exists h, parse_aid_header header lines = Ok h /\ aids_of h = aids_of h0 /\ h_ranges h = r /\
        NoDup (map friendly (aids_of h)) /\
        (forall i j a a', (i < j)%nat -> aids_of h !! i = Some a -> aids_of h !! j = Some a' ->
          aid_value a = aid_value a' -> identifier a' ∈ ["AID_APP"; "AID_APP_START"; "AID_USER"; "AID_USER_OFFSET"]) /\
        (forall p l lo hi, od_get p r = Some l -> (lo, hi) ∈ l -> lo <= hi))).
Proof.
  intros Hl Hr. unfold parse_aid_header. rewrite Hl, Hr.
  destruct (parse_lines_ok _ _ _ _ Hl) as [[H1 H2 H3 H4] _]. destruct (close_ranges_ok _ _ Hr) as [R1 R2].
  set (h := mkHeader (aid_name_to_value h0) (aid_value_to_name h0) r).
  set (val := fun k => match py_int_base 0 k with Ok v => v | Raise _ => 0 end).
  assert (forall a, a ∈ aids_of h0 -> py_int_base 0 (aid_value a) = Ok (val (aid_value a))) as Hint.
  { unfold aids_of. intros a ([k a'] & -> & Ha)%list_elem_of_fmap. simpl. apply H2 in Ha as [_ Ha].
    apply new_AID_ok in Ha as (_ & _ & _ & _ & _ & _ & n & Hn & _). unfold val. by rewrite Hn. }
  rewrite (process_and_check_eq h val).
  2: { intros k (a & -> & Ha)%H3%list_elem_of_fmap. by apply Hint. }
  simpl. split; [|intros Hno; split].
  - intros Ho. rewrite (proj2 (overlapping_iff r R1)) by done. done.
  - intros (a & v & Ha & Hv & Hres). destruct (existsb _ r) eqn:E; [by apply overlapping_iff in E|].
    rewrite (proj2 (existsb_exists _ (aid_value_to_name h0))); [done|].
    assert (aid_value a ∈ od_keys (aid_value_to_name h0)) as Hin by (by apply H3, (list_elem_of_fmap_2 aid_value)).
    unfold od_keys in Hin. apply list_elem_of_fmap in Hin as ([k n] & Hk & Hin). simpl in Hk.
    exists (k, n). split; [by apply list_elem_of_In|]. apply reserved_iff; [done|].
    rewrite <- Hk. rewrite (Hint a Ha) in Hv. by injection Hv as ->.
  - intros Hall. destruct (existsb _ r) eqn:E; [by apply overlapping_iff in E|].
    destruct (existsb _ (aid_value_to_name h0)) eqn:E2.
    + apply existsb_exists in E2 as ([k n] & Hin & Hk). apply reserved_iff in Hk; [|done]. exfalso.
      assert (k ∈ od_keys (aid_value_to_name h0)) as Hkk
        by (apply list_elem_of_In in Hin; by apply (list_elem_of_fmap_2 fst _ (k, n))).
      apply H3, list_elem_of_fmap in Hkk as (a & -> & Ha). by apply (Hall a (val (aid_value a))); [|apply Hint|].
    + exists h. split_and!; try done. unfold aids_of. rewrite map_map. simpl.
      rewrite (map_ext_in _ fst); [done|]. intros [k a] Hk. simpl. symmetry. by apply H2, list_elem_of_In.
Qed.

Lemma aid_header_checks_witness :
  parse_aid_header "fs.h" (example_header ++ ["#define AID_VENDOR_X 2950"]) = Raise TypeError.
Proof.
  eapply (aid_header_checks "fs.h" (example_header ++ ["#define AID_VENDOR_X 2950"])).
  - vm_compute. reflexivity.
  - vm_compute. reflexivity.
  - intros H. apply overlapping_iff in H; [vm_compute in H; discriminate H|].
    apply (bool_decide_eq_true_1 (NoDup _)). reflexivity.
  - eexists (mkAID "AID_VENDOR_X" "2950" "fs.h" "/system/bin/sh" "2950" "vendor_x"), 2950.
    split; [apply list_elem_of_In; vm_compute; repeat (first [left; reflexivity|right])|]. split; [reflexivity|].
    exists "vendor", [(2900, 2999)], 2900, 2999. split; [reflexivity|]. split; [by left|lia].
Defined.

(** When the header and the configuration are accepted, the passwd and
    group files of a partition are written without an error: one line for each
    AID of the partition, in their order, whose fields are the name, the value
    in decimal as user and group, and the shell; the values are distinct and in
    the ranges of the partition. *)
Theorem passwd_lines header lines configs p h c :
  parse_aid_header header lines = Ok h -> parse_config_files (h_ranges h) configs = Ok c ->
  exists users groups,
    PasswdGen passwd_line header lines configs p = Ok users /\ PasswdGen group_line header lines configs p = Ok groups /\
    let l := filter (fun a => partition_of a (h_ranges h) = Some p) (aids c) in
    NoDup (map normalized_value l) /\
    Forall2 (fun a s => exists v, in_partition (h_ranges h) p v /\
      split_char ":" s = [friendly a; ""; py_str v; py_str v; ""; "/"; "/bin/sh"]) l users /\
    Forall2 (fun a s => exists v, in_partition (h_ranges h) p v /\ split_char ":" s = [friendly a; ""; py_str v; ""]) l groups.
Proof.
  intros Hh Hc. unfold PasswdGen. rewrite Hh, Hc. cbv zeta.
  apply parse_config_files_ok in Hc as ([_ Ha _ [Hv _] _ _ _ _] & _). set (l := filter _ (aids c)).
  assert (Forall (fun a => config_aid (h_ranges h) a /\ partition_of a (h_ranges h) = Some p) l) as Hl.
  { apply Forall_forall. intros a [H1 H2]%list_elem_of_filter. split; [|done]. by eapply Forall_forall in Ha. }
  assert (NoDup (map normalized_value l)) as Hd.
  { eapply sublist_NoDup; [exact Hv|]. apply (fmap_sublist normalized_value), sublist_filter. }
  clearbody l. clear Ha Hv Hh. 
  exists (map (fun a => str_join ":" [friendly a; ""; normalized_value a; normalized_value a; ""; "/"; "/bin/sh"]) l),
         (map (fun a => str_join ":" [friendly a; ""; normalized_value a; ""]) l).
  assert (forall a, a ∈ l -> has_char ":" (friendly a) = false /\ login_shell a = "/bin/sh" /\
            exists v, normalized_value a = py_str v /\ in_partition (h_ranges h) p v) as Hal.
  { intros a Hin. rewrite Forall_forall in Hl. destruct (Hl a Hin) as [Hca Hp].
    split; [by eapply friendly_no_colon|]. destruct Hca as (_ & Hn & p' & v & Hp' & Hnv & _ & Hr).
    split; [by apply new_AID_ok in Hn as (_ & _ & _ & ? & _)|]. exists v. split; [done|]. congruence. }
  assert (forall a, a ∈ l -> get_login_and_uid_cleansed a = Ok (friendly a, normalized_value a)) as Hg.
  { intros a Hin. destruct (Hal a Hin) as (H1 & _ & v & H2 & _). unfold get_login_and_uid_cleansed.
    by rewrite H1, H2, py_str_no_colon. }
  split_and!; [..|done| |].
  - apply mapM_ok. intros a Hin. unfold passwd_line. rewrite Hg by done. simpl.
    by destruct (Hal a Hin) as (_ & -> & _).
  - apply mapM_ok. intros a Hin. unfold group_line. rewrite Hg by done. done.
  - apply Forall2_fmap_r, Forall_Forall2_diag, Forall_forall. intros a Hin.
    destruct (Hal a Hin) as (H1 & _ & v & H2 & H3). exists v. split; [done|]. rewrite H2.
    apply split_char_join; [done|]. repeat constructor; try done; apply py_str_no_colon.
  - apply Forall2_fmap_r, Forall_Forall2_diag, Forall_forall. intros a Hin.
    destruct (Hal a Hin) as (H1 & _ & v & H2 & H3). exists v. split; [done|]. rewrite H2.
    apply split_char_join; [done|]. repeat constructor; try done; apply py_str_no_colon.
Qed.

Lemma passwd_lines_witness :
  exists users, PasswdGen passwd_line "fs.h" example_header example_configs "vendor" = Ok users /\ length users = 2%nat.
Proof.
  edestruct (passwd_lines "fs.h" example_header example_configs "vendor") as (users & groups & H & _ & _ & Hf & _).
  - vm_compute. reflexivity.
  - vm_compute. reflexivity.
  - exists users. split; [exact H|]. apply Forall2_length in Hf. rewrite <- Hf. vm_compute. reflexivity.
Defined.
