(* ===== verification/Merge.v ===== *)
(** Merging of partial builds: releasetools/merge/merge_utils.py (the items and
    partitions taken from each build), merge/merge_meta.py (the files under META) and
    common.py's [MergeDynamicPartitionInfoDicts]. *)

From S2P Require Export PyRegex SparseImg BuildInfo ImageProp.

#[local] Open Scope string_scope.
#[local] Open Scope list_scope.
#[local] Open Scope Z_scope.

Record MergeOptions := mkMergeOptions {
  framework_item_list : list string;
  vendor_item_list : list string;
  framework_misc_info_keys : list string;
  framework_partition_set : list string;
  vendor_partition_set : list string;
  allow_duplicate_apkapex_keys : bool;
  allow_partial_ab : bool
}.

(** * Items and partitions *)

Definition is_item_char (c : ascii) : bool := ((65 <=? code c) && (code c <=? 90)) || (code c =? 95).

Definition _PARTITION_ITEM_PATTERN : pat string :=
  let% p := re_some is_item_char in let% _ := re_lit "/" in let% _ := re_many re_dot in let% _ := re_end in re_ret p.
Definition image_item_pattern (dir : string) : pat string :=
  let% _ := re_lit dir in let% p := re_many re_dot in let% _ := re_lit ".img" in let% _ := re_end in re_ret p.
Definition _IMAGE_PARTITION_PATTERN : pat string := image_item_pattern "IMAGES/".
Definition _PREBUILT_IMAGE_PARTITION_PATTERN : pat string := image_item_pattern "PREBUILT_IMAGES/".

(** Directories of target files that are not partitions. *)
Definition not_partitions : list string := ["meta"; "images"; "prebuilt_images"].

(** The partition a pattern finds in an item. *)
Definition item_partition (item : string) (pattern : pat string) : option string :=
  p ← str_lower <$> re_match pattern (strip item);
  if bool_decide (p ∈ not_partitions) then None else Some p.

Definition item_partitions (item : string) : list string :=
  omap (item_partition item) [_PARTITION_ITEM_PATTERN; _IMAGE_PARTITION_PATTERN; _PREBUILT_IMAGE_PARTITION_PATTERN].

Definition ItemListToPartitionSet (item_list : list string) : list string := remove_dups (flat_map item_partitions item_list).

Definition _FRAMEWORK_PARTITIONS : list string :=
  ["system"; "product"; "system_ext"; "system_other"; "root"; "vbmeta_system"; "pvmfw"].
Definition is_framework (p : string) : bool := bool_decide (p ∈ _FRAMEWORK_PARTITIONS).

(** [os.path.splitext] of a name without slashes: dots that lead the name start no extension. *)
Fixpoint last_dot (s : string) : option (string * string) :=
  match s with
  | "" => None
  | String c s' =>
      match last_dot s' with
      | Some (a, b) => Some (String c a, b)
      | None => if Ascii.eqb c "." then Some ("", s) else None
      end
  end.
Definition is_dot (c : ascii) : bool := Ascii.eqb c ".".
Definition splitext (name : string) : string * string :=
  match last_dot name with
  | Some (root, ext) => if str_forallb is_dot root then (name, "") else (root, ext)
  | None => (name, "")
  end.

(** The META items that are taken from a build as they are. *)
Definition meta_items (framework : bool) : list string :=
  if framework then ["META/liblz4.so"; "META/postinstall_config.txt"; "META/zucchini_config.txt"]
  else ["META/kernel_configs.txt"; "META/kernel_version.txt"; "META/otakeys.txt"; "META/pack_radioimages.txt"; "META/releasetools.py"].

(** The items for one name of the build; [seen] is the partitions already visited. *)
Definition infer_step (framework : bool) (st : list string * list string) (name : string) : list string * list string :=
  let '(item_set, seen_partitions) := st in
  if ends_with "/" name then st
  else
    let partition := str_lower (default "" (head (split_char "/" name))) in
    if String.eqb partition "meta" then st
    else if bool_decide (partition ∈ ["images"; "prebuilt_images"]) then
      let '(image_partition, extension) := splitext (path_basename name) in
      if String.eqb image_partition "vbmeta" then st
      else if bool_decide (extension ∈ [".img"; ".map"]) then
        if Bool.eqb framework (is_framework image_partition) then (item_set ++ [name], seen_partitions) else st
      else if negb framework then (item_set ++ [name], seen_partitions)
      else st
    else if bool_decide (partition ∈ seen_partitions) then st
    else
      (if Bool.eqb framework (is_framework partition)
       then item_set ++ [str_upper partition +:+ "/*";
                         "META/" +:+ (if String.eqb partition "system" then "" else partition +:+ "_") +:+ "filesystem_config.txt"]
       else item_set,
       seen_partitions ++ [partition]).

Definition InferItemList (input_namelist : list string) (framework : bool) : list string :=
  sort_by String.leb (remove_dups (foldl (infer_step framework) (meta_items framework, []) input_namelist).1).

Definition partition_keys (partition : string) : list string :=
  ["avb_" +:+ partition +:+ "_hashtree_enable"; "avb_" +:+ partition +:+ "_add_hashtree_footer_args"; partition +:+ "_disable_sparse";
   "building_" +:+ partition +:+ "_image"; (if String.eqb partition "system" then "" else partition +:+ "_") +:+ "fs_type"].

Definition InferFrameworkMiscInfoKeys (input_namelist : list string) : list string :=
  sort_by String.leb
    (["ab_update"; "avb_vbmeta_system"; "avb_vbmeta_system_algorithm"; "avb_vbmeta_system_key_path";
      "avb_vbmeta_system_rollback_index_location"; "default_system_dev_certificate"] ++
     flat_map (fun partition =>
       flat_map (fun dir => if bool_decide (dir ∈ input_namelist) then partition_keys partition else [])
         [str_upper partition +:+ "/"; "SYSTEM/" +:+ partition +:+ "/"]) _FRAMEWORK_PARTITIONS).

Definition ValidateConfigLists (o : MergeOptions) : bool :=
  let framework_partitions := ItemListToPartitionSet (framework_item_list o) in
  let vendor_partitions := ItemListToPartitionSet (vendor_item_list o) in
  bool_decide (filter (fun p => p ∈ vendor_partitions) framework_partitions = []) &&
  negb (existsb (fun key => bool_decide (key ∈ framework_misc_info_keys o)) ["dynamic_partition_list"; "super_partition_groups"]).

(** The lists of [main]: the lines of the file given, or those inferred from the
    names in the builds. *)
Record MergeLists := mkMergeLists {
  framework_items : option string;
  vendor_items : option string;
  misc_info_keys : option string
}.
Definition list_or (file : option string) (inferred : list string) : list string :=
  match file with Some text => splitlines text | None => inferred end.

Definition merge_options (given : MergeLists) (framework_namelist vendor_namelist : list string)
    (allow_duplicates allow_partial : bool) : MergeOptions :=
  let framework_item_list := list_or (framework_items given) (InferItemList framework_namelist true) in
  let vendor_item_list := list_or (vendor_items given) (InferItemList vendor_namelist false) in
  mkMergeOptions framework_item_list vendor_item_list
    (list_or (misc_info_keys given) (InferFrameworkMiscInfoKeys framework_namelist))
    (ItemListToPartitionSet framework_item_list) (ItemListToPartitionSet vendor_item_list)
    allow_duplicates allow_partial.

(** * Files *)

(** The files under META of a build. *)
Abbreviation meta_files := (gmap string string).
Definition read_meta (files : meta_files) (name : string) : result string := of_option FileNotFoundError (files !! name).

(** [WriteSortedData], of a set and of a dictionary. *)
Definition sorted_list_text (l : list string) : string := str_join "" (map end_line (sort_by String.leb l)).
Definition sorted_dict_text {V} (text : V -> string) (d : list (string * V)) : string :=
  str_join "" (map (fun '(k, v) => end_line (k +:+ "=" +:+ text v)) (sort_by (fun a b => String.leb a.1 b.1) d)).

Definition LoadDictionaryFromFile (files : meta_files) (name : string) : result dict :=
  let! text := read_meta files name in Ok (LoadDictionaryFromLines (splitlines text)).

Definition LoadKeyValueText (content : option string) : dict :=
  match content with
  | None => []
  | Some text => foldl (fun d line => match split_once "=" (strip line) with Some (k, v) => od_set k v d | None => d end) [] (readlines text)
  end.

Definition _SYSTEM_PARTITIONS_PREFIXED : list string := ["_system"; "_system_ext"; "_product"; "_init_boot"].

Definition MergePostinstallConfig (framework vendor : meta_files) : string :=
  let framework_config := LoadKeyValueText (framework !! "postinstall_config.txt") in
  let vendor_config := LoadKeyValueText (vendor !! "postinstall_config.txt") in
  let merged_config := foldl (fun d '(key, val) =>
    if existsb (fun suffix => ends_with suffix key) _SYSTEM_PARTITIONS_PREFIXED then d else od_set key val d) framework_config vendor_config in
  sorted_dict_text id merged_config.

Definition ParseUpdateEngineConfig (content : string) : result (Z * Z) :=
  let data := String.substring 0 1024 content in
  let! major_text := of_option ValueError (re_search (let% _ := re_lit "PAYLOAD_MAJOR_VERSION=" in re_some is_digit) data) in
  let! minor_text := of_option ValueError (re_search (let% _ := re_lit "PAYLOAD_MINOR_VERSION=" in re_some is_digit) data) in
  let! major := py_int major_text in
  let! minor := py_int minor_text in
  Ok (major, minor).

(** The older of the two configurations; that of the vendor's build where only it has one. *)
Definition MergeUpdateEngineConfig (o : MergeOptions) (framework vendor : meta_files) : result string :=
  let name := "update_engine_config.txt" in
  match framework !! name with
  | Some framework_text =>
      let! (fmajor, fminor) := ParseUpdateEngineConfig framework_text in
      let! vendor_text := read_meta vendor name in
      let! (vmajor, vminor) := ParseUpdateEngineConfig vendor_text in
      Ok (if (fmajor <? vmajor) || ((fmajor =? vmajor) && (fminor <? vminor)) then framework_text else vendor_text)
  | None => if allow_partial_ab o then read_meta vendor name else Raise FileNotFoundError
  end.

Definition MergeAbPartitions (o : MergeOptions) (framework vendor : meta_files) : result string :=
  let! framework_ab_partitions := match framework !! "ab_partitions.txt" with
    | Some text => Ok (filter (fun p => p ∈ framework_partition_set o) (splitlines text))
    | None => if allow_partial_ab o then Ok [] else Raise FileNotFoundError
    end in
  let! text := read_meta vendor "ab_partitions.txt" in
  Ok (sorted_list_text (remove_dups (framework_ab_partitions ++ splitlines text))).

(** The dictionaries of the two builds; the vendor's becomes the merged one. *)
Definition MergeMiscInfo (o : MergeOptions) (framework_misc_info vendor_misc_info : dict) : dict :=
  let merged := foldl (fun d key => match od_get key framework_misc_info with Some v => od_set key v d | None => d end)
                  vendor_misc_info (framework_misc_info_keys o) in
  if bool_decide (od_get "avb_enable" merged = Some "true") then od_set "avb_building_vbmeta_image" "true" merged else merged.

(** * Dynamic partitions *)

Definition uniq_concat (a b : string) : string := str_join " " (sort_by String.leb (remove_dups (split_ws a ++ split_ws b))).

Definition text_in (d : dict) (key : string) : string := default "" (od_get key d).

(** A value that the vendor's dictionary must have. *)
Definition copy_required (vendor_dict : dict) (merged : dict) (key : string) : result dict :=
  let! v := of_option ValueError (od_get key vendor_dict) in Ok (od_set key v merged).
Definition copy_if_present (vendor_dict : dict) (merged : dict) (key : string) : dict :=
  match od_get key vendor_dict with Some v => od_set key v merged | None => merged end.

Definition merge_group (framework_dict vendor_dict : dict) (merged : dict) (partition_group : string) : result dict :=
  let! merged := copy_required vendor_dict merged ("super_" +:+ partition_group +:+ "_group_size") in
  let key := "super_" +:+ partition_group +:+ "_partition_list" in
  Ok (od_set key (uniq_concat (text_in framework_dict key) (text_in vendor_dict key)) merged).

Definition string_min (a b : string) : string := if String.ltb b a then b else a.

Definition MergeDynamicPartitionInfoDicts (framework_dict vendor_dict : dict) : result dict :=
  if negb (bool_decide (od_get "use_dynamic_partitions" framework_dict = Some "true") &&
           bool_decide (od_get "use_dynamic_partitions" vendor_dict = Some "true")) then Raise ValueError
  else
    let merged := foldl (fun d '(key, v) => if bool_decide (od_get key framework_dict = Some v) then od_set key v d else d)
                    [("use_dynamic_partitions", "true")] vendor_dict in
    let merged := od_set "dynamic_partition_list"
                    (uniq_concat (text_in framework_dict "dynamic_partition_list") (text_in vendor_dict "dynamic_partition_list")) merged in
    let! merged := match od_get "super_block_devices" vendor_dict with
      | Some devices =>
          foldM (fun d block_device => copy_required vendor_dict d ("super_" +:+ block_device +:+ "_device_size"))
            (od_set "super_block_devices" devices merged) (split_ws devices)
      | None => Ok merged
      end in
    let! groups := of_option KeyError (od_get "super_partition_groups" vendor_dict) in
    let! merged := foldM (merge_group framework_dict vendor_dict) (od_set "super_partition_groups" groups merged) (split_ws groups) in
    let merged := od_set "vabc_cow_version"
                    (match od_get "vabc_cow_version" vendor_dict, od_get "vabc_cow_version" framework_dict with
                     | Some v, Some f => string_min v f | _, _ => "2" end) merged in
    Ok (foldl (copy_if_present vendor_dict) merged
          ["virtual_ab"; "lpmake"; "super_metadata_device"; "super_partition_error_limit"; "super_partition_size"]).

(** * Keys of packages *)

Definition PARTITION_TAG_PATTERN : pat string :=
  let% _ := re_lit ("partition=" +:+ String "034" "") in let% p := re_few re_dot in let% _ := re_lit (String "034" "") in re_ret p.
Definition MODULE_KEY_PATTERN : pat string :=
  let% _ := re_lit ("name=" +:+ String "034" "") in
  let% name := re_many re_dot in
  let% _ := (fun s => if str_true name then re_lit ".apex" s ++ re_lit ".apk" s else []) in
  let% _ := re_lit (String "034" "") in
  re_ret name.

Definition key_line_step (d : dict) (line : string) : result dict :=
  let line := strip line in
  if negb (str_true line) then Ok d
  else
    let! word := of_option IndexError (head (split_ws line)) in
    let! name := of_option AttributeError (re_search MODULE_KEY_PATTERN word) in
    Ok (od_set name line d).
Definition read_keys (content : string) : result dict := foldM key_line_step [] (splitlines content).

Definition filter_step (o : MergeOptions) (partition_set : list string) (merged : dict) (item : string * string) : result dict :=
  let '(key, value) := item in
  let! partition_tag := of_option ValueError (re_search PARTITION_TAG_PATTERN value) in
  if negb (bool_decide (partition_tag ∈ partition_set)) then Ok merged
  else if od_mem key merged then if allow_duplicate_apkapex_keys o then Ok merged else Raise ValueError
  else Ok (od_set key value merged).

(** Keys of the framework first. *)
Definition merge_keys (o : MergeOptions) (framework_dict vendor_dict : dict) : result dict :=
  let! merged := foldM (filter_step o (framework_partition_set o)) [] framework_dict in
  foldM (filter_step o (vendor_partition_set o)) merged vendor_dict.

Definition MergePackageKeys (o : MergeOptions) (framework vendor : meta_files) (file_name : string) : result string :=
  if negb (bool_decide (file_name ∈ ["apkcerts.txt"; "apexkeys.txt"])) then Raise ExternalError
  else
    let! framework_text := read_meta framework file_name in
    let! framework_dict := read_keys framework_text in
    let! vendor_text := read_meta vendor file_name in
    let! vendor_dict := read_keys vendor_text in
    let! merged := merge_keys o framework_dict vendor_dict in
    Ok (str_join "" (map (fun '(_, value) => end_line value) (sort_by (fun a b => String.leb a.1 b.1) merged))).

(** * All of META *)

Definition file_contexts (files : meta_files) (file_name : string) : result (string * string) :=
  match files !! file_name, files !! "file_contexts.bin" with
  | Some text, _ | None, Some text => Ok (file_name, text)
  | None, None => Raise ValueError
  end.

(** The keys that name a file of contexts, in the merged dictionary (which is the
    vendor's) and in that of the framework's build. *)
Definition selinux_keys (framework_misc_info merged_misc_info : dict) : dict :=
  let is_fc := fun key => ends_with "_selinux_fc" key in
  let merged := foldl (fun d key => if is_fc key then od_set key "vendor_file_contexts.bin" d else d) merged_misc_info (od_keys merged_misc_info) in
  foldl (fun d key => if is_fc key then od_set key "framework_file_contexts.bin" d else d) merged (od_keys framework_misc_info).

Section meta.
Context {W : Type} `{Host W}.
(** [OPTIONS.search_path], and the digest of the salt for a fingerprint. *)
Variable search_path : option string.
Variable sha256_hex : string -> string.
Variable o : MergeOptions.

(** The size of an image that is copied, for the care map. *)
Definition care_map_step (images : string -> option bytes) (g : GlobDict) (partition : string) : io W GlobDict :=
  match images partition with
  | None => io_ret g
  | Some image =>
      let* partition_size := io_pure (GetImagePartitionSize image) in
      let* (prop_dict, g) := io_pure (ImagePropFromGlobalDict g partition) in
      let* builder := CreateVerityImageBuilder search_path sha256_hex prop_dict in
      match builder with
      | None => io_raise AttributeError
      | Some b =>
          let* image_size := fun w => let '(r, (_, w')) := V2_CalculateMaxImageSize (Some partition_size) (b, w) in (r, w') in
          io_ret (glob_set (partition +:+ "_image_size") (PNumber image_size) g)
      end
  end.

Fixpoint care_map_sizes (images : string -> option bytes) (g : GlobDict) (partitions : list string) : io W GlobDict :=
  match partitions with
  | [] => io_ret g
  | p :: partitions => let* g := care_map_step images g p in care_map_sizes images g partitions
  end.
Definition UpdateCareMapImageSizeProps (images : string -> option bytes) (g : GlobDict) : io W GlobDict :=
  care_map_sizes images g PARTITIONS_WITH_CARE_MAP.

Definition glob_is (g : GlobDict) (key value : string) : bool := match glob_get g key with Some (PText s) => String.eqb s value | _ => false end.

(** The dictionary of texts as one of properties. *)
Definition glob_of (d : dict) : GlobDict := mkGlobDict (map (fun '(k, v) => (k, PText v)) d) None.

(** The files written, in order. *)
Definition MergeMetaFiles (framework vendor : meta_files) (images : string -> option bytes) : io W (list (string * string)) :=
  let* framework_misc_info := io_pure (LoadDictionaryFromFile framework "misc_info.txt") in
  let* vendor_misc_info := io_pure (LoadDictionaryFromFile vendor "misc_info.txt") in
  let merged := MergeMiscInfo o framework_misc_info vendor_misc_info in
  let* framework_fc := io_pure (file_contexts framework "framework_file_contexts.bin") in
  let* vendor_fc := io_pure (file_contexts vendor "vendor_file_contexts.bin") in
  let merged := selinux_keys framework_misc_info merged in
  let* (dynamic_file, merged) := io_pure (
    if bool_decide (od_get "use_dynamic_partitions" merged = Some "true") then
      let! framework_dict := LoadDictionaryFromFile framework "dynamic_partitions_info.txt" in
      let! vendor_dict := LoadDictionaryFromFile vendor "dynamic_partitions_info.txt" in
      let! info := MergeDynamicPartitionInfoDicts framework_dict vendor_dict in
      Ok ([("dynamic_partitions_info.txt", sorted_dict_text id info)], od_set "build_super_partition" "true" (od_merge merged info))
    else Ok ([], merged)) in
  let ab_update := bool_decide (od_get "ab_update" merged = Some "true") in
  let* ab_file := io_pure (if ab_update then let! text := MergeAbPartitions o framework vendor in Ok [("ab_partitions.txt", text)] else Ok []) in
  let* g := if ab_update then UpdateCareMapImageSizeProps images (glob_of merged) else io_ret (glob_of merged) in
  let* apkcerts := io_pure (MergePackageKeys o framework vendor "apkcerts.txt") in
  let* apexkeys := io_pure (MergePackageKeys o framework vendor "apexkeys.txt") in
  let* ab_configs := io_pure (
    if glob_is g "ab_update" "true" then
      let! config := MergeUpdateEngineConfig o framework vendor in
      Ok [("update_engine_config.txt", config); ("postinstall_config.txt", MergePostinstallConfig framework vendor)]
    else Ok []) in
  io_ret ([framework_fc; vendor_fc] ++ dynamic_file ++ ab_file ++ [("apkcerts.txt", apkcerts); ("apexkeys.txt", apexkeys)] ++ ab_configs ++
          [("misc_info.txt", sorted_dict_text prop_text (glob_entries g))]).
End meta.
