(* ===== verification/MergeProps.v ===== *)
(** Merging of partial builds: the lists inferred for two builds take no partition
    twice, and the merged lists of package keys. *)

From S2P Require Import EventLogTagsProps.
From S2P Require Export Merge.

#[local] Open Scope string_scope.
#[local] Open Scope list_scope.
#[local] Open Scope Z_scope.

(** * Texts *)

Lemma str_map_app f s t : str_map f (s +:+ t) = str_map f s +:+ str_map f t.
Proof. induction s as [|c s IH]; [done|]. exact (f_equal (String (f c)) IH). Qed.

Lemma str_map_ext f g s : (forall c, f c = g c) -> str_map f s = str_map g s.
Proof. intros H. induction s as [|c s IH]; [done|]. cbn. by rewrite H, IH. Qed.

Lemma str_map_map f g s : str_map f (str_map g s) = str_map (fun c => f (g c)) s.
Proof. induction s as [|c s IH]; [done|]. cbn. by rewrite IH. Qed.

Lemma has_char_map f c s : (forall d, Ascii.eqb (f d) c = Ascii.eqb d c) -> has_char c (str_map f s) = has_char c s.
Proof. intros H. induction s as [|d s IH]; [done|]. cbn. by rewrite H, IH. Qed.

Lemma lower_slash d : Ascii.eqb (to_lower d) "/" = Ascii.eqb d "/".
Proof. by destruct d as [[] [] [] [] [] [] [] []]. Qed.
Lemma upper_slash d : Ascii.eqb (to_upper d) "/" = Ascii.eqb d "/".
Proof. by destruct d as [[] [] [] [] [] [] [] []]. Qed.
Lemma upper_lower_space d : is_space (to_upper (to_lower d)) = is_space d.
Proof. by destruct d as [[] [] [] [] [] [] [] []]. Qed.
Lemma lower_upper_lower d : to_lower (to_upper (to_lower d)) = to_lower d.
Proof. by destruct d as [[] [] [] [] [] [] [] []]. Qed.

Lemma str_lower_upper_lower s : str_lower (str_upper (str_lower s)) = str_lower s.
Proof. unfold str_lower, str_upper. rewrite !str_map_map. apply str_map_ext, lower_upper_lower. Qed.

(** The text before the first separator is determined. *)
Lemma split_at_char c a b x y : has_char c a = false -> has_char c b = false -> a +:+ String c x = b +:+ String c y -> a = b /\ x = y.
Proof.
  intros Ha Hb H. apply (f_equal (split_char c)) in H as H'. rewrite !split_char_app in H' by done. injection H' as <- _.
  split; [done|]. apply str_app_inv_head in H. congruence.
Qed.

Lemma str_app_inv_tail a b c : a +:+ c = b +:+ c -> a = b.
Proof.
  revert b. induction a as [|x a IH]; intros [|y b] H; [done | | |].
  1,2: apply (f_equal String.length) in H; rewrite ?str_app_len in H; cbn in H; rewrite ?str_app_len in H; lia.
  injection H as -> H. by rewrite (IH b).
Qed.

(** ** Paths *)

Definition dir_of (name : string) : string := default "" (head (split_char "/" name)).

Lemma dir_of_app d t : has_char "/" d = false -> dir_of (d +:+ String "/" t) = d.
Proof. intros H. unfold dir_of. by rewrite split_char_app. Qed.

Lemma dir_of_slash name : has_char "/" (dir_of name) = false.
Proof.
  unfold dir_of. induction name as [|c s IH]; [done|]. cbn [split_char]. destruct (Ascii.eqb c "/") eqn:E; [done|].
  destruct (split_char "/" s) as [|t ts]; cbn in *; [by rewrite E|]. by rewrite E.
Qed.

Lemma split_char_ne c s : split_char c s <> [].
Proof. destruct s as [|d s]; [done|]. cbn. case_match; [done|]. by case_match. Qed.

Lemma path_basename_slash d t : path_basename (d +:+ String "/" t) = path_basename t.
Proof.
  unfold path_basename. induction d as [|c d IH].
  - cbn. pose proof (split_char_ne "/" t). by destruct (split_char "/" t).
  - change (String c d +:+ String "/" t) with (String c (d +:+ String "/" t)). cbn [split_char].
    pose proof (split_char_ne "/" (d +:+ String "/" t)) as Hne. destruct (split_char "/" (d +:+ String "/" t)) as [|x l] eqn:E; [done|].
    case_match; [exact IH|]. destruct l as [|y l]; [|exact IH]. exfalso. clear -E.
    assert (H : forall d, (2 <= length (split_char "/" (d +:+ String "/" t)))%nat).
    { clear. induction d as [|c d IH]; cbn; [pose proof (split_char_ne "/" t); destruct (split_char "/" t); cbn in *; [done|lia]|].
      change (String c d +:+ String "/" t) with (String c (d +:+ String "/" t)). cbn [split_char]. case_match; [cbn; lia|].
      destruct (split_char "/" (d +:+ String "/" t)); cbn in *; lia. }
    specialize (H d). rewrite E in H. cbn in H. lia.
Qed.

Lemma path_basename_noslash s : has_char "/" s = false -> path_basename s = s.
Proof. intros H. unfold path_basename. by rewrite split_char_none. Qed.

(** A text is free of slashes, or ends with a slash and its base name. *)
Lemma path_split s : (has_char "/" s = false /\ path_basename s = s) \/ exists d, s = d +:+ String "/" (path_basename s) /\ has_char "/" (path_basename s) = false.
Proof.
  induction s as [|c s IH]; [by left|]. destruct (has_char "/" (String c s)) eqn:E; [right | left; split; [done|by apply path_basename_noslash]].
  cbn [has_char] in E. destruct (has_char "/" s) eqn:Es.
  - destruct IH as [[? _]|(d & Hd & Hb)]; [done|]. exists (String c d).
    replace (path_basename (String c s)) with (path_basename s); [split; [|done]; change (String c s = String c (d +:+ String "/" (path_basename s))); congruence|].
    rewrite Hd at 2. change (String c (d +:+ String "/" (path_basename s))) with (String c d +:+ String "/" (path_basename s)).
    rewrite path_basename_slash. by rewrite (path_basename_noslash (path_basename s)).
  - rewrite orb_false_r in E. apply Ascii.eqb_eq in E as ->. exists "".
    rewrite (path_basename_slash "" s : path_basename (String "/" s) = _), (path_basename_noslash s) by done. done.
Qed.

Lemma path_basename_app s t : has_char "/" t = false -> path_basename (s +:+ t) = path_basename s +:+ t.
Proof.
  intros Ht. destruct (path_split s) as [[Hs Hb]|(d & Hd & Hb)].
  - rewrite Hb. apply path_basename_noslash. by rewrite has_char_app, Hs, Ht.
  - rewrite Hd at 1. rewrite str_app_assoc. change (String "/" (path_basename s) +:+ t) with (String "/" (path_basename s +:+ t)).
    rewrite path_basename_slash. apply path_basename_noslash. by rewrite has_char_app, Hb, Ht.
Qed.

Lemma path_basename_lower s : path_basename (str_lower s) = str_lower (path_basename s).
Proof.
  assert (H : forall x, has_char "/" (str_lower x) = has_char "/" x) by (intros x; apply has_char_map, lower_slash).
  destruct (path_split s) as [[Hs Hb]|(d & Hd & Hb)].
  - rewrite Hb. apply path_basename_noslash. by rewrite H.
  - rewrite Hd at 1. unfold str_lower at 1. rewrite str_map_app. change (str_map to_lower (String "/" ?x)) with (String "/" (str_lower x)).
    rewrite path_basename_slash. apply path_basename_noslash. by rewrite H.
Qed.

(** * Items *)

Lemma re_seq_in {A B} (p : pat A) (q : A -> pat B) s b r : (b, r) ∈ re_seq p q s <-> exists a r', (a, r') ∈ p s /\ (b, r) ∈ q a r'.
Proof.
  unfold re_seq. rewrite list_elem_of_In, in_flat_map. split.
  - intros ([a r'] & H1 & H2). exists a, r'. by rewrite !list_elem_of_In.
  - intros (a & r' & H1 & H2). exists (a, r'). by rewrite <- !list_elem_of_In.
Qed.

Lemma re_match_in {A} (p : pat A) s a : re_match p s = Some a -> exists r, (a, r) ∈ p s.
Proof. unfold re_match. destruct (p s) as [|[b r] l]; [done|]. intros [= ->]. exists r. by left. Qed.

Lemma item_char_no_slash s : str_forallb is_item_char s = true -> has_char "/" s = false.
Proof.
  induction s as [|c s IH]; [done|]. cbn. intros [Hc Hs]%andb_true_iff. rewrite (IH Hs), orb_false_r.
  destruct (Ascii.eqb_spec c "/") as [->|]; [by vm_compute in Hc|done].
Qed.

(** What a directory of a partition, and an image, look like. *)
Lemma partition_item_parts s p : re_match _PARTITION_ITEM_PATTERN s = Some p ->
  exists t, s = p +:+ String "/" t /\ has_char "/" p = false /\ str_true p = true.
Proof.
  intros (r & H)%re_match_in. unfold _PARTITION_ITEM_PATTERN in H. apply re_seq_in in H as (q & r1 & H1 & H).
  apply re_some_prefix in H1 as (t1 & -> & -> & Hc & Ht). apply re_seq_in in H as ([] & r2 & H2 & H).
  apply re_lit_prefix in H2 as (t2 & -> & ->). apply re_seq_in in H as (x & r3 & H3 & H).
  apply re_seq_in in H as ([] & r4 & _ & H). apply list_elem_of_singleton in H as [= -> ->].
  exists r2. split_and!; [done | by apply item_char_no_slash | done].
Qed.

Lemma image_item_parts dir s p : re_match (image_item_pattern dir) s = Some p ->
  exists r, s = dir +:+ p +:+ ".img" +:+ r /\ (r = "" \/ r = String newline "").
Proof.
  intros (r & H)%re_match_in. unfold image_item_pattern in H. apply re_seq_in in H as ([] & r1 & H1 & H).
  apply re_lit_prefix in H1 as (t1 & -> & ->). apply re_seq_in in H as (x & r2 & H2 & H).
  apply re_many_prefix in H2 as (t2 & -> & -> & _). apply re_seq_in in H as ([] & r3 & H3 & H).
  apply re_lit_prefix in H3 as (t3 & -> & ->). apply re_seq_in in H as ([] & r4 & H4 & H).
  apply list_elem_of_singleton in H as [= -> ->]. unfold re_end in H4.
  destruct (String.eqb_spec r3 ""), (String.eqb_spec r3 (String newline "")); cbn in H4; try by apply elem_of_nil in H4.
  all: exists r3; split; [done|]; auto.
Qed.

Definition image_dirs : list string := ["images"; "prebuilt_images"].

(** A partition comes from a directory or from an image. *)
Lemma item_partitions_in item p : p ∈ item_partitions item ->
  p ∉ not_partitions /\
  ((exists d t, strip item = d +:+ String "/" t /\ has_char "/" d = false /\ str_true d = true /\ p = str_lower d) \/
   (exists d m r, strip item = d +:+ String "/" (m +:+ ".img" +:+ r) /\ (r = "" \/ r = String newline "") /\ has_char "/" d = false /\
      str_lower d ∈ image_dirs /\ p = str_lower m)).
Proof.
  unfold item_partitions. intros (pattern & Hin & Hp)%list_elem_of_omap. unfold item_partition in Hp.
  destruct (re_match pattern (strip item)) as [q|] eqn:E; [|done]. cbn in Hp. case_bool_decide as Hq; [done|]. injection Hp as <-.
  split; [done|]. apply elem_of_cons in Hin as [->|Hin]; [|right; apply elem_of_cons in Hin as [->|Hin]; [|apply list_elem_of_singleton in Hin as ->]].
  - left. apply partition_item_parts in E as (t & Hs & Hc & Ht). by exists q, t.
  - apply image_item_parts in E as (r & Hs & Hr). exists "IMAGES", q, r. split_and!; try done. apply (bool_decide_unpack _). by vm_compute.
  - apply image_item_parts in E as (r & Hs & Hr). exists "PREBUILT_IMAGES", q, r. split_and!; try done. apply (bool_decide_unpack _). by vm_compute.
Qed.

(** Items under META are no partitions. *)
Lemma meta_item_none t : item_partitions ("META/" +:+ t) = [].
Proof.
  destruct (item_partitions ("META/" +:+ t)) as [|p l] eqn:E; [done|]. exfalso.
  assert (Hp : p ∈ item_partitions ("META/" +:+ t)) by (rewrite E; by left). apply item_partitions_in in Hp as (Hn & H).
  assert (Hs : exists x, strip ("META/" +:+ t) = "META" +:+ String "/" x).
  { unfold strip. rewrite lstrip_append. cbn [String.eqb]. change (lstrip "META/") with "META/".
    destruct (String.eqb_spec "META/" "") as [|_]; [done|]. rewrite rstrip_append. case_match; [by exists ""|by exists (rstrip t)]. }
  destruct Hs as (x & Hs). rewrite Hs in H. destruct H as [(d & t' & Hd & Hc & _ & ->)|(d & m & r & Hd & _ & Hc & Hdir & ->)].
  - apply split_at_char in Hd as [<- _]; [|done|done]. apply Hn. apply (bool_decide_unpack _). by vm_compute.
  - apply split_at_char in Hd as [<- _]; [|done|done]. by apply (bool_decide_pack _) in Hdir.
Qed.

(** ** Images *)

Definition image_ext (m : string) : string * string := splitext (path_basename m +:+ ".img").

Lemma last_dot_img b : last_dot (b +:+ ".img") = Some (b, ".img").
Proof. induction b as [|c b IH]; [done|]. change (String c b +:+ ".img") with (String c (b +:+ ".img")). cbn [last_dot]. by rewrite IH. Qed.

Lemma splitext_img b : splitext (b +:+ ".img") = if str_forallb is_dot b then (b +:+ ".img", "") else (b, ".img").
Proof. unfold splitext. by rewrite last_dot_img. Qed.

Lemma framework_not_dots b : is_framework b = true -> str_forallb is_dot b = false.
Proof. unfold is_framework. rewrite bool_decide_eq_true. intros H. by repeat (apply elem_of_cons in H as [->|H]; [done|]); apply elem_of_nil in H. Qed.

Lemma framework_lower b : is_framework b = true -> str_lower b = b.
Proof. unfold is_framework. rewrite bool_decide_eq_true. intros H. by repeat (apply elem_of_cons in H as [->|H]; [done|]); apply elem_of_nil in H. Qed.

Lemma framework_no_slash b : is_framework b = true -> path_basename b = b.
Proof. unfold is_framework. rewrite bool_decide_eq_true. intros H. by repeat (apply elem_of_cons in H as [->|H]; [done|]); apply elem_of_nil in H. Qed.

(** The image an item names, as [InferItemList] sees it. *)
Lemma image_of_item d m : path_basename (d +:+ String "/" (m +:+ ".img")) = path_basename m +:+ ".img".
Proof. rewrite path_basename_slash. by apply path_basename_app. Qed.

(** * What is inferred *)

(** An item for a name of the build. *)
Definition name_item (framework : bool) (name item : string) : Prop :=
  (str_lower (dir_of name) ∈ image_dirs /\ item = name /\
   let '(p, ext) := splitext (path_basename name) in
   p <> "vbmeta" /\ (ext ∈ [".img"; ".map"] -> framework = is_framework p) /\ (ext ∉ [".img"; ".map"] -> framework = false)) \/
  (str_lower (dir_of name) ∉ image_dirs /\ framework = is_framework (str_lower (dir_of name)) /\
   (item = str_upper (str_lower (dir_of name)) +:+ "/*" \/ exists t, item = "META/" +:+ t)).

Lemma infer_step_in framework st name item : item ∈ (infer_step framework st name).1 -> item ∈ st.1 \/ name_item framework name item.
Proof.
  destruct st as [items seen]. unfold infer_step, name_item. fold (dir_of name). cbv zeta. cbn [fst].
  destruct (ends_with "/" name); [auto|]. destruct (String.eqb (str_lower (dir_of name)) "meta"); [auto|].
  change ["images"; "prebuilt_images"] with image_dirs. case_bool_decide as Hdir.
  - destruct (splitext (path_basename name)) as [p ext]. destruct (String.eqb_spec p "vbmeta"); [auto|]. case_bool_decide as Hext.
    + destruct (Bool.eqb framework (is_framework p)) eqn:Ef; [|auto]. apply eqb_prop in Ef. cbn.
      intros [H|H%list_elem_of_singleton]%elem_of_app; [auto|]. subst item. right. left. split_and!; done.
    + destruct framework; cbn; [auto|]. intros [H|H%list_elem_of_singleton]%elem_of_app; [auto|]. subst item. right. left. split_and!; done.
  - case_bool_decide; [auto|]. cbn. destruct (Bool.eqb framework (is_framework (str_lower (dir_of name)))) eqn:Ef; [|auto]. apply eqb_prop in Ef.
    intros [H'|H']%elem_of_app; [auto|]. right. right. split_and!; [done..|].
    apply elem_of_cons in H' as [->|H'%list_elem_of_singleton]; [auto|]. subst item. right. by eexists.
Qed.

Lemma InferItemList_in names framework item : item ∈ InferItemList names framework ->
  item ∈ meta_items framework \/ exists name, name ∈ names /\ name_item framework name item.
Proof.
  unfold InferItemList. rewrite elem_of_sort_by, elem_of_remove_dups.
  assert (H : forall st, item ∈ (foldl (infer_step framework) st names).1 -> item ∈ st.1 \/ exists name, name ∈ names /\ name_item framework name item).
  { induction names as [|n names IH]; intros st H; [by left|]. cbn in H. apply IH in H as [H|(name & Hn & H)].
    - apply infer_step_in in H as [?|?]; [by left|]. right. exists n. split; [by left|done].
    - right. exists name. split; [by right|done]. }
  intros H'. by apply H in H'.
Qed.

(** ** Partitions *)

Lemma lstrip_head c s : lstrip (String c s) = String c s -> is_space c = false.
Proof.
  cbn [lstrip]. destruct (is_space c) eqn:E; [|done]. intros H. destruct (lstrip_suffix s) as [p Hp]. rewrite H in Hp.
  apply (f_equal String.length) in Hp. rewrite str_app_len in Hp. cbn in Hp. lia.
Qed.

Lemma dir_of_head name c d : dir_of name = String c d -> exists s, name = String c s.
Proof.
  unfold dir_of. destruct name as [|c' s]; [done|]. cbn [split_char]. destruct (Ascii.eqb c' "/"); [done|].
  destruct (split_char "/" s); cbn; intros [= -> _]; eauto.
Qed.

Lemma strip_dir_item name : lstrip name = name -> strip (str_upper (str_lower (dir_of name)) +:+ "/*") = str_upper (str_lower (dir_of name)) +:+ "/*".
Proof.
  intros Hn. unfold strip. destruct (dir_of name) as [|c d] eqn:E; [done|].
  destruct (dir_of_head _ _ _ E) as (s & ->). apply lstrip_head in Hn.
  change (str_upper (str_lower (String c d))) with (String (to_upper (to_lower c)) (str_upper (str_lower d))).
  change (String ?x ?y +:+ "/*") with (String x (y +:+ "/*")). cbn [lstrip]. rewrite upper_lower_space, Hn.
  change (String ?x (?y +:+ "/*")) with (String x y +:+ "/*"). by rewrite rstrip_append.
Qed.

Lemma strip_no_newline s t : strip s = s -> s = t +:+ String newline "" -> False.
Proof.
  intros Hs Ht. pose proof (strip_trimmed s) as [_ H]. rewrite Hs, Ht in H. rewrite rstrip_append in H.
  change (rstrip (String newline "")) with "" in H. rewrite String.eqb_refl in H. apply (f_equal String.length) in H. rewrite str_app_len in H. pose proof (rstrip_len t). cbn in H. lia.
Qed.

(** No name of a build begins or ends with a blank. *)
Definition stripped_names (names : list string) : Prop := forall name, name ∈ names -> strip name = name.
(** The names of images are in lower case. *)
Definition lower_images (names : list string) : Prop :=
  forall name, name ∈ names -> str_lower (dir_of name) ∈ image_dirs -> str_lower (path_basename name) = path_basename name.

Lemma meta_items_none framework item : item ∈ meta_items framework -> item_partitions item = [].
Proof. destruct framework; intros H; by repeat (apply elem_of_cons in H as [->|H]; [by vm_compute|]); apply elem_of_nil in H. Qed.

Lemma image_item_partition framework name p :
  strip name = name -> (framework = false -> str_lower (path_basename name) = path_basename name) ->
  str_lower (dir_of name) ∈ image_dirs ->
  (let '(q, ext) := splitext (path_basename name) in
   q <> "vbmeta" /\ (ext ∈ [".img"; ".map"] -> framework = is_framework q) /\ (ext ∉ [".img"; ".map"] -> framework = false)) ->
  p ∈ item_partitions name -> is_framework (path_basename p) = framework.
Proof.
  intros Hs Hlow Hdir Hq [Hn Hp]%item_partitions_in. rewrite Hs in Hp.
  destruct Hp as [(d & t & -> & Hc & _ & ->)|(d & m & r & Hname & Hr & Hc & _ & ->)].
  { rewrite dir_of_app in Hdir by done. destruct Hn. by right. }
  destruct Hr as [->| ->]; [|exfalso; eapply strip_no_newline; [exact Hs|]; rewrite Hname, <- (str_app_assoc m ".img");
    exact (eq_sym (str_app_assoc d (String "/" (m +:+ ".img")) (String newline "")))].
  change (".img" +:+ "") with ".img" in Hname. rewrite Hname, image_of_item, splitext_img in Hq. rewrite Hname, image_of_item in Hlow.
  rewrite path_basename_lower. set (b := path_basename m) in *.
  assert (Hb : framework = false -> str_lower b = b).
  { intros Hf. specialize (Hlow Hf). unfold str_lower in Hlow. rewrite str_map_app in Hlow. by apply str_app_inv_tail in Hlow. }
  destruct (str_forallb is_dot b) eqn:Hdots; destruct Hq as (_ & H1 & H2).
  - assert (framework = false) as -> by (apply H2, (bool_decide_unpack _); by vm_compute). rewrite (Hb eq_refl).
    destruct (is_framework b) eqn:E; [|done]. apply framework_not_dots in E. congruence.
  - specialize (H1 ltac:(by left)). destruct framework; [by rewrite framework_lower|]. by rewrite (Hb eq_refl).
Qed.

Lemma dir_item_partition name p : lstrip name = name -> str_lower (dir_of name) ∉ image_dirs ->
  p ∈ item_partitions (str_upper (str_lower (dir_of name)) +:+ "/*") -> p = str_lower (dir_of name).
Proof.
  intros Hs Hdir [Hn Hp]%item_partitions_in. rewrite strip_dir_item in Hp by done. set (U := str_upper (str_lower (dir_of name))) in *.
  assert (HU : has_char "/" U = false).
  { unfold U, str_upper, str_lower. rewrite (has_char_map _ _ _ upper_slash), (has_char_map _ _ _ lower_slash). apply dir_of_slash. }
  assert (HL : str_lower U = str_lower (dir_of name)) by apply str_lower_upper_lower.
  destruct Hp as [(d & t & Hd & Hc & _ & ->)|(d & m & r & Hd & _ & Hc & Hi & ->)].
  - apply (split_at_char "/" U d "*") in Hd as [<- _]; [|done|done]. exact HL.
  - apply (split_at_char "/" U d "*") in Hd as [<- _]; [|done|done]. by rewrite HL in Hi.
Qed.

Lemma inferred_partition framework names p :
  stripped_names names -> (framework = false -> lower_images names) ->
  p ∈ ItemListToPartitionSet (InferItemList names framework) -> is_framework (path_basename p) = framework.
Proof.
  intros Hs Hl. unfold ItemListToPartitionSet. rewrite elem_of_remove_dups, list_elem_of_In, in_flat_map.
  intros (item & Hitem & Hp). apply list_elem_of_In in Hitem, Hp.
  apply InferItemList_in in Hitem as [Hm|(name & Hn & [(Hdir & -> & Hq)|(Hdir & Hf & Hi)])].
  - rewrite (meta_items_none _ _ Hm) in Hp. by apply elem_of_nil in Hp.
  - eapply image_item_partition; [by apply Hs | | exact Hdir | exact Hq | exact Hp]. intros Hf. by apply (Hl Hf name).
  - destruct Hi as [->|(t & ->)]; [|rewrite meta_item_none in Hp; by apply elem_of_nil in Hp].
    apply dir_item_partition in Hp as ->; [| |done].
    + rewrite path_basename_noslash; [done|]. unfold str_lower. rewrite (has_char_map _ _ _ lower_slash). apply dir_of_slash.
    + rewrite <- (Hs name Hn). apply strip_trimmed.
Qed.

(** Every name of a partition of the framework is seen, and its items are in the list. *)
Definition partition_names (names : list string) (p : string) : Prop :=
  exists name, name ∈ names /\ ends_with "/" name = false /\ str_lower (dir_of name) = p.

Lemma infer_step_taken p st name :
  is_framework p = true -> (p ∈ st.2 -> str_upper p +:+ "/*" ∈ st.1) ->
  let st' := infer_step true st name in
  (p ∈ st'.2 -> str_upper p +:+ "/*" ∈ st'.1) /\ (forall q, q ∈ st.2 -> q ∈ st'.2) /\
  (ends_with "/" name = false -> str_lower (dir_of name) = p -> p ∈ st'.2).
Proof.
  destruct st as [items seen]. unfold infer_step. fold (dir_of name). cbv zeta. cbn [fst snd]. intros Hp Hinv.
  destruct (ends_with "/" name); [done|].
  destruct (String.eqb_spec (str_lower (dir_of name)) "meta") as [Hm|_]; [split_and!; [done|done|]; intros _ <-; by rewrite Hm in Hp|].
  change ["images"; "prebuilt_images"] with image_dirs. case_bool_decide as Hdir.
  { assert (str_lower (dir_of name) <> p) as Hne.
    { intros <-. by repeat (apply elem_of_cons in Hdir as [Hdir|Hdir]; [by rewrite Hdir in Hp|]); apply elem_of_nil in Hdir. }
    destruct (splitext (path_basename name)) as [q ext]. repeat case_match; cbn; split_and!; try done; intros ?; apply elem_of_app; left; auto. }
  case_bool_decide as Hseen; [split_and!; [done|done|]; by intros _ <-|]. cbn. split_and!.
  - intros [H|H%list_elem_of_singleton]%elem_of_app; [case_match; [apply elem_of_app; left|]; auto|].
    subst p. rewrite Hp. cbn. apply elem_of_app. right. by left.
  - intros q H. apply elem_of_app. by left.
  - intros _ ->. apply elem_of_app. right. by left.
Qed.

Lemma framework_partition_taken names p : is_framework p = true -> partition_names names p -> p ∈ ItemListToPartitionSet (InferItemList names true).
Proof.
  intros Hp (name & Hn & He & Hd). unfold ItemListToPartitionSet. rewrite elem_of_remove_dups, list_elem_of_In, in_flat_map.
  exists (str_upper p +:+ "/*"). rewrite <- !list_elem_of_In. split.
  2: { unfold is_framework in Hp. rewrite bool_decide_eq_true in Hp. clear -Hp.
       repeat (apply elem_of_cons in Hp as [->|Hp]; [apply (bool_decide_unpack _); by vm_compute|]). by apply elem_of_nil in Hp. }
  unfold InferItemList. rewrite elem_of_sort_by, elem_of_remove_dups.
  assert (H : forall st, (p ∈ st.2 -> str_upper p +:+ "/*" ∈ st.1) ->
    let st' := foldl (infer_step true) st names in (p ∈ st'.2 -> str_upper p +:+ "/*" ∈ st'.1) /\ (p ∈ st.2 \/ name ∈ names -> p ∈ st'.2)).
  { clear Hn. induction names as [|n names IH]; intros st Hst; cbn; [split; [done|]; intros [?|H]; [done|by apply elem_of_nil in H]|].
    destruct (infer_step_taken p st n Hp Hst) as (H1 & H2 & H3). destruct (IH _ H1) as (H4 & H5). split; [exact H4|].
    intros [H|[->|H]%elem_of_cons]; apply H5; auto. }
  destruct (H (meta_items true, [])) as [H1 H2]; [intros H'; by apply elem_of_nil in H'|]. auto.
Qed.

Lemma inferred_keys names key : key ∈ ["dynamic_partition_list"; "super_partition_groups"] -> key ∉ InferFrameworkMiscInfoKeys names.
Proof.
  intros Hkey. unfold InferFrameworkMiscInfoKeys. rewrite elem_of_sort_by. intros [H|H]%elem_of_app.
  { by repeat (apply elem_of_cons in Hkey as [->|Hkey]; [by apply (bool_decide_pack _) in H|]); apply elem_of_nil in Hkey. }
  apply list_elem_of_In, in_flat_map in H as (p & Hp & (dir & _ & H)%in_flat_map). case_bool_decide; [|done]. apply list_elem_of_In in Hp, H.
  repeat (apply elem_of_cons in Hp as [->|Hp];
    [repeat (apply elem_of_cons in Hkey as [->|Hkey]; [by apply (bool_decide_pack _) in H|]); by apply elem_of_nil in Hkey|]).
  by apply elem_of_nil in Hp.
Qed.

(** C29: the lists inferred from two builds pass the validation, so no partition is
    taken from both and the keys of dynamic partitions come from the vendor's
    build; the partitions taken from the framework's build are those that belong
    to it, every one of which it has a file for, and those of the vendor's build
    are others.  Names do not begin or end with blanks, and images of the
    vendor's build are named in lower case. *)
Theorem inferred_lists_valid framework_names vendor_names duplicates partial :
  stripped_names framework_names -> stripped_names vendor_names -> lower_images vendor_names ->
  let o := merge_options (mkMergeLists None None None) framework_names vendor_names duplicates partial in
  ValidateConfigLists o = true /\
  (forall p, p ∈ framework_partition_set o -> is_framework (path_basename p) = true) /\
  (forall p, p ∈ vendor_partition_set o -> is_framework (path_basename p) = false) /\
  (forall p, is_framework p = true -> partition_names framework_names p -> p ∈ framework_partition_set o).
Proof.
  intros Hf Hv Hl o. assert (H1 : forall p, p ∈ framework_partition_set o -> is_framework (path_basename p) = true).
  { intros p. by apply inferred_partition. }
  assert (H2 : forall p, p ∈ vendor_partition_set o -> is_framework (path_basename p) = false).
  { intros p. by apply inferred_partition. }
  split_and!; [|done|done|intros p; apply framework_partition_taken].
  unfold ValidateConfigLists. apply andb_true_iff. split.
  - apply bool_decide_eq_true_2. destruct (filter _ _) as [|p l] eqn:E; [done|]. exfalso.
    assert (H : p ∈ p :: l) by by left. rewrite <- E in H. apply list_elem_of_filter in H as [Hp Hq].
    specialize (H1 p Hq). specialize (H2 p Hp). congruence.
  - apply negb_true_iff, not_true_iff_false. intros (key & Hkey & Hin%bool_decide_eq_true)%existsb_exists. apply list_elem_of_In in Hkey.
    by apply (inferred_keys framework_names key).
Qed.

Definition ex_framework_names : list string :=
  ["IMAGES/product.img"; "IMAGES/product.map"; "IMAGES/system.img"; "SYSTEM/"; "SYSTEM/my_system_file"; "PRODUCT/my_product_file"; "VENDOR/build.prop"].
Definition ex_vendor_names : list string :=
  ["VENDOR/my_vendor_file"; "IMAGES/odm.img"; "IMAGES/system.img"; "IMAGES/my_custom_file.txt"; "IMAGES/vbmeta.img"; "SYSTEM/build.prop"; "ODM/x"].

Lemma inferred_lists_valid_witness :
  let o := merge_options (mkMergeLists None None None) ex_framework_names ex_vendor_names false false in
  framework_item_list o = ["IMAGES/product.img"; "IMAGES/product.map"; "IMAGES/system.img"; "META/filesystem_config.txt"; "META/liblz4.so";
    "META/postinstall_config.txt"; "META/product_filesystem_config.txt"; "META/zucchini_config.txt"; "PRODUCT/*"; "SYSTEM/*"] /\
  vendor_partition_set o = ["odm"; "vendor"] /\ ValidateConfigLists o = true.
Proof.
  intros o. split; [by vm_compute|]. split; [by vm_compute|].
  refine (proj1 (inferred_lists_valid ex_framework_names ex_vendor_names false false _ _ _)).
  all: intros name Hn; by repeat (apply elem_of_cons in Hn as [->|Hn]; [by vm_compute|]); apply elem_of_nil in Hn.
Defined.

(** * Keys of packages *)

(** The module that the first word of a line names. *)
Definition line_module (line : string) : option string := w ← head (split_ws line); re_search MODULE_KEY_PATTERN w.

Lemma read_keys_ok content d : read_keys content = Ok d ->
  NoDup (od_keys d) /\ forall k v, (k, v) ∈ d -> line_module v = Some k /\ exists line, line ∈ splitlines content /\ v = strip line.
Proof.
  intros H. apply (foldM_ind (fun l d => NoDup (od_keys d) /\
    forall k v, (k, v) ∈ d -> line_module v = Some k /\ exists line, line ∈ l /\ v = strip line) key_line_step) in H; [exact H | split; [constructor|intros k v H'; by apply elem_of_nil in H'] |].
  intros pre line post m m' _ [Hn Hin] Hstep. unfold key_line_step in Hstep.
  assert (Hmono : forall k v, (k, v) ∈ m -> line_module v = Some k /\ exists l, l ∈ pre ++ [line] /\ v = strip l).
  { intros k v Hk. destruct (Hin k v Hk) as (? & l & ? & ?). split; [done|]. exists l. split; [apply elem_of_app; by left|done]. }
  destruct (str_true (strip line)); cbn [negb] in Hstep; [|injection Hstep as <-; split; [done|exact Hmono]].
  destruct (head (split_ws (strip line))) as [word|] eqn:Hw; [cbn in Hstep|done].
  destruct (re_search MODULE_KEY_PATTERN word) as [name|] eqn:Hm; [|done]. injection Hstep as <-.
  split; [by apply od_keys_set_NoDup|]. intros k v Hk.
  apply od_get_in in Hk; [|by apply od_keys_set_NoDup]. rewrite od_get_set in Hk. case_decide as Hkn; [|by apply Hmono, od_get_in].
  injection Hk as <-. subst k. split; [|exists line; split; [apply elem_of_app; right; by left|done]].
  unfold line_module. by rewrite Hw.
Qed.

(** The partition of an entry, and the entries of some partitions. *)
Definition entry_tag (line : string) : option string := re_search PARTITION_TAG_PATTERN line.
Definition tagged_in (partitions : list string) (line : string) : bool :=
  match entry_tag line with Some tag => bool_decide (tag ∈ partitions) | None => false end.
Definition untagged (d : dict) : Prop := exists k v, (k, v) ∈ d /\ entry_tag v = None.
Definition entries_in (partitions : list string) (d : dict) (k v : string) : Prop := (k, v) ∈ d /\ tagged_in partitions v = true.

(** A key that would be taken twice. *)
Definition clash (partitions : list string) (merged d : dict) : Prop := exists k v, entries_in partitions d k v /\ k ∈ od_keys merged.
Definition new_entries (partitions : list string) (merged d : dict) : dict :=
  filter (fun kv => tagged_in partitions kv.2 = true /\ kv.1 ∉ od_keys merged) d.

Section tagged_entry.
Context (partitions : list string) (k v tag : string) (Htag : entry_tag v = Some tag).

Lemma tagged_in_tag : tagged_in partitions v = bool_decide (tag ∈ partitions).
Proof using Htag. unfold tagged_in. by rewrite Htag. Qed.

Lemma untagged_cons d : untagged ((k, v) :: d) <-> untagged d.
Proof using Htag.
  split; intros (k' & v' & H & Hv); [apply elem_of_cons in H as [[= -> ->]|H]; [congruence|]|]; exists k', v'; (split; [|done]); [done|by right].
Qed.

Lemma clash_cons merged d : clash partitions merged ((k, v) :: d) <-> (tag ∈ partitions /\ k ∈ od_keys merged) \/ clash partitions merged d.
Proof using Htag.
  unfold clash, entries_in. split.
  - intros (k' & v' & [[[= -> ->]|H]%elem_of_cons Ht] & Hk); [left|right; by exists k', v'].
    rewrite tagged_in_tag in Ht. by apply bool_decide_eq_true in Ht.
  - intros [[Ht Hk]|(k' & v' & [H Ht] & Hk)].
    + exists k, v. split; [|done]. split; [by left|]. rewrite tagged_in_tag. by apply bool_decide_eq_true_2.
    + exists k', v'. split; [|done]. split; [by right|done].
Qed.

Lemma new_entries_cons merged d :
  new_entries partitions merged ((k, v) :: d) =
  (if bool_decide (tag ∈ partitions) && negb (bool_decide (k ∈ od_keys merged)) then [(k, v)] else []) ++ new_entries partitions merged d.
Proof using Htag.
  unfold new_entries. rewrite filter_cons. cbn [fst snd]. rewrite tagged_in_tag. case_decide as D.
  - rewrite bool_decide_eq_true in D. destruct D. by rewrite bool_decide_eq_true_2, bool_decide_eq_false_2.
  - rewrite bool_decide_eq_true in D. destruct (bool_decide (tag ∈ partitions)) eqn:H1; [|done]. apply bool_decide_eq_true in H1.
    destruct (bool_decide (k ∈ od_keys merged)) eqn:H2; [done|]. apply bool_decide_eq_false in H2. tauto.
Qed.
End tagged_entry.

Lemma filter_ext_elem {A} (P Q : A -> Prop) `{!forall x, Decision (P x), !forall x, Decision (Q x)} (l : list A) :
  (forall x, x ∈ l -> P x <-> Q x) -> filter P l = filter Q l.
Proof.
  induction l as [|x l IH]; intros HPQ; [done|]. rewrite !filter_cons, IH by (intros; apply HPQ; by right).
  specialize (HPQ x ltac:(by left)). destruct (decide (P x)), (decide (Q x)); try done; tauto.
Qed.

(** Adding an entry whose key is not among those left changes nothing for them. *)
Lemma keys_fresh (merged d : dict) k v k' v' :
  k ∉ od_keys d -> (k', v') ∈ d -> k' ∈ od_keys (merged ++ [(k, v)]) <-> k' ∈ od_keys merged.
Proof.
  intros Hk H. unfold od_keys. rewrite map_app, elem_of_app. cbn. rewrite list_elem_of_singleton. split; [|auto]. intros [?| ->]; [done|].
  destruct Hk. apply list_elem_of_fmap. by exists (k, v').
Qed.

Lemma clash_fresh partitions merged d k v : k ∉ od_keys d -> clash partitions (merged ++ [(k, v)]) d <-> clash partitions merged d.
Proof. intros Hk. unfold clash. split; intros (k' & v' & H & H'); exists k', v'; (split; [done|]); by apply (keys_fresh merged d k v k' v' Hk (proj1 H)). Qed.

Lemma new_entries_fresh partitions merged d k v : k ∉ od_keys d -> new_entries partitions (merged ++ [(k, v)]) d = new_entries partitions merged d.
Proof.
  intros Hk. apply filter_ext_elem. intros [k' v'] H. cbn. by rewrite (keys_fresh merged d k v k' v' Hk H).
Qed.

Lemma filter_fold_spec o partitions merged d : NoDup (od_keys d) ->
  match foldM (filter_step o partitions) merged d with
  | Ok m => ~ untagged d /\ m = merged ++ new_entries partitions merged d /\
      (allow_duplicate_apkapex_keys o = true \/ ~ clash partitions merged d)
  | Raise e => e = ValueError /\ (untagged d \/ (allow_duplicate_apkapex_keys o = false /\ clash partitions merged d))
  end.
Proof.
  revert merged. induction d as [|[k v] d IH]; intros merged Hd.
  { cbn. split_and!; [intros (k & v & H & _); by apply elem_of_nil in H | by rewrite app_nil_r | right; intros (k & v & [H _] & _); by apply elem_of_nil in H]. }
  apply NoDup_cons in Hd as [Hk Hd]. cbn [foldM filter_step]. change (re_search PARTITION_TAG_PATTERN v) with (entry_tag v).
  destruct (entry_tag v) as [tag|] eqn:Et; cbn [of_option]; [|split; [done|]; left; exists k, v; split; [by left|done]].
  pose proof (untagged_cons k v tag Et d) as Hu. pose proof (clash_cons partitions k v tag Et merged d) as Hc.
  pose proof (new_entries_cons partitions k v tag Et merged d) as Hn. unfold od_mem.
  destruct (bool_decide (tag ∈ partitions)) eqn:Ht; [apply bool_decide_eq_true in Ht | apply bool_decide_eq_false in Ht]; cbn [negb andb] in Hn |- *.
  2: { specialize (IH merged Hd). rewrite Hn. destruct (foldM _ merged d); rewrite Hu, Hc; tauto. }
  destruct (bool_decide (k ∈ od_keys merged)) eqn:Hm; [apply bool_decide_eq_true in Hm | apply bool_decide_eq_false in Hm]; cbn [negb] in Hn.
  - specialize (IH merged Hd). rewrite Hn. destruct (allow_duplicate_apkapex_keys o); [|rewrite Hu, Hc; tauto].
    destruct (foldM _ merged d); rewrite Hu, ?Hc; intuition done.
  - rewrite od_set_fresh by done. specialize (IH (merged ++ [(k, v)]) Hd).
    rewrite new_entries_fresh, <- app_assoc in IH by done. pose proof (clash_fresh partitions merged d k v Hk) as Hf. rewrite Hn.
    destruct (foldM _ (merged ++ [(k, v)]) d); rewrite Hu, Hc; tauto.
Qed.

Lemma new_entries_in partitions (merged d : dict) k v :
  (k, v) ∈ new_entries partitions merged d <-> entries_in partitions d k v /\ k ∉ od_keys merged.
Proof. unfold new_entries, entries_in. rewrite list_elem_of_filter. cbn. tauto. Qed.

Lemma new_entries_keys partitions (merged d : dict) k :
  k ∈ od_keys (new_entries partitions merged d) <-> (exists v, entries_in partitions d k v) /\ k ∉ od_keys merged.
Proof.
  unfold od_keys. rewrite list_elem_of_fmap. split.
  - intros ([k' v] & -> & H%new_entries_in). destruct H. eauto.
  - intros [(v & H) Hk]. exists (k, v). split; [done|]. by apply new_entries_in.
Qed.

Lemma new_entries_NoDup partitions (merged d : dict) : NoDup (od_keys d) -> NoDup (od_keys (new_entries partitions merged d)).
Proof.
  intros H. unfold new_entries, od_keys in *. induction d as [|[k v] d IH]; [done|]. apply NoDup_cons in H as [Hk Hd]. rewrite filter_cons.
  case_decide; [|by apply IH]. cbn. apply NoDup_cons. split; [|by apply IH]. intros ([k' v'] & -> & H'%list_elem_of_filter)%list_elem_of_fmap.
  apply Hk. apply list_elem_of_fmap. exists (k', v'). tauto.
Qed.

(** A key that both builds have, in partitions that are theirs. *)
Definition taken_twice (o : MergeOptions) (d1 d2 : dict) : Prop :=
  exists k v v', entries_in (framework_partition_set o) d1 k v /\ entries_in (vendor_partition_set o) d2 k v'.

(** What the merge takes: the framework's entries first. *)
Definition merged_entry (o : MergeOptions) (d1 d2 : dict) (k v : string) : Prop :=
  entries_in (framework_partition_set o) d1 k v \/
  (entries_in (vendor_partition_set o) d2 k v /\ ~ exists v', entries_in (framework_partition_set o) d1 k v').

Lemma merge_keys_spec o d1 d2 : NoDup (od_keys d1) -> NoDup (od_keys d2) ->
  match merge_keys o d1 d2 with
  | Ok m => NoDup (od_keys m) /\ (forall k v, (k, v) ∈ m <-> merged_entry o d1 d2 k v) /\
      ~ untagged d1 /\ ~ untagged d2 /\ (allow_duplicate_apkapex_keys o = true \/ ~ taken_twice o d1 d2)
  | Raise e => e = ValueError /\ (untagged d1 \/ untagged d2 \/ (allow_duplicate_apkapex_keys o = false /\ taken_twice o d1 d2))
  end.
Proof.
  intros H1 H2. unfold merge_keys. set (fp := framework_partition_set o). set (vp := vendor_partition_set o).
  pose proof (filter_fold_spec o fp [] d1 H1) as F1. destruct (foldM _ [] d1) as [m1|e].
  2: { destruct F1 as (-> & [?|(_ & k & v & _ & Hk%elem_of_nil)]); [|done]. auto. }
  destruct F1 as (Hu1 & -> & _). cbn [app]. set (m1 := new_entries fp [] d1).
  assert (Hm1 : forall k v, (k, v) ∈ m1 <-> entries_in fp d1 k v).
  { intros k v. unfold m1. rewrite new_entries_in. split; [tauto|]. intros H. split; [done|]. by intros ?%elem_of_nil. }
  assert (Hk1 : forall k, k ∈ od_keys m1 <-> exists v, entries_in fp d1 k v).
  { intros k. unfold m1. rewrite new_entries_keys. split; [tauto|]. intros H. split; [done|]. by intros ?%elem_of_nil. }
  assert (Hc : clash vp m1 d2 <-> taken_twice o d1 d2).
  { unfold clash, taken_twice. fold fp vp. split.
    - intros (k & v & H & (v' & H')%Hk1). by exists k, v', v.
    - intros (k & v' & v & H & H'). exists k, v. split; [done|]. apply Hk1. eauto. }
  pose proof (filter_fold_spec o vp m1 d2 H2) as F2. destruct (foldM _ m1 d2) as [m|e].
  - destruct F2 as (Hu2 & -> & Hd). rewrite Hc in Hd. split_and!; try done.
    + unfold od_keys. rewrite map_app. apply NoDup_app. split_and!; [by apply new_entries_NoDup| |by apply new_entries_NoDup].
      intros k Hk Hk'. apply new_entries_keys in Hk'. tauto.
    + intros k v. unfold merged_entry. fold fp vp. rewrite elem_of_app, Hm1, new_entries_in, Hk1. done.
  - destruct F2 as (-> & F2). rewrite Hc in F2. tauto.
Qed.

Lemma keys_sorted (d : dict) : NoDup (od_keys d) ->
  StronglySorted (fun a b => String.ltb a.1 b.1 = true) (sort_by (fun a b => String.leb a.1 b.1) d).
Proof.
  intros Hd. pose proof (sort_by_sorted (fun a b : string * string => String.leb a.1 b.1) (fun a b => string_leb_total a.1 b.1)
    (fun a b c => string_leb_trans a.1 b.1 c.1) d) as Hs.
  assert (Hn : NoDup (od_keys (sort_by (fun a b : string * string => String.leb a.1 b.1) d))).
  { unfold od_keys in *. by rewrite sort_by_perm. }
  induction Hs as [|[k v] l Hs IH Hall]; [constructor|]. apply NoDup_cons in Hn as [Hk Hn]. constructor; [by apply IH|].
  apply Forall_forall. intros [k' v'] Hin. rewrite Forall_forall in Hall. specialize (Hall _ Hin). cbn in Hall |- *.
  rewrite string_ltb_leb. apply negb_true_iff. destruct (String.leb k' k) eqn:E; [|done]. exfalso.
  apply Hk. apply list_elem_of_fmap. exists (k', v'). split; [|done]. cbn. by apply string_leb_antisym.
Qed.

(** C30: the merge of a list of package keys decides: it fails where an entry names
    no partition, or where both builds list the same module for partitions of
    theirs (unless that is allowed); otherwise the merged list has, in the order
    of the modules and once each, the framework's lines for partitions of the
    framework's build and the vendor's lines for partitions of the vendor's
    build, save for modules that the framework's lines have.  Every entry is a
    line of its file, under the module it names. *)
Theorem package_keys_merged o framework vendor file_name text1 text2 d1 d2 :
  file_name ∈ ["apkcerts.txt"; "apexkeys.txt"] ->
  framework !! file_name = Some text1 -> vendor !! file_name = Some text2 ->
  read_keys text1 = Ok d1 -> read_keys text2 = Ok d2 ->
  (forall k v, (k, v) ∈ d1 ++ d2 -> line_module v = Some k /\ exists line, line ∈ splitlines text1 ++ splitlines text2 /\ v = strip line) /\
  match MergePackageKeys o framework vendor file_name with
  | Ok text => exists entries : dict, text = str_join "" (map (fun '(_, value) => end_line value) entries) /\
      StronglySorted (fun a b => String.ltb a.1 b.1 = true) entries /\
      (forall k v, (k, v) ∈ entries <-> merged_entry o d1 d2 k v) /\
      ~ untagged d1 /\ ~ untagged d2 /\ (allow_duplicate_apkapex_keys o = true \/ ~ taken_twice o d1 d2)
  | Raise e => e = ValueError /\ (untagged d1 \/ untagged d2 \/ (allow_duplicate_apkapex_keys o = false /\ taken_twice o d1 d2))
  end.
Proof.
  intros Hf H1 H2 R1 R2. destruct (read_keys_ok _ _ R1) as [N1 L1]. destruct (read_keys_ok _ _ R2) as [N2 L2]. split.
  - intros k v [H|H]%elem_of_app; [destruct (L1 k v H) as (? & l & ? & ?) | destruct (L2 k v H) as (? & l & ? & ?)].
    all: split; [done|]; exists l; split; [apply elem_of_app; auto|done].
  - unfold MergePackageKeys. rewrite bool_decide_eq_true_2 by done. cbn [negb]. unfold read_meta. rewrite H1, H2. cbn [of_option].
    rewrite R1, R2. pose proof (merge_keys_spec o d1 d2 N1 N2) as Hm. destruct (merge_keys o d1 d2) as [m|e]; [|exact Hm].
    destruct Hm as (Hn & Hin & Hrest). exists (sort_by (fun a b => String.leb a.1 b.1) m). split; [done|]. split; [by apply keys_sorted|].
    split; [|exact Hrest]. intros k v. by rewrite elem_of_sort_by.
Qed.

Definition quoted (key value : string) : string := key +:+ "=" +:+ String "034" (value +:+ String "034" "").
Definition ex_key_line (module partition : string) : string := quoted "name" (module +:+ ".apk") +:+ " " +:+ quoted "partition" partition.
Definition ex_framework_keys : string := end_line (ex_key_line "b" "system") +:+ end_line (ex_key_line "c" "vendor").
Definition ex_vendor_keys : string := end_line (ex_key_line "d" "vendor") +:+ end_line "  " +:+ end_line (ex_key_line "a" "vendor").
Definition ex_merge_options : MergeOptions := merge_options (mkMergeLists None None None) ex_framework_names ex_vendor_names false false.

Lemma package_keys_merged_witness :
  MergePackageKeys ex_merge_options {["apkcerts.txt" := ex_framework_keys]} {["apkcerts.txt" := ex_vendor_keys]} "apkcerts.txt" =
    Ok (str_join "" (map end_line [ex_key_line "a" "vendor"; ex_key_line "b" "system"; ex_key_line "d" "vendor"])) /\
  ~ taken_twice ex_merge_options [("b", ex_key_line "b" "system"); ("c", ex_key_line "c" "vendor")]
      [("d", ex_key_line "d" "vendor"); ("a", ex_key_line "a" "vendor")].
Proof.
  split; [by vm_compute|].
  pose proof (package_keys_merged ex_merge_options {["apkcerts.txt" := ex_framework_keys]} {["apkcerts.txt" := ex_vendor_keys]} "apkcerts.txt"
    ex_framework_keys ex_vendor_keys [("b", ex_key_line "b" "system"); ("c", ex_key_line "c" "vendor")]
    [("d", ex_key_line "d" "vendor"); ("a", ex_key_line "a" "vendor")] ltac:(by left) ltac:(by vm_compute) ltac:(by vm_compute)
    ltac:(by vm_compute) ltac:(by vm_compute)) as [_ H].
  replace (MergePackageKeys _ _ _ _) with
    (Ok (str_join "" (map end_line [ex_key_line "a" "vendor"; ex_key_line "b" "system"; ex_key_line "d" "vendor"]))) in H by by vm_compute.
  destruct H as (_ & _ & _ & _ & _ & _ & [H|H]); [vm_compute in H; discriminate H|exact H].
Defined.
